(* ===== verification/_CoqProject ===== *)
-Q . S2P
Prelude.v
Lists.v
Blake2b.v
Numbers.v
Streams.v
Blocks.v
Store.v
Ledger.v
StoreFacts.v
LedgerInv.v
LedgerQueries.v
LedgerExtend.v
LedgerShrink.v
LedgerProcess.v
LedgerRollback.v
LedgerUndo.v
LedgerUnique.v
LedgerTheorems.v
LedgerSub.v
LedgerExamples.v
Codecs.v
Votes.v
VotesExamples.v
Work.v
Messages.v
Unchecked.v
Processor.v
Forks.v
GapCache.v
Convergence.v
Elections.v
ElectionTheorems.v
ProcessorExamples.v
Peers.v
BootstrapServer.v
BootstrapTheorems.v
BootstrapClient.v
BootstrapSync.v
BootstrapPush.v
BootstrapTransfer.v
BootstrapConnection.v
BootstrapServe.v
BootstrapExamples.v
DistributedWork.v
Wallet.v
WalletRing.v
WalletTheorems.v
WalletBackup.v
WalletActions.v
WalletActionTheorems.v
WalletExamples.v
NodeNetwork.v
NodeNetworkFacts.v
NodeNetworkTheorems.v
NodeNetworkRuns.v
NodeNetworkExamples.v
Versioning.v
Upgrades.v
UpgradeFacts.v
UpgradeSteps.v
UpgradeTheorems.v
UpgradeExamples.v
NumberText.v
NumberTextTheorems.v
Json.v
JsonTheorems.v
Conversions.v
Config.v
ConfigTheorems.v
TextExamples.v
Rpc.v
RpcLedger.v
RpcWallet.v
RpcServer.v
RpcControl.v
RpcQueries.v
RpcAnswers.v
RpcPayments.v
RpcBehaviours.v
RpcExamples.v
