(* ===== verification/Prelude.v ===== *)
(** * RaiBlocks: a verification development

    RaiBlocks (the sources under src/rai) is the node of a block-lattice
    cryptocurrency.  Every account has a chain of blocks of its own; a [send]
    block takes an amount from its account and leaves it pending, a [receive] or
    [open] block of the destination takes it up, a [change] block names another
    representative, whose weight in votes is the sum of the balances that name
    it.  This library models the parts that decide what the ledger is, translated
    function by function, and proves what they guarantee.

    ** The program's parts and the files that model them

    - Blake2b (blake2/blake2b-ref.c): the hash all identities rest on, as the
      buffered C implementation, and a definition of the same function from RFC
      7693 it is compared with.
    - Numbers (rai/lib/numbers.cpp): the unions of bytes and numbers and the
      textual form of accounts with its checksum; NumberText: hexadecimal and
      decimal text and the text of balances.
    - Streams, Blocks (rai/lib/blocks.hpp, blocks.cpp): reading and writing, the
      five kinds of block, their hashes, comparison and binary forms.
    - Store (block_store in rai/secure.cpp): the tables, as finite maps, and the
      operations on them; Codecs: the bytes of the records in the tables;
      Versioning (rai/versioning.cpp): those of older versions; Upgrades: the
      constructor of [block_store], which brings a database of an older version to
      the present one.
    - Ledger (rai/secure.cpp): [ledger_processor], [rollback_visitor], the
      visitors for amounts, balances and representatives, and the queries of
      [rai::ledger].
    - Votes (rai/secure.cpp): votes, the vote table with its cache, elections and
      their tally.
    - Work (rai/lib/work.cpp): proof of work and the pool of worker threads.
    - Messages (rai/node/common.cpp): the messages of the network and the parser
      of packets.

    - Unchecked (rai/secure.cpp): the blocks that wait for another one, with the
      cache in front of their table.
    - Processor (rai/node/node.cpp): [block_processor], its queue and thread, and
      [gap_cache].
    - Elections (rai/node/node.cpp, wallet.cpp): [election],
      [active_transactions] and the walk over the representatives of the wallets.
    - Peers (rai/node/node.cpp): [peer_container] and [block_arrival].
    - BootstrapServer, BootstrapConnection (rai/node/bootstrap.cpp): the servers
      that answer requests for frontiers, chains and ranges of blocks, and
      [bootstrap_server], the connection they write to; BootstrapClient: the
      clients that compare frontiers, pull and push, [block_synchronization] and
      the queue of [bootstrap_attempt]; BootstrapTransfer: [bootstrap_attempt::run]
      with one connection to another node.
    - Wallet, WalletBackup (rai/node/wallet.cpp): [wallet_store], its table,
      passwords, keys, upgrades and backups; WalletActions: the actions of a
      [wallet], the queue of [wallets] and the search for pending blocks.
    - DistributedWork (rai/node/node.cpp): the requests for work to other
      machines.
    - NodeNetwork (rai/node/node.cpp): the node as a whole on the network: packets
      that come in and go out, votes, the crawl for representatives, the alarm,
      the timers and the background tasks, on one state with the parts above.
    - Json (rai/lib/blocks.cpp): blocks as trees and JSON, both ways.
    - Conversions (rai/node/rpc.cpp, node.cpp): code that throws, and the numbers,
      ports and addresses of requests and configurations.
    - Config (rai/node/node.cpp, rpc.cpp): [logging], [node_config] and
      [rpc_config], how they are written, upgraded and read.
    - Rpc, RpcLedger, RpcWallet, RpcServer (rai/node/rpc.cpp): the handlers of
      requests, on the state of a node with its wallets: what handlers are made of,
      those about the ledger, those about wallets and payments, and the others with
      the dispatch of requests.

    Blocks are handed from the parser (which checks their work) to the block
    processor, which offers them to the ledger (which checks everything else),
    keeps those whose predecessors are missing and releases them when these come;
    votes are weighed with the ledger, and the block an election settles on is
    forced into the ledger by the block processor.  A node that was away gets
    what it missed from another one by bootstrapping, which hands blocks to the
    block processor too.  A wallet makes and signs blocks for its accounts and
    hands them to the block processor of its own node.  Clients ask the node over
    JSON requests, which read and change all of these parts.

    ** How the code is rendered

    Machine integers are numbers in [Z] with [wrap] at the width of the type;
    the 128, 256 and 512 bit unions are the numbers they stand for, their bytes
    most significant first.  Reading from a stream is a [reader]: it yields a
    value and the rest, or the error result ([Short]), or a [fault].  Code that
    changes a table is in the state monad [M]; a failed [assert], the use of an
    indeterminate value and a loop that does not end in the fuel given are
    faults.  The virtual methods of a visitor become one function by cases on the
    kind of block.  Loops that follow the blocks of the ledger take fuel; the
    environment gives [loop_fuel], theorems about reachable ledgers ask for
    [query_fuel n] of it, where [n] bounds the number of blocks ever accepted, and
    [rollback_fuel] bounds the recursion of a rollback: both are shown to be
    enough, so the theorems are about results, not about runs that return.

    Threads are machines that take a step at every event; a theorem about them
    quantifies over all sequences of events.  Shared elections live in a heap;
    what is scheduled or sent is recorded in order.

    Handlers of requests and the reading of configurations are computations on a
    state that can throw ([exceptional]): an exception leaves what was changed before,
    a fault ends the node.  Every answer of a handler is recorded, so that a request
    can be seen to be answered once, several times or never.  The loops of handlers
    over the ledger take [loop_fuel] too; the search for a derived key and
    accounts_create take a fuel of their own, as the latter may never end.

    Signatures (Ed25519), AES, Argon2, the numbers of a stream, the clocks and the
    order in which an unordered container is walked are parameters: the classes
    [Environment], [Signing], [Iteration], [MultimapOrder], [NodeEnvironment],
    [PeerEnvironment], [CrawlEnvironment], [WalletCrypto], [HexStream],
    [NumberStream], [IntConversion] (both of boost::multiprecision), [PropertyTree]
    (the trees of boost and their JSON text, with the laws of insertion and of
    reading back), [AddressText] (the addresses of boost::asio), [RpcVersion] (the
    versions that are compiled in) and [WorkSource] (the work a node answers with,
    which DistributedWork is about).  Random numbers are arguments.  The network the
    program is built for is the class [Network].

    ** What is proved

    - The ledger (StoreFacts, LedgerInv, LedgerQueries, LedgerExtend,
      LedgerShrink, LedgerProcess, LedgerRollback, LedgerUndo, LedgerUnique,
      LedgerTheorems).  [reachable] is the set of ledgers that processing and
      rolling back blocks can produce from the genesis block.  The invariant of
      LedgerInv holds in all of them: chains are linked both ways, balances and
      pending amounts add up to the genesis amount, weights are the sums of the
      balances behind them, the checksum is the exclusive or of the heads.
      Processing is total and rejects without a change, rollback is total, ends,
      and undoes processing; the tables are a function of the set of blocks.
      The blocks offered are [admissible]: in range, with a hash that is none of
      the three reserved values (zero, one and the genesis account), with a
      representative that is not account zero ([zero_representative_asserts]
      shows why), and no version-2 sends, whose visitors do not end (two
      theorems show that).  Hash collisions are not excluded.  LedgerSub follows
      the runs that lead to a ledger, to show that every block is signed by the
      account of its chain and that the tables are well typed.
    - The database (UpgradeFacts, UpgradeSteps, UpgradeTheorems): a database of any
      version that holds a reachable ledger, in the records of that version and
      without what the version did not keep, opens as that ledger; the loops end
      with [query_fuel n] and one more than the number of accounts.
    - The block processor (Unchecked, Forks, GapCache, Convergence).  The cache
      and the table of unchecked blocks together are a set of pairs; a forced
      block takes the place of the one it contradicts; the gap cache is bounded;
      and in whatever order, how often and with whatever interruptions the blocks
      of a ledger arrive, the processor ends with that ledger and nothing
      unchecked, within a number of turns that the theorem states (every turn
      takes at least one block, and a block is queued at most once per addition
      and once per release).
    - Elections (ElectionTheorems): over all interleavings, with the ledger
      changing in between, no assertion fails, an election confirms at most once
      and at the latest at its fourth announcement, and a quorum decides it.
    - Peers: the container stays well formed and its selections are exact.
    - Bootstrapping: the servers send exactly what is asked for
      (BootstrapTheorems), a connection answers its requests in order whatever
      the order of completed reads and writes (BootstrapServe), two ledgers are
      compared exactly and a pull always ends (BootstrapSync), a push sends what
      is marked in the order of dependencies (BootstrapPush); and put together, a
      node with the genesis block that bootstraps from another one ends with its
      ledger (BootstrapTransfer).  The fuel of a session bounds the pieces it is
      sent in; the theorems ask for the number of accounts and blocks and a few.
    - The wallet: it is a key ring (WalletRing, WalletTheorems), a specification
      without encryption that every run of the wallet refines; keys are not lost
      when they are moved, and a backup restores them (WalletBackup); but the
      table gives every key away without the password.  What it sends, receives
      and changes is accepted by the node (WalletActionTheorems).  The keys put
      in must not have a special number as their account, nor a cipher text that
      looks like the mark of a derived key; a new block must not have the hash of
      another one.  The search for the next derived key takes fuel: the theorems
      ask that it exceeds the distance to the next index that is free.
    - Distributed work: it is answered once, with work that suffices.
    - The node (NodeNetworkFacts, NodeNetworkTheorems, NodeNetworkRuns): every
      packet, timer and task keeps one invariant over all parts, and everything a
      node sends can be parsed; so in a network of nodes, with packets lost,
      repeated and reordered, no node makes another fail an assertion.  What the
      block processor does to the ledger in between is any change to a reachable
      ledger.  Packets that stop the parser ([malformed_packets_fault]) are excluded.
    - Encodings: what is written is read back and nothing else is read, for
      blocks, the records of the tables, votes and messages; the account
      notation and the text of numbers are read back, and the text of a balance
      stands for the balance, cut off behind the digits asked for
      (NumberTextTheorems).
    - JSON (JsonTheorems): a block is read back from the JSON that is written of it.
    - Configuration (ConfigTheorems): a configuration in range is read back from
      what is written of it, one of the version before is upgraded, and every older
      one is refused.
    - Requests (RpcControl, RpcQueries, RpcAnswers, RpcPayments, RpcBehaviours):
      without control every request but ten leaves the node as it is, on a reachable
      ledger the queries are answered once and do not stop the node, the history of
      an account adds up to its balance, the delegators of a representative to its
      weight, chain and successors are the same blocks in opposite order; a block
      that is submitted with valid work ends as the block processor leaves it and can
      complete a payment; and a client that waits for a payment is answered once, in
      whatever order requests, payments and timeouts come.
    - BLAKE2b: the streaming implementation computes the RFC function of the
      concatenated input.
    - Votes: what [vote_validate] answers, that flushing the cache changes no
      answer, and that the winner of an election has the greatest weight.
    - Work: in every interleaving of the pool's threads requests are answered
      once and with valid work, and a worker can always make progress.
    - Messages: a packet is handed on exactly when it is the encoding of a
      well-formed message with sufficient work.

    Some theorems record behaviour that is not intended: [hash_confuses_kinds],
    [send_v2_queries_diverge], [send_v2_rollback_diverges],
    [send_v2_action_hazards], [zero_representative_asserts],
    [replayed_vote_accepted], [decode_account_accepts_foreign_characters],
    [malformed_packets_fault], [known_block_loses_its_signature],
    [purge_old_exact], [announcements_not_limited], [pull_never_given_up],
    [range_pull_thinned], [wallet_opens_without_password], [send_sync_null],
    [load_errors_forgotten], [cancelled_work_throws], [gone_block_stops_node],
    [checksum_lost], [too_many_digits], [own_json_refused], [old_config_refused],
    [bad_version_throws], [big_peering_port], [big_port],
    [largest_account_stops_node], [second_wait_stops_node],
    [move_within_wallet_loses_key], [remove_erases_special_row],
    [accounts_create_never_ends], [too_big_amount_answered].

    LedgerExamples, VotesExamples, ProcessorExamples, BootstrapExamples,
    WalletExamples, NodeNetworkExamples, UpgradeExamples, TextExamples and
    RpcExamples apply the theorems to a small ledger that starts with the genesis
    block of the live network, to a small wallet, to two nodes, to an old database,
    to balances, JSON and configurations, and to requests.  Lists holds facts about
    permutations and filters.

    ** Not modelled

    LMDB (its tables are finite maps, and an iterator is a walk over the rows in the
    order of their keys); opening the wallets of a database and the files of backups;
    the text of JSON and the trees of boost, which are a parameter; the node's sockets,
    HTTP, name resolution and the output of its log (rai/node/node.cpp, rpc.cpp), the
    configurations of the daemon and of OpenCL and all files, the choice and timeouts
    of bootstrap connections (rai/node/bootstrap.cpp), OpenCL, the Python virtual
    machine and the user
    interfaces.

    This file holds what all others share: machine integers, bytes, faults,
    readers, the state monad and the automation. *)
From Stdlib Require Import ZArith Lia List.
From stdpp Require Import prelude.
From coqutil Require Export Byte Word.LittleEndianList.

#[global] Open Scope Z_scope.

(** ** Machine integers *)

(** The value an unsigned integer of [w] bits keeps of [z]. *)
Definition wrap (w z : Z) : Z := z mod 2 ^ w.

(** [z] is representable as an unsigned integer of [w] bits. *)
Definition fits (w z : Z) : Prop := 0 <= z < 2 ^ w.

#[export] Instance fits_dec w z : Decision (fits w z).
Proof. unfold fits. apply _. Defined.

Lemma wrap_fits w z : 0 <= w -> fits w (wrap w z).
Proof. intros. apply Z.mod_pos_bound, Z.pow_pos_nonneg; lia. Qed.

Lemma wrap_small w z : fits w z -> wrap w z = z.
Proof. apply Z.mod_small. Qed.

Lemma wrap_idem w z : wrap w (wrap w z) = wrap w z.
Proof. unfold wrap. apply Zmod_mod. Qed.

Lemma wrap_add_l w a b : wrap w (wrap w a + b) = wrap w (a + b).
Proof. unfold wrap. apply Zplus_mod_idemp_l. Qed.

Lemma wrap_add_r w a b : wrap w (a + wrap w b) = wrap w (a + b).
Proof. unfold wrap. apply Zplus_mod_idemp_r. Qed.

(** Adding the two's complement of [b] undoes adding [b]. *)
Lemma wrap_add_neg w a b :
  fits w a -> wrap w (wrap w (a + b) + wrap w (0 - b)) = a.
Proof.
  intros Ha. rewrite wrap_add_l, wrap_add_r.
  replace (a + b + (0 - b)) with a by lia. by apply wrap_small.
Qed.

(** Subtraction written as addition of [0 - b], when it does not borrow. *)
Lemma wrap_add_neg_small w a b :
  0 <= b <= a -> a < 2 ^ w -> wrap w (a + wrap w (0 - b)) = a - b.
Proof.
  intros. rewrite wrap_add_r. replace (a + (0 - b)) with (a - b) by lia.
  apply wrap_small. unfold fits. lia.
Qed.

Lemma fits_0 w : 0 <= w -> fits w 0.
Proof. intros. split; [lia | apply Z.pow_pos_nonneg; lia]. Qed.

Lemma lxor_fits w a b : 0 <= w -> fits w a -> fits w b -> fits w (Z.lxor a b).
Proof.
  intros Hw Ha Hb.
  assert (Hl : Z.lxor a b = Z.lxor a b mod 2 ^ w).
  { apply Z.bits_inj'. intros i Hi.
    rewrite <- (wrap_small w a), <- (wrap_small w b) by done. unfold wrap.
    destruct (Z.lt_ge_cases i w).
    - rewrite Z.mod_pow2_bits_low by lia. done.
    - rewrite Z.mod_pow2_bits_high by lia.
      rewrite Z.lxor_spec, !Z.mod_pow2_bits_high by lia. done. }
  rewrite Hl. apply Z.mod_pos_bound, Z.pow_pos_nonneg; lia.
Qed.

#[export] Instance byte_eq_dec : EqDecision byte.
Proof. exact Byte.byte_eq_dec. Defined.

(** ** Big-endian byte arrays

    [coqutil] has the little-endian pair [le_split]/[le_combine] (an integer
    in the memory of the machines the node runs on); the 128, 256 and 512 bit
    unions of the code keep the most significant byte first. *)

Definition be_split (n : nat) (z : Z) : list byte := rev (le_split n z).
Definition be_combine (bs : list byte) : Z := le_combine (rev bs).
#[global] Arguments be_split : simpl never.
#[global] Arguments be_combine : simpl never.

Lemma length_be_split n z : length (be_split n z) = n.
Proof. unfold be_split. rewrite length_rev. apply length_le_split. Qed.

Lemma be_combine_split n z : be_combine (be_split n z) = wrap (Z.of_nat n * 8) z.
Proof. unfold be_combine, be_split. rewrite rev_involutive. apply le_combine_split. Qed.

Lemma be_split_combine bs n : length bs = n -> be_split n (be_combine bs) = bs.
Proof.
  intros <-. unfold be_combine, be_split. rewrite <- (length_rev bs).
  rewrite split_le_combine. apply rev_involutive.
Qed.

Lemma be_combine_fits bs : fits (8 * Z.of_nat (length bs)) (be_combine bs).
Proof. unfold be_combine. rewrite <- (length_rev bs). apply le_combine_bound. Qed.

Lemma le_combine_fits bs : fits (8 * Z.of_nat (length bs)) (le_combine bs).
Proof. apply le_combine_bound. Qed.

Lemma be_split_inj n a b :
  fits (Z.of_nat n * 8) a -> fits (Z.of_nat n * 8) b ->
  be_split n a = be_split n b -> a = b.
Proof.
  intros Ha Hb He%(f_equal be_combine).
  rewrite !be_combine_split, !wrap_small in He; done.
Qed.

(** ** Faults

    What a run of the code can end in besides a result: a failed [assert], the
    use of an indeterminate value, or a loop that is still running when the
    fuel of the model is used up. *)
Inductive fault : Type :=
| Assertion_failed
| Indeterminate_value
| Out_of_fuel.

#[export] Instance fault_eq_dec : EqDecision fault.
Proof. solve_decision. Defined.

(** ** Reading from a byte stream

    A reader is what the code does with a [rai::stream]: it yields a value and
    the unread rest, or reports an error ([true], or a null pointer) because
    the stream was too short, or runs into a fault. *)
Inductive rd (A : Type) : Type :=
| Got (a : A) (rest : list byte)
| Short
| Rd_fault (f : fault).
Arguments Got {A} a rest.
Arguments Short {A}.
Arguments Rd_fault {A} f.

Definition reader (A : Type) : Type := list byte -> rd A.

Definition rd_ret {A} (a : A) : reader A := fun s => Got a s.
Definition rd_fail {A} : reader A := fun _ => Short.
Definition rd_bind {A B} (m : reader A) (k : A -> reader B) : reader B :=
  fun s => match m s with
           | Got a rest => k a rest
           | Short => Short
           | Rd_fault f => Rd_fault f
           end.

Declare Scope rd_scope.
Delimit Scope rd_scope with rd.
Notation "x <~ m ;; k" := (rd_bind m (fun x => k))
  (at level 100, m at next level, right associativity) : rd_scope.

(** ** Results and stateful computations *)

Inductive res (A : Type) : Type :=
| Ok (a : A)
| Fault (f : fault).
Arguments Ok {A} a.
Arguments Fault {A} f.

(** Computations over a state [S]: the writes made before a fault are lost,
    as the transaction that made them is never committed. *)
Definition M (S A : Type) : Type := S -> res (A * S).

Definition st_ret {S A} (a : A) : M S A := fun s => Ok (a, s).
Definition st_fault {S A} (f : fault) : M S A := fun _ => Fault f.
Definition st_bind {S A B} (m : M S A) (k : A -> M S B) : M S B :=
  fun s => match m s with Ok (a, s') => k a s' | Fault f => Fault f end.
Definition st_get {S A} (f : S -> A) : M S A := fun s => Ok (f s, s).
Definition st_put {S} (f : S -> S) : M S unit := fun s => Ok (tt, f s).
Definition st_run {S A} (f : S -> res A) : M S A :=
  fun s => match f s with Ok a => Ok (a, s) | Fault e => Fault e end.
Definition st_assert {S} (b : bool) : M S unit :=
  if b then st_ret tt else st_fault Assertion_failed.

Declare Scope m_scope.
Delimit Scope m_scope with m.
Notation "x <- m ;; k" := (st_bind m (fun x => k))
  (at level 100, m at next level, right associativity) : m_scope.
Notation "m ;;; k" := (st_bind m (fun _ => k))
  (at level 100, k at level 200, right associativity) : m_scope.

Lemma st_bind_ok {S A B} (m : M S A) (k : A -> M S B) s a s' :
  m s = Ok (a, s') -> st_bind m k s = k a s'.
Proof. unfold st_bind. by intros ->. Qed.

Lemma st_bind_fault {S A B} (m : M S A) (k : A -> M S B) s f :
  m s = Fault f -> st_bind m k s = Fault f.
Proof. unfold st_bind. by intros ->. Qed.

Lemma st_assert_true {S A} b (k : unit -> M S A) s :
  b = true -> st_bind (st_assert b) k s = k tt s.
Proof. by intros ->. Qed.

Lemma st_bind_inv {S A B} (m : M S A) (k : A -> M S B) s r :
  st_bind m k s = Ok r -> exists a s', m s = Ok (a, s') /\ k a s' = Ok r.
Proof. unfold st_bind. destruct (m s) as [[a s']|] eqn:E; naive_solver. Qed.

(** ** Lists *)

Lemma forallb_map {A B} (f : A -> B) (p : B -> bool) l : forallb p (map f l) = forallb (fun x => p (f x)) l.
Proof. induction l; simpl; congruence. Qed.

Lemma forallb_ext {A} (p q : A -> bool) l : (forall x, p x = q x) -> forallb p l = forallb q l.
Proof. intros H. induction l; simpl; congruence. Qed.

(** ** Automation *)

Create HintDb rai.
#[export] Hint Resolve wrap_fits fits_0 lxor_fits : rai.


(** Split a boolean or option match that decides the goal. *)
Ltac split_match :=
  match goal with
  | |- context [match ?x with _ => _ end] => destruct x eqn:?
  end.
