(* ===== verification/Lists.v ===== *)
(** * Permutations and filters

    Facts about lists up to order that the models of queues use, and about what a
    filter keeps. *)
From Stdlib Require Import List Permutation Sorted.
From stdpp Require Import prelude list.

Section Queues.
Context {A : Type}.

Lemma perm_filter_split (P : A -> Prop) `{forall x, Decision (P x)} (q : list A) :
  filter (fun x => ~ P x) q ++ filter P q ≡ₚ q.
Proof.
  induction q as [|x q IH]; [done|]. rewrite !filter_cons. destruct (decide (P x)) as [He|Hne].
  - rewrite decide_False by (intros Hn; by apply Hn). rewrite <- Permutation_middle. by rewrite IH.
  - rewrite decide_True by done. cbn. by rewrite IH.
Qed.

Lemma perm_enqueue (x : A) q a : (q ++ [x]) ++ a ≡ₚ x :: q ++ a.
Proof. rewrite <- app_assoc. cbn. by rewrite <- Permutation_middle. Qed.

Lemma perm_answer (x : A) q a : q ++ a ++ [x] ≡ₚ x :: q ++ a.
Proof. rewrite app_assoc. by rewrite <- Permutation_cons_append. Qed.

Lemma perm_cancel (l1 l2 q a : list A) : l1 ++ l2 ≡ₚ q -> l1 ++ a ++ l2 ≡ₚ q ++ a.
Proof. intros <-. rewrite (Permutation_app_comm a l2). by rewrite app_assoc. Qed.

Lemma perm_run (r1 r2 l1 l2 l3 : list A) : l3 ≡ₚ r2 ++ l2 -> l2 ≡ₚ r1 ++ l1 -> l3 ≡ₚ (r1 ++ r2) ++ l1.
Proof. intros -> ->. rewrite !app_assoc. by rewrite (Permutation_app_comm r2 r1). Qed.

Lemma perm_in (x : A) l1 l2 : l1 ≡ₚ l2 -> x ∈ l1 -> x ∈ l2.
Proof. by intros ->. Qed.

Lemma filter_ext_in (P Q : A -> Prop) `{forall x, Decision (P x), forall x, Decision (Q x)} (l : list A) :
  (forall x, x ∈ l -> P x <-> Q x) -> filter P l = filter Q l.
Proof.
  induction l as [|x l IH]; intros Hl; [done|]. rewrite !filter_cons, IH by (intros y Hy; apply Hl; by right).
  destruct (Hl x ltac:(left)). destruct (decide (P x)), (decide (Q x)); tauto.
Qed.

Lemma filter_all (P : A -> Prop) `{forall x, Decision (P x)} (l : list A) : (forall x, P x) -> filter P l = l.
Proof. intros HP. induction l as [|x l IH]; [done|]. by rewrite filter_cons_True, IH. Qed.

Lemma length_filter_split (P : A -> Prop) `{forall x, Decision (P x)} (l : list A) :
  (length (filter (fun x => ~ P x) l) + length (filter P l))%nat = length l.
Proof. rewrite <- length_app. apply Permutation_length, perm_filter_split. Qed.
End Queues.

(** ** Filters *)

Lemma StronglySorted_filter {A} (R : A -> A -> Prop) (P : A -> Prop) `{forall x, Decision (P x)} (l : list A) :
  StronglySorted R l -> StronglySorted R (filter P l).
Proof.
  induction 1 as [|x l Hs IH Hx]; [constructor|]. rewrite filter_cons. case_decide; [|done]. constructor; [done|].
  apply Forall_forall. intros y [_ Hy]%list_elem_of_filter. by eapply Forall_forall in Hx.
Qed.

Lemma list_filter_all_in {A} (P : A -> Prop) `{forall x, Decision (P x)} (l : list A) :
  (forall x, x ∈ l -> P x) -> filter P l = l.
Proof.
  intros HP. induction l as [|x l IH]; [done|]. rewrite filter_cons_True by (apply HP; by left).
  rewrite IH; [done|]. intros y Hy. apply HP. by right.
Qed.

Lemma NoDup_fmap_filter {A B} (g : A -> B) (P : A -> Prop) `{forall x, Decision (P x)} (l : list A) :
  NoDup (g <$> l) -> NoDup (g <$> filter P l).
Proof.
  induction l as [|x l IH]; [done|]. rewrite fmap_cons, NoDup_cons, filter_cons. intros [Hx Hl].
  case_decide; [|auto]. rewrite fmap_cons. constructor; [|auto].
  intros (y & Hy & [_ Hin]%list_elem_of_filter)%list_elem_of_fmap. apply Hx, list_elem_of_fmap. eauto.
Qed.
