(* ===== verification/Blake2b.v ===== *)
(** * BLAKE2b (blake2/blake2b-ref.c)

    The hash that names every block, derives keys, checks account numbers and
    measures proof of work.  The streaming interface of the C code is
    translated statement by statement; the section after it relates it to a
    one-pass definition of the digest of a message, whatever the sequence of
    [blake2b_update] calls that supplied the message. *)
From Stdlib Require Import ZArith Lia List.
From stdpp Require Import prelude.
From S2P Require Import Prelude.

(** ** Constants and word operations *)

Definition BLAKE2B_BLOCKBYTES : nat := 128.
Definition BLAKE2B_OUTBYTES : nat := 64.
Definition BLAKE2B_KEYBYTES : nat := 64.

Definition blake2b_IV : list Z :=
  [0x6a09e667f3bcc908; 0xbb67ae8584caa73b; 0x3c6ef372fe94f82b; 0xa54ff53a5f1d36f1;
   0x510e527fade682d1; 0x9b05688c2b3e6c1f; 0x1f83d9abfb41bd6b; 0x5be0cd19137e2179].

Definition blake2b_sigma : list (list nat) :=
  [[ 0;  1;  2;  3;  4;  5;  6;  7;  8;  9; 10; 11; 12; 13; 14; 15];
   [14; 10;  4;  8;  9; 15; 13;  6;  1; 12;  0;  2; 11;  7;  5;  3];
   [11;  8; 12;  0;  5;  2; 15; 13; 10; 14;  3;  6;  7;  1;  9;  4];
   [ 7;  9;  3;  1; 13; 12; 11; 14;  2;  6;  5; 10;  4;  0; 15;  8];
   [ 9;  0;  5;  7;  2;  4; 10; 15; 14;  1; 11; 12;  6;  8;  3; 13];
   [ 2; 12;  6; 10;  0; 11;  8;  3;  4; 13;  7;  5; 15; 14;  1;  9];
   [12;  5;  1; 15; 14; 13;  4; 10;  0;  7;  6;  3;  9;  2;  8; 11];
   [13; 11;  7; 14; 12;  1;  3;  9;  5;  0; 15;  4;  8;  6;  2; 10];
   [ 6; 15; 14;  9; 11;  3;  0;  8; 12;  2; 13;  7;  1;  4; 10;  5];
   [10;  2;  8;  4;  7;  6;  1;  5; 15; 11;  9; 14;  3; 12; 13;  0];
   [ 0;  1;  2;  3;  4;  5;  6;  7;  8;  9; 10; 11; 12; 13; 14; 15];
   [14; 10;  4;  8;  9; 15; 13;  6;  1; 12;  0;  2; 11;  7;  5;  3]]%nat.

(** Array reads of the code; every index it uses is in range. *)
Definition at_ (l : list Z) (i : nat) : Z := nth i l 0.
Definition sigma (r i : nat) : nat := nth i (nth r blake2b_sigma []) 0%nat.

Definition rotr64 (w c : Z) : Z :=
  Z.lor (Z.shiftr w c) (wrap 64 (Z.shiftl w (64 - c))).

Definition load64 (src : list byte) (offset : nat) : Z :=
  le_combine (take 8 (drop offset src)).
Definition store64 (w : Z) : list byte := le_split 8 w.

(** [memcpy (buf + offset, src, length src)] *)
Definition memcpy (buf : list byte) (offset : nat) (src : list byte) : list byte :=
  take offset buf ++ src ++ drop (offset + length src) buf.

(** ** State *)

Record blake2b_state := Blake2bState {
  h : list Z;
  t0 : Z;
  t1 : Z;
  f0 : Z;
  f1 : Z;
  buf : list byte;
  buflen : nat;
  outlen : nat;
  last_node : Z
}.

Definition set_h st x := Blake2bState x (t0 st) (t1 st) (f0 st) (f1 st) (buf st) (buflen st) (outlen st) (last_node st).
Definition set_t st x y := Blake2bState (h st) x y (f0 st) (f1 st) (buf st) (buflen st) (outlen st) (last_node st).
Definition set_f st x y := Blake2bState (h st) (t0 st) (t1 st) x y (buf st) (buflen st) (outlen st) (last_node st).
Definition set_buf st x := Blake2bState (h st) (t0 st) (t1 st) (f0 st) (f1 st) x (buflen st) (outlen st) (last_node st).
Definition set_buflen st x := Blake2bState (h st) (t0 st) (t1 st) (f0 st) (f1 st) (buf st) x (outlen st) (last_node st).
Definition set_outlen st x := Blake2bState (h st) (t0 st) (t1 st) (f0 st) (f1 st) (buf st) (buflen st) x (last_node st).

Definition blake2b_set_lastnode (st : blake2b_state) : blake2b_state :=
  set_f st (f0 st) (wrap 64 (-1)).

Definition blake2b_is_lastblock (st : blake2b_state) : bool := negb (f0 st =? 0).

Definition blake2b_set_lastblock (st : blake2b_state) : blake2b_state :=
  let st := if negb (last_node st =? 0) then blake2b_set_lastnode st else st in
  set_f st (wrap 64 (-1)) (f1 st).

Definition blake2b_increment_counter (st : blake2b_state) (inc : Z) : blake2b_state :=
  let t0' := wrap 64 (t0 st + inc) in
  set_t st t0' (wrap 64 (t1 st + (if t0' <? inc then 1 else 0))).

Definition blake2b_init0 : blake2b_state :=
  Blake2bState blake2b_IV 0 0 0 0 (repeat Byte.x00 BLAKE2B_BLOCKBYTES) 0 0 0.

(** The parameter block, in the layout of the packed struct. *)
Definition blake2b_param (digest_length key_length : nat) : list byte :=
  [byte.of_Z (Z.of_nat digest_length); byte.of_Z (Z.of_nat key_length); Byte.x01; Byte.x01]
    ++ le_split 4 0 ++ le_split 4 0 ++ le_split 4 0
    ++ [Byte.x00; Byte.x00] ++ repeat Byte.x00 14 ++ repeat Byte.x00 16 ++ repeat Byte.x00 16.

Definition blake2b_init_param (digest_length : nat) (P : list byte) : blake2b_state :=
  let st := blake2b_init0 in
  let st := set_h st (map (fun i => Z.lxor (at_ (h st) i) (load64 P (8 * i))) (seq 0 8)) in
  set_outlen st digest_length.

(** [blake2b_init]: [None] is the status [-1]. *)
Definition blake2b_init (outlen : nat) : option blake2b_state :=
  if ((outlen =? 0) || (BLAKE2B_OUTBYTES <? outlen))%nat then None
  else Some (blake2b_init_param outlen (blake2b_param outlen 0)).

(** ** Compression *)

(** [G(r,i,a,b,c,d)] with the four words of [v] given by their positions. *)
Definition G (m : list Z) (r i a b c d : nat) (v : list Z) : list Z :=
  let v := <[a := wrap 64 (at_ v a + at_ v b + at_ m (sigma r (2 * i)))]> v in
  let v := <[d := rotr64 (Z.lxor (at_ v d) (at_ v a)) 32]> v in
  let v := <[c := wrap 64 (at_ v c + at_ v d)]> v in
  let v := <[b := rotr64 (Z.lxor (at_ v b) (at_ v c)) 24]> v in
  let v := <[a := wrap 64 (at_ v a + at_ v b + at_ m (sigma r (2 * i + 1)))]> v in
  let v := <[d := rotr64 (Z.lxor (at_ v d) (at_ v a)) 16]> v in
  let v := <[c := wrap 64 (at_ v c + at_ v d)]> v in
  <[b := rotr64 (Z.lxor (at_ v b) (at_ v c)) 63]> v.

Definition ROUND (m : list Z) (v : list Z) (r : nat) : list Z :=
  let v := G m r 0 0 4 8 12 v in
  let v := G m r 1 1 5 9 13 v in
  let v := G m r 2 2 6 10 14 v in
  let v := G m r 3 3 7 11 15 v in
  let v := G m r 4 0 5 10 15 v in
  let v := G m r 5 1 6 11 12 v in
  let v := G m r 6 2 7 8 13 v in
  G m r 7 3 4 9 14 v.

Definition blake2b_compress (st : blake2b_state) (block : list byte) : blake2b_state :=
  let m := map (fun i => load64 block (i * 8)) (seq 0 16) in
  let v := map (at_ (h st)) (seq 0 8)
           ++ [at_ blake2b_IV 0; at_ blake2b_IV 1; at_ blake2b_IV 2; at_ blake2b_IV 3;
               Z.lxor (at_ blake2b_IV 4) (t0 st); Z.lxor (at_ blake2b_IV 5) (t1 st);
               Z.lxor (at_ blake2b_IV 6) (f0 st); Z.lxor (at_ blake2b_IV 7) (f1 st)] in
  let v := fold_left (ROUND m) (seq 0 12) v in
  set_h st (map (fun i => Z.lxor (Z.lxor (at_ (h st) i) (at_ v i)) (at_ v (i + 8))) (seq 0 8)).

(** ** Streaming interface *)

(** The [while(inlen > BLAKE2B_BLOCKBYTES)] loop; it stops before [fuel] does
    when [fuel] is the number of bytes left, as each turn consumes 128. *)
Fixpoint blake2b_update_loop (fuel : nat) (st : blake2b_state) (inp : list byte)
  : blake2b_state * list byte :=
  match fuel with
  | O => (st, inp)
  | S fuel =>
      if (BLAKE2B_BLOCKBYTES <? length inp)%nat then
        let st := blake2b_increment_counter st (Z.of_nat BLAKE2B_BLOCKBYTES) in
        let st := blake2b_compress st (take BLAKE2B_BLOCKBYTES inp) in
        blake2b_update_loop fuel st (drop BLAKE2B_BLOCKBYTES inp)
      else (st, inp)
  end.

Definition blake2b_update (st : blake2b_state) (inp : list byte) : blake2b_state :=
  if (0 <? length inp)%nat then
    let left := buflen st in
    let fill := (BLAKE2B_BLOCKBYTES - left)%nat in
    let '(st, inp) :=
      if (fill <? length inp)%nat then
        let st := set_buflen st 0 in
        let st := set_buf st (memcpy (buf st) left (take fill inp)) in
        let st := blake2b_increment_counter st (Z.of_nat BLAKE2B_BLOCKBYTES) in
        let st := blake2b_compress st (buf st) in
        let inp := drop fill inp in
        blake2b_update_loop (length inp) st inp
      else (st, inp) in
    let st := set_buf st (memcpy (buf st) (buflen st) inp) in
    set_buflen st (buflen st + length inp)
  else st.

(** [blake2b_final] with an output buffer of [len] bytes; [None] is [-1]. *)
Definition blake2b_final (st : blake2b_state) (len : nat) : option (list byte) :=
  if (len <? outlen st)%nat then None
  else if blake2b_is_lastblock st then None
  else
    let st := blake2b_increment_counter st (Z.of_nat (buflen st)) in
    let st := blake2b_set_lastblock st in
    let st := set_buf st (memcpy (buf st) (buflen st) (repeat Byte.x00 (BLAKE2B_BLOCKBYTES - buflen st))) in
    let st := blake2b_compress st (buf st) in
    let buffer := flat_map (fun i => store64 (at_ (h st) i)) (seq 0 8) in
    Some (take (outlen st) buffer).

Definition blake2b_init_key (outlen : nat) (key : list byte) : option blake2b_state :=
  if ((outlen =? 0) || (BLAKE2B_OUTBYTES <? outlen))%nat then None
  else if ((length key =? 0) || (BLAKE2B_KEYBYTES <? length key))%nat then None
  else
    let st := blake2b_init_param outlen (blake2b_param outlen (length key)) in
    let block := memcpy (repeat Byte.x00 BLAKE2B_BLOCKBYTES) 0 key in
    Some (blake2b_update st block).

(** The simple interface; [None] is the status [-1]. *)
Definition blake2b (outlen : nat) (inp key : list byte) : option (list byte) :=
  if ((outlen =? 0) || (BLAKE2B_OUTBYTES <? outlen))%nat then None
  else if (BLAKE2B_KEYBYTES <? length key)%nat then None
  else
    match (if (0 <? length key)%nat then blake2b_init_key outlen key
           else blake2b_init outlen) with
    | None => None
    | Some st => blake2b_final (blake2b_update st inp) outlen
    end.

(** Bytes [0, 1, ..., n - 1]: the inputs of blake2-kat.h. *)
Definition kat_input (n : nat) : list byte := map (fun i => byte.of_Z (Z.of_nat i)) (seq 0 n).

(** ** One-pass digest (RFC 7693, section 3.3)

    [F h block t last] is the compression function with the byte counter as an
    unbounded integer; [rfc_blocks] chains it over the message, the last block
    (of 0 to 128 bytes) padded with zeros and flagged. *)
Definition F (h : list Z) (block : list byte) (t : Z) (last : bool) : list Z :=
  Blake2b.h (blake2b_compress
    (Blake2bState h (wrap 64 t) (wrap 64 (t / 2 ^ 64))
       (if last then wrap 64 (-1) else 0) 0 [] 0 0 0) block).

Fixpoint rfc_blocks (fuel : nat) (h : list Z) (t : Z) (msg : list byte) : list Z :=
  match fuel with
  | O => h
  | S fuel =>
      if (128 <? length msg)%nat
      then rfc_blocks fuel (F h (take 128 msg) (t + 128) false) (t + 128) (drop 128 msg)
      else F h (msg ++ repeat Byte.x00 (128 - length msg)) (t + Z.of_nat (length msg)) true
  end.

Definition rfc_blake2b (outlen : nat) (msg : list byte) : list byte :=
  let h0 := map (fun i => Z.lxor (at_ blake2b_IV i) (load64 (blake2b_param outlen 0) (8 * i))) (seq 0 8) in
  take outlen (flat_map store64 (rfc_blocks (S (length msg)) h0 0 msg)).

(** ** The streaming interface computes it *)

(** The bytes the state has taken in but not compressed yet. *)
Definition pending (st : blake2b_state) : list byte := take (buflen st) (buf st).

(** What the streaming calls keep true of a state that has compressed [t]
    bytes: the chaining value [hh], the counter, and a buffer in bounds. *)
Record absorbed (hh : list Z) (t : Z) (st : blake2b_state) : Prop := {
  ab_h : h st = hh;
  ab_t0 : t0 st = wrap 64 t;
  ab_t1 : t1 st = wrap 64 (t / 2 ^ 64);
  ab_f0 : f0 st = 0;
  ab_f1 : f1 st = 0;
  ab_ln : last_node st = 0;
  ab_buf : length (buf st) = 128%nat;
  ab_len : (buflen st <= 128)%nat
}.

Lemma increment_counter_spec st t inc :
  0 <= inc < 2 ^ 64 ->
  t0 st = wrap 64 t -> t1 st = wrap 64 (t / 2 ^ 64) ->
  blake2b_increment_counter st inc
  = set_t st (wrap 64 (t + inc)) (wrap 64 ((t + inc) / 2 ^ 64)).
Proof.
  intros Hi H0 H1. unfold blake2b_increment_counter, wrap in *. f_equal.
  { rewrite H0. apply Zplus_mod_idemp_l. }
  rewrite H0, H1, Zplus_mod_idemp_l, Zplus_mod_idemp_l. f_equal.
  pose proof (Z.mod_pos_bound t (2 ^ 64) ltac:(lia)) as Hb.
  pose proof (Z.div_mod t (2 ^ 64) ltac:(lia)) as Ht.
  set (q := t / 2 ^ 64) in *. set (r := t mod 2 ^ 64) in *.
  rewrite Ht. replace (2 ^ 64 * q + r + inc) with (r + inc + q * 2 ^ 64) by lia.
  rewrite Z_mod_plus_full, Z.div_add by lia.
  destruct (Z.lt_ge_cases (r + inc) (2 ^ 64)) as [Hs|Hs].
  - rewrite (Z.mod_small (r + inc)), (Z.div_small (r + inc)) by lia.
    destruct (Z.ltb_spec (r + inc) inc); lia.
  - assert (Hm : (r + inc) mod 2 ^ 64 = r + inc - 2 ^ 64)
      by (symmetry; apply Z.mod_unique with 1; lia).
    assert (Hd : (r + inc) / 2 ^ 64 = 1)
      by (symmetry; apply Z.div_unique with (r + inc - 2 ^ 64); lia).
    rewrite Hm, Hd. destruct (Z.ltb_spec (r + inc - 2 ^ 64) inc); lia.
Qed.

Lemma length_memcpy b off src :
  (off + length src <= length b)%nat -> length (memcpy b off src) = length b.
Proof. intros. unfold memcpy. rewrite !length_app, length_take, length_drop. lia. Qed.

Lemma take_memcpy b off src :
  (off <= length b)%nat -> take (off + length src) (memcpy b off src) = take off b ++ src.
Proof.
  intros. unfold memcpy. rewrite app_assoc, take_app_length'; [done|].
  rewrite length_app, length_take. lia.
Qed.

(** Counting a full block and compressing it is one step of the chain. *)
Lemma absorb_block hh t st block :
  absorbed hh t st ->
  absorbed (F hh block (t + 128) false) (t + 128)
    (blake2b_compress (blake2b_increment_counter st 128) block).
Proof.
  intros [? ? ? ? ? ? ? ?].
  rewrite (increment_counter_spec st t) by (lia || done).
  destruct st; simpl in *; subst. constructor; done.
Qed.

Lemma absorbed_set_buf hh t st b n :
  absorbed hh t st -> length b = 128%nat -> (n <= 128)%nat ->
  absorbed hh t (set_buflen (set_buf st b) n).
Proof. intros [? ? ? ? ? ? ? ?] ? ?. by constructor. Qed.

(** The chain of [rfc_blocks], stopped before its last block. *)
Fixpoint chain (fuel : nat) (h : list Z) (t : Z) (msg : list byte)
  : list Z * Z * list byte :=
  match fuel with
  | O => (h, t, msg)
  | S fuel =>
      if (128 <? length msg)%nat
      then chain fuel (F h (take 128 msg) (t + 128) false) (t + 128) (drop 128 msg)
      else (h, t, msg)
  end.

Lemma chain_short fuel h t msg : (length msg <= 128)%nat -> chain fuel h t msg = (h, t, msg).
Proof. intros H. destruct fuel; [done|]. simpl. by rewrite (proj2 (Nat.ltb_ge _ _) H). Qed.

Lemma chain_long fuel h t msg :
  (128 < length msg)%nat ->
  chain (S fuel) h t msg = chain fuel (F h (take 128 msg) (t + 128) false) (t + 128) (drop 128 msg).
Proof. intros H. simpl. by rewrite (proj2 (Nat.ltb_lt _ _) H). Qed.

Lemma chain_fuel f1 f2 h t msg :
  (length msg <= f1)%nat -> (length msg <= f2)%nat -> chain f1 h t msg = chain f2 h t msg.
Proof.
  revert f2 h t msg. induction f1 as [|f1 IH]; intros f2 h t msg H1 H2.
  { rewrite !chain_short by lia. done. }
  destruct (le_lt_dec (length msg) 128) as [Hs|Hl]; [by rewrite !chain_short|].
  destruct f2 as [|f2]; [lia|].
  rewrite !chain_long by done. apply IH; rewrite length_drop; lia.
Qed.

Lemma chain_rest fuel h t msg :
  (length msg <= fuel)%nat -> (length (chain fuel h t msg).2 <= 128)%nat.
Proof.
  revert h t msg. induction fuel as [|fuel IH]; intros h t msg H; [simpl; lia|].
  destruct (le_lt_dec (length msg) 128) as [Hs|Hl]; [by rewrite chain_short|].
  rewrite chain_long by done. apply IH. rewrite length_drop. lia.
Qed.

Lemma chain_length fuel h t msg : (length (chain fuel h t msg).2 <= length msg)%nat.
Proof.
  revert h t msg. induction fuel as [|fuel IH]; intros h t msg; [done|].
  destruct (le_lt_dec (length msg) 128) as [Hs|Hl]; [by rewrite chain_short|].
  rewrite chain_long by done. rewrite IH, length_drop. lia.
Qed.

Lemma chain_app f g h t a b :
  (length a <= f)%nat -> (length (a ++ b) <= g)%nat ->
  chain g h t (a ++ b)
  = let '(h', t', r) := chain f h t a in chain g h' t' (r ++ b).
Proof.
  revert g h t a. induction f as [|f IH]; intros g h t a Hf Hg; [done|].
  destruct (le_lt_dec (length a) 128) as [Hs|Hl]; [by rewrite (chain_short (S f) h t a)|].
  rewrite length_app in Hg. destruct g as [|g]; [lia|].
  rewrite (chain_long g), (chain_long f) by (rewrite ?length_app; lia).
  rewrite take_app_le, drop_app_le by lia.
  rewrite (IH g) by (rewrite ?length_app, ?length_drop; lia).
  pose proof (chain_length f (F h (take 128 a) (t + 128) false) (t + 128) (drop 128 a)) as Hr.
  destruct (chain f _ _ (drop 128 a)) as [[h' t'] r]. simpl in Hr.
  rewrite length_drop in Hr. apply chain_fuel; rewrite length_app; lia.
Qed.

Lemma rfc_chain fuel h t msg :
  (length msg <= fuel)%nat ->
  rfc_blocks (S fuel) h t msg
  = let '(h', t', r) := chain fuel h t msg in
    F h' (r ++ repeat Byte.x00 (128 - length r)) (t' + Z.of_nat (length r)) true.
Proof.
  revert h t msg. induction fuel as [|fuel IH]; intros h t msg H.
  - destruct msg; [done|simpl in H; lia].
  - change (rfc_blocks (S (S fuel)) h t msg) with
      (if (128 <? length msg)%nat
       then rfc_blocks (S fuel) (F h (take 128 msg) (t + 128) false) (t + 128) (drop 128 msg)
       else F h (msg ++ repeat Byte.x00 (128 - length msg)) (t + Z.of_nat (length msg)) true).
    destruct (Nat.ltb_spec 128 (length msg)).
    + rewrite IH by (rewrite length_drop; lia). by rewrite <- chain_long.
    + by rewrite chain_short.
Qed.

(** The loop of [blake2b_update] follows the chain. *)
Lemma update_loop_chain fuel hh t st inp :
  absorbed hh t st ->
  let '(st', rest) := blake2b_update_loop fuel st inp in
  let '(h', t', r) := chain fuel hh t inp in
  rest = r /\ absorbed h' t' st' /\ buflen st' = buflen st /\ outlen st' = outlen st.
Proof.
  revert hh t st inp. induction fuel as [|fuel IH]; intros hh t st inp Hst; [done|].
  simpl. change BLAKE2B_BLOCKBYTES with 128%nat.
  destruct (128 <? length inp)%nat; [|done].
  exact (IH _ _ _ (drop 128 inp) (absorb_block _ _ _ (take 128 inp) Hst)).
Qed.

(** One call of [blake2b_update], seen through [pending]. *)
Lemma update_chain hh t st inp :
  absorbed hh t st ->
  let st' := blake2b_update st inp in
  let '(h', t', r) := chain (length (pending st ++ inp)) hh t (pending st ++ inp) in
  pending st' = r /\ absorbed h' t' st' /\ outlen st' = outlen st.
Proof.
  intros Hst. pose proof Hst as [_ _ _ _ _ _ Hb Hl].
  assert (Hp : length (pending st) = buflen st) by (unfold pending; rewrite length_take; lia).
  unfold blake2b_update. change BLAKE2B_BLOCKBYTES with 128%nat.
  destruct (Nat.ltb_spec 0 (length inp)) as [Hi|Hi].
  2:{ destruct inp; [|simpl in Hi; lia]. rewrite app_nil_r, chain_short by lia. done. }
  destruct (Nat.ltb_spec (128 - buflen st) (length inp)) as [Hf|Hf].
  - (* the buffer is filled and compressed *)
    set (full := pending st ++ take (128 - buflen st) inp).
    assert (Hfull : memcpy (buf st) (buflen st) (take (128 - buflen st) inp) = full).
    { unfold memcpy, full, pending. rewrite length_take_le by lia.
      rewrite (drop_ge (buf st)) by lia. by rewrite app_nil_r. }
    assert (Hlf : length full = 128%nat)
      by (unfold full; rewrite length_app, length_take; lia).
    assert (Hsplit : pending st ++ inp = full ++ drop (128 - buflen st) inp)
      by (unfold full; rewrite <- app_assoc, take_drop; done).
    rewrite Hsplit. set (rest := drop (128 - buflen st) inp) in *.
    assert (0 < length rest)%nat by (unfold rest; rewrite length_drop; lia).
    cbn [set_buflen set_buf buf buflen]. rewrite Hfull.
    replace (length (full ++ rest)) with (S (127 + length rest)) by (rewrite length_app; lia).
    rewrite chain_long by (rewrite length_app; lia).
    rewrite take_app_length', drop_app_length' by done.
    rewrite (chain_fuel _ (length rest)) by lia.
    set (st0 := set_buf (set_buflen st 0) full).
    assert (Ha0 : absorbed hh t st0) by (apply (absorbed_set_buf _ _ _ full 0); [done..|lia]).
    match goal with |- context [blake2b_compress ?x ?y] => set (st1 := blake2b_compress x y) end.
    pose proof (absorb_block hh t st0 full Ha0) as Ha1. fold st1 in Ha1.
    pose proof (update_loop_chain (length rest) _ _ st1 rest Ha1) as Hloop.
    pose proof (chain_rest (length rest) (F hh full (t + 128) false) (t + 128) rest ltac:(lia)) as Hrest.
    destruct (blake2b_update_loop _ st1 rest) as [st2 r2].
    destruct (chain _ _ _ rest) as [[h' t'] r]. simpl in Hrest.
    destruct Hloop as (-> & Ha2 & Hl2 & Ho2). change (buflen st1) with 0%nat in Hl2.
    pose proof Ha2 as [_ _ _ _ _ _ Hb2 _].
    split_and!.
    + unfold pending. cbn [set_buflen set_buf buf buflen]. rewrite Hl2.
      apply (take_memcpy (buf st2) 0). lia.
    + apply absorbed_set_buf; [done| |cbn [set_buf buflen]; lia].
      rewrite Hl2, length_memcpy; lia.
    + done.
  - rewrite chain_short by (rewrite length_app; lia). split_and!.
    + unfold pending. cbn [set_buflen set_buf buf buflen]. apply take_memcpy. lia.
    + apply absorbed_set_buf; [done| |cbn [set_buf buflen]; lia].
      rewrite length_memcpy; lia.
    + done.
Qed.

Lemma updates_chain chunks hh t st :
  absorbed hh t st ->
  let st' := fold_left blake2b_update chunks st in
  let '(h', t', r) := chain (length (pending st ++ concat chunks)) hh t (pending st ++ concat chunks) in
  pending st' = r /\ absorbed h' t' st' /\ outlen st' = outlen st.
Proof.
  revert hh t st. induction chunks as [|c chunks IH]; intros hh t st Hst.
  - pose proof Hst as [_ _ _ _ _ _ Hb Hl]. simpl. rewrite app_nil_r.
    rewrite chain_short by (unfold pending; rewrite length_take; lia). done.
  - cbn [fold_left concat]. rewrite app_assoc.
    rewrite (chain_app (length (pending st ++ c))) by (rewrite ?length_app; lia).
    pose proof (update_chain hh t st c Hst) as Hu.
    pose proof (chain_length (length (pending st ++ c)) hh t (pending st ++ c)) as Hlen.
    destruct (chain _ hh t (pending st ++ c)) as [[h1 t1] r1]. simpl in Hlen.
    destruct Hu as (Hp & Ha & Ho).
    specialize (IH _ _ _ Ha). rewrite Hp in IH.
    rewrite (chain_fuel _ (length (r1 ++ concat chunks))) by (rewrite ?length_app in *; lia).
    destruct (chain _ h1 t1 _) as [[h2 t2] r2]. destruct IH as (? & ? & ?).
    split_and!; congruence.
Qed.

Lemma length_compress_h st block : length (h (blake2b_compress st block)) = 8%nat.
Proof. destruct st. unfold blake2b_compress. cbn [h set_h]. by rewrite length_map, length_seq. Qed.

(** The new chaining value depends on nothing but [h], [t], [f] and the block. *)
Lemma compress_h_ext st1 st2 b1 b2 :
  h st1 = h st2 -> t0 st1 = t0 st2 -> t1 st1 = t1 st2 -> f0 st1 = f0 st2 -> f1 st1 = f1 st2 ->
  b1 = b2 -> h (blake2b_compress st1 b1) = h (blake2b_compress st2 b2).
Proof.
  intros Hh Ht0 Ht1 Hf0 Hf1 ->. unfold blake2b_compress. cbn [h set_h].
  by rewrite Hh, Ht0, Ht1, Hf0, Hf1.
Qed.

Lemma flat_map_at l (g : Z -> list byte) :
  length l = 8%nat -> flat_map (fun i => g (at_ l i)) (seq 0 8) = flat_map g l.
Proof.
  intros H. do 8 (destruct l as [|? l]; [discriminate|]). by destruct l.
Qed.

(** [blake2b_final] compresses what is pending as the last block. *)
Lemma final_spec hh t st len :
  absorbed hh t st -> (outlen st <= len)%nat ->
  blake2b_final st len
  = Some (take (outlen st) (flat_map store64
      (F hh (pending st ++ repeat Byte.x00 (128 - length (pending st)))
         (t + Z.of_nat (length (pending st))) true))).
Proof.
  intros [Hh Ht0 Ht1 Hf0 Hf1 Hn Hb Hl] Ho. unfold blake2b_final.
  assert (Hp : length (pending st) = buflen st) by (unfold pending; rewrite length_take; lia).
  rewrite (proj2 (Nat.ltb_ge _ _) Ho). unfold blake2b_is_lastblock. rewrite Hf0.
  cbn [Z.eqb negb]. rewrite (increment_counter_spec st t) by (lia || done).
  rewrite flat_map_at by apply length_compress_h.
  rewrite Hp. change BLAKE2B_BLOCKBYTES with 128%nat.
  assert (Hm : memcpy (buf st) (buflen st) (repeat Byte.x00 (128 - buflen st))
               = pending st ++ repeat Byte.x00 (128 - buflen st)).
  { unfold memcpy, pending. rewrite repeat_length, (drop_ge (buf st)) by lia. by rewrite app_nil_r. }
  unfold blake2b_set_lastblock. cbn [set_t last_node]. rewrite Hn. cbn [Z.eqb negb].
  set (st' := set_buf _ _). change (outlen (blake2b_compress st' (buf st'))) with (outlen st).
  enough (E : h (blake2b_compress st' (buf st'))
              = F hh (pending st ++ repeat Byte.x00 (128 - buflen st)) (t + Z.of_nat (buflen st)) true)
    by (rewrite E; reflexivity).
  apply compress_h_ext; [exact Hh|reflexivity..|exact Hf1|exact Hm].
Qed.

Lemma blake2b_init_absorbed n :
  absorbed (map (fun i => Z.lxor (at_ blake2b_IV i) (load64 (blake2b_param n 0) (8 * i))) (seq 0 8))
    0 (blake2b_init_param n (blake2b_param n 0)).
Proof. constructor; (done || simpl; lia). Qed.

(** The calls the node makes: [blake2b_init], one [blake2b_update] per element
    of [chunks], [blake2b_final], all with output length [n]. *)
Definition blake2b_hash (n : nat) (chunks : list (list byte)) : list byte :=
  match blake2b_init n with
  | Some st => default [] (blake2b_final (fold_left blake2b_update chunks st) n)
  | None => []
  end.

Lemma init_updates_final (n len : nat) (chunks : list (list byte)) :
  (1 <= n <= 64)%nat -> (n <= len)%nat ->
  exists st, blake2b_init n = Some st
    /\ blake2b_final (fold_left blake2b_update chunks st) len
       = Some (rfc_blake2b n (concat chunks)).
Proof.
  intros [Hn1 Hn2] Hlen. exists (blake2b_init_param n (blake2b_param n 0)). split.
  { unfold blake2b_init, BLAKE2B_OUTBYTES.
    rewrite (proj2 (Nat.eqb_neq n 0)), (proj2 (Nat.ltb_ge 64 n)) by lia. done. }
  pose proof (updates_chain chunks _ _ _ (blake2b_init_absorbed n)) as Hc.
  unfold rfc_blake2b. rewrite (rfc_chain (length (concat chunks))) by done.
  change (pending (blake2b_init_param n (blake2b_param n 0))) with (@nil byte) in Hc.
  cbn [app] in Hc. destruct (chain _ _ 0 (concat chunks)) as [[h' t'] r].
  destruct Hc as (Hp & Ha & Ho). change (outlen (blake2b_init_param n _)) with n in Ho.
  rewrite (final_spec h' t') by (done || lia). by rewrite Ho, Hp.
Qed.

Lemma blake2b_hash_rfc n chunks :
  (1 <= n <= 64)%nat -> blake2b_hash n chunks = rfc_blake2b n (concat chunks).
Proof.
  intros Hn. unfold blake2b_hash.
  destruct (init_updates_final n n chunks Hn ltac:(lia)) as (st & -> & ->). done.
Qed.

Lemma length_rfc_blocks fuel h t msg :
  length h = 8%nat -> length (rfc_blocks fuel h t msg) = 8%nat.
Proof.
  revert h t msg. induction fuel as [|fuel IH]; intros h t msg Hh; [done|].
  simpl. case_match; [apply IH|]; apply length_compress_h.
Qed.

Lemma length_rfc_blake2b n msg : (n <= 64)%nat -> length (rfc_blake2b n msg) = n.
Proof.
  intros Hn. unfold rfc_blake2b. rewrite length_take.
  set (hs := rfc_blocks _ _ _ _).
  assert (Hl : length hs = 8%nat) by (apply length_rfc_blocks; reflexivity).
  enough (length (flat_map store64 hs) = (8 * length hs)%nat) by lia.
  clear. induction hs as [|x hs IH]; [done|].
  cbn [flat_map length]. rewrite length_app, IH. unfold store64. rewrite length_le_split. lia.
Qed.

Lemma length_blake2b_hash n chunks : (1 <= n <= 64)%nat -> length (blake2b_hash n chunks) = n.
Proof. intros Hn. rewrite blake2b_hash_rfc by done. apply length_rfc_blake2b. lia. Qed.



(** Rows 0, 129 and 255 of the known-answer table blake2-kat.h. *)
Example blake2b_kat :
  map (fun n => be_combine <$> blake2b 64 (kat_input n) []) [0; 129; 255]%nat
  = [Some 0x786A02F742015903C6C6FD852552D272912F4740E15847618A86E217F71F5419D25E1031AFEE585313896444934EB04B903A685B1448B755D56F701AFE9BE2CE;
     Some 0xF59711D44A031D5F97A9413C065D1E614C417EDE998590325F49BAD2FD444D3E4418BE19AEC4E11449AC1A57207898BC57D76A1BCF3566292C20C683A5C4648F;
     Some 0x5B21C5FD8868367612474FA2E70E9CFA2201FFEEE8FAFAB5797AD58FEFA17C9B5B107DA4A3DB6320BAAF2C8617D5A51DF914AE88DA3867C2D41F0CC14FA67928].
Proof. vm_compute. reflexivity. Qed.
