(* ===== verification/Numbers.v ===== *)
(** * Fixed-width numbers and account numbers (rai/lib/numbers.cpp)

    A [uint128_union], [uint256_union] or [uint512_union] is a byte array read
    as a big-endian number.  The model keeps the number; the byte array is
    [be_split n] of it.  This file translates the loops that convert between
    the two, the qword-wise operators, and the textual account numbers with
    their checksum. *)
From Stdlib Require Import ZArith Lia List Ascii String.
From stdpp Require Import prelude.
From S2P Require Import Prelude Blake2b.

(** The unions, by the width of their array. *)
Abbreviation uint128_union := Z (only parsing).
Abbreviation uint256_union := Z (only parsing).
Abbreviation uint512_union := Z (only parsing).
Abbreviation amount := Z (only parsing).
Abbreviation account := Z (only parsing).
Abbreviation block_hash := Z (only parsing).
Abbreviation signature := Z (only parsing).

(** The array of each union. *)
Definition bytes128 (u : uint128_union) : list byte := be_split 16 u.
Definition bytes256 (u : uint256_union) : list byte := be_split 32 u.
Definition bytes512 (u : uint512_union) : list byte := be_split 64 u.

(** ** Conversion loops *)

(** [number ()]: shift the result (by 0 before the first byte, by 8 before the
    others) in a [w]-bit integer and or the next byte in. *)
Definition number (w : Z) (bytes : list byte) : Z :=
  (fold_left (fun '(result, shift) b =>
                (Z.lor (wrap w (Z.shiftl result shift)) (byte.unsigned b), 8))
     bytes (0, 0)).1.

(** The constructors from a number fill the array from its end. *)
Fixpoint of_number_loop (n : nat) (number_l : Z) (filled : list byte) : list byte :=
  match n with
  | O => filled
  | S n => of_number_loop n (Z.shiftr number_l 8)
             (byte.of_Z (Z.land number_l 0xff) :: filled)
  end.
Definition of_number (n : nat) (number_a : Z) : list byte := of_number_loop n number_a [].

(** ** Operators on qwords *)

(** [qwords[i]] of an array, as the little-endian machine reads it. *)
Definition qword (bytes : list byte) (i : nat) : Z := le_combine (take 8 (drop (8 * i) bytes)).

Definition is_zero_qwords (n : nat) (bytes : list byte) : bool :=
  forallb (fun i => qword bytes i =? 0) (seq 0 n).

Definition xor_qwords (n : nat) (a b : list byte) : list byte :=
  flat_map (fun i => le_split 8 (Z.lxor (qword a i) (qword b i))) (seq 0 n).

(** What the rest of the development uses on the numbers themselves. *)
Definition is_zero (u : Z) : bool := u =? 0.
Definition xor256 (a b : uint256_union) : uint256_union := Z.lxor a b.

Lemma le_split_byte n z : le_split (S n) z = byte.of_Z z :: le_split n (Z.shiftr z 8).
Proof. reflexivity. Qed.

Lemma of_number_loop_spec n z acc : of_number_loop n z acc = be_split n z ++ acc.
Proof.
  revert z acc. induction n as [|n IH]; intros z acc; [done|].
  cbn [of_number_loop]. rewrite IH. unfold be_split. rewrite le_split_byte. cbn [rev].
  rewrite <- app_assoc. cbn [app]. do 2 f_equal.
  apply byte.unsigned_inj. rewrite !byte.unsigned_of_Z. unfold byte.wrap.
  change 0xff with (Z.ones 8). rewrite Z.land_ones by lia.
  change (2 ^ 8) with 256. apply Zmod_mod.
Qed.

(** The constructor stores the big-endian bytes of the number. *)
Lemma of_number_be_split n z : of_number n z = be_split n z.
Proof. unfold of_number. rewrite of_number_loop_spec. apply app_nil_r. Qed.

Lemma be_combine_snoc bs b : be_combine (bs ++ [b]) = Z.lor (Z.shiftl (be_combine bs) 8) (byte.unsigned b).
Proof.
  unfold be_combine. rewrite rev_app_distr.
  change (rev [b] ++ rev bs) with (b :: rev bs).
  change (le_combine (b :: rev bs)) with (Z.lor (byte.unsigned b) (Z.shiftl (le_combine (rev bs)) 8)).
  apply Z.lor_comm.
Qed.

Lemma number_fold w bs :
  8 * Z.of_nat (length bs) <= w ->
  fold_left (fun '(result, shift) b =>
               (Z.lor (wrap w (Z.shiftl result shift)) (byte.unsigned b), 8)) bs (0, 0)
  = (be_combine bs, if bs is [] then 0 else 8).
Proof.
  induction bs as [|b bs IH] using rev_ind; intros Hw; [done|].
  rewrite length_app in Hw. simpl in Hw.
  rewrite fold_left_app, IH by lia. cbn [fold_left].
  rewrite be_combine_snoc.
  replace (match bs ++ [b] with [] => 0 | _ => 8 end) with 8 by (by destruct bs).
  do 2 f_equal. pose proof (be_combine_fits bs) as [Hl Hu].
  destruct bs as [|b0 bs]; [apply wrap_small; split; [done|apply Z.pow_pos_nonneg; lia]|].
  apply wrap_small. rewrite Z.shiftl_mul_pow2 by lia. split; [lia|].
  replace w with (8 * Z.of_nat (length (b0 :: bs)) + 8 + (w - 8 * Z.of_nat (length (b0 :: bs)) - 8)) by lia.
  rewrite !Z.pow_add_r by (simpl length in *; lia).
  pose proof (Z.pow_pos_nonneg 2 (w - 8 * Z.of_nat (length (b0 :: bs)) - 8)
                ltac:(lia) ltac:(simpl length in *; lia)).
  nia.
Qed.

(** [number ()] reads the array as a big-endian number, without losing bits. *)
Lemma number_be_combine w bs :
  8 * Z.of_nat (length bs) <= w -> number w bs = be_combine bs.
Proof. intros H. unfold number. by rewrite number_fold. Qed.

(** Converting a number to its array and back gives the number reduced to
    the width of the array, and converting an array to a number and back gives
    the array; so no array value is lost by computing on the number. *)
Theorem number_of_number_roundtrip (n : nat) (bs : list byte) (z : Z) :
  length bs = n ->
  number (Z.of_nat n * 8) (of_number n z) = wrap (Z.of_nat n * 8) z
  /\ of_number n (number (Z.of_nat n * 8) bs) = bs
  /\ fits (Z.of_nat n * 8) (number (Z.of_nat n * 8) bs).
Proof.
  intros Hl. rewrite !of_number_be_split, !number_be_combine by (rewrite ?length_be_split; lia).
  split_and!.
  - apply be_combine_split.
  - by apply be_split_combine.
  - rewrite <- Hl, Z.mul_comm. apply be_combine_fits.
Qed.

Lemma number_of_number_roundtrip_witness :
  number 128 (of_number 16 (2 ^ 130 + 5)) = 5
  /\ of_number 16 (number 128 (kat_input 16)) = kat_input 16
  /\ fits 128 (number 128 (kat_input 16)).
Proof.
  apply (number_of_number_roundtrip 16 (kat_input 16) (2 ^ 130 + 5)); reflexivity.
Defined.

(** ** The qword-wise operators are the operators on the numbers *)

Definition xor_byte (a b : byte) : byte := byte.of_Z (Z.lxor (byte.unsigned a) (byte.unsigned b)).

Lemma of_Z_lxor x y : byte.of_Z (Z.lxor x y) = xor_byte (byte.of_Z x) (byte.of_Z y).
Proof.
  apply byte.unsigned_inj. unfold xor_byte. rewrite !byte.unsigned_of_Z. unfold byte.wrap.
  change 256 with (2 ^ 8). rewrite <- !Z.land_ones by lia. apply Z.bits_inj'. intros i Hi.
  rewrite !Z.land_spec, !Z.lxor_spec, !Z.land_spec.
  by destruct (Z.testbit x i), (Z.testbit y i), (Z.testbit (Z.ones 8) i).
Qed.

Lemma le_split_lxor n x y :
  le_split n (Z.lxor x y) = zip_with xor_byte (le_split n x) (le_split n y).
Proof.
  revert x y. induction n as [|n IH]; intros x y; [done|].
  rewrite !le_split_byte. cbn [zip_with]. f_equal; [apply of_Z_lxor|].
  rewrite Z.shiftr_lxor. apply IH.
Qed.

Lemma zip_with_rev {A} (f : A -> A -> A) l k :
  length l = length k -> zip_with f (rev l) (rev k) = rev (zip_with f l k).
Proof.
  revert k. induction l as [|a l IH]; intros [|b k] Hl; try discriminate; [done|].
  injection Hl as Hl. cbn [rev zip_with]. rewrite zip_with_app by (rewrite !length_rev; done).
  rewrite IH by done. done.
Qed.

Lemma be_split_lxor n x y :
  be_split n (Z.lxor x y) = zip_with xor_byte (be_split n x) (be_split n y).
Proof.
  unfold be_split. rewrite le_split_lxor, zip_with_rev; [done|]. by rewrite !length_le_split.
Qed.

Lemma xor_qwords_zip n a b :
  length a = (8 * n)%nat -> length b = (8 * n)%nat ->
  xor_qwords n a b = zip_with xor_byte a b.
Proof.
  unfold xor_qwords. revert a b. induction n as [|n IH]; intros a b Ha Hb.
  { destruct a; [done|discriminate]. }
  cbn [seq flat_map]. rewrite <- seq_shift, flat_map_concat_map, map_map, <- flat_map_concat_map.
  rewrite (flat_map_ext _ (fun i => le_split 8 (Z.lxor (qword (drop 8 a) i) (qword (drop 8 b) i)))).
  2:{ intros i. unfold qword. rewrite !drop_drop. do 4 f_equal; f_equal; f_equal; lia. }
  rewrite (IH (drop 8 a) (drop 8 b)) by (rewrite length_drop; lia).
  transitivity (zip_with xor_byte (take 8 a ++ drop 8 a) (take 8 b ++ drop 8 b));
    [|by rewrite !take_drop].
  rewrite zip_with_app by (rewrite !length_take; lia). f_equal.
  rewrite le_split_lxor. unfold qword. change (8 * 0)%nat with 0%nat. rewrite !drop_0.
  rewrite !split_le_combine' by (rewrite length_take; lia). done.
Qed.

Lemma le_combine_zero bs : le_combine bs = 0 -> bs = repeat Byte.x00 (length bs).
Proof.
  intros H. apply le_combine_inj; [by rewrite repeat_length|]. by rewrite le_combine_0.
Qed.

Lemma is_zero_qwords_repeat n bs :
  length bs = (8 * n)%nat -> is_zero_qwords n bs = bool_decide (bs = repeat Byte.x00 (8 * n)).
Proof.
  unfold is_zero_qwords. revert bs. induction n as [|n IH]; intros bs Hl.
  { destruct bs; [done|discriminate]. }
  cbn [seq forallb]. rewrite <- seq_shift, forallb_map.
  rewrite (forallb_ext _ (fun i => qword (drop 8 bs) i =? 0)).
  2:{ intros i. unfold qword. rewrite drop_drop. do 4 f_equal. lia. }
  rewrite IH by (rewrite length_drop; lia).
  replace (8 * S n)%nat with (8 + 8 * n)%nat by lia. rewrite repeat_app.
  unfold qword. change (8 * 0)%nat with 0%nat. rewrite drop_0.
  destruct (Z.eqb_spec (le_combine (take 8 bs)) 0) as [Hz|Hz]; cbn [andb].
  - apply le_combine_zero in Hz. rewrite length_take_le in Hz by lia.
    apply bool_decide_ext. split; intros He.
    + rewrite <- (take_drop 8 bs). congruence.
    + rewrite He. by rewrite drop_app_length' by (by rewrite repeat_length).
  - symmetry. apply bool_decide_eq_false. intros He. apply Hz. rewrite He.
    rewrite take_app_length' by (by rewrite repeat_length). apply le_combine_0.
Qed.

Lemma be_split_zero n : be_split n 0 = repeat Byte.x00 n.
Proof.
  unfold be_split. induction n as [|n IH]; [done|].
  rewrite le_split_byte. cbn [rev]. rewrite Z.shiftr_0_l, IH.
  change (byte.of_Z 0) with Byte.x00. symmetry. apply repeat_cons.
Qed.

(** Testing the four qwords of a 256-bit array for zero tests the number
    for zero, and xoring two arrays qword by qword gives the array of the
    bitwise exclusive or of the numbers. *)
Theorem qword_operators (u v : uint256_union) :
  fits 256 u -> fits 256 v ->
  is_zero_qwords 4 (bytes256 u) = is_zero u
  /\ xor_qwords 4 (bytes256 u) (bytes256 v) = bytes256 (xor256 u v)
  /\ fits 256 (xor256 u v).
Proof.
  intros Hu Hv. unfold bytes256. split_and!.
  - rewrite is_zero_qwords_repeat by apply length_be_split.
    rewrite <- be_split_zero. unfold is_zero.
    destruct (Z.eqb_spec u 0) as [->|Hne]; [by apply bool_decide_eq_true|].
    apply bool_decide_eq_false. intros He. apply Hne.
    apply (be_split_inj 32); [exact Hu|apply fits_0; lia|exact He].
  - rewrite xor_qwords_zip by apply length_be_split. symmetry. apply be_split_lxor.
  - apply lxor_fits; [lia|done..].
Qed.

Lemma qword_operators_witness :
  is_zero_qwords 4 (bytes256 7) = is_zero 7
  /\ xor_qwords 4 (bytes256 7) (bytes256 (2 ^ 255)) = bytes256 (xor256 7 (2 ^ 255))
  /\ fits 256 (xor256 7 (2 ^ 255)).
Proof. apply qword_operators; unfold fits; lia. Defined.

(** ** Account numbers *)

(** A [std::string]. *)
Abbreviation text := (list ascii) (only parsing).

Definition code (c : ascii) : Z := Z.of_N (N_of_ascii c).
Definition str (s : string) : text := list_ascii_of_string s.

Definition base58_reverse : text :=
  str "~012345678~~~~~~~9:;<=>?@~ABCDE~FGHIJKLMNOP~~~~~~QRSTUVWXYZ[~\]^_`abcdefghi".
Definition account_lookup : text := str "13456789abcdefghijkmnopqrstuwxyz".
Definition account_reverse : text :=
  str "~0~1234567~~~~~~~~~~~~~~~~~~~~~~~~~~~~~~~~~~~~~~~89:;<=>?@AB~CDEFGHIJK~LMNO~~~~~".

(** A character of a C string literal: the array ends with a NUL, and reading
    behind it yields nothing determinate. *)
Definition literal_at (lit : text) (i : nat) : option Z :=
  match lit !! i with
  | Some c => Some (code c)
  | None => if (i =? length lit)%nat then Some 0 else None
  end.

Definition base58_decode (value : ascii) : res Z :=
  if (0x30 <=? code value) && (code value <=? 0x7e) then
    match literal_at base58_reverse (Z.to_nat (code value - 0x30)) with
    | Some c => Ok (wrap 8 (c - 0x30))
    | None => Fault Indeterminate_value
    end
  else Fault Assertion_failed.

Definition account_encode (value : Z) : res ascii :=
  if value <? 32 then
    match account_lookup !! Z.to_nat value with
    | Some c => Ok c
    | None => Fault Indeterminate_value
    end
  else Fault Assertion_failed.

Definition account_decode (value : ascii) : res Z :=
  if (0x30 <=? code value) && (code value <=? 0x7e) then
    match literal_at account_reverse (Z.to_nat (code value - 0x30)) with
    | Some c => Ok (wrap 8 (c - 0x30))
    | None => Fault Indeterminate_value
    end
  else Fault Assertion_failed.

(** The 40-bit checksum, as [blake2b_final] leaves it in a [uint64_t]. *)
Definition account_check (u : uint256_union) : Z := le_combine (blake2b_hash 5 [bytes256 u]).

(** The 60 turns of [encode_account]: five bits each, least significant first. *)
Fixpoint encode_account_loop (n : nat) (number_l : Z) (destination : text) : res text :=
  match n with
  | O => Ok destination
  | S n =>
      let r := Z.land (wrap 8 number_l) 0x1f in
      match account_encode r with
      | Ok c => encode_account_loop n (Z.shiftr number_l 5) (destination ++ [c])
      | Fault f => Fault f
      end
  end.

Definition encode_account (u : uint256_union) : res text :=
  let number_l := wrap 512 (Z.shiftl u 40) in
  let number_l := Z.lor number_l (account_check u) in
  match encode_account_loop 60 number_l [] with
  | Ok destination => Ok (rev (destination ++ str "_brx"))
  | Fault f => Fault f
  end.

(** The decoding loops: an error, or the number read so far. *)
Fixpoint decode_account_loop (source : text) (number_l : Z) : res (bool * Z) :=
  match source with
  | [] => Ok (false, number_l)
  | c :: source =>
      if (code c <? 0x30) || (0x80 <=? code c) then Ok (true, number_l)
      else match account_decode c with
           | Fault f => Fault f
           | Ok byte =>
               if byte =? 0x7e (* '~' *) then Ok (true, number_l)
               else decode_account_loop source (wrap 512 (wrap 512 (Z.shiftl number_l 5) + byte))
           end
  end.

Fixpoint decode_account_v1_loop (source : text) (number_l : Z) : res (bool * Z) :=
  match source with
  | [] => Ok (false, number_l)
  | c :: source =>
      if (code c <? 0x30) || (0x80 <=? code c) then Ok (true, number_l)
      else match base58_decode c with
           | Fault f => Fault f
           | Ok byte =>
               if byte =? 0x7e then Ok (true, number_l)
               else decode_account_v1_loop source (wrap 512 (wrap 512 (number_l * 58) + byte))
           end
  end.

(** [decode_account_v1]: the error flag and the new value of [*this]. *)
Definition decode_account_v1 (this : uint256_union) (source : text) : res (bool * uint256_union) :=
  if negb (length source =? 50)%nat then Ok (true, this)
  else match decode_account_v1_loop source 0 with
       | Fault f => Fault f
       | Ok (true, _) => Ok (true, this)
       | Ok (false, number_l) =>
           let this := wrap 256 number_l in
           let check := wrap 32 (Z.shiftr number_l 256) in
           if negb (Z.shiftr number_l (256 + 32) =? 13) then Ok (true, this)
           else
             let validation := le_combine (blake2b_hash 4 [bytes256 this]) in
             Ok (negb (check =? validation), this)
       end.

Definition decode_account (this : uint256_union) (source : text) : res (bool * uint256_union) :=
  if (length source =? 64)%nat then
    match source with
    | c0 :: c1 :: c2 :: c3 :: digits =>
        if (code c0 =? code "x") && (code c1 =? code "r") && (code c2 =? code "b")
           && ((code c3 =? code "_") || (code c3 =? code "-")) then
          match decode_account_loop digits 0 with
          | Fault f => Fault f
          | Ok (true, _) => Ok (true, this)
          | Ok (false, number_l) =>
              let this := wrap 256 (Z.shiftr number_l 40) in
              let check := Z.land (wrap 64 number_l) 0xffffffffff in
              let validation := account_check this in
              Ok (negb (check =? validation), this)
          end
        else Ok (true, this)
    | _ => Ok (true, this)
    end
  else decode_account_v1 this source.

(** *** Round trip *)

Definition digit (r : Z) : ascii := nth (Z.to_nat r) account_lookup "0"%char.

(** The [n] characters of a number, least significant first. *)
Fixpoint digits (n : nat) (z : Z) : text :=
  match n with O => [] | S n => digit (z mod 32) :: digits n (z / 32) end.

Lemma length_digits n z : length (digits n z) = n.
Proof. revert z. induction n; intros; simpl; auto. Qed.

(** Every five-bit value has a character that decodes to it. *)
Lemma digit_spec r :
  0 <= r < 32 ->
  account_encode r = Ok (digit r)
  /\ (code (digit r) <? 0x30) || (0x80 <=? code (digit r)) = false
  /\ account_decode (digit r) = Ok r.
Proof.
  intros Hr.
  assert (Hall : forallb (fun r =>
    match account_encode r with Ok c => Ascii.eqb c (digit r) | _ => false end
    && negb ((code (digit r) <? 0x30) || (0x80 <=? code (digit r)))
    && match account_decode (digit r) with Ok x => x =? r | _ => false end)
    (map Z.of_nat (seq 0 32)) = true) by (vm_compute; reflexivity).
  rewrite forallb_forall in Hall. specialize (Hall r).
  rewrite !andb_true_iff in Hall. destruct Hall as [[He Hc] Hd].
  { apply in_map_iff. exists (Z.to_nat r). rewrite in_seq. lia. }
  split_and!.
  - destruct (account_encode r); [|done]. apply Ascii.eqb_eq in He. by subst.
  - by apply negb_true_iff in Hc.
  - destruct (account_decode (digit r)); [|done]. apply Z.eqb_eq in Hd. by subst.
Qed.

Lemma land_five_bits z : Z.land (wrap 8 z) 0x1f = z mod 32.
Proof.
  unfold wrap. change 0x1f with (Z.ones 5). rewrite Z.land_ones by lia.
  change (2 ^ 5) with 32. rewrite Z.mod_mod_divide; [done|]. by exists 8.
Qed.

Lemma encode_loop_digits n z acc : encode_account_loop n z acc = Ok (acc ++ digits n z).
Proof.
  revert z acc. induction n as [|n IH]; intros z acc; [simpl; by rewrite app_nil_r|].
  cbn [encode_account_loop digits]. rewrite land_five_bits.
  destruct (digit_spec (z mod 32)) as (-> & _ & _); [apply Z.mod_pos_bound; lia|].
  rewrite IH, <- app_assoc, Z.shiftr_div_pow2 by lia. done.
Qed.

Lemma decode_loop_app a b m :
  decode_account_loop (a ++ b) m
  = match decode_account_loop a m with
    | Ok (false, m') => decode_account_loop b m'
    | r => r
    end.
Proof.
  revert m. induction a as [|c a IH]; intros m; [done|].
  cbn [app decode_account_loop]. repeat (case_match; try done); apply IH.
Qed.

Lemma decode_loop_digits n z :
  (n <= 100)%nat -> 0 <= z -> decode_account_loop (rev (digits n z)) 0 = Ok (false, z mod 32 ^ Z.of_nat n).
Proof.
  revert z. induction n as [|n IH]; intros z Hn Hz; [simpl; by rewrite Z.mod_1_r|].
  cbn [digits rev]. rewrite decode_loop_app, IH by (lia || apply Z.div_pos; lia).
  destruct (digit_spec (z mod 32)) as (_ & Hc & Hd); [apply Z.mod_pos_bound; lia|].
  cbn [decode_account_loop]. rewrite Hc, Hd.
  pose proof (Z.mod_pos_bound z 32 ltac:(lia)) as Hb.
  destruct (Z.eqb_spec (z mod 32) 0x7e); [lia|].
  do 2 f_equal. set (q := z / 32). set (k := 32 ^ Z.of_nat n).
  assert (Hk : 0 < k) by (apply Z.pow_pos_nonneg; lia).
  pose proof (Z.mod_pos_bound q k Hk) as Hq.
  assert (Hk5 : k * 32 <= 2 ^ 505).
  { unfold k. change 32 with (2 ^ 5) at 1. change 32 with (2 ^ 5).
    rewrite <- Z.pow_mul_r, <- Z.pow_add_r by lia. apply Z.pow_le_mono_r; lia. }
  rewrite Z.shiftl_mul_pow2 by lia. change (2 ^ 5) with 32.
  rewrite (wrap_small 512 (q mod k * 32)) by (unfold fits; lia).
  rewrite wrap_small by (unfold fits; lia).
  rewrite Nat2Z.inj_succ, Z.pow_succ_r by lia. fold k.
  rewrite (Z.rem_mul_r z 32 k) by lia. fold q. lia.
Qed.

Lemma account_check_fits u : fits 40 (account_check u).
Proof.
  unfold account_check. pose proof (le_combine_fits (blake2b_hash 5 [bytes256 u])) as H.
  by rewrite length_blake2b_hash in H by lia.
Qed.

(** The account with its checksum. *)
Definition account_number (u : uint256_union) : Z := Z.lor (wrap 512 (Z.shiftl u 40)) (account_check u).

Lemma encode_account_digits u : encode_account u = Ok (str "xrb_" ++ rev (digits 60 (account_number u))).
Proof. unfold encode_account. fold (account_number u). by rewrite encode_loop_digits, rev_app_distr. Qed.

Lemma account_number_sum u : fits 256 u -> account_number u = u * 2 ^ 40 + account_check u.
Proof.
  intros Hu. pose proof (account_check_fits u) as Hc. unfold account_number. rewrite Z.shiftl_mul_pow2 by lia.
  rewrite wrap_small by (unfold fits in *; lia).
  rewrite <- Z.add_nocarry_lor; [done|]. apply Z.bits_inj'. intros i Hi.
  rewrite Z.land_spec, Z.bits_0. destruct (Z.lt_ge_cases i 40).
  - by rewrite Z.mul_pow2_bits_low by lia.
  - rewrite <- (wrap_small 40 (account_check u)) by done.
    unfold wrap. rewrite Z.mod_pow2_bits_high by lia. apply andb_false_r.
Qed.

Lemma decode_account_digits u this :
  fits 256 u -> decode_account this (str "xrb_" ++ rev (digits 60 (account_number u))) = Ok (false, u).
Proof.
  intros Hu. pose proof (account_check_fits u) as Hc. rewrite account_number_sum by done.
  set (n := u * 2 ^ 40 + account_check u).
  assert (Hb : 0 <= n < 2 ^ 300) by (unfold n, fits in *; lia).
  assert (Hs : Z.shiftr n 40 = u).
  { rewrite Z.shiftr_div_pow2 by lia. symmetry.
    apply Z.div_unique with (account_check u); unfold n, fits in *; lia. }
  assert (Hl : Z.land (wrap 64 n) 0xffffffffff = account_check u).
  { change 0xffffffffff with (Z.ones 40). rewrite Z.land_ones by lia. unfold wrap.
    rewrite Z.mod_mod_divide by (by exists (2 ^ 24)). symmetry.
    apply Z.mod_unique with u; unfold n, fits in *; lia. }
  clearbody n. unfold decode_account.
  rewrite length_app, length_rev, length_digits. cbn [Nat.eqb].
  change (str "xrb_" ++ rev (digits 60 n))
    with ("x" :: "r" :: "b" :: "_" :: rev (digits 60 n))%char.
  cbv iota beta.
  rewrite (decode_loop_digits 60 n) by lia.
  rewrite (Z.mod_small n (32 ^ Z.of_nat 60)) by exact Hb.
  rewrite Hs, Hl, (wrap_small 256 u Hu), (Z.eqb_refl (account_check u)). reflexivity.
Qed.

(** Every 256-bit account is printed as 64 characters, and reading them
    back gives the account without an error, whatever the target held before. *)
Theorem account_roundtrip (u : account) :
  fits 256 u ->
  exists s, encode_account u = Ok s /\ length s = 64%nat
            /\ forall this, decode_account this s = Ok (false, u).
Proof.
  intros Hu. exists (str "xrb_" ++ rev (digits 60 (account_number u))). split_and!.
  - apply encode_account_digits.
  - by rewrite length_app, length_rev, length_digits.
  - intros this. by apply decode_account_digits.
Qed.

Lemma account_roundtrip_witness :
  exists s, encode_account 0xE89208DD038FBB269987689621D52292AE9C35941A7484756ECCED92A65093BA = Ok s
    /\ length s = 64%nat
    /\ forall this, decode_account this s
       = Ok (false, 0xE89208DD038FBB269987689621D52292AE9C35941A7484756ECCED92A65093BA).
Proof. apply account_roundtrip. unfold fits. lia. Defined.

(** Reading is not injective.  The test [byte == '~'] never holds, because
    [account_decode] has already subtracted 0x30 from the '~' that marks a
    character outside the alphabet, and the bits above the 256th are dropped;
    so the same account is also read, without an error, from a text with the
    foreign character '0' and from one whose first digit is out of range. *)
Theorem decode_account_accepts_foreign_characters :
  let u := 0xB0311EA55708D6A53C75CDBF88300259C6D018522FE3D4D0A242E431F9E8B6D0 in
  encode_account u = Ok (str "xrb_3e3j5tkog48pnny9dmfzj1r16pg8t1e76dz5tmac6iq689wyjfpiij4txtdo")
  /\ decode_account 0 (str "xrb_3e3j5tkog48pnny9dmfzj1r16n08t1e76dz5tmac6iq689wyjfpiij4txtdo") = Ok (false, u)
  /\ decode_account 0 (str "xrb_5e3j5tkog48pnny9dmfzj1r16pg8t1e76dz5tmac6iq689wyjfpiij4txtdo") = Ok (false, u)
  /\ decode_account_v1 0 (repeat "|"%char 50) = Fault Indeterminate_value.
Proof. vm_compute. split_and!; reflexivity. Qed.
