(* ===== verification/Streams.v ===== *)
(** * Byte streams (rai/lib/blocks.hpp, rai/lib/blocks.cpp)

    [rai::read] and [rai::write] copy the memory of a value: the unions as their
    byte arrays, integers least significant byte first.  [read_bytes] and
    [write_bytes] handle the variable-length action of a [send_block_v2]. *)
From Stdlib Require Import ZArith Lia List.
From stdpp Require Import prelude.
From S2P Require Import Prelude.

Local Open Scope rd_scope.

(** [rai::read] of [n] bytes. *)
Definition read (n : nat) : reader (list byte) := fun s =>
  if (n <=? length s)%nat then Got (take n s) (drop n s) else Short.

(** A union of [n] bytes and an integer of [n] bytes. *)
Definition read_be (n : nat) : reader Z := bs <~ read n;; rd_ret (be_combine bs).
Definition read_le (n : nat) : reader Z := bs <~ read n;; rd_ret (le_combine bs).

Definition read_u128 : reader Z := read_be 16.
Definition read_u256 : reader Z := read_be 32.
Definition read_u512 : reader Z := read_be 64.
Definition read_u64 : reader Z := read_le 8.

Definition write_u128 (z : Z) : list byte := be_split 16 z.
Definition write_u256 (z : Z) : list byte := be_split 32 z.
Definition write_u512 (z : Z) : list byte := be_split 64 z.
Definition write_u64 (z : Z) : list byte := le_split 8 z.

(** The loop of [read_bytes]: [nsize] single-byte reads, appended to [bytes]. *)
Fixpoint read_bytes_loop (nsize : nat) (bytes : list byte) : reader (list byte) :=
  match nsize with
  | O => rd_ret bytes
  | S nsize => fun s =>
      match s with
      | c :: rest => read_bytes_loop nsize (bytes ++ [c]) rest
      | [] => Short
      end
  end.

(** [read_bytes]: the two reads of the size ignore their result, so on a stream
    that ends there the size is indeterminate. *)
Definition read_bytes (bytes : list byte) : reader (list byte) := fun s =>
  match s with
  | c1 :: c2 :: rest =>
      let nsize := byte.unsigned c1 + Z.shiftl (byte.unsigned c2) 8 in
      read_bytes_loop (Z.to_nat nsize) bytes rest
  | _ => Rd_fault Indeterminate_value
  end.

(** [write_bytes]: [sputc] keeps the low byte of its argument. *)
Definition write_bytes (bytes : list byte) : list byte :=
  let size := Z.of_nat (length bytes) in
  byte.of_Z (Z.land size 0xff) :: byte.of_Z (Z.shiftr size 8) :: bytes.

#[global] Arguments read_be : simpl never.
#[global] Arguments read_le : simpl never.
#[global] Arguments read_bytes : simpl never.
#[global] Arguments write_bytes : simpl never.

(** ** Laws *)

Lemma rd_bind_got {A B} (m : reader A) (k : A -> reader B) s a rest :
  m s = Got a rest -> rd_bind m k s = k a rest.
Proof. unfold rd_bind. by intros ->. Qed.

Lemma rd_bind_inv {A B} (m : reader A) (k : A -> reader B) s b rest :
  rd_bind m k s = Got b rest -> exists a mid, m s = Got a mid /\ k a mid = Got b rest.
Proof. unfold rd_bind. destruct (m s) eqn:E; naive_solver. Qed.

Lemma read_app n bs rest : length bs = n -> read n (bs ++ rest) = Got bs rest.
Proof.
  intros Hl. unfold read. rewrite length_app, (proj2 (Nat.leb_le _ _)) by lia.
  by rewrite take_app_length', drop_app_length'.
Qed.

Lemma read_inv n s bs rest : read n s = Got bs rest -> s = bs ++ rest /\ length bs = n.
Proof.
  unfold read. destruct (Nat.leb_spec n (length s)) as [Hl|]; [|done].
  intros [= <- <-]. rewrite take_drop, length_take_le by done. done.
Qed.

Lemma read_short n s : (length s < n)%nat -> read n s = Short.
Proof. intros Hl. unfold read. by rewrite (proj2 (Nat.leb_gt _ _)). Qed.

Lemma read_be_app n z rest :
  fits (Z.of_nat n * 8) z -> read_be n (be_split n z ++ rest) = Got z rest.
Proof.
  intros Hz. unfold read_be. erewrite rd_bind_got by (apply read_app, length_be_split).
  unfold rd_ret. by rewrite be_combine_split, wrap_small.
Qed.

Lemma read_le_app n z rest :
  fits (Z.of_nat n * 8) z -> read_le n (le_split n z ++ rest) = Got z rest.
Proof.
  intros Hz. unfold read_le. erewrite rd_bind_got by (apply read_app, length_le_split).
  unfold rd_ret. rewrite le_combine_split. f_equal. by apply wrap_small.
Qed.

Lemma read_be_inv n s z rest :
  read_be n s = Got z rest -> s = be_split n z ++ rest /\ fits (Z.of_nat n * 8) z.
Proof.
  intros (bs & mid & [-> Hl]%read_inv & [= <- <-])%rd_bind_inv.
  rewrite be_split_combine by done. split; [done|].
  rewrite Z.mul_comm, <- Hl. apply be_combine_fits.
Qed.

Lemma read_le_inv n s z rest :
  read_le n s = Got z rest -> s = le_split n z ++ rest /\ fits (Z.of_nat n * 8) z.
Proof.
  intros (bs & mid & [-> Hl]%read_inv & [= <- <-])%rd_bind_inv.
  rewrite split_le_combine' by done. split; [done|].
  rewrite Z.mul_comm, <- Hl. apply le_combine_fits.
Qed.

Lemma read_bytes_loop_app bytes acc rest :
  read_bytes_loop (length bytes) acc (bytes ++ rest) = Got (acc ++ bytes) rest.
Proof.
  revert acc. induction bytes as [|b bytes IH]; intros acc; simpl.
  - unfold rd_ret. by rewrite app_nil_r.
  - rewrite IH, <- app_assoc. done.
Qed.

Lemma read_bytes_loop_inv n acc s bs rest :
  read_bytes_loop n acc s = Got bs rest ->
  exists new, bs = acc ++ new /\ length new = n /\ s = new ++ rest.
Proof.
  revert acc s. induction n as [|n IH]; intros acc s; simpl.
  - unfold rd_ret. intros [= <- <-]. exists []. by rewrite app_nil_r.
  - destruct s as [|c s]; [done|]. intros (new & -> & Hl & ->)%IH.
    exists (c :: new). rewrite <- app_assoc. simpl. by rewrite Hl.
Qed.

(** The two size bytes, read back. *)
Lemma size_bytes (n : nat) :
  Z.of_nat n < 2 ^ 16 ->
  Z.to_nat (byte.unsigned (byte.of_Z (Z.land (Z.of_nat n) 0xff))
            + Z.shiftl (byte.unsigned (byte.of_Z (Z.shiftr (Z.of_nat n) 8))) 8) = n.
Proof.
  intros Hn. rewrite !byte.unsigned_of_Z. unfold byte.wrap.
  change 0xff with (Z.ones 8). rewrite Z.land_ones, Z.shiftl_mul_pow2, Z.shiftr_div_pow2 by lia.
  change (2 ^ 8) with 256. rewrite Zmod_mod.
  pose proof (Z.div_mod (Z.of_nat n) 256 ltac:(lia)).
  rewrite (Z.mod_small (Z.of_nat n / 256)).
  - lia.
  - split; [apply Z.div_pos; lia|]. apply Z.div_lt_upper_bound; lia.
Qed.

Lemma read_write_bytes acc bytes rest :
  Z.of_nat (length bytes) < 2 ^ 16 ->
  read_bytes acc (write_bytes bytes ++ rest) = Got (acc ++ bytes) rest.
Proof.
  intros Hl. unfold read_bytes, write_bytes. cbn [app].
  rewrite size_bytes by done. apply read_bytes_loop_app.
Qed.

Lemma read_bytes_inv s bs rest :
  read_bytes [] s = Got bs rest ->
  s = write_bytes bs ++ rest /\ Z.of_nat (length bs) < 2 ^ 16.
Proof.
  unfold read_bytes, write_bytes. destruct s as [|c1 [|c2 s]]; [done..|].
  intros (new & -> & Hl & ->)%read_bytes_loop_inv. cbn [app].
  pose proof (byte.unsigned_range c1). pose proof (byte.unsigned_range c2).
  rewrite Z.shiftl_mul_pow2 in Hl by lia. change (2 ^ 8) with 256 in Hl.
  assert (Hz : Z.of_nat (length new) = byte.unsigned c1 + byte.unsigned c2 * 256) by lia.
  rewrite Hz. split; [|lia]. f_equal; [|f_equal].
  - change 0xff with (Z.ones 8). rewrite Z.land_ones by lia. change (2 ^ 8) with 256.
    rewrite Z_mod_plus_full, Z.mod_small by lia. symmetry. apply byte.of_Z_unsigned.
  - rewrite Z.shiftr_div_pow2 by lia. change (2 ^ 8) with 256.
    rewrite Z.div_add, Z.div_small by lia. symmetry. apply byte.of_Z_unsigned.
Qed.

(** ** Serialisable data

    What a client of the streams relies on: what is written is read back, and
    only what would have been written is read. *)
Class Serializable (A : Type) := {
  to_stream : A -> list byte;
  from_stream : reader A;
  in_range : A -> Prop;
  read_written a rest : in_range a -> from_stream (to_stream a ++ rest) = Got a rest;
  written_read s a rest : from_stream s = Got a rest -> s = to_stream a ++ rest /\ in_range a
}.

Lemma to_stream_inj {A} `{Serializable A} (a b : A) :
  in_range a -> in_range b -> to_stream a = to_stream b -> a = b.
Proof.
  intros Ha Hb He. pose proof (read_written a [] Ha) as H1.
  rewrite He, (read_written b [] Hb) in H1. congruence.
Qed.

(** A reader that succeeds on a stream succeeds, with the same value, on every
    longer stream. *)
Lemma from_stream_extend {A} `{Serializable A} s (a : A) rest more :
  from_stream s = Got a rest -> from_stream (s ++ more) = Got a (rest ++ more).
Proof. intros [-> Hr]%written_read. rewrite <- app_assoc. by apply read_written. Qed.

(** ** Automation: run a reader on what the matching writer produced, and take
    a successful run of a reader apart. *)
Ltac rd_run :=
  repeat match goal with
  | |- rd_bind (read_be _) _ _ = _ =>
      erewrite rd_bind_got by (apply read_be_app; assumption); cbv beta
  | |- rd_bind (read_le _) _ _ = _ =>
      erewrite rd_bind_got by (apply read_le_app; assumption); cbv beta
  | |- rd_bind (read_bytes _) _ _ = _ =>
      erewrite rd_bind_got by (apply read_write_bytes; assumption); cbv beta
  end.

Ltac rd_inv H :=
  repeat match type of H with
  | rd_bind (read_be _) _ _ = _ =>
      let z := fresh "z" in let mid := fresh "mid" in let Hr := fresh "Hr" in
      apply rd_bind_inv in H as (z & mid & [-> Hr]%read_be_inv & H)
  | rd_bind (read_le _) _ _ = _ =>
      let z := fresh "z" in let mid := fresh "mid" in let Hr := fresh "Hr" in
      apply rd_bind_inv in H as (z & mid & [-> Hr]%read_le_inv & H)
  | rd_bind (read_bytes _) _ _ = _ =>
      let z := fresh "z" in let mid := fresh "mid" in let Hr := fresh "Hr" in
      apply rd_bind_inv in H as (z & mid & [-> Hr]%read_bytes_inv & H)
  end.
