(* ===== verification/Blocks.v ===== *)
(** * Blocks (rai/lib/blocks.hpp, rai/lib/blocks.cpp)

    The five kinds of blocks, their hashes, their accessors and their binary
    form.  A block is serialised without its kind by its [serialize] method and
    with a leading type byte by [rai::serialize_block]. *)
From Stdlib Require Import ZArith Lia List.
From stdpp Require Import prelude.
From S2P Require Import Prelude Blake2b Numbers Streams.

Local Open Scope rd_scope.

(** ** Data *)

Inductive block_type : Type :=
| invalid | not_a_block | send | receive | open | change | send_v2.

Definition block_type_code (t : block_type) : Z :=
  match t with
  | invalid => 0 | not_a_block => 1 | send => 2 | receive => 3 | open => 4
  | change => 5 | send_v2 => 6
  end.

(** The enumerator of an underlying value; a [block_type] object can hold any
    other [uint8_t] too. *)
Definition block_type_of_code (z : Z) : option block_type :=
  match z with
  | 0 => Some invalid | 1 => Some not_a_block | 2 => Some send | 3 => Some receive
  | 4 => Some open | 5 => Some change | 6 => Some send_v2 | _ => None
  end.

Record send_hashables := SendHashables {
  sh_previous : block_hash;
  sh_destination : account;
  sh_balance : amount
}.
Record send_block := SendBlock {
  send_h : send_hashables;
  send_signature : signature;
  send_work : Z
}.

Record send_hashables_v2 := SendHashablesV2 {
  s2h_previous : block_hash;
  s2h_destination : account;
  s2h_action : list byte
}.
Record send_block_v2 := SendBlockV2 {
  send2_h : send_hashables_v2;
  send2_signature : signature;
  send2_work : Z
}.

Record receive_hashables := ReceiveHashables {
  rh_previous : block_hash;
  rh_source : block_hash
}.
Record receive_block := ReceiveBlock {
  receive_h : receive_hashables;
  receive_signature : signature;
  receive_work : Z
}.

Record open_hashables := OpenHashables {
  oh_source : block_hash;
  oh_representative : account;
  oh_account : account
}.
Record open_block := OpenBlock {
  open_h : open_hashables;
  open_signature : signature;
  open_work : Z
}.

Record change_hashables := ChangeHashables {
  ch_previous : block_hash;
  ch_representative : account
}.
Record change_block := ChangeBlock {
  change_h : change_hashables;
  change_signature : signature;
  change_work : Z
}.

(** The class [block] and its subclasses. *)
Inductive block : Type :=
| Send (b : send_block)
| SendV2 (b : send_block_v2)
| Receive (b : receive_block)
| Open (b : open_block)
| Change (b : change_block).

#[export] Instance send_hashables_eq_dec : EqDecision send_hashables.
Proof. solve_decision. Defined.
#[export] Instance send_block_eq_dec : EqDecision send_block.
Proof. solve_decision. Defined.
#[export] Instance send_hashables_v2_eq_dec : EqDecision send_hashables_v2.
Proof. solve_decision. Defined.
#[export] Instance send_block_v2_eq_dec : EqDecision send_block_v2.
Proof. solve_decision. Defined.
#[export] Instance receive_hashables_eq_dec : EqDecision receive_hashables.
Proof. solve_decision. Defined.
#[export] Instance receive_block_eq_dec : EqDecision receive_block.
Proof. solve_decision. Defined.
#[export] Instance open_hashables_eq_dec : EqDecision open_hashables.
Proof. solve_decision. Defined.
#[export] Instance open_block_eq_dec : EqDecision open_block.
Proof. solve_decision. Defined.
#[export] Instance change_hashables_eq_dec : EqDecision change_hashables.
Proof. solve_decision. Defined.
#[export] Instance change_block_eq_dec : EqDecision change_block.
Proof. solve_decision. Defined.
#[export] Instance block_eq_dec : EqDecision block.
Proof. solve_decision. Defined.
#[export] Instance block_type_eq_dec : EqDecision block_type.
Proof. solve_decision. Defined.

(** ** Hashing: the chunks each kind feeds to BLAKE2b *)

Definition send_hashables_hash (h : send_hashables) : list (list byte) :=
  [bytes256 (sh_previous h); bytes256 (sh_destination h); bytes128 (sh_balance h)].
Definition send_hashables_v2_hash (h : send_hashables_v2) : list (list byte) :=
  [bytes256 (s2h_previous h); bytes256 (s2h_destination h); s2h_action h].
Definition receive_hashables_hash (h : receive_hashables) : list (list byte) :=
  [bytes256 (rh_previous h); bytes256 (rh_source h)].
Definition open_hashables_hash (h : open_hashables) : list (list byte) :=
  [bytes256 (oh_source h); bytes256 (oh_representative h); bytes256 (oh_account h)].
Definition change_hashables_hash (h : change_hashables) : list (list byte) :=
  [bytes256 (ch_previous h); bytes256 (ch_representative h)].

(** The virtual [hash (blake2b_state &)] of each kind. *)
Definition hash_chunks (b : block) : list (list byte) :=
  match b with
  | Send b => send_hashables_hash (send_h b)
  | SendV2 b => send_hashables_v2_hash (send2_h b)
  | Receive b => receive_hashables_hash (receive_h b)
  | Open b => open_hashables_hash (open_h b)
  | Change b => change_hashables_hash (change_h b)
  end.

(** [rai::block::hash ()] *)
Definition hash (b : block) : block_hash := be_combine (blake2b_hash 32 (hash_chunks b)).

(** ** Accessors (the virtual methods) *)

Definition block_work (b : block) : Z :=
  match b with
  | Send b => send_work b | SendV2 b => send2_work b | Receive b => receive_work b
  | Open b => open_work b | Change b => change_work b
  end.

Definition block_work_set (work_a : Z) (b : block) : block :=
  match b with
  | Send b => Send (SendBlock (send_h b) (send_signature b) work_a)
  | SendV2 b => SendV2 (SendBlockV2 (send2_h b) (send2_signature b) work_a)
  | Receive b => Receive (ReceiveBlock (receive_h b) (receive_signature b) work_a)
  | Open b => Open (OpenBlock (open_h b) (open_signature b) work_a)
  | Change b => Change (ChangeBlock (change_h b) (change_signature b) work_a)
  end.

(** Previous block in the account's chain, zero for an open block. *)
Definition previous (b : block) : block_hash :=
  match b with
  | Send b => sh_previous (send_h b)
  | SendV2 b => s2h_previous (send2_h b)
  | Receive b => rh_previous (receive_h b)
  | Open _ => 0
  | Change b => ch_previous (change_h b)
  end.

(** Source block for open and receive blocks, zero otherwise. *)
Definition source (b : block) : block_hash :=
  match b with
  | Receive b => rh_source (receive_h b)
  | Open b => oh_source (open_h b)
  | Send _ | SendV2 _ | Change _ => 0
  end.

(** Previous block, or the account number for open blocks. *)
Definition root (b : block) : block_hash :=
  match b with
  | Send b => sh_previous (send_h b)
  | SendV2 b => s2h_previous (send2_h b)
  | Receive b => rh_previous (receive_h b)
  | Open b => oh_account (open_h b)
  | Change b => ch_previous (change_h b)
  end.

Definition representative (b : block) : account :=
  match b with
  | Open b => oh_representative (open_h b)
  | Change b => ch_representative (change_h b)
  | Send _ | SendV2 _ | Receive _ => 0
  end.

Definition type (b : block) : block_type :=
  match b with
  | Send _ => send | SendV2 _ => send_v2 | Receive _ => receive | Open _ => open
  | Change _ => change
  end.

(** The field every kind has (the source reads it through the subclass). *)
Definition block_signature (b : block) : signature :=
  match b with
  | Send b => send_signature b | SendV2 b => send2_signature b
  | Receive b => receive_signature b | Open b => open_signature b
  | Change b => change_signature b
  end.

Definition signature_set (s : signature) (b : block) : block :=
  match b with
  | Send b => Send (SendBlock (send_h b) s (send_work b))
  | SendV2 b => SendV2 (SendBlockV2 (send2_h b) s (send2_work b))
  | Receive b => Receive (ReceiveBlock (receive_h b) s (receive_work b))
  | Open b => Open (OpenBlock (open_h b) s (open_work b))
  | Change b => Change (ChangeBlock (change_h b) s (change_work b))
  end.

(** ** Equality ([operator==]) *)

Definition send_block_eqb (a b : send_block) : bool :=
  (sh_destination (send_h a) =? sh_destination (send_h b))
  && (sh_previous (send_h a) =? sh_previous (send_h b))
  && (sh_balance (send_h a) =? sh_balance (send_h b))
  && (send_work a =? send_work b) && (send_signature a =? send_signature b).

Definition send_block_v2_eqb (a b : send_block_v2) : bool :=
  (s2h_destination (send2_h a) =? s2h_destination (send2_h b))
  && (s2h_previous (send2_h a) =? s2h_previous (send2_h b))
  && bool_decide (s2h_action (send2_h a) = s2h_action (send2_h b))
  && (send2_work a =? send2_work b) && (send2_signature a =? send2_signature b).

Definition receive_block_eqb (a b : receive_block) : bool :=
  (rh_previous (receive_h a) =? rh_previous (receive_h b))
  && (rh_source (receive_h a) =? rh_source (receive_h b))
  && (receive_work a =? receive_work b) && (receive_signature a =? receive_signature b).

Definition open_block_eqb (a b : open_block) : bool :=
  (oh_source (open_h a) =? oh_source (open_h b))
  && (oh_representative (open_h a) =? oh_representative (open_h b))
  && (oh_account (open_h a) =? oh_account (open_h b))
  && (open_work a =? open_work b) && (open_signature a =? open_signature b).

Definition change_block_eqb (a b : change_block) : bool :=
  (ch_previous (change_h a) =? ch_previous (change_h b))
  && (ch_representative (change_h a) =? ch_representative (change_h b))
  && (change_work a =? change_work b) && (change_signature a =? change_signature b).

(** [operator== (rai::block const &)]: the dynamic cast, then the fields. *)
Definition block_eqb (a b : block) : bool :=
  match a, b with
  | Send a, Send b => send_block_eqb a b
  | SendV2 a, SendV2 b => send_block_v2_eqb a b
  | Receive a, Receive b => receive_block_eqb a b
  | Open a, Open b => open_block_eqb a b
  | Change a, Change b => change_block_eqb a b
  | _, _ => false
  end.

(** ** Serialisation *)

Definition send_serialize (b : send_block) : list byte :=
  write_u256 (sh_previous (send_h b)) ++ write_u256 (sh_destination (send_h b))
  ++ write_u128 (sh_balance (send_h b)) ++ write_u512 (send_signature b)
  ++ write_u64 (send_work b).

Definition send_v2_serialize (b : send_block_v2) : list byte :=
  write_u256 (s2h_previous (send2_h b)) ++ write_u256 (s2h_destination (send2_h b))
  ++ write_bytes (s2h_action (send2_h b)) ++ write_u512 (send2_signature b)
  ++ write_u64 (send2_work b).

Definition receive_serialize (b : receive_block) : list byte :=
  write_u256 (rh_previous (receive_h b)) ++ write_u256 (rh_source (receive_h b))
  ++ write_u512 (receive_signature b) ++ write_u64 (receive_work b).

Definition open_serialize (b : open_block) : list byte :=
  write_u256 (oh_source (open_h b)) ++ write_u256 (oh_representative (open_h b))
  ++ write_u256 (oh_account (open_h b)) ++ write_u512 (open_signature b)
  ++ write_u64 (open_work b).

Definition change_serialize (b : change_block) : list byte :=
  write_u256 (ch_previous (change_h b)) ++ write_u256 (ch_representative (change_h b))
  ++ write_u512 (change_signature b) ++ write_u64 (change_work b).

(** The virtual [serialize]. *)
Definition serialize (b : block) : list byte :=
  match b with
  | Send b => send_serialize b
  | SendV2 b => send_v2_serialize b
  | Receive b => receive_serialize b
  | Open b => open_serialize b
  | Change b => change_serialize b
  end.

(** [rai::serialize_block]: prefixed with an 8-bit typecode. *)
Definition serialize_block (b : block) : list byte :=
  le_split 1 (block_type_code (type b)) ++ serialize b.

(** *** The stream constructors *)

Definition send_hashables_read : reader send_hashables :=
  previous <~ read_u256;; destination <~ read_u256;; balance <~ read_u128;;
  rd_ret (SendHashables previous destination balance).
Definition send_block_read : reader send_block :=
  hashables <~ send_hashables_read;; signature <~ read_u512;; work <~ read_u64;;
  rd_ret (SendBlock hashables signature work).

Definition send_hashables_v2_read : reader send_hashables_v2 :=
  previous <~ read_u256;; destination <~ read_u256;; action <~ read_bytes [];;
  rd_ret (SendHashablesV2 previous destination action).
Definition send_block_v2_read : reader send_block_v2 :=
  hashables <~ send_hashables_v2_read;; signature <~ read_u512;; work <~ read_u64;;
  rd_ret (SendBlockV2 hashables signature work).

Definition receive_hashables_read : reader receive_hashables :=
  previous <~ read_u256;; source <~ read_u256;;
  rd_ret (ReceiveHashables previous source).
Definition receive_block_read : reader receive_block :=
  hashables <~ receive_hashables_read;; signature <~ read_u512;; work <~ read_u64;;
  rd_ret (ReceiveBlock hashables signature work).

Definition open_hashables_read : reader open_hashables :=
  source <~ read_u256;; representative <~ read_u256;; account <~ read_u256;;
  rd_ret (OpenHashables source representative account).
Definition open_block_read : reader open_block :=
  hashables <~ open_hashables_read;; signature <~ read_u512;; work <~ read_u64;;
  rd_ret (OpenBlock hashables signature work).

Definition change_hashables_read : reader change_hashables :=
  previous <~ read_u256;; representative <~ read_u256;;
  rd_ret (ChangeHashables previous representative).
Definition change_block_read : reader change_block :=
  hashables <~ change_hashables_read;; signature <~ read_u512;; work <~ read_u64;;
  rd_ret (ChangeBlock hashables signature work).

(** [deserialize_block (stream, type)], the type given by its code: any value
    that is not one of the five kinds runs into [assert (false)]. *)
Definition deserialize_block_as (type_a : Z) : reader block :=
  match block_type_of_code type_a with
  | Some receive => b <~ receive_block_read;; rd_ret (Receive b)
  | Some send => b <~ send_block_read;; rd_ret (Send b)
  | Some send_v2 => b <~ send_block_v2_read;; rd_ret (SendV2 b)
  | Some open => b <~ open_block_read;; rd_ret (Open b)
  | Some change => b <~ change_block_read;; rd_ret (Change b)
  | _ => fun _ => Rd_fault Assertion_failed
  end.

(** [deserialize_block (stream)] *)
Definition deserialize_block : reader block :=
  type_l <~ read_le 1;; deserialize_block_as type_l.

(** *** The [deserialize] methods, which read into an existing block *)

Definition send_deserialize : reader send_block :=
  previous <~ read_u256;; destination <~ read_u256;; balance <~ read_u128;;
  signature <~ read_u512;; work <~ read_u64;;
  rd_ret (SendBlock (SendHashables previous destination balance) signature work).

(** [read_bytes] appends to the action the block already has. *)
Definition send_v2_deserialize (this : send_block_v2) : reader send_block_v2 :=
  previous <~ read_u256;; destination <~ read_u256;;
  action <~ read_bytes (s2h_action (send2_h this));;
  signature <~ read_u512;; work <~ read_u64;;
  rd_ret (SendBlockV2 (SendHashablesV2 previous destination action) signature work).

Definition receive_deserialize : reader receive_block :=
  previous <~ read_u256;; source <~ read_u256;;
  signature <~ read_u512;; work <~ read_u64;;
  rd_ret (ReceiveBlock (ReceiveHashables previous source) signature work).

Definition open_deserialize : reader open_block :=
  source <~ read_u256;; representative <~ read_u256;; account <~ read_u256;;
  signature <~ read_u512;; work <~ read_u64;;
  rd_ret (OpenBlock (OpenHashables source representative account) signature work).

Definition change_deserialize : reader change_block :=
  previous <~ read_u256;; representative <~ read_u256;;
  signature <~ read_u512;; work <~ read_u64;;
  rd_ret (ChangeBlock (ChangeHashables previous representative) signature work).

(** ** Well-formed blocks: every field fits its union or integer *)

Definition block_ok (b : block) : Prop :=
  match b with
  | Send (SendBlock (SendHashables p d m) s w) =>
      fits 256 p /\ fits 256 d /\ fits 128 m /\ fits 512 s /\ fits 64 w
  | SendV2 (SendBlockV2 (SendHashablesV2 p d a) s w) =>
      fits 256 p /\ fits 256 d /\ Z.of_nat (length a) < 2 ^ 16 /\ fits 512 s /\ fits 64 w
  | Receive (ReceiveBlock (ReceiveHashables p r) s w) =>
      fits 256 p /\ fits 256 r /\ fits 512 s /\ fits 64 w
  | Open (OpenBlock (OpenHashables r p a) s w) =>
      fits 256 r /\ fits 256 p /\ fits 256 a /\ fits 512 s /\ fits 64 w
  | Change (ChangeBlock (ChangeHashables p r) s w) =>
      fits 256 p /\ fits 256 r /\ fits 512 s /\ fits 64 w
  end.

#[export] Instance block_ok_dec b : Decision (block_ok b).
Proof. destruct b as [[[] ? ?]|[[] ? ?]|[[] ? ?]|[[] ? ?]|[[] ? ?]]; apply _. Defined.

Lemma hash_fits b : fits 256 (hash b).
Proof.
  unfold hash. pose proof (be_combine_fits (blake2b_hash 32 (hash_chunks b))) as H.
  by rewrite length_blake2b_hash in H by lia.
Qed.

(** ** Proofs *)

Lemma rd_bind_assoc {A B C} (m : reader A) (k : A -> reader B) (l : B -> reader C) s :
  rd_bind (rd_bind m k) l s = rd_bind m (fun a => rd_bind (k a) l) s.
Proof. unfold rd_bind. by destruct (m s). Qed.

Lemma rd_bind_ret_l {A B} (a : A) (k : A -> reader B) s : rd_bind (rd_ret a) k s = k a s.
Proof. reflexivity. Qed.

Lemma rd_bind_ext {A B} (m : reader A) (k l : A -> reader B) s :
  (forall a s, k a s = l a s) -> rd_bind m k s = rd_bind m l s.
Proof. intros H. unfold rd_bind. destruct (m s); auto. Qed.

Ltac rd_assoc :=
  repeat first
    [ rewrite rd_bind_assoc
    | rewrite rd_bind_ret_l
    | apply rd_bind_ext; intros ? ?
    | reflexivity ].

(** The constructors read exactly what the [deserialize] methods read. *)
Lemma constructors_deserialize s :
  send_block_read s = send_deserialize s
  /\ (forall b, s2h_action (send2_h b) = [] -> send_block_v2_read s = send_v2_deserialize b s)
  /\ receive_block_read s = receive_deserialize s
  /\ open_block_read s = open_deserialize s
  /\ change_block_read s = change_deserialize s.
Proof.
  split_and!; [ | intros b Hb; unfold send_v2_deserialize; rewrite Hb | .. ];
    cbv [send_block_read send_hashables_read send_block_v2_read send_hashables_v2_read
         receive_block_read receive_hashables_read open_block_read open_hashables_read
         change_block_read change_hashables_read send_deserialize receive_deserialize
         open_deserialize change_deserialize];
    rd_assoc.
Qed.

Definition empty_send_v2 : send_block_v2 := SendBlockV2 (SendHashablesV2 0 0 []) 0 0.

(** Reduce field accesses and nothing else. *)
Ltac fields :=
  cbn [send_h send_signature send_work sh_previous sh_destination sh_balance
       send2_h send2_signature send2_work s2h_previous s2h_destination s2h_action
       receive_h receive_signature receive_work rh_previous rh_source
       open_h open_signature open_work oh_source oh_representative oh_account
       change_h change_signature change_work ch_previous ch_representative
       empty_send_v2] in *.

Ltac unfold_io :=
  cbv [read_u128 read_u256 read_u512 read_u64 write_u128 write_u256 write_u512 write_u64] in *.

(** Solve [deserialize (serialize b ++ rest) = Got b rest] for one kind. *)
Ltac read_back :=
  cbv [send_deserialize send_v2_deserialize receive_deserialize open_deserialize
       change_deserialize send_serialize send_v2_serialize receive_serialize
       open_serialize change_serialize];
  unfold_io; fields; rewrite <- ?app_assoc; rd_run; reflexivity.

(** Solve the converse for one kind. *)
Ltac written_back H :=
  cbv [send_deserialize send_v2_deserialize receive_deserialize open_deserialize
       change_deserialize] in H; unfold_io; fields; rd_inv H;
  injection H as <- <-;
  cbv [send_serialize send_v2_serialize receive_serialize open_serialize change_serialize
       write_u128 write_u256 write_u512 write_u64];
  fields; rewrite <- ?app_assoc; unfold block_ok; split_and!; done.

Lemma send_read_back b rest :
  block_ok (Send b) -> send_deserialize (send_serialize b ++ rest) = Got b rest.
Proof. destruct b as [[p d m] s w]. intros (?&?&?&?&?). read_back. Qed.
Lemma send_v2_read_back b rest :
  block_ok (SendV2 b) -> send_v2_deserialize empty_send_v2 (send_v2_serialize b ++ rest) = Got b rest.
Proof. destruct b as [[p d a] s w]. intros (?&?&?&?&?). read_back. Qed.
Lemma receive_read_back b rest :
  block_ok (Receive b) -> receive_deserialize (receive_serialize b ++ rest) = Got b rest.
Proof. destruct b as [[p r] s w]. intros (?&?&?&?). read_back. Qed.
Lemma open_read_back b rest :
  block_ok (Open b) -> open_deserialize (open_serialize b ++ rest) = Got b rest.
Proof. destruct b as [[r p a] s w]. intros (?&?&?&?&?). read_back. Qed.
Lemma change_read_back b rest :
  block_ok (Change b) -> change_deserialize (change_serialize b ++ rest) = Got b rest.
Proof. destruct b as [[p r] s w]. intros (?&?&?&?). read_back. Qed.

Lemma send_written_back s b rest :
  send_deserialize s = Got b rest -> s = send_serialize b ++ rest /\ block_ok (Send b).
Proof. intros H. written_back H. Qed.
Lemma send_v2_written_back s b rest :
  send_v2_deserialize empty_send_v2 s = Got b rest ->
  s = send_v2_serialize b ++ rest /\ block_ok (SendV2 b).
Proof. intros H. written_back H. Qed.
Lemma receive_written_back s b rest :
  receive_deserialize s = Got b rest -> s = receive_serialize b ++ rest /\ block_ok (Receive b).
Proof. intros H. written_back H. Qed.
Lemma open_written_back s b rest :
  open_deserialize s = Got b rest -> s = open_serialize b ++ rest /\ block_ok (Open b).
Proof. intros H. written_back H. Qed.
Lemma change_written_back s b rest :
  change_deserialize s = Got b rest -> s = change_serialize b ++ rest /\ block_ok (Change b).
Proof. intros H. written_back H. Qed.

Lemma deserialize_serialize b rest :
  block_ok b ->
  deserialize_block_as (block_type_code (type b)) (serialize b ++ rest) = Got b rest.
Proof.
  intros Hok.
  destruct (constructors_deserialize (serialize b ++ rest)) as (E1 & E2 & E3 & E4 & E5).
  specialize (E2 empty_send_v2 eq_refl).
  destruct b as [b|b|b|b|b]; unfold deserialize_block_as;
    cbn [type block_type_code block_type_of_code serialize] in *; unfold rd_bind at 1.
  - by rewrite E1, send_read_back.
  - by rewrite E2, send_v2_read_back.
  - by rewrite E3, receive_read_back.
  - by rewrite E4, open_read_back.
  - by rewrite E5, change_read_back.
Qed.

Lemma serialize_deserialize t s b rest :
  deserialize_block_as t s = Got b rest ->
  t = block_type_code (type b) /\ s = serialize b ++ rest /\ block_ok b.
Proof.
  destruct (constructors_deserialize s) as (E1 & E2 & E3 & E4 & E5).
  specialize (E2 empty_send_v2 eq_refl).
  unfold deserialize_block_as. destruct (block_type_of_code t) as [ty|] eqn:Ht; [|done].
  assert (t = block_type_code ty) as ->.
  { unfold block_type_of_code in Ht.
    repeat (case_match; try discriminate); injection Ht as <-; reflexivity. }
  destruct ty; try done; intros (a & mid & Ha & [= <- <-])%rd_bind_inv.
  - rewrite E1 in Ha. by apply send_written_back in Ha.
  - rewrite E3 in Ha. by apply receive_written_back in Ha.
  - rewrite E4 in Ha. by apply open_written_back in Ha.
  - rewrite E5 in Ha. by apply change_written_back in Ha.
  - rewrite E2 in Ha. by apply send_v2_written_back in Ha.
Qed.

Lemma type_code_fits b : fits (Z.of_nat 1 * 8) (block_type_code (type b)).
Proof. destruct b; unfold fits; simpl; lia. Qed.

Lemma block_read_written b rest :
  block_ok b -> deserialize_block (serialize_block b ++ rest) = Got b rest.
Proof.
  intros Hok. unfold deserialize_block, serialize_block. rewrite <- app_assoc.
  erewrite rd_bind_got by (apply read_le_app, type_code_fits).
  by apply deserialize_serialize.
Qed.

Lemma block_written_read s b rest :
  deserialize_block s = Got b rest -> s = serialize_block b ++ rest /\ block_ok b.
Proof.
  intros (t & mid & [-> Ht]%read_le_inv & H)%rd_bind_inv.
  apply serialize_deserialize in H as (-> & -> & Hok).
  unfold serialize_block. by rewrite <- app_assoc.
Qed.

(** Blocks with their type byte are serialisable data. *)
#[export] Instance block_serializable : Serializable block := {|
  to_stream := serialize_block;
  from_stream := deserialize_block;
  in_range := block_ok;
  read_written := block_read_written;
  written_read := block_written_read
|}.

(** A well-formed block of any kind, written with its type byte and
    followed by anything, is read back as the same block and leaves what
    followed; so equal encodings are of equal blocks. *)
Theorem serialize_block_roundtrip (b b' : block) (rest : list byte) :
  block_ok b -> block_ok b' ->
  deserialize_block (serialize_block b ++ rest) = Got b rest
  /\ (serialize_block b = serialize_block b' -> b = b').
Proof.
  intros Hb Hb'. split; [by apply block_read_written|].
  exact (to_stream_inj b b' Hb Hb').
Qed.

Definition sample_send : block :=
  Send (SendBlock (SendHashables 1 2 (2 ^ 127)) (2 ^ 511) 0x123456789).
Definition sample_send_v2 : block :=
  SendV2 (SendBlockV2 (SendHashablesV2 1 2 (kat_input 300)) 5 6).

Lemma serialize_block_roundtrip_witness :
  deserialize_block (serialize_block sample_send ++ [Byte.x07]) = Got sample_send [Byte.x07]
  /\ (serialize_block sample_send = serialize_block sample_send_v2 -> sample_send = sample_send_v2).
Proof.
  apply serialize_block_roundtrip; apply (bool_decide_unpack _); vm_compute; exact I.
Defined.

(** Nothing but the encoding of a well-formed block is read as a block: a
    successful read consumed exactly the bytes that writing the result gives. *)
Theorem deserialize_block_canonical (s rest : list byte) (b : block) :
  deserialize_block s = Got b rest -> s = serialize_block b ++ rest /\ block_ok b.
Proof. apply block_written_read. Qed.

Lemma deserialize_block_canonical_witness :
  serialize_block sample_send = serialize_block sample_send ++ [] /\ block_ok sample_send.
Proof.
  apply (deserialize_block_canonical (serialize_block sample_send) [] sample_send).
  vm_compute. reflexivity.
Defined.

(** ** Sizes *)

Definition send_block_size : nat := 32 + 32 + 16 + 64 + 8.
Definition receive_block_size : nat := 32 + 32 + 64 + 8.
Definition open_block_size : nat := 32 + 32 + 32 + 64 + 8.
Definition change_block_size : nat := 32 + 32 + 64 + 8.
(** [send_block_v2::size] is the expression of [send_block]: it counts an
    amount where the block has an action. *)
Definition send_block_v2_size : nat := 32 + 32 + 16 + 64 + 8.

Lemma length_write_bytes bs : length (write_bytes bs) = (2 + length bs)%nat.
Proof. reflexivity. Qed.

(** The [size] constants of the four fixed-size kinds are the lengths of
    their encodings; the length of an encoded [send_block_v2] depends on its
    action and equals the constant only for an action of 14 bytes. *)
Theorem block_sizes (b : block) :
  length (serialize b)
  = match b with
    | Send _ => send_block_size
    | Receive _ => receive_block_size
    | Open _ => open_block_size
    | Change _ => change_block_size
    | SendV2 b => (send_block_v2_size + length (s2h_action (send2_h b)) - 14)%nat
    end.
Proof.
  destruct b; cbn [serialize];
    cbv [send_serialize send_v2_serialize receive_serialize open_serialize change_serialize
         write_u128 write_u256 write_u512 write_u64];
    rewrite !length_app, ?length_write_bytes, ?length_be_split, ?length_le_split; try reflexivity.
  unfold send_block_v2_size. lia.
Qed.

(** ** Equality *)

(** [operator==] of blocks holds exactly between blocks of the same kind
    with the same contents. *)
Theorem block_eqb_eq (a b : block) : block_eqb a b = true <-> a = b.
Proof.
  assert (H : forall a, block_eqb a a = true).
  { intros [[[]]|[[]]|[[]]|[[]]|[[]]]; cbn;
      cbv [send_block_eqb send_block_v2_eqb receive_block_eqb open_block_eqb change_block_eqb];
      cbn; rewrite ?Z.eqb_refl, ?bool_decide_eq_true_2 by done; done. }
  split; [|intros ->; apply H].
  destruct a as [[[]]|[[]]|[[]]|[[]]|[[]]], b as [[[]]|[[]]|[[]]|[[]]|[[]]]; try done;
    cbn; cbv [send_block_eqb send_block_v2_eqb receive_block_eqb open_block_eqb change_block_eqb];
    cbn; rewrite ?andb_true_iff, ?Z.eqb_eq, ?bool_decide_eq_true; intros; destruct_and?; congruence.
Qed.

(** ** Hashing *)

Lemma hash_concat a b : concat (hash_chunks a) = concat (hash_chunks b) -> hash a = hash b.
Proof. intros H. unfold hash. rewrite !blake2b_hash_rfc by lia. by rewrite H. Qed.

(** The hash does not separate the kinds.  A receive and a change block
    with the same two fields, a send block and a version-2 send whose action is
    the 16 bytes of the balance, and a receive block and a version-2 send with
    an empty action have the same hash, so that a signature on one is a
    signature on the other. *)
Theorem hash_confuses_kinds (p x d : Z) (m : amount) (s s' w w' : Z) :
  hash (Receive (ReceiveBlock (ReceiveHashables p x) s w))
  = hash (Change (ChangeBlock (ChangeHashables p x) s' w'))
  /\ hash (Send (SendBlock (SendHashables p d m) s w))
     = hash (SendV2 (SendBlockV2 (SendHashablesV2 p d (bytes128 m)) s' w'))
  /\ hash (Receive (ReceiveBlock (ReceiveHashables p x) s w))
     = hash (SendV2 (SendBlockV2 (SendHashablesV2 p x []) s' w')).
Proof. split_and!; apply hash_concat; reflexivity. Qed.

(** The hash and the root of a block do not depend on its signature and
    work, and setting either reads back what was set. *)
Theorem signature_and_work_set (b : block) (s w : Z) :
  hash (signature_set s (block_work_set w b)) = hash b
  /\ root (signature_set s (block_work_set w b)) = root b
  /\ block_signature (signature_set s (block_work_set w b)) = s
  /\ block_work (signature_set s (block_work_set w b)) = w
  /\ type (signature_set s (block_work_set w b)) = type b.
Proof. split_and!; [apply hash_concat|..]; by destruct b. Qed.

(** On a stream that ends right after the destination of a version-2 send
    the size of the action is read from uninitialised memory, where the other
    kinds report an error; and an action of 65536 bytes or more is written with
    its size reduced modulo 65536, so that the block is not read back. *)
Theorem send_v2_action_hazards (p d : Z) :
  fits 256 p -> fits 256 d ->
  send_block_v2_read (write_u256 p ++ write_u256 d) = Rd_fault Indeterminate_value
  /\ (forall action, Z.of_nat (length action) = 2 ^ 16 ->
      read_bytes [] (write_bytes action) = Got [] action).
Proof.
  intros Hp Hd. split.
  - unfold send_block_v2_read, send_hashables_v2_read. unfold_io.
    rewrite rd_bind_assoc. rd_run. rewrite rd_bind_assoc.
    rewrite <- (app_nil_r (be_split 32 d)). rd_run. reflexivity.
  - intros action Ha. unfold read_bytes, write_bytes. rewrite Ha. reflexivity.
Qed.

Lemma send_v2_action_hazards_witness :
  send_block_v2_read (write_u256 1 ++ write_u256 2) = Rd_fault Indeterminate_value
  /\ (forall action, Z.of_nat (length action) = 2 ^ 16 ->
      read_bytes [] (write_bytes action) = Got [] action).
Proof. apply (send_v2_action_hazards 1 2); unfold fits; lia. Defined.

#[global] Opaque hash.
