(* ===== verification/Store.v ===== *)
(** * The block store: ledger tables (rai/secure.hpp, rai/secure.cpp)

    A [block_store] is a set of LMDB tables.  LMDB itself is third-party code;
    what it documents of a table (a finite map: get, put, delete, count) is
    represented by a [gmap] from the key to the stored value.  This file has the
    tables the ledger works on and the operations on them; the tables of votes
    and of unchecked blocks, which the ledger does not touch, have files of
    their own. *)
From Stdlib Require Import ZArith Lia List.
From stdpp Require Import prelude gmap.
From S2P Require Import Prelude Numbers Streams Blocks.

Local Open Scope m_scope.

(** ** Values of the tables *)

(** Latest information about an account. *)
Record account_info := AccountInfo {
  head : block_hash;
  rep_block : block_hash;
  open_block_hash : block_hash;
  balance_of : amount;
  modified : Z;
  block_count : Z
}.

(** The default constructor. *)
Definition account_info_default : account_info := AccountInfo 0 0 0 0 0 0.

(** Information on an uncollected send; its key is (destination, send block). *)
Record pending_info := PendingInfo { pi_source : account; pi_amount : amount }.
Definition pending_info_default : pending_info := PendingInfo 0 0.
Abbreviation pending_key := (Z * Z)%type (only parsing).

Record block_info := BlockInfo { bi_account : account; bi_balance : amount }.

(** A stored block with the hash of its successor (zero when it has none). *)
Abbreviation entry := (block * block_hash)%type (only parsing).

#[export] Instance account_info_eq_dec : EqDecision account_info.
Proof. solve_decision. Defined.
#[export] Instance pending_info_eq_dec : EqDecision pending_info.
Proof. solve_decision. Defined.
#[export] Instance block_info_eq_dec : EqDecision block_info.
Proof. solve_decision. Defined.

(** [block_store::block_info_max] *)
Definition block_info_max : Z := 32.

(** ** The tables *)

Record store := Store {
  frontiers : gmap Z account;
  accounts : gmap Z account_info;
  vm_codes : gmap Z (list byte);
  send_blocks : gmap Z entry;
  send_blocks_v2 : gmap Z entry;
  receive_blocks : gmap Z entry;
  open_blocks : gmap Z entry;
  change_blocks : gmap Z entry;
  pending : gmap (Z * Z) pending_info;
  blocks_info : gmap Z block_info;
  representation : gmap Z Z;
  checksums : gmap Z Z
}.

Definition empty_store : store := Store ∅ ∅ ∅ ∅ ∅ ∅ ∅ ∅ ∅ ∅ ∅ ∅.

Definition set_frontiers f s := Store (f (frontiers s)) (accounts s) (vm_codes s) (send_blocks s) (send_blocks_v2 s) (receive_blocks s) (open_blocks s) (change_blocks s) (pending s) (blocks_info s) (representation s) (checksums s).
Definition set_accounts f s := Store (frontiers s) (f (accounts s)) (vm_codes s) (send_blocks s) (send_blocks_v2 s) (receive_blocks s) (open_blocks s) (change_blocks s) (pending s) (blocks_info s) (representation s) (checksums s).
Definition set_vm_codes f s := Store (frontiers s) (accounts s) (f (vm_codes s)) (send_blocks s) (send_blocks_v2 s) (receive_blocks s) (open_blocks s) (change_blocks s) (pending s) (blocks_info s) (representation s) (checksums s).
Definition set_send_blocks f s := Store (frontiers s) (accounts s) (vm_codes s) (f (send_blocks s)) (send_blocks_v2 s) (receive_blocks s) (open_blocks s) (change_blocks s) (pending s) (blocks_info s) (representation s) (checksums s).
Definition set_send_blocks_v2 f s := Store (frontiers s) (accounts s) (vm_codes s) (send_blocks s) (f (send_blocks_v2 s)) (receive_blocks s) (open_blocks s) (change_blocks s) (pending s) (blocks_info s) (representation s) (checksums s).
Definition set_receive_blocks f s := Store (frontiers s) (accounts s) (vm_codes s) (send_blocks s) (send_blocks_v2 s) (f (receive_blocks s)) (open_blocks s) (change_blocks s) (pending s) (blocks_info s) (representation s) (checksums s).
Definition set_open_blocks f s := Store (frontiers s) (accounts s) (vm_codes s) (send_blocks s) (send_blocks_v2 s) (receive_blocks s) (f (open_blocks s)) (change_blocks s) (pending s) (blocks_info s) (representation s) (checksums s).
Definition set_change_blocks f s := Store (frontiers s) (accounts s) (vm_codes s) (send_blocks s) (send_blocks_v2 s) (receive_blocks s) (open_blocks s) (f (change_blocks s)) (pending s) (blocks_info s) (representation s) (checksums s).
Definition set_pending f s := Store (frontiers s) (accounts s) (vm_codes s) (send_blocks s) (send_blocks_v2 s) (receive_blocks s) (open_blocks s) (change_blocks s) (f (pending s)) (blocks_info s) (representation s) (checksums s).
Definition set_blocks_info f s := Store (frontiers s) (accounts s) (vm_codes s) (send_blocks s) (send_blocks_v2 s) (receive_blocks s) (open_blocks s) (change_blocks s) (pending s) (f (blocks_info s)) (representation s) (checksums s).
Definition set_representation f s := Store (frontiers s) (accounts s) (vm_codes s) (send_blocks s) (send_blocks_v2 s) (receive_blocks s) (open_blocks s) (change_blocks s) (pending s) (blocks_info s) (f (representation s)) (checksums s).
Definition set_checksums f s := Store (frontiers s) (accounts s) (vm_codes s) (send_blocks s) (send_blocks_v2 s) (receive_blocks s) (open_blocks s) (change_blocks s) (pending s) (blocks_info s) (representation s) (f (checksums s)).

(** ** Blocks *)

(** [block_database]: the table of a kind. *)
Definition block_database (t : block_type) (s : store) : option (gmap Z entry) :=
  match t with
  | send => Some (send_blocks s)
  | send_v2 => Some (send_blocks_v2 s)
  | receive => Some (receive_blocks s)
  | open => Some (open_blocks s)
  | change => Some (change_blocks s)
  | invalid | not_a_block => None
  end.

(** [block_put_raw (block_database (t), ...)] *)
Definition block_put_raw (t : block_type) (h : block_hash) (e : entry) : M store unit :=
  match t with
  | send => st_put (set_send_blocks (insert h e))
  | send_v2 => st_put (set_send_blocks_v2 (insert h e))
  | receive => st_put (set_receive_blocks (insert h e))
  | open => st_put (set_open_blocks (insert h e))
  | change => st_put (set_change_blocks (insert h e))
  | invalid | not_a_block => st_fault Assertion_failed
  end.

(** The tables are tried in this order. *)
Definition block_get_raw (s : store) (h : block_hash) : option (block_type * entry) :=
  match send_blocks s !! h with
  | Some e => Some (send, e)
  | None =>
    match receive_blocks s !! h with
    | Some e => Some (receive, e)
    | None =>
      match open_blocks s !! h with
      | Some e => Some (open, e)
      | None =>
        match change_blocks s !! h with
        | Some e => Some (change, e)
        | None =>
          match send_blocks_v2 s !! h with
          | Some e => Some (send_v2, e)
          | None => None
          end
        end
      end
    end
  end.

Definition block_get (s : store) (h : block_hash) : option block :=
  match block_get_raw s h with Some (_, (b, _)) => Some b | None => None end.

Definition block_successor (s : store) (h : block_hash) : block_hash :=
  match block_get_raw s h with Some (_, (_, successor)) => successor | None => 0 end.

Definition block_exists (s : store) (h : block_hash) : bool :=
  if bool_decide (is_Some (send_blocks s !! h)) then true
  else if bool_decide (is_Some (receive_blocks s !! h)) then true
  else if bool_decide (is_Some (open_blocks s !! h)) then true
  else if bool_decide (is_Some (change_blocks s !! h)) then true
  else bool_decide (is_Some (send_blocks_v2 s !! h)).

(** [set_predecessor::fill_value]: the hash of a new block is written behind
    its predecessor, whose table is left as it is. *)
Definition fill_value (b : block) : M store unit :=
  value <- st_get (fun s => block_get_raw s (previous b));;
  match value with
  | None => st_fault Assertion_failed
  | Some (t, (p, _)) => block_put_raw t (previous b) (p, hash b)
  end.

(** The visitor: open blocks do not have a predecessor. *)
Definition set_predecessor (b : block) : M store unit :=
  match b with
  | Open _ => st_ret tt
  | Send _ | SendV2 _ | Receive _ | Change _ => fill_value b
  end.

Definition block_put (h : block_hash) (b : block) (successor : block_hash) : M store unit :=
  ex <- st_get (fun s => block_exists s successor);;
  st_assert (is_zero successor || ex) ;;;
  block_put_raw (type b) h (b, successor) ;;;
  set_predecessor b ;;;
  succ <- st_get (fun s => block_successor s (previous b));;
  st_assert (is_zero (previous b) || (succ =? h)).

Definition block_successor_clear (h : block_hash) : M store unit :=
  b <- st_get (fun s => block_get s h);;
  match b with
  | Some b => block_put h b 0
  | None => st_fault Indeterminate_value (* dereferences a null pointer *)
  end.

(** Deletes from the first table that has the hash; the last one must. *)
Definition block_del (h : block_hash) : M store unit :=
  s <- st_get id;;
  if bool_decide (is_Some (send_blocks s !! h)) then st_put (set_send_blocks (delete h))
  else if bool_decide (is_Some (receive_blocks s !! h)) then st_put (set_receive_blocks (delete h))
  else if bool_decide (is_Some (open_blocks s !! h)) then st_put (set_open_blocks (delete h))
  else if bool_decide (is_Some (change_blocks s !! h)) then st_put (set_change_blocks (delete h))
  else
    st_assert (bool_decide (is_Some (send_blocks_v2 s !! h))) ;;;
    st_put (set_send_blocks_v2 (delete h)).

Record block_counts := BlockCounts {
  count_send : nat; count_receive : nat; count_open : nat; count_change : nat; count_send_v2 : nat
}.
Definition block_counts_sum (c : block_counts) : nat :=
  count_send c + count_receive c + count_open c + count_change c + count_send_v2 c.
Definition block_count_of (s : store) : block_counts :=
  BlockCounts (size (send_blocks s)) (size (receive_blocks s)) (size (open_blocks s))
    (size (change_blocks s)) (size (send_blocks_v2 s)).

(** ** Accounts, frontiers and code *)

Definition account_put (a : account) (i : account_info) : M store unit :=
  st_put (set_accounts (insert a i)).
(** [account_get]: [None] is the result [true], which leaves the argument as it was. *)
Definition account_get (s : store) (a : account) : option account_info := accounts s !! a.
Definition account_del (a : account) : M store unit :=
  s <- st_get id;;
  st_assert (bool_decide (is_Some (accounts s !! a))) ;;;
  st_put (set_accounts (delete a)).
Definition account_exists (s : store) (a : account) : bool :=
  bool_decide (is_Some (accounts s !! a)).

Definition account_set_code (a : account) (code : list byte) : M store unit :=
  st_put (set_vm_codes (insert a code)).
Definition account_get_code (s : store) (a : account) : bool * list byte :=
  match vm_codes s !! a with Some code => (false, code) | None => (true, []) end.

Definition frontier_put (h : block_hash) (a : account) : M store unit :=
  st_put (set_frontiers (insert h a)).
Definition frontier_get (s : store) (h : block_hash) : account := default 0 (frontiers s !! h).
Definition frontier_del (h : block_hash) : M store unit :=
  s <- st_get id;;
  st_assert (bool_decide (is_Some (frontiers s !! h))) ;;;
  st_put (set_frontiers (delete h)).
Definition frontier_count (s : store) : nat := size (frontiers s).

(** ** Pending sends and block information *)

Definition pending_put (k : pending_key) (i : pending_info) : M store unit :=
  st_put (set_pending (insert k i)).
Definition pending_del (k : pending_key) : M store unit :=
  s <- st_get id;;
  st_assert (bool_decide (is_Some (pending s !! k))) ;;;
  st_put (set_pending (delete k)).
Definition pending_get (s : store) (k : pending_key) : option pending_info := pending s !! k.
Definition pending_exists (s : store) (k : pending_key) : bool := bool_decide (is_Some (pending s !! k)).

Definition block_info_put (h : block_hash) (i : block_info) : M store unit :=
  st_put (set_blocks_info (insert h i)).
Definition block_info_del (h : block_hash) : M store unit :=
  s <- st_get id;;
  st_assert (bool_decide (is_Some (blocks_info s !! h))) ;;;
  st_put (set_blocks_info (delete h)).
Definition block_info_get (s : store) (h : block_hash) : option block_info := blocks_info s !! h.
Definition block_info_exists (s : store) (h : block_hash) : bool :=
  bool_decide (is_Some (blocks_info s !! h)).

(** ** Representation and checksum *)

Definition representation_get (s : store) (a : account) : Z := default 0 (representation s !! a).
Definition representation_put (a : account) (w : Z) : M store unit :=
  st_put (set_representation (insert a w)).

(** Adds [amount] (modulo [2 ^ 128]) to the weight of the representative named
    by the block [source]. *)
Definition representation_add (source : block_hash) (amount : Z) : M store unit :=
  b <- st_get (fun s => block_get s source);;
  match b with
  | None => st_fault Assertion_failed
  | Some b =>
      let source_rep := representative b in
      st_assert (negb (is_zero source_rep)) ;;;
      source_previous <- st_get (fun s => representation_get s source_rep);;
      representation_put source_rep (wrap 128 (source_previous + amount))
  end.

Definition checksum_key (prefix mask : Z) : Z := Z.lor prefix mask.
Definition checksum_put (prefix mask : Z) (h : Z) : M store unit :=
  st_assert (Z.land prefix 0xff =? 0) ;;;
  st_put (set_checksums (insert (checksum_key prefix mask) h)).
Definition checksum_get (prefix mask : Z) : M store (option Z) :=
  st_assert (Z.land prefix 0xff =? 0) ;;;
  st_get (fun s => checksums s !! checksum_key prefix mask).
Definition checksum_del (prefix mask : Z) : M store unit :=
  st_assert (Z.land prefix 0xff =? 0) ;;;
  s <- st_get id;;
  st_assert (bool_decide (is_Some (checksums s !! checksum_key prefix mask))) ;;;
  st_put (set_checksums (delete (checksum_key prefix mask))).
