(* ===== verification/Ledger.v ===== *)
(** * The ledger (rai/secure.cpp)

    The queries of [rai::ledger] (balance, amount, representative, account,
    successor, supply), [change_latest], the block processor and rollback, on
    the tables of [Store].  The visitors of the code are matches on the block.

    Loops take fuel from the environment; what amount of fuel is enough is
    stated with the theorems.  [validate_message] is the Ed25519 verification
    ([true] when the signature is wrong, as in the code); the theorems hold for
    every such function. *)
From Stdlib Require Import ZArith Lia List.
From stdpp Require Import prelude gmap.
From S2P Require Import Prelude Numbers Streams Blocks Store.

Local Open Scope m_scope.

Class Environment := {
  genesis_account : account;
  validate_message : account -> Z -> signature -> bool;
  seconds_since_epoch : Z;
  loop_fuel : nat
}.

(** [std::numeric_limits<rai::uint128_t>::max ()] *)
Definition genesis_amount : Z := 2 ^ 128 - 1.
Definition burn_account : account := 0.

Inductive process_result : Type :=
| progress | bad_signature | old | overspend | fork | unreceivable
| gap_previous | gap_source | not_receive_from_send | account_mismatch
| opened_burn_account.

#[export] Instance process_result_eq_dec : EqDecision process_result.
Proof. solve_decision. Defined.

(** [process_return]; the fields a path does not assign are [None]. *)
Record process_return := ProcessReturn {
  code : process_result;
  ret_account : option account;
  ret_amount : option amount;
  ret_pending_account : option account
}.
Definition failed (c : process_result) : process_return := ProcessReturn c None None None.

Section Ledger.
Context `{Environment}.

(** ** Queries *)

(** [representative_visitor::compute] *)
Fixpoint representative_loop (fuel : nat) (s : store) (current : block_hash) : res block_hash :=
  match fuel with
  | O => Fault Out_of_fuel
  | S fuel =>
      match block_get s current with
      | None => Fault Assertion_failed
      | Some b =>
          match b with
          | Send _ | SendV2 _ | Receive _ => representative_loop fuel s (previous b)
          | Open _ | Change _ =>
              let result := hash b in
              if is_zero result then representative_loop fuel s current else Ok result
          end
      end
  end.

Definition representative_calculated (s : store) (h : block_hash) : res block_hash :=
  representative_loop loop_fuel s h.

Definition ledger_representative (h : block_hash) : M store block_hash :=
  result <- st_run (fun s => representative_calculated s h);;
  ex <- st_get (fun s => block_exists s result);;
  st_assert (is_zero result || ex) ;;;
  st_ret result.

(** [amount_visitor] and [balance_visitor], which call each other.  An amount is
    [None] when the visitor leaves its result uninitialised. *)
Fixpoint amount_visit (fuel : nat) (s : store) (b : block) : res (option Z) :=
  match fuel with
  | O => Fault Out_of_fuel
  | S fuel =>
      match b with
      | Send b =>
          match balance_loop fuel s (sh_previous (send_h b)) 0 with
          | Ok prev => Ok (Some (wrap 128 (prev - sh_balance (send_h b))))
          | Fault f => Fault f
          end
      | SendV2 _ => Ok None
      | Receive b => amount_from_send fuel s (rh_source (receive_h b))
      | Open b =>
          if negb (oh_source (open_h b) =? genesis_account)
          then amount_from_send fuel s (oh_source (open_h b))
          else Ok (Some genesis_amount)
      | Change _ => Ok (Some 0)
      end
  end
with amount_from_send (fuel : nat) (s : store) (h : block_hash) : res (option Z) :=
  match fuel with
  | O => Fault Out_of_fuel
  | S fuel =>
      match block_get s h with
      | None => Fault Assertion_failed
      | Some source_block => amount_visit fuel s source_block
      end
  end
with amount_compute (fuel : nat) (s : store) (h : block_hash) : res (option Z) :=
  match fuel with
  | O => Fault Out_of_fuel
  | S fuel =>
      match block_get s h with
      | Some b => amount_visit fuel s b
      | None => if h =? genesis_account then Ok (Some genesis_amount) else Fault Assertion_failed
      end
  end
with balance_loop (fuel : nat) (s : store) (current : block_hash) (result : Z) : res Z :=
  if is_zero current then Ok result else
  match fuel with
  | O => Fault Out_of_fuel
  | S fuel =>
      match block_get s current with
      | None => Fault Assertion_failed
      | Some (Send b) => balance_loop fuel s 0 (wrap 128 (result + sh_balance (send_h b)))
      | Some (SendV2 _) => balance_loop fuel s current result
      | Some (Receive b) =>
          match amount_compute fuel s (rh_source (receive_h b)) with
          | Fault f => Fault f
          | Ok source_result =>
              match block_info_get s (hash (Receive b)) with
              | Some info => balance_loop fuel s 0 (wrap 128 (result + bi_balance info))
              | None =>
                  match source_result with
                  | None => Fault Indeterminate_value
                  | Some x => balance_loop fuel s (rh_previous (receive_h b)) (wrap 128 (result + x))
                  end
              end
          end
      | Some (Open b) =>
          match amount_compute fuel s (oh_source (open_h b)) with
          | Fault f => Fault f
          | Ok None => Fault Indeterminate_value
          | Ok (Some x) => balance_loop fuel s 0 (wrap 128 (result + x))
          end
      | Some (Change b) =>
          match block_info_get s (hash (Change b)) with
          | Some info => balance_loop fuel s 0 (wrap 128 (result + bi_balance info))
          | None => balance_loop fuel s (ch_previous (change_h b)) result
          end
      end
  end.

(** Balance for the account containing [h], as of [h]. *)
Definition balance (s : store) (h : block_hash) : res Z := balance_loop loop_fuel s h 0.

(** Amount decrease or increase of a block. *)
Definition amount_of (s : store) (h : block_hash) : res Z :=
  match amount_compute loop_fuel s h with
  | Ok (Some x) => Ok x
  | Ok None => Fault Indeterminate_value
  | Fault f => Fault f
  end.

Definition account_balance (s : store) (a : account) : Z :=
  match account_get s a with Some info => balance_of info | None => 0 end.

(** The entries from [(a, 0)] up to, and without, [(a + 1, 0)].  For the largest
    account the end wraps to zero, which is the first entry of the table: nothing is
    walked when that is where the walk starts, and otherwise it leaves the table. *)
Definition account_pending (s : store) (a : account) : res Z :=
  let end_ := wrap 256 (a + 1) in
  if is_zero end_ then
    if bool_decide (map_Forall (fun k _ => a <= k.1) (pending s)) then Ok 0 else Fault Assertion_failed
  else Ok (map_fold (fun k i result =>
             if bool_decide (a <= k.1 /\ k.1 < end_) then wrap 128 (result + pi_amount i) else result)
             0 (pending s)).

(** Money supply for heuristically calculating vote percentages. *)
Definition supply (inactive_supply : Z) (s : store) : res Z :=
  let unallocated := account_balance s genesis_account in
  match account_pending s 0 with
  | Fault f => Fault f
  | Ok burned =>
      let absolute_supply := wrap 128 (wrap 128 (genesis_amount - unallocated) - burned) in
      let adjusted_supply := wrap 128 (absolute_supply - inactive_supply) in
      Ok (if adjusted_supply <=? absolute_supply then adjusted_supply else 0)
  end.

Definition weight (s : store) (a : account) : Z := representation_get s a.

(** The loop of [rai::ledger::account]. *)
Fixpoint account_loop (fuel : nat) (s : store) (h successor : block_hash) : res account :=
  match fuel with
  | O => Fault Out_of_fuel
  | S fuel =>
      match is_zero successor, block_info_get s successor with
      | false, None =>
          let successor := block_successor s h in
          account_loop fuel s (if is_zero successor then h else successor) successor
      | true, _ => Ok (frontier_get s h)
      | false, Some info => Ok (bi_account info)
      end
  end.

(** Account containing [h]. *)
Definition ledger_account (h : block_hash) : M store account :=
  ex <- st_get (fun s => block_exists s h);;
  st_assert ex ;;;
  result <- st_run (fun s => account_loop loop_fuel s h 1);;
  st_assert (negb (is_zero result)) ;;;
  st_ret result.

(** Latest block of an account, zero when it has none. *)
Definition latest (s : store) (a : account) : block_hash :=
  match account_get s a with Some info => head info | None => 0 end.

(** Latest root, the account number if there are no blocks for this account. *)
Definition latest_root (s : store) (a : account) : block_hash :=
  match account_get s a with Some info => head info | None => a end.

(** The block after [h]; [h] may be an account, whose first block is returned. *)
Definition successor (h : block_hash) : M store block :=
  acc <- st_get (fun s => account_exists s h);;
  ex <- st_get (fun s => block_exists s h);;
  st_assert (acc || ex) ;;;
  (if acc then st_ret tt
   else a <- ledger_account h;; l <- st_get (fun s => latest s a);; st_assert (negb (l =? h))) ;;;
  succ <- (if acc then
             info <- st_get (fun s => account_get s h);;
             match info with Some info => st_ret (open_block_hash info) | None => st_fault Assertion_failed end
           else st_get (fun s => block_successor s h));;
  st_assert (negb (is_zero succ)) ;;;
  result <- st_get (fun s => block_get s succ);;
  match result with Some b => st_ret b | None => st_fault Assertion_failed end.

(** The block that occupies the root of a block the ledger does not have. *)
Definition forked_block (b : block) : M store block :=
  ex <- st_get (fun s => block_exists s (hash b));;
  st_assert (negb ex) ;;;
  rx <- st_get (fun s => block_exists s (root b) || account_exists s (root b));;
  st_assert rx ;;;
  result <- st_get (fun s => block_get s (block_successor s (root b)));;
  match result with
  | Some r => st_ret r
  | None =>
      info <- st_get (fun s => account_get s (root b));;
      match info with
      | None => st_fault Assertion_failed
      | Some info =>
          result <- st_get (fun s => block_get s (open_block_hash info));;
          match result with Some r => st_ret r | None => st_fault Assertion_failed end
      end
  end.

(** ** Head of an account *)

Definition checksum_update (h : block_hash) : M store unit :=
  value <- checksum_get 0 0;;
  match value with
  | None => st_fault Assertion_failed
  | Some value => checksum_put 0 0 (xor256 value h)
  end.

Definition ledger_checksum : M store Z :=
  value <- checksum_get 0 0;;
  match value with None => st_fault Assertion_failed | Some value => st_ret value end.

Definition is_open_block (b : option block) : bool :=
  match b with Some (Open _) => true | _ => false end.

Definition change_latest (a : account) (h rep : block_hash) (bal : amount) (count : Z) : M store unit :=
  found <- st_get (fun s => account_get s a);;
  info <- match found with
          | Some info => checksum_update (head info) ;;; st_ret info
          | None =>
              b <- st_get (fun s => block_get s h);;
              st_assert (is_open_block b) ;;;
              st_ret (AccountInfo 0 0 h 0 0 0)
          end;;
  if negb (is_zero h) then
    account_put a (AccountInfo h rep (open_block_hash info) bal seconds_since_epoch count) ;;;
    (if count mod block_info_max =? 0 then block_info_put h (BlockInfo a bal) else st_ret tt) ;;;
    checksum_update h
  else account_del a.

(** ** Processing a block ([ledger_processor]) *)

Definition process_change (b : change_block) : M store process_return :=
  let h := hash (Change b) in
  let prev := ch_previous (change_h b) in
  existing <- st_get (fun s => block_exists s h);;
  if existing : bool then st_ret (failed old) else
  prev_exists <- st_get (fun s => block_exists s prev);;
  if negb prev_exists then st_ret (failed gap_previous) else
  account <- st_get (fun s => frontier_get s prev);;
  if is_zero account then st_ret (failed fork) else
  found <- st_get (fun s => account_get s account);;
  match found with
  | None => st_fault Assertion_failed
  | Some info =>
      st_assert (head info =? prev) ;;;
      if validate_message account h (change_signature b) then st_ret (failed bad_signature) else
      block_put h (Change b) 0 ;;;
      bal <- st_run (fun s => balance s prev);;
      representation_add h bal ;;;
      representation_add (rep_block info) (wrap 128 (0 - bal)) ;;;
      change_latest account h h (balance_of info) (wrap 64 (block_count info + 1)) ;;;
      frontier_del prev ;;;
      frontier_put h account ;;;
      st_ret (ProcessReturn progress (Some account) (Some 0) None)
  end.

Definition process_send (b : send_block) : M store process_return :=
  let h := hash (Send b) in
  let prev := sh_previous (send_h b) in
  existing <- st_get (fun s => block_exists s h);;
  if existing : bool then st_ret (failed old) else
  prev_exists <- st_get (fun s => block_exists s prev);;
  if negb prev_exists then st_ret (failed gap_previous) else
  account <- st_get (fun s => frontier_get s prev);;
  if is_zero account then st_ret (failed fork) else
  if validate_message account h (send_signature b) then st_ret (failed bad_signature) else
  found <- st_get (fun s => account_get s account);;
  match found with
  | None => st_fault Assertion_failed
  | Some info =>
      st_assert (head info =? prev) ;;;
      if negb (sh_balance (send_h b) <=? balance_of info) then st_ret (failed overspend) else
      let amount := wrap 128 (balance_of info - sh_balance (send_h b)) in
      representation_add (rep_block info) (wrap 128 (0 - amount)) ;;;
      block_put h (Send b) 0 ;;;
      change_latest account h (rep_block info) (sh_balance (send_h b)) (wrap 64 (block_count info + 1)) ;;;
      pending_put (sh_destination (send_h b), h) (PendingInfo account amount) ;;;
      frontier_del prev ;;;
      frontier_put h account ;;;
      st_ret (ProcessReturn progress (Some account) (Some amount) (Some (sh_destination (send_h b))))
  end.

(** Loading the code into the interpreter changes no table. *)
Definition process_send_v2 (b : send_block_v2) : M store process_return :=
  let h := hash (SendV2 b) in
  let prev := s2h_previous (send2_h b) in
  existing <- st_get (fun s => block_exists s h);;
  if existing : bool then st_ret (failed old) else
  prev_exists <- st_get (fun s => block_exists s prev);;
  if negb prev_exists then st_ret (failed gap_previous) else
  account <- st_get (fun s => frontier_get s prev);;
  if is_zero account then st_ret (failed fork) else
  if validate_message account h (send2_signature b) then st_ret (failed bad_signature) else
  found <- st_get (fun s => account_get s account);;
  match found with
  | None => st_fault Assertion_failed
  | Some info =>
      st_assert (head info =? prev) ;;;
      account_set_code account (s2h_action (send2_h b)) ;;;
      block_put h (SendV2 b) 0 ;;;
      change_latest account h (rep_block info) (balance_of info) (wrap 64 (block_count info + 1)) ;;;
      frontier_del prev ;;;
      frontier_put h account ;;;
      st_ret (ProcessReturn progress (Some account) None (Some (s2h_destination (send2_h b))))
  end.

Definition process_receive (b : receive_block) : M store process_return :=
  let h := hash (Receive b) in
  let prev := rh_previous (receive_h b) in
  let src := rh_source (receive_h b) in
  existing <- st_get (fun s => block_exists s h);;
  if existing : bool then st_ret (failed old) else
  src_exists <- st_get (fun s => block_exists s src);;
  if negb src_exists then st_ret (failed gap_source) else
  account <- st_get (fun s => frontier_get s prev);;
  if is_zero account then
    prev_exists <- st_get (fun s => block_exists s prev);;
    st_ret (failed (if prev_exists : bool then fork else gap_previous))
  else
  if validate_message account h (receive_signature b) then st_ret (failed bad_signature) else
  found <- st_get (fun s => account_get s account);;
  let info := default account_info_default found in
  if negb (head info =? prev) then st_ret (failed gap_previous) else
  pend <- st_get (fun s => pending_get s (account, src));;
  match pend with
  | None => st_ret (failed unreceivable)
  | Some pend =>
      let new_balance := wrap 128 (balance_of info + pi_amount pend) in
      source_info <- st_get (fun s => account_get s (pi_source pend));;
      st_assert (bool_decide (is_Some source_info)) ;;;
      pending_del (account, src) ;;;
      block_put h (Receive b) 0 ;;;
      change_latest account h (rep_block info) new_balance (wrap 64 (block_count info + 1)) ;;;
      representation_add (rep_block info) (pi_amount pend) ;;;
      frontier_del prev ;;;
      frontier_put h account ;;;
      st_ret (ProcessReturn progress (Some account) (Some (pi_amount pend)) None)
  end.

Definition process_open (b : open_block) : M store process_return :=
  let h := hash (Open b) in
  let src := oh_source (open_h b) in
  let account := oh_account (open_h b) in
  existing <- st_get (fun s => block_exists s h);;
  if existing : bool then st_ret (failed old) else
  src_exists <- st_get (fun s => block_exists s src);;
  if negb src_exists then st_ret (failed gap_source) else
  if validate_message account h (open_signature b) then st_ret (failed bad_signature) else
  found <- st_get (fun s => account_get s account);;
  match found with
  | Some _ => st_ret (failed fork)
  | None =>
      let info := account_info_default in
      pend <- st_get (fun s => pending_get s (account, src));;
      match pend with
      | None => st_ret (failed unreceivable)
      | Some pend =>
          if account =? burn_account then st_ret (failed opened_burn_account) else
          source_info <- st_get (fun s => account_get s (pi_source pend));;
          st_assert (bool_decide (is_Some source_info)) ;;;
          pending_del (account, src) ;;;
          block_put h (Open b) 0 ;;;
          change_latest account h h (pi_amount pend) (wrap 64 (block_count info + 1)) ;;;
          representation_add h (pi_amount pend) ;;;
          frontier_put h account ;;;
          st_ret (ProcessReturn progress (Some account) (Some (pi_amount pend)) None)
      end
  end.

(** [rai::ledger::process] *)
Definition process (b : block) : M store process_return :=
  match b with
  | Send b => process_send b
  | SendV2 b => process_send_v2 b
  | Receive b => process_receive b
  | Open b => process_open b
  | Change b => process_change b
  end.

(** ** Rollback *)

Definition account_get_asserted (a : account) : M store account_info :=
  info <- st_get (fun s => account_get s a);;
  match info with Some info => st_ret info | None => st_fault Assertion_failed end.

(** The common end of three of the visitor's methods. *)
Definition rollback_info (h : block_hash) (count : Z) : M store unit :=
  if count mod block_info_max =? 0 then block_info_del h else st_ret tt.

(** [rollback_visitor::send_block], once the pending entry is there. *)
Definition rollback_send (b : send_block) (pend : pending_info) : M store unit :=
  let h := hash (Send b) in
  let prev := sh_previous (send_h b) in
  info <- account_get_asserted (pi_source pend);;
  pending_del (sh_destination (send_h b), h) ;;;
  rep <- ledger_representative h;;
  representation_add rep (pi_amount pend) ;;;
  bal <- st_run (fun s => balance s prev);;
  change_latest (pi_source pend) prev (rep_block info) bal (wrap 64 (block_count info - 1)) ;;;
  block_del h ;;;
  frontier_del h ;;;
  frontier_put prev (pi_source pend) ;;;
  block_successor_clear prev ;;;
  rollback_info h (block_count info).

Definition rollback_receive (b : receive_block) : M store unit :=
  let h := hash (Receive b) in
  let prev := rh_previous (receive_h b) in
  rep <- ledger_representative prev;;
  amount <- st_run (fun s => amount_of s (rh_source (receive_h b)));;
  destination_account <- ledger_account h;;
  info <- account_get_asserted destination_account;;
  rep_h <- ledger_representative h;;
  representation_add rep_h (wrap 128 (0 - amount)) ;;;
  bal <- st_run (fun s => balance s prev);;
  change_latest destination_account prev rep bal (wrap 64 (block_count info - 1)) ;;;
  block_del h ;;;
  source_account <- ledger_account (rh_source (receive_h b));;
  pending_put (destination_account, rh_source (receive_h b)) (PendingInfo source_account amount) ;;;
  frontier_del h ;;;
  frontier_put prev destination_account ;;;
  block_successor_clear prev ;;;
  rollback_info h (block_count info).

Definition rollback_open (b : open_block) : M store unit :=
  let h := hash (Open b) in
  amount <- st_run (fun s => amount_of s (oh_source (open_h b)));;
  destination_account <- ledger_account h;;
  rep <- ledger_representative h;;
  representation_add rep (wrap 128 (0 - amount)) ;;;
  change_latest destination_account 0 0 0 0 ;;;
  block_del h ;;;
  source_account <- ledger_account (oh_source (open_h b));;
  pending_put (destination_account, oh_source (open_h b)) (PendingInfo source_account amount) ;;;
  frontier_del h.

Definition rollback_change (b : change_block) : M store unit :=
  let h := hash (Change b) in
  let prev := ch_previous (change_h b) in
  rep <- ledger_representative prev;;
  account <- ledger_account prev;;
  info <- account_get_asserted account;;
  bal <- st_run (fun s => balance s prev);;
  representation_add rep bal ;;;
  representation_add h (wrap 128 (0 - bal)) ;;;
  block_del h ;;;
  change_latest account prev rep (balance_of info) (wrap 64 (block_count info - 1)) ;;;
  frontier_del h ;;;
  frontier_put prev account ;;;
  block_successor_clear prev ;;;
  rollback_info h (block_count info).

(** [rai::ledger::rollback] and the loops it and the visitor of a send block
    run: the chain of the destination is rolled back until the pending entry of
    the send is there again. *)
Fixpoint rollback (fuel : nat) (h : block_hash) : M store unit :=
  match fuel with
  | O => st_fault Out_of_fuel
  | S fuel =>
      ex <- st_get (fun s => block_exists s h);;
      st_assert ex ;;;
      account_l <- ledger_account h;;
      rollback_loop fuel account_l h
  end
with rollback_loop (fuel : nat) (account_l : account) (h : block_hash) : M store unit :=
  match fuel with
  | O => st_fault Out_of_fuel
  | S fuel =>
      ex <- st_get (fun s => block_exists s h);;
      if ex : bool then
        info <- account_get_asserted account_l;;
        b <- st_get (fun s => block_get s (head info));;
        match b with
        | None => st_fault Indeterminate_value
        | Some b => rollback_visit fuel b ;;; rollback_loop fuel account_l h
        end
      else st_ret tt
  end
with rollback_visit (fuel : nat) (b : block) : M store unit :=
  match fuel with
  | O => st_fault Out_of_fuel
  | S fuel =>
      match b with
      | Send b =>
          pend <- rollback_until_pending fuel (sh_destination (send_h b)) (hash (Send b));;
          rollback_send b pend
      | SendV2 _ => st_ret tt
      | Receive b => rollback_receive b
      | Open b => rollback_open b
      | Change b => rollback_change b
      end
  end
with rollback_until_pending (fuel : nat) (destination : account) (h : block_hash) : M store pending_info :=
  match fuel with
  | O => st_fault Out_of_fuel
  | S fuel =>
      pend <- st_get (fun s => pending_get s (destination, h));;
      match pend with
      | Some pend => st_ret pend
      | None =>
          l <- st_get (fun s => latest s destination);;
          rollback fuel l ;;;
          rollback_until_pending fuel destination h
      end
  end.

(** ** Genesis *)

(** [genesis::initialize] on the open block of the network. *)
Definition genesis_initialize (g : open_block) : M store unit :=
  let hash_l := hash (Open g) in
  s <- st_get id;;
  st_assert (bool_decide (accounts s = ∅)) ;;;
  block_put hash_l (Open g) 0 ;;;
  account_put genesis_account
    (AccountInfo hash_l hash_l hash_l genesis_amount seconds_since_epoch 1) ;;;
  representation_put genesis_account genesis_amount ;;;
  checksum_put 0 0 hash_l ;;;
  frontier_put hash_l genesis_account.

End Ledger.
