(* ===== verification/StoreFacts.v ===== *)
(** * Facts about the ledger tables and sums over tables

    Looking up a block after writing or deleting one, sums and exclusive ors
    over the entries of a table, and the tactics that run a stateful
    definition on a symbolic state. *)
From Stdlib Require Import ZArith Lia List.
From stdpp Require Import prelude gmap.
From S2P Require Import Prelude Numbers Streams Blocks Store.

(** ** Folds over tables *)

Section mfold.
Context {K V : Type} `{Countable K} (op : Z -> Z -> Z) (e : Z).
Context `{!Assoc (=) op, !Comm (=) op}.

Definition mfold (f : K -> V -> Z) (m : gmap K V) : Z := map_fold (fun k v acc => op (f k v) acc) e m.

Lemma mfold_empty f : mfold f ∅ = e.
Proof. apply map_fold_empty. Qed.

Lemma mfold_insert_new f k v m :
  m !! k = None -> mfold f (<[k := v]> m) = op (f k v) (mfold f m).
Proof.
  intros Hk. unfold mfold. apply (map_fold_insert_L (fun k v acc => op (f k v) acc)); [|done].
  intros j1 j2 z1 z2 y _ _ _. rewrite !(assoc_L op). f_equal. apply comm_L, _.
Qed.

Lemma mfold_delete f k v m :
  m !! k = Some v -> mfold f m = op (f k v) (mfold f (delete k m)).
Proof.
  intros Hk. rewrite <- mfold_insert_new by apply lookup_delete_eq.
  by rewrite insert_delete_id.
Qed.

Lemma mfold_insert f k v0 v m :
  m !! k = Some v0 -> mfold f (<[k := v]> m) = op (f k v) (mfold f (delete k m)).
Proof.
  intros Hk. rewrite <- insert_delete_eq. apply mfold_insert_new, lookup_delete_eq.
Qed.

Lemma mfold_ext f g m :
  (forall k v, m !! k = Some v -> f k v = g k v) -> mfold f m = mfold g m.
Proof.
  induction m as [|k v m Hk IH] using map_ind; intros Hfg.
  - by rewrite !mfold_empty.
  - rewrite !mfold_insert_new by done. rewrite Hfg by apply lookup_insert_eq.
    rewrite IH; [done|]. intros k' v' Hk'. apply Hfg. by rewrite lookup_insert_ne by congruence.
Qed.
End mfold.

(** Sum of [f] over a table, and exclusive or of [f] over a table. *)
Definition msum {K V} `{Countable K} (f : K -> V -> Z) (m : gmap K V) : Z := mfold Z.add 0 f m.
Definition mxor {K V} `{Countable K} (f : K -> V -> Z) (m : gmap K V) : Z := mfold Z.lxor 0 f m.

#[export] Instance lxor_assoc : Assoc (=) Z.lxor.
Proof. intros x y z. symmetry. apply Z.lxor_assoc. Qed.
#[export] Instance lxor_comm : Comm (=) Z.lxor.
Proof. intros x y. apply Z.lxor_comm. Qed.

Lemma lxor_cancel a b : Z.lxor (Z.lxor a b) a = b.
Proof. rewrite (Z.lxor_comm a b), Z.lxor_assoc, Z.lxor_nilpotent. apply Z.lxor_0_r. Qed.

Section msum.
Context {K V : Type} `{Countable K}.
Implicit Types (f : K -> V -> Z) (m : gmap K V).

Lemma msum_empty f : msum f ∅ = 0.
Proof. apply mfold_empty. Qed.

Lemma msum_insert_new f k v m : m !! k = None -> msum f (<[k := v]> m) = f k v + msum f m.
Proof. apply mfold_insert_new; apply _. Qed.

Lemma msum_delete f k v m : m !! k = Some v -> msum f (delete k m) = msum f m - f k v.
Proof. intros Hk. unfold msum. rewrite (mfold_delete Z.add 0 f k v m) by done. lia. Qed.

Lemma msum_insert f k v0 v m :
  m !! k = Some v0 -> msum f (<[k := v]> m) = msum f m - f k v0 + f k v.
Proof.
  intros Hk. unfold msum. rewrite (mfold_insert Z.add 0 f k v0 v m) by done.
  rewrite (mfold_delete Z.add 0 f k v0 m) by done. lia.
Qed.

Lemma msum_ext f g m :
  (forall k v, m !! k = Some v -> f k v = g k v) -> msum f m = msum g m.
Proof. apply mfold_ext; apply _. Qed.

Lemma msum_nonneg f m : (forall k v, m !! k = Some v -> 0 <= f k v) -> 0 <= msum f m.
Proof.
  induction m as [|k v m Hk IH] using map_ind; intros Hf; [by rewrite msum_empty|].
  rewrite msum_insert_new by done. pose proof (Hf k v (lookup_insert_eq _ _ _)).
  enough (0 <= msum f m) by lia. apply IH. intros k' v' Hk'. apply Hf.
  by rewrite lookup_insert_ne by congruence.
Qed.

Lemma msum_lookup f k v m :
  (forall k v, m !! k = Some v -> 0 <= f k v) -> m !! k = Some v -> f k v <= msum f m.
Proof.
  intros Hf Hk. pose proof (msum_delete f k v m Hk).
  enough (0 <= msum f (delete k m)) by lia. apply msum_nonneg.
  intros k' v' [_ Hk']%lookup_delete_Some. eauto.
Qed.

Lemma msum_le f g m :
  (forall k v, m !! k = Some v -> f k v <= g k v) -> msum f m <= msum g m.
Proof.
  induction m as [|k v m Hk IH] using map_ind; intros Hf; [by rewrite !msum_empty|].
  rewrite !msum_insert_new by done. pose proof (Hf k v (lookup_insert_eq _ _ _)).
  enough (msum f m <= msum g m) by lia. apply IH. intros k' v' Hk'. apply Hf.
  by rewrite lookup_insert_ne by congruence.
Qed.

(** Replacing an entry toggles the old and the new value. *)
Lemma mxor_insert f k v0 v m :
  m !! k = Some v0 -> mxor f (<[k := v]> m) = Z.lxor (Z.lxor (mxor f m) (f k v0)) (f k v).
Proof.
  intros Hk. unfold mxor. rewrite (mfold_insert Z.lxor 0 f k v0 v m) by done.
  rewrite (mfold_delete Z.lxor 0 f k v0 m) by done.
  rewrite lxor_cancel. apply Z.lxor_comm.
Qed.

Lemma mxor_insert_new f k v m :
  m !! k = None -> mxor f (<[k := v]> m) = Z.lxor (mxor f m) (f k v).
Proof.
  intros Hk. unfold mxor. rewrite mfold_insert_new by (apply _ || done). apply Z.lxor_comm.
Qed.

Lemma mxor_delete f k v m :
  m !! k = Some v -> mxor f (delete k m) = Z.lxor (mxor f m) (f k v).
Proof.
  intros Hk. unfold mxor. rewrite (mfold_delete Z.lxor 0 f k v m) by done.
  by rewrite lxor_cancel.
Qed.
End msum.

(** ** Blocks after a write *)

(** The entry of [h] in the table of kind [t]. *)
Definition lookup_in (t : block_type) (s : store) (h : block_hash) : option entry :=
  match block_database t s with Some m => m !! h | None => None end.

(** No hash is in two tables, and each table has blocks of its kind. *)
Definition tables_disjoint (s : store) : Prop :=
  forall h t1 t2, is_Some (lookup_in t1 s h) -> is_Some (lookup_in t2 s h) -> t1 = t2.
Definition tables_typed (s : store) : Prop :=
  forall h t b n, lookup_in t s h = Some (b, n) -> type b = t.

(** The block and its successor, whatever the kind. *)
Definition entry_at (s : store) (h : block_hash) : option entry := snd <$> block_get_raw s h.

(** Write to the table of a kind of block. *)
Definition put_entry (t : block_type) (h : block_hash) (e : entry) (s : store) : store :=
  match t with
  | send => set_send_blocks (insert h e) s
  | send_v2 => set_send_blocks_v2 (insert h e) s
  | receive => set_receive_blocks (insert h e) s
  | open => set_open_blocks (insert h e) s
  | change => set_change_blocks (insert h e) s
  | invalid | not_a_block => s
  end.

Definition is_kind (t : block_type) : bool :=
  match t with invalid | not_a_block => false | _ => true end.

Lemma is_kind_type b : is_kind (type b) = true.
Proof. by destruct b. Qed.

Lemma block_put_raw_run t h e s :
  is_kind t = true -> block_put_raw t h e s = Ok (tt, put_entry t h e s).
Proof. by destruct t. Qed.

Lemma lookup_in_put t h e s t' h' :
  is_kind t = true ->
  lookup_in t' (put_entry t h e s) h'
  = if decide (t' = t /\ h' = h) then Some e else lookup_in t' s h'.
Proof.
  intros Ht. unfold lookup_in. case_decide as Hd.
  - destruct Hd as [-> ->]. destruct t; try done; apply lookup_insert_eq.
  - destruct (decide (t' = t)) as [->|Hne].
    + destruct t; try done; apply lookup_insert_ne; naive_solver.
    + by destruct t, t'.
Qed.

(** [block_get_raw] is the search through the tables. *)
Lemma block_get_raw_lookup s h t e : block_get_raw s h = Some (t, e) -> lookup_in t s h = Some e.
Proof.
  unfold block_get_raw. intros Hr.
  repeat case_match; simplify_eq; done.
Qed.

Lemma block_get_raw_none s h : block_get_raw s h = None <-> forall t, lookup_in t s h = None.
Proof.
  split.
  - intros Hr. unfold block_get_raw in Hr. repeat case_match; try done.
    intros []; unfold lookup_in; simpl; done.
  - intros Hall. unfold block_get_raw.
    pose proof (Hall send) as H1. pose proof (Hall receive) as H2. pose proof (Hall open) as H3.
    pose proof (Hall change) as H4. pose proof (Hall send_v2) as H5.
    cbn in *. by rewrite H1, H2, H3, H4, H5.
Qed.

Lemma block_get_raw_disjoint s h t e :
  tables_disjoint s -> lookup_in t s h = Some e -> block_get_raw s h = Some (t, e).
Proof.
  intros Hd Hl. destruct (block_get_raw s h) as [[t' e']|] eqn:Hr.
  - pose proof (block_get_raw_lookup _ _ _ _ Hr) as Hl'.
    assert (t' = t) as -> by (eapply Hd; eauto). congruence.
  - rewrite block_get_raw_none in Hr. congruence.
Qed.

Lemma block_get_raw_entry s h t e : block_get_raw s h = Some (t, e) -> entry_at s h = Some e.
Proof. unfold entry_at. by intros ->. Qed.

Lemma entry_at_raw s h e : entry_at s h = Some e -> exists t, block_get_raw s h = Some (t, e).
Proof. unfold entry_at. destruct (block_get_raw s h) as [[t e']|]; naive_solver. Qed.

Lemma entry_raw s h b n :
  tables_typed s -> entry_at s h = Some (b, n) -> block_get_raw s h = Some (type b, (b, n)).
Proof.
  intros Ht (t & Hr)%entry_at_raw. pose proof (block_get_raw_lookup _ _ _ _ Hr) as Hl.
  by rewrite (Ht _ _ _ _ Hl).
Qed.

Lemma entry_at_none s h : entry_at s h = None <-> block_get_raw s h = None.
Proof. unfold entry_at. destruct (block_get_raw s h); naive_solver. Qed.

Lemma block_get_entry s h : block_get s h = fst <$> entry_at s h.
Proof. unfold block_get, entry_at. by destruct (block_get_raw s h) as [[? []]|]. Qed.

Lemma block_successor_entry s h : block_successor s h = default 0 (snd <$> entry_at s h).
Proof. unfold block_successor, entry_at. by destruct (block_get_raw s h) as [[? []]|]. Qed.

Lemma block_exists_entry s h : block_exists s h = bool_decide (is_Some (entry_at s h)).
Proof.
  unfold block_exists, entry_at, block_get_raw.
  destruct (send_blocks s !! h), (receive_blocks s !! h), (open_blocks s !! h),
    (change_blocks s !! h), (send_blocks_v2 s !! h);
    repeat (case_bool_decide; simpl; try done); naive_solver.
Qed.

Lemma block_exists_true s h : block_exists s h = true <-> is_Some (entry_at s h).
Proof. rewrite block_exists_entry. apply bool_decide_eq_true. Qed.
Lemma block_exists_false s h : block_exists s h = false <-> entry_at s h = None.
Proof. rewrite block_exists_entry, bool_decide_eq_false, eq_None_not_Some. done. Qed.

(** Where a write may go: a hash of its own, or the table that has the hash. *)
Definition writable (t : block_type) (h : block_hash) (s : store) : Prop :=
  is_kind t = true /\ forall t', is_Some (lookup_in t' s h) -> t' = t.

Lemma writable_fresh s h t : is_kind t = true -> entry_at s h = None -> writable t h s.
Proof.
  intros Ht Hn%entry_at_none. split; [done|].
  intros t' [e He]. rewrite block_get_raw_none in Hn. congruence.
Qed.

Lemma writable_present s h b n :
  tables_disjoint s -> tables_typed s -> entry_at s h = Some (b, n) -> writable (type b) h s.
Proof.
  intros Hd Ht He. pose proof (entry_raw _ _ _ _ Ht He) as Hr%block_get_raw_lookup.
  split; [apply is_kind_type|]. intros t' Ht'. eapply Hd; eauto.
Qed.

Lemma put_entry_disjoint t h e s :
  tables_disjoint s -> writable t h s -> tables_disjoint (put_entry t h e s).
Proof.
  intros Hd [Hk Hw] h' t1 t2. rewrite !lookup_in_put by done.
  case_decide as H1; case_decide as H2.
  - naive_solver.
  - destruct H1 as [-> ->]. intros _ H2'. symmetry. naive_solver.
  - destruct H2 as [-> ->]. naive_solver.
  - apply Hd.
Qed.

Lemma put_entry_typed t h b n s :
  tables_typed s -> is_kind t = true -> type b = t -> tables_typed (put_entry t h (b, n) s).
Proof.
  intros Ht Hk Hb h' t' b' n'. rewrite lookup_in_put by done.
  case_decide as Hd; [|apply Ht]. destruct Hd as [-> ->]. naive_solver.
Qed.

Lemma put_entry_at t h e s h' :
  tables_disjoint s -> writable t h s ->
  entry_at (put_entry t h e s) h' = if decide (h' = h) then Some e else entry_at s h'.
Proof.
  intros Hd Hw. pose proof Hw as [Hk _].
  pose proof (put_entry_disjoint t h e s Hd Hw) as Hd'.
  case_decide as He.
  - subst h'. eapply block_get_raw_entry, block_get_raw_disjoint; [done|].
    rewrite lookup_in_put by done. by rewrite decide_True.
  - unfold entry_at. f_equal.
    destruct (block_get_raw s h') as [[t' e']|] eqn:Hr.
    + apply block_get_raw_disjoint; [done|]. rewrite lookup_in_put by done.
      rewrite decide_False by naive_solver. by apply block_get_raw_lookup.
    + apply block_get_raw_none. intros t'. rewrite lookup_in_put by done.
      rewrite decide_False by naive_solver. by apply block_get_raw_none.
Qed.


(** Delete from the table of a kind of block. *)
Definition del_entry (t : block_type) (h : block_hash) (s : store) : store :=
  match t with
  | send => set_send_blocks (delete h) s
  | send_v2 => set_send_blocks_v2 (delete h) s
  | receive => set_receive_blocks (delete h) s
  | open => set_open_blocks (delete h) s
  | change => set_change_blocks (delete h) s
  | invalid | not_a_block => s
  end.

Lemma lookup_in_del t h s t' h' :
  lookup_in t' (del_entry t h s) h' = if decide (t' = t /\ h' = h) then None else lookup_in t' s h'.
Proof.
  unfold lookup_in. case_decide as Hd.
  - destruct Hd as [-> ->]. destruct t; try done; apply lookup_delete_eq.
  - destruct (decide (t' = t)) as [->|Hne].
    + destruct t; try done; apply lookup_delete_ne; naive_solver.
    + by destruct t, t'.
Qed.

Lemma del_entry_disjoint t h s : tables_disjoint s -> tables_disjoint (del_entry t h s).
Proof.
  intros Hd h' t1 t2. rewrite !lookup_in_del.
  repeat case_decide; try (intros [? ?]; done); try (intros ? [? ?]; done). apply Hd.
Qed.

Lemma del_entry_typed t h s : tables_typed s -> tables_typed (del_entry t h s).
Proof. intros Ht h' t' b n. rewrite lookup_in_del. case_decide; [done|]. apply Ht. Qed.

Lemma del_entry_at t h s h' :
  tables_disjoint s -> writable t h s ->
  entry_at (del_entry t h s) h' = if decide (h' = h) then None else entry_at s h'.
Proof.
  intros Hd [Hk Hw]. case_decide as He.
  - subst h'. apply entry_at_none, block_get_raw_none. intros t'. rewrite lookup_in_del.
    case_decide as Hc; [done|]. destruct (lookup_in t' s h) eqn:Hl; [|done].
    destruct Hc. split; [|done]. apply Hw. by eexists.
  - unfold entry_at. f_equal. destruct (block_get_raw s h') as [[t' e']|] eqn:Hr.
    + apply block_get_raw_disjoint; [by apply del_entry_disjoint|]. rewrite lookup_in_del.
      rewrite decide_False by naive_solver. by apply block_get_raw_lookup.
    + apply block_get_raw_none. intros t'. rewrite lookup_in_del.
      rewrite decide_False by naive_solver. by apply block_get_raw_none.
Qed.

(** ** Running the operations on blocks *)

Lemma st_run_ok {S A B} (f : S -> res A) (k : A -> M S B) s a :
  f s = Ok a -> st_bind (st_run f) k s = k a s.
Proof. unfold st_bind, st_run. by intros ->. Qed.

Lemma put_entry_same t h e s :
  lookup_in t s h = Some e -> put_entry t h e s = s.
Proof.
  destruct s, t; unfold lookup_in, block_database, put_entry; try done; intros Hl;
    cbv [set_send_blocks set_send_blocks_v2 set_receive_blocks set_open_blocks set_change_blocks];
    cbn in *; by rewrite insert_id.
Qed.

Lemma block_put_open h g s :
  block_put h (Open g) 0 s = Ok (tt, put_entry open h (Open g, 0) s).
Proof. reflexivity. Qed.

(** What [block_put] leaves of a block that has a predecessor. *)
Definition put_linked (b p : block) (s : store) : store :=
  put_entry (type p) (previous b) (p, hash b) (put_entry (type b) (hash b) (b, 0) s).

Definition is_open (b : block) : bool := match b with Open _ => true | _ => false end.

Lemma put_linked_run b p n s :
  is_open b = false -> tables_disjoint s -> tables_typed s ->
  writable (type b) (hash b) s ->
  previous b <> hash b -> entry_at s (previous b) = Some (p, n) ->
  block_put (hash b) b 0 s = Ok (tt, put_linked b p s).
Proof.
  intros Ho Hd Ht Hw Hne Hp. unfold block_put.
  erewrite st_bind_ok by reflexivity. rewrite st_assert_true by done.
  erewrite st_bind_ok by (apply block_put_raw_run, is_kind_type).
  set (s1 := put_entry (type b) (hash b) (b, 0) s).
  assert (Hd1 : tables_disjoint s1) by (by apply put_entry_disjoint).
  assert (Ht1 : tables_typed s1) by (apply put_entry_typed; [done|apply is_kind_type|done]).
  assert (Hp1 : entry_at s1 (previous b) = Some (p, n)).
  { unfold s1. rewrite put_entry_at by done. by rewrite decide_False. }
  assert (Hs : set_predecessor b s1 = Ok (tt, put_linked b p s)).
  { transitivity (fill_value b s1); [by destruct b|]. unfold fill_value.
    erewrite st_bind_ok by (unfold st_get; by rewrite (entry_raw _ _ _ _ Ht1 Hp1)).
    apply block_put_raw_run, is_kind_type. }
  erewrite st_bind_ok by exact Hs. erewrite st_bind_ok by reflexivity.
  assert (Hq : block_successor (put_linked b p s) (previous b) = hash b).
  { rewrite block_successor_entry. unfold put_linked.
    rewrite put_entry_at; [by rewrite decide_True|done|]. eapply writable_present; done. }
  rewrite Hq, Z.eqb_refl, orb_true_r. reflexivity.
Qed.

Lemma put_linked_at b p n s h' :
  tables_disjoint s -> tables_typed s -> writable (type b) (hash b) s ->
  previous b <> hash b -> entry_at s (previous b) = Some (p, n) ->
  entry_at (put_linked b p s) h'
  = if decide (h' = previous b) then Some (p, hash b)
    else if decide (h' = hash b) then Some (b, 0) else entry_at s h'.
Proof.
  intros Hd Ht Hw Hne Hp. unfold put_linked.
  assert (Ht1 : tables_typed (put_entry (type b) (hash b) (b, 0) s))
    by (apply put_entry_typed; [done|apply is_kind_type|done]).
  assert (Hd1 : tables_disjoint (put_entry (type b) (hash b) (b, 0) s)) by (by apply put_entry_disjoint).
  assert (Hp1 : entry_at (put_entry (type b) (hash b) (b, 0) s) (previous b) = Some (p, n)).
  { rewrite put_entry_at by done. by rewrite decide_False. }
  rewrite put_entry_at; [|done|by eapply writable_present]. by rewrite put_entry_at.
Qed.

Lemma put_linked_wf b p n s :
  tables_disjoint s -> tables_typed s -> writable (type b) (hash b) s ->
  previous b <> hash b -> entry_at s (previous b) = Some (p, n) ->
  tables_disjoint (put_linked b p s) /\ tables_typed (put_linked b p s).
Proof.
  intros Hd Ht Hw Hne Hp. unfold put_linked.
  assert (Ht1 : tables_typed (put_entry (type b) (hash b) (b, 0) s))
    by (apply put_entry_typed; [done|apply is_kind_type|done]).
  assert (Hd1 : tables_disjoint (put_entry (type b) (hash b) (b, 0) s)) by (by apply put_entry_disjoint).
  assert (Hp1 : entry_at (put_entry (type b) (hash b) (b, 0) s) (previous b) = Some (p, n)).
  { rewrite put_entry_at by done. by rewrite decide_False. }
  split; [apply put_entry_disjoint; [done|by eapply writable_present]|].
  apply put_entry_typed; [done|apply is_kind_type|done].
Qed.

Lemma block_del_run h b n s :
  tables_disjoint s -> tables_typed s -> entry_at s h = Some (b, n) ->
  block_del h s = Ok (tt, del_entry (type b) h s).
Proof.
  intros Hd Ht He. pose proof (entry_raw _ _ _ _ Ht He) as Hr.
  pose proof (block_get_raw_lookup _ _ _ _ Hr) as Hl.
  unfold block_get_raw in Hr. unfold block_del, lookup_in in *.
  erewrite st_bind_ok by reflexivity. cbn [id].
  destruct (send_blocks s !! h); [injection Hr as <- _; reflexivity|]. 
  rewrite bool_decide_eq_false_2 by (intros [? ?]; done).
  destruct (receive_blocks s !! h); [injection Hr as <- _; reflexivity|].
  rewrite bool_decide_eq_false_2 by (intros [? ?]; done).
  destruct (open_blocks s !! h); [injection Hr as <- _; reflexivity|].
  rewrite bool_decide_eq_false_2 by (intros [? ?]; done).
  destruct (change_blocks s !! h); [injection Hr as <- _; reflexivity|].
  rewrite bool_decide_eq_false_2 by (intros [? ?]; done).
  destruct (send_blocks_v2 s !! h); [injection Hr as <- _; reflexivity|]. done.
Qed.

(** Clearing the successor of a block whose predecessor already points to it
    changes nothing else. *)
Lemma block_successor_clear_run h b n s :
  tables_disjoint s -> tables_typed s -> entry_at s h = Some (b, n) -> hash b = h ->
  (is_open b = false -> previous b <> h /\ exists p, entry_at s (previous b) = Some (p, h)) ->
  block_successor_clear h s = Ok (tt, put_entry (type b) h (b, 0) s).
Proof.
  intros Hd Ht He Hh Hp. unfold block_successor_clear.
  erewrite st_bind_ok by (unfold st_get; by rewrite block_get_entry, He). cbn [fst fmap option_fmap option_map].
  pose proof (writable_present _ _ _ _ Hd Ht He) as Hw.
  destruct (is_open b) eqn:Ho.
  { by destruct b. }
  destruct (Hp eq_refl) as [Hne [p Hpe]]. subst h.
  rewrite (put_linked_run b p (hash b)) by done. unfold put_linked.
  rewrite (put_entry_same (type p) (previous b)); [done|].
  apply block_get_raw_lookup, entry_raw; [apply put_entry_typed; [done|apply is_kind_type|done]|].
  rewrite put_entry_at by done. by rewrite decide_False.
Qed.
