(* ===== verification/LedgerInv.v ===== *)
(** * The ledger invariant

    What holds of the tables between two operations of the ledger.  The
    invariant is stated over the block tables seen as one function [E] from a
    hash to a block and its successor, and over ghost data [g] that gives every
    block its balance, owner, height, representative block, amount and order of
    insertion; the queries of the ledger are shown to compute the ghost data. *)
From Stdlib Require Import ZArith Lia List.
From stdpp Require Import prelude gmap.
From S2P Require Import Prelude Numbers Streams Blocks Store Ledger StoreFacts.

(** ** Statement *)

Record ghost := Ghost {
  gbal : Z -> Z;          (* balance of the account as of the block *)
  gamt : Z -> Z;          (* amount a send block takes out *)
  gown : Z -> account;    (* account whose chain has the block *)
  grep : Z -> block_hash; (* block that names the representative *)
  gheight : Z -> Z;       (* position in the chain, from 1 *)
  grank : Z -> nat;       (* order of insertion *)
  grecv : Z -> option Z   (* block that received a send block *)
}.

Section Invariant.
Context `{Environment}.
Implicit Types (g : ghost) (E : Z -> option entry) (h p a r : Z) (b : block).

(** [p] comes right before [h] in a chain. *)
Definition prev_ok g E h p : Prop :=
  (exists pb, E p = Some (pb, h)) /\ gown g p = gown g h
  /\ gheight g h = gheight g p + 1 /\ (grank g p < grank g h)%nat.

(** [h] receives the send block [src], which was sent to its owner. *)
Definition source_ok g E h src : Prop :=
  (exists sb m, E src = Some (Send sb, m) /\ sh_destination (send_h sb) = gown g h)
  /\ (grank g src < grank g h)%nat /\ grecv g src = Some h.

(** What each kind of block says about its place in the ledger. *)
Definition block_inv g E h b : Prop :=
  match b with
  | Send b =>
      let p := sh_previous (send_h b) in
      prev_ok g E h p /\ grep g h = grep g p /\ gbal g h = sh_balance (send_h b)
      /\ gamt g h = gbal g p - gbal g h /\ 0 <= gamt g h
  | SendV2 _ => False
  | Receive b =>
      let p := rh_previous (receive_h b) in
      let src := rh_source (receive_h b) in
      prev_ok g E h p /\ grep g h = grep g p /\ source_ok g E h src
      /\ gbal g h = gbal g p + gamt g src
  | Open b =>
      let src := oh_source (open_h b) in
      oh_account (open_h b) = gown g h /\ grep g h = h /\ gheight g h = 1
      /\ (src = genesis_account /\ gown g h = genesis_account /\ gbal g h = genesis_amount
          \/ source_ok g E h src /\ gbal g h = gamt g src)
  | Change b =>
      let p := ch_previous (change_h b) in
      prev_ok g E h p /\ grep g h = h /\ gbal g h = gbal g p
  end.

(** The representative a block names is not the zero account. *)
Definition rep_ok b : Prop :=
  match b with Open _ | Change _ => representative b <> 0 | _ => False end.

(** Hashes with a meaning of their own: no block, the start value of
    [ledger::account], and the source of the genesis block. *)
Definition reserved h : Prop := h = 0 \/ h = 1 \/ h = genesis_account.

#[export] Instance reserved_dec h : Decision (reserved h).
Proof. unfold reserved. apply _. Defined.

Record entry_inv (n : nat) g E h b (m : block_hash) : Prop := {
  ei_hash : hash b = h;
  ei_reserved : ~ reserved h;
  ei_fits : fits 128 (gbal g h);
  ei_rank : (grank g h < n)%nat;
  ei_height : 1 <= gheight g h;
  ei_own : gown g h <> 0;
  ei_block : block_inv g E h b;
  ei_rep : exists rb k, E (grep g h) = Some (rb, k) /\ rep_ok rb;
  ei_succ : m = 0 \/ exists sb k, E m = Some (sb, k) /\ previous sb = h
}.

(** The chains: every block in its place, and one block per height. *)
Record chain_inv (n : nat) g E : Prop := {
  ci_entry : forall h b m, E h = Some (b, m) -> entry_inv n g E h b m;
  ci_uniq : forall h1 h2, is_Some (E h1) -> is_Some (E h2) ->
    gown g h1 = gown g h2 -> gheight g h1 = gheight g h2 -> h1 = h2
}.

Record account_inv g E a (i : account_info) : Prop := {
  ac_zero : a <> 0;
  ac_head : exists hb, E (head i) = Some (hb, 0);
  ac_own : gown g (head i) = a;
  ac_balance : balance_of i = gbal g (head i);
  ac_count : block_count i = wrap 64 (gheight g (head i));
  ac_rep : rep_block i = grep g (head i);
  ac_open : exists ob m, E (open_block_hash i) = Some (Open ob, m) /\ oh_account (open_h ob) = a
}.

(** Accounts are the heads of the chains, and so are frontiers. *)
Record accounts_inv g E (A : gmap Z account_info) (F : gmap Z account) : Prop := {
  ai_account : forall a i, A !! a = Some i -> account_inv g E a i;
  ai_owner : forall h b m, E h = Some (b, m) ->
    exists i, A !! gown g h = Some i /\ gheight g h <= gheight g (head i) /\ (m = 0 -> head i = h);
  ai_frontier : forall h a, F !! h = Some a <-> exists i, A !! a = Some i /\ head i = h
}.

(** Every send is pending or was received, and nothing else is pending. *)
Record pending_inv g E (P : gmap (Z * Z) pending_info) : Prop := {
  pi_entry : forall d h i, P !! (d, h) = Some i ->
    exists sb m, E h = Some (Send sb, m) /\ sh_destination (send_h sb) = d
    /\ i = PendingInfo (gown g h) (gamt g h) /\ grecv g h = None;
  pi_send : forall h sb m, E h = Some (Send sb, m) ->
    match grecv g h with
    | None => P !! (sh_destination (send_h sb), h) = Some (PendingInfo (gown g h) (gamt g h))
    | Some r => exists rb k, E r = Some (rb, k) /\ source rb = h
    end
}.

(** Every 32nd block of a chain has its account and balance recorded. *)
Definition info_inv g E (I : gmap Z block_info) : Prop :=
  forall h, I !! h = if decide (is_Some (E h) /\ gheight g h mod block_info_max = 0)
                     then Some (BlockInfo (gown g h) (gbal g h)) else None.

(** The representative named by the block [h]. *)
Definition repr E h : account := match E h with Some (b, _) => representative b | None => 0 end.

(** What the accounts represented by [r] have. *)
Definition weight_of E (A : gmap Z account_info) r : Z :=
  msum (fun _ i => if repr E (rep_block i) =? r then balance_of i else 0) A.

Definition total_balance (A : gmap Z account_info) : Z := msum (fun _ i => balance_of i) A.
Definition total_pending (P : gmap (Z * Z) pending_info) : Z := msum (fun _ i => pi_amount i) P.
Definition checksum_of (A : gmap Z account_info) : Z := mxor (fun _ i => head i) A.

Record inv_with (n : nat) g (s : store) : Prop := {
  iv_disjoint : tables_disjoint s;
  iv_typed : tables_typed s;
  iv_chain : chain_inv n g (entry_at s);
  iv_accounts : accounts_inv g (entry_at s) (accounts s) (frontiers s);
  iv_pending : pending_inv g (entry_at s) (pending s);
  iv_info : info_inv g (entry_at s) (blocks_info s);
  iv_total : total_balance (accounts s) + total_pending (pending s) = genesis_amount;
  iv_weight : forall r, representation_get s r = weight_of (entry_at s) (accounts s) r;
  iv_checksum : checksums s !! 0 = Some (checksum_of (accounts s))
}.

(** The invariant of a ledger into which at most [n] blocks were put. *)
Definition inv (n : nat) (s : store) : Prop := exists g, inv_with n g s.

End Invariant.

(** ** Consequences *)

Section Consequences.
Context `{Environment} {n : nat} {g : ghost} {s : store} (I : inv_with n g s).
Implicit Types (h p a r : Z) (b : block).

Lemma inv_entry h b m : entry_at s h = Some (b, m) -> entry_inv n g (entry_at s) h b m.
Proof. apply I. Qed.

Lemma inv_head a i : accounts s !! a = Some i -> account_inv g (entry_at s) a i.
Proof. apply I. Qed.

(** The block before a block that is not the first of its chain. *)
Lemma inv_previous h b m :
  entry_at s h = Some (b, m) -> is_open b = false -> prev_ok g (entry_at s) h (previous b).
Proof. intros Hb Ho. apply inv_entry in Hb as [_ _ _ _ _ _ Hb _ _]. destruct b; naive_solver. Qed.

Lemma open_previous b : is_open b = true -> previous b = 0.
Proof. by destruct b. Qed.

Lemma block_inv_prev E h b :
  block_inv g E h b -> is_open b = false -> prev_ok g E h (previous b).
Proof.
  destruct b; cbn [block_inv is_open previous]; intros Hb Ho; [apply Hb|destruct Hb|apply Hb|discriminate|apply Hb].
Qed.

Lemma zero_entry : entry_at s 0 = None.
Proof.
  destruct (entry_at s 0) as [[b m]|] eqn:He; [|done].
  destruct (ei_reserved _ _ _ _ _ _ (inv_entry _ _ _ He)). by left.
Qed.

Lemma frontier_account h a :
  frontier_get s h = a -> a <> 0 ->
  exists i, accounts s !! a = Some i /\ head i = h.
Proof.
  unfold frontier_get. destruct (frontiers s !! h) as [a'|] eqn:Hf; simpl; [|congruence].
  intros -> _. by apply (iv_accounts _ _ _ I).
Qed.

Lemma balance_nonneg a i : accounts s !! a = Some i -> 0 <= balance_of i.
Proof.
  intros Ha%inv_head. destruct Ha as [_ [hb Hh] _ -> _ _ _].
  by destruct (ei_fits _ _ _ _ _ _ (inv_entry _ _ _ Hh)).
Qed.

Lemma amount_nonneg k i : pending s !! k = Some i -> 0 <= pi_amount i.
Proof.
  destruct k as [d h]. intros (sb & m & He & _ & -> & _)%(pi_entry _ _ _ (iv_pending _ _ _ I)).
  apply inv_entry in He as [_ _ _ _ _ _ (_ & _ & _ & _ & Ha) _ _]. done.
Qed.

Lemma total_balance_nonneg : 0 <= total_balance (accounts s).
Proof. apply msum_nonneg. intros. by eapply balance_nonneg. Qed.

Lemma total_pending_nonneg : 0 <= total_pending (pending s).
Proof. apply msum_nonneg. intros. by eapply amount_nonneg. Qed.

(** A balance and a pending amount together are in circulation. *)
Lemma balance_and_pending a i k pi :
  accounts s !! a = Some i -> pending s !! k = Some pi ->
  balance_of i + pi_amount pi <= genesis_amount.
Proof.
  intros Ha Hk. rewrite <- (iv_total _ _ _ I).
  pose proof (msum_lookup (fun _ i => balance_of i) a i (accounts s) balance_nonneg Ha).
  pose proof (msum_lookup (fun _ i => pi_amount i) k pi (pending s) amount_nonneg Hk).
  unfold total_balance, total_pending. simpl in *. lia.
Qed.

Lemma weight_of_bounds r : 0 <= weight_of (entry_at s) (accounts s) r <= genesis_amount.
Proof.
  split.
  - apply msum_nonneg. intros a i Hi%balance_nonneg. case_match; lia.
  - rewrite <- (iv_total _ _ _ I). pose proof total_pending_nonneg.
    enough (weight_of (entry_at s) (accounts s) r <= total_balance (accounts s)) by lia.
    apply msum_le. intros a i Hi%balance_nonneg. case_match; lia.
Qed.
End Consequences.
