(* ===== verification/LedgerQueries.v ===== *)
(** * The queries of the ledger compute what the invariant says

    On a ledger that satisfies the invariant, the balance, amount,
    representative and account visitors end, within fuel linear in the number
    of blocks, and return the balance, amount, representative block and owner
    of the block they start from. *)
From Stdlib Require Import ZArith Lia List.
From stdpp Require Import prelude gmap.
From S2P Require Import Prelude Numbers Streams Blocks Store Ledger StoreFacts LedgerInv.

(** Fuel that is enough for every loop of a query after [n] blocks. *)
Definition query_fuel (n : nat) : nat := 3 * n + 8.

(** A counter of blocks that wraps around does not lose the place in the period. *)
Lemma wrap_mod_info z : wrap 64 z mod block_info_max = z mod block_info_max.
Proof. unfold wrap, block_info_max. apply Z.mod_mod_divide. exists (2 ^ 59). reflexivity. Qed.

Lemma is_zero_ne (h : Z) : h <> 0 -> is_zero h = false.
Proof. unfold is_zero. by intros ?%Z.eqb_neq. Qed.

Lemma get_of_entry (s : store) h b m : entry_at s h = Some (b, m) -> block_get s h = Some b.
Proof. intros He. by rewrite block_get_entry, He. Qed.

(** ** Balances and amounts

    The visitors need the chains to be right, and of the recorded balances only
    that those there are right: a database under upgrade has not all of them. *)
Section Visitors.
Context `{Environment} {n : nat} {g : ghost} {s : store}.
Implicit Types (h p a r : Z) (b : block).

(** The two shapes of a recorded balance. *)
Definition recorded : Prop := forall h,
  is_Some (entry_at s h) ->
  block_info_get s h = None \/ block_info_get s h = Some (BlockInfo (gown g h) (gbal g h)).

Context (C : chain_inv n g (entry_at s)) (Hi : recorded).

Lemma chain_reserved h : reserved h -> entry_at s h = None.
Proof.
  intros Hr. destruct (entry_at s h) as [[b m]|] eqn:He; [|done].
  by destruct (ei_reserved _ _ _ _ _ _ (ci_entry _ _ _ C _ _ _ He)).
Qed.

Lemma chain_nonzero h b m : entry_at s h = Some (b, m) -> is_zero h = false.
Proof. intros He. apply is_zero_ne. intros ->. by rewrite chain_reserved in He by (by left). Qed.

(** The balance of the block [h], and the amount of the send block [h]. *)
Definition balance_done (fuel : nat) h : Prop :=
  forall r, balance_loop fuel s h r = Ok (wrap 128 (r + gbal g h)).
Definition amount_done (fuel : nat) h : Prop :=
  amount_compute fuel s h = Ok (Some (gamt g h)).

Lemma balance_zero fuel r : balance_loop fuel s 0 r = Ok r.
Proof. by destruct fuel. Qed.

Lemma send_amount_visit fuel h sb m :
  entry_at s h = Some (Send sb, m) ->
  balance_done fuel (sh_previous (send_h sb)) ->
  amount_visit (S fuel) s (Send sb) = Ok (Some (gamt g h)).
Proof.
  intros He Hp. cbn [amount_visit]. rewrite Hp, Z.add_0_l.
  pose proof (ci_entry _ _ _ C _ _ _ He) as [_ _ Hfit _ _ _ (Hprev & _ & <- & Ha & Ha0) _ _].
  destruct Hprev as ((pb & Hpe) & _ & _ & _).
  pose proof (ei_fits _ _ _ _ _ _ (ci_entry _ _ _ C _ _ _ Hpe)) as Hpf.
  rewrite (wrap_small 128 (gbal g _)) by done. rewrite <- Ha.
  rewrite wrap_small; [done|]. unfold fits in *. lia.
Qed.

Lemma balance_send fuel h sb m :
  entry_at s h = Some (Send sb, m) -> balance_done (S fuel) h.
Proof.
  intros He r. cbn [balance_loop]. rewrite (chain_nonzero _ _ _ He), (get_of_entry s _ _ _ He), balance_zero.
  apply (ci_entry _ _ _ C) in He as [_ _ _ _ _ _ (_ & _ & <- & _) _ _]. done.
Qed.

Lemma balance_receive fuel h rb m :
  entry_at s h = Some (Receive rb, m) ->
  amount_done fuel (rh_source (receive_h rb)) -> balance_done fuel (rh_previous (receive_h rb)) ->
  balance_done (S fuel) h.
Proof.
  intros He Hsrc Hprev r. cbn [balance_loop].
  rewrite (chain_nonzero _ _ _ He), (get_of_entry s _ _ _ He), Hsrc.
  pose proof (ci_entry _ _ _ C _ _ _ He) as [-> _ _ _ _ _ (_ & _ & _ & Hb) _ _].
  destruct (Hi h) as [-> | ->]; [by eexists|..]; cbn [bi_balance].
  - rewrite Hprev, wrap_add_l. do 2 f_equal. lia.
  - by rewrite balance_zero.
Qed.

Lemma balance_change fuel h cb m :
  entry_at s h = Some (Change cb, m) ->
  balance_done fuel (ch_previous (change_h cb)) -> balance_done (S fuel) h.
Proof.
  intros He Hprev r. cbn [balance_loop].
  rewrite (chain_nonzero _ _ _ He), (get_of_entry s _ _ _ He).
  pose proof (ci_entry _ _ _ C _ _ _ He) as [-> _ _ _ _ _ (_ & _ & Hb) _ _].
  destruct (Hi h) as [-> | ->]; [by eexists|..]; cbn [bi_balance].
  - by rewrite Hprev, Hb.
  - by rewrite balance_zero.
Qed.

Lemma amount_genesis fuel : amount_compute (S fuel) s genesis_account = Ok (Some genesis_amount).
Proof.
  cbn [amount_compute]. rewrite block_get_entry, (chain_reserved genesis_account) by (by right; right). cbn. by rewrite Z.eqb_refl.
Qed.

Lemma balance_open fuel h ob m :
  entry_at s h = Some (Open ob, m) ->
  (source_ok g (entry_at s) h (oh_source (open_h ob)) -> amount_done (S fuel) (oh_source (open_h ob))) ->
  balance_done (S (S fuel)) h.
Proof.
  intros He Hsrc r. cbn [balance_loop].
  rewrite (chain_nonzero _ _ _ He), (get_of_entry s _ _ _ He).
  pose proof (ci_entry _ _ _ C _ _ _ He) as [_ _ _ _ _ _ (_ & _ & _ & Hb) _ _].
  change (match amount_compute (S fuel) s (oh_source (open_h ob)) with
          | Ok (Some x) => balance_loop (S fuel) s 0 (wrap 128 (r + x))
          | Ok None => Fault Indeterminate_value
          | Fault f => Fault f end = Ok (wrap 128 (r + gbal g h))).
  destruct Hb as [(-> & _ & ->)|[Hok ->]].
  - by rewrite amount_genesis, balance_zero.
  - by rewrite (Hsrc Hok), balance_zero.
Qed.

Lemma balance_amount_done k :
  (forall fuel h, is_Some (entry_at s h) -> (grank g h < k)%nat -> (3 * grank g h + 2 <= fuel)%nat ->
     balance_done fuel h)
  /\ (forall fuel h sb m, entry_at s h = Some (Send sb, m) -> (grank g h < k)%nat ->
     (3 * grank g h + 2 <= fuel)%nat -> amount_done fuel h).
Proof.
  induction k as [|k [IHb IHa]]; [split; intros; lia|].
  assert (Hprev : forall fuel h p, prev_ok g (entry_at s) h p -> (grank g h <= k)%nat ->
            (3 * grank g h <= fuel + 1)%nat -> balance_done fuel p).
  { intros fuel h p ((pb & Hp) & _ & _ & Hr) ??. apply IHb; [by eexists|lia|lia]. }
  assert (Hsrc : forall fuel h p, source_ok g (entry_at s) h p -> (grank g h <= k)%nat ->
            (3 * grank g h <= fuel + 1)%nat -> amount_done fuel p).
  { intros fuel h p ((sb & m & Hp & _) & Hr & _) ??. eapply IHa; [done|lia|lia]. }
  split.
  - intros fuel h [[b m] He] Hr Hf. pose proof (ei_block _ _ _ _ _ _ (ci_entry _ _ _ C _ _ _ He)) as Hb.
    destruct fuel as [|fuel]; [lia|]. destruct b as [b|b|b|b|b]; cbn [block_inv] in Hb.
    + by eapply balance_send.
    + done.
    + destruct Hb as (Hp & _ & Hs & _). eapply balance_receive; [done|..].
      * eapply Hsrc; [done|lia|lia].
      * eapply Hprev; [done|lia|lia].
    + destruct fuel as [|fuel]; [lia|]. eapply balance_open; [done|]. intros Hs.
      eapply Hsrc; [done|lia|]. lia.
    + destruct Hb as (Hp & _). eapply balance_change; [done|]. eapply Hprev; [done|lia|lia].
  - intros fuel h sb m He Hr Hf. destruct fuel as [|[|fuel]]; try lia.
    unfold amount_done. cbn [amount_compute]. rewrite (get_of_entry s _ _ _ He).
    pose proof (ei_block _ _ _ _ _ _ (ci_entry _ _ _ C _ _ _ He)) as (Hp & _).
    eapply send_amount_visit; [done|].
    assert ((0 < grank g h)%nat) by (destruct Hp as (_ & _ & _ & ?); lia).
    eapply Hprev; [done|lia|lia].
Qed.

Lemma chain_balance_ok h : (query_fuel n <= loop_fuel)%nat -> is_Some (entry_at s h) -> balance s h = Ok (gbal g h).
Proof.
  intros Hfuel [[b m] He]. destruct (balance_amount_done n) as [Hb _]. unfold balance.
  pose proof (ci_entry _ _ _ C _ _ _ He) as [_ _ Hfit Hr _ _ _ _ _].
  rewrite Hb; [|by eexists|done|unfold query_fuel in *; lia]. by rewrite wrap_small.
Qed.
End Visitors.

Section Queries.
Context `{Environment} {n : nat} {g : ghost} {s : store} (I : inv_with n g s).
Implicit Types (h p a r : Z) (b : block).

Lemma entry_nonzero h b m : entry_at s h = Some (b, m) -> is_zero h = false.
Proof.
  intros He. apply is_zero_ne. intros ->. by rewrite (zero_entry I) in He.
Qed.

Lemma entry_get h b m : entry_at s h = Some (b, m) -> block_get s h = Some b.
Proof. intros He. by rewrite block_get_entry, He. Qed.

Lemma entry_rank h b m : entry_at s h = Some (b, m) -> (grank g h < n)%nat.
Proof. intros He%(inv_entry I). apply He. Qed.

Lemma inv_recorded : recorded (g := g) (s := s).
Proof.
  intros h He. unfold block_info_get. rewrite (iv_info _ _ _ I h).
  case_decide; [by right|by left].
Qed.

Lemma genesis_entry : entry_at s genesis_account = None.
Proof.
  destruct (entry_at s genesis_account) as [[b m]|] eqn:He; [|done].
  destruct (ei_reserved _ _ _ _ _ _ (inv_entry I _ _ _ He)). by right; right.
Qed.

Lemma send_amount_from fuel h sb m :
  entry_at s h = Some (Send sb, m) -> (3 * grank g h + 2 <= fuel)%nat ->
  amount_from_send fuel s h = Ok (Some (gamt g h)).
Proof.
  intros He Hf. destruct (balance_amount_done (iv_chain _ _ _ I) inv_recorded n) as [_ Ha].
  specialize (Ha fuel h sb m He (entry_rank _ _ _ He) Hf). unfold amount_done in Ha.
  destruct fuel as [|fuel]; [lia|]. cbn [amount_compute amount_from_send] in *.
  by rewrite (entry_get _ _ _ He) in *.
Qed.

Context (Hfuel : (query_fuel n <= loop_fuel)%nat).

Lemma balance_ok h : is_Some (entry_at s h) -> balance s h = Ok (gbal g h).
Proof. by apply (chain_balance_ok (iv_chain _ _ _ I) inv_recorded). Qed.

(** What a block moves: the amount sent or received, all there is for the
    genesis block, nothing for a change block. *)
Definition moved h b : Z :=
  match b with
  | Send _ => gamt g h
  | Receive b => gamt g (rh_source (receive_h b))
  | Open b => gbal g h
  | _ => 0
  end.

Lemma amount_ok h b m : entry_at s h = Some (b, m) -> amount_of s h = Ok (moved h b).
Proof.
  intros He. pose proof (entry_rank _ _ _ He) as Hr. unfold query_fuel in Hfuel. unfold amount_of.
  destruct loop_fuel as [|[|fuel]]; try lia. cbn [amount_compute]. rewrite (entry_get _ _ _ He).
  pose proof (ei_block _ _ _ _ _ _ (inv_entry I _ _ _ He)) as Hb.
  destruct b as [b|b|b|b|b]; cbn [block_inv] in Hb.
  - destruct Hb as (((pb & Hp) & _ & _ & Hlt) & _).
    erewrite (send_amount_visit (iv_chain _ _ _ I)); [done|done|].
    apply (balance_amount_done (iv_chain _ _ _ I) inv_recorded n); [by eexists|lia|lia].
  - done.
  - destruct Hb as (_ & _ & ((sb & k & Hs & _) & Hlt & _) & _). cbn [amount_visit].
    by erewrite send_amount_from by (done || lia).
  - destruct Hb as (_ & _ & _ & [(Hg & _ & Hb)|[((sb & k & Hs & _) & Hlt & _) Hb]]); cbn [amount_visit moved].
    + by rewrite Hg, Z.eqb_refl, Hb.
    + replace (oh_source (open_h b) =? genesis_account) with false.
      * cbn [negb]. erewrite send_amount_from by (done || lia). by rewrite Hb.
      * symmetry. apply Z.eqb_neq. intros Hc. rewrite Hc, genesis_entry in Hs. done.
  - done.
Qed.

(** ** Representatives *)

Lemma representative_loop_ok fuel h :
  is_Some (entry_at s h) -> (grank g h < fuel)%nat ->
  representative_loop fuel s h = Ok (grep g h).
Proof.
  revert h. induction fuel as [|fuel IH]; intros h [[b m] He] Hf; [lia|].
  cbn [representative_loop]. rewrite (entry_get _ _ _ He).
  pose proof (inv_entry I _ _ _ He) as [Hh _ _ _ _ _ Hb _ _].
  assert (Hprev : is_open b = false -> grep g h = grep g (previous b) ->
            representative_loop fuel s (previous b) = Ok (grep g h)).
  { intros Ho ->. destruct (inv_previous I _ _ _ He Ho) as ((pb & Hp) & _ & _ & Hr).
    apply IH; [by eexists|lia]. }
  destruct b as [b|b|b|b|b]; cbn [block_inv] in Hb.
  - destruct Hb as (_ & Hg & _). exact (Hprev eq_refl Hg).
  - destruct Hb.
  - destruct Hb as (_ & Hg & _). exact (Hprev eq_refl Hg).
  - destruct Hb as (_ & -> & _). by rewrite Hh, (entry_nonzero _ _ _ He).
  - destruct Hb as (_ & -> & _). by rewrite Hh, (entry_nonzero _ _ _ He).
Qed.

Lemma ledger_representative_ok h :
  is_Some (entry_at s h) -> ledger_representative h s = Ok (grep g h, s).
Proof.
  intros He. unfold ledger_representative, representative_calculated.
  pose proof He as [[b m] Hb].
  erewrite st_run_ok by (apply representative_loop_ok; [done|];
    pose proof (entry_rank _ _ _ Hb); unfold query_fuel in *; lia).
  erewrite st_bind_ok by reflexivity.
  destruct (ei_rep _ _ _ _ _ _ (inv_entry I _ _ _ Hb)) as (rb & k & Hrb & _).
  rewrite st_assert_true; [done|]. replace (block_exists s (grep g h)) with true; [apply orb_true_r|].
  symmetry. apply block_exists_true. by eexists.
Qed.

(** ** Owners *)

Lemma frontier_get_head h b : entry_at s h = Some (b, 0) -> frontier_get s h = gown g h.
Proof.
  intros He. destruct (ai_owner _ _ _ _ (iv_accounts _ _ _ I) _ _ _ He) as (i & Hi & _ & Hh).
  unfold frontier_get.
  assert (frontiers s !! h = Some (gown g h)) as ->; [|done].
  apply (iv_accounts _ _ _ I). exists i. auto.
Qed.

(** The block after [h], when there is one. *)
Lemma inv_successor h b m :
  entry_at s h = Some (b, m) -> m <> 0 ->
  exists sb k, entry_at s m = Some (sb, k) /\ gown g m = gown g h /\ (grank g h < grank g m)%nat.
Proof.
  intros He Hm. pose proof (inv_entry I _ _ _ He) as Hi.
  destruct (ei_succ _ _ _ _ _ _ Hi) as [|(sb & k & Hs & Hp)]; [done|].
  exists sb, k. destruct (is_open sb) eqn:Ho.
  - exfalso. destruct sb; try done. cbn in Hp. subst h. by rewrite (zero_entry I) in He.
  - pose proof (inv_previous I _ _ _ Hs Ho) as (_ & Hown & _ & Hr). by rewrite Hp in *.
Qed.

Lemma account_loop_ok fuel h b m succ :
  entry_at s h = Some (b, m) -> is_zero succ = false -> block_info_get s succ = None ->
  (n - grank g h + 1 <= fuel)%nat -> account_loop fuel s h succ = Ok (gown g h).
Proof.
  revert h b m succ. induction fuel as [|fuel IH]; intros h b m succ He Hz Hi Hf; [lia|].
  pose proof (entry_rank _ _ _ He). destruct fuel as [|fuel]; [lia|].
  cbn [account_loop] in *. rewrite Hz, Hi.
  rewrite block_successor_entry, He. cbn [fmap option_fmap option_map snd from_option id].
  destruct (decide (m = 0)) as [->|Hm].
  { cbn. f_equal. by eapply frontier_get_head. }
  rewrite (is_zero_ne m Hm).
  destruct (inv_successor _ _ _ He Hm) as (sb & k & Hs & Hown & Hr).
  rewrite <- Hown. destruct (inv_recorded m) as [Hn | Hn]; [by eexists|..].
  - specialize (IH m sb k m Hs (is_zero_ne m Hm) Hn). rewrite (is_zero_ne m Hm) in IH. apply IH. lia.
  - by rewrite Hn.
Qed.

Lemma ledger_account_ok h : is_Some (entry_at s h) -> ledger_account h s = Ok (gown g h, s).
Proof.
  intros He. unfold ledger_account. erewrite st_bind_ok by reflexivity.
  rewrite st_assert_true by (by apply block_exists_true). pose proof He as [[b m] Hb].
  erewrite st_run_ok.
  2:{ eapply account_loop_ok; [done|done| |unfold query_fuel in *; lia].
      unfold block_info_get. rewrite (iv_info _ _ _ I). rewrite decide_False; [done|].
      intros [[[b' m'] H1] _]. destruct (ei_reserved _ _ _ _ _ _ (inv_entry I _ _ _ H1)). by right; left. }
  rewrite st_assert_true; [done|].
  by rewrite (is_zero_ne _ (ei_own _ _ _ _ _ _ (inv_entry I _ _ _ Hb))).
Qed.
End Queries.

(** ** Queries only look at blocks and block information *)

Section Monotone.
Context `{Environment} {s t : store}.

(** [t] has the blocks of [s] and maybe more. *)
Record more_blocks : Prop := {
  mb_get : forall x b, block_get s x = Some b -> block_get t x = Some b;
  mb_genesis : block_get t genesis_account = None;
  mb_info : blocks_info t = blocks_info s
}.

Lemma visitors_monotone (Hm : more_blocks) fuel :
  (forall b v, amount_visit fuel s b = Ok v -> amount_visit fuel t b = Ok v)
  /\ (forall x v, amount_from_send fuel s x = Ok v -> amount_from_send fuel t x = Ok v)
  /\ (forall x v, amount_compute fuel s x = Ok v -> amount_compute fuel t x = Ok v)
  /\ (forall x r v, balance_loop fuel s x r = Ok v -> balance_loop fuel t x r = Ok v).
Proof.
  destruct Hm as [Hg Hn Hi].
  induction fuel as [|fuel (IHv & IHs & IHc & IHb)].
  { by split_and!. }
  split_and!.
  - intros b v. destruct b; cbn [amount_visit]; try done; [|by apply IHs|].
    + destruct (balance_loop fuel s _ 0) eqn:Hb; [|done]. by rewrite (IHb _ _ _ Hb).
    + destruct (negb _); [apply IHs|done].
  - intros x v. cbn [amount_from_send]. destruct (block_get s x) eqn:Hx; [|done].
    rewrite (Hg _ _ Hx). apply IHv.
  - intros x v. cbn [amount_compute]. destruct (block_get s x) eqn:Hx.
    + rewrite (Hg _ _ Hx). apply IHv.
    + destruct (Z.eqb_spec x genesis_account) as [->|]; [|done]. by rewrite Hn.
  - intros x r v. cbn [balance_loop]. destruct (is_zero x); [done|].
    destruct (block_get s x) as [b|] eqn:Hx; [|done]. rewrite (Hg _ _ Hx).
    unfold block_info_get. rewrite Hi.
    destruct b as [b|b|b|b|b]; try apply IHb.
    + destruct (amount_compute fuel s _) as [v'|] eqn:Hc; [|done]. rewrite (IHc _ _ Hc).
      case_match; [apply IHb|]. case_match; [apply IHb|done].
    + destruct (amount_compute fuel s _) as [v'|] eqn:Hc; [|done]. rewrite (IHc _ _ Hc).
      case_match; [apply IHb|done].
    + case_match; apply IHb.
Qed.

Lemma balance_monotone (Hm : more_blocks) x v : balance s x = Ok v -> balance t x = Ok v.
Proof. apply visitors_monotone, Hm. Qed.
End Monotone.
