(* ===== verification/LedgerExtend.v ===== *)
(** * Adding a block to a ledger keeps the invariant

    The tables after a block was put behind the head of a chain (or started a
    chain) are described by [ext_entries] and [gext]; this file shows that each
    part of the invariant carries over.  How the operations of the ledger reach
    such tables is in [LedgerProcess]. *)
From Stdlib Require Import ZArith Lia List.
From stdpp Require Import prelude gmap.
From S2P Require Import Prelude Numbers Streams Blocks Store Ledger StoreFacts LedgerInv.

(** The blocks and successors after [b] was put at the end of its chain. *)
Definition ext_entries (E : Z -> option entry) (b : block) (x : Z) : option entry :=
  if decide (x = hash b) then Some (b, 0)
  else match E x with
       | Some (b', m) => Some (b', if decide (x = previous b) then hash b else m)
       | None => None
       end.

Definition upd {A} (f : Z -> A) (h : Z) (v : A) (x : Z) : A := if decide (x = h) then v else f x.

Lemma upd_eq {A} (f : Z -> A) h v : upd f h v h = v.
Proof. unfold upd. by rewrite decide_True. Qed.
Lemma upd_ne {A} (f : Z -> A) h v x : x <> h -> upd f h v x = f x.
Proof. intros. unfold upd. by rewrite decide_False. Qed.

(** The ghost data of the new block [h], which receives [src]. *)
Definition gext (g : ghost) (n : nat) (h bal amt own rep height : Z) (src : option Z) : ghost := {|
  gbal := upd (gbal g) h bal;
  gamt := upd (gamt g) h amt;
  gown := upd (gown g) h own;
  grep := upd (grep g) h rep;
  gheight := upd (gheight g) h height;
  grank := upd (grank g) h n;
  grecv := upd (fun x => if decide (src = Some x) then Some h else grecv g x) h None
|}.

(** The pending entry a new block makes for the account [d]. *)
Definition new_pending (b : block) (own amt d : Z) : option pending_info :=
  match b with
  | Send sb => if decide (d = sh_destination (send_h sb)) then Some (PendingInfo own amt) else None
  | _ => None
  end.

Lemma new_pending_inv b own amt d i :
  new_pending b own amt d = Some i ->
  exists sb, b = Send sb /\ sh_destination (send_h sb) = d /\ i = PendingInfo own amt.
Proof. destruct b; cbn; try done. case_decide; naive_solver. Qed.

Section Extend.
Context `{Environment} {n : nat} {g : ghost} {E E' : Z -> option entry} {b : block}.
Context {bal amt own rep height : Z} {src : option Z}.
Let h := hash b.
Let g' := gext g n h bal amt own rep height src.
Context (C : chain_inv n g E) (HE : forall x, E' x = ext_entries E b x).
Context (Hfresh : E h = None) (Hres : ~ reserved h) (Hfit : fits 128 bal) (Hown0 : own <> 0).
Context (Hheight : 1 <= height).
Context (Hsrc : forall x, src = Some x -> grecv g x = None).
(** The block goes behind the head of the chain of [own], or starts it. *)
Context (Hprev : forall pb m, E (previous b) = Some (pb, m) -> m = 0 /\ gown g (previous b) = own).
Context (Hown : forall x b' m, E x = Some (b', m) -> gown g x = own ->
           gheight g x < height /\ (m = 0 -> x = previous b)).

Lemma ext_new : E' h = Some (b, 0).
Proof. rewrite HE. unfold ext_entries. by rewrite decide_True. Qed.

Lemma ext_some x b' m :
  E x = Some (b', m) -> x <> h /\ exists m', E' x = Some (b', m') /\ (x <> previous b -> m' = m).
Proof.
  intros Hx. assert (x <> h) by congruence. split; [done|].
  rewrite HE. unfold ext_entries. rewrite decide_False by done. rewrite Hx.
  eexists; split; [done|]. intros. by rewrite decide_False.
Qed.

Lemma ext_inv x b' m' :
  E' x = Some (b', m') ->
  x = h /\ b' = b /\ m' = 0
  \/ x <> h /\ exists m, E x = Some (b', m) /\ (x = previous b /\ m' = h \/ x <> previous b /\ m' = m).
Proof.
  rewrite HE. unfold ext_entries. case_decide as Hx; [naive_solver|]. right. split; [done|].
  destruct (E x) as [[b0 m]|]; [|done]. case_decide; naive_solver.
Qed.

Lemma ext_is_some x : is_Some (E' x) <-> x = h \/ is_Some (E x).
Proof.
  split.
  - intros [[b' m'] Hx]. apply ext_inv in Hx as [(-> & _)|(_ & m & Hm & _)]; [by left|right; by eexists].
  - intros [->|[[b' m] Hx]]; [by eexists; apply ext_new|].
    apply ext_some in Hx as (_ & m' & Hm & _). by eexists.
Qed.

Lemma not_new x b' m : E x = Some (b', m) -> x <> h.
Proof. congruence. Qed.

(** Ghost data of blocks that were there before. *)
Lemma gext_ne x : x <> h ->
  gbal g' x = gbal g x /\ gamt g' x = gamt g x /\ gown g' x = gown g x /\ grep g' x = grep g x
  /\ gheight g' x = gheight g x /\ grank g' x = grank g x
  /\ grecv g' x = if decide (src = Some x) then Some h else grecv g x.
Proof. intros Hx. cbn. by rewrite !upd_ne. Qed.

Lemma prev_ok_ext x b' m p :
  E x = Some (b', m) -> prev_ok g E x p -> prev_ok g' E' x p.
Proof.
  intros Hx ((pb & Hp) & Ho & Hh & Hr). unfold prev_ok.
  destruct (gext_ne x (not_new _ _ _ Hx)) as (_ & _ & -> & _ & -> & -> & _).
  destruct (gext_ne p (not_new _ _ _ Hp)) as (_ & _ & -> & _ & -> & -> & _).
  split_and!; try done. apply ext_some in Hp as Hp'. destruct Hp' as (_ & m' & Hp' & Hm).
  rewrite Hm in Hp'; [by exists pb|]. intros ->. apply Hprev in Hp as [-> _].
  apply (ei_reserved _ _ _ _ _ _ (ci_entry _ _ _ C _ _ _ Hx)). by left.
Qed.

Lemma source_ok_ext x b' m p :
  E x = Some (b', m) -> source_ok g E x p -> source_ok g' E' x p.
Proof.
  intros Hx ((sb & k & Hp & Hd) & Hr & Hc). unfold source_ok.
  destruct (gext_ne x (not_new _ _ _ Hx)) as (_ & _ & -> & _ & _ & -> & _).
  destruct (gext_ne p (not_new _ _ _ Hp)) as (_ & _ & _ & _ & _ & -> & ->).
  split_and!; [|done|].
  - apply ext_some in Hp as (_ & m' & Hp & _). by exists sb, m'.
  - rewrite decide_False; [done|]. intros ->. by rewrite (Hsrc p) in Hc.
Qed.

Lemma block_inv_ext x b' m :
  E x = Some (b', m) -> block_inv g E x b' -> block_inv g' E' x b'.
Proof.
  intros Hx Hb. pose proof (gext_ne x (not_new _ _ _ Hx)) as (Ex1 & Ex2 & Ex3 & Ex4 & Ex5 & Ex6 & _).
  assert (Hpe : forall p, prev_ok g E x p -> gbal g' p = gbal g p /\ grep g' p = grep g p).
  { intros p ((pb & Hp) & _).
    by destruct (gext_ne p (not_new _ _ _ Hp)) as (-> & _ & _ & -> & _). }
  assert (Hse : forall p, source_ok g E x p -> gamt g' p = gamt g p).
  { intros p ((sb & k & Hp & _) & _).
    by destruct (gext_ne p (not_new _ _ _ Hp)) as (_ & -> & _). }
  destruct b' as [b'|b'|b'|b'|b']; cbn [block_inv] in *; rewrite ?Ex1, ?Ex2, ?Ex3, ?Ex4, ?Ex5.
  - destruct Hb as (Hp & Hrest). destruct (Hpe _ Hp) as [-> ->].
    split; [by eapply prev_ok_ext|done].
  - done.
  - destruct Hb as (Hp & Hrep & Hs & Hbal). destruct (Hpe _ Hp) as [-> ->].
    rewrite (Hse _ Hs). split_and!; [by eapply prev_ok_ext|done|by eapply source_ok_ext|done].
  - destruct Hb as (Ha & Hrep & Hh & Hcase). split_and!; [done..|].
    destruct Hcase as [?|[Hs Hbal]]; [by left|right].
    rewrite (Hse _ Hs). split; [by eapply source_ok_ext|done].
  - destruct Hb as (Hp & Hrest). destruct (Hpe _ Hp) as [-> _].
    split; [by eapply prev_ok_ext|done].
Qed.

Lemma entry_inv_ext x b' m m' :
  E x = Some (b', m) -> E' x = Some (b', m') -> entry_inv (S n) g' E' x b' m'.
Proof.
  intros Hx Hx'. pose proof (ci_entry _ _ _ C _ _ _ Hx) as [Hh Hr Hf Hrk Hhe Ho Hb Hrep Hs].
  pose proof (gext_ne x (not_new _ _ _ Hx)) as (Ex1 & _ & Ex3 & Ex4 & Ex5 & Ex6 & _).
  split; rewrite ?Ex1, ?Ex3, ?Ex4, ?Ex5, ?Ex6; try done.
  - lia.
  - by eapply block_inv_ext.
  - destruct Hrep as (rb & k & Hrb & Hok). apply ext_some in Hrb as (_ & k' & Hrb & _). eauto.
  - apply ext_inv in Hx' as [(-> & _)|(_ & m0 & Hm0 & [(-> & ->)|(_ & ->)])]; [congruence| |].
    + right. exists b, 0. split; [apply ext_new|done].
    + assert (m0 = m) as -> by congruence. destruct Hs as [|(sb & k & Hs & Hp)]; [by left|].
      right. apply ext_some in Hs as (_ & k' & Hs & _). eauto.
Qed.

(** *** The new block *)

Lemma prev_ok_new pb :
  E (previous b) = Some (pb, 0) -> height = gheight g (previous b) + 1 ->
  prev_ok g' E' h (previous b).
Proof.
  intros Hp Hh. pose proof (Hprev _ _ Hp) as [_ Ho].
  pose proof (ei_rank _ _ _ _ _ _ (ci_entry _ _ _ C _ _ _ Hp)).
  destruct (gext_ne _ (not_new _ _ _ Hp)) as (_ & _ & Eo & _ & Eh & Er & _). unfold prev_ok.
  rewrite Eo, Eh, Er. cbn. rewrite !upd_eq. split_and!; try done.
  exists pb. rewrite HE. unfold ext_entries.
  rewrite decide_False by exact (not_new _ _ _ Hp). by rewrite Hp, decide_True.
Qed.

Lemma source_ok_new x sb m :
  E x = Some (Send sb, m) -> sh_destination (send_h sb) = own -> src = Some x ->
  source_ok g' E' h x /\ gamt g' x = gamt g x.
Proof.
  intros Hx Hd Hs. pose proof (ei_rank _ _ _ _ _ _ (ci_entry _ _ _ C _ _ _ Hx)).
  destruct (gext_ne _ (not_new _ _ _ Hx)) as (_ & Ea & _ & _ & _ & Er & Ec).
  split; [|done]. unfold source_ok. rewrite Er, Ec, decide_True by done. cbn. rewrite !upd_eq.
  split_and!; [|done|done]. apply ext_some in Hx as (_ & m' & Hx & _). by exists sb, m'.
Qed.

Lemma chain_inv_ext :
  block_inv g' E' h b -> (exists rb k, E' rep = Some (rb, k) /\ rep_ok rb) -> chain_inv (S n) g' E'.
Proof.
  intros Hb Hrep. split.
  - intros x b' m' Hx. pose proof Hx as Hx0.
    apply ext_inv in Hx0 as [(-> & -> & ->)|(_ & m & Hm & _)]; [|by eapply entry_inv_ext].
    split; try done; cbn; rewrite ?upd_eq; try done; [lia|by left].
  - intros x1 x2 [H1|[[b1 m1] H1]]%ext_is_some [H2|[[b2 m2] H2]]%ext_is_some; [congruence|..].
    + destruct (gext_ne _ (not_new _ _ _ H2)) as (_ & _ & -> & _ & -> & _). subst x1. cbn.
      rewrite !upd_eq. intros Ho Hh. destruct (Hown _ _ _ H2); [done|lia].
    + destruct (gext_ne _ (not_new _ _ _ H1)) as (_ & _ & -> & _ & -> & _). subst x2. cbn.
      rewrite !upd_eq. intros Ho Hh. destruct (Hown _ _ _ H1); [done|lia].
    + destruct (gext_ne _ (not_new _ _ _ H1)) as (_ & _ & -> & _ & -> & _).
      destruct (gext_ne _ (not_new _ _ _ H2)) as (_ & _ & -> & _ & -> & _).
      eapply ci_uniq; [done|by eexists..].
Qed.

(** *** Accounts and frontiers *)

Context {A : gmap Z account_info} {F : gmap Z account} (AI : accounts_inv g E A F).

Lemma head_not_prev a i : A !! a = Some i -> a <> own -> head i <> previous b.
Proof.
  intros Hi Ha Hh. apply (ai_account _ _ _ _ AI) in Hi as [_ [hb Hb] Ho _ _ _ _].
  rewrite Hh in Hb, Ho. apply Hprev in Hb as [_ Ho']. congruence.
Qed.

Lemma head_not_new a i : A !! a = Some i -> head i <> h.
Proof.
  intros Hi. apply (ai_account _ _ _ _ AI) in Hi as [_ [hb Hb] _ _ _ _ _]. by eapply not_new.
Qed.

Lemma own_head i : A !! own = Some i -> head i = previous b.
Proof.
  intros Hi. apply (ai_account _ _ _ _ AI) in Hi as [_ [hb Hb] Ho _ _ _ _].
  by apply (Hown _ _ _ Hb).
Qed.

Lemma account_inv_ext a i : A !! a = Some i -> a <> own -> account_inv g' E' a i.
Proof.
  intros Hi Ha. pose proof (head_not_prev _ _ Hi Ha) as Hnp.
  apply (ai_account _ _ _ _ AI) in Hi as [Hz [hb Hb] Ho Hbal Hc Hr (ob & m & Hob & Hoa)].
  destruct (gext_ne _ (not_new _ _ _ Hb)) as (Eb & _ & Eo & Er & Eh & _).
  split; rewrite ?Eb, ?Eo, ?Er, ?Eh; try done.
  - apply ext_some in Hb as (_ & m' & Hb & Hm). rewrite Hm in Hb by done. eauto.
  - apply ext_some in Hob as (_ & m' & Hob & _). eauto.
Qed.

Lemma accounts_inv_ext i' A' F' :
  A' = <[own := i']> A -> F' = <[h := own]> (delete (previous b) F) ->
  head i' = h -> account_inv g' E' own i' -> accounts_inv g' E' A' F'.
Proof.
  intros -> -> Hh Hi'. split.
  - intros a i. rewrite lookup_insert. case_decide as Ha; [naive_solver|].
    intros Hi. eapply account_inv_ext; [done|congruence].
  - intros x b' m' Hx. apply ext_inv in Hx as [(-> & -> & ->)|(Hne & m & Hx & Hm)].
    + exists i'. cbn. rewrite !upd_eq, Hh, upd_eq, lookup_insert_eq. split_and!; [done|lia|done].
    + destruct (gext_ne x Hne) as (_ & _ & -> & _ & -> & _).
      destruct (decide (gown g x = own)) as [Ho|Ho].
      * exists i'. rewrite Ho, lookup_insert_eq, Hh. cbn. rewrite upd_eq.
        destruct (Hown _ _ _ Hx Ho) as [Hlt Hz]. split_and!; [done|lia|]. intros ->. exfalso.
        destruct Hm as [(_ & Hm)|(Hnp & Hm)]; [|naive_solver]. apply Hres. by left.
      * destruct (ai_owner _ _ _ _ AI _ _ _ Hx) as (i & Hi & Hle & Hz).
        exists i. rewrite lookup_insert_ne by congruence.
        pose proof (head_not_new _ _ Hi) as Hn. cbn. rewrite upd_ne by done.
        split_and!; [done|done|]. intros ->.
        destruct Hm as [(_ & Hm)|(_ & Hm)]; [exfalso; apply Hres; by left|auto].
  - intros x a. rewrite lookup_insert. case_decide as Hx; [subst x|].
    + split.
      * intros [= <-]. exists i'. by rewrite lookup_insert_eq.
      * intros (i & Hi & Hhi). rewrite lookup_insert in Hi. case_decide; [congruence|].
        by destruct (head_not_new _ _ Hi).
    + rewrite lookup_delete. case_decide as Hp.
      * subst x. split; [done|]. intros (i & Hi & Hhi). rewrite lookup_insert in Hi.
        case_decide; [congruence|]. by destruct (head_not_prev _ _ Hi); [congruence|].
      * rewrite (ai_frontier _ _ _ _ AI). split; intros (i & Hi & Hhi); exists i; (split; [|done]).
        -- destruct (decide (a = own)) as [->|]; [|by rewrite lookup_insert_ne].
           apply own_head in Hi. congruence.
        -- rewrite lookup_insert in Hi. case_decide; congruence.
Qed.

(** *** Pending sends *)

Lemma pending_inv_ext (P P' : gmap (Z * Z) pending_info) :
  pending_inv g E P ->
  (forall x, src = Some x -> source b = x) ->
  (forall d x, P' !! (d, x) =
     if decide (x = h) then new_pending b own amt d
     else if decide (src = Some x) then None else P !! (d, x)) ->
  pending_inv g' E' P'.
Proof.
  intros PI Hsb HP. split.
  - intros d x i. rewrite HP. case_decide as Hx; [subst x|].
    + intros (sb & Hb & <- & ->)%new_pending_inv.
      exists sb, 0. rewrite ext_new, Hb. cbn. by rewrite !upd_eq.
    + case_decide as Hs; [done|]. intros (sb & m & Hm & Hd & -> & Hr)%(pi_entry _ _ _ PI).
      destruct (gext_ne x Hx) as (_ & -> & -> & _ & _ & _ & ->).
      apply ext_some in Hm as (_ & m' & Hm & _). exists sb, m'. by rewrite decide_False.
  - intros x sb m' Hx. apply ext_inv in Hx as [(-> & Hb & ->)|(Hne & m & Hx & Hm)].
    + cbn. rewrite !upd_eq, HP, decide_True by done. rewrite <- Hb. cbn. by rewrite decide_True.
    + destruct (gext_ne x Hne) as (_ & -> & -> & _ & _ & _ & ->). case_decide as Hs.
      * exists b, 0. split; [apply ext_new|auto].
      * rewrite HP, decide_False, decide_False by done.
        pose proof (pi_send _ _ _ PI _ _ _ Hx) as Hsend.
        destruct (grecv g x) as [r|]; [|done].
        destruct Hsend as (rb & k & Hr & Hrs). apply ext_some in Hr as (_ & k' & Hr & _). eauto.
Qed.

(** *** Block information *)

Lemma info_inv_ext (J J' : gmap Z block_info) :
  info_inv g E J ->
  J' = (if height mod block_info_max =? 0 then <[h := BlockInfo own bal]> J else J) ->
  info_inv g' E' J'.
Proof.
  intros IJ -> x. destruct (decide (x = h)) as [->|Hne].
  - cbn. rewrite !upd_eq. destruct (height mod block_info_max =? 0) eqn:Hm.
    + apply Z.eqb_eq in Hm. rewrite lookup_insert_eq, decide_True; [done|].
      split; [apply ext_is_some; by left|done].
    + apply Z.eqb_neq in Hm. rewrite (IJ h), !decide_False; [done|naive_solver|].
      rewrite Hfresh. intros [[? ?] _]. done.
  - assert (Hl : (if height mod block_info_max =? 0 then <[h := BlockInfo own bal]> J else J) !! x = J !! x)
      by (case_match; [by rewrite lookup_insert_ne|done]).
    rewrite Hl, IJ. destruct (gext_ne x Hne) as (-> & _ & -> & _ & -> & _).
    apply decide_ext. rewrite ext_is_some. naive_solver.
Qed.

(** *** Weights *)

Lemma repr_ext x : is_Some (E x) -> repr E' x = repr E x.
Proof.
  intros [[b' m] Hx]. unfold repr. rewrite Hx. by apply ext_some in Hx as (_ & m' & -> & _).
Qed.

Lemma rep_block_entry a i : A !! a = Some i -> is_Some (E (rep_block i)).
Proof.
  intros Hi. apply (ai_account _ _ _ _ AI) in Hi as [_ [hb Hb] _ _ _ -> _].
  destruct (ei_rep _ _ _ _ _ _ (ci_entry _ _ _ C _ _ _ Hb)) as (rb & k & Hr & _). by eexists.
Qed.

Lemma weight_of_ext r : weight_of E' A r = weight_of E A r.
Proof. apply msum_ext. intros a i Hi%rep_block_entry. by rewrite repr_ext. Qed.

End Extend.
