(* ===== verification/LedgerShrink.v ===== *)
(** * Removing the last block of a chain keeps the invariant

    The counterpart of [LedgerExtend] for rollback: the tables after the head
    of an account was taken away are described by [cut_entries] and [gcut]. *)
From Stdlib Require Import ZArith Lia List.
From stdpp Require Import prelude gmap.
From S2P Require Import Prelude Numbers Streams Blocks Store Ledger StoreFacts LedgerInv.

(** The blocks and successors after [b] was removed from the end of its chain. *)
Definition cut_entries (E : Z -> option entry) (b : block) (x : Z) : option entry :=
  if decide (x = hash b) then None
  else match E x with
       | Some (b', m) => Some (b', if decide (x = previous b) then 0 else m)
       | None => None
       end.

(** The send block that is no longer received. *)
Definition gcut (g : ghost) (src : option Z) : ghost := {|
  gbal := gbal g; gamt := gamt g; gown := gown g; grep := grep g;
  gheight := gheight g; grank := grank g;
  grecv := fun x => if decide (src = Some x) then None else grecv g x
|}.

Section Chains.
Context `{Environment} {n : nat} {g : ghost} {E : Z -> option entry} (C : chain_inv n g E).

(** The block that names the representative is in the same chain. *)
Lemma rep_in_chain x :
  is_Some (E x) -> gown g (grep g x) = gown g x /\ gheight g (grep g x) <= gheight g x.
Proof.
  remember (grank g x) as r eqn:Hr. revert x Hr. induction (lt_wf r) as [r _ IH].
  intros x -> [[b m] Hx]. pose proof (ei_block _ _ _ _ _ _ (ci_entry _ _ _ C _ _ _ Hx)) as Hb.
  assert (Hprev : forall p, prev_ok g E x p -> grep g x = grep g p ->
            gown g (grep g x) = gown g x /\ gheight g (grep g x) <= gheight g x).
  { intros p ((pb & Hp) & Ho & Hh & Hr) ->.
    destruct (IH _ Hr _ eq_refl (ex_intro _ _ Hp)) as [IHo IHh]. rewrite IHo. split; [done|lia]. }
  destruct b as [b|b|b|b|b]; cbn [block_inv] in Hb.
  - destruct Hb as (Hp & Hg & _). by apply (Hprev _ Hp).
  - destruct Hb.
  - destruct Hb as (Hp & Hg & _). by apply (Hprev _ Hp).
  - destruct Hb as (_ & -> & _). split; [done|lia].
  - destruct Hb as (_ & -> & _). split; [done|lia].
Qed.
End Chains.

Section Shrink.
Context `{Environment} {n : nat} {g : ghost} {E E' : Z -> option entry} {b : block} {src : option Z}.
Let h := hash b.
Let g' := gcut g src.
Context (C : chain_inv n g E) (Hh : E h = Some (b, 0)).
Context (HE : forall x, E' x = cut_entries E b x).
(** [src] is what [b] receives; [b] itself was not received. *)
Context (Hsrc : forall x, src = Some x -> grecv g x = Some h).
Context (Hnot : forall x, source_ok g E x h -> False).
(** [b] is the highest block of its owner. *)
Context (Htop : forall x, is_Some (E x) -> gown g x = gown g h -> gheight g x <= gheight g h).

Lemma cut_some x b' m : E x = Some (b', m) -> x <> h -> exists m', E' x = Some (b', m') /\ (x <> previous b -> m' = m).
Proof.
  intros Hx Hne. rewrite HE. unfold cut_entries. rewrite decide_False by done. rewrite Hx.
  eexists; split; [done|]. intros. by rewrite decide_False.
Qed.

Lemma cut_inv x b' m' :
  E' x = Some (b', m') ->
  x <> h /\ exists m, E x = Some (b', m) /\ (x = previous b /\ m' = 0 \/ x <> previous b /\ m' = m).
Proof.
  rewrite HE. unfold cut_entries. case_decide; [done|]. split; [done|].
  destruct (E x) as [[b0 m]|]; [|done]. case_decide; naive_solver.
Qed.

Lemma cut_is_some x : is_Some (E' x) <-> x <> h /\ is_Some (E x).
Proof.
  split.
  - intros [[b' m'] Hx]. apply cut_inv in Hx as (Hne & m & Hm & _). split; [done|by eexists].
  - intros [Hne [[b' m] Hx]]. destruct (cut_some _ _ _ Hx Hne) as (m' & Hm & _). by eexists.
Qed.

(** The block before [b] has [b] as its successor. *)
Lemma cut_prev pb m : E (previous b) = Some (pb, m) -> m = h.
Proof.
  intros Hp. pose proof (ci_entry _ _ _ C _ _ _ Hh) as [Hhash Hres _ _ _ _ Hb _ _].
  destruct (is_open b) eqn:Ho.
  - exfalso. pose proof (ci_entry _ _ _ C _ _ _ Hp) as [_ Hr _ _ _ _ _ _ _].
    apply Hr. left. by apply open_previous.
  - destruct (block_inv_prev _ _ _ Hb Ho) as ((pb' & Hp') & _). congruence.
Qed.

Lemma rep_not_cut x : is_Some (E x) -> x <> h -> grep g x <> h.
Proof.
  intros Hx Hne Hr. destruct (rep_in_chain C x Hx) as [Ho Hle]. rewrite Hr in *.
  apply Hne. apply (ci_uniq _ _ _ C); [done|by eexists|done|].
  pose proof (Htop x Hx (eq_sym Ho)). lia.
Qed.

Lemma prev_ok_cut x b' m p : x <> h -> E x = Some (b', m) -> prev_ok g E x p -> prev_ok g' E' x p.
Proof.
  intros Hne Hx ((pb & Hp) & Hrest). split; [|done].
  assert (p <> h).
  { intros ->. rewrite Hh in Hp. injection Hp as _ Hm.
    apply (ei_reserved _ _ _ _ _ _ (ci_entry _ _ _ C _ _ _ Hx)). by left. }
  destruct (cut_some _ _ _ Hp) as (m' & Hp' & Hm); [done|]. exists pb. rewrite Hp', Hm; [done|].
  intros ->. apply cut_prev in Hp. congruence.
Qed.

Lemma source_ok_cut x p : x <> h -> source_ok g E x p -> source_ok g' E' x p.
Proof.
  intros Hne Hs. pose proof Hs as ((sb & k & Hp & Hd) & Hr & Hc).
  assert (p <> h) by (intros ->; by apply (Hnot x)).
  split_and!; [|done|].
  - destruct (cut_some _ _ _ Hp) as (m' & Hp' & _); [done|]. by exists sb, m'.
  - cbn. rewrite decide_False; [done|]. intros ->. rewrite (Hsrc p) in Hc by done. congruence.
Qed.

Lemma chain_inv_cut : chain_inv n g' E'.
Proof.
  split.
  - intros x b' m' Hx'. pose proof Hx' as (Hne & m & Hx & Hm)%cut_inv.
    pose proof (ci_entry _ _ _ C _ _ _ Hx) as [Hhash Hr Hf Hrk Hhe Ho Hb Hrep Hs]. split; try done.
    + destruct b' as [b'|b'|b'|b'|b']; cbn [block_inv] in *.
      * destruct Hb as (Hp & Hrest). split; [by eapply prev_ok_cut|done].
      * done.
      * destruct Hb as (Hp & Hg & Hso & Hbal). split_and!; [by eapply prev_ok_cut|done|by apply source_ok_cut|done].
      * destruct Hb as (Ha & Hg & H1 & Hc). split_and!; [done..|].
        destruct Hc as [?|[Hso ?]]; [by left|right]. split; [by apply source_ok_cut|done].
      * destruct Hb as (Hp & Hrest). split; [by eapply prev_ok_cut|done].
    + destruct Hrep as (rb & k & Hrb & Hok). destruct (cut_some _ _ _ Hrb) as (k' & Hrb' & _); [|eauto].
      by apply (rep_not_cut x); [by eexists|].
    + destruct Hm as [[_ ->]|[Hnp ->]]; [by left|]. destruct Hs as [|(sb & k & Hsb & Hp)]; [by left|].
      right. assert (m <> h) as Hmh by (intros ->; rewrite Hh in Hsb; congruence).
      destruct (cut_some _ _ _ Hsb Hmh) as (k' & Hsb' & _). eauto.
  - intros x1 x2 [_ H1]%cut_is_some [_ H2]%cut_is_some. by apply (ci_uniq _ _ _ C).
Qed.

(** *** Accounts and frontiers *)

Context {A : gmap Z account_info} {F : gmap Z account} (AI : accounts_inv g E A F).
Context {i0 : account_info} (Hi0 : A !! gown g h = Some i0) (Hhead : head i0 = h).

Lemma account_inv_cut a i : A !! a = Some i -> a <> gown g h -> account_inv g' E' a i.
Proof.
  intros Hi Ha. apply (ai_account _ _ _ _ AI) in Hi as [Hz [hb Hb] Ho Hbal Hc Hr (ob & m & Hob & Hoa)].
  assert (head i <> h) as Hne by congruence. split; try done.
  - destruct (cut_some _ _ _ Hb Hne) as (m' & Hb' & Hm). exists hb. rewrite Hb', Hm; [done|].
    intros Hp. rewrite Hp in Hb. apply cut_prev in Hb as Hc0.
    apply (ei_reserved _ _ _ _ _ _ (ci_entry _ _ _ C _ _ _ Hh)). by left.
  - destruct (cut_some _ _ _ Hob) as (m' & Hob' & _); [|eauto].
    intros Hc0. rewrite Hc0, Hh in Hob. injection Hob as Hbo _.
    pose proof (ei_block _ _ _ _ _ _ (ci_entry _ _ _ C _ _ _ Hh)) as Hbl. rewrite Hbo in Hbl.
    destruct Hbl as (Hac & _). congruence.
Qed.

(** Another account's head is not the block that was cut. *)
Lemma head_not_cut a i : A !! a = Some i -> a <> gown g h -> head i <> h.
Proof. intros Hi Ha Hc. apply (ai_account _ _ _ _ AI) in Hi as [_ _ Ho _ _ _ _]. congruence. Qed.

(** An account loses its last block but has others. *)
Lemma accounts_inv_cut i' A' F' pb :
  E (previous b) = Some (pb, h) -> gown g (previous b) = gown g h ->
  gheight g h = gheight g (previous b) + 1 ->
  A' = <[gown g h := i']> A -> F' = <[previous b := gown g h]> (delete h F) ->
  head i' = previous b -> account_inv g' E' (gown g h) i' -> accounts_inv g' E' A' F'.
Proof.
  intros Hp Hpo Hph -> -> Hhi Hi'. split.
  - intros a i. rewrite lookup_insert. case_decide as Ha; [naive_solver|].
    intros Hi. eapply account_inv_cut; [done|congruence].
  - intros x b' m' Hx. apply cut_inv in Hx as (Hne & m & Hx & Hm). cbn.
    destruct (ai_owner _ _ _ _ AI _ _ _ Hx) as (i & Hi & Hle & Hz).
    destruct (decide (gown g x = gown g h)) as [Ho|Ho].
    + exists i'. rewrite Ho, lookup_insert_eq, Hhi. split_and!; [done|..].
      * enough (gheight g x <> gheight g h) by (pose proof (Htop x (ex_intro _ _ Hx) Ho); lia).
        intros Hc. apply Hne. apply (ci_uniq _ _ _ C); [by eexists..|done|done].
      * intros ->. destruct Hm as [[? _]|[_ <-]]; [done|]. rewrite Ho, Hi0 in Hi.
        injection Hi as <-. specialize (Hz eq_refl). congruence.
    + exists i. rewrite lookup_insert_ne by congruence. split_and!; [done|done|].
      intros ->. destruct Hm as [[-> _]|[_ <-]]; [congruence|auto].
  - intros x a. rewrite lookup_insert. case_decide as Hx; [subst x|].
    + split.
      * intros [= <-]. exists i'. by rewrite lookup_insert_eq.
      * intros (i & Hi & Hhd). rewrite lookup_insert in Hi. case_decide; [congruence|].
        apply (ai_account _ _ _ _ AI) in Hi as [_ _ Ho _ _ _ _]. rewrite Hhd in Ho. congruence.
    + rewrite lookup_delete. case_decide as Hxh.
      * subst x. split; [done|]. intros (i & Hi & Hhd). rewrite lookup_insert in Hi.
        case_decide; [congruence|]. by destruct (head_not_cut _ _ Hi); [congruence|].
      * rewrite (ai_frontier _ _ _ _ AI). split; intros (i & Hi & Hhd); exists i; (split; [|done]).
        -- destruct (decide (a = gown g h)) as [->|]; [congruence|by rewrite lookup_insert_ne].
        -- rewrite lookup_insert in Hi. case_decide; congruence.
Qed.

(** An account loses its only block. *)
Lemma accounts_inv_cut_open A' F' :
  gheight g h = 1 -> A' = delete (gown g h) A -> F' = delete h F -> previous b = 0 ->
  accounts_inv g' E' A' F'.
Proof.
  intros H1 -> -> Hp0. split.
  - intros a i [Ha Hi]%lookup_delete_Some. eapply account_inv_cut; [done|congruence].
  - intros x b' m' Hx. apply cut_inv in Hx as (Hne & m & Hx & Hm). cbn.
    destruct (ai_owner _ _ _ _ AI _ _ _ Hx) as (i & Hi & Hle & Hz).
    assert (gown g x <> gown g h) as Ho.
    { intros Ho. apply Hne. apply (ci_uniq _ _ _ C); [by eexists..|done|].
      pose proof (Htop x (ex_intro _ _ Hx) Ho).
      pose proof (ei_height _ _ _ _ _ _ (ci_entry _ _ _ C _ _ _ Hx)). lia. }
    exists i. rewrite lookup_delete_ne by congruence. split_and!; [done|done|].
    intros ->. destruct Hm as [[-> _]|[_ <-]]; [|auto]. rewrite Hp0 in Hx.
    destruct (ei_reserved _ _ _ _ _ _ (ci_entry _ _ _ C _ _ _ Hx)). by left.
  - intros x a. rewrite lookup_delete. case_decide as Hxh.
    + subst x. split; [done|]. intros (i & [Ha Hi]%lookup_delete_Some & Hhd).
      by destruct (head_not_cut _ _ Hi); [congruence|].
    + rewrite (ai_frontier _ _ _ _ AI). split; intros (i & Hi & Hhd); exists i; (split; [|done]).
      * apply lookup_delete_Some. split; [|done]. congruence.
      * by apply lookup_delete_Some in Hi as [_ ?].
Qed.

(** *** Pending sends, block information and weights *)

Lemma pending_inv_cut (P P' : gmap (Z * Z) pending_info) :
  pending_inv g E P ->
  (forall x, src = Some x -> x <> h /\ exists sb m, E x = Some (Send sb, m)) ->
  (forall r x, E x = Some (b, r) -> source b <> 0 -> src = Some (source b) \/ ~ is_Some (E (source b))) ->
  (forall d x, P' !! (d, x) =
     if decide (x = h) then None
     else match E x with
          | Some (Send sb, _) =>
              if decide (src = Some x) then
                if decide (d = sh_destination (send_h sb)) then Some (PendingInfo (gown g x) (gamt g x)) else None
              else P !! (d, x)
          | _ => None
          end) ->
  pending_inv g' E' P'.
Proof.
  intros PI Hsx Hsb HP. split.
  - intros d x i. rewrite HP. case_decide as Hx; [done|].
    destruct (E x) as [[[sb| | | |] m]|] eqn:Hex; try done.
    destruct (cut_some _ _ _ Hex Hx) as (m' & Hm' & _). case_decide as Hs.
    + case_decide; [|done]. intros [= <-]. exists sb, m'. cbn. by rewrite decide_True.
    + intros (sb' & k & Hk & Hd & -> & Hrc)%(pi_entry _ _ _ PI). exists sb', m'.
      cbn. rewrite decide_False by done. split_and!; [congruence|done|done|done].
  - intros x sb m' Hx. apply cut_inv in Hx as (Hne & m & Hx & _). cbn. case_decide as Hs.
    + rewrite HP, decide_False by done. rewrite Hx, !decide_True by done. done.
    + pose proof (pi_send _ _ _ PI _ _ _ Hx) as Hsend. destruct (grecv g x) as [r|] eqn:Hr.
      * destruct Hsend as (rb & k & Hrb & Hrs).
        destruct (decide (r = h)) as [->|Hrh].
        -- exfalso. rewrite Hh in Hrb. injection Hrb as <- <-.
           assert (x <> 0).
           { intros ->. apply (ei_reserved _ _ _ _ _ _ (ci_entry _ _ _ C _ _ _ Hx)). by left. }
           destruct (Hsb _ _ Hh) as [Hc|Hc]; [congruence|congruence|].
           apply Hc. rewrite Hrs. by eexists.
        -- destruct (cut_some _ _ _ Hrb Hrh) as (k' & Hrb' & _). eauto.
      * rewrite HP, decide_False by done. by rewrite Hx, decide_False.
Qed.

Lemma info_inv_cut (J J' : gmap Z block_info) :
  info_inv g E J ->
  (forall x, J' !! x = if decide (x = h) then None else J !! x) ->
  info_inv g' E' J'.
Proof.
  intros IJ HJ x. rewrite HJ. case_decide as Hx.
  - subst x. rewrite decide_False; [done|]. intros [Hc%cut_is_some _]. naive_solver.
  - rewrite IJ. apply decide_ext. rewrite cut_is_some. naive_solver.
Qed.

Lemma repr_cut x : is_Some (E x) -> x <> h -> repr E' x = repr E x.
Proof.
  intros [[b' m] Hx] Hne. unfold repr. rewrite Hx. by destruct (cut_some _ _ _ Hx Hne) as (m' & -> & _).
Qed.

Lemma weight_of_cut r : weight_of E' (delete (gown g h) A) r = weight_of E (delete (gown g h) A) r.
Proof.
  apply msum_ext. intros a i [Ha Hi]%lookup_delete_Some.
  pose proof (head_not_cut _ _ Hi (not_eq_sym Ha)) as Hnh.
  apply (ai_account _ _ _ _ AI) in Hi as [_ [hb Hb] _ _ _ -> _].
  rewrite repr_cut; [done| |by apply rep_not_cut; [eexists|]].
  destruct (ei_rep _ _ _ _ _ _ (ci_entry _ _ _ C _ _ _ Hb)) as (rb & k & Hr & _). by eexists.
Qed.
End Shrink.
