(* ===== verification/LedgerProcess.v ===== *)
(** * Processing a block keeps the ledger correct

    Every handler of [ledger_processor] is run on a ledger that satisfies the
    invariant: it ends without a failed assertion, leaves the tables untouched
    when it rejects the block, and re-establishes the invariant when it accepts
    it. *)
From Stdlib Require Import ZArith Lia List.
From stdpp Require Import prelude gmap.
From S2P Require Import Prelude Numbers Streams Blocks Store Ledger StoreFacts LedgerInv LedgerQueries LedgerExtend.

(** ** Running the table operations *)

Lemma put_entry_frame t h e s :
  frontiers (put_entry t h e s) = frontiers s /\ accounts (put_entry t h e s) = accounts s
  /\ vm_codes (put_entry t h e s) = vm_codes s
  /\ pending (put_entry t h e s) = pending s /\ blocks_info (put_entry t h e s) = blocks_info s
  /\ representation (put_entry t h e s) = representation s
  /\ checksums (put_entry t h e s) = checksums s.
Proof. by destruct t. Qed.

Lemma put_linked_frame b p s :
  frontiers (put_linked b p s) = frontiers s /\ accounts (put_linked b p s) = accounts s
  /\ vm_codes (put_linked b p s) = vm_codes s
  /\ pending (put_linked b p s) = pending s /\ blocks_info (put_linked b p s) = blocks_info s
  /\ representation (put_linked b p s) = representation s
  /\ checksums (put_linked b p s) = checksums s.
Proof. unfold put_linked. by destruct (type p), (type b). Qed.

(** [representation_add] on a block that names a representative. *)
Lemma representation_add_run x rb k amt s :
  entry_at s x = Some (rb, k) -> representative rb <> 0 ->
  representation_add x amt s
  = Ok (tt, set_representation (insert (representative rb)
              (wrap 128 (representation_get s (representative rb) + amt))) s).
Proof.
  intros Hx Hr. unfold representation_add.
  erewrite st_bind_ok by (unfold st_get; by rewrite block_get_entry, Hx). cbn.
  rewrite st_assert_true by (by rewrite is_zero_ne). done.
Qed.

Section Run.
Context `{Environment}.

(** What [change_latest] leaves when the account gets the head [h]. *)
Definition latest_store (a h rep opened bal count c : Z) (s : store) : store :=
  set_checksums (insert 0 c)
    (set_blocks_info (fun m => if count mod block_info_max =? 0
                               then <[h := BlockInfo a bal]> m else m)
      (set_accounts (insert a (AccountInfo h rep opened bal seconds_since_epoch count)) s)).

Lemma checksum_update_run h c s :
  checksums s !! 0 = Some c ->
  checksum_update h s = Ok (tt, set_checksums (insert 0 (xor256 c h)) s).
Proof.
  intros Hc. unfold checksum_update.
  erewrite st_bind_ok by (unfold checksum_get; rewrite st_assert_true by done; unfold st_get;
                          change (checksum_key 0 0) with 0; by rewrite Hc).
  reflexivity.
Qed.

(** The writes of [change_latest] once the old head is out of the checksum. *)
Lemma change_latest_tail a h rep opened bal count c s :
  checksums s !! 0 = Some c ->
  (account_put a (AccountInfo h rep opened bal seconds_since_epoch count) ;;;
   (if count mod block_info_max =? 0 then block_info_put h (BlockInfo a bal) else st_ret tt) ;;;
   checksum_update h)%m s
  = Ok (tt, latest_store a h rep opened bal count (xor256 c h) s).
Proof.
  intros Hc. unfold latest_store. erewrite st_bind_ok by reflexivity.
  destruct (count mod block_info_max =? 0);
    erewrite st_bind_ok by reflexivity; by erewrite checksum_update_run.
Qed.

Lemma change_latest_run a h rep bal count i c s :
  accounts s !! a = Some i -> checksums s !! 0 = Some c -> h <> 0 ->
  change_latest a h rep bal count s
  = Ok (tt, latest_store a h rep (open_block_hash i) bal count (xor256 (xor256 c (head i)) h) s).
Proof.
  intros Hi Hc Hh. unfold change_latest. erewrite st_bind_ok by reflexivity.
  unfold account_get. rewrite Hi.
  erewrite st_bind_ok by (erewrite st_bind_ok by (by apply checksum_update_run); reflexivity).
  rewrite is_zero_ne by done. cbn [negb]. rewrite (change_latest_tail _ _ _ _ _ _ (xor256 c (head i))).
  - unfold latest_store. destruct s. cbv [set_checksums set_accounts set_blocks_info].
    cbn. by rewrite insert_insert_eq.
  - apply lookup_insert_eq.
Qed.

Lemma change_latest_open_run a h rep bal count c s :
  accounts s !! a = None -> checksums s !! 0 = Some c -> h <> 0 ->
  is_open_block (block_get s h) = true ->
  change_latest a h rep bal count s
  = Ok (tt, latest_store a h rep h bal count (xor256 c h) s).
Proof.
  intros Hi Hc Hh Ho. unfold change_latest. erewrite st_bind_ok by reflexivity.
  unfold account_get. rewrite Hi.
  erewrite st_bind_ok by (erewrite st_bind_ok by reflexivity; rewrite Ho; reflexivity).
  rewrite is_zero_ne by done. cbn [negb]. by apply change_latest_tail.
Qed.

End Run.

(** ** A block behind the head of an account *)

Section Linked.
Context `{Environment} {n : nat} {g : ghost} {s s' : store} (I : inv_with n g s).
Context {b : block} {a : account} {i0 : account_info} {bal amt rep : Z} {src : option Z}.
Context (Hi0 : accounts s !! a = Some i0) (Hhead : head i0 = previous b).
Context (Hfresh : entry_at s (hash b) = None) (Hres : ~ reserved (hash b)) (Hfit : fits 128 bal).
Let height := gheight g (previous b) + 1.
Let g' := gext g n (hash b) bal amt a rep height src.

Lemma linked_prev : exists pb, entry_at s (previous b) = Some (pb, 0) /\ gown g (previous b) = a.
Proof.
  pose proof (inv_head I _ _ Hi0) as [_ [hb Hb] Ho _ _ _ _]. rewrite Hhead in *. eauto.
Qed.

Lemma linked_height : 1 <= height.
Proof.
  destruct linked_prev as (pb & Hp & _). unfold height.
  pose proof (ei_height _ _ _ _ _ _ (inv_entry I _ _ _ Hp)). lia.
Qed.

Lemma linked_above x b' m :
  entry_at s x = Some (b', m) -> gown g x = a -> gheight g x < height /\ (m = 0 -> x = previous b).
Proof.
  intros Hx Ho. destruct (ai_owner _ _ _ _ (iv_accounts _ _ _ I) _ _ _ Hx) as (i & Hi & Hle & Hz).
  rewrite Ho in Hi. assert (i = i0) as -> by congruence. rewrite Hhead in *. unfold height.
  split; [lia|]. intros ->. symmetry. auto.
Qed.

Lemma linked_tail pb m :
  entry_at s (previous b) = Some (pb, m) -> m = 0 /\ gown g (previous b) = a.
Proof. destruct linked_prev as (pb' & Hp & Ho). rewrite Hp. naive_solver. Qed.

Lemma linked_own : a <> 0.
Proof. exact (ac_zero _ _ _ _ (inv_head I _ _ Hi0)). Qed.

Lemma linked_balance : balance_of i0 = gbal g (previous b).
Proof. rewrite <- Hhead. exact (ac_balance _ _ _ _ (inv_head I _ _ Hi0)). Qed.

Lemma linked_rep : rep_block i0 = grep g (previous b).
Proof. rewrite <- Hhead. exact (ac_rep _ _ _ _ (inv_head I _ _ Hi0)). Qed.

(** The block that names the representative of the account. *)
Lemma linked_rep_entry :
  exists rb k, entry_at s (rep_block i0) = Some (rb, k) /\ rep_ok rb /\ representative rb <> 0.
Proof.
  destruct linked_prev as (pb & Hp & _). rewrite linked_rep.
  destruct (ei_rep _ _ _ _ _ _ (inv_entry I _ _ _ Hp)) as (rb & k & Hr & Hok).
  exists rb, k. split_and!; try done. by destruct rb.
Qed.

Definition linked_info : account_info :=
  AccountInfo (hash b) rep (open_block_hash i0) bal seconds_since_epoch (wrap 64 (block_count i0 + 1)).

Lemma linked_count : wrap 64 (block_count i0 + 1) = wrap 64 height.
Proof.
  rewrite (ac_count _ _ _ _ (inv_head I _ _ Hi0)), Hhead. apply wrap_add_l.
Qed.

Context (HE : forall x, entry_at s' x = ext_entries (entry_at s) b x).
Context (Hsrc : forall x, src = Some x -> grecv g x = None /\ source b = x).

Lemma linked_account : account_inv g' (entry_at s') a linked_info.
Proof.
  split; cbn; rewrite ?upd_eq; try done.
  - exact linked_own.
  - eexists. exact (ext_new HE).
  - exact linked_count.
  - destruct (ac_open _ _ _ _ (inv_head I _ _ Hi0)) as (ob & m & Ho & Hoa).
    apply (ext_some HE Hfresh) in Ho as (_ & m' & Ho & _). eauto.
Qed.

(** The invariant after the block: what is left to show is what the new block
    says, and that money, weights and pending entries follow. *)
Lemma inv_linked :
  tables_disjoint s' -> tables_typed s' ->
  (prev_ok g' (entry_at s') (hash b) (previous b) ->
   gbal g' (previous b) = gbal g (previous b) -> grep g' (previous b) = grep g (previous b) ->
   block_inv g' (entry_at s') (hash b) b) ->
  (exists rb k, entry_at s' rep = Some (rb, k) /\ rep_ok rb) ->
  accounts s' = <[a := linked_info]> (accounts s) ->
  frontiers s' = <[hash b := a]> (delete (previous b) (frontiers s)) ->
  (forall d x, pending s' !! (d, x) =
     if decide (x = hash b) then new_pending b a amt d
     else if decide (src = Some x) then None else pending s !! (d, x)) ->
  total_pending (pending s') = total_pending (pending s) + balance_of i0 - bal ->
  blocks_info s' = (if wrap 64 (block_count i0 + 1) mod block_info_max =? 0
                    then <[hash b := BlockInfo a bal]> (blocks_info s) else blocks_info s) ->
  (forall r, representation_get s' r
     = representation_get s r - (if repr (entry_at s) (rep_block i0) =? r then balance_of i0 else 0)
       + (if repr (entry_at s') rep =? r then bal else 0)) ->
  (forall c, checksums s !! 0 = Some c ->
     checksums s' !! 0 = Some (xor256 (xor256 c (head i0)) (hash b))) ->
  inv_with (S n) g' s'.
Proof.
  intros Hd Ht Hb Hrep HA HF HP Hpt HJ HR HC.
  destruct linked_prev as (pb & Hp & Ho).
  pose proof (iv_chain _ _ _ I) as Ch. pose proof (iv_accounts _ _ _ I) as AI.
  assert (Hsrc1 : forall x, src = Some x -> grecv g x = None) by naive_solver.
  assert (Hsrc2 : forall x, src = Some x -> source b = x) by naive_solver.
  pose proof linked_tail as HT. pose proof linked_above as HAb. pose proof linked_own as Hown0.
  destruct (gext_ne (bal := bal) (amt := amt) (own := a) (rep := rep)
    (height := height) (src := src) (n := n) (g := g) (b := b) (previous b)) as (Eb & _ & _ & Er & _);
    [by eapply not_new|].
  split; [done|done|..].
  - eapply chain_inv_ext; try done; [exact linked_height|].
    apply Hb; [|done|done]. by eapply prev_ok_new.
  - exact (accounts_inv_ext HE Hfresh Hres Hown0 HT HAb AI _ _ _ HA HF eq_refl linked_account).
  - exact (pending_inv_ext HE Hfresh Hres HT HAb _ _ (iv_pending _ _ _ I) Hsrc2 HP).
  - apply (info_inv_ext HE Hfresh Hres HT HAb _ _ (iv_info _ _ _ I)). rewrite HJ, linked_count, wrap_mod_info. done.
  - unfold total_balance. rewrite HA, (msum_insert _ _ i0) by done. rewrite Hpt. cbn.
    pose proof (iv_total _ _ _ I). unfold total_balance in *. lia.
  - intros r. rewrite HR, (iv_weight _ _ _ I). unfold weight_of at 2. rewrite HA.
    rewrite (msum_insert _ _ i0) by done. cbn.
    rewrite (repr_ext HE Hfresh (rep_block i0))
      by (destruct linked_rep_entry as (rb & k & Hrb & _); by eexists).
    pose proof (weight_of_ext Ch HE Hfresh AI r) as Hw. unfold weight_of in *. lia.
  - rewrite (HC _ (iv_checksum _ _ _ I)). unfold checksum_of. rewrite HA.
    by rewrite (mxor_insert _ _ i0) by done.
Qed.
End Linked.

(** ** A block that starts the chain of an account *)

Section Opened.
Context `{Environment} {n : nat} {g : ghost} {s s' : store} (I : inv_with n g s).
Context {ob : open_block} {bal src : Z}.
Let b := Open ob.
Let a := oh_account (open_h ob).
Context (Hi0 : accounts s !! a = None) (Ha : a <> 0).
Context (Hfresh : entry_at s (hash b) = None) (Hres : ~ reserved (hash b)) (Hfit : fits 128 bal).
Let g' := gext g n (hash b) bal 0 a (hash b) 1 (Some src).

Lemma opened_above x b' m :
  entry_at s x = Some (b', m) -> gown g x = a -> gheight g x < 1 /\ (m = 0 -> x = previous b).
Proof.
  intros Hx Ho. destruct (ai_owner _ _ _ _ (iv_accounts _ _ _ I) _ _ _ Hx) as (i & Hi & _).
  congruence.
Qed.

Lemma opened_tail pb m :
  entry_at s (previous b) = Some (pb, m) -> m = 0 /\ gown g (previous b) = a.
Proof. cbn. by rewrite (zero_entry I). Qed.

Definition opened_info : account_info :=
  AccountInfo (hash b) (hash b) (hash b) bal seconds_since_epoch 1.

Context (HE : forall x, entry_at s' x = ext_entries (entry_at s) b x).
Context (Hsrc : grecv g src = None /\ oh_source (open_h ob) = src).

Lemma opened_account : account_inv g' (entry_at s') a opened_info.
Proof.
  split; cbn; rewrite ?upd_eq; try done.
  - eexists. exact (ext_new HE).
  - exists ob, 0. split; [exact (ext_new HE)|done].
Qed.

Lemma inv_opened :
  tables_disjoint s' -> tables_typed s' ->
  (block_inv g' (entry_at s') (hash b) b) -> rep_ok b ->
  accounts s' = <[a := opened_info]> (accounts s) ->
  frontiers s' = <[hash b := a]> (frontiers s) ->
  pending s' = delete (a, src) (pending s) ->
  total_pending (pending s') = total_pending (pending s) - bal ->
  (forall d, d <> a -> pending s !! (d, src) = None) ->
  blocks_info s' = blocks_info s ->
  (forall r, representation_get s' r
     = representation_get s r + (if representative b =? r then bal else 0)) ->
  (forall c, checksums s !! 0 = Some c -> checksums s' !! 0 = Some (xor256 c (hash b))) ->
  inv_with (S n) g' s'.
Proof.
  intros Hd Ht Hb Hrep HA HF HP Hpt Hpd HJ HR HC.
  pose proof (iv_chain _ _ _ I) as Ch. pose proof (iv_accounts _ _ _ I) as AI.
  assert (Hsrc1 : forall x, Some src = Some x -> grecv g x = None) by (intros x [= <-]; apply Hsrc).
  assert (Hsrc2 : forall x, Some src = Some x -> source b = x) by (intros x [= <-]; apply Hsrc).
  pose proof opened_tail as HT. pose proof opened_above as HAb.
  assert (HF' : frontiers s' = <[hash b := a]> (delete (previous b) (frontiers s))).
  { rewrite HF, delete_id; [done|]. cbn. destruct (frontiers s !! 0) as [x|] eqn:Hf; [|done].
    apply (ai_frontier _ _ _ _ AI) in Hf as (i & Hi & Hh).
    apply (inv_head I) in Hi as [_ [hb Hb'] _ _ _ _ _]. by rewrite Hh, (zero_entry I) in Hb'. }
  split; [done|done|..].
  - eapply (chain_inv_ext Ch HE Hfresh Hres Hfit Ha); try done.
    exists b, 0. split; [exact (ext_new HE)|done].
  - exact (accounts_inv_ext HE Hfresh Hres Ha HT HAb AI _ _ _ HA HF' eq_refl opened_account).
  - refine (pending_inv_ext HE Hfresh Hres HT HAb _ _ (iv_pending _ _ _ I) Hsrc2 _).
    intros d x. rewrite HP. change (new_pending b a 0 d) with (@None pending_info). case_decide as Hx.
    + subst x. rewrite lookup_delete. case_decide; [done|].
      destruct (pending s !! (d, hash b)) eqn:Hl; [|done].
      apply (pi_entry _ _ _ (iv_pending _ _ _ I)) in Hl as (sb & m & Hc & _). congruence.
    + case_decide as Hs.
      * injection Hs as <-. destruct (decide (d = a)) as [->|]; [apply lookup_delete_eq|].
        rewrite lookup_delete_ne by congruence. auto.
      * rewrite lookup_delete_ne; [done|]. congruence.
  - by apply (info_inv_ext HE Hfresh Hres HT HAb _ _ (iv_info _ _ _ I)).
  - unfold total_balance. rewrite HA, msum_insert_new by done. rewrite Hpt. cbn.
    pose proof (iv_total _ _ _ I). unfold total_balance in *. lia.
  - intros r. rewrite HR, (iv_weight _ _ _ I). unfold weight_of at 2. rewrite HA.
    rewrite msum_insert_new by done. cbn.
    assert (repr (entry_at s') (hash b) = representative b) as ->
      by (unfold repr; by rewrite (ext_new HE)).
    pose proof (weight_of_ext Ch HE Hfresh AI r) as Hw. unfold weight_of in *. cbn in *. lia.
  - rewrite (HC _ (iv_checksum _ _ _ I)). unfold checksum_of. rewrite HA.
    by rewrite mxor_insert_new by done.
Qed.
End Opened.

(** ** Weights do not wrap *)

Section Weights.
Context `{Environment} {n : nat} {g : ghost} {s : store} (I : inv_with n g s).

Lemma representation_get_insert k v s0 r :
  representation_get (set_representation (insert k v) s0) r
  = if decide (r = k) then v else representation_get s0 r.
Proof.
  unfold representation_get. cbn. destruct (decide (r = k)) as [->|].
  - by rewrite lookup_insert_eq.
  - by rewrite lookup_insert_ne.
Qed.

Lemma weight_has_balance a i :
  accounts s !! a = Some i ->
  balance_of i <= representation_get s (repr (entry_at s) (rep_block i)) <= genesis_amount.
Proof.
  intros Hi. rewrite (iv_weight _ _ _ I). split; [|apply (weight_of_bounds I)].
  unfold weight_of. etrans; [|eapply (msum_lookup _ a i); [|exact Hi]].
  - cbn. by rewrite Z.eqb_refl.
  - intros a' i' Hi'%(balance_nonneg I). case_match; lia.
Qed.

(** Receiving a pending amount stays within the supply. *)
Lemma weight_and_pending r k pi :
  pending s !! k = Some pi -> 0 <= representation_get s r /\
  representation_get s r + pi_amount pi <= genesis_amount.
Proof.
  intros Hk. rewrite (iv_weight _ _ _ I). pose proof (weight_of_bounds I r). split; [lia|].
  rewrite <- (iv_total _ _ _ I).
  pose proof (msum_lookup (fun _ i => pi_amount i) k pi (pending s) (amount_nonneg I) Hk).
  enough (weight_of (entry_at s) (accounts s) r <= total_balance (accounts s))
    by (unfold total_pending in *; simpl in *; lia).
  apply msum_le. intros a i Hi%(balance_nonneg I). case_match; lia.
Qed.

(** So does moving a balance to another representative. *)
Lemma weight_and_balance r a i :
  accounts s !! a = Some i -> repr (entry_at s) (rep_block i) <> r ->
  0 <= representation_get s r /\ representation_get s r + balance_of i <= genesis_amount.
Proof.
  intros Hi Hr. rewrite (iv_weight _ _ _ I). pose proof (weight_of_bounds I r). split; [lia|].
  rewrite <- (iv_total _ _ _ I). pose proof (total_pending_nonneg I).
  enough (weight_of (entry_at s) (accounts s) r + balance_of i <= total_balance (accounts s)) by lia.
  unfold weight_of, total_balance.
  pose proof (msum_delete (fun _ i => if repr (entry_at s) (rep_block i) =? r then balance_of i else 0) _ _ _ Hi) as D1.
  pose proof (msum_delete (fun _ i => balance_of i) _ _ _ Hi) as D2. cbn in D1, D2.
  rewrite (proj2 (Z.eqb_neq _ _) Hr) in D1.
  enough (msum (fun _ i => if repr (entry_at s) (rep_block i) =? r then balance_of i else 0)
            (delete a (accounts s)) <= msum (fun _ i => balance_of i) (delete a (accounts s))) by lia.
  apply msum_le. intros a' i' [_ Hi']%lookup_delete_Some. apply (balance_nonneg I) in Hi'. case_match; lia.
Qed.
End Weights.

(** ** The handlers *)

(** Blocks the theorems speak about: well formed, of the original four kinds,
    with a hash that is not reserved and a representative that is not zero. *)
Definition admissible `{Environment} (b : block) : Prop :=
  block_ok b /\ ~ reserved (hash b)
  /\ match b with
     | SendV2 _ => False
     | Open _ | Change _ => representative b <> 0
     | Send _ | Receive _ => True
     end.

Lemma put_linked_ext b p n s x :
  tables_disjoint s -> tables_typed s -> entry_at s (hash b) = None ->
  entry_at s (previous b) = Some (p, n) ->
  entry_at (put_linked b p s) x = ext_entries (entry_at s) b x.
Proof.
  intros Hd Ht Hf Hp. assert (previous b <> hash b) by congruence.
  erewrite put_linked_at; [|done|done|apply writable_fresh; [apply is_kind_type|done]|done|done].
  unfold ext_entries. case_decide as Hx.
  - subst x. rewrite decide_False by done. by rewrite Hp.
  - case_decide; [done|]. by destruct (entry_at s x) as [[? ?]|].
Qed.

Lemma block_put_linked b p n s :
  is_open b = false -> tables_disjoint s -> tables_typed s -> entry_at s (hash b) = None ->
  entry_at s (previous b) = Some (p, n) ->
  block_put (hash b) b 0 s = Ok (tt, put_linked b p s).
Proof.
  intros Ho Hd Ht Hf Hp. eapply put_linked_run; try done; [|congruence].
  apply writable_fresh; [apply is_kind_type|done].
Qed.

Lemma put_linked_tables b p n s :
  tables_disjoint s -> tables_typed s -> entry_at s (hash b) = None ->
  entry_at s (previous b) = Some (p, n) ->
  tables_disjoint (put_linked b p s) /\ tables_typed (put_linked b p s).
Proof.
  intros Hd Ht Hf Hp. eapply put_linked_wf; try done; [|congruence].
  apply writable_fresh; [apply is_kind_type|done].
Qed.

Lemma frontier_del_run h s :
  is_Some (frontiers s !! h) -> frontier_del h s = Ok (tt, set_frontiers (delete h) s).
Proof.
  intros Hh. unfold frontier_del. erewrite st_bind_ok by reflexivity.
  rewrite st_assert_true by (by apply bool_decide_eq_true). done.
Qed.

Lemma pending_del_run k s :
  is_Some (pending s !! k) -> pending_del k s = Ok (tt, set_pending (delete k) s).
Proof.
  intros Hh. unfold pending_del. erewrite st_bind_ok by reflexivity.
  rewrite st_assert_true by (by apply bool_decide_eq_true). done.
Qed.

(** The tables after a handler put [b] behind the head of the account [a];
    the handlers differ in what they do to pending entries and weights. *)
Definition linked_store `{Environment} (b pb : block) (a : account) (i : account_info) (rep bal c : Z)
    (fp : gmap (Z * Z) pending_info -> gmap (Z * Z) pending_info) (fr : gmap Z Z -> gmap Z Z)
    (s : store) : store :=
  set_frontiers (insert (hash b) a)
    (set_frontiers (delete (previous b))
      (set_pending fp (set_representation fr
        (latest_store a (hash b) rep (open_block_hash i) bal (wrap 64 (block_count i + 1))
           (xor256 (xor256 c (head i)) (hash b)) (put_linked b pb s))))).

Section LinkedStore.
Context `{Environment} {n : nat} {g : ghost} {s : store} (I : inv_with n g s).
Context {b pb : block} {a : account} {i0 : account_info} {bal amt rep : Z} {src : option Z}.
Context (Hi0 : accounts s !! a = Some i0) (Hhead : head i0 = previous b).
Context (Hfresh : entry_at s (hash b) = None) (Hres : ~ reserved (hash b)) (Hfit : fits 128 bal).
Context (Hp : entry_at s (previous b) = Some (pb, 0)).
Context (Hsrc : forall x, src = Some x -> grecv g x = None /\ source b = x).
Let height := gheight g (previous b) + 1.
Let g' := gext g n (hash b) bal amt a rep height src.

Lemma linked_store_inv fp fr :
  let s' := linked_store b pb a i0 rep bal (checksum_of (accounts s)) fp fr s in
  (prev_ok g' (entry_at s') (hash b) (previous b) ->
   gbal g' (previous b) = gbal g (previous b) -> grep g' (previous b) = grep g (previous b) ->
   (forall x sb m, entry_at s x = Some (Send sb, m) -> sh_destination (send_h sb) = a -> src = Some x ->
      source_ok g' (entry_at s') (hash b) x /\ gamt g' x = gamt g x) ->
   block_inv g' (entry_at s') (hash b) b) ->
  (exists rb k, ext_entries (entry_at s) b rep = Some (rb, k) /\ rep_ok rb) ->
  (forall d x, fp (pending s) !! (d, x) =
     if decide (x = hash b) then new_pending b a amt d
     else if decide (src = Some x) then None else pending s !! (d, x)) ->
  total_pending (fp (pending s)) = total_pending (pending s) + balance_of i0 - bal ->
  (forall r, default 0 (fr (representation s) !! r)
     = representation_get s r - (if repr (entry_at s) (rep_block i0) =? r then balance_of i0 else 0)
       + (if repr (ext_entries (entry_at s) b) rep =? r then bal else 0)) ->
  inv_with (S n) g' s'.
Proof.
  intros s' Hb Hrep HP Hpt HR.
  destruct (put_linked_tables b pb 0 s (iv_disjoint _ _ _ I) (iv_typed _ _ _ I) Hfresh Hp) as [Hd Ht].
  pose proof (fun x => put_linked_ext b pb 0 s x (iv_disjoint _ _ _ I) (iv_typed _ _ _ I) Hfresh Hp
    : entry_at s' x = _) as HE.
  destruct (put_linked_frame b pb s) as (F1 & F2 & F3 & F4 & F5 & F6 & F7).
  assert (Hrepr : forall x, repr (entry_at s') x = repr (ext_entries (entry_at s) b) x)
    by (intros x; unfold repr; by rewrite HE).
  apply (inv_linked I Hi0 Hhead Hfresh Hres Hfit HE Hsrc); [exact Hd|exact Ht|..].
  - intros H1 H2 H3. apply (Hb H1 H2 H3). intros x sb m Hx Hdst ->.
    by eapply (source_ok_new (iv_chain _ _ _ I) HE Hfresh).
  - by rewrite HE.
  - cbn. by rewrite F2.
  - cbn. by rewrite F1.
  - cbn. by rewrite F4.
  - cbn. by rewrite F4.
  - cbn. by rewrite F5.
  - intros r. rewrite Hrepr, <- HR. unfold representation_get. cbn. by rewrite F6.
  - intros c Hc. rewrite (iv_checksum _ _ _ I) in Hc. injection Hc as <-. apply lookup_insert_eq.
Qed.
End LinkedStore.

(** The order of writes to different tables does not matter. *)
Lemma put_linked_set_representation b p f s :
  put_linked b p (set_representation f s) = set_representation f (put_linked b p s).
Proof. unfold put_linked. by destruct (type p), (type b). Qed.
Lemma put_linked_set_pending b p f s :
  put_linked b p (set_pending f s) = set_pending f (put_linked b p s).
Proof. unfold put_linked. by destruct (type p), (type b). Qed.

(** Step over a read of the tables. *)
Ltac read_step := erewrite st_bind_ok by reflexivity; cbv beta.
(** The same, with an equation for what is read. *)
Tactic Notation "read_as" constr(E) := read_step; rewrite E; cbn [negb].

Section Handlers.
Context `{Environment} {n : nat} {g : ghost} {s : store} (I : inv_with n g s).

(** [s'] satisfies the invariant and has one block more than [s], the latest. *)
Definition grown (b : block) (s' : store) : Prop :=
  exists g', inv_with (S n) g' s'
  /\ entry_at s (hash b) = None /\ (forall x, entry_at s' x = ext_entries (entry_at s) b x)
  /\ (forall x, is_Some (entry_at s x) -> (grank g' x < grank g' (hash b))%nat).

Lemma grown_intro b s' bal amt own rep height src :
  let g' := gext g n (hash b) bal amt own rep height src in
  entry_at s (hash b) = None -> (forall x, entry_at s' x = ext_entries (entry_at s) b x) ->
  inv_with (S n) g' s' -> grown b s'.
Proof.
  intros g' Hf HE I'. exists g'. split_and!; [done|done|done|].
  intros x [[b' m] Hx]. cbn. rewrite upd_eq, upd_ne by congruence.
  exact (ei_rank _ _ _ _ _ _ (inv_entry I _ _ _ Hx)).
Qed.

Lemma linked_entries b pb a i rep bal c fp fr x :
  entry_at s (hash b) = None -> entry_at s (previous b) = Some (pb, 0) ->
  entry_at (linked_store b pb a i rep bal c fp fr s) x = ext_entries (entry_at s) b x.
Proof.
  intros Hf Hp. exact (put_linked_ext b pb 0 s x (iv_disjoint _ _ _ I) (iv_typed _ _ _ I) Hf Hp).
Qed.

(** The outcome of a handler: a rejection without a write, or progress. *)
Definition handled (b : block) (r : res (process_return * store)) : Prop :=
  exists ret s', r = Ok (ret, s')
  /\ (code ret <> progress /\ s' = s \/ code ret = progress /\ grown b s').

Lemma handled_failed b c : c <> progress -> handled b (Ok (failed c, s)).
Proof. intros Hc. exists (failed c), s. auto. Qed.

(** The account a frontier belongs to. *)
Lemma frontier_cases h :
  is_zero (frontier_get s h) = true
  \/ is_zero (frontier_get s h) = false /\
     exists a i pb, frontier_get s h = a /\ accounts s !! a = Some i /\ head i = h
       /\ entry_at s h = Some (pb, 0) /\ frontiers s !! h = Some a.
Proof.
  destruct (is_zero (frontier_get s h)) eqn:Hz; [by left|right]. split; [done|].
  apply Z.eqb_neq in Hz. destruct (frontier_account I h _ eq_refl Hz) as (i & Hi & Hh).
  pose proof (inv_head I _ _ Hi) as [_ [hb Hb] _ _ _ _ _]. rewrite Hh in Hb.
  exists (frontier_get s h), i, hb. split_and!; try done.
  apply (ai_frontier _ _ _ _ (iv_accounts _ _ _ I)). eauto.
Qed.

Lemma pending_fresh d h : entry_at s h = None -> pending s !! (d, h) = None.
Proof.
  intros Hf. destruct (pending s !! (d, h)) eqn:Hl; [|done].
  apply (pi_entry _ _ _ (iv_pending _ _ _ I)) in Hl as (sb & m & Hc & _). congruence.
Qed.

Lemma genesis_fits : genesis_amount = 2 ^ 128 - 1.
Proof. reflexivity. Qed.

(** What a handler knows once the block was found to extend an account. *)
Record extends (b : block) (a : account) (i : account_info) (pb : block) : Prop := {
  ex_account : accounts s !! a = Some i;
  ex_head : head i = previous b;
  ex_prev : entry_at s (previous b) = Some (pb, 0);
  ex_frontier : frontiers s !! previous b = Some a;
  ex_fresh : entry_at s (hash b) = None;
  ex_hash : hash b <> 0
}.

Lemma extends_intro b a i pb :
  accounts s !! a = Some i -> head i = previous b -> entry_at s (previous b) = Some (pb, 0) ->
  frontiers s !! previous b = Some a -> block_exists s (hash b) = false -> ~ reserved (hash b) ->
  extends b a i pb.
Proof.
  intros H1 H2 H3 H4 H5%block_exists_false H6. refine (Build_extends _ _ _ _ H1 H2 H3 H4 H5 _).
  intros Hc. apply H6. left. exact Hc.
Qed.

(** The writes all handlers of such blocks make, in tables that differ from
    those of the ledger in pending entries and weights only. *)
Lemma block_put_extends b a i pb fp fr :
  extends b a i pb -> is_open b = false ->
  let s0 := set_pending fp (set_representation fr s) in
  block_put (hash b) b 0 s0
  = Ok (tt, set_pending fp (set_representation fr (put_linked b pb s))).
Proof.
  intros [] Ho s0. rewrite (block_put_linked b pb 0);
    [|done|exact (iv_disjoint _ _ _ I)|exact (iv_typed _ _ _ I)|exact ex_fresh0|exact ex_prev0].
  unfold s0. by rewrite put_linked_set_pending, put_linked_set_representation.
Qed.

Lemma change_latest_extends b a i pb rep bal s2 :
  extends b a i pb -> accounts s2 = accounts s -> checksums s2 = checksums s ->
  change_latest a (hash b) rep bal (wrap 64 (block_count i + 1)) s2
  = Ok (tt, latest_store a (hash b) rep (open_block_hash i) bal (wrap 64 (block_count i + 1))
           (xor256 (xor256 (checksum_of (accounts s)) (head i)) (hash b)) s2).
Proof.
  intros [] HA HC. apply change_latest_run; [by rewrite HA|rewrite HC; apply I|done].
Qed.

Lemma frontier_moves {A} b a i pb (k : unit -> M store A) s3 :
  extends b a i pb -> frontiers s3 = frontiers s ->
  (frontier_del (previous b) ;;; x <- frontier_put (hash b) a ;; k x)%m s3
  = k tt (set_frontiers (insert (hash b) a) (set_frontiers (delete (previous b)) s3)).
Proof.
  intros [] HF. erewrite st_bind_ok by (apply frontier_del_run; rewrite HF; by eexists). done.
Qed.

Lemma extends_rep b a i pb :
  extends b a i pb ->
  exists rb k, entry_at s (rep_block i) = Some (rb, k) /\ rep_ok rb /\ representative rb <> 0
    /\ repr (entry_at s) (rep_block i) = representative rb.
Proof.
  intros []. destruct (linked_rep_entry I (b := b) ex_account0 ex_head0) as (rb & k & Hrb & Hok & Hne).
  exists rb, k. split_and!; try done. unfold repr. by rewrite Hrb.
Qed.

(** *** Send *)

Definition sent_store (b : send_block) (a : account) (i : account_info) (pb rb : block) : store :=
  let amt := balance_of i - sh_balance (send_h b) in
  linked_store (Send b) pb a i (rep_block i) (sh_balance (send_h b)) (checksum_of (accounts s))
    (insert (sh_destination (send_h b), hash (Send b)) (PendingInfo a amt))
    (insert (representative rb) (representation_get s (representative rb) - amt)) s.

Lemma send_amount_small b a i pb :
  extends (Send b) a i pb -> fits 128 (sh_balance (send_h b)) -> sh_balance (send_h b) <= balance_of i ->
  balance_of i <= representation_get s (repr (entry_at s) (rep_block i)) < 2 ^ 128.
Proof.
  intros [] ??. pose proof (weight_has_balance I _ _ ex_account0). pose proof genesis_fits. lia.
Qed.

Lemma process_send_run b a i pb rb k :
  extends (Send b) a i pb -> entry_at s (rep_block i) = Some (rb, k) -> representative rb <> 0 ->
  a <> 0 -> fits 128 (sh_balance (send_h b)) -> sh_balance (send_h b) <= balance_of i ->
  validate_message a (hash (Send b)) (send_signature b) = false ->
  process_send b s
  = Ok (ProcessReturn progress (Some a) (Some (balance_of i - sh_balance (send_h b)))
          (Some (sh_destination (send_h b))), sent_store b a i pb rb).
Proof.
  intros X Hrb Hr0 Ha Hbal Hle Hv. pose proof (send_amount_small _ _ _ _ X Hbal Hle) as Hw.
  assert (Hrepr : repr (entry_at s) (rep_block i) = representative rb) by (unfold repr; by rewrite Hrb).
  rewrite Hrepr in Hw. unfold fits in Hbal. pose proof X as [Xa Xh Xp Xf Xn Xz]. cbn [previous] in Xh, Xp, Xf.
  unfold process_send. set (h := hash (Send b)) in *. cbv zeta.
  read_step. rewrite (proj2 (block_exists_false s h) Xn).
  read_step. rewrite (proj2 (block_exists_true s _) (ex_intro _ _ Xp)). cbn [negb].
  read_step. unfold frontier_get. rewrite Xf. cbn [from_option id]. rewrite is_zero_ne, Hv by done.
  read_step. unfold account_get. rewrite Xa. rewrite st_assert_true by (rewrite Xh; apply Z.eqb_refl).
  rewrite (proj2 (Z.leb_le _ _) Hle). cbn [negb]. rewrite (wrap_small 128 (balance_of i - _)) by (unfold fits; lia).
  erewrite st_bind_ok by (by eapply representation_add_run).
  rewrite wrap_add_neg_small by lia.
  erewrite st_bind_ok by (exact (block_put_extends (Send b) a i pb id _ X eq_refl)).
  destruct (put_linked_frame (Send b) pb s) as (F1 & F2 & F3 & F4 & F5 & F6 & F7).
  erewrite st_bind_ok by (apply (change_latest_extends (Send b) a i pb); done).
  read_step. rewrite (frontier_moves (Send b) a i pb) by done. reflexivity.
Qed.

(** The representative of an account keeps its block. *)
Lemma ext_rep b x rb k :
  entry_at s (hash b) = None -> entry_at s x = Some (rb, k) ->
  repr (ext_entries (entry_at s) b) x = representative rb
  /\ exists k', ext_entries (entry_at s) b x = Some (rb, k').
Proof.
  intros Hf Hx. assert (x <> hash b) by congruence.
  unfold repr, ext_entries. rewrite !decide_False by done. rewrite Hx. split; [done|by eexists].
Qed.

Lemma sent_store_inv b a i pb rb k :
  extends (Send b) a i pb -> ~ reserved (hash (Send b)) ->
  entry_at s (rep_block i) = Some (rb, k) -> rep_ok rb ->
  fits 128 (sh_balance (send_h b)) -> sh_balance (send_h b) <= balance_of i ->
  grown (Send b) (sent_store b a i pb rb).
Proof.
  intros X Hres Hrb Hok Hbal Hle. pose proof X as [Xa Xh Xp Xf Xn Xz].
  destruct (ext_rep (Send b) _ _ _ Xn Hrb) as [Hr1 [k' Hr2]].
  assert (Hr0 : repr (entry_at s) (rep_block i) = representative rb) by (unfold repr; by rewrite Hrb).
  set (amt := balance_of i - sh_balance (send_h b)).
  eapply (grown_intro (Send b)); [exact Xn|intros x; by apply linked_entries|].
  apply (linked_store_inv I (amt := amt) (src := None) Xa Xh Xn Hres Hbal Xp); [done|..].
  - intros Hprev E1 E2 _. cbn in E1, E2 |- *. rewrite E1, E2, !upd_eq, (linked_rep I (b := Send b) Xa Xh).
    pose proof (linked_balance I (b := Send b) Xa Xh) as Hb. cbn in Hb.
    split_and!; [exact Hprev|done|done|subst amt; lia|subst amt; lia].
  - eauto.
  - intros d x. rewrite lookup_insert. cbn [new_pending].
    destruct (decide ((sh_destination (send_h b), hash (Send b)) = (d, x))) as [Hx|Hx].
    + apply pair_equal_spec in Hx as [<- <-]. by rewrite !decide_True.
    + case_decide as Hxh; [|done]. subst x. rewrite decide_False by congruence.
      by apply pending_fresh.
  - unfold total_pending. rewrite msum_insert_new by (by apply pending_fresh). cbn. subst amt. lia.
  - intros r. rewrite Hr0, Hr1.
    change (default 0 _) with (representation_get (set_representation
      (insert (representative rb) (representation_get s (representative rb) - amt)) s) r).
    rewrite representation_get_insert.
    destruct (Z.eqb_spec (representative rb) r); case_decide; try congruence; subst; subst amt; lia.
Qed.

(** Two accounts do not share a head. *)
Lemma head_unique a i a' i' :
  accounts s !! a = Some i -> accounts s !! a' = Some i' -> head i = head i' -> a = a'.
Proof.
  intros Hi Hi' Hh. pose proof (ac_own _ _ _ _ (inv_head I _ _ Hi)).
  pose proof (ac_own _ _ _ _ (inv_head I _ _ Hi')). congruence.
Qed.

Lemma no_head p a i : is_zero (frontier_get s p) = true -> accounts s !! a = Some i -> head i <> p.
Proof.
  intros Hz Hi Hh.
  assert (Hf : frontiers s !! p = Some a) by (apply (ai_frontier _ _ _ _ (iv_accounts _ _ _ I)); eauto).
  unfold frontier_get in Hz. rewrite Hf in Hz. apply Z.eqb_eq in Hz.
  by destruct (ac_zero _ _ _ _ (inv_head I _ _ Hi)).
Qed.

(** What makes a send block acceptable to the account [a]. *)
Definition send_accepts (b : send_block) (a : account) (i : account_info) : Prop :=
  block_exists s (hash (Send b)) = false /\ accounts s !! a = Some i
  /\ head i = sh_previous (send_h b)
  /\ validate_message a (hash (Send b)) (send_signature b) = false
  /\ sh_balance (send_h b) <= balance_of i.

Definition rejected (r : res (process_return * store)) : Prop :=
  exists c, c <> progress /\ r = Ok (failed c, s).

Lemma rejected_failed c : c <> progress -> rejected (Ok (failed c, s)).
Proof. intros Hc. by exists c. Qed.

Lemma process_send_cases b :
  admissible (Send b) ->
  rejected (process_send b s) /\ (forall a i, ~ send_accepts b a i)
  \/ exists a i pb, extends (Send b) a i pb /\ send_accepts b a i.
Proof.
  intros (Hok & Hres & _). unfold process_send, send_accepts. cbv zeta.
  destruct (block_exists s (hash (Send b))) eqn:Hex.
  { left. read_as Hex. split; [by apply rejected_failed|by intros a i (? & _)]. }
  destruct (frontier_cases (sh_previous (send_h b))) as [Hz|(Hz & a & i & pb & Hfa & Hi & Hhd & Hp & Hfp)].
  { left. split; [|by intros a i (_ & Hi & Hh & _); destruct (no_head _ _ _ Hz Hi)]. read_as Hex. read_step.
    destruct (block_exists s (sh_previous (send_h b))); cbn [negb]; [|by apply rejected_failed].
    read_as Hz. by apply rejected_failed. }
  assert (Huniq : forall a' i', accounts s !! a' = Some i' -> head i' = sh_previous (send_h b) -> a' = a /\ i' = i).
  { intros a' i' Hi' Hh'. assert (a' = a) as -> by (eapply head_unique; [done|done|congruence]). naive_solver. }
  assert (Hpx : block_exists s (sh_previous (send_h b)) = true) by (apply block_exists_true; by eexists).
  destruct (validate_message a (hash (Send b)) (send_signature b)) eqn:Hv.
  { left. split; [read_as Hex; read_as Hpx; read_as Hz; rewrite Hfa, Hv; by apply rejected_failed|].
    intros a' i' (_ & Hi' & Hh' & Hv' & _). destruct (Huniq _ _ Hi' Hh'). congruence. }
  destruct (Z.le_gt_cases (sh_balance (send_h b)) (balance_of i)) as [Hle|Hgt].
  - right. exists a, i, pb. split; [by apply extends_intro|done].
  - left. split.
    + read_as Hex. read_as Hpx. read_as Hz. rewrite Hfa, Hv. read_step.
      unfold account_get. rewrite Hi. rewrite st_assert_true by (rewrite Hhd; apply Z.eqb_refl).
      rewrite (proj2 (Z.leb_gt _ _) Hgt). by apply rejected_failed.
    + intros a' i' (_ & Hi' & Hh' & _ & Hb'). destruct (Huniq _ _ Hi' Hh') as [-> ->]. lia.
Qed.

Lemma rejected_handled b r : rejected r -> handled b r.
Proof. intros (c & Hc & ->). by apply handled_failed. Qed.

Lemma send_balance_fits b : block_ok (Send b) -> fits 128 (sh_balance (send_h b)).
Proof. destruct b as [[] ? ?]. cbn. naive_solver. Qed.

Lemma process_send_handled b : admissible (Send b) -> handled (Send b) (process_send b s).
Proof.
  intros Ha. pose proof Ha as (Hok & Hres & _). apply send_balance_fits in Hok as Hbal.
  destruct (process_send_cases b Ha) as [[Hr _]|(a & i & pb & X & (_ & Hi & _ & Hv & Hle))];
    [by apply rejected_handled|].
  destruct (extends_rep _ _ _ _ X) as (rb & k & Hrb & Hrok & Hr0 & _).
  assert (Ha0 : a <> 0) by (exact (ac_zero _ _ _ _ (inv_head I _ _ Hi))).
  eexists _, _. split; [exact (process_send_run b a i pb rb k X Hrb Hr0 Ha0 Hbal Hle Hv)|].
  right. split; [done|]. by eapply sent_store_inv.
Qed.

(** *** Receive *)

Definition received_store (b : receive_block) (a : account) (i : account_info) (pb rb : block)
    (amt : Z) : store :=
  linked_store (Receive b) pb a i (rep_block i) (balance_of i + amt) (checksum_of (accounts s))
    (delete (a, rh_source (receive_h b)))
    (insert (representative rb) (representation_get s (representative rb) + amt)) s.

(** A pending entry that can be received: where it comes from and its bounds. *)
Lemma pending_source d x pi :
  pending s !! (d, x) = Some pi ->
  (exists sb m, entry_at s x = Some (Send sb, m) /\ sh_destination (send_h sb) = d)
  /\ pi = PendingInfo (gown g x) (gamt g x) /\ grecv g x = None
  /\ is_Some (accounts s !! pi_source pi) /\ 0 <= pi_amount pi <= genesis_amount
  /\ (forall d', d' <> d -> pending s !! (d', x) = None).
Proof.
  intros Hpi. pose proof Hpi as (sb & m & He & Hd & -> & Hrecv)%(pi_entry _ _ _ (iv_pending _ _ _ I)).
  split_and!; try done; [eauto|..].
  - destruct (ai_owner _ _ _ _ (iv_accounts _ _ _ I) _ _ _ He) as (i & Hi & _). by eexists.
  - exact (amount_nonneg I _ _ Hpi).
  - destruct (weight_and_pending I 0 _ _ Hpi). cbn in *. lia.
  - intros d' Hd'. destruct (pending s !! (d', x)) as [pi'|] eqn:Hl; [|done].
    apply (pi_entry _ _ _ (iv_pending _ _ _ I)) in Hl as (sb' & m' & He' & Hd'' & _). congruence.
Qed.

Lemma process_receive_run b a i pb rb k pi :
  extends (Receive b) a i pb -> entry_at s (rep_block i) = Some (rb, k) -> representative rb <> 0 ->
  a <> 0 -> pending s !! (a, rh_source (receive_h b)) = Some pi ->
  validate_message a (hash (Receive b)) (receive_signature b) = false ->
  process_receive b s
  = Ok (ProcessReturn progress (Some a) (Some (pi_amount pi)) None,
        received_store b a i pb rb (pi_amount pi)).
Proof.
  intros X Hrb Hr0 Ha Hpi Hv.
  destruct (pending_source _ _ _ Hpi) as ((sb & m & He & Hdst) & _ & _ & Hacc & Hamt & _).
  pose proof (balance_and_pending I _ _ _ _ (ex_account _ _ _ _ X) Hpi) as Hsum.
  pose proof (balance_nonneg I _ _ (ex_account _ _ _ _ X)) as Hb0.
  destruct (weight_and_pending I (representative rb) _ _ Hpi) as [Hw0 Hw]. pose proof genesis_fits as Hg.
  pose proof X as [Xa Xh Xp Xf Xn Xz]. cbn [previous] in Xh, Xp, Xf.
  unfold process_receive. set (h := hash (Receive b)) in *. cbv zeta.
  read_as (proj2 (block_exists_false s h) Xn).
  read_as (proj2 (block_exists_true s _) (ex_intro _ _ He)).
  read_step. unfold frontier_get. rewrite Xf. cbn [from_option id]. rewrite is_zero_ne, Hv by done.
  read_step. unfold account_get. rewrite Xa. cbn [from_option id].
  rewrite Xh, Z.eqb_refl. cbn [negb]. read_step. unfold pending_get. rewrite Hpi.
  read_step. rewrite st_assert_true by (by apply bool_decide_eq_true).
  erewrite st_bind_ok by (apply pending_del_run; by eexists).
  rewrite (wrap_small 128 (balance_of i + _)) by (unfold fits; lia).
  erewrite st_bind_ok by (exact (block_put_extends (Receive b) a i pb _ id X eq_refl)).
  destruct (put_linked_frame (Receive b) pb s) as (F1 & F2 & F3 & F4 & F5 & F6 & F7).
  erewrite st_bind_ok by (apply (change_latest_extends (Receive b) a i pb); done).
  destruct (ext_rep (Receive b) _ _ _ Xn Hrb) as [_ [k' Hrb']].
  rewrite <- (put_linked_ext (Receive b) pb 0 s _ (iv_disjoint _ _ _ I) (iv_typed _ _ _ I) Xn Xp) in Hrb'.
  erewrite st_bind_ok by (eapply representation_add_run; [exact Hrb'|done]).
  replace (representation_get _ (representative rb)) with (representation_get s (representative rb))
    by (unfold representation_get; cbn; by rewrite F6).
  rewrite wrap_small by (unfold fits; lia).
  rewrite (frontier_moves (Receive b) a i pb) by done. reflexivity.
Qed.

Lemma received_store_inv b a i pb rb k pi :
  extends (Receive b) a i pb -> ~ reserved (hash (Receive b)) ->
  entry_at s (rep_block i) = Some (rb, k) -> rep_ok rb ->
  pending s !! (a, rh_source (receive_h b)) = Some pi ->
  grown (Receive b) (received_store b a i pb rb (pi_amount pi)).
Proof.
  intros X Hres Hrb Hok Hpi. pose proof X as [Xa Xh Xp Xf Xn Xz].
  destruct (pending_source _ _ _ Hpi) as ((sb & m & He & Hdst) & Hpa & Hrecv & Hacc & Hamt & Huniq).
  pose proof (balance_and_pending I _ _ _ _ Xa Hpi) as Hsum. pose proof genesis_fits as Hg.
  pose proof (balance_nonneg I _ _ Xa) as Hb0.
  destruct (ext_rep (Receive b) _ _ _ Xn Hrb) as [Hr1 [k' Hr2]].
  assert (Hr0 : repr (entry_at s) (rep_block i) = representative rb) by (unfold repr; by rewrite Hrb).
  assert (Hfit : fits 128 (balance_of i + pi_amount pi)) by (unfold fits; lia).
  eapply (grown_intro (Receive b)); [exact Xn|intros x; by apply linked_entries|].
  apply (linked_store_inv I (amt := 0) (src := Some (rh_source (receive_h b))) Xa Xh Xn Hres Hfit Xp).
  - intros x Hx. injection Hx as <-. done.
  - intros Hprev E1 E2 Hs. destruct (Hs _ _ _ He Hdst eq_refl) as [Hs1 Hs2].
    cbn in E1, E2, Hs2 |- *. rewrite E1, E2, Hs2, !upd_eq, (linked_rep I (b := Receive b) Xa Xh).
    pose proof (linked_balance I (b := Receive b) Xa Xh) as Hb. cbn in Hb. rewrite Hb, Hpa.
    split_and!; [exact Hprev|done|exact Hs1|done].
  - eauto.
  - intros d x. cbn [new_pending]. case_decide as Hx.
    + subst x. rewrite lookup_delete. case_decide; [done|]. by apply pending_fresh.
    + case_decide as Hs.
      * injection Hs as <-. destruct (decide (d = a)) as [->|]; [apply lookup_delete_eq|].
        rewrite lookup_delete_ne by congruence. auto.
      * apply lookup_delete_ne. congruence.
  - unfold total_pending. rewrite (msum_delete _ _ _ _ Hpi). lia.
  - intros r. rewrite Hr0, Hr1.
    change (default 0 _) with (representation_get (set_representation
      (insert (representative rb) (representation_get s (representative rb) + pi_amount pi)) s) r).
    rewrite representation_get_insert.
    destruct (Z.eqb_spec (representative rb) r); case_decide; try congruence; subst; lia.
Qed.

(** What makes a receive block acceptable to the account [a]. *)
Definition receive_accepts (b : receive_block) (a : account) (i : account_info) (pi : pending_info) : Prop :=
  block_exists s (hash (Receive b)) = false /\ accounts s !! a = Some i
  /\ head i = rh_previous (receive_h b)
  /\ validate_message a (hash (Receive b)) (receive_signature b) = false
  /\ pending s !! (a, rh_source (receive_h b)) = Some pi.

Lemma process_receive_cases b :
  admissible (Receive b) ->
  rejected (process_receive b s) /\ (forall a i pi, ~ receive_accepts b a i pi)
  \/ exists a i pb pi, extends (Receive b) a i pb /\ receive_accepts b a i pi.
Proof.
  intros (Hok & Hres & _). unfold process_receive, receive_accepts. cbv zeta.
  destruct (block_exists s (hash (Receive b))) eqn:Hex.
  { left. read_as Hex. split; [by apply rejected_failed|by intros a i pi (? & _)]. }
  destruct (block_exists s (rh_source (receive_h b))) eqn:Hsx.
  2:{ left. read_as Hex. read_as Hsx. split; [by apply rejected_failed|].
      intros a i pi (_ & _ & _ & _ & Hpi). apply pending_source in Hpi as ((sb & m & He & _) & _).
      apply block_exists_false in Hsx. congruence. }
  destruct (frontier_cases (rh_previous (receive_h b))) as [Hz|(Hz & a & i & pb & Hfa & Hi & Hhd & Hp & Hfp)].
  { left. split; [|by intros a i pi (_ & Hi & Hh & _); destruct (no_head _ _ _ Hz Hi)].
    read_as Hex. read_as Hsx. read_as Hz. read_step. apply rejected_failed. by case_match. }
  assert (Huniq : forall a' i', accounts s !! a' = Some i' -> head i' = rh_previous (receive_h b) -> a' = a).
  { intros a' i' Hi' Hh'. eapply head_unique; [done|done|congruence]. }
  destruct (validate_message a (hash (Receive b)) (receive_signature b)) eqn:Hv.
  { left. split; [read_as Hex; read_as Hsx; read_as Hz; rewrite Hfa, Hv; by apply rejected_failed|].
    intros a' i' pi (_ & Hi' & Hh' & Hv' & _). rewrite (Huniq _ _ Hi' Hh') in *. congruence. }
  destruct (pending s !! (a, rh_source (receive_h b))) as [pi|] eqn:Hpi.
  - right. exists a, i, pb, pi. split; [by apply extends_intro|done].
  - left. split.
    + read_as Hex. read_as Hsx. read_as Hz. rewrite Hfa, Hv. read_step. unfold account_get. rewrite Hi.
      cbn [from_option id]. rewrite Hhd, Z.eqb_refl. cbn [negb]. read_step. unfold pending_get.
      rewrite Hpi. by apply rejected_failed.
    + intros a' i' pi (_ & Hi' & Hh' & _ & Hpi'). rewrite (Huniq _ _ Hi' Hh') in *. congruence.
Qed.

Lemma process_receive_handled b : admissible (Receive b) -> handled (Receive b) (process_receive b s).
Proof.
  intros Ha. pose proof Ha as (_ & Hres & _).
  destruct (process_receive_cases b Ha) as [[Hr _]|(a & i & pb & pi & X & (_ & Hi & _ & Hv & Hpi))];
    [by apply rejected_handled|].
  destruct (extends_rep _ _ _ _ X) as (rb & k & Hrb & Hrok & Hr0 & _).
  assert (Ha0 : a <> 0) by (exact (ac_zero _ _ _ _ (inv_head I _ _ Hi))).
  eexists _, _. split; [exact (process_receive_run b a i pb rb k pi X Hrb Hr0 Ha0 Hpi Hv)|].
  right. split; [done|]. by eapply received_store_inv.
Qed.

(** *** Change *)

(** The weight moves from the representative [R0] to [R1]. *)
Definition move_weight (R0 R1 bal : Z) (m : gmap Z Z) : gmap Z Z :=
  let m1 := <[R1 := wrap 128 (default 0 (m !! R1) + bal)]> m in
  <[R0 := wrap 128 (default 0 (m1 !! R0) + wrap 128 (0 - bal))]> m1.

Lemma move_weight_get a i R1 r :
  accounts s !! a = Some i ->
  default 0 (move_weight (repr (entry_at s) (rep_block i)) R1 (balance_of i) (representation s) !! r)
  = representation_get s r - (if repr (entry_at s) (rep_block i) =? r then balance_of i else 0)
    + (if R1 =? r then balance_of i else 0).
Proof.
  intros Hi. pose proof (weight_has_balance I _ _ Hi) as Hw. pose proof (balance_nonneg I _ _ Hi) as Hb.
  pose proof genesis_fits as Hg. set (R0 := repr (entry_at s) (rep_block i)) in *.
  unfold move_weight. cbv zeta. fold (representation_get s R1).
  destruct (decide (R0 = R1)) as [<-|Hne].
  - rewrite lookup_insert_eq. cbn [from_option id]. rewrite wrap_add_neg by (unfold fits; lia).
    destruct (Z.eqb_spec R0 r) as [<-|Hr].
    + rewrite lookup_insert_eq. cbn [from_option id]. lia.
    + rewrite !lookup_insert_ne by done. unfold representation_get. lia.
  - rewrite (lookup_insert_ne _ R1 R0) by done. fold (representation_get s R0).
    rewrite wrap_add_neg_small by lia.
    destruct (weight_and_balance I R1 _ _ Hi) as [H0 H1]; [done|].
    rewrite (wrap_small 128 (_ + _)) by (unfold fits; lia).
    destruct (Z.eqb_spec R0 r) as [<-|Hr].
    + rewrite lookup_insert_eq, (proj2 (Z.eqb_neq R1 R0)) by done. cbn [from_option id]. lia.
    + rewrite lookup_insert_ne by done. destruct (Z.eqb_spec R1 r) as [<-|Hr'].
      * rewrite lookup_insert_eq. cbn [from_option id]. lia.
      * rewrite lookup_insert_ne by done. unfold representation_get. lia.
Qed.

Definition changed_store (b : change_block) (a : account) (i : account_info) (pb : block) : store :=
  linked_store (Change b) pb a i (hash (Change b)) (balance_of i) (checksum_of (accounts s)) id
    (move_weight (repr (entry_at s) (rep_block i)) (ch_representative (change_h b)) (balance_of i)) s.

(** Balances can be asked for after the block was put. *)
Lemma put_linked_more b pb :
  entry_at s (hash b) = None -> entry_at s (previous b) = Some (pb, 0) -> ~ reserved (hash b) ->
  more_blocks (s := s) (t := put_linked b pb s).
Proof.
  intros Hf Hp Hres.
  pose proof (fun x => put_linked_ext b pb 0 s x (iv_disjoint _ _ _ I) (iv_typed _ _ _ I) Hf Hp) as HE.
  split.
  - intros x b'. rewrite !block_get_entry, HE. unfold ext_entries. case_decide as Hx.
    + subst x. by rewrite Hf.
    + by destruct (entry_at s x) as [[? ?]|].
  - rewrite block_get_entry, HE. unfold ext_entries. rewrite decide_False.
    + by rewrite (genesis_entry I).
    + intros Hc. apply Hres. right. right. congruence.
  - by destruct (put_linked_frame b pb s) as (_ & _ & _ & _ & -> & _).
Qed.

Context (Hfuel : (query_fuel n <= loop_fuel)%nat).

Lemma process_change_run b a i pb :
  extends (Change b) a i pb -> ch_representative (change_h b) <> 0 -> ~ reserved (hash (Change b)) ->
  a <> 0 -> validate_message a (hash (Change b)) (change_signature b) = false ->
  process_change b s
  = Ok (ProcessReturn progress (Some a) (Some 0) None, changed_store b a i pb).
Proof.
  intros X Hr1 Hres Ha Hv. destruct (extends_rep _ _ _ _ X) as (rb & k & Hrb & _ & Hr0 & Hrepr).
  pose proof (linked_balance I (b := Change b) (ex_account _ _ _ _ X) (ex_head _ _ _ _ X)) as Hbal.
  pose proof X as [Xa Xh Xp Xf Xn Xz].
  pose proof (balance_monotone (put_linked_more _ _ Xn Xp Hres) _ _
    (balance_ok I Hfuel _ (ex_intro _ _ Xp))) as Hbq.
  pose proof (fun x => put_linked_ext (Change b) pb 0 s x (iv_disjoint _ _ _ I) (iv_typed _ _ _ I) Xn Xp) as HE.
  destruct (ext_rep (Change b) _ _ _ Xn Hrb) as [_ [k' Hrb']]. rewrite <- HE in Hrb'.
  rewrite <- Hbal in Hbq. clear Hbal.
  cbn [previous] in Xh, Xp, Xf, Hbq. unfold process_change. set (h := hash (Change b)) in *. cbv zeta.
  read_as (proj2 (block_exists_false s h) Xn).
  read_as (proj2 (block_exists_true s _) (ex_intro _ _ Xp)).
  read_step. unfold frontier_get. rewrite Xf. cbn [from_option id]. rewrite is_zero_ne by done.
  read_step. unfold account_get. rewrite Xa. rewrite st_assert_true by (rewrite Xh; apply Z.eqb_refl).
  rewrite Hv. erewrite st_bind_ok
    by (exact (block_put_linked (Change b) pb 0 s eq_refl (iv_disjoint _ _ _ I) (iv_typed _ _ _ I) Xn Xp)).
  destruct (put_linked_frame (Change b) pb s) as (F1 & F2 & F3 & F4 & F5 & F6 & F7).
  erewrite st_run_ok by exact Hbq.
  erewrite st_bind_ok by (eapply representation_add_run; [rewrite HE; apply (ext_new (fun _ => eq_refl))|done]).
  erewrite st_bind_ok by (eapply representation_add_run; [exact Hrb'|done]).
  erewrite st_bind_ok by (apply (change_latest_extends (Change b) a i pb); done).
  rewrite (frontier_moves (Change b) a i pb) by done.
  unfold changed_store, move_weight. rewrite Hrepr. reflexivity.
Qed.

Lemma changed_store_inv b a i pb :
  extends (Change b) a i pb -> ~ reserved (hash (Change b)) -> ch_representative (change_h b) <> 0 ->
  grown (Change b) (changed_store b a i pb).
Proof.
  intros X Hres Hr1. pose proof X as [Xa Xh Xp Xf Xn Xz].
  pose proof (linked_balance I (b := Change b) Xa Xh) as Hb.
  assert (Hfit : fits 128 (balance_of i)).
  { rewrite Hb. exact (ei_fits _ _ _ _ _ _ (inv_entry I _ _ _ Xp)). }
  assert (Hnew : ext_entries (entry_at s) (Change b) (hash (Change b)) = Some (Change b, 0))
    by (apply (ext_new (fun _ => eq_refl))).
  eapply (grown_intro (Change b)); [exact Xn|intros x; by apply linked_entries|].
  apply (linked_store_inv I (amt := 0) (src := None) Xa Xh Xn Hres Hfit Xp); [done|..].
  - intros Hprev E1 E2 _. cbn in E1, E2 |- *. rewrite E1, !upd_eq.
    split_and!; [exact Hprev|done|exact Hb].
  - exists (Change b), 0. split; [exact Hnew|exact Hr1].
  - intros d x. cbn [new_pending]. case_decide as Hx; [|done]. subst x. by apply pending_fresh.
  - unfold id. lia.
  - intros r. rewrite (move_weight_get a) by done.
    assert (repr (ext_entries (entry_at s) (Change b)) (hash (Change b)) = ch_representative (change_h b)) as ->
      by (unfold repr; by rewrite Hnew). reflexivity.
Qed.

Lemma process_change_handled b : admissible (Change b) -> handled (Change b) (process_change b s).
Proof.
  intros (Hok & Hres & Hr1). unfold process_change. cbv zeta.
  destruct (block_exists s (hash (Change b))) eqn:Hex.
  { read_as Hex. by apply handled_failed. }
  destruct (frontier_cases (ch_previous (change_h b))) as [Hz|(Hz & a & i & pb & Hfa & Hi & Hhd & Hp & Hfp)].
  { read_as Hex. read_step.
    destruct (block_exists s (ch_previous (change_h b))); cbn [negb]; [|by apply handled_failed].
    read_as Hz. by apply handled_failed. }
  assert (X : extends (Change b) a i pb) by (by apply extends_intro).
  assert (Hpx : block_exists s (ch_previous (change_h b)) = true) by (apply block_exists_true; by eexists).
  destruct (validate_message a (hash (Change b)) (change_signature b)) eqn:Hv.
  { read_as Hex. read_as Hpx. read_as Hz. rewrite Hfa. read_step. unfold account_get. rewrite Hi.
    rewrite st_assert_true by (rewrite Hhd; apply Z.eqb_refl). rewrite Hv. by apply handled_failed. }
  assert (Ha : a <> 0) by (exact (ac_zero _ _ _ _ (inv_head I _ _ Hi))).
  eexists _, _. split; [exact (process_change_run b a i pb X Hr1 Hres Ha Hv)|].
  right. split; [done|]. by eapply changed_store_inv.
Qed.

(** *** Open *)

Definition opened_store (b : open_block) (amt : Z) : store :=
  let h := hash (Open b) in
  let a := oh_account (open_h b) in
  let r := oh_representative (open_h b) in
  set_frontiers (insert h a)
    (set_representation (insert r (representation_get s r + amt))
      (latest_store a h h h amt 1 (xor256 (checksum_of (accounts s)) h)
        (put_entry open h (Open b, 0)
          (set_pending (delete (a, oh_source (open_h b))) s)))).

Lemma opened_entries b amt x :
  entry_at s (hash (Open b)) = None ->
  entry_at (opened_store b amt) x = ext_entries (entry_at s) (Open b) x.
Proof.
  intros Hf.
  change (entry_at (put_entry open (hash (Open b)) (Open b, 0) s) x = ext_entries (entry_at s) (Open b) x).
  rewrite put_entry_at; [|apply I|by apply writable_fresh]. unfold ext_entries.
  case_decide; [done|]. destruct (entry_at s x) as [[b' m]|] eqn:Hx; [|done].
  rewrite decide_False; [done|]. intros ->. cbn in Hx. by rewrite (zero_entry I) in Hx.
Qed.

Lemma process_open_run b pi :
  entry_at s (hash (Open b)) = None -> ~ reserved (hash (Open b)) ->
  accounts s !! oh_account (open_h b) = None -> oh_account (open_h b) <> 0 ->
  pending s !! (oh_account (open_h b), oh_source (open_h b)) = Some pi ->
  oh_representative (open_h b) <> 0 ->
  validate_message (oh_account (open_h b)) (hash (Open b)) (open_signature b) = false ->
  process_open b s
  = Ok (ProcessReturn progress (Some (oh_account (open_h b))) (Some (pi_amount pi)) None,
        opened_store b (pi_amount pi)).
Proof.
  intros Hf Hres Hi Ha Hpi Hr0 Hv.
  destruct (pending_source _ _ _ Hpi) as ((sb & m & He & Hdst) & _ & _ & Hacc & Hamt & _).
  destruct (weight_and_pending I (oh_representative (open_h b)) _ _ Hpi) as [Hw0 Hw].
  pose proof genesis_fits as Hg.
  pose proof (eq_trans (opened_entries b (pi_amount pi) (hash (Open b)) Hf)
    (ext_new (fun _ => eq_refl))) as Hnew.
  assert (Hh0 : hash (Open b) <> 0) by (intros Hc; apply Hres; left; exact Hc).
  unfold process_open. set (h := hash (Open b)) in *. set (a := oh_account (open_h b)) in *. cbv zeta.
  read_as (proj2 (block_exists_false s h) Hf).
  read_as (proj2 (block_exists_true s _) (ex_intro _ _ He)). rewrite Hv.
  read_step. unfold account_get. rewrite Hi. read_step. unfold pending_get. rewrite Hpi.
  unfold burn_account. rewrite (proj2 (Z.eqb_neq a 0)) by done.
  read_step. rewrite st_assert_true by (by apply bool_decide_eq_true).
  erewrite st_bind_ok by (apply pending_del_run; by eexists).
  erewrite st_bind_ok by apply block_put_open.
  erewrite st_bind_ok.
  2:{ eapply change_latest_open_run; [exact Hi|apply I|exact Hh0|].
      rewrite block_get_entry. unfold opened_store in Hnew.
      exact (f_equal (fun e => is_open_block (fst <$> e)) Hnew). }
  erewrite st_bind_ok by (eapply representation_add_run; [exact Hnew|exact Hr0]).
  match goal with |- context [wrap 128 (?x + pi_amount pi)] =>
    change x with (representation_get s (oh_representative (open_h b))) end.
  rewrite wrap_small by (unfold fits; lia). reflexivity.
Qed.

Lemma opened_store_inv b pi :
  entry_at s (hash (Open b)) = None -> ~ reserved (hash (Open b)) ->
  accounts s !! oh_account (open_h b) = None -> oh_account (open_h b) <> 0 ->
  pending s !! (oh_account (open_h b), oh_source (open_h b)) = Some pi ->
  oh_representative (open_h b) <> 0 ->
  grown (Open b) (opened_store b (pi_amount pi)).
Proof.
  intros Hf Hres Hi Ha Hpi Hr0.
  destruct (pending_source _ _ _ Hpi) as ((sb & m & He & Hdst) & Hpa & Hrecv & Hacc & Hamt & Huniq).
  assert (Hfit : fits 128 (pi_amount pi)) by (pose proof genesis_fits; unfold fits; lia).
  pose proof (fun x => opened_entries b (pi_amount pi) x Hf) as HE.
  eapply (grown_intro (Open b)); [exact Hf|exact HE|].
  apply (inv_opened I (ob := b) Hi Ha Hf Hres Hfit HE (conj Hrecv eq_refl)).
  - exact (put_entry_disjoint open _ (Open b, 0) s (iv_disjoint _ _ _ I) (writable_fresh s _ open eq_refl Hf)).
  - exact (put_entry_typed open (hash (Open b)) (Open b) 0 s (iv_typed _ _ _ I) eq_refl eq_refl).
  - cbn [block_inv].
    destruct (source_ok_new (iv_chain _ _ _ I) HE Hf (n := n) (bal := pi_amount pi) (amt := 0)
      (own := oh_account (open_h b)) (rep := hash (Open b)) (height := 1)
      (src := Some (oh_source (open_h b))) _ _ _ He Hdst eq_refl) as [Hs1 Hs2].
    split_and!; [cbn; by rewrite upd_eq..|]. right. split; [exact Hs1|].
    rewrite Hs2. cbn. rewrite upd_eq, Hpa. done.
  - exact Hr0.
  - reflexivity.
  - reflexivity.
  - reflexivity.
  - unfold total_pending. change (pending (opened_store b (pi_amount pi)))
      with (delete (oh_account (open_h b), oh_source (open_h b)) (pending s)).
    by rewrite (msum_delete _ _ _ _ Hpi).
  - exact Huniq.
  - reflexivity.
  - intros r. change (representation_get (opened_store b (pi_amount pi)) r)
      with (representation_get (set_representation (insert (oh_representative (open_h b))
        (representation_get s (oh_representative (open_h b)) + pi_amount pi)) s) r).
    rewrite representation_get_insert. cbn [representative].
    destruct (Z.eqb_spec (oh_representative (open_h b)) r); case_decide; try congruence; subst; lia.
  - intros c Hc. rewrite (iv_checksum _ _ _ I) in Hc. injection Hc as <-. apply lookup_insert_eq.
Qed.

Lemma process_open_handled b : admissible (Open b) -> handled (Open b) (process_open b s).
Proof.
  intros (Hok & Hres & Hr0).
  destruct (block_exists s (hash (Open b))) eqn:Hex.
  { unfold process_open. cbv zeta. read_as Hex. by apply handled_failed. }
  destruct (block_exists s (oh_source (open_h b))) eqn:Hsx.
  2:{ unfold process_open. cbv zeta. read_as Hex. read_as Hsx. by apply handled_failed. }
  destruct (validate_message (oh_account (open_h b)) (hash (Open b)) (open_signature b)) eqn:Hv.
  { unfold process_open. cbv zeta. read_as Hex. read_as Hsx. rewrite Hv. by apply handled_failed. }
  destruct (accounts s !! oh_account (open_h b)) as [i|] eqn:Hi.
  { unfold process_open. cbv zeta. read_as Hex. read_as Hsx. rewrite Hv. read_step. unfold account_get. rewrite Hi. by apply handled_failed. }
  destruct (pending s !! (oh_account (open_h b), oh_source (open_h b))) as [pi|] eqn:Hpi.
  2:{ unfold process_open. cbv zeta. read_as Hex. read_as Hsx. rewrite Hv. read_step. unfold account_get. rewrite Hi.
      read_step. unfold pending_get. rewrite Hpi. by apply handled_failed. }
  destruct (Z.eqb_spec (oh_account (open_h b)) 0) as [Ha|Ha].
  { unfold process_open. cbv zeta. read_as Hex. read_as Hsx. rewrite Hv. read_step. unfold account_get. rewrite Hi.
    read_step. unfold pending_get. rewrite Hpi, Ha. by apply handled_failed. }
  apply block_exists_false in Hex. eexists _, _.
  split; [exact (process_open_run b pi Hex Hres Hi Ha Hpi Hr0 Hv)|].
  right. split; [done|]. by apply opened_store_inv.
Qed.

Lemma process_handled b : admissible b -> handled b (process b s).
Proof.
  destruct b as [b|b|b|b|b]; cbn [process].
  - apply process_send_handled.
  - intros (_ & _ & []).
  - apply process_receive_handled.
  - apply process_open_handled.
  - apply process_change_handled.
Qed.
End Handlers.
