(* ===== verification/LedgerRollback.v ===== *)
(** * Rolling back a block

    Each method of [rollback_visitor], run on the head of an account of a ledger
    that satisfies the invariant, removes that block and nothing else and
    re-establishes the invariant; [rollback] ends, within fuel linear in the
    number of blocks, with the block gone. *)
From Stdlib Require Import ZArith Lia List.
From stdpp Require Import prelude gmap.
From S2P Require Import Prelude Numbers Streams Blocks Store Ledger StoreFacts LedgerInv LedgerQueries LedgerExtend LedgerShrink LedgerProcess.

(** ** The invariant after the head of an account is gone *)

Lemma msum_insert_over {K V} `{Countable K} (f : K -> V -> Z) k v (m : gmap K V) :
  msum f (<[k := v]> m) = f k v + msum f (delete k m).
Proof. rewrite <- insert_delete_eq. apply msum_insert_new, lookup_delete_eq. Qed.

Section Cut.
Context `{Environment} {n : nat} {g : ghost} {s s' : store} (I : inv_with n g s).
Context {b : block} {i : account_info} {src : option Z}.
Let h := hash b.
Let a := gown g h.
Context (Hh : entry_at s h = Some (b, 0)) (Hi : accounts s !! a = Some i) (Hhead : head i = h).
Context (HE : forall x, entry_at s' x = cut_entries (entry_at s) b x).
Context (Hsrc : forall x, src = Some x -> grecv g x = Some h /\ x <> h /\ exists sb m, entry_at s x = Some (Send sb, m)).
Context (Hrecv : match src with Some x => x = source b | None => source b = 0 \/ entry_at s (source b) = None end).
Context (Hnot : match b with Send _ => grecv g h = None | _ => True end).

Lemma cut_not x : source_ok g (entry_at s) x h -> False.
Proof.
  intros ((sb & m & Hx & _) & _ & Hr). assert (b = Send sb) as Hb by congruence.
  rewrite Hb in Hnot. congruence.
Qed.

Lemma cut_top x : is_Some (entry_at s x) -> gown g x = gown g h -> gheight g x <= gheight g h.
Proof.
  intros [[b' m] Hx] Ho. destruct (ai_owner _ _ _ _ (iv_accounts _ _ _ I) _ _ _ Hx) as (i' & Hi' & Hle & _).
  rewrite Ho in Hi'. fold a in Hi'. assert (i' = i) by congruence. subst i'. by rewrite <- Hhead.
Qed.

Lemma cut_src_recv x : src = Some x -> grecv g x = Some h.
Proof. intros Hx. by destruct (Hsrc x Hx). Qed.

Lemma cut_src_any r x :
  entry_at s x = Some (b, r) -> source b <> 0 ->
  src = Some (source b) \/ ~ is_Some (entry_at s (source b)).
Proof.
  intros _ Hs. destruct src as [y|]; [left; congruence|right].
  destruct Hrecv as [?| ->]; [done|]. intros [? ?]. done.
Qed.

(** What the pending table has after the block is gone. *)
Definition pending_cut (P' : gmap (Z * Z) pending_info) : Prop :=
  forall d x, P' !! (d, x) =
    if decide (x = h) then None
    else match entry_at s x with
         | Some (Send sb, _) =>
             if decide (src = Some x) then
               if decide (d = sh_destination (send_h sb)) then Some (PendingInfo (gown g x) (gamt g x)) else None
             else pending s !! (d, x)
         | _ => None
         end.

Lemma inv_cut :
  tables_disjoint s' -> tables_typed s' ->
  accounts_inv (gcut g src) (entry_at s') (accounts s') (frontiers s') ->
  pending_cut (pending s') ->
  (forall x, blocks_info s' !! x = if decide (x = h) then None else blocks_info s !! x) ->
  total_balance (accounts s') + total_pending (pending s') = genesis_amount ->
  (forall r, representation_get s' r = weight_of (entry_at s') (accounts s') r) ->
  checksums s' !! 0 = Some (checksum_of (accounts s')) ->
  inv_with n (gcut g src) s'.
Proof.
  intros Hd Ht HA HP HJ Htot HR HC. pose proof (iv_chain _ _ _ I) as Ch.
  split; [done|done|..|done|done|done].
  - exact (chain_inv_cut Ch Hh HE cut_src_recv cut_not cut_top).
  - exact HA.
  - refine (pending_inv_cut Ch Hh HE _ _ (iv_pending _ _ _ I) _ cut_src_any HP).
    intros x Hx. by destruct (Hsrc x Hx) as (_ & ? & ?).
  - exact (info_inv_cut HE _ _ (iv_info _ _ _ I) HJ).
Qed.

(** *** An account loses its only block *)

Lemma inv_cut_open :
  is_open b = true -> tables_disjoint s' -> tables_typed s' ->
  accounts s' = delete a (accounts s) -> frontiers s' = delete h (frontiers s) ->
  pending_cut (pending s') ->
  total_pending (pending s') = total_pending (pending s) + balance_of i ->
  (forall x, blocks_info s' !! x = if decide (x = h) then None else blocks_info s !! x) ->
  (forall r, representation_get s' r
     = representation_get s r - (if repr (entry_at s) (rep_block i) =? r then balance_of i else 0)) ->
  (forall c, checksums s !! 0 = Some c -> checksums s' !! 0 = Some (xor256 c h)) ->
  inv_with n (gcut g src) s'.
Proof.
  intros Hop Hd Ht HA HF HP Hpt HJ HR HC. pose proof (iv_chain _ _ _ I) as Ch.
  assert (H1 : gheight g h = 1).
  { pose proof (ei_block _ _ _ _ _ _ (inv_entry I _ _ _ Hh)) as Hb. clear - Hop Hb.
    destruct b; try discriminate. by destruct Hb as (_ & _ & -> & _). }
  apply inv_cut; [done|done| |done|done|..].
  - exact (accounts_inv_cut_open Ch Hh HE cut_top (iv_accounts _ _ _ I) Hi Hhead _ _ H1 HA HF
      (open_previous b Hop)).
  - unfold total_balance. rewrite HA, (msum_delete _ _ i) by done. rewrite Hpt.
    pose proof (iv_total _ _ _ I). unfold total_balance in *. lia.
  - intros r. rewrite HR, (iv_weight _ _ _ I), HA.
    pose proof (weight_of_cut Ch Hh HE cut_top (iv_accounts _ _ _ I) r) as Hw.
    fold h in Hw. fold a in Hw. rewrite Hw. unfold weight_of. by rewrite (msum_delete _ _ i) by done.
  - rewrite (HC _ (iv_checksum _ _ _ I)). unfold checksum_of. rewrite HA.
    rewrite (mxor_delete _ _ i) by done. by rewrite Hhead.
Qed.

(** *** An account keeps other blocks *)

Context (Ho : is_open b = false).

Lemma cut_linked_prev :
  exists pb, entry_at s (previous b) = Some (pb, h) /\ gown g (previous b) = a
    /\ gheight g h = gheight g (previous b) + 1 /\ previous b <> h.
Proof.
  destruct (inv_previous I _ _ _ Hh Ho) as ((pb & Hp) & Hpo & Hph & Hr).
  exists pb. split_and!; [done|done|done|]. intros Hc. rewrite Hc in Hr. lia.
Qed.

Definition cut_info : account_info :=
  AccountInfo (previous b) (grep g (previous b)) (open_block_hash i) (gbal g (previous b))
    seconds_since_epoch (wrap 64 (block_count i - 1)).

Lemma cut_count : wrap 64 (block_count i - 1) = wrap 64 (gheight g (previous b)).
Proof.
  destruct cut_linked_prev as (pb & _ & _ & Hph & _).
  rewrite (ac_count _ _ _ _ (inv_head I _ _ Hi)), Hhead, Hph. unfold wrap.
  rewrite Zminus_mod_idemp_l. f_equal. lia.
Qed.

Lemma cut_account : account_inv (gcut g src) (entry_at s') a cut_info.
Proof.
  destruct cut_linked_prev as (pb & Hp & Hpo & Hph & Hne).
  split; cbn [head rep_block open_block_hash balance_of block_count cut_info]; try done.
  - exact (ac_zero _ _ _ _ (inv_head I _ _ Hi)).
  - exists pb. rewrite HE. unfold cut_entries. rewrite decide_False by done. by rewrite Hp, decide_True.
  - exact cut_count.
  - destruct (ac_open _ _ _ _ (inv_head I _ _ Hi)) as (ob & m & Hob & Hoa).
    destruct (cut_some HE _ _ _ Hob) as (m' & Hob' & _); [|eauto].
    intros Hc. rewrite Hc in Hob. fold h in Hob. rewrite Hh in Hob.
    injection Hob as Hb _. by rewrite Hb in Ho.
Qed.

Lemma inv_cut_linked :
  tables_disjoint s' -> tables_typed s' ->
  accounts s' = <[a := cut_info]> (accounts s) ->
  frontiers s' = <[previous b := a]> (delete h (frontiers s)) ->
  pending_cut (pending s') ->
  total_pending (pending s') = total_pending (pending s) + balance_of i - gbal g (previous b) ->
  (forall x, blocks_info s' !! x = if decide (x = h) then None else blocks_info s !! x) ->
  (forall r, representation_get s' r
     = representation_get s r - (if repr (entry_at s) (rep_block i) =? r then balance_of i else 0)
       + (if repr (entry_at s) (grep g (previous b)) =? r then gbal g (previous b) else 0)) ->
  (forall c, checksums s !! 0 = Some c -> checksums s' !! 0 = Some (xor256 (xor256 c h) (previous b))) ->
  inv_with n (gcut g src) s'.
Proof.
  intros Hd Ht HA HF HP Hpt HJ HR HC. pose proof (iv_chain _ _ _ I) as Ch.
  destruct cut_linked_prev as (pb & Hp & Hpo & Hph & Hne).
  apply inv_cut; [done|done| |done|done|..].
  - exact (accounts_inv_cut Ch Hh HE cut_top (iv_accounts _ _ _ I) Hi Hhead _ _ _ pb Hp Hpo Hph HA HF
      eq_refl cut_account).
  - unfold total_balance. rewrite HA, (msum_insert _ _ i) by done. rewrite Hpt. cbn [cut_info balance_of].
    pose proof (iv_total _ _ _ I). unfold total_balance in *. lia.
  - intros r. rewrite HR, (iv_weight _ _ _ I). unfold weight_of at 2. rewrite HA, msum_insert_over.
    pose proof (weight_of_cut Ch Hh HE cut_top (iv_accounts _ _ _ I) r) as Hw.
    fold h in Hw. fold a in Hw. unfold weight_of in Hw |- *. rewrite Hw.
    rewrite (msum_delete _ _ i) by done. cbn [cut_info balance_of rep_block].
    rewrite (repr_cut HE (grep g (previous b))); [lia| |].
    + destruct (ei_rep _ _ _ _ _ _ (inv_entry I _ _ _ Hp)) as (rb & k & Hr & _). by eexists.
    + by apply (rep_not_cut Ch Hh cut_top); [eexists|].
  - rewrite (HC _ (iv_checksum _ _ _ I)). unfold checksum_of. rewrite HA.
    rewrite (mxor_insert _ _ i) by done. by rewrite Hhead.
Qed.
End Cut.

(** ** Queries on tables that are being changed *)

(** The block tables of [t] are those of [s]. *)
Definition same_tables (s t : store) : Prop := forall ty, block_database ty t = block_database ty s.

Lemma same_tables_lookup s t ty x : same_tables s t -> lookup_in ty t x = lookup_in ty s x.
Proof. intros Hst. unfold lookup_in. by rewrite Hst. Qed.

Lemma same_tables_raw s t x : same_tables s t -> block_get_raw t x = block_get_raw s x.
Proof.
  intros Hst. unfold block_get_raw.
  pose proof (same_tables_lookup _ _ send x Hst) as H1. pose proof (same_tables_lookup _ _ receive x Hst) as H2.
  pose proof (same_tables_lookup _ _ open x Hst) as H3. pose proof (same_tables_lookup _ _ change x Hst) as H4.
  pose proof (same_tables_lookup _ _ send_v2 x Hst) as H5. cbn in *. by rewrite H1, H2, H3, H4, H5.
Qed.

Lemma same_tables_entry s t x : same_tables s t -> entry_at t x = entry_at s x.
Proof. intros Hst. unfold entry_at. by rewrite (same_tables_raw s t). Qed.

Lemma same_tables_wf s t :
  same_tables s t -> tables_disjoint s -> tables_typed s -> tables_disjoint t /\ tables_typed t.
Proof.
  intros Hst Hd Ht. split.
  - intros x t1 t2. rewrite !(same_tables_lookup s t) by done. apply Hd.
  - intros x ty b m. rewrite (same_tables_lookup s t) by done. apply Ht.
Qed.

Lemma same_tables_put s t ty x e : same_tables s t -> same_tables (put_entry ty x e s) (put_entry ty x e t).
Proof.
  intros Hst ty'. pose proof (Hst ty') as H1. pose proof (Hst ty) as H2.
  destruct ty, ty'; cbn in *; congruence.
Qed.

Lemma same_tables_del s t ty x : same_tables s t -> same_tables (del_entry ty x s) (del_entry ty x t).
Proof.
  intros Hst ty'. pose proof (Hst ty') as H1. pose proof (Hst ty) as H2.
  destruct ty, ty'; cbn in *; try done; injection H1 as H1; by rewrite H1.
Qed.

Section Frame.
Context `{Environment} {n : nat} {g : ghost} {s t : store} (I : inv_with n g s).
Context (Hfuel : (query_fuel n <= loop_fuel)%nat).

Lemma representative_frame x :
  same_tables s t -> is_Some (entry_at s x) -> ledger_representative x t = Ok (grep g x, t).
Proof.
  intros Hst Hx. pose proof (ledger_representative_ok I Hfuel x Hx) as Hr.
  assert (Hg : forall y, block_get t y = block_get s y)
    by (intros y; by rewrite !block_get_entry, (same_tables_entry s t)).
  assert (Hl : forall fuel y, representative_loop fuel t y = representative_loop fuel s y).
  { induction fuel as [|fuel IH]; intros y; [done|]. cbn [representative_loop]. rewrite Hg.
    destruct (block_get s y) as [[]|]; rewrite ?IH; done. }
  unfold ledger_representative, st_bind, st_run, st_get, st_assert, st_ret, representative_calculated in *.
  rewrite Hl. destruct (representative_loop loop_fuel s x) as [v|]; [|done].
  rewrite block_exists_entry, (same_tables_entry s t), <- block_exists_entry by done.
  destruct (is_zero v || block_exists s v); [|done]. cbn in *. congruence.
Qed.

Lemma balance_frame x :
  same_tables s t -> blocks_info t = blocks_info s -> is_Some (entry_at s x) -> balance t x = Ok (gbal g x).
Proof.
  intros Hst Hb Hx. apply (balance_monotone (s := s)); [|by apply (balance_ok I Hfuel)].
  assert (Hg : forall y, block_get t y = block_get s y)
    by (intros y; by rewrite !block_get_entry, (same_tables_entry s t)).
  split; [intros y b'; by rewrite Hg| |done].
  rewrite Hg, block_get_entry. by rewrite (genesis_entry I).
Qed.

(** The owner of a block can be asked for while the head of a chain is being
    removed: its frontier is still there. *)
Lemma account_frame x :
  (forall y, block_successor t y = block_successor s y) -> blocks_info t = blocks_info s ->
  frontiers t = frontiers s -> block_exists t x = true -> is_Some (entry_at s x) ->
  ledger_account x t = Ok (gown g x, t).
Proof.
  intros Hs Hb Hf Hex Hx. pose proof (ledger_account_ok I Hfuel x Hx) as Ha.
  assert (Hl : forall fuel y z, account_loop fuel t y z = account_loop fuel s y z).
  { induction fuel as [|fuel IH]; intros y z; [done|]. cbn [account_loop].
    unfold block_info_get, frontier_get. rewrite Hb, Hf, Hs, IH. done. }
  assert (Hex' : block_exists s x = true) by (by apply block_exists_true).
  unfold ledger_account, st_bind, st_run, st_get, st_assert, st_ret in *. rewrite Hex. rewrite Hex' in Ha. cbn in *.
  rewrite Hl. destruct (account_loop loop_fuel s x 1) as [v|]; [|done].
  destruct (is_zero v); [done|]. cbn in *. congruence.
Qed.
End Frame.

(** ** The methods of the visitor *)

Section Visit.
Context `{Environment} {n : nat} {g : ghost} {s : store} (I : inv_with n g s).
Context {b : block} {i : account_info} {src : option Z}.
Let h := hash b.
Let a := gown g h.
Context (Hh : entry_at s h = Some (b, 0)) (Hi : accounts s !! a = Some i) (Hhead : head i = h).

Lemma head_balance : balance_of i = gbal g h.
Proof. rewrite <- Hhead. exact (ac_balance _ _ _ _ (inv_head I _ _ Hi)). Qed.

Lemma head_rep : rep_block i = grep g h.
Proof. rewrite <- Hhead. exact (ac_rep _ _ _ _ (inv_head I _ _ Hi)). Qed.

Lemma head_count : block_count i mod block_info_max = gheight g h mod block_info_max.
Proof. rewrite (ac_count _ _ _ _ (inv_head I _ _ Hi)), Hhead. apply wrap_mod_info. Qed.

Lemma head_frontier : frontiers s !! h = Some a.
Proof. apply (ai_frontier _ _ _ _ (iv_accounts _ _ _ I)). eauto. Qed.

(** Deleting the block, and clearing the successor of the one before it. *)

Lemma del_run t : same_tables s t -> block_del h t = Ok (tt, del_entry (type b) h t).
Proof.
  intros Hst. destruct (same_tables_wf _ _ Hst (iv_disjoint _ _ _ I) (iv_typed _ _ _ I)) as [Hd Ht].
  by apply (block_del_run h b 0); [done|done|rewrite (same_tables_entry s t)].
Qed.

Lemma head_writable : writable (type b) h s.
Proof. by eapply writable_present; [apply I|apply I|]. Qed.

Lemma del_entries x : entry_at (del_entry (type b) h s) x = if decide (x = h) then None else entry_at s x.
Proof. apply del_entry_at; [apply I|exact head_writable]. Qed.

Context (Ho : is_open b = false) {pb : block} (Hp : entry_at s (previous b) = Some (pb, h)).

Lemma prev_not_head : previous b <> h.
Proof.
  intros Hc. rewrite Hc, Hh in Hp. injection Hp as _ Hz.
  apply (ei_reserved _ _ _ _ _ _ (inv_entry I _ _ _ Hh)). by left.
Qed.

Lemma clear_run t :
  same_tables (del_entry (type b) h s) t ->
  block_successor_clear (previous b) t = Ok (tt, put_entry (type pb) (previous b) (pb, 0) t).
Proof.
  intros Hst. pose proof (del_entry_disjoint (type b) h _ (iv_disjoint _ _ _ I)) as Hd.
  pose proof (del_entry_typed (type b) h _ (iv_typed _ _ _ I)) as Ht.
  destruct (same_tables_wf _ _ Hst Hd Ht) as [Hd' Ht'].
  assert (Hent : forall x, entry_at t x = if decide (x = h) then None else entry_at s x)
    by (intros x; rewrite (same_tables_entry _ _ _ Hst); apply del_entries).
  pose proof prev_not_head as Hne.
  apply (block_successor_clear_run _ pb h); [done|done| | |].
  - rewrite Hent. by rewrite decide_False.
  - exact (ei_hash _ _ _ _ _ _ (inv_entry I _ _ _ Hp)).
  - intros Hpo. destruct (inv_previous I _ _ _ Hp Hpo) as ((ppb & Hpp) & _ & _ & Hr).
    split; [intros Hc; rewrite Hc in Hr; lia|]. exists ppb. rewrite Hent, decide_False; [done|].
    intros Hc. rewrite Hc, Hh in Hpp. injection Hpp as _ Hz.
    apply (ei_reserved _ _ _ _ _ _ (inv_entry I _ _ _ Hp)). left. done.
Qed.

Lemma cut_tables t :
  same_tables (put_entry (type pb) (previous b) (pb, 0) (del_entry (type b) h s)) t ->
  tables_disjoint t /\ tables_typed t /\ forall x, entry_at t x = cut_entries (entry_at s) b x.
Proof.
  intros Hst. pose proof (del_entry_disjoint (type b) h _ (iv_disjoint _ _ _ I)) as Hd.
  pose proof (del_entry_typed (type b) h _ (iv_typed _ _ _ I)) as Ht. pose proof prev_not_head as Hne.
  assert (Hw : writable (type pb) (previous b) (del_entry (type b) h s)).
  { apply (writable_present _ _ _ h); [done|done|]. rewrite del_entries. by rewrite decide_False. }
  destruct (same_tables_wf _ _ Hst) as [Hd' Ht'].
  { by apply put_entry_disjoint. } { by apply put_entry_typed; [|apply is_kind_type|]. }
  split_and!; [done|done|]. intros x. rewrite (same_tables_entry _ _ _ Hst), put_entry_at by done.
  rewrite del_entries. unfold cut_entries. fold h. case_decide as Hx; [subst x|].
  - rewrite decide_False by done. by rewrite Hp.
  - case_decide; [done|]. by destruct (entry_at s x) as [[? ?]|].
Qed.

(** Putting the information of the block before is idempotent. *)
Lemma latest_info :
  (if wrap 64 (block_count i - 1) mod block_info_max =? 0
   then <[previous b := BlockInfo a (gbal g (previous b))]> (blocks_info s) else blocks_info s)
  = blocks_info s.
Proof.
  rewrite (cut_count I Hh Hi Hhead Ho), wrap_mod_info.
  destruct (Z.eqb_spec (gheight g (previous b) mod block_info_max) 0) as [Hz|]; [|done].
  apply insert_id. rewrite (iv_info _ _ _ I), decide_True by (split; [by eexists|done]).
  by rewrite (proj1 (proj2 (inv_previous I _ _ _ Hh Ho))).
Qed.

Lemma rollback_info_run t :
  blocks_info t = blocks_info s ->
  rollback_info h (block_count i) t
  = Ok (tt, if block_count i mod block_info_max =? 0 then set_blocks_info (delete h) t else t).
Proof.
  intros Hb. unfold rollback_info. destruct (Z.eqb_spec (block_count i mod block_info_max) 0) as [Hz|]; [|done].
  unfold block_info_del. erewrite st_bind_ok by reflexivity. rewrite st_assert_true; [done|].
  apply bool_decide_eq_true. cbn [id]. rewrite Hb, (iv_info _ _ _ I), decide_True; [by eexists|].
  rewrite <- head_count. split; [by eexists|done].
Qed.

Lemma cut_blocks_info (J : gmap Z block_info) x :
  J = (if block_count i mod block_info_max =? 0 then delete h (blocks_info s) else blocks_info s) ->
  J !! x = if decide (x = h) then None else blocks_info s !! x.
Proof.
  intros ->. destruct (Z.eqb_spec (block_count i mod block_info_max) 0) as [Hz|Hz].
  - rewrite lookup_delete. case_decide; case_decide; congruence.
  - case_decide as Hx; [subst x|done]. rewrite (iv_info _ _ _ I), decide_False; [done|].
    intros [_ Hc]. by rewrite <- head_count in Hc.
Qed.

(** The end of the three methods, from tables in which everything but the
    frontier and the successor was already put right. *)
Context (Hsrc : forall x, src = Some x -> grecv g x = Some h /\ x <> h /\ exists sb m, entry_at s x = Some (Send sb, m)).
Context (Hrecv : match src with Some x => x = source b | None => source b = 0 \/ entry_at s (source b) = None end).
Context (Hnot : match b with Send _ => grecv g h = None | _ => True end).

Record rolled (P' : gmap (Z * Z) pending_info) (R' : gmap Z Z) (s' : store) : Prop := {
  ro_inv : inv_with n (gcut g src) s';
  ro_entries : forall x, entry_at s' x = cut_entries (entry_at s) b x;
  ro_accounts : accounts s' = <[a := cut_info (g := g) (b := b) (i := i)]> (accounts s);
  ro_frontiers : frontiers s' = <[previous b := a]> (delete h (frontiers s));
  ro_pending : pending s' = P';
  ro_info : forall x, blocks_info s' !! x = if decide (x = h) then None else blocks_info s !! x;
  ro_representation : representation s' = R'
}.

Lemma cut_tail t :
  same_tables (del_entry (type b) h s) t ->
  accounts t = <[a := cut_info (g := g) (b := b) (i := i)]> (accounts s) ->
  frontiers t = frontiers s -> blocks_info t = blocks_info s ->
  checksums t !! 0 = Some (xor256 (xor256 (checksum_of (accounts s)) h) (previous b)) ->
  pending_cut (g := g) (s := s) (b := b) (src := src) (pending t) ->
  total_pending (pending t) = total_pending (pending s) + balance_of i - gbal g (previous b) ->
  (forall r, representation_get t r
     = representation_get s r - (if repr (entry_at s) (rep_block i) =? r then balance_of i else 0)
       + (if repr (entry_at s) (grep g (previous b)) =? r then gbal g (previous b) else 0)) ->
  exists s',
    (frontier_del h ;;; frontier_put (previous b) a ;;; block_successor_clear (previous b) ;;;
     rollback_info h (block_count i))%m t = Ok (tt, s')
    /\ rolled (pending t) (representation t) s'.
Proof.
  intros Hst HA HF HJ HC HP Hpt HR.
  erewrite st_bind_ok by (apply frontier_del_run; rewrite HF, head_frontier; by eexists).
  erewrite st_bind_ok by reflexivity.
  match goal with |- context [st_bind _ _ ?u] => set (t1 := u) end.
  erewrite st_bind_ok by (by apply clear_run).
  set (t2 := put_entry (type pb) (previous b) (pb, 0) t1).
  destruct (put_entry_frame (type pb) (previous b) (pb, 0) t1) as (F1 & F2 & F3 & F4 & F5 & F6 & F7).
  fold t2 in F1, F2, F3, F4, F5, F6, F7.
  rewrite rollback_info_run by (rewrite F5; exact HJ). eexists. split; [reflexivity|].
  match goal with |- rolled _ _ ?u => set (s' := u) end.
  assert (Hst' : same_tables (put_entry (type pb) (previous b) (pb, 0) (del_entry (type b) h s)) s').
  { assert (same_tables (put_entry (type pb) (previous b) (pb, 0) (del_entry (type b) h s)) t2) as Hst2
      by (by apply same_tables_put). unfold s'. by destruct (block_count i mod block_info_max =? 0). }
  destruct (cut_tables s' Hst') as (Hd & Ht & HE).
  assert (P1 : accounts s' = <[a := cut_info (g := g) (b := b) (i := i)]> (accounts s))
    by (rewrite <- HA; unfold s'; destruct (block_count i mod block_info_max =? 0); exact F2).
  assert (P2 : frontiers s' = <[previous b := a]> (delete h (frontiers s)))
    by (rewrite <- HF; unfold s'; destruct (block_count i mod block_info_max =? 0); exact F1).
  assert (P3 : pending s' = pending t) by (unfold s'; destruct (block_count i mod block_info_max =? 0); exact F4).
  assert (P4 : representation s' = representation t) by (unfold s'; destruct (block_count i mod block_info_max =? 0); exact F6).
  assert (P5 : checksums s' = checksums t) by (unfold s'; destruct (block_count i mod block_info_max =? 0); exact F7).
  assert (P6 : forall x, blocks_info s' !! x = if decide (x = h) then None else blocks_info s !! x).
  { intros x. apply cut_blocks_info. unfold s'. rewrite <- HJ.
    destruct (block_count i mod block_info_max =? 0); [|exact F5]. transitivity (delete h (blocks_info t2)); [done|]. by rewrite F5. }
  split; [|done|done|done|done|done|done].
  apply (inv_cut_linked I Hh Hi Hhead HE Hsrc Hrecv Hnot Ho); [done|done|exact P1|exact P2|..].
  - by rewrite P3.
  - by rewrite P3.
  - done.
  - intros r. rewrite <- HR. unfold representation_get. by rewrite P4.
  - intros c Hc. rewrite (iv_checksum _ _ _ I) in Hc. injection Hc as <-. by rewrite P5.
Qed.
End Visit.

Lemma account_get_asserted_run a i t :
  accounts t !! a = Some i -> account_get_asserted a t = Ok (i, t).
Proof. intros Hi. unfold account_get_asserted, st_bind, st_get, account_get. by rewrite Hi. Qed.

Lemma wrap_add_exact w x y : 0 <= x + y < 2 ^ w -> wrap w (x + y) = x + y.
Proof. apply wrap_small. Qed.

Section Methods.
Context `{Environment} {n : nat} {g : ghost} {s : store} (I : inv_with n g s).
Context (Hfuel : (query_fuel n <= loop_fuel)%nat).

(** The result of a method: the block [b] is gone, the invariant holds, and the
    ghost data changed in what is received only. *)
Definition undone (b : block) (r : res (unit * store)) : Prop :=
  exists s' src, r = Ok (tt, s') /\ inv_with n (gcut g src) s'
  /\ (forall x, entry_at s' x = cut_entries (entry_at s) b x)
  /\ (forall x, src = Some x -> x = source b).

(** [b] is the head of the account [a]. *)
Record is_head (b : block) (a : account) (i : account_info) : Prop := {
  ih_entry : entry_at s (hash b) = Some (b, 0);
  ih_account : accounts s !! a = Some i;
  ih_head : head i = hash b;
  ih_own : gown g (hash b) = a
}.

Lemma head_prev b a i :
  is_head b a i -> is_open b = false ->
  exists pb, entry_at s (previous b) = Some (pb, hash b) /\ previous b <> 0.
Proof.
  intros [] Ho. destruct (inv_previous I _ _ _ ih_entry0 Ho) as ((pb & Hp) & _).
  exists pb. split; [done|]. intros Hc. by rewrite Hc, (zero_entry I) in Hp.
Qed.

Lemma rep_entry x b m :
  entry_at s x = Some (b, m) ->
  exists rb k, entry_at s (grep g x) = Some (rb, k) /\ representative rb <> 0
    /\ repr (entry_at s) (grep g x) = representative rb.
Proof.
  intros Hx. destruct (ei_rep _ _ _ _ _ _ (inv_entry I _ _ _ Hx)) as (rb & k & Hr & Hok).
  exists rb, k. split_and!; [done|by destruct rb|]. unfold repr. by rewrite Hr.
Qed.

(** Weights after adding to one representative. *)
Lemma weight_added rb v r t :
  representation t = <[representative rb := v]> (representation s) ->
  representation_get t r = if decide (r = representative rb) then v else representation_get s r.
Proof.
  intros HR. unfold representation_get. rewrite HR. rewrite lookup_insert.
  repeat case_decide; subst; done.
Qed.

Lemma pending_cut_send b :
  block_inv g (entry_at s) (hash (Send b)) (Send b) -> grecv g (hash (Send b)) = None ->
  entry_at s (hash (Send b)) = Some (Send b, 0) ->
  pending_cut (g := g) (s := s) (b := Send b) (src := None)
    (delete (sh_destination (send_h b), hash (Send b)) (pending s)).
Proof.
  intros Hb Hr He d x. case_decide as Hx.
  - subst x. rewrite lookup_delete. case_decide as Hd; [done|].
    destruct (pending s !! (d, hash (Send b))) eqn:Hl; [|done].
    apply (pi_entry _ _ _ (iv_pending _ _ _ I)) in Hl as (sb & m & Hc & Hd' & _).
    rewrite He in Hc. injection Hc as <- _. destruct Hd. by rewrite Hd'.
  - rewrite lookup_delete_ne by congruence.
    destruct (pending s !! (d, x)) as [i|] eqn:Hl.
    + apply (pi_entry _ _ _ (iv_pending _ _ _ I)) in Hl as (sb & m & -> & _). done.
    + by destruct (entry_at s x) as [[[] ?]|].
Qed.

Lemma rollback_send_run b a i :
  is_head (Send b) a i -> grecv g (hash (Send b)) = None ->
  undone (Send b) (rollback_send b (PendingInfo a (gamt g (hash (Send b)))) s).
Proof.
  intros X Hr. pose proof X as [Xe Xa Xh Xo]. pose proof (inv_entry I _ _ _ Xe) as Xi.
  pose proof (ei_block _ _ _ _ _ _ Xi) as Xb. pose proof Xb as (_ & Xg & Xbal & Xamt & Xamt0).
  destruct (head_prev _ _ _ X eq_refl) as (pb & Hp & Hp0). cbn [previous] in Hp, Hp0.
  destruct (rep_entry _ _ _ Xe) as (rb & k & Hrb & Hr0 & Hrepr).
  pose proof (pi_send _ _ _ (iv_pending _ _ _ I) _ _ _ Xe) as Hpend. rewrite Hr, Xo in Hpend.
  subst a. pose proof (head_balance I Xa Xh) as Hbal. pose proof (head_rep I Xa Xh) as Hrep.
  destruct (weight_and_pending I (representative rb) _ _ Hpend) as [Hw0 Hw]. cbn [pi_amount] in Hw.
  pose proof genesis_fits as Hg. unfold rollback_send. cbv zeta. cbn [pi_source pi_amount].
  set (h := hash (Send b)) in *. set (p := sh_previous (send_h b)) in *.
  erewrite st_bind_ok by (by apply account_get_asserted_run).
  erewrite st_bind_ok by (apply pending_del_run; by eexists).
  erewrite st_bind_ok by (apply (representative_frame I Hfuel); [by intros []|by eexists]).
  erewrite st_bind_ok by (eapply representation_add_run; [exact Hrb|exact Hr0]).
  change (representation_get (set_pending _ s) (representative rb)) with (representation_get s (representative rb)).
  rewrite wrap_add_exact by lia.
  erewrite st_run_ok by (apply (balance_frame I Hfuel); [by intros []|done|by eexists]).
  erewrite st_bind_ok by (apply change_latest_run; [exact Xa|apply I|exact Hp0]).
  erewrite st_bind_ok by (apply (del_run I Xe); by intros []).
  edestruct (cut_tail I Xe Xa Xh (src := None) eq_refl Hp) as (s' & -> & Hro);
    [ done | by left | exact Hr | by intros [] | .. | by exists s', None; destruct Hro; split_and! ].
  - cbn. unfold cut_info. by rewrite Hrep, Xg.
  - done.
  - exact (latest_info I Xe Xa Xh eq_refl Hp).
  - rewrite Xh. apply lookup_insert_eq.
  - by apply pending_cut_send.
  - cbn. unfold total_pending. rewrite (msum_delete _ _ _ _ Hpend). cbn. fold p. lia.
  - intros r. erewrite weight_added by reflexivity. cbn. fold p. rewrite Hrep, Xg, Hbal.
    rewrite Xg in Hrepr. rewrite Hrepr.
    destruct (Z.eqb_spec (representative rb) r); case_decide; try congruence; subst; lia.
Qed.

(** A received send becomes pending again. *)
Lemma pending_cut_recv b x :
  entry_at s (hash b) = Some (b, 0) -> (forall sb, b <> Send sb) ->
  source_ok g (entry_at s) (hash b) x ->
  pending_cut (g := g) (s := s) (b := b) (src := Some x)
    (<[(gown g (hash b), x) := PendingInfo (gown g x) (gamt g x)]> (pending s))
  /\ pending s !! (gown g (hash b), x) = None.
Proof.
  intros He Hns ((sb & m & Hx & Hd) & Hr & Hrc).
  assert (Hnone : forall d, pending s !! (d, x) = None).
  { intros d. destruct (pending s !! (d, x)) eqn:Hl; [|done].
    apply (pi_entry _ _ _ (iv_pending _ _ _ I)) in Hl as (sb' & m' & _ & _ & _ & Hc). congruence. }
  split; [|done]. intros d y. case_decide as Hy.
  - subst y. rewrite lookup_insert_ne.
    + destruct (pending s !! (d, hash b)) eqn:Hl; [|done].
      apply (pi_entry _ _ _ (iv_pending _ _ _ I)) in Hl as (sb' & m' & Hc & _).
      rewrite He in Hc. injection Hc as Hc _. by destruct (Hns sb').
    + intros [_ Hc]%pair_equal_spec. rewrite Hc in Hr. lia.
  - rewrite lookup_insert. case_decide as Hdy.
    + apply pair_equal_spec in Hdy as [<- <-]. by rewrite Hx, Hd, !decide_True.
    + destruct (pending s !! (d, y)) as [i|] eqn:Hl.
      * pose proof Hl as (sb' & m' & -> & _)%(pi_entry _ _ _ (iv_pending _ _ _ I)).
        rewrite decide_False; [done|]. intros [= <-]. by rewrite Hnone in Hl.
      * destruct (entry_at s y) as [[[sb'| | | |] ?]|] eqn:Hey; try done.
        case_decide as Hs; [|done]. injection Hs as <-. rewrite decide_False; [done|].
        intros ->. apply Hdy. congruence.
Qed.

(** The owner of another block after the block [b] was deleted. *)
Lemma account_after_del b x t :
  entry_at s (hash b) = Some (b, 0) -> is_Some (entry_at s x) -> x <> hash b ->
  same_tables (del_entry (type b) (hash b) s) t -> blocks_info t = blocks_info s ->
  frontiers t = frontiers s -> ledger_account x t = Ok (gown g x, t).
Proof.
  intros He Hx Hne Hst HJ HF.
  assert (Hent : forall y, entry_at t y = if decide (y = hash b) then None else entry_at s y)
    by (intros y; rewrite (same_tables_entry _ _ _ Hst); by apply (del_entries I)).
  apply (account_frame I Hfuel); [|done|done| |done].
  - intros y. rewrite !block_successor_entry, Hent. case_decide as Hy; [|done]. subst y. by rewrite He.
  - apply block_exists_true. rewrite Hent. by rewrite decide_False.
Qed.

Lemma received_facts b x i :
  entry_at s (hash b) = Some (b, 0) -> source_ok g (entry_at s) (hash b) x ->
  accounts s !! gown g (hash b) = Some i -> head i = hash b -> gamt g x <= balance_of i ->
  amount_of s x = Ok (gamt g x) /\ x <> hash b /\ is_Some (entry_at s x) /\ 0 <= gamt g x
  /\ gamt g x <= representation_get s (repr (entry_at s) (rep_block i)) < 2 ^ 128.
Proof.
  intros He ((sb & m & Hx & _) & Hr & _) Hi Hhd Hle.
  pose proof (ei_block _ _ _ _ _ _ (inv_entry I _ _ _ Hx)) as (_ & _ & _ & _ & Ha).
  pose proof (weight_has_balance I _ _ Hi) as Hw. pose proof genesis_fits as Hg.
  split_and!; [exact (amount_ok I Hfuel _ _ _ Hx)| |by eexists|done|lia|lia].
  intros ->. lia.
Qed.

Lemma rollback_receive_run b a i :
  is_head (Receive b) a i -> undone (Receive b) (rollback_receive b s).
Proof.
  intros X. pose proof X as [Xe Xa Xh Xo]. pose proof (inv_entry I _ _ _ Xe) as Xi.
  pose proof (ei_block _ _ _ _ _ _ Xi) as Xb. pose proof Xb as (_ & Xg & Xs & Xbal).
  destruct (head_prev _ _ _ X eq_refl) as (pb & Hp & Hp0). cbn [previous] in Hp, Hp0.
  destruct (rep_entry _ _ _ Xe) as (rb & k & Hrb & Hr0 & Hrepr). subst a.
  pose proof (head_balance I Xa Xh) as Hbal. pose proof (head_rep I Xa Xh) as Hrep.
  pose proof (ei_fits _ _ _ _ _ _ (inv_entry I _ _ _ Hp)) as Hpf. unfold fits in Hpf.
  destruct (received_facts _ _ _ Xe Xs Xa Xh) as (Ham & Hne & Hsx & Ham0 & Hw); [lia|].
  rewrite Hrep, Hrepr in Hw. destruct (pending_cut_recv (Receive b) _ Xe ltac:(done) Xs) as [HP HPn].
  unfold rollback_receive. cbv zeta.
  set (h := hash (Receive b)) in *. set (p := rh_previous (receive_h b)) in *.
  set (src := rh_source (receive_h b)) in *.
  erewrite st_bind_ok by (apply (ledger_representative_ok I Hfuel); by eexists).
  erewrite st_run_ok by exact Ham.
  erewrite st_bind_ok by (apply (ledger_account_ok I Hfuel); by eexists).
  erewrite st_bind_ok by (by apply account_get_asserted_run).
  erewrite st_bind_ok by (apply (ledger_representative_ok I Hfuel); by eexists).
  erewrite st_bind_ok by (eapply representation_add_run; [exact Hrb|exact Hr0]).
  rewrite wrap_add_neg_small by lia.
  erewrite st_run_ok by (apply (balance_frame I Hfuel); [by intros []|done|by eexists]).
  erewrite st_bind_ok by (apply change_latest_run; [exact Xa|apply I|exact Hp0]).
  erewrite st_bind_ok by (apply (del_run I Xe); by intros []).
  erewrite st_bind_ok by (apply (account_after_del (Receive b)); [done|done|done|by intros []| |done];
    exact (latest_info I Xe Xa Xh eq_refl Hp)).
  erewrite st_bind_ok by reflexivity.
  edestruct (cut_tail I Xe Xa Xh (src := Some src) eq_refl Hp) as (s' & -> & Hro);
    [ | done | done | by intros [] | ..
    | exists s', (Some src); destruct Hro; split_and!; [done|done|done|by intros x [= <-]] ].
  - intros x [= <-]. destruct Xs as ((sb & m & Hx & _) & _ & Hrc). split_and!; [done|done|eauto].
  - done.
  - done.
  - exact (latest_info I Xe Xa Xh eq_refl Hp).
  - rewrite Xh. apply lookup_insert_eq.
  - exact HP.
  - cbn. unfold total_pending. rewrite msum_insert_new by exact HPn. cbn. fold p. lia.
  - intros r. erewrite weight_added by reflexivity. cbn. fold p. rewrite Hrep, Hbal.
    rewrite Xg in Hrepr |- *. rewrite Hrepr.
    destruct (Z.eqb_spec (representative rb) r); case_decide; try congruence; subst; lia.
Qed.

Lemma pending_cut_change b :
  entry_at s (hash (Change b)) = Some (Change b, 0) ->
  pending_cut (g := g) (s := s) (b := Change b) (src := None) (pending s).
Proof.
  intros He d x. destruct (pending s !! (d, x)) as [i|] eqn:Hl.
  - apply (pi_entry _ _ _ (iv_pending _ _ _ I)) in Hl as (sb & m & Hc & _). rewrite Hc.
    rewrite decide_False; [done|]. intros Hx. rewrite Hx, He in Hc. discriminate Hc.
  - case_decide; [done|]. by destruct (entry_at s x) as [[[] ?]|].
Qed.

Lemma rollback_change_run b a i :
  is_head (Change b) a i -> undone (Change b) (rollback_change b s).
Proof.
  intros X. pose proof X as [Xe Xa Xh Xo]. pose proof (inv_entry I _ _ _ Xe) as Xi.
  pose proof (ei_block _ _ _ _ _ _ Xi) as Xb. pose proof Xb as (Xp & Xg & Xbal).
  destruct (head_prev _ _ _ X eq_refl) as (pb & Hp & Hp0). cbn [previous] in Hp, Hp0.
  destruct (rep_entry _ _ _ Hp) as (rb & k & Hrb & Hr0 & Hrepr).
  destruct (ei_rep _ _ _ _ _ _ Xi) as (hb & k' & Hhb & Hhok). rewrite Xg, Xe in Hhb. injection Hhb as <- <-.
  cbn in Hhok. subst a. pose proof (head_balance I Xa Xh) as Hbal. pose proof (head_rep I Xa Xh) as Hrep.
  rewrite Xg in Hrep. assert (Hown : gown g (ch_previous (change_h b)) = gown g (hash (Change b))) by apply Xp.
  assert (Hreprh : repr (entry_at s) (hash (Change b)) = ch_representative (change_h b))
    by (unfold repr; by rewrite Xe).
  unfold rollback_change. cbv zeta.
  set (h := hash (Change b)) in *. set (p := ch_previous (change_h b)) in *.
  erewrite st_bind_ok by (apply (ledger_representative_ok I Hfuel); by eexists).
  erewrite st_bind_ok by (apply (ledger_account_ok I Hfuel); by eexists). rewrite Hown.
  erewrite st_bind_ok by (by apply account_get_asserted_run).
  erewrite st_run_ok by (apply (balance_ok I Hfuel); by eexists).
  erewrite st_bind_ok by (eapply representation_add_run; [exact Hrb|exact Hr0]).
  erewrite st_bind_ok by (eapply representation_add_run; [exact Xe|exact Hhok]).
  erewrite st_bind_ok by (apply (del_run I Xe); by intros []).
  erewrite st_bind_ok by (apply change_latest_run; [exact Xa|apply I|exact Hp0]).
  edestruct (cut_tail I Xe Xa Xh (src := None) eq_refl Hp) as (s' & -> & Hro);
    [ done | by left | done | by intros [] | .. | by exists s', None; destruct Hro; split_and! ].
  - cbn. unfold cut_info. cbn [previous]. fold p. by rewrite Hbal, Xbal.
  - done.
  - cbn. rewrite Hbal, Xbal. exact (latest_info I Xe Xa Xh eq_refl Hp).
  - rewrite Xh. apply lookup_insert_eq.
  - by apply pending_cut_change.
  - cbn. fold p. lia.
  - intros r. cbn [previous]. fold p. rewrite <- Xbal, <- Hbal, Hrepr.
    rewrite <- (move_weight_get I _ i (representative rb) r Xa). rewrite Hrep, Hreprh, Hbal, Xbal. reflexivity.
Qed.

(** The genesis block is the one whose source is not a block. *)
Definition is_genesis (b : block) : Prop :=
  match b with Open b => oh_source (open_h b) = genesis_account | _ => False end.

Lemma change_latest_del_run a i c t :
  accounts t !! a = Some i -> checksums t !! 0 = Some c ->
  change_latest a 0 0 0 0 t
  = Ok (tt, set_accounts (delete a) (set_checksums (insert 0 (xor256 c (head i))) t)).
Proof.
  intros Hi Hc. unfold change_latest. erewrite st_bind_ok by reflexivity.
  unfold account_get. rewrite Hi.
  erewrite st_bind_ok by (erewrite st_bind_ok by (by apply checksum_update_run); reflexivity).
  change (is_zero 0) with true. cbn [negb]. unfold account_del. erewrite st_bind_ok by reflexivity.
  rewrite st_assert_true; [done|]. apply bool_decide_eq_true. cbn. by eexists.
Qed.

Lemma rollback_open_run b a i :
  is_head (Open b) a i -> ~ is_genesis (Open b) -> undone (Open b) (rollback_open b s).
Proof.
  intros X Hng. pose proof X as [Xe Xa Xh Xo]. pose proof (inv_entry I _ _ _ Xe) as Xi.
  pose proof (ei_block _ _ _ _ _ _ Xi) as (Xac & Xg & Xht & [(Hc & _)|[Xs Xbal]]);
    [destruct (Hng Hc)|].
  destruct (rep_entry _ _ _ Xe) as (rb & k & Hrb & Hr0 & Hrepr). subst a.
  pose proof (head_balance I Xa Xh) as Hbal. pose proof (head_rep I Xa Xh) as Hrep.
  destruct (received_facts _ _ _ Xe Xs Xa Xh) as (Ham & Hne & Hsx & Ham0 & Hw); [lia|].
  rewrite Hrep, Hrepr in Hw. destruct (pending_cut_recv (Open b) _ Xe ltac:(done) Xs) as [HP HPn].
  assert (Hcount : block_count i mod block_info_max <> 0).
  { rewrite (head_count I Xa Xh), Xht. done. }
  unfold rollback_open. cbv zeta. set (h := hash (Open b)) in *. set (src := oh_source (open_h b)) in *.
  erewrite st_run_ok by exact Ham.
  erewrite st_bind_ok by (apply (ledger_account_ok I Hfuel); by eexists).
  erewrite st_bind_ok by (apply (ledger_representative_ok I Hfuel); by eexists).
  erewrite st_bind_ok by (eapply representation_add_run; [exact Hrb|exact Hr0]).
  rewrite wrap_add_neg_small by lia.
  erewrite st_bind_ok by (eapply change_latest_del_run; [exact Xa|apply I]).
  erewrite st_bind_ok by (apply (del_run I Xe); by intros []).
  erewrite st_bind_ok by (by apply (account_after_del (Open b)); [..|intros []| |]).
  erewrite st_bind_ok by reflexivity.
  rewrite frontier_del_run by (eexists; exact (head_frontier I Xa Xh)).
  eexists _, (Some src). split; [reflexivity|].
  match goal with |- inv_with _ _ ?t /\ _ => set (s' := t) end.
  assert (HE : forall x, entry_at s' x = cut_entries (entry_at s) (Open b) x).
  { intros x. change (entry_at s' x) with (entry_at (del_entry (type (Open b)) h s) x).
    rewrite (del_entries I Xe). unfold cut_entries. fold h. case_decide; [done|].
    destruct (entry_at s x) as [[b' m]|] eqn:Hx; [|done]. rewrite decide_False; [done|].
    cbn. intros ->. by rewrite (zero_entry I) in Hx. }
  split_and!; [|exact HE|by intros x [= <-]].
  assert (Hsrc : forall x, Some src = Some x ->
            grecv g x = Some h /\ x <> h /\ exists sb m, entry_at s x = Some (Send sb, m)).
  { intros x [= <-]. destruct Xs as ((sb & m & Hx & _) & _ & Hrc). split_and!; [exact Hrc|exact Hne|eauto]. }
  apply (inv_cut_open I Xe Xa Xh HE Hsrc eq_refl Logic.I eq_refl);
    [..|reflexivity|reflexivity|exact HP| | | |].
  - exact (del_entry_disjoint open h s (iv_disjoint _ _ _ I)).
  - exact (del_entry_typed open h s (iv_typed _ _ _ I)).
  - change (pending s') with (<[(gown g h, src) := PendingInfo (gown g src) (gamt g src)]> (pending s)).
    unfold total_pending. rewrite msum_insert_new by exact HPn. cbn. fold src in Xbal. lia.
  - intros x. apply (cut_blocks_info I Xa Xh). by rewrite (proj2 (Z.eqb_neq _ _) Hcount).
  - intros r. rewrite (weight_added rb (representation_get s (representative rb) - gamt g src)) by reflexivity.
    rewrite Hrep, Hrepr, Hbal. fold src in Xbal.
    destruct (Z.eqb_spec (representative rb) r); case_decide; try congruence; subst; lia.
  - intros c Hc. rewrite (iv_checksum _ _ _ I) in Hc. injection Hc as <-.
    change (checksums s') with (<[0 := xor256 (checksum_of (accounts s)) (head i)]> (checksums s)).
    rewrite Xh. apply lookup_insert_eq.
Qed.
End Methods.
