(* ===== verification/LedgerUndo.v ===== *)
(** * Rollback ends

    [rollback] calls itself: rolling back a send block first rolls back the
    chain of the destination until the send is pending again.  The recursion
    only reaches blocks that were inserted after the one it started from, so it
    ends; fuel of four times the number of blocks is enough. *)
From Stdlib Require Import ZArith Lia List.
From stdpp Require Import prelude gmap.
From S2P Require Import Prelude Numbers Streams Blocks Store Ledger StoreFacts LedgerInv LedgerQueries LedgerExtend LedgerShrink LedgerProcess LedgerRollback.

(** ** Counting blocks *)

Definition all_hashes (s : store) : gset Z :=
  dom (send_blocks s) ∪ dom (receive_blocks s) ∪ dom (open_blocks s) ∪ dom (change_blocks s)
  ∪ dom (send_blocks_v2 s).

Lemma elem_of_all_hashes s x : x ∈ all_hashes s <-> is_Some (entry_at s x).
Proof.
  unfold all_hashes. rewrite !elem_of_union, !elem_of_dom. unfold entry_at, block_get_raw.
  destruct (send_blocks s !! x), (receive_blocks s !! x), (open_blocks s !! x),
    (change_blocks s !! x), (send_blocks_v2 s !! x); cbn; naive_solver.
Qed.

(** Blocks inserted at [r] or later. *)
Definition later (rank : Z -> nat) (r : nat) (s : store) : nat :=
  size (filter (fun x => (r <= rank x)%nat) (all_hashes s)).

Lemma later_all rank s : later rank 0 s = size (all_hashes s).
Proof. unfold later. f_equal. set_solver by lia. Qed.

Lemma later_le rank r r' s : (r <= r')%nat -> (later rank r' s <= later rank r s)%nat.
Proof. intros Hr. apply subseteq_size. set_solver by lia. Qed.

(** Fewer blocks: [t] has only blocks of [s], and [y] is not one of them. *)
Lemma later_lt rank r s t y :
  (forall x, is_Some (entry_at t x) -> is_Some (entry_at s x)) ->
  is_Some (entry_at s y) -> entry_at t y = None -> (r <= rank y)%nat ->
  (later rank r t < later rank r s)%nat.
Proof.
  intros Hsub Hy Hty Hr. apply subset_size. apply strict_spec_alt.
  assert (Hin : forall x, x ∈ all_hashes t -> x ∈ all_hashes s)
    by (intros x; rewrite !elem_of_all_hashes; auto).
  split; [set_solver|]. intros Heq.
  assert (y ∈ filter (fun x => (r <= rank x)%nat) (all_hashes s)) as Hys
    by (apply elem_of_filter; split; [done|by apply elem_of_all_hashes]).
  rewrite <- Heq in Hys. apply elem_of_filter in Hys as [_ Hyt].
  apply elem_of_all_hashes in Hyt. rewrite Hty in Hyt. by destruct Hyt.
Qed.

Lemma later_lt_self rank s y : is_Some (entry_at s y) -> (later rank (S (rank y)) s < later rank (rank y) s)%nat.
Proof.
  intros Hy. apply subset_size. apply strict_spec_alt. split; [set_solver by lia|]. intros Heq.
  assert (y ∈ filter (fun x => (rank y <= rank x)%nat) (all_hashes s)) as Hys
    by (apply elem_of_filter; split; [done|by apply elem_of_all_hashes]).
  rewrite <- Heq in Hys. apply elem_of_filter in Hys as [? _]. lia.
Qed.

(** ** What a rollback may change *)

(** Everything about a block but who received it. *)
Definition same_ghost (g g' : ghost) : Prop :=
  gbal g' = gbal g /\ gamt g' = gamt g /\ gown g' = gown g /\ grep g' = grep g
  /\ gheight g' = gheight g /\ grank g' = grank g.

(** [t] has only blocks of [s], and all those inserted before [r]. *)
Definition trimmed (rank : Z -> nat) (r : nat) (s t : store) : Prop :=
  (forall x b, block_get t x = Some b -> block_get s x = Some b)
  /\ (forall x, (rank x < r)%nat -> block_get t x = block_get s x).

Lemma same_ghost_refl g : same_ghost g g.
Proof. by split_and!. Qed.
Lemma same_ghost_trans g1 g2 g3 : same_ghost g1 g2 -> same_ghost g2 g3 -> same_ghost g1 g3.
Proof. unfold same_ghost. naive_solver congruence. Qed.
Lemma trimmed_refl rank r s : trimmed rank r s s.
Proof. by split. Qed.
Lemma trimmed_trans rank r s1 s2 s3 : trimmed rank r s1 s2 -> trimmed rank r s2 s3 -> trimmed rank r s1 s3.
Proof. intros [A1 A2] [B1 B2]. split; [by auto|]. intros x Hx. by rewrite B2, A2. Qed.
Lemma trimmed_weaken rank r r' s t : (r <= r')%nat -> trimmed rank r' s t -> trimmed rank r s t.
Proof. intros Hr [A1 A2]. split; [done|]. intros x Hx. apply A2. lia. Qed.

Lemma get_entry s x b : block_get s x = Some b <-> exists m, entry_at s x = Some (b, m).
Proof.
  rewrite block_get_entry. destruct (entry_at s x) as [[b' m]|]; cbn; naive_solver.
Qed.

Lemma get_is_some s x : is_Some (block_get s x) <-> is_Some (entry_at s x).
Proof. rewrite block_get_entry. by rewrite fmap_is_Some. Qed.

Lemma trimmed_some rank r s t x : trimmed rank r s t -> is_Some (entry_at t x) -> is_Some (entry_at s x).
Proof. intros [A _]. rewrite <- !get_is_some. intros [b Hb]. eexists. by apply A. Qed.

Lemma cut_trimmed rank s t b :
  (forall x, entry_at t x = cut_entries (entry_at s) b x) ->
  trimmed rank (rank (hash b)) s t /\ entry_at t (hash b) = None.
Proof.
  intros HE. split; [split|].
  - intros x b' (m & Hm)%get_entry. rewrite HE in Hm. unfold cut_entries in Hm.
    case_decide; [done|]. destruct (entry_at s x) as [[b0 m0]|] eqn:Hx; [|done].
    apply get_entry. exists m0. congruence.
  - intros x Hx. rewrite !block_get_entry, HE. unfold cut_entries.
    rewrite decide_False by (intros ->; lia). by destruct (entry_at s x) as [[]|].
  - rewrite HE. unfold cut_entries. by rewrite decide_True.
Qed.

(** ** Order in a chain *)

Section Order.
Context `{Environment} {n : nat} {g : ghost} {s : store} (I : inv_with n g s).

(** Higher in a chain is later. *)
Lemma chain_rank x y :
  is_Some (entry_at s x) -> is_Some (entry_at s y) -> gown g x = gown g y ->
  gheight g x <= gheight g y -> (grank g x <= grank g y)%nat.
Proof.
  intros Hx. remember (grank g y) as r eqn:Hr. revert y Hr. induction (lt_wf r) as [r _ IH].
  intros y -> [[b m] Hy] Ho Hle. pose proof (inv_entry I _ _ _ Hy) as Hyi.
  destruct (decide (gheight g x = gheight g y)) as [Heq|Hneq].
  { assert (x = y) as ->; [|done]. apply (ci_uniq _ _ _ (iv_chain _ _ _ I)); [done|by eexists|done|done]. }
  destruct Hx as [[bx mx] Hx]. pose proof (ei_height _ _ _ _ _ _ (inv_entry I _ _ _ Hx)).
  destruct (is_open b) eqn:Hopen.
  { exfalso. pose proof (ei_block _ _ _ _ _ _ Hyi) as Hb. destruct b; try discriminate.
    destruct Hb as (_ & _ & Hh & _). lia. }
  destruct (inv_previous I _ _ _ Hy Hopen) as ((pb & Hp) & Hpo & Hph & Hr).
  assert (grank g x <= grank g (previous b))%nat; [|lia].
  apply (IH _ Hr _ eq_refl); [by eexists|congruence|lia].
Qed.

(** The head of the account that has a block. *)
Lemma head_of x :
  is_Some (entry_at s x) ->
  exists i hb, accounts s !! gown g x = Some i /\ is_head (g := g) (s := s) hb (gown g x) i
    /\ (grank g x <= grank g (hash hb))%nat /\ (gheight g (hash hb) = 1 -> x = hash hb).
Proof.
  intros [[b m] Hx]. destruct (ai_owner _ _ _ _ (iv_accounts _ _ _ I) _ _ _ Hx) as (i & Hi & Hle & _).
  pose proof (inv_head I _ _ Hi) as [_ [hb Hb] Ho _ _ _ _].
  pose proof (ei_hash _ _ _ _ _ _ (inv_entry I _ _ _ Hb)) as Hh.
  exists i, hb. rewrite Hh. split_and!; [done| | |].
  - split; rewrite ?Hh; done.
  - apply chain_rank; [by eexists|by eexists|done|done].
  - intros H1. apply (ci_uniq _ _ _ (iv_chain _ _ _ I)); [by eexists|by eexists|done|].
    pose proof (ei_height _ _ _ _ _ _ (inv_entry I _ _ _ Hx)). lia.
Qed.

Lemma head_entry x b :
  entry_at s x = Some (b, 0) -> exists i, is_head (g := g) (s := s) b (gown g x) i.
Proof.
  intros Hx. destruct (ai_owner _ _ _ _ (iv_accounts _ _ _ I) _ _ _ Hx) as (i & Hi & _ & Hh).
  pose proof (ei_hash _ _ _ _ _ _ (inv_entry I _ _ _ Hx)) as Hhash.
  exists i. split; rewrite ?Hhash; auto.
Qed.

(** A genesis block at the head of a chain is alone in it. *)
Lemma genesis_head hb a i x b m :
  is_head (g := g) (s := s) hb a i -> is_genesis hb -> entry_at s x = Some (b, m) -> gown g x = a ->
  (gheight g (hash hb) = 1 -> x = hash hb) -> is_genesis b.
Proof.
  intros [He _ _ _] Hg Hx Ho H1. pose proof (ei_block _ _ _ _ _ _ (inv_entry I _ _ _ He)) as Hb.
  destruct hb; [destruct Hg|destruct Hg|destruct Hg| |destruct Hg].
  destruct Hb as (_ & _ & Hh & _). specialize (H1 Hh). rewrite H1, He in Hx.
  injection Hx as <- _. exact Hg.
Qed.
End Order.

(** ** The four loops *)

Section Loops.
Context `{Environment} {n : nat} {rank : Z -> nat}.
Context (Hfuel : (query_fuel n <= loop_fuel)%nat).

(** A step that ends, keeps the invariant and only removes blocks from [r] on. *)
Definition trims {A} (g : ghost) (r : nat) (s : store) (out : res (A * store)) (post : A -> ghost -> store -> Prop) : Prop :=
  exists v g' s', out = Ok (v, s') /\ inv_with n g' s' /\ same_ghost g g' /\ trimmed rank r s s' /\ post v g' s'.

Definition visit_ends (fuel : nat) : Prop := forall g s b,
  inv_with n g s -> grank g = rank -> entry_at s (hash b) = Some (b, 0) -> ~ is_genesis b ->
  (4 * later rank (rank (hash b)) s + 1 <= fuel)%nat ->
  trims g (rank (hash b)) s (rollback_visit fuel b s) (fun _ _ s' => entry_at s' (hash b) = None).

Definition loop_ends (fuel : nat) : Prop := forall g s a h,
  inv_with n g s -> grank g = rank -> gown g h = a ->
  (forall b, block_get s h = Some b -> ~ is_genesis b) ->
  (4 * later rank (rank h) s + 2 <= fuel)%nat ->
  trims g (rank h) s (rollback_loop fuel a h s) (fun _ _ s' => entry_at s' h = None).

Definition rollback_ends (fuel : nat) : Prop := forall g s h b,
  inv_with n g s -> grank g = rank -> block_get s h = Some b -> ~ is_genesis b ->
  (4 * later rank (rank h) s + 3 <= fuel)%nat ->
  trims g (rank h) s (rollback fuel h s) (fun _ _ s' => entry_at s' h = None).

Definition until_ends (fuel : nat) : Prop := forall g s h sb,
  inv_with n g s -> grank g = rank -> block_get s h = Some (Send sb) ->
  (4 * later rank (S (rank h)) s + 4 <= fuel)%nat ->
  trims g (S (rank h)) s (rollback_until_pending fuel (sh_destination (send_h sb)) h s)
    (fun v g' _ => v = PendingInfo (gown g h) (gamt g h) /\ grecv g' h = None).

Lemma undone_trims g s b r :
  grank g = rank -> undone (n := n) (g := g) (s := s) b r ->
  trims g (rank (hash b)) s r (fun _ _ s' => entry_at s' (hash b) = None).
Proof.
  intros Hr (s' & src & -> & I' & HE & _). destruct (cut_trimmed rank s s' b HE) as [Ht Hn].
  exists tt, (gcut g src), s'. split_and!; [done|done|by split_and!|done|done].
Qed.

Lemma trims_then {A B} g r s (m : M store A) (k : A -> M store B) post post' :
  trims g r s (m s) post ->
  (forall v g' s', inv_with n g' s' -> same_ghost g g' -> trimmed rank r s s' -> post v g' s' ->
     trims g' r s' (k v s') post') ->
  trims g r s (st_bind m k s) post'.
Proof.
  intros (v & g1 & s1 & He & I1 & G1 & T1 & P1) Hk. rewrite (st_bind_ok _ _ _ _ _ He).
  destruct (Hk _ _ _ I1 G1 T1 P1) as (w & g2 & s2 & -> & I2 & G2 & T2 & P2).
  exists w, g2, s2. split_and!; [done|done| | |done].
  - by eapply same_ghost_trans.
  - by eapply trimmed_trans.
Qed.

Lemma trims_weaken {A} g r r' s (out : res (A * store)) (post post' : A -> ghost -> store -> Prop) :
  (r <= r')%nat -> trims g r' s out post -> (forall v g' s', post v g' s' -> post' v g' s') ->
  trims g r s out post'.
Proof.
  intros Hr (v & g' & s' & He & I' & G' & T' & P') Hp. exists v, g', s'.
  split_and!; try done; [by eapply trimmed_weaken|auto].
Qed.

(** After the destination was rolled back, the send block is still a head. *)
Lemma still_head g s g' s' sb :
  inv_with n g s -> inv_with n g' s' -> grank g = rank ->
  entry_at s (hash (Send sb)) = Some (Send sb, 0) ->
  trimmed rank (S (rank (hash (Send sb)))) s s' ->
  entry_at s' (hash (Send sb)) = Some (Send sb, 0).
Proof.
  intros I0 I1 Hr He [T1 T2]. set (h := hash (Send sb)) in *.
  assert (block_get s' h = Some (Send sb)) as (m & Hm)%get_entry
    by (rewrite T2 by lia; apply get_entry; eauto).
  rewrite Hm. do 2 f_equal.
  destruct (ei_succ _ _ _ _ _ _ (inv_entry I1 _ _ _ Hm)) as [|(nb & k & Hn & Hp)]; [done|]. exfalso.
  destruct (proj1 (get_entry s m nb)) as (k' & Hn'); [apply T1, get_entry; eauto|].
  destruct (is_open nb) eqn:Ho.
  - apply open_previous in Ho. apply (ei_reserved _ _ _ _ _ _ (inv_entry I0 _ _ _ He)). left. fold h. congruence.
  - destruct (inv_previous I0 _ _ _ Hn' Ho) as ((pb & Hpb) & _). rewrite Hp, He in Hpb.
    injection Hpb as _ Hz. apply (ei_reserved _ _ _ _ _ _ (inv_entry I0 _ _ _ Hn')). left. done.
Qed.

Lemma visit_send fuel g s b :
  until_ends fuel -> inv_with n g s -> grank g = rank -> entry_at s (hash (Send b)) = Some (Send b, 0) ->
  (4 * later rank (rank (hash (Send b))) s <= fuel)%nat ->
  trims g (rank (hash (Send b))) s (rollback_visit (S fuel) (Send b) s)
    (fun _ _ s' => entry_at s' (hash (Send b)) = None).
Proof.
  intros IHu I Hr He Hf. cbn [rollback_visit]. set (h := hash (Send b)) in *.
  destruct (IHu g s h b I Hr) as (v & g1 & s1 & E1 & I1 & G1 & T1 & -> & Hn); [apply get_entry; eauto| |].
  { pose proof (later_lt_self rank s h (ex_intro _ _ He)). lia. }
  pose proof (still_head _ _ _ _ _ I I1 Hr He T1) as He1.
  destruct (head_entry I1 _ _ He1) as (i & X). destruct G1 as (G1 & G2 & G3 & G4 & G5 & G6).
  pose proof (rollback_send_run I1 Hfuel _ _ _ X Hn) as Hu. fold h in X, Hu. rewrite G2, G3 in Hu.
  rewrite (st_bind_ok _ _ _ _ _ E1).
  destruct (undone_trims g1 s1 (Send b) _ ltac:(congruence) Hu) as (w & g2 & s2 & -> & I2 & G' & T2 & Hgone).
  exists w, g2, s2. split_and!; [done|done| | |done].
  - eapply same_ghost_trans; [|exact G']. by split_and!.
  - eapply trimmed_trans; [|exact T2]. eapply trimmed_weaken; [|exact T1]. lia.
Qed.

Lemma visit_step fuel : until_ends fuel -> visit_ends (S fuel).
Proof.
  intros IHu g s b I Hr He Hg Hf. destruct (head_entry I _ _ He) as (i & X).
  destruct b as [b|b|b|b|b].
  - apply visit_send; [done|done|done|done|lia].
  - destruct (ei_block _ _ _ _ _ _ (inv_entry I _ _ _ He)).
  - apply undone_trims; [done|]. exact (rollback_receive_run I Hfuel _ _ _ X).
  - apply undone_trims; [done|]. exact (rollback_open_run I Hfuel _ _ _ X Hg).
  - apply undone_trims; [done|]. exact (rollback_change_run I Hfuel _ _ _ X).
Qed.

Lemma loop_step fuel : visit_ends fuel -> loop_ends fuel -> loop_ends (S fuel).
Proof.
  intros IHv IHl g s a h I Hr Ho Hng Hf. cbn [rollback_loop].
  erewrite st_bind_ok by reflexivity. destruct (block_exists s h) eqn:Hex.
  2:{ apply block_exists_false in Hex. exists tt, g, s.
      split_and!; [done|done|apply same_ghost_refl|apply trimmed_refl|done]. }
  apply block_exists_true in Hex. destruct (head_of I h Hex) as (i & hb & Hi & X & Hle & H1).
  rewrite Ho in Hi. erewrite st_bind_ok by (by apply account_get_asserted_run).
  pose proof X as [Xe Xa Xh Xo]. rewrite Xh. erewrite st_bind_ok by reflexivity.
  assert (block_get s (hash hb) = Some hb) as -> by (apply get_entry; eauto).
  assert (Hngb : ~ is_genesis hb).
  { intros Hc. destruct Hex as [[b m] Hb].
    apply (Hng b); [apply get_entry; eauto|]. by eapply (genesis_head I hb _ i h). }
  rewrite Hr in Hle. pose proof (later_le rank _ _ s Hle) as Hlt.
  eapply (trims_then (A := unit)).
  - eapply trims_weaken; [exact Hle|apply IHv; [done|done|done|done|lia]|intros v g' s' Hp; exact Hp].
  - intros u g' s' I' G' T' Hgone. apply IHl; [done| | | |].
    + destruct G' as (_ & _ & _ & _ & _ & ->). done.
    + destruct G' as (_ & _ & -> & _). done.
    + intros b Hb. apply Hng. by apply T'.
    + enough (later rank (rank h) s' < later rank (rank h) s)%nat by lia.
      eapply (later_lt _ _ _ _ (hash hb)); [|by eexists|done|done].
      intros x. by eapply trimmed_some.
Qed.

Lemma rollback_step fuel : loop_ends fuel -> rollback_ends (S fuel).
Proof.
  intros IHl g s h b I Hr Hb Hng Hf. cbn [rollback]. erewrite st_bind_ok by reflexivity.
  assert (Hx : is_Some (entry_at s h)) by (apply get_is_some; by eexists).
  rewrite st_assert_true by (by apply block_exists_true).
  erewrite st_bind_ok by (by apply (ledger_account_ok I Hfuel)).
  apply IHl; [done|done|done| |lia]. intros b' Hb'. congruence.
Qed.

Lemma until_step fuel : rollback_ends fuel -> until_ends fuel -> until_ends (S fuel).
Proof.
  intros IHr IHu g s h sb I Hr (m & Hh)%get_entry Hf. cbn [rollback_until_pending].
  erewrite st_bind_ok by reflexivity. unfold pending_get.
  pose proof (pi_send _ _ _ (iv_pending _ _ _ I) _ _ _ Hh) as Hp. destruct (grecv g h) as [y|] eqn:Hy.
  2:{ rewrite Hp. exists (PendingInfo (gown g h) (gamt g h)), g, s.
      split_and!; [done|done|apply same_ghost_refl|apply trimmed_refl|done|done]. }
  destruct Hp as (rb & k & Hrb & Hsrc).
  assert (pending s !! (sh_destination (send_h sb), h) = None) as ->.
  { destruct (pending s !! _) eqn:Hl; [|done].
    apply (pi_entry _ _ _ (iv_pending _ _ _ I)) in Hl as (? & ? & _ & _ & _ & Hc). congruence. }
  assert (Hres : ~ reserved h) by (apply (inv_entry I _ _ _ Hh)).
  assert (Hs : source_ok g (entry_at s) y h /\ ~ is_genesis rb).
  { pose proof (ei_block _ _ _ _ _ _ (inv_entry I _ _ _ Hrb)) as Hbi. unfold reserved in Hres.
    destruct rb; cbn in Hsrc, Hbi |- *; rewrite ?Hsrc in *; naive_solver. }
  destruct Hs as [((sb' & m' & Hsb & Hd) & Hrk & _) Hng]. rewrite Hh in Hsb. injection Hsb as <- _.
  destruct (head_of I y (ex_intro _ _ Hrb)) as (i & hb & Hi & X & Hle & H1).
  pose proof X as [Xe Xa Xh Xo].
  erewrite st_bind_ok by reflexivity. unfold latest, account_get. rewrite Hd, Hi, Xh.
  rewrite Hr in Hrk, Hle. assert (Hlt : (S (rank h) <= rank (hash hb))%nat) by lia.
  pose proof (later_le rank _ _ s Hlt) as Hl. rewrite <- Hd.
  eapply (trims_then (A := unit)).
  - eapply trims_weaken; [exact Hlt| |intros v g' s' Hp; exact Hp].
    eapply IHr; [done|done|apply get_entry; eauto| |lia].
    intros Hc. apply Hng. by eapply (genesis_head I hb _ i y).
  - intros u g' s' I' G' T' Hgone. eapply (trims_weaken _ _ (S (rank h))); [done|apply IHu|].
    + done.
    + destruct G' as (_ & _ & _ & _ & _ & ->). done.
    + destruct T' as [_ T']. rewrite T' by lia. apply get_entry. eauto.
    + enough (later rank (S (rank h)) s' < later rank (S (rank h)) s)%nat by lia.
      eapply (later_lt _ _ _ _ (hash hb)); [|by eexists|done|done].
      intros x. by eapply trimmed_some.
    + intros v g2 s2. destruct G' as (_ & -> & -> & _). done.
Qed.

Lemma loops_end fuel : visit_ends fuel /\ loop_ends fuel /\ rollback_ends fuel /\ until_ends fuel.
Proof.
  induction fuel as [|fuel (IHv & IHl & IHr & IHu)].
  - split_and!; intros ?; intros; lia.
  - split_and!; [by apply visit_step|by apply loop_step|by apply rollback_step|by apply until_step].
Qed.
End Loops.
