(* ===== verification/LedgerUnique.v ===== *)
(** * The tables are a function of the blocks

    Two ledgers that satisfy the invariant and have the same blocks agree on
    everything else: successors, accounts (but for the time of modification),
    frontiers, pending entries, block information, weights and checksum.  So the
    order in which a node learned the blocks leaves no trace in its ledger. *)
From Stdlib Require Import ZArith Lia List.
From stdpp Require Import prelude gmap.
From S2P Require Import Prelude Numbers Streams Blocks Store Ledger StoreFacts LedgerInv LedgerQueries LedgerExtend LedgerShrink LedgerProcess LedgerRollback LedgerUndo.

(** An account without the time of its last change. *)
Definition untimed (i : account_info) : account_info :=
  AccountInfo (head i) (rep_block i) (open_block_hash i) (balance_of i) 0 (block_count i).

(** Ledgers that only differ in times and in explicit zero weights. *)
Record ledger_equiv (s t : store) : Prop := {
  le_entries : forall x, entry_at t x = entry_at s x;
  le_accounts : untimed <$> accounts t = untimed <$> accounts s;
  le_frontiers : frontiers t = frontiers s;
  le_pending : pending t = pending s;
  le_info : blocks_info t = blocks_info s;
  le_weight : forall r, representation_get t r = representation_get s r;
  le_checksum : checksums t !! 0 = checksums s !! 0
}.

#[export] Instance ledger_equiv_equivalence : Equivalence ledger_equiv.
Proof.
  split.
  - by intros s.
  - intros s t []. by split.
  - intros s t u [] []. split; try congruence; intros; etrans; eauto.
Qed.

Section Fold.
Context {K V : Type} `{Countable K}.

Lemma msum_fmap (f : K -> V -> Z) (c : V -> V) (m : gmap K V) :
  (forall k v, f k (c v) = f k v) -> msum f (c <$> m) = msum f m.
Proof.
  intros Hf. induction m as [|k v m Hk IH] using map_ind; [by rewrite fmap_empty|].
  rewrite fmap_insert, !msum_insert_new, IH, Hf; [done|done|by rewrite lookup_fmap, Hk].
Qed.

Lemma mxor_fmap (f : K -> V -> Z) (c : V -> V) (m : gmap K V) :
  (forall k v, f k (c v) = f k v) -> mxor f (c <$> m) = mxor f m.
Proof.
  intros Hf. induction m as [|k v m Hk IH] using map_ind; [by rewrite fmap_empty|].
  rewrite fmap_insert, !mxor_insert_new, IH, Hf; [done|done|by rewrite lookup_fmap, Hk].
Qed.
End Fold.

(** *** A ledger that has all blocks of another *)

Section Sub.
Context `{Environment} {n n' : nat} {g g' : ghost} {s t : store}.
Context (I : inv_with n g s) (J : inv_with n' g' t).
Context (Hsub : forall x b, block_get s x = Some b -> block_get t x = Some b).

Lemma sub_entry x b m : entry_at s x = Some (b, m) -> exists m', entry_at t x = Some (b, m').
Proof. intros Hx. apply get_entry, Hsub, get_entry. eauto. Qed.

(** What the ghost data says of the block [x] in both ledgers. *)
Record agree (x : Z) : Prop := {
  ag_bal : gbal g' x = gbal g x;
  ag_own : gown g' x = gown g x;
  ag_rep : grep g' x = grep g x;
  ag_height : gheight g' x = gheight g x;
  ag_amt : forall sb m, entry_at s x = Some (Send sb, m) -> gamt g' x = gamt g x
}.

Lemma source_agree x p p' :
  source_ok g (entry_at s) x p -> source_ok g' (entry_at t) x p' -> p = p' -> agree p ->
  gamt g' p' = gamt g p.
Proof. intros ((sb & m & Hp & _) & _) _ <- Ha. by eapply ag_amt. Qed.

Lemma sub_agree x : is_Some (entry_at s x) -> agree x.
Proof.
  remember (grank g x) as r eqn:Hr. revert x Hr. induction (lt_wf r) as [r _ IH].
  intros x -> [[b m] Hx]. destruct (sub_entry _ _ _ Hx) as (m' & Hx').
  pose proof (ei_block _ _ _ _ _ _ (inv_entry I _ _ _ Hx)) as Hb.
  pose proof (ei_block _ _ _ _ _ _ (inv_entry J _ _ _ Hx')) as Hb'.
  assert (Hp : forall p, prev_ok g (entry_at s) x p -> agree p).
  { intros p ((pb & Hp) & _ & _ & Hlt). by apply (IH _ Hlt _ eq_refl); eexists. }
  assert (Hs : forall p, source_ok g (entry_at s) x p -> agree p).
  { intros p ((sb & k & Hp' & _) & Hlt & _). by apply (IH _ Hlt _ eq_refl); eexists. }
  assert (Hns : (forall sb, b <> Send sb) -> forall sb k, entry_at s x = Some (Send sb, k) -> gamt g' x = gamt g x).
  { intros Hn sb k Hk. rewrite Hx in Hk. injection Hk as Hk _. by destruct (Hn sb). }
  destruct b as [b|b|b|b|b]; cbn [block_inv] in Hb, Hb'; cbv zeta in Hb, Hb'.
  - destruct Hb as (P1 & R1 & B1 & A1 & _), Hb' as (P2 & R2 & B2 & A2 & _). destruct (Hp _ P1) as [].
    destruct P1 as (_ & O1 & H1 & _), P2 as (_ & O2 & H2 & _). split; intros; congruence.
  - done.
  - destruct Hb as (P1 & R1 & S1 & B1), Hb' as (P2 & R2 & S2 & B2).
    pose proof (source_agree _ _ _ S1 S2 eq_refl (Hs _ S1)). destruct (Hp _ P1) as [].
    destruct P1 as (_ & O1 & H1 & _), P2 as (_ & O2 & H2 & _). split; [lia|congruence|congruence|lia|by apply Hns].
  - destruct Hb as (A1 & R1 & H1 & C1), Hb' as (A2 & R2 & H2 & C2).
    split; [|congruence|congruence|congruence|by apply Hns].
    destruct C1 as [(Hg & _ & B1)|[S1 B1]], C2 as [(Hg' & _ & B2)|[S2 B2]].
    + congruence.
    + destruct S2 as ((sb & k & Hsb & _) & _). rewrite Hg, (genesis_entry J) in Hsb. done.
    + destruct S1 as ((sb & k & Hsb & _) & _). rewrite Hg', (genesis_entry I) in Hsb. done.
    + rewrite B1, B2. exact (source_agree _ _ _ S1 S2 eq_refl (Hs _ S1)).
  - destruct Hb as (P1 & R1 & B1), Hb' as (P2 & R2 & B2). destruct (Hp _ P1) as [].
    destruct P1 as (_ & O1 & H1 & _), P2 as (_ & O2 & H2 & _). split; [congruence|congruence|congruence|lia|by apply Hns].
Qed.

End Sub.

(** *** Ledgers with the same blocks *)

Lemma same_sub {s t : store} :
  (forall x, block_get t x = block_get s x) -> forall x b, block_get s x = Some b -> block_get t x = Some b.
Proof. intros Hsame x b Hx. by rewrite Hsame. Qed.

Section Unique.
Context `{Environment} {n n' : nat} {g g' : ghost} {s t : store}.
Context (I : inv_with n g s) (J : inv_with n' g' t).
Context (Hsame : forall x, block_get t x = block_get s x).

Lemma same_entry x b m : entry_at s x = Some (b, m) -> exists m', entry_at t x = Some (b, m').
Proof. exact (sub_entry (same_sub Hsame) x b m). Qed.

Lemma same_entry' x b m : entry_at t x = Some (b, m) -> exists m', entry_at s x = Some (b, m').
Proof. exact (sub_entry (same_sub (fun x => eq_sym (Hsame x))) x b m). Qed.

Lemma ghosts_agree x : is_Some (entry_at s x) -> agree (g := g) (g' := g') (s := s) x.
Proof. exact (sub_agree I J (same_sub Hsame) x). Qed.

(** A block that has a successor in one ledger has the same one in the other. *)
Lemma successor_agrees {k k' h h'} {u v : store} (Iu : inv_with k h u) (Iv : inv_with k' h' v) x b m m' :
  (forall x, block_get v x = block_get u x) ->
  entry_at u x = Some (b, m) -> entry_at v x = Some (b, m') -> m <> 0 -> m' = m.
Proof.
  intros Huv Hu Hv Hm.
  destruct (ei_succ _ _ _ _ _ _ (inv_entry Iu _ _ _ Hu)) as [|(sb & j & Hs & Hp)]; [done|].
  destruct (proj1 (get_entry v m sb)) as (j' & Hs'); [rewrite Huv; apply get_entry; eauto|].
  destruct (is_open sb) eqn:Ho.
  - apply open_previous in Ho. rewrite <- Hp, Ho, (zero_entry Iu) in Hu. done.
  - destruct (inv_previous Iv _ _ _ Hs' Ho) as ((pb & Hpb) & _). rewrite Hp in Hpb. congruence.
Qed.

Lemma entries_agree x : entry_at t x = entry_at s x.
Proof.
  destruct (entry_at s x) as [[b m]|] eqn:Hx.
  - destruct (same_entry _ _ _ Hx) as (m' & Hx'). rewrite Hx'. do 2 f_equal.
    destruct (decide (m = 0)) as [->|Hm]; [|exact (successor_agrees I J _ _ _ _ Hsame Hx Hx' Hm)].
    destruct (decide (m' = 0)) as [|Hm']; [done|].
    symmetry. exact (successor_agrees J I _ _ _ _ (fun x => eq_sym (Hsame x)) Hx' Hx Hm').
  - destruct (entry_at t x) as [[b m]|] eqn:Hx'; [|done].
    apply same_entry' in Hx' as (m' & Hc). congruence.
Qed.
End Unique.

Section Equiv.
Context `{Environment}.
Implicit Types (s t : store) (g : ghost).

(** One direction of each part, to be used both ways. *)
Lemma accounts_agree {n n' g g' s t} (I : inv_with n g s) (J : inv_with n' g' t) a i :
  (forall x, block_get t x = block_get s x) -> accounts s !! a = Some i ->
  exists i', accounts t !! a = Some i' /\ untimed i' = untimed i.
Proof.
  intros Hsame Hi. pose proof (inv_head I _ _ Hi) as [_ [hb Hb] Ho Hbal Hc Hr (ob & m & Hob & Hoa)].
  pose proof (entries_agree I J Hsame) as HE. destruct (ghosts_agree I J Hsame (head i)) as [A1 A2 A3 A4 _]; [by eexists|].
  assert (Hb' : entry_at t (head i) = Some (hb, 0)) by (by rewrite HE).
  destruct (ai_owner _ _ _ _ (iv_accounts _ _ _ J) _ _ _ Hb') as (i' & Hi' & _ & Hh). specialize (Hh eq_refl).
  rewrite A2, Ho in Hi'. exists i'. split; [done|].
  pose proof (inv_head J _ _ Hi') as [_ _ _ Hbal' Hc' Hr' (ob' & m' & Hob' & Hoa')].
  rewrite Hh in Hbal', Hc', Hr'. rewrite HE in Hob'.
  assert (open_block_hash i' = open_block_hash i) as Hopen.
  { pose proof (ei_block _ _ _ _ _ _ (inv_entry I _ _ _ Hob)) as (Q1 & _ & Q2 & _).
    pose proof (ei_block _ _ _ _ _ _ (inv_entry I _ _ _ Hob')) as (Q1' & _ & Q2' & _).
    apply (ci_uniq _ _ _ (iv_chain _ _ _ I)); [by eexists|by eexists|congruence|congruence]. }
  unfold untimed. f_equal; congruence.
Qed.

Lemma grecv_agree {n n' g g' s t} (I : inv_with n g s) (J : inv_with n' g' t) x sb m r :
  (forall x, block_get t x = block_get s x) -> entry_at s x = Some (Send sb, m) ->
  grecv g x = Some r -> grecv g' x = Some r.
Proof.
  intros Hsame Hx Hr. pose proof (pi_send _ _ _ (iv_pending _ _ _ I) _ _ _ Hx) as Hp. rewrite Hr in Hp.
  destruct Hp as (rb & k & Hrb & Hsrc). destruct (same_entry Hsame _ _ _ Hrb) as (k' & Hrb').
  pose proof (ei_reserved _ _ _ _ _ _ (inv_entry I _ _ _ Hx)) as Hres. unfold reserved in Hres.
  pose proof (ei_block _ _ _ _ _ _ (inv_entry J _ _ _ Hrb')) as Hb.
  destruct rb as [rb|rb|rb|rb|rb]; cbn in Hsrc, Hb; rewrite ?Hsrc in Hb.
  - destruct Hres. by left.
  - destruct Hb.
  - by destruct Hb as (_ & _ & (_ & _ & ->) & _).
  - destruct Hb as (_ & _ & _ & [(Hc & _)|[(_ & _ & ->) _]]); [|done]. destruct Hres. by right; right.
  - destruct Hres. by left.
Qed.

Lemma pending_agree {n n' g g' s t} (I : inv_with n g s) (J : inv_with n' g' t) k i :
  (forall x, block_get t x = block_get s x) -> pending s !! k = Some i -> pending t !! k = Some i.
Proof.
  destruct k as [d x]. intros Hsame (sb & m & Hx & Hd & -> & Hr)%(pi_entry _ _ _ (iv_pending _ _ _ I)).
  destruct (same_entry Hsame _ _ _ Hx) as (m' & Hx').
  destruct (ghosts_agree I J Hsame x) as [_ A2 _ _ A5]; [by eexists|].
  pose proof (pi_send _ _ _ (iv_pending _ _ _ J) _ _ _ Hx') as Hp. destruct (grecv g' x) as [r|] eqn:Hr'.
  - rewrite (grecv_agree J I _ _ _ _ (fun x => eq_sym (Hsame x)) Hx' Hr') in Hr. done.
  - by rewrite Hd, A2, (A5 _ _ Hx) in Hp.
Qed.

Lemma same_blocks_equiv {n n' g g' s t} (I : inv_with n g s) (J : inv_with n' g' t) :
  (forall x, block_get t x = block_get s x) -> ledger_equiv s t.
Proof.
  intros Hsame. assert (Hsame' : forall x, block_get s x = block_get t x) by (intros; done).
  pose proof (entries_agree I J Hsame) as HE.
  assert (HA : untimed <$> accounts t = untimed <$> accounts s).
  { apply map_eq. intros a. rewrite !lookup_fmap. destruct (accounts s !! a) as [i|] eqn:Hi.
    - destruct (accounts_agree I J a i Hsame Hi) as (i' & -> & Hu). cbn. by rewrite Hu.
    - destruct (accounts t !! a) as [i|] eqn:Hi'; [|done].
      destruct (accounts_agree J I a i Hsame' Hi') as (i' & Hc & _). congruence. }
  split; [exact HE|exact HA|..].
  - apply map_eq. intros x. apply option_eq. intros a.
    rewrite (ai_frontier _ _ _ _ (iv_accounts _ _ _ I)), (ai_frontier _ _ _ _ (iv_accounts _ _ _ J)).
    split; intros (i & Hi & Hh).
    + destruct (accounts_agree J I a i Hsame' Hi) as (i' & Hi' & Hu). exists i'.
      split; [done|]. apply (f_equal head) in Hu. cbn in Hu. congruence.
    + destruct (accounts_agree I J a i Hsame Hi) as (i' & Hi' & Hu). exists i'.
      split; [done|]. apply (f_equal head) in Hu. cbn in Hu. congruence.
  - apply map_eq. intros k. apply option_eq. intros i. split; intros Hk.
    + by apply (pending_agree J I).
    + by apply (pending_agree I J).
  - apply map_eq. intros x. rewrite (iv_info _ _ _ I), (iv_info _ _ _ J), HE.
    destruct (entry_at s x) as [e|] eqn:Hx.
    + destruct (ghosts_agree I J Hsame x) as [-> -> _ -> _]; [by eexists|]. done.
    + rewrite !decide_False; [done|by intros [[? ?] _]|by intros [[? ?] _]].
  - intros r. rewrite (iv_weight _ _ _ I), (iv_weight _ _ _ J). unfold weight_of.
    rewrite <- (msum_fmap _ untimed (accounts t)), HA, msum_fmap by done.
    apply msum_ext. intros a i _. unfold repr. by rewrite HE.
  - rewrite (iv_checksum _ _ _ I), (iv_checksum _ _ _ J). unfold checksum_of.
    by rewrite <- (mxor_fmap _ untimed (accounts t)), HA, mxor_fmap by done.
Qed.
End Equiv.
