(* ===== verification/LedgerTheorems.v ===== *)
(** * The ledger: reachable states and their properties

    The states a node's ledger goes through are those reached from the genesis
    block by processing blocks and rolling blocks back.  All of them satisfy the
    invariant; the theorems of this file say what that means for the program. *)
From Stdlib Require Import ZArith Lia List.
From stdpp Require Import prelude gmap.
From S2P Require Import Prelude Numbers Streams Blocks Store Ledger StoreFacts LedgerInv LedgerQueries LedgerExtend LedgerShrink LedgerProcess LedgerRollback LedgerUndo LedgerUnique.

(** ** Genesis *)

(** The tables as the constructor of [block_store] leaves them. *)
Definition initial_store : store := set_checksums (insert 0 0) empty_store.

(** What the genesis block of a network has to be. *)
Definition genesis_ok `{Environment} (gb : open_block) : Prop :=
  oh_source (open_h gb) = genesis_account /\ oh_account (open_h gb) = genesis_account
  /\ oh_representative (open_h gb) = genesis_account /\ ~ reserved (hash (Open gb))
  /\ genesis_account <> 0.

Lemma initial_entries x : entry_at initial_store x = None.
Proof.
  apply entry_at_none, block_get_raw_none. intros []; unfold lookup_in; cbn; rewrite ?lookup_empty; done.
Qed.

Section Genesis.
Context `{Environment} {gb : open_block} (Hg : genesis_ok gb).
Let b := Open gb.
Let h := hash b.

Definition no_ghost : ghost :=
  Ghost (fun _ => 0) (fun _ => 0) (fun _ => 0) (fun _ => 0) (fun _ => 0) (fun _ => 0%nat) (fun _ => None).

Definition genesis_info : account_info := AccountInfo h h h genesis_amount seconds_since_epoch 1.

(** The tables after [genesis_initialize] on the empty tables [s0]. *)
Definition genesis_store (s0 : store) : store :=
  set_frontiers (insert h genesis_account)
    (set_checksums (insert 0 h)
      (set_representation (insert genesis_account genesis_amount)
        (set_accounts (insert genesis_account genesis_info)
          (put_entry open h (b, 0) s0)))).

Lemma genesis_initialize_run : genesis_initialize gb initial_store = Ok (tt, genesis_store initial_store).
Proof. reflexivity. Qed.

(** Tables without a block, an account or anything pending. *)
Record no_blocks (s0 : store) : Prop := {
  nb_disjoint : tables_disjoint s0;
  nb_typed : tables_typed s0;
  nb_entries : forall x, entry_at s0 x = None;
  nb_accounts : accounts s0 = ∅;
  nb_frontiers : frontiers s0 = ∅;
  nb_pending : pending s0 = ∅;
  nb_info : blocks_info s0 = ∅;
  nb_representation : representation s0 = ∅
}.

Lemma initial_no_blocks : no_blocks initial_store.
Proof.
  assert (Hn : forall ty x, lookup_in ty initial_store x = None)
    by (intros [] x; unfold lookup_in; cbn; rewrite ?lookup_empty; done).
  split; [intros x t1 t2 [e He]; by rewrite Hn in He|intros x ty b' m He; by rewrite Hn in He
         |exact initial_entries|reflexivity..].
Qed.

Context {s0 : store} (N : no_blocks s0).

Lemma genesis_entries x : entry_at (genesis_store s0) x = ext_entries (entry_at s0) b x.
Proof.
  change (entry_at (genesis_store s0) x) with (entry_at (put_entry open h (b, 0) s0) x).
  rewrite put_entry_at; [|apply N|apply writable_fresh; [done|apply N]].
  unfold ext_entries. fold h. case_decide; [done|]. by rewrite (nb_entries _ N).
Qed.

Lemma genesis_chain :
  let g := gext no_ghost 0 h genesis_amount 0 genesis_account h 1 None in
  chain_inv 1 g (entry_at (genesis_store s0))
  /\ accounts_inv g (entry_at (genesis_store s0)) (accounts (genesis_store s0)) (frontiers (genesis_store s0))
  /\ pending_inv g (entry_at (genesis_store s0)) (pending (genesis_store s0))
  /\ info_inv g (entry_at (genesis_store s0)) (blocks_info (genesis_store s0)).
Proof.
  intros g. destruct Hg as (Hsrc & Hacc & Hrep & Hres & Hg0).
  pose proof genesis_entries as HE. pose proof (nb_entries _ N h) as Hf.
  assert (Hno : forall x e, entry_at s0 x = Some e -> False)
    by (intros x e Hx; by rewrite (nb_entries _ N) in Hx).
  assert (C0 : chain_inv 0 no_ghost (entry_at s0)).
  { split; [intros x b' m Hx; by apply Hno in Hx|intros x1 x2 [? Hx]; by apply Hno in Hx]. }
  assert (HT : forall pb m, entry_at s0 (previous b) = Some (pb, m) ->
            m = 0 /\ gown no_ghost (previous b) = genesis_account) by (intros pb m Hx; by apply Hno in Hx).
  assert (HAb : forall x b' m, entry_at s0 x = Some (b', m) -> gown no_ghost x = genesis_account ->
            gheight no_ghost x < 1 /\ (m = 0 -> x = previous b)) by (intros x b' m Hx; by apply Hno in Hx).
  assert (Hfit : fits 128 genesis_amount) by (unfold fits; rewrite genesis_fits; lia).
  split_and!.
  - eapply (chain_inv_ext C0 HE Hf Hres Hfit Hg0); [lia|done|exact HT|exact HAb| |].
    + cbn. rewrite !upd_eq. split_and!; [done|done|done|]. left. by split_and!.
    + exists b, 0. split; [exact (ext_new HE)|cbn; congruence].
  - eapply (accounts_inv_ext (A := ∅) (F := ∅) HE Hf Hres Hg0 HT HAb);
      [|cbn; by rewrite (nb_accounts _ N)|cbn; by rewrite (nb_frontiers _ N)|reflexivity|].
    + split; [intros a i Hi; by rewrite lookup_empty in Hi|intros x b' m Hx; by apply Hno in Hx|].
      intros x a. rewrite lookup_empty. split; [done|]. intros (i & Hi & _). by rewrite lookup_empty in Hi.
    + split; cbn; rewrite ?upd_eq; try done; [eexists; exact (ext_new HE)|].
      exists gb, 0. split; [exact (ext_new HE)|done].
  - refine (pending_inv_ext HE Hf Hres HT HAb ∅ _ _ _ _); [|done|].
    + split; [intros d x i Hi; by rewrite lookup_empty in Hi|intros x sb m Hx; by apply Hno in Hx].
    + intros d x. cbn. rewrite (nb_pending _ N), lookup_empty. by case_decide.
  - eapply (info_inv_ext HE Hf Hres HT HAb ∅); [|cbn; by rewrite (nb_info _ N)].
    intros x. rewrite lookup_empty, decide_False; [done|]. intros [[e He] _]. by apply Hno in He.
Qed.

Lemma genesis_inv_of : exists g, inv_with 1 g (genesis_store s0).
Proof.
  destruct genesis_chain as (C1 & C2 & C3 & C4). eexists. pose proof genesis_entries as HE.
  pose proof (nb_entries _ N h) as Hf. pose proof (proj1 (proj2 (proj2 Hg))) as Hrep.
  assert (HA : accounts (genesis_store s0) = <[genesis_account := genesis_info]> ∅)
    by (cbn; by rewrite (nb_accounts _ N)).
  split; [| |exact C1|exact C2|exact C3|exact C4|..].
  - exact (put_entry_disjoint open h (b, 0) s0 (nb_disjoint _ N) (writable_fresh _ _ open eq_refl Hf)).
  - exact (put_entry_typed open h b 0 s0 (nb_typed _ N) eq_refl eq_refl).
  - unfold total_balance, total_pending. rewrite HA. rewrite msum_insert_new by apply lookup_empty.
    cbn [pending genesis_store set_frontiers set_checksums set_representation set_accounts put_entry set_open_blocks].
    rewrite (nb_pending _ N), !msum_empty. cbn [balance_of genesis_info]. lia.
  - intros r. unfold weight_of. rewrite HA.
    rewrite msum_insert_new, msum_empty by apply lookup_empty. cbn [rep_block genesis_info balance_of].
    assert (repr (entry_at (genesis_store s0)) h = genesis_account) as ->
      by (pose proof (ext_new HE) as Hn; fold h in Hn; unfold repr; rewrite Hn; exact Hrep).
    unfold representation_get. cbn. rewrite (nb_representation _ N), lookup_insert.
    destruct (Z.eqb_spec genesis_account r); case_decide; try congruence; done.
  - unfold checksum_of. rewrite HA, mxor_insert_new by apply lookup_empty. unfold mxor. rewrite mfold_empty.
    cbn [head genesis_info]. rewrite Z.lxor_0_l. apply lookup_insert_eq.
Qed.
End Genesis.

Lemma genesis_inv `{Environment} gb : genesis_ok gb -> exists g, inv_with 1 g (genesis_store (gb := gb) initial_store).
Proof. intros Hg. exact (genesis_inv_of Hg initial_no_blocks). Qed.

(** ** Reachable ledgers *)

(** Fuel for rolling back any block of [s]. *)
Definition rollback_fuel (s : store) : nat := 4 * size (all_hashes s) + 3.

Section Reachable.
Context `{Environment}.

(** The ledger after [n] blocks were put or offered. *)
Inductive reachable (gb : open_block) : nat -> store -> Prop :=
| reach_genesis u s :
    genesis_ok gb -> genesis_initialize gb initial_store = Ok (u, s) -> reachable gb 1 s
| reach_process n s b r s' :
    reachable gb n s -> admissible b -> process b s = Ok (r, s') -> reachable gb (S n) s'
| reach_rollback n s h b fuel u s' :
    reachable gb n s -> block_get s h = Some b -> ~ is_genesis b -> (rollback_fuel s <= fuel)%nat ->
    rollback fuel h s = Ok (u, s') -> reachable gb n s'.

Lemma inv_with_weaken n n' g s : (n <= n')%nat -> inv_with n g s -> inv_with n' g s.
Proof.
  intros Hn [Hd Ht [C1 C2] Ha Hp Hi Htot Hw Hc]. split; try done. split; [|done].
  intros h b m Hh. destruct (C1 _ _ _ Hh). split; try done. lia.
Qed.

Lemma rollback_ok {n g s} (I : inv_with n g s) h b fuel :
  (query_fuel n <= loop_fuel)%nat -> block_get s h = Some b -> ~ is_genesis b ->
  (rollback_fuel s <= fuel)%nat ->
  exists g' s', rollback fuel h s = Ok (tt, s') /\ inv_with n g' s' /\ trimmed (grank g) (grank g h) s s'
    /\ entry_at s' h = None.
Proof.
  intros Hf Hb Hng Hfuel. destruct (loops_end (rank := grank g) Hf fuel) as (_ & _ & Hr & _).
  destruct (Hr g s h b I eq_refl Hb Hng) as ([] & g' & s' & He & I' & _ & T & Hgone).
  { unfold rollback_fuel in Hfuel. rewrite <- (later_all (grank g)) in Hfuel.
    pose proof (later_le (grank g) 0 (grank g h) s ltac:(lia)). lia. }
  eauto 6.
Qed.

Lemma reachable_inv gb n s :
  reachable gb n s -> (query_fuel n <= loop_fuel)%nat -> exists g, inv_with n g s.
Proof.
  induction 1 as [u s Hg Hi|n s b r s' _ IH Ha Hp|n s h b fuel u s' _ IH Hb Hng Hfuel Hr]; intros Hf.
  - rewrite genesis_initialize_run in Hi. injection Hi as _ <-. by apply genesis_inv.
  - assert (Hf' : (query_fuel n <= loop_fuel)%nat) by (unfold query_fuel in *; lia).
    destruct (IH Hf') as (g & I). destruct (process_handled I Hf' b Ha) as (ret & s1 & E & Hc).
    rewrite E in Hp. injection Hp as _ <-.
    destruct Hc as [(_ & ->)|(_ & g' & I' & _)]; [|eauto]. exists g. eapply inv_with_weaken; [|done]. lia.
  - destruct (IH Hf) as (g & I). destruct (rollback_ok I h b fuel Hf Hb Hng Hfuel) as (g' & s1 & E & I' & _).
    rewrite E in Hr. injection Hr as _ <-. eauto.
Qed.
End Reachable.

(** The block after [h] in its chain. *)
Lemma successor_ok `{Environment} {n g s} (I : inv_with n g s) h b m :
  (query_fuel n <= loop_fuel)%nat -> entry_at s h = Some (b, m) -> account_exists s h = false -> m <> 0 ->
  exists b' k, successor h s = Ok (b', s) /\ entry_at s m = Some (b', k) /\ previous b' = h.
Proof.
  intros Hf Hh Hna Hm. destruct (ei_succ _ _ _ _ _ _ (inv_entry I _ _ _ Hh)) as [|(nb & k & Hn & Hp)]; [done|].
  exists nb, k. split_and!; [|done|done]. unfold successor. read_step. read_step. rewrite Hna.
  rewrite st_assert_true by (apply block_exists_true; by eexists).
  destruct (ai_owner _ _ _ _ (iv_accounts _ _ _ I) _ _ _ Hh) as (i & Hi & _).
  assert (Hl : head i <> h).
  { intros Hc. pose proof (inv_head I _ _ Hi) as [_ [hb Hb] _ _ _ _ _]. rewrite Hc, Hh in Hb. congruence. }
  erewrite st_bind_ok.
  2:{ erewrite st_bind_ok by (apply (ledger_account_ok I Hf); by eexists). erewrite st_bind_ok by reflexivity.
      unfold latest, account_get. rewrite Hi, (proj2 (Z.eqb_neq _ _) Hl). reflexivity. }
  read_step. rewrite block_successor_entry, Hh. cbn [fmap option_fmap option_map snd from_option id].
  rewrite st_assert_true by (by rewrite is_zero_ne).
  read_step. by rewrite (entry_get _ _ _ Hn).
Qed.

(** The first block of an account. *)
Lemma successor_open `{Environment} {n g s} (I : inv_with n g s) a i :
  accounts s !! a = Some i ->
  exists ob k, successor a s = Ok (Open ob, s) /\ entry_at s (open_block_hash i) = Some (Open ob, k)
  /\ oh_account (open_h ob) = a.
Proof.
  intros Hi. pose proof (inv_head I _ _ Hi) as [_ _ _ _ _ _ (ob & k & Hob & Hoa)]. exists ob, k.
  split_and!; [|done|done]. unfold successor.
  assert (Hex : account_exists s a = true) by (unfold account_exists; by rewrite Hi). read_as Hex. read_step.
  rewrite st_assert_true by done. read_step.
  erewrite st_bind_ok by (erewrite st_bind_ok by reflexivity; unfold account_get; rewrite Hi; reflexivity).
  rewrite st_assert_true.
  2:{ rewrite is_zero_ne; [done|]. intros Hz. rewrite Hz, (zero_entry I) in Hob. discriminate Hob. }
  read_step. by rewrite (entry_get _ _ _ Hob).
Qed.

Section Theorems.
Context `{Environment} {gb : open_block} {n : nat} {s : store}.

(** C1: money is conserved.  In every reachable ledger the balances of all
    accounts and the amounts of all pending sends add up to the amount of the
    genesis block, as integers, without wrapping. *)
Theorem ledger_conserves_money :
  reachable gb n s -> (query_fuel n <= loop_fuel)%nat ->
  total_balance (accounts s) + total_pending (pending s) = genesis_amount.
Proof. intros R Hfuel. destruct (reachable_inv _ _ _ R Hfuel) as (g & I). exact (iv_total _ _ _ I). Qed.

(** C2: the weight of every representative is the sum of the balances of the
    accounts whose representative it is, and never exceeds the genesis amount. *)
Theorem ledger_weights (r : account) :
  reachable gb n s -> (query_fuel n <= loop_fuel)%nat ->
  weight s r = weight_of (entry_at s) (accounts s) r /\ 0 <= weight s r <= genesis_amount.
Proof.
  intros R Hfuel. destruct (reachable_inv _ _ _ R Hfuel) as (g & I). unfold weight.
  rewrite (iv_weight _ _ _ I). split; [done|apply (weight_of_bounds I)].
Qed.

(** The checksum of the ledger is the exclusive or of the heads of all
    accounts, and asking for it does not fail. *)
Theorem ledger_checksum_heads :
  reachable gb n s -> (query_fuel n <= loop_fuel)%nat ->
  ledger_checksum s = Ok (mxor (fun _ i => head i) (accounts s), s).
Proof.
  intros R Hfuel. destruct (reachable_inv _ _ _ R Hfuel) as (g & I). unfold ledger_checksum.
  erewrite st_bind_ok by (unfold checksum_get; rewrite st_assert_true by done; reflexivity).
  change (checksum_key 0 0) with 0. by rewrite (iv_checksum _ _ _ I).
Qed.

(** What an account records is what the blocks say.  For every account of a
    reachable ledger the visitors end; the balance, the owner and the
    representative block they compute from the head of the account are the
    recorded balance, the account itself and the recorded representative block,
    and the frontier of the head is the account. *)
Theorem account_queries_agree (a : account) (i : account_info) :
  reachable gb n s -> (query_fuel n <= loop_fuel)%nat -> accounts s !! a = Some i ->
  balance s (head i) = Ok (balance_of i)
  /\ ledger_account (head i) s = Ok (a, s)
  /\ ledger_representative (head i) s = Ok (rep_block i, s)
  /\ frontier_get s (head i) = a /\ block_successor s (head i) = 0.
Proof.
  intros R Hfuel Hi. destruct (reachable_inv _ _ _ R Hfuel) as (g & I).
  pose proof (inv_head I _ _ Hi) as [_ [hb Hb] Ho Hbal _ Hrep _].
  assert (Hx : is_Some (entry_at s (head i))) by (by eexists).
  rewrite (balance_ok I Hfuel _ Hx), (ledger_account_ok I Hfuel _ Hx),
    (ledger_representative_ok I Hfuel _ Hx), Ho, Hbal, Hrep.
  split_and!; try done; [|by rewrite block_successor_entry, Hb].
  rewrite <- Ho. by eapply (frontier_get_head I).
Qed.

Context (R : reachable gb n s) (Hfuel : (query_fuel n <= loop_fuel)%nat).

(** The amount of every block is found, and fits: the visitor ends on every
    block of a reachable ledger; for a send block the result is the difference
    of the balance before and the stated balance, which is not negative; for a
    receive block it is the amount of the send block it names. *)
Theorem amounts_of_blocks (h : block_hash) (b : block) :
  block_get s h = Some b ->
  exists v, amount_of s h = Ok v /\ 0 <= v <= genesis_amount
  /\ match b with
     | Send sb => exists before, balance s (sh_previous (send_h sb)) = Ok before
                  /\ v = before - sh_balance (send_h sb)
     | Receive rb => amount_of s (rh_source (receive_h rb)) = Ok v
     | Open ob => balance s h = Ok v
     | Change _ => v = 0
     | SendV2 _ => False
     end.
Proof.
  intros (m & Hh)%get_entry. destruct (reachable_inv _ _ _ R Hfuel) as (g & I).
  pose proof (inv_entry I _ _ _ Hh) as Hi. pose proof genesis_fits as Hg.
  assert (Hamt : forall x sb k, entry_at s x = Some (Send sb, k) -> 0 <= gamt g x <= genesis_amount).
  { intros x sb k Hx. pose proof (inv_entry I _ _ _ Hx) as [_ _ Hf _ _ _ (((pb & Hp) & _) & _ & _ & Ha & Ha0) _ _].
    pose proof (ei_fits _ _ _ _ _ _ (inv_entry I _ _ _ Hp)). unfold fits in *. lia. }
  exists (moved (g := g) h b). rewrite (amount_ok I Hfuel _ _ _ Hh). split; [done|].
  pose proof (ei_block _ _ _ _ _ _ Hi) as Hb. pose proof (ei_fits _ _ _ _ _ _ Hi) as Hf. unfold fits in Hf.
  destruct b as [b|b|b|b|b]; cbn [moved block_inv] in *.
  - split; [by eapply Hamt|]. destruct Hb as (((pb & Hp) & _) & _ & <- & Ha & _). exists (gbal g (sh_previous (send_h b))).
    split; [|done]. apply (balance_ok I Hfuel). by eexists.
  - destruct Hb.
  - destruct Hb as (_ & _ & ((sb & k & Hs & _) & _) & _). split; [by eapply Hamt|].
    by rewrite (amount_ok I Hfuel _ _ _ Hs).
  - split; [lia|]. apply (balance_ok I Hfuel). by eexists.
  - split; [lia|done].
Qed.

(** C30: processing is total and atomic.  On a reachable ledger every admissible
    block is processed without a failed assertion; a block that is not accepted
    leaves the tables exactly as they were; an accepted block is the only change
    to the blocks of the ledger, and offering it again is answered by [old]. *)
Theorem process_total (b : block) :
  admissible b ->
  exists r s', process b s = Ok (r, s')
  /\ (code r <> progress -> s' = s)
  /\ (code r = progress ->
      block_get s (hash b) = None /\ block_get s' (hash b) = Some b
      /\ (forall x, x <> hash b -> block_get s' x = block_get s x)
      /\ process b s' = Ok (failed old, s')).
Proof.
  intros Ha. destruct (reachable_inv _ _ _ R Hfuel) as (g & I).
  destruct (process_handled I Hfuel b Ha) as (r & s' & E & Hc). exists r, s'. split; [done|].
  destruct Hc as [(Hne & ->)|(Hp & g' & I' & Hfresh & HE & _)]; [by split|]. split; [by intros []|].
  intros _. assert (Hnew : entry_at s' (hash b) = Some (b, 0)) by exact (ext_new HE).
  split_and!.
  - by rewrite block_get_entry, Hfresh.
  - apply get_entry. eauto.
  - intros x Hx. rewrite !block_get_entry, HE. unfold ext_entries. rewrite decide_False by done.
    by destruct (entry_at s x) as [[]|].
  - assert (Hex : block_exists s' (hash b) = true) by (apply block_exists_true; by eexists).
    destruct b; cbn [process]; [unfold process_send|unfold process_send_v2|unfold process_receive
      |unfold process_open|unfold process_change]; cbv zeta; by read_as Hex.
Qed.

(** C31: rollback is total.  Rolling back any block of a reachable ledger, but
    for the genesis block, ends within fuel of four times the number of blocks;
    afterwards the block is gone, every block left was there before, and the
    ledger is again a reachable one, in which money is conserved. *)
Theorem rollback_total (h : block_hash) (b : block) (fuel : nat) :
  block_get s h = Some b -> ~ is_genesis b -> (rollback_fuel s <= fuel)%nat ->
  exists s', rollback fuel h s = Ok (tt, s') /\ block_exists s' h = false
  /\ (forall x b', block_get s' x = Some b' -> block_get s x = Some b')
  /\ reachable gb n s'
  /\ total_balance (accounts s') + total_pending (pending s') = genesis_amount.
Proof.
  intros Hb Hng Hf. destruct (reachable_inv _ _ _ R Hfuel) as (g & I).
  destruct (rollback_ok I h b fuel Hfuel Hb Hng Hf) as (g' & s' & E & I' & [T _] & Hgone).
  exists s'. split_and!; [done|by apply block_exists_false|done|by eapply reach_rollback|].
  exact (iv_total _ _ _ I').
Qed.

(** C32: rollback undoes processing.  When a reachable ledger accepts a block,
    rolling that block back gives a ledger with the same blocks, successors,
    accounts, frontiers, pending entries, block information, weights and
    checksum as before; only times of modification can differ. *)
Theorem rollback_undoes_process (b : block) (r : process_return) (s' : store) (fuel : nat) :
  (query_fuel (S n) <= loop_fuel)%nat -> admissible b ->
  process b s = Ok (r, s') -> code r = progress -> (rollback_fuel s' <= fuel)%nat ->
  exists s'', rollback fuel (hash b) s' = Ok (tt, s'') /\ ledger_equiv s s''.
Proof.
  intros Hfuel' Ha Hp Hpr Hf. destruct (reachable_inv _ _ _ R Hfuel) as (g & I).
  destruct (process_handled I Hfuel b Ha) as (r1 & s1 & E & Hc). rewrite E in Hp. injection Hp as <- <-.
  destruct Hc as [(Hne & _)|(_ & g1 & I1 & Hfresh & HE & Hrank)]; [done|].
  assert (Hnew : block_get s1 (hash b) = Some b) by (apply get_entry; eexists; exact (ext_new HE)).
  assert (Hng : ~ is_genesis b).
  { destruct b as [b|b|b|b|b]; try (cbn; tauto). cbn. intros Hsrc. cbn [process] in E.
    unfold process_open in E. cbv zeta in E. revert E. erewrite st_bind_ok by reflexivity.
    rewrite (proj2 (block_exists_false s _) Hfresh). erewrite st_bind_ok by reflexivity.
    rewrite Hsrc, (proj2 (block_exists_false s _) (genesis_entry I)). cbn [negb]. intros [= <- <-]. done. }
  destruct (rollback_ok I1 (hash b) b fuel Hfuel' Hnew Hng Hf) as (g2 & s2 & E2 & I2 & [T1 T2] & Hgone).
  exists s2. split; [done|]. apply (same_blocks_equiv I I2). intros x.
  assert (Hold : forall y, y <> hash b -> block_get s1 y = block_get s y).
  { intros y Hy. rewrite !block_get_entry, HE. unfold ext_entries. rewrite decide_False by done.
    by destruct (entry_at s y) as [[]|]. }
  destruct (decide (x = hash b)) as [->|Hx]; [by rewrite !block_get_entry, Hgone, Hfresh|].
  rewrite <- Hold by done. destruct (entry_at s x) as [e|] eqn:Hex.
  - apply T2. apply Hrank. by eexists.
  - rewrite Hold by done. rewrite (block_get_entry s), Hex. cbn.
    destruct (block_get s2 x) as [b'|] eqn:Hb'; [|done]. apply T1 in Hb'.
    rewrite Hold, block_get_entry, Hex in Hb' by done. done.
Qed.

(** C33: the tables are a function of the blocks.  Two ledgers reached in any way
    from the same genesis block that have the same blocks agree on successors,
    accounts, frontiers, pending entries, block information, weights and
    checksum: the order of arrival, rejected blocks and rollbacks on the way
    leave no trace. *)
Theorem ledger_determined_by_blocks (n' : nat) (t : store) :
  reachable gb n' t -> (query_fuel n' <= loop_fuel)%nat ->
  (forall x, block_get t x = block_get s x) -> ledger_equiv s t.
Proof.
  intros R' Hf' Hsame. destruct (reachable_inv _ _ _ R Hfuel) as (g & I).
  destruct (reachable_inv _ _ _ R' Hf') as (g' & I'). exact (same_blocks_equiv I I' Hsame).
Qed.

(** The balance an account has after its record was replaced. *)
Lemma account_balance_at t a i : accounts t !! a = Some i -> account_balance t a = balance_of i.
Proof. intros Hi. unfold account_balance, account_get. by rewrite Hi. Qed.

(** C34: a send block is accepted exactly when it is new, its previous block is
    the head of some account, the signature is that account's, and the stated
    balance does not exceed the account's; then the account is left with the
    stated balance, the difference (not negative) is pending for the
    destination, and no other account or pending entry changes. *)
Theorem send_exact (b : send_block) :
  admissible (Send b) ->
  exists r s', process (Send b) s = Ok (r, s')
  /\ (code r = progress <-> exists a i, send_accepts (s := s) b a i)
  /\ (forall a i, send_accepts (s := s) b a i ->
      account_balance s' a = sh_balance (send_h b)
      /\ pending s' = <[(sh_destination (send_h b), hash (Send b))
                        := PendingInfo a (balance_of i - sh_balance (send_h b))]> (pending s)
      /\ forall a', a' <> a -> accounts s' !! a' = accounts s !! a').
Proof.
  intros Ha. destruct (reachable_inv _ _ _ R Hfuel) as (g & I). cbn [process].
  destruct (process_send_cases I b Ha) as [[(c & Hc & ->) Hn]|(a & i & pb & X & Hacc)].
  - exists (failed c), s. split_and!; [done| |].
    + split; [done|]. intros (a & i & Hacc). by destruct (Hn a i).
    + intros a i Hacc. by destruct (Hn a i).
  - pose proof Hacc as (_ & Hi & Hh & Hv & Hle). pose proof Ha as (Hok & _).
    destruct (extends_rep I _ _ _ _ X) as (rb & k & Hrb & Hrok & Hr0 & _).
    assert (Ha0 : a <> 0) by (exact (ac_zero _ _ _ _ (inv_head I _ _ Hi))).
    rewrite (process_send_run I b a i pb rb k X Hrb Hr0 Ha0 (send_balance_fits _ Hok) Hle Hv).
    destruct (put_linked_frame (Send b) pb s) as (_ & F2 & _ & F4 & _).
    eexists _, _. split; [reflexivity|]. split; [by split; [eauto|]|].
    intros a' i' (_ & Hi' & Hh' & _).
    assert (a' = a) as -> by (eapply (head_unique I); [done|done|congruence]).
    assert (i' = i) as -> by congruence. split_and!.
    + erewrite account_balance_at; [|cbn; rewrite F2; apply lookup_insert_eq]. done.
    + cbn. by rewrite F4.
    + intros a' Ha'. cbn. rewrite F2. by apply lookup_insert_ne.
Qed.

(** C35: a receive block is accepted exactly when it is new, its previous block
    is the head of an account that signed it, and the send it names is pending
    for that account; then the amount is added to the balance without
    overflowing, the pending entry is gone, and no other account changes.  So no
    send is received twice. *)
Theorem receive_exact (b : receive_block) :
  admissible (Receive b) ->
  exists r s', process (Receive b) s = Ok (r, s')
  /\ (code r = progress <-> exists a i pi, receive_accepts (s := s) b a i pi)
  /\ (forall a i pi, receive_accepts (s := s) b a i pi ->
      account_balance s' a = balance_of i + pi_amount pi
      /\ balance_of i + pi_amount pi <= genesis_amount
      /\ pending s' = delete (a, rh_source (receive_h b)) (pending s)
      /\ forall a', a' <> a -> accounts s' !! a' = accounts s !! a').
Proof.
  intros Ha. destruct (reachable_inv _ _ _ R Hfuel) as (g & I). cbn [process].
  destruct (process_receive_cases I b Ha) as [[(c & Hc & ->) Hn]|(a & i & pb & pi & X & Hacc)].
  - exists (failed c), s. split_and!; [done| |].
    + split; [done|]. intros (a & i & pi & Hacc). by destruct (Hn a i pi).
    + intros a i pi Hacc. by destruct (Hn a i pi).
  - pose proof Hacc as (_ & Hi & Hh & Hv & Hpi).
    destruct (extends_rep I _ _ _ _ X) as (rb & k & Hrb & Hrok & Hr0 & _).
    assert (Ha0 : a <> 0) by (exact (ac_zero _ _ _ _ (inv_head I _ _ Hi))).
    rewrite (process_receive_run I b a i pb rb k pi X Hrb Hr0 Ha0 Hpi Hv).
    destruct (put_linked_frame (Receive b) pb s) as (_ & F2 & _ & F4 & _).
    eexists _, _. split; [reflexivity|]. split; [by split; [eauto|]|].
    intros a' i' pi' (_ & Hi' & Hh' & _ & Hpi').
    assert (a' = a) as -> by (eapply (head_unique I); [done|done|congruence]).
    assert (i' = i) as -> by congruence. assert (pi' = pi) as -> by congruence. split_and!.
    + erewrite account_balance_at; [|cbn; rewrite F2; apply lookup_insert_eq]. done.
    + exact (balance_and_pending I _ _ _ _ Hi Hpi).
    + cbn. by rewrite F4.
    + intros a' Ha'. cbn. rewrite F2. by apply lookup_insert_ne.
Qed.

(** What is pending for the account [a]. *)
Definition pending_for (a : account) : Z :=
  msum (fun k i => if bool_decide (k.1 = a) then pi_amount i else 0) (pending s).

Lemma account_pending_sum (a : account) :
  0 <= a < 2 ^ 256 - 1 -> account_pending s a = Ok (pending_for a).
Proof.
  intros Hr. destruct (reachable_inv _ _ _ R Hfuel) as (g & I). unfold account_pending, pending_for.
  rewrite (wrap_small 256 (a + 1)) by (unfold fits; lia). rewrite is_zero_ne by lia. f_equal.
  pose proof (amount_nonneg I) as Hnn.
  assert (Hle : total_pending (pending s) < 2 ^ 128).
  { pose proof (iv_total _ _ _ I). pose proof (total_balance_nonneg I). pose proof genesis_fits. lia. }
  unfold total_pending in Hle. revert Hnn Hle. clear I.
  induction (pending s) as [|k i m Hk Hfirst IH] using map_first_key_ind.
  - intros _ _. by rewrite map_fold_empty, msum_empty.
  - intros Hnn Hle. rewrite msum_insert_new in Hle by done. rewrite map_fold_insert_first_key by done.
    assert (Hnn' : forall k i, m !! k = Some i -> 0 <= pi_amount i).
    { intros k' i' Hk'. apply (Hnn k' i'). rewrite lookup_insert_ne by congruence. done. }
    pose proof (Hnn k i (lookup_insert_eq _ _ _)) as Hi.
    rewrite IH, msum_insert_new by (done || lia). cbn beta.
    set (f := fun (k : Z * Z) i => if bool_decide (k.1 = a) then pi_amount i else 0).
    assert (Hf0 : 0 <= msum f m).
    { apply msum_nonneg. intros k' i' Hk'. unfold f. case_bool_decide; [by eapply Hnn'|lia]. }
    assert (Hf1 : msum f m <= msum (fun _ i => pi_amount i) m).
    { apply msum_le. intros k' i' Hk'. apply Hnn' in Hk'. unfold f. case_bool_decide; lia. }
    change (f k i) with (if bool_decide (k.1 = a) then pi_amount i else 0).
    repeat case_bool_decide; try lia. rewrite wrap_small; [lia|]. unfold fits. lia.
Qed.

Lemma supply_run (inactive : Z) :
  fits 128 inactive ->
  let rest := genesis_amount - account_balance s genesis_account - pending_for burn_account in
  0 <= rest <= genesis_amount
  /\ supply inactive s = Ok (if inactive <=? rest then rest - inactive else 0).
Proof.
  intros Hin rest. destruct (reachable_inv _ _ _ R Hfuel) as (g & I). pose proof genesis_fits as Hg.
  assert (Hb : 0 <= account_balance s genesis_account <= total_balance (accounts s)).
  { unfold account_balance, account_get. destruct (accounts s !! genesis_account) as [i|] eqn:Hi.
    - split; [by eapply (balance_nonneg I)|].
      exact (msum_lookup (fun _ i => balance_of i) _ _ _ (balance_nonneg I) Hi).
    - split; [lia|apply (total_balance_nonneg I)]. }
  assert (Hp : 0 <= pending_for burn_account <= total_pending (pending s)).
  { split; [apply msum_nonneg|apply msum_le]; intros k i Hk%(amount_nonneg I); case_bool_decide; lia. }
  pose proof (iv_total _ _ _ I) as Ht. unfold fits in Hin.
  assert (Hrest : 0 <= rest <= genesis_amount) by (unfold rest; lia). split; [done|].
  unfold supply. change 0 with burn_account at 1. rewrite account_pending_sum by (unfold burn_account; lia).
  cbv zeta. rewrite (wrap_small 128 (genesis_amount - _)) by (unfold fits; lia).
  rewrite (wrap_small 128 (_ - pending_for _)) by (unfold fits; lia). fold rest. f_equal.
  destruct (Z.leb_spec inactive rest) as [Hle|Hgt].
  - rewrite wrap_small by (unfold fits; lia). by rewrite (proj2 (Z.leb_le _ _)) by lia.
  - unfold wrap. replace ((rest - inactive) mod 2 ^ 128) with (rest - inactive + 2 ^ 128).
    + by rewrite (proj2 (Z.leb_gt _ _)) by lia.
    + rewrite <- (Z_mod_plus_full (rest - inactive) 1), Z.mul_1_l. symmetry. apply Z.mod_small. lia.
Qed.

(** C36: the money supply is exact: it is the genesis amount less what the
    genesis account still has and what was sent to the burn account, less the
    inactive supply; none of the subtractions wraps, and the result is zero only
    when the inactive supply is larger than the rest. *)
Theorem supply_exact (inactive : Z) :
  fits 128 inactive ->
  let rest := genesis_amount - account_balance s genesis_account - pending_for burn_account in
  0 <= rest <= genesis_amount
  /\ supply inactive s = Ok (if inactive <=? rest then rest - inactive else 0).
Proof. exact (supply_run inactive). Qed.

(** The chains are doubly linked.  In a reachable ledger every block but the
    first of a chain is the recorded successor of its previous block; and for a
    block that is not the head of its account, [ledger::successor] ends without
    a failed assertion and returns the one block whose previous block it is. *)
Theorem chains_linked (h : block_hash) (b : block) :
  block_get s h = Some b ->
  (is_open b = false -> block_successor s (previous b) = h)
  /\ (account_exists s h = false -> block_successor s h <> 0 ->
      exists b', successor h s = Ok (b', s) /\ previous b' = h /\ block_get s (block_successor s h) = Some b').
Proof.
  intros (m & Hh)%get_entry. destruct (reachable_inv _ _ _ R Hfuel) as (g & I). split.
  - intros Ho. destruct (inv_previous I _ _ _ Hh Ho) as ((pb & Hp) & _).
    by rewrite block_successor_entry, Hp.
  - intros Hna Hs. rewrite block_successor_entry, Hh in Hs |- *.
    cbn [fmap option_fmap option_map snd from_option id] in Hs |- *.
    destruct (successor_ok I _ _ _ Hfuel Hh Hna Hs) as (nb & k & He & Hn & Hp).
    exists nb. split_and!; [done|done|by eapply entry_get].
Qed.

(** A change block that names account zero as its representative stops the
    node: on a reachable ledger such a block, signed by the account whose head
    it extends, runs into the assertion of [representation_add] (and with
    assertions compiled out, weight is given to account zero). *)
Theorem zero_representative_asserts (b : change_block) (a : account) (i : account_info) :
  accounts s !! a = Some i -> head i = ch_previous (change_h b) ->
  block_exists s (hash (Change b)) = false -> ~ reserved (hash (Change b)) ->
  validate_message a (hash (Change b)) (change_signature b) = false ->
  ch_representative (change_h b) = 0 ->
  process (Change b) s = Fault Assertion_failed.
Proof.
  intros Hi Hh Hex Hres Hv Hr0. destruct (reachable_inv _ _ _ R Hfuel) as (g & I).
  pose proof (inv_head I _ _ Hi) as [Ha [pb Hp] _ _ _ _ _]. rewrite Hh in Hp.
  assert (Hfr : frontiers s !! ch_previous (change_h b) = Some a)
    by (apply (ai_frontier _ _ _ _ (iv_accounts _ _ _ I)); eauto).
  apply block_exists_false in Hex as Hfresh.
  pose proof (balance_monotone (put_linked_more I (Change b) pb Hfresh Hp Hres) _ _
    (balance_ok I Hfuel _ (ex_intro _ _ Hp))) as Hbq.
  pose proof (fun x => put_linked_ext (Change b) pb 0 s x (iv_disjoint _ _ _ I) (iv_typed _ _ _ I) Hfresh Hp) as HE.
  cbn [process]. unfold process_change. cbv zeta. read_as Hex.
  read_as (proj2 (block_exists_true s _) (ex_intro _ _ Hp)).
  read_step. unfold frontier_get. rewrite Hfr. cbn [from_option id]. rewrite is_zero_ne by done.
  read_step. unfold account_get. rewrite Hi. rewrite st_assert_true by (rewrite Hh; apply Z.eqb_refl).
  rewrite Hv. erewrite st_bind_ok
    by (exact (block_put_linked (Change b) pb 0 s eq_refl (iv_disjoint _ _ _ I) (iv_typed _ _ _ I) Hfresh Hp)).
  erewrite st_run_ok by exact Hbq. apply st_bind_fault. unfold representation_add.
  erewrite st_bind_ok by (unfold st_get; rewrite block_get_entry, (ext_new HE); reflexivity).
  cbn. by rewrite Hr0.
Qed.

End Theorems.

(** ** Version-2 send blocks *)

Section SendV2.
Context `{Environment}.

Lemma balance_v2_loops fuel s h b r :
  h <> 0 -> block_get s h = Some (SendV2 b) -> balance_loop fuel s h r = Fault Out_of_fuel.
Proof.
  intros Hh Hb. induction fuel as [|fuel IH]; cbn [balance_loop]; rewrite is_zero_ne by done; [done|].
  by rewrite Hb.
Qed.

(** Version-2 send blocks break the queries.  The method of the balance
    visitor for them does nothing, so that the balance as of such a block is
    never found, whatever the fuel; and the amount of such a block is read from
    an uninitialised member. *)
Theorem send_v2_queries_diverge (s : store) (h : block_hash) (b : send_block_v2) (fuel : nat) :
  h <> 0 -> block_get s h = Some (SendV2 b) ->
  balance_loop fuel s h 0 = Fault Out_of_fuel
  /\ ((2 <= loop_fuel)%nat -> amount_of s h = Fault Indeterminate_value).
Proof.
  intros Hh Hb. split; [by eapply balance_v2_loops|]. intros Hf. unfold amount_of.
  destruct loop_fuel as [|[|f]]; try lia. cbn. by rewrite Hb.
Qed.

(** A version-2 send block at the head of an account cannot be rolled back:
    the visitor ignores it, and the loop of [rollback] visits it for ever. *)
Theorem send_v2_rollback_diverges (s : store) (a : account) (i : account_info) (b : send_block_v2)
    (h : block_hash) (fuel : nat) :
  block_exists s h = true -> accounts s !! a = Some i -> block_get s (head i) = Some (SendV2 b) ->
  rollback_loop fuel a h s = Fault Out_of_fuel.
Proof.
  intros Hh Hi Hb. induction fuel as [|fuel IH]; [done|]. cbn [rollback_loop].
  read_as Hh. erewrite st_bind_ok by (by apply account_get_asserted_run).
  read_as Hb. destruct fuel as [|fuel]; [done|]. erewrite st_bind_ok by reflexivity. exact IH.
Qed.
End SendV2.
