(* ===== verification/LedgerSub.v ===== *)
(** * A ledger inside another

    What one ledger says about the blocks of a smaller one: the ghost data
    agree, and a block of the larger ledger that is offered to the smaller one
    is accepted as soon as the blocks it refers to are there, and otherwise is
    answered by the gap that is missing.  So a block that has its place in some
    ledger is never taken for a fork, and never refused for good. *)
From Stdlib Require Import ZArith Lia List.
From stdpp Require Import prelude gmap.
From S2P Require Import Prelude Numbers Streams Blocks Store Ledger StoreFacts LedgerInv LedgerQueries LedgerExtend LedgerShrink LedgerProcess LedgerRollback LedgerUndo LedgerUnique LedgerTheorems.

(** ** The genesis block *)

#[export] Instance is_genesis_dec `{Environment} b : Decision (is_genesis b).
Proof. destruct b; cbn; apply _. Defined.

Section Genesis.
Context `{Environment} {n : nat} {g : ghost} {s : store} (I : inv_with n g s).

Lemma genesis_of h b m : entry_at s h = Some (b, m) -> is_genesis b -> gown g h = genesis_account /\ gheight g h = 1.
Proof.
  intros Hh Hg. destruct b as [b|b|b|b|b]; try done. cbn in Hg.
  pose proof (ei_block _ _ _ _ _ _ (inv_entry I _ _ _ Hh)) as (_ & _ & Hh1 & [(_ & Ho & _)|[((sb & k & Hs & _) & _) _]]).
  - done.
  - rewrite Hg, (genesis_entry I) in Hs. done.
Qed.

Lemma genesis_unique h h' b b' m m' :
  entry_at s h = Some (b, m) -> entry_at s h' = Some (b', m') -> is_genesis b -> is_genesis b' -> h = h'.
Proof.
  intros Hh Hh' Hb Hb'. destruct (genesis_of _ _ _ Hh Hb), (genesis_of _ _ _ Hh' Hb').
  apply (ci_uniq _ _ _ (iv_chain _ _ _ I)); [by eexists|by eexists|congruence|congruence].
Qed.

(** Every block but a genesis block refers to an older one. *)
Lemma older h b m :
  entry_at s h = Some (b, m) -> ~ is_genesis b ->
  exists x, is_Some (entry_at s x) /\ (grank g x < grank g h)%nat.
Proof.
  intros Hh Hb. pose proof (ei_block _ _ _ _ _ _ (inv_entry I _ _ _ Hh)) as Hi.
  destruct b as [b|b|b|b|b]; cbn in Hi.
  - destruct Hi as (((pb & Hp) & _ & _ & Hr) & _). eexists. split; [by eexists|done].
  - done.
  - destruct Hi as (((pb & Hp) & _ & _ & Hr) & _). eexists. split; [by eexists|done].
  - destruct Hi as (_ & _ & _ & [(Hg & _)|[((sb & k & Hs & _) & Hr & _) _]]); [by destruct Hb|].
    eexists. split; [by eexists|done].
  - destruct Hi as (((pb & Hp) & _ & _ & Hr) & _). eexists. split; [by eexists|done].
Qed.

(** So every block is younger than a genesis block, or is one. *)
Lemma genesis_oldest h b m :
  entry_at s h = Some (b, m) -> ~ is_genesis b ->
  exists x bx k, entry_at s x = Some (bx, k) /\ is_genesis bx /\ (grank g x < grank g h)%nat.
Proof.
  remember (grank g h) as r eqn:Hr. revert h b m Hr. induction (lt_wf r) as [r _ IH].
  intros h b m -> Hh Hb. destruct (older _ _ _ Hh Hb) as (x & [[bx k] Hx] & Hlt).
  destruct (decide (is_genesis bx)) as [Hg|Hng]; [eauto 7|].
  destruct (IH _ Hlt x bx k eq_refl Hx Hng) as (y & yb & j & Hy & Hg & Hlt'). exists y, yb, j. split_and!; [done..|lia].
Qed.
End Genesis.

Lemma reachable_genesis_ok `{Environment} gb n s : reachable gb n s -> genesis_ok gb.
Proof. by induction 1. Qed.

Lemma reachable_has_genesis `{Environment} gb n s :
  reachable gb n s -> (query_fuel n <= loop_fuel)%nat -> block_get s (hash (Open gb)) = Some (Open gb).
Proof.
  induction 1 as [u s Hg Hi|n s b r s' R IH Ha Hp|n s h b fuel u s' R IH Hb Hng Hfuel Hr]; intros Hf.
  - rewrite genesis_initialize_run in Hi. injection Hi as _ <-. apply get_entry.
    eexists. rewrite genesis_entries by exact initial_no_blocks. unfold ext_entries. by rewrite decide_True.
  - assert (Hf' : (query_fuel n <= loop_fuel)%nat) by (unfold query_fuel in *; lia).
    destruct (reachable_inv _ _ _ R Hf') as (g & I). destruct (process_handled I Hf' b Ha) as (ret & s1 & E & Hc).
    rewrite E in Hp. injection Hp as _ <-. specialize (IH Hf').
    destruct Hc as [(_ & ->)|(_ & g' & I' & Hfresh & HE & _)]; [done|].
    apply get_entry in IH as (m & Hm). apply get_entry. rewrite HE. unfold ext_entries.
    case_decide as Hx; [congruence|]. rewrite Hm. case_decide; by eexists.
  - specialize (IH Hf). destruct (reachable_inv _ _ _ R Hf) as (g & I).
    destruct (rollback_ok I h b fuel Hf Hb Hng Hfuel) as (g' & s1 & E & I' & [_ T] & _).
    rewrite E in Hr. injection Hr as _ <-. rewrite T; [done|].
    apply get_entry in Hb as (m & Hm). apply get_entry in IH as (k & Hk).
    destruct (genesis_oldest I _ _ _ Hm Hng) as (x & bx & j & Hx & Hgx & Hlt).
    assert (Hgg : is_genesis (Open gb)).
    { clear -R. induction R as [u s Hg _|n s b r s' _ IH _ _|n s h b fuel u s' _ IH _ _ _ _]; [by destruct Hg|exact IH|exact IH]. }
    by rewrite (genesis_unique I _ _ _ _ _ _ Hk Hx Hgg Hgx).
Qed.

(** ** Ghost data *)

Section Sub.
Context `{Environment} {n n' : nat} {g g' : ghost} {s t : store}.
Context (I : inv_with n g s) (J : inv_with n' g' t).
Context (Hsub : forall x b, block_get s x = Some b -> block_get t x = Some b).

(** A block of [s] whose successor in [t] is not in [s] is a head of [s]. *)
Lemma sub_head p pb m h :
  entry_at s p = Some (pb, m) -> entry_at t p = Some (pb, h) -> entry_at s h = None -> m = 0.
Proof.
  intros Hs Ht Hn. destruct (ei_succ _ _ _ _ _ _ (inv_entry I _ _ _ Hs)) as [->|(sb & k & Hm & Hp)]; [done|].
  exfalso. destruct (is_open sb) eqn:Ho.
  - apply open_previous in Ho. rewrite Ho in Hp. subst p. by rewrite (zero_entry I) in Hs.
  - destruct (sub_entry Hsub _ _ _ Hm) as (k' & Hm'). destruct (inv_previous J _ _ _ Hm' Ho) as ((pb' & Hpb) & _).
    rewrite Hp, Ht in Hpb. injection Hpb as _ <-. congruence.
Qed.

(** The offered block [b] is in [t], not in [s]. *)
Context (b : block) (m : Z) (Hb : entry_at t (hash b) = Some (b, m)) (Hnew : entry_at s (hash b) = None).
Context (Hng : ~ is_genesis b).
Context (Hsig : validate_message (gown g' (hash b)) (hash b) (block_signature b) = false).

Lemma offered_inv : block_inv g' (entry_at t) (hash b) b.
Proof. exact (ei_block _ _ _ _ _ _ (inv_entry J _ _ _ Hb)). Qed.

Lemma offered_reserved : ~ reserved (hash b).
Proof. exact (ei_reserved _ _ _ _ _ _ (inv_entry J _ _ _ Hb)). Qed.

(** The account it extends. *)
Lemma offered_extends pb k :
  is_open b = false -> entry_at s (previous b) = Some (pb, k) ->
  exists i, extends (s := s) b (gown g' (hash b)) i pb
  /\ balance_of i = gbal g' (previous b) /\ gown g' (hash b) <> 0.
Proof.
  intros Ho Hp. destruct (inv_previous J _ _ _ Hb Ho) as ((pb' & Hpt) & Hown & _ & _).
  destruct (sub_entry Hsub _ _ _ Hp) as (k' & Hpt'). rewrite Hpt in Hpt'. injection Hpt' as -> <-.
  assert (k = 0) as -> by exact (sub_head _ _ _ _ Hp Hpt Hnew).
  destruct (sub_agree I J Hsub (previous b)) as [A1 A2 _ _ _]; [by eexists|].
  destruct (ai_owner _ _ _ _ (iv_accounts _ _ _ I) _ _ _ Hp) as (i & Hi & _ & Hh). specialize (Hh eq_refl).
  exists i. rewrite <- Hown, A2. split_and!.
  - apply extends_intro; [done|done|done| |by apply block_exists_false|exact offered_reserved].
    apply (ai_frontier _ _ _ _ (iv_accounts _ _ _ I)). eauto.
  - rewrite A1, <- Hh. exact (ac_balance _ _ _ _ (inv_head I _ _ Hi)).
  - exact (ei_own _ _ _ _ _ _ (inv_entry I _ _ _ Hp)).
Qed.

(** The send it takes up is pending for its account. *)
Lemma offered_pending src :
  source_ok g' (entry_at t) (hash b) src -> is_Some (entry_at s src) ->
  exists pi, pending s !! (gown g' (hash b), src) = Some pi.
Proof.
  intros ((sb & k & Hst & Hd) & _ & Hrecv) [[sb' k'] Hss].
  destruct (sub_entry Hsub _ _ _ Hss) as (k2 & Hst'). rewrite Hst in Hst'. injection Hst' as <- _.
  pose proof (pi_send _ _ _ (iv_pending _ _ _ I) _ _ _ Hss) as Hp.
  destruct (grecv g src) as [r|] eqn:Hr; [|rewrite <- Hd; by eexists].
  exfalso. destruct Hp as (rb & j & Hrb & Hsrc). destruct (sub_entry Hsub _ _ _ Hrb) as (j' & Hrb').
  pose proof (ei_reserved _ _ _ _ _ _ (inv_entry J _ _ _ Hst)) as Hres. unfold reserved in Hres.
  pose proof (ei_block _ _ _ _ _ _ (inv_entry J _ _ _ Hrb')) as Hrbi.
  assert (Hrr : grecv g' src = Some r).
  { destruct rb as [rb|rb|rb|rb|rb]; cbn in Hsrc, Hrbi; rewrite ?Hsrc in Hrbi.
    - destruct Hres. by left.
    - destruct Hrbi.
    - by destruct Hrbi as (_ & _ & (_ & _ & ->) & _).
    - destruct Hrbi as (_ & _ & _ & [(Hc & _)|[(_ & _ & ->) _]]); [|done]. destruct Hres. by right; right.
    - destruct Hres. by left. }
  rewrite Hrecv in Hrr. injection Hrr as <-. congruence.
Qed.

(** What [process] answers. *)
Definition answer (b : block) (c : process_result) (miss : block_hash) : Prop :=
  exists r, process b s = Ok (r, s) /\ code r = c /\ entry_at s miss = None.

Definition accepts (b : block) : Prop := exists r s1, process b s = Ok (r, s1) /\ code r = progress.

Lemma offered_fresh : block_exists s (hash b) = false.
Proof. by apply block_exists_false. Qed.

Lemma exists_entry x : block_exists s x = bool_decide (is_Some (entry_at s x)).
Proof.
  destruct (block_exists s x) eqn:Hx; symmetry.
  - apply bool_decide_eq_true. by apply block_exists_true.
  - apply bool_decide_eq_false. apply block_exists_false in Hx. rewrite Hx. by intros [? ?].
Qed.

Lemma missing_frontier x : entry_at s x = None -> is_zero (frontier_get s x) = true.
Proof.
  intros Hx. destruct (frontier_cases I x) as [|(_ & a & i & pb & _ & _ & _ & Hp & _)]; [done|congruence].
Qed.

Lemma missing_exists x : entry_at s x = None -> block_exists s x = false.
Proof. apply block_exists_false. Qed.

End Sub.

Section Offered.
Context `{Environment} {n n' : nat} {g g' : ghost} {s t : store}.
Context (I : inv_with n g s) (J : inv_with n' g' t) (Hfuel : (query_fuel n <= loop_fuel)%nat).
Context (Hsub : forall x b, block_get s x = Some b -> block_get t x = Some b).

Section Send.
Context (b : send_block) (m : Z) (Hb : entry_at t (hash (Send b)) = Some (Send b, m)).
Context (Hnew : entry_at s (hash (Send b)) = None).
Context (Hsig : validate_message (gown g' (hash (Send b))) (hash (Send b)) (send_signature b) = false).

Lemma offered_send :
  accepts (s := s) (Send b) \/ answer (s := s) (Send b) gap_previous (previous (Send b)).
Proof.
  pose proof (offered_fresh (Send b) Hnew) as Hex.
  destruct (entry_at s (previous (Send b))) as [[pb k]|] eqn:Hp.
  - left. destruct (offered_extends I J Hsub (Send b) m Hb Hnew pb k eq_refl Hp) as (i & X & Hbal & Ho).
    destruct (extends_rep I _ _ _ _ X) as (rb & j & Hrb & _ & Hr0 & _).
    pose proof (ei_block _ _ _ _ _ _ (inv_entry J _ _ _ Hb)) as (_ & _ & Hbh & Ha & Ha0). cbn in Hbal, Ha.
    pose proof (ei_fits _ _ _ _ _ _ (inv_entry J _ _ _ Hb)) as Hfit. rewrite Hbh in Hfit.
    eexists _, _. split; [exact (process_send_run I b _ i pb rb j X Hrb Hr0 Ho Hfit ltac:(lia) Hsig)|done].
  - right. exists (failed gap_previous). split_and!; [|done|done]. cbn [process]. unfold process_send. cbv zeta.
    read_as Hex. read_as (missing_exists _ Hp : block_exists s (sh_previous (send_h b)) = false). done.
Qed.
End Send.

Section Receive.
Context (b : receive_block) (m : Z) (Hb : entry_at t (hash (Receive b)) = Some (Receive b, m)).
Context (Hnew : entry_at s (hash (Receive b)) = None).
Context (Hsig : validate_message (gown g' (hash (Receive b))) (hash (Receive b)) (receive_signature b) = false).

Lemma offered_receive :
  accepts (s := s) (Receive b) \/ answer (s := s) (Receive b) gap_previous (previous (Receive b))
  \/ answer (s := s) (Receive b) gap_source (source (Receive b)).
Proof.
  pose proof (offered_fresh (Receive b) Hnew) as Hex.
  destruct (entry_at s (source (Receive b))) as [e|] eqn:Hs.
  2:{ right; right. exists (failed gap_source). split_and!; [|done|done]. cbn [process]. unfold process_receive. cbv zeta.
      read_as Hex. read_as (missing_exists _ Hs : block_exists s (rh_source (receive_h b)) = false). done. }
  assert (Hsx : block_exists s (rh_source (receive_h b)) = true) by (apply block_exists_true; by eexists).
  destruct (entry_at s (previous (Receive b))) as [[pb k]|] eqn:Hp.
  - left. destruct (offered_extends I J Hsub (Receive b) m Hb Hnew pb k eq_refl Hp) as (i & X & Hbal & Ho).
    destruct (extends_rep I _ _ _ _ X) as (rb & j & Hrb & _ & Hr0 & _).
    pose proof (ei_block _ _ _ _ _ _ (inv_entry J _ _ _ Hb)) as (_ & _ & Hsrc & _).
    destruct (offered_pending I J Hsub (Receive b) Hnew _ Hsrc) as (pi & Hpi); [by eexists|].
    eexists _, _. split; [exact (process_receive_run I b _ i pb rb j pi X Hrb Hr0 Ho Hpi Hsig)|done].
  - right; left. exists (failed gap_previous). split_and!; [|done|done]. cbn [process]. unfold process_receive. cbv zeta.
    read_as Hex. read_as Hsx. read_as (missing_frontier I _ Hp : is_zero (frontier_get s (rh_previous (receive_h b))) = true).
    read_as (missing_exists _ Hp : block_exists s (rh_previous (receive_h b)) = false). done.
Qed.
End Receive.

Section Change.
Context (b : change_block) (m : Z) (Hb : entry_at t (hash (Change b)) = Some (Change b, m)).
Context (Hnew : entry_at s (hash (Change b)) = None).
Context (Hsig : validate_message (gown g' (hash (Change b))) (hash (Change b)) (change_signature b) = false).

Lemma offered_rep bl k : entry_at t (hash bl) = Some (bl, k) -> grep g' (hash bl) = hash bl -> representative bl <> 0.
Proof.
  intros Hbl Hr. destruct (ei_rep _ _ _ _ _ _ (inv_entry J _ _ _ Hbl)) as (rb & j & Hrb & Hok).
  rewrite Hr, Hbl in Hrb. injection Hrb as <- _. destruct bl; cbn [rep_ok] in Hok; (exact Hok || destruct Hok).
Qed.

Lemma offered_change :
  accepts (s := s) (Change b) \/ answer (s := s) (Change b) gap_previous (previous (Change b)).
Proof.
  pose proof (offered_fresh (Change b) Hnew) as Hex.
  destruct (entry_at s (previous (Change b))) as [[pb k]|] eqn:Hp.
  - left. destruct (offered_extends I J Hsub (Change b) m Hb Hnew pb k eq_refl Hp) as (i & X & Hbal & Ho).
    pose proof (ei_block _ _ _ _ _ _ (inv_entry J _ _ _ Hb)) as (_ & Hrep & _).
    eexists _, _. split; [exact (process_change_run I Hfuel b _ i pb X (offered_rep _ _ Hb Hrep) (offered_reserved J _ _ Hb) Ho Hsig)|].
    reflexivity.
  - right. exists (failed gap_previous). split_and!; [|done|done]. cbn [process]. unfold process_change. cbv zeta.
    read_as Hex. read_as (missing_exists _ Hp : block_exists s (ch_previous (change_h b)) = false). done.
Qed.
End Change.

Section Open.
Context (b : open_block) (m : Z) (Hb : entry_at t (hash (Open b)) = Some (Open b, m)).
Context (Hnew : entry_at s (hash (Open b)) = None) (Hng : ~ is_genesis (Open b)).
Context (Hsig : validate_message (gown g' (hash (Open b))) (hash (Open b)) (open_signature b) = false).

Lemma offered_open :
  accepts (s := s) (Open b) \/ answer (s := s) (Open b) gap_source (source (Open b)).
Proof.
  pose proof (offered_fresh (Open b) Hnew) as Hex.
  destruct (entry_at s (source (Open b))) as [e|] eqn:Hs.
  2:{ right. exists (failed gap_source). split_and!; [|done|done]. cbn [process]. unfold process_open. cbv zeta.
      read_as Hex. read_as (missing_exists _ Hs : block_exists s (oh_source (open_h b)) = false). done. }
  left. pose proof (ei_block _ _ _ _ _ _ (inv_entry J _ _ _ Hb)) as (Hacc & Hrep & Hh1 & [(Hc & _)|[Hsrc _]]); [by destruct Hng|].
  destruct (offered_pending I J Hsub (Open b) Hnew _ Hsrc) as (pi & Hpi); [by eexists|]. rewrite <- Hacc in Hpi, Hsig.
  assert (Hfresh : accounts s !! oh_account (open_h b) = None /\ oh_account (open_h b) <> 0); [split|].
  - destruct (accounts s !! oh_account (open_h b)) as [i|] eqn:Hi; [|done]. exfalso.
    pose proof (inv_head I _ _ Hi) as [_ _ _ _ _ _ (ob & k & Hob & Hoa)].
    destruct (sub_entry Hsub _ _ _ Hob) as (k' & Hob').
    pose proof (ei_block _ _ _ _ _ _ (inv_entry J _ _ _ Hob')) as (Q1 & _ & Q2 & _).
    assert (open_block_hash i = hash (Open b)) as Heq; [|congruence].
    apply (ci_uniq _ _ _ (iv_chain _ _ _ J)); [by eexists|by eexists|congruence|congruence].
  - rewrite Hacc. exact (ei_own _ _ _ _ _ _ (inv_entry J _ _ _ Hb)).
  - destruct Hfresh as [Hna Hz]. eexists _, _.
    split; [exact (process_open_run I Hfuel b pi Hnew (offered_reserved J _ _ Hb) Hna Hz Hpi (offered_rep _ _ Hb Hrep) Hsig)|].
    reflexivity.
Qed.
End Open.

(** The block [b] refers to [x], which is in [t] and not in [s]. *)
Definition lacks (b : block) (x : block_hash) : Prop :=
  entry_at s x = None /\ is_Some (entry_at t x) /\ (grank g' x < grank g' (hash b))%nat.

Lemma lacks_previous b m :
  entry_at t (hash b) = Some (b, m) -> is_open b = false -> entry_at s (previous b) = None -> lacks b (previous b).
Proof.
  intros Hb Ho Hn. destruct (inv_previous J _ _ _ Hb Ho) as ((pb & Hp) & _ & _ & Hr). split_and!; [done|by eexists|done].
Qed.

(** A block that has its place in [t] is accepted by [s], or lacks a block. *)
Lemma offered b m :
  entry_at t (hash b) = Some (b, m) -> entry_at s (hash b) = None -> ~ is_genesis b ->
  validate_message (gown g' (hash b)) (hash b) (block_signature b) = false ->
  accepts (s := s) b
  \/ exists r, process b s = Ok (r, s)
     /\ (code r = gap_previous /\ lacks b (previous b) \/ code r = gap_source /\ lacks b (source b)).
Proof.
  intros Hb Hnew Hng Hsig.
  assert (Hsrc : forall src, source_ok g' (entry_at t) (hash b) src -> entry_at s src = None -> lacks b src).
  { intros src ((sb & k & Hs & _) & Hr & _) Hn. split_and!; [done|by eexists|done]. }
  pose proof (ei_block _ _ _ _ _ _ (inv_entry J _ _ _ Hb)) as Hi.
  destruct b as [b|b|b|b|b].
  - destruct (offered_send b m Hb Hnew Hsig) as [|(r & Hp & Hc & Hn)]; [by left|right]. exists r.
    split; [exact Hp|]. left. split; [exact Hc|]. by apply (lacks_previous _ m).
  - destruct Hi.
  - destruct (offered_receive b m Hb Hnew Hsig) as [|[(r & Hp & Hc & Hn)|(r & Hp & Hc & Hn)]]; [by left|right..];
      exists r; (split; [exact Hp|]).
    + left. split; [exact Hc|]. by apply (lacks_previous _ m).
    + right. split; [exact Hc|]. destruct Hi as (_ & _ & Hs & _). by apply Hsrc.
  - destruct (offered_open b m Hb Hnew Hng Hsig) as [|(r & Hp & Hc & Hn)]; [by left|right]. exists r.
    split; [exact Hp|]. right. split; [exact Hc|]. destruct Hi as (_ & _ & _ & [(Hg & _)|[Hs _]]); [by destruct Hng|].
    by apply Hsrc.
  - destruct (offered_change b m Hb Hnew Hsig) as [|(r & Hp & Hc & Hn)]; [by left|right]. exists r.
    split; [exact Hp|]. left. split; [exact Hc|]. by apply (lacks_previous _ m).
Qed.
End Offered.

(** ** Signatures

    Every block of a reachable ledger, but the genesis block, is signed by the
    account in whose chain it is. *)

Definition signer `{Environment} (s : store) (b : block) : account :=
  match b with Open b => oh_account (open_h b) | _ => frontier_get s (previous b) end.

Lemma refused {St} {c} {s s' : St} {r} {P : Prop} :
  c <> progress -> Ok (failed c, s) = Ok (r, s') -> code r = progress -> P.
Proof.
  intros Hc E Hp. destruct Hc. rewrite <- Hp. by apply (f_equal (fun r => match r with Ok (r, _) => code r | _ => c end)) in E.
Qed.

Ltac refuse := apply refused; first [discriminate | destruct (block_exists _ _); discriminate].

Lemma accepted_signed `{Environment} s b r s' :
  match b with SendV2 _ => False | _ => True end ->
  process b s = Ok (r, s') -> code r = progress ->
  validate_message (signer s b) (hash b) (block_signature b) = false.
Proof.
  intros Hk. destruct b as [b|b|b|b|b]; [| destruct Hk | | |]; cbn [process signer block_signature previous].
  - unfold process_send. cbv zeta. read_step. destruct (block_exists s _); [refuse|].
    read_step. destruct (block_exists s _); cbn [negb]; [|refuse].
    read_step. destruct (is_zero _); [refuse|].
    destruct (validate_message _ _ _); [refuse|done].
  - unfold process_receive. cbv zeta. read_step. destruct (block_exists s _); [refuse|].
    read_step. destruct (block_exists s _); cbn [negb]; [|refuse].
    read_step. destruct (is_zero _); [read_step; destruct (block_exists s _); refuse|].
    destruct (validate_message _ _ _); [refuse|done].
  - unfold process_open. cbv zeta. read_step. destruct (block_exists s _); [refuse|].
    read_step. destruct (block_exists s _); cbn [negb]; [|refuse].
    destruct (validate_message _ _ _); [refuse|done].
  - unfold process_change. cbv zeta. read_step. destruct (block_exists s _); [refuse|].
    read_step. destruct (block_exists s _); cbn [negb]; [|refuse].
    read_step. destruct (is_zero _); [refuse|].
    read_step. destruct (account_get s _) as [i|]; [|done].
    destruct (head i =? _); [|done]. cbn [st_assert]. erewrite st_bind_ok by reflexivity.
    destruct (validate_message _ _ _); [refuse|done].
Qed.

(** A ledger that has grown has all the blocks it had. *)
Lemma grown_sub {s s' : store} b :
  entry_at s (hash b) = None -> (forall x, entry_at s' x = ext_entries (entry_at s) b x) ->
  forall x bx, block_get s x = Some bx -> block_get s' x = Some bx.
Proof.
  intros Hf HE x bx (m & Hx)%get_entry. apply get_entry.
  destruct (ext_some HE Hf _ _ _ Hx) as (_ & m' & Hx' & _). eauto.
Qed.

Lemma grown_inv {s s' : store} b x bx m :
  (forall x, entry_at s' x = ext_entries (entry_at s) b x) -> entry_at s' x = Some (bx, m) ->
  x = hash b /\ bx = b \/ exists k, entry_at s x = Some (bx, k).
Proof.
  intros HE. rewrite HE. unfold ext_entries. case_decide as Hx.
  - intros [= <- _]. by left.
  - destruct (entry_at s x) as [[b0 k]|]; [|intros [=]]. intros [= <- _]. right. by eexists.
Qed.

Section Signed.
Context `{Environment}.

Definition signed (g : ghost) (s : store) : Prop := forall h b m,
  entry_at s h = Some (b, m) -> ~ is_genesis b -> validate_message (gown g h) h (block_signature b) = false.

Lemma signed_sub {n n' g g' s t} (I : inv_with n g s) (J : inv_with n' g' t) :
  (forall x b, block_get s x = Some b -> block_get t x = Some b) -> signed g' t -> signed g s.
Proof.
  intros Hsub Hs h b m Hh Hg. destruct (sub_entry Hsub _ _ _ Hh) as (m' & Hh').
  destruct (sub_agree I J Hsub h) as [_ <- _ _ _]; [by eexists|]. exact (Hs _ _ _ Hh' Hg).
Qed.

(** The account that signs an accepted block owns it. *)
Lemma signer_owns {n g s n' g' s'} (I : inv_with n g s) (J : inv_with n' g' s') b :
  entry_at s (hash b) = None -> (forall x, entry_at s' x = ext_entries (entry_at s) b x) ->
  signer s b = gown g' (hash b).
Proof.
  intros Hf HE. pose proof (ext_new HE) as Hb. pose proof (grown_sub b Hf HE) as Hsub.
  pose proof (ei_block _ _ _ _ _ _ (inv_entry J _ _ _ Hb)) as Hi.
  destruct (is_open b) eqn:Ho.
  { destruct b; try discriminate Ho. exact (proj1 Hi). }
  assert (signer s b = frontier_get s (previous b)) as -> by (destruct b; [..|discriminate Ho|]; reflexivity).
  destruct (inv_previous J _ _ _ Hb Ho) as ((pb & Hp) & Hown & _ & Hr).
  destruct (grown_inv b _ _ _ HE Hp) as [(Heq & _)|(m & Hm)]; [rewrite Heq in Hr; lia|].
  rewrite (sub_head I J Hsub _ _ _ _ Hm Hp Hf) in Hm.
  rewrite (frontier_get_head I _ _ Hm), <- Hown.
  destruct (sub_agree I J Hsub (previous b)) as [_ Ha _ _ _]; [by eexists|]. by symmetry.
Qed.

(** Every block of a reachable ledger but the genesis block is signed by the
    account in whose chain it is. *)
Lemma reachable_signed gb n s :
  reachable gb n s -> (query_fuel n <= loop_fuel)%nat -> exists g, inv_with n g s /\ signed g s.
Proof.
  induction 1 as [u s Hg Hi|n s b r s' R IH Ha Hp|n s h b fuel u s' R IH Hb Hng Hfuel Hr]; intros Hf.
  - rewrite genesis_initialize_run in Hi. injection Hi as _ <-.
    destruct (genesis_inv gb Hg) as (g & I). exists g. split; [exact I|]. intros h b m Hh Hn. exfalso.
    rewrite genesis_entries in Hh by exact initial_no_blocks. unfold ext_entries in Hh. case_decide.
    + injection Hh as <- _. destruct Hn. exact (proj1 Hg).
    + rewrite initial_entries in Hh. discriminate Hh.
  - assert (Hf' : (query_fuel n <= loop_fuel)%nat) by (unfold query_fuel in *; lia).
    destruct (IH Hf') as (g & I & Hs). destruct (process_handled I Hf' b Ha) as (ret & s1 & E & Hc).
    rewrite E in Hp. injection Hp as -> ->.
    destruct Hc as [(_ & ->)|(Hc & g' & J & Hfresh & HE & _)].
    { exists g. split; [|exact Hs]. eapply inv_with_weaken; [|exact I]. lia. }
    exists g'. split; [exact J|]. intros h bh m Hh Hng.
    destruct (grown_inv b _ _ _ HE Hh) as [(-> & ->)|(k & Hk)].
    + rewrite <- (signer_owns I J b Hfresh HE). refine (accepted_signed s b r s' _ E Hc).
      destruct b; [exact Logic.I|exact (proj2 (proj2 Ha))|exact Logic.I..].
    + destruct (sub_agree I J (grown_sub b Hfresh HE) h) as [_ -> _ _ _]; [by eexists|]. exact (Hs _ _ _ Hk Hng).
  - destruct (IH Hf) as (g & I & Hs). destruct (rollback_ok I h b fuel Hf Hb Hng Hfuel) as (g' & s1 & E & J & [T _] & _).
    rewrite E in Hr. injection Hr as _ ->. exists g'. split; [exact J|]. exact (signed_sub J I T Hs).
Qed.
End Signed.


(** ** Blocks of a ledger are well formed *)

Section Admissible.
Context `{Environment}.

(** What is in a reachable ledger was admitted, but for the genesis block. *)
Lemma reachable_admissible gb n s :
  reachable gb n s -> (query_fuel n <= loop_fuel)%nat ->
  forall h b, block_get s h = Some b -> ~ is_genesis b -> admissible b.
Proof.
  induction 1 as [u s Hg Hi|n s b r s' R IH Ha Hp|n s h b fuel u s' R IH Hb Hng Hfuel Hr]; intros Hf x bx Hx Hn.
  - rewrite genesis_initialize_run in Hi. injection Hi as _ <-. exfalso. apply get_entry in Hx as (m & Hx).
    rewrite genesis_entries in Hx by exact initial_no_blocks. unfold ext_entries in Hx. case_decide.
    + injection Hx as <- _. destruct Hn. exact (proj1 Hg).
    + rewrite initial_entries in Hx. discriminate Hx.
  - assert (Hf' : (query_fuel n <= loop_fuel)%nat) by (unfold query_fuel in *; lia).
    destruct (reachable_inv _ _ _ R Hf') as (g & I). destruct (process_handled I Hf' b Ha) as (ret & s1 & E & Hc).
    rewrite E in Hp. injection Hp as -> ->. destruct Hc as [(_ & ->)|(_ & g' & J & Hfresh & HE & _)]; [by eapply IH|].
    apply get_entry in Hx as (m & Hx). destruct (grown_inv b _ _ _ HE Hx) as [(-> & ->)|(k & Hk)]; [done|].
    apply (IH Hf' x); [apply get_entry; eauto|done].
  - destruct (reachable_inv _ _ _ R Hf) as (g & I).
    destruct (rollback_ok I h b fuel Hf Hb Hng Hfuel) as (g' & s1 & E & J & [T _] & _).
    rewrite E in Hr. injection Hr as _ ->. exact (IH Hf x bx (T _ _ Hx) Hn).
Qed.
End Admissible.

(** C26: the tables of blocks are well typed.  In a reachable ledger every block is
    in the table of its kind and no other, under its hash; but for the genesis
    block it was admissible, so every field is in range and there are no
    version-2 sends; and the hash stored with it is zero or that of a block that
    names it as its previous one. *)
Theorem tables_well_typed `{Environment} (gb : open_block) (n : nat) (s : store) ty h b m :
  reachable gb n s -> (query_fuel n <= loop_fuel)%nat -> lookup_in ty s h = Some (b, m) ->
  type b = ty /\ hash b = h /\ (forall ty', is_Some (lookup_in ty' s h) -> ty' = ty)
  /\ (b = Open gb \/ admissible b) /\ (m = 0 \/ exists b', block_get s m = Some b' /\ previous b' = h).
Proof.
  intros R Hf Hl. destruct (reachable_inv _ _ _ R Hf) as (g & I).
  assert (Hh : entry_at s h = Some (b, m)) by (unfold entry_at; by rewrite (block_get_raw_disjoint _ _ _ _ (iv_disjoint _ _ _ I) Hl)).
  pose proof (inv_entry I _ _ _ Hh) as Hi. split_and!.
  - exact (iv_typed _ _ _ I _ _ _ _ Hl).
  - exact (ei_hash _ _ _ _ _ _ Hi).
  - intros ty' Ht. apply (iv_disjoint _ _ _ I h); [done|by eexists].
  - destruct (decide (is_genesis b)) as [Hg|Hg].
    + left. pose proof (reachable_has_genesis gb n s R Hf) as Hx. apply get_entry in Hx as (k & Hx).
      assert (h = hash (Open gb)) as ->; [|congruence].
      refine (genesis_unique I _ _ _ _ _ _ Hh Hx Hg _). exact (proj1 (reachable_genesis_ok _ _ _ R)).
    + right. apply (reachable_admissible gb n s R Hf h); [apply get_entry; eauto|done].
  - destruct (ei_succ _ _ _ _ _ _ Hi) as [->|(sb & k & Hk & Hp)]; [by left|right]. exists sb. split; [apply get_entry; eauto|done].
Qed.
