(* ===== verification/LedgerExamples.v ===== *)
(** * A small ledger

    The genesis block of the live network, an account that is sent something,
    opens and changes its representative, and a block that is rolled back: the
    inputs on which the theorems about the ledger are applied.  Signatures are
    checked by a stand-in for Ed25519 that accepts the sum of account and hash. *)
From Stdlib Require Import ZArith Lia List.
From stdpp Require Import prelude gmap.
From S2P Require Import Prelude Numbers Streams Blocks Store Ledger StoreFacts LedgerInv LedgerQueries LedgerExtend LedgerShrink LedgerProcess LedgerRollback LedgerUndo LedgerUnique LedgerTheorems LedgerSub.

Definition live_account : account := 0xE89208DD038FBB269987689621D52292AE9C35941A7484756ECCED92A65093BA.

(** [live_genesis_data] *)
Definition live_genesis : open_block :=
  OpenBlock (OpenHashables live_account live_account live_account)
    0x9F0C933C8ADE004D808EA1985FA746A7E95BA2A38F867640F53EC8F180BDFE9E2C1268DEAD7C2664F356E37ABA362BC58E46DBA03E523A7B5A19E4B6EB12BB02
    0x62f05417dd3fb691.

Definition toy_sign (a h : Z) : signature := wrap 512 (a + h).

#[export] Instance sample_env : Environment := {|
  genesis_account := live_account;
  validate_message := fun a h s => negb (s =? toy_sign a h);
  seconds_since_epoch := 1510000000;
  loop_fuel := 100
|}.

(** The hash the network knows its genesis block by. *)
Definition live_genesis_hash : Z := 0x991CF190094C00F0B68E2E5F75F6BEE95A2E0BD93CEAA4A6734DB9F19B728948.

Lemma live_genesis_hashed : hash (Open live_genesis) = live_genesis_hash.
Proof. vm_compute. reflexivity. Qed.

Definition other_account : account := 77.
Definition send_1_hash : Z := 0x5b1216c4ae0623218482a64bd0c2867aa2d8dc34cc0ad05b427977e5365565c5.
Definition open_2_hash : Z := 0x1f11b417ce8c525b7e6a3b2b40b484a69ab8e466a28cbc504a68234f2b02d7c9.
Definition send_3_hash : Z := 0x29d28dd1d3b59f975db43ad1dd836d9ae3b492596410b6e614a1382e9413c48f.
Definition receive_4_hash : Z := 0xd5a555cd4074fbcfde0a2cbdd48e8edccdfcce6002b362551b586abb0c363f29.
Definition change_5_hash : Z := 0xf917de8082b8d2ebf10bab0dcee73f08183936f5de194944e41e9edf6717d2b0.

(** The genesis account sends 100, the other account opens with it; the genesis
    account sends 50 to itself and receives them; a change to account zero. *)
Definition send_1 : send_block :=
  SendBlock (SendHashables live_genesis_hash other_account (genesis_amount - 100))
    (toy_sign live_account send_1_hash) 0.
Definition open_2 : open_block :=
  OpenBlock (OpenHashables send_1_hash 5 other_account) (toy_sign other_account open_2_hash) 0.
Definition send_3 : send_block :=
  SendBlock (SendHashables send_1_hash live_account (genesis_amount - 150))
    (toy_sign live_account send_3_hash) 0.
Definition receive_4 : receive_block :=
  ReceiveBlock (ReceiveHashables send_3_hash send_3_hash) (toy_sign live_account receive_4_hash) 0.
Definition change_5 : change_block :=
  ChangeBlock (ChangeHashables open_2_hash 0) (toy_sign other_account change_5_hash) 0.

Lemma send_1_hashed : hash (Send send_1) = send_1_hash.
Proof. vm_compute. reflexivity. Qed.
Lemma open_2_hashed : hash (Open open_2) = open_2_hash.
Proof. vm_compute. reflexivity. Qed.
Lemma send_3_hashed : hash (Send send_3) = send_3_hash.
Proof. vm_compute. reflexivity. Qed.
Lemma receive_4_hashed : hash (Receive receive_4) = receive_4_hash.
Proof. vm_compute. reflexivity. Qed.
Lemma change_5_hashed : hash (Change change_5) = change_5_hash.
Proof. vm_compute. reflexivity. Qed.

(** The ledger after a block, unchanged by a fault. *)
Definition after (b : block) (s : store) : store :=
  match process b s with Ok (_, s') => s' | Fault _ => s end.

(** The ledgers are evaluated once. *)
Definition ledger_1 : store := Eval vm_compute in genesis_store (gb := live_genesis) initial_store.
Definition ledger_2 : store := Eval vm_compute in after (Send send_1) ledger_1.
Definition ledger_3 : store := Eval vm_compute in after (Open open_2) ledger_2.
Definition ledger_4 : store := Eval vm_compute in after (Send send_3) ledger_3.
(** The last two blocks in the other order. *)
Definition ledger_3' : store := Eval vm_compute in after (Send send_3) ledger_2.
Definition ledger_4' : store := Eval vm_compute in after (Open open_2) ledger_3'.

Lemma ledger_1_made : genesis_store (gb := live_genesis) initial_store = ledger_1.
Proof. vm_compute. reflexivity. Qed.
Lemma ledger_2_made : after (Send send_1) ledger_1 = ledger_2.
Proof. vm_compute. reflexivity. Qed.
Lemma ledger_3_made : after (Open open_2) ledger_2 = ledger_3.
Proof. vm_compute. reflexivity. Qed.
Lemma ledger_4_made : after (Send send_3) ledger_3 = ledger_4.
Proof. vm_compute. reflexivity. Qed.
Lemma ledger_3'_made : after (Send send_3) ledger_2 = ledger_3'.
Proof. vm_compute. reflexivity. Qed.
Lemma ledger_4'_made : after (Open open_2) ledger_3' = ledger_4'.
Proof. vm_compute. reflexivity. Qed.

Lemma live_genesis_ok : genesis_ok live_genesis.
Proof.
  unfold genesis_ok. rewrite live_genesis_hashed. split_and!; [done|done|done| |done].
  apply (bool_decide_unpack _). vm_compute. exact I.
Qed.

Lemma admissible_dec_tac b h :
  hash b = h -> block_ok b -> ~ reserved h ->
  match b with SendV2 _ => False | Open _ | Change _ => representative b <> 0 | _ => True end ->
  admissible b.
Proof. intros <- Hok Hres Hk. split_and!; assumption. Qed.

Ltac show_admissible H :=
  refine (admissible_dec_tac _ _ H _ _ _);
  [apply (bool_decide_unpack _); vm_compute; exact I
  |apply (bool_decide_unpack _); vm_compute; exact I
  |first [exact I | discriminate]].

Lemma send_1_admissible : admissible (Send send_1).
Proof. show_admissible send_1_hashed. Qed.
Lemma open_2_admissible : admissible (Open open_2).
Proof. show_admissible open_2_hashed. Qed.
Lemma send_3_admissible : admissible (Send send_3).
Proof. show_admissible send_3_hashed. Qed.
Lemma receive_4_admissible : admissible (Receive receive_4).
Proof. show_admissible receive_4_hashed. Qed.

Lemma reach_1 : reachable live_genesis 1 ledger_1.
Proof. apply (reach_genesis _ tt); [exact live_genesis_ok|]. by rewrite genesis_initialize_run, ledger_1_made. Qed.

(** The next ledger is reachable when the block was processed. *)
Lemma reach_next n s b :
  reachable live_genesis n s -> admissible b -> (query_fuel n <= loop_fuel)%nat ->
  reachable live_genesis (S n) (after b s).
Proof.
  intros R Hb Hf. destruct (reachable_inv _ _ _ R Hf) as (g & J).
  destruct (process_handled J Hf b Hb) as (r & s' & E & _).
  unfold after. rewrite E. exact (reach_process _ _ _ _ _ _ R Hb E).
Qed.

Lemma fuel_ok (n : nat) : (n <= 30)%nat -> (query_fuel n <= loop_fuel)%nat.
Proof. intros Hn. unfold query_fuel. cbn [loop_fuel sample_env]. lia. Qed.

Ltac reach_by R H A := rewrite <- H; apply reach_next; [exact R|exact A|apply fuel_ok; lia].

Lemma reach_2 : reachable live_genesis 2 ledger_2.
Proof. reach_by reach_1 ledger_2_made send_1_admissible. Qed.
Lemma reach_3 : reachable live_genesis 3 ledger_3.
Proof. reach_by reach_2 ledger_3_made open_2_admissible. Qed.
Lemma reach_4 : reachable live_genesis 4 ledger_4.
Proof. reach_by reach_3 ledger_4_made send_3_admissible. Qed.
Lemma reach_3' : reachable live_genesis 3 ledger_3'.
Proof. reach_by reach_2 ledger_3'_made send_3_admissible. Qed.
Lemma reach_4' : reachable live_genesis 4 ledger_4'.
Proof. reach_by reach_3' ledger_4'_made open_2_admissible. Qed.

(** ** The theorems on these ledgers *)

Lemma ledger_conserves_money_witness :
  total_balance (accounts ledger_3) + total_pending (pending ledger_3) = genesis_amount.
Proof. apply (ledger_conserves_money reach_3). apply fuel_ok. lia. Defined.

Lemma tables_well_typed_witness :
  type (Send send_1) = send /\ hash (Send send_1) = send_1_hash
  /\ (forall ty', is_Some (lookup_in ty' ledger_4 send_1_hash) -> ty' = send)
  /\ (Send send_1 = Open live_genesis \/ admissible (Send send_1))
  /\ (send_3_hash = 0 \/ exists b', block_get ledger_4 send_3_hash = Some b' /\ previous b' = send_1_hash).
Proof.
  apply (tables_well_typed live_genesis 4 ledger_4 send send_1_hash (Send send_1) send_3_hash reach_4 (fuel_ok 4 ltac:(lia))).
  vm_compute. reflexivity.
Defined.

Lemma ledger_weights_witness :
  weight ledger_3 5 = weight_of (entry_at ledger_3) (accounts ledger_3) 5
  /\ 0 <= weight ledger_3 5 <= genesis_amount.
Proof. apply (ledger_weights 5 reach_3). apply fuel_ok. lia. Defined.

Lemma ledger_checksum_heads_witness :
  ledger_checksum ledger_3 = Ok (mxor (fun _ i => head i) (accounts ledger_3), ledger_3).
Proof. apply (ledger_checksum_heads reach_3). apply fuel_ok. lia. Defined.

(** The genesis account after the first send. *)
Definition sent_info : account_info :=
  AccountInfo send_1_hash live_genesis_hash live_genesis_hash (genesis_amount - 100) 1510000000 2.

Lemma sent_info_found : accounts ledger_2 !! live_account = Some sent_info.
Proof. vm_compute. reflexivity. Qed.

Lemma account_queries_agree_witness :
  balance ledger_2 send_1_hash = Ok (genesis_amount - 100)
  /\ ledger_account send_1_hash ledger_2 = Ok (live_account, ledger_2)
  /\ ledger_representative send_1_hash ledger_2 = Ok (live_genesis_hash, ledger_2)
  /\ frontier_get ledger_2 send_1_hash = live_account /\ block_successor ledger_2 send_1_hash = 0.
Proof. apply (account_queries_agree live_account sent_info reach_2 (fuel_ok 2 ltac:(lia)) sent_info_found). Defined.

Lemma send_1_found : block_get ledger_2 send_1_hash = Some (Send send_1).
Proof. vm_compute. reflexivity. Qed.

Lemma amounts_of_blocks_witness :
  exists v, amount_of ledger_2 send_1_hash = Ok v /\ 0 <= v <= genesis_amount
  /\ exists before, balance ledger_2 live_genesis_hash = Ok before
     /\ v = before - (genesis_amount - 100).
Proof. exact (amounts_of_blocks reach_2 (fuel_ok 2 ltac:(lia)) _ _ send_1_found). Defined.

Lemma process_total_witness :
  exists r s', process (Send send_1) ledger_1 = Ok (r, s')
  /\ (code r <> progress -> s' = ledger_1)
  /\ (code r = progress ->
      block_get ledger_1 (hash (Send send_1)) = None
      /\ block_get s' (hash (Send send_1)) = Some (Send send_1)
      /\ (forall x, x <> hash (Send send_1) -> block_get s' x = block_get ledger_1 x)
      /\ process (Send send_1) s' = Ok (failed old, s')).
Proof. exact (process_total reach_1 (fuel_ok 1 ltac:(lia)) (Send send_1) send_1_admissible). Defined.

(** Rolling back the send also takes back the open block that received it. *)
Lemma rollback_total_witness :
  exists s', rollback 100 send_1_hash ledger_3 = Ok (tt, s') /\ block_exists s' send_1_hash = false
  /\ (forall x b', block_get s' x = Some b' -> block_get ledger_3 x = Some b')
  /\ reachable live_genesis 3 s'
  /\ total_balance (accounts s') + total_pending (pending s') = genesis_amount.
Proof.
  apply (rollback_total reach_3 (fuel_ok 3 ltac:(lia)) send_1_hash (Send send_1)).
  - vm_compute. reflexivity.
  - exact (fun H => H).
  - apply (bool_decide_unpack _). vm_compute. exact I.
Defined.

Lemma process_send_1 :
  process (Send send_1) ledger_1
  = Ok (ProcessReturn progress (Some live_account) (Some 100) (Some other_account), ledger_2).
Proof. vm_compute. reflexivity. Qed.

Lemma rollback_undoes_process_witness :
  exists s'', rollback 100 (hash (Send send_1)) ledger_2 = Ok (tt, s'') /\ ledger_equiv ledger_1 s''.
Proof.
  apply (rollback_undoes_process reach_1 (fuel_ok 1 ltac:(lia)) (Send send_1) _ _ 100
    (fuel_ok 2 ltac:(lia)) send_1_admissible process_send_1).
  - reflexivity.
  - apply (bool_decide_unpack _). vm_compute. exact I.
Defined.

Definition block_tables (s : store) :=
  (send_blocks s, receive_blocks s, open_blocks s, change_blocks s, send_blocks_v2 s).

Lemma block_tables_get s t x : block_tables t = block_tables s -> block_get t x = block_get s x.
Proof. intros [= H1 H2 H3 H4 H5]. unfold block_get, block_get_raw. by rewrite H1, H2, H3, H4, H5. Qed.

Lemma same_tables_4 : block_tables ledger_4' = block_tables ledger_4.
Proof. vm_compute. reflexivity. Qed.

Lemma ledger_determined_by_blocks_witness : ledger_equiv ledger_4 ledger_4'.
Proof.
  apply (ledger_determined_by_blocks reach_4 (fuel_ok 4 ltac:(lia)) 4 ledger_4' reach_4').
  - apply fuel_ok. lia.
  - intros x. exact (block_tables_get _ _ x same_tables_4).
Defined.

Lemma send_exact_witness :
  exists r s', process (Send send_3) ledger_3 = Ok (r, s')
  /\ (code r = progress <-> exists a i, send_accepts (s := ledger_3) send_3 a i)
  /\ (forall a i, send_accepts (s := ledger_3) send_3 a i ->
      account_balance s' a = genesis_amount - 150
      /\ pending s' = <[(live_account, hash (Send send_3))
                        := PendingInfo a (balance_of i - (genesis_amount - 150))]> (pending ledger_3)
      /\ forall a', a' <> a -> accounts s' !! a' = accounts ledger_3 !! a').
Proof. exact (send_exact reach_3 (fuel_ok 3 ltac:(lia)) send_3 send_3_admissible). Defined.

Lemma receive_exact_witness :
  exists r s', process (Receive receive_4) ledger_4 = Ok (r, s')
  /\ (code r = progress <-> exists a i pi, receive_accepts (s := ledger_4) receive_4 a i pi)
  /\ (forall a i pi, receive_accepts (s := ledger_4) receive_4 a i pi ->
      account_balance s' a = balance_of i + pi_amount pi
      /\ balance_of i + pi_amount pi <= genesis_amount
      /\ pending s' = delete (a, send_3_hash) (pending ledger_4)
      /\ forall a', a' <> a -> accounts s' !! a' = accounts ledger_4 !! a').
Proof. exact (receive_exact reach_4 (fuel_ok 4 ltac:(lia)) receive_4 receive_4_admissible). Defined.

Lemma supply_exact_witness :
  let rest := genesis_amount - account_balance ledger_3 live_account - pending_for (s := ledger_3) burn_account in
  0 <= rest <= genesis_amount
  /\ supply 7 ledger_3 = Ok (if 7 <=? rest then rest - 7 else 0).
Proof. apply (supply_exact reach_3 (fuel_ok 3 ltac:(lia)) 7). unfold fits. lia. Defined.

Lemma chains_linked_witness :
  (is_open (Send send_1) = false -> block_successor ledger_2 live_genesis_hash = send_1_hash)
  /\ (account_exists ledger_2 send_1_hash = false -> block_successor ledger_2 send_1_hash <> 0 ->
      exists b', successor send_1_hash ledger_2 = Ok (b', ledger_2) /\ previous b' = send_1_hash
      /\ block_get ledger_2 (block_successor ledger_2 send_1_hash) = Some b').
Proof. exact (chains_linked reach_2 (fuel_ok 2 ltac:(lia)) _ _ send_1_found). Defined.

Lemma zero_representative_asserts_witness :
  process (Change change_5) ledger_3 = Fault Assertion_failed.
Proof.
  apply (zero_representative_asserts reach_3 (fuel_ok 3 ltac:(lia)) change_5 other_account
    (AccountInfo open_2_hash open_2_hash open_2_hash 100 1510000000 1)).
  - vm_compute. reflexivity.
  - reflexivity.
  - vm_compute. reflexivity.
  - rewrite change_5_hashed. apply (bool_decide_unpack _). vm_compute. exact I.
  - vm_compute. reflexivity.
  - reflexivity.
Defined.

(** A version-2 send behind the genesis block. *)
Definition send_v2_1 : send_block_v2 := SendBlockV2 (SendHashablesV2 live_genesis_hash other_account []) 0 0.
Definition v2_store : store :=
  set_accounts (insert live_account (AccountInfo 9 live_genesis_hash live_genesis_hash 5 0 2))
    (put_entry send_v2 9 (SendV2 send_v2_1, 0) ledger_1).

Lemma send_v2_queries_diverge_witness :
  balance_loop 1000 v2_store 9 0 = Fault Out_of_fuel
  /\ ((2 <= loop_fuel)%nat -> amount_of v2_store 9 = Fault Indeterminate_value).
Proof.
  apply (send_v2_queries_diverge v2_store 9 send_v2_1 1000); [lia|vm_compute; reflexivity].
Defined.

Lemma send_v2_rollback_diverges_witness :
  rollback_loop 1000 live_account 9 v2_store = Fault Out_of_fuel.
Proof.
  apply (send_v2_rollback_diverges v2_store live_account
    (AccountInfo 9 live_genesis_hash live_genesis_hash 5 0 2) send_v2_1); vm_compute; reflexivity.
Defined.
