(* ===== verification/Codecs.v ===== *)
(** * Records of the tables as bytes (rai/secure.cpp)

    The values of the tables are stored as the memory of the packed classes
    [account_info], [pending_info], [pending_key] and [block_info]; the same
    classes have stream methods.  A value is taken from the database by copying
    its bytes after an assertion on the size. *)
From Stdlib Require Import ZArith Lia List.
From stdpp Require Import prelude gmap.
From S2P Require Import Prelude Numbers Streams Blocks Store.

Local Open Scope rd_scope.

(** ** Stream methods *)

Definition account_info_serialize (i : account_info) : list byte :=
  write_u256 (head i) ++ write_u256 (rep_block i) ++ write_u256 (open_block_hash i)
  ++ write_u128 (balance_of i) ++ write_u64 (modified i) ++ write_u64 (block_count i).

Definition account_info_deserialize : reader account_info :=
  head <~ read_u256;; rep_block <~ read_u256;; open_block <~ read_u256;;
  balance <~ read_u128;; modified <~ read_u64;; block_count <~ read_u64;;
  rd_ret (AccountInfo head rep_block open_block balance modified block_count).

Definition pending_info_serialize (i : pending_info) : list byte :=
  write_u256 (pi_source i) ++ write_u128 (pi_amount i).

Definition pending_info_deserialize : reader pending_info :=
  source <~ read_u256;; amount <~ read_u128;; rd_ret (PendingInfo source amount).

Definition pending_key_serialize (k : pending_key) : list byte :=
  write_u256 (fst k) ++ write_u256 (snd k).

Definition pending_key_deserialize : reader pending_key :=
  account <~ read_u256;; hash <~ read_u256;; rd_ret (account, hash).

Definition block_info_serialize (i : block_info) : list byte :=
  write_u256 (bi_account i) ++ write_u128 (bi_balance i).

Definition block_info_deserialize : reader block_info :=
  account <~ read_u256;; balance <~ read_u128;; rd_ret (BlockInfo account balance).

(** ** Equality *)

Definition account_info_eqb (a b : account_info) : bool :=
  (head a =? head b) && (rep_block a =? rep_block b) && (open_block_hash a =? open_block_hash b)
  && (balance_of a =? balance_of b) && (modified a =? modified b) && (block_count a =? block_count b).
Definition pending_info_eqb (a b : pending_info) : bool :=
  (pi_source a =? pi_source b) && (pi_amount a =? pi_amount b).
Definition pending_key_eqb (a b : pending_key) : bool :=
  (fst a =? fst b) && (snd a =? snd b).
Definition block_info_eqb (a b : block_info) : bool :=
  (bi_account a =? bi_account b) && (bi_balance a =? bi_balance b).

(** ** Database values: the memory of the packed classes, field by field *)

(** The bytes of a value of [size] bytes from the offset [off]. *)
Definition field (off size : nat) (val : list byte) : list byte := take size (drop off val).

Definition account_info_of_val (val : list byte) : res account_info :=
  if negb (length val =? 128)%nat then Fault Assertion_failed
  else Ok (AccountInfo (be_combine (field 0 32 val)) (be_combine (field 32 32 val))
             (be_combine (field 64 32 val)) (be_combine (field 96 16 val))
             (le_combine (field 112 8 val)) (le_combine (field 120 8 val))).

Definition pending_info_of_val (val : list byte) : res pending_info :=
  if negb (length val =? 48)%nat then Fault Assertion_failed
  else Ok (PendingInfo (be_combine (field 0 32 val)) (be_combine (field 32 16 val))).

Definition pending_key_of_val (val : list byte) : res pending_key :=
  if negb (length val =? 64)%nat then Fault Assertion_failed
  else Ok (be_combine (field 0 32 val), be_combine (field 32 32 val)).

Definition block_info_of_val (val : list byte) : res block_info :=
  if negb (length val =? 48)%nat then Fault Assertion_failed
  else Ok (BlockInfo (be_combine (field 0 32 val)) (be_combine (field 32 16 val))).

(** [val ()]: the memory of the object. *)
Definition account_info_val (i : account_info) : list byte :=
  be_split 32 (head i) ++ be_split 32 (rep_block i) ++ be_split 32 (open_block_hash i)
  ++ be_split 16 (balance_of i) ++ le_split 8 (modified i) ++ le_split 8 (block_count i).
Definition pending_info_val (i : pending_info) : list byte :=
  be_split 32 (pi_source i) ++ be_split 16 (pi_amount i).
Definition pending_key_val (k : pending_key) : list byte :=
  be_split 32 (fst k) ++ be_split 32 (snd k).
Definition block_info_val (i : block_info) : list byte :=
  be_split 32 (bi_account i) ++ be_split 16 (bi_balance i).

(** ** Ranges *)

Definition account_info_ok (i : account_info) : Prop :=
  fits 256 (head i) /\ fits 256 (rep_block i) /\ fits 256 (open_block_hash i)
  /\ fits 128 (balance_of i) /\ fits 64 (modified i) /\ fits 64 (block_count i).
Definition pending_info_ok (i : pending_info) : Prop :=
  fits 256 (pi_source i) /\ fits 128 (pi_amount i).
Definition pending_key_ok (k : pending_key) : Prop := fits 256 (fst k) /\ fits 256 (snd k).
Definition block_info_ok (i : block_info) : Prop :=
  fits 256 (bi_account i) /\ fits 128 (bi_balance i).

(** ** Proofs *)

Ltac codec_fields :=
  cbn [head rep_block open_block_hash balance_of modified block_count pi_source pi_amount
       bi_account bi_balance fst snd] in *;
  cbv [read_u128 read_u256 read_u64 write_u128 write_u256 write_u64] in *.

#[export] Instance account_info_serializable : Serializable account_info.
Proof.
  refine {| to_stream := account_info_serialize; from_stream := account_info_deserialize;
            in_range := account_info_ok |}.
  - intros [h r o b m c] rest (?&?&?&?&?&?). unfold account_info_serialize, account_info_deserialize.
    codec_fields. rewrite <- ?app_assoc. rd_run. reflexivity.
  - intros s a rest H. unfold account_info_deserialize in H. codec_fields. rd_inv H. injection H as <- <-.
    unfold account_info_serialize, account_info_ok. codec_fields. rewrite <- ?app_assoc. split_and!; done.
Defined.

#[export] Instance pending_info_serializable : Serializable pending_info.
Proof.
  refine {| to_stream := pending_info_serialize; from_stream := pending_info_deserialize;
            in_range := pending_info_ok |}.
  - intros [a b] rest (?&?). unfold pending_info_serialize, pending_info_deserialize.
    codec_fields. rewrite <- ?app_assoc. rd_run. reflexivity.
  - intros s a rest H. unfold pending_info_deserialize in H. codec_fields. rd_inv H. injection H as <- <-.
    unfold pending_info_serialize, pending_info_ok. codec_fields. rewrite <- ?app_assoc. split_and!; done.
Defined.

#[export] Instance pending_key_serializable : Serializable (Z * Z).
Proof.
  refine {| to_stream := pending_key_serialize; from_stream := pending_key_deserialize;
            in_range := pending_key_ok |}.
  - intros [a b] rest (?&?). unfold pending_key_serialize, pending_key_deserialize.
    codec_fields. rewrite <- ?app_assoc. rd_run. reflexivity.
  - intros s a rest H. unfold pending_key_deserialize in H. codec_fields. rd_inv H. injection H as <- <-.
    unfold pending_key_serialize, pending_key_ok. codec_fields. rewrite <- ?app_assoc. split_and!; done.
Defined.

#[export] Instance block_info_serializable : Serializable block_info.
Proof.
  refine {| to_stream := block_info_serialize; from_stream := block_info_deserialize;
            in_range := block_info_ok |}.
  - intros [a b] rest (?&?). unfold block_info_serialize, block_info_deserialize.
    codec_fields. rewrite <- ?app_assoc. rd_run. reflexivity.
  - intros s a rest H. unfold block_info_deserialize in H. codec_fields. rd_inv H. injection H as <- <-.
    unfold block_info_serialize, block_info_ok. codec_fields. rewrite <- ?app_assoc. split_and!; done.
Defined.

(** Fields of a concatenation. *)
Lemma field_here n bs rest : length bs = n -> field 0 n (bs ++ rest) = bs.
Proof. intros <-. unfold field. cbn. apply take_app_length. Qed.
Lemma field_there k off n bs rest : length bs = k -> (k <= off)%nat ->
  field off n (bs ++ rest) = field (off - k) n rest.
Proof. intros <- Ho. unfold field. by rewrite drop_app_ge. Qed.
Lemma field_last n bs : length bs = n -> field 0 n bs = bs.
Proof. intros <-. unfold field. cbn. by rewrite take_ge. Qed.

Lemma be_combine_split_small n z : fits (Z.of_nat n * 8) z -> be_combine (be_split n z) = z.
Proof. intros Hz. rewrite be_combine_split. by apply wrap_small. Qed.
Lemma le_combine_split_small n z : fits (Z.of_nat n * 8) z -> le_combine (le_split n z) = z.
Proof. intros Hz. rewrite le_combine_split. by apply wrap_small. Qed.

(** Walk through the fields of a value made of split integers. *)
Ltac take_fields :=
  repeat match goal with
  | |- context [field ?o ?n (be_split ?k ?z ++ ?r)] =>
      first [ rewrite (field_here n (be_split k z) r) by apply length_be_split
            | rewrite (field_there k o n (be_split k z) r) by (apply length_be_split || lia); cbn [Nat.sub] ]
  | |- context [field ?o ?n (le_split ?k ?z ++ ?r)] =>
      first [ rewrite (field_here n (le_split k z) r) by apply length_le_split
            | rewrite (field_there k o n (le_split k z) r) by (apply length_le_split || lia); cbn [Nat.sub] ]
  | |- context [field 0 ?n (be_split ?n ?z)] => rewrite (field_last n (be_split n z)) by apply length_be_split
  | |- context [field 0 ?n (le_split ?n ?z)] => rewrite (field_last n (le_split n z)) by apply length_le_split
  end.

(** What is put in the tables is what is found there.  For the four record
    classes the database value has the size the reading constructor asserts,
    reading it gives the record that was written, and the value is what the
    stream methods write, so that values and streams are interchangeable. *)
Theorem records_stored_and_read (i : account_info) (p : pending_info) (k : pending_key) (b : block_info) :
  account_info_ok i -> pending_info_ok p -> pending_key_ok k -> block_info_ok b ->
  (account_info_of_val (account_info_val i) = Ok i /\ account_info_val i = account_info_serialize i
   /\ account_info_deserialize (account_info_val i) = Got i [])
  /\ (pending_info_of_val (pending_info_val p) = Ok p /\ pending_info_val p = pending_info_serialize p
      /\ pending_info_deserialize (pending_info_val p) = Got p [])
  /\ (pending_key_of_val (pending_key_val k) = Ok k /\ pending_key_val k = pending_key_serialize k
      /\ pending_key_deserialize (pending_key_val k) = Got k [])
  /\ (block_info_of_val (block_info_val b) = Ok b /\ block_info_val b = block_info_serialize b
      /\ block_info_deserialize (block_info_val b) = Got b []).
Proof.
  intros Hi Hp Hk Hb.
  pose proof (read_written i [] Hi) as Ri. pose proof (read_written p [] Hp) as Rp.
  pose proof (read_written k [] Hk) as Rk. pose proof (read_written b [] Hb) as Rb.
  rewrite app_nil_r in Ri, Rp, Rk, Rb.
  assert (Vi : account_info_of_val (account_info_val i) = Ok i).
  { destruct i as [h r o bl m c], Hi as (?&?&?&?&?&?). unfold account_info_of_val, account_info_val. codec_fields.
    rewrite !length_app, !length_be_split, !length_le_split. cbn [Nat.add Nat.eqb negb]. take_fields.
    rewrite !be_combine_split_small, !le_combine_split_small by done. done. }
  assert (Vp : pending_info_of_val (pending_info_val p) = Ok p).
  { destruct p, Hp. unfold pending_info_of_val, pending_info_val. codec_fields.
    rewrite !length_app, !length_be_split. cbn [Nat.add Nat.eqb negb]. take_fields.
    rewrite !be_combine_split_small by done. done. }
  assert (Vk : pending_key_of_val (pending_key_val k) = Ok k).
  { destruct k, Hk. unfold pending_key_of_val, pending_key_val. codec_fields.
    rewrite !length_app, !length_be_split. cbn [Nat.add Nat.eqb negb]. take_fields.
    rewrite !be_combine_split_small by done. done. }
  assert (Vb : block_info_of_val (block_info_val b) = Ok b).
  { destruct b, Hb. unfold block_info_of_val, block_info_val. codec_fields.
    rewrite !length_app, !length_be_split. cbn [Nat.add Nat.eqb negb]. take_fields.
    rewrite !be_combine_split_small by done. done. }
  split_and!; done.
Qed.

Definition sample_account_info : account_info := AccountInfo 1 2 3 (2 ^ 127) 1510000000 (2 ^ 63).

Lemma records_stored_and_read_witness :
  account_info_of_val (account_info_val sample_account_info) = Ok sample_account_info
  /\ pending_key_deserialize (pending_key_val (7, 2 ^ 255)) = Got (7, 2 ^ 255) [].
Proof.
  destruct (records_stored_and_read sample_account_info (PendingInfo 5 6) (7, 2 ^ 255) (BlockInfo 8 9))
    as ((H1 & _) & _ & (_ & _ & H2) & _);
    [vm_compute; intuition congruence..|]. exact (conj H1 H2).
Defined.

(** The comparison operators of the four record classes hold exactly
    between equal records. *)
Theorem record_equality (i j : account_info) (p q : pending_info) (k l : pending_key) (b c : block_info) :
  (account_info_eqb i j = true <-> i = j) /\ (pending_info_eqb p q = true <-> p = q)
  /\ (pending_key_eqb k l = true <-> k = l) /\ (block_info_eqb b c = true <-> b = c).
Proof.
  destruct i, j, p, q, k, l, b, c.
  unfold account_info_eqb, pending_info_eqb, pending_key_eqb, block_info_eqb. codec_fields.
  rewrite !andb_true_iff, !Z.eqb_eq. split_and!; split; intros; destruct_and?; simplify_eq; by subst.
Qed.
