(* ===== verification/Votes.v ===== *)
(** * Votes and elections (rai/secure.cpp)

    The vote object with its hash and its binary form, the vote table with its
    cache ([vote_get] to [vote_validate]), the votes of an election
    ([rai::votes]) and their tally ([ledger::tally], [ledger::winner]).

    A signature is made by [sign_message] (Ed25519, not part of this program); a
    vote table entry is the bytes of the vote.  [vote_validate] compares shared
    pointers: which of the two objects [vote_max] returns is kept in its result. *)
From Stdlib Require Import ZArith Lia List.
From stdpp Require Import prelude gmap.
From S2P Require Import Prelude Blake2b Numbers Streams Blocks Store Ledger StoreFacts LedgerInv LedgerQueries LedgerProcess LedgerRollback LedgerTheorems.

(** ** The vote object *)

Record vote := Vote {
  v_sequence : Z;
  v_block : block;
  v_account : account;
  v_signature : signature
}.

#[export] Instance vote_eq_dec : EqDecision vote.
Proof. solve_decision. Defined.

(** [rai::vote::hash]: the hash of the block, then the sequence as its eight
    bytes in memory. *)
Definition vote_hash (v : vote) : Z :=
  be_combine (blake2b_hash 32 [bytes256 (hash (v_block v)); le_split 8 (v_sequence v)]).

(** The signature is not hashed. *)
Lemma vote_hash_unsigned q b a g g' : vote_hash (Vote q b a g) = vote_hash (Vote q b a g').
Proof. unfold vote_hash. cbn [v_block v_sequence]. reflexivity. Qed.

Definition vote_eqb (a b : vote) : bool :=
  (v_sequence a =? v_sequence b) && block_eqb (v_block a) (v_block b)
  && (v_account a =? v_account b) && (v_signature a =? v_signature b).

Definition vote_serialize (v : vote) : list byte :=
  write_u256 (v_account v) ++ write_u512 (v_signature v) ++ write_u64 (v_sequence v)
  ++ serialize_block (v_block v).

(** [serialize (stream, block_type)]: the kind is left to the message header. *)
Definition vote_serialize_untyped (v : vote) : list byte :=
  write_u256 (v_account v) ++ write_u512 (v_signature v) ++ write_u64 (v_sequence v)
  ++ serialize (v_block v).

Definition vote_read : reader vote :=
  (account <~ read_u256;; signature <~ read_u512;; sequence <~ read_u64;;
   b <~ deserialize_block;; rd_ret (Vote sequence b account signature))%rd.

Definition vote_read_as (type_a : Z) : reader vote :=
  (account <~ read_u256;; signature <~ read_u512;; sequence <~ read_u64;;
   b <~ deserialize_block_as type_a;; rd_ret (Vote sequence b account signature))%rd.

(** [vote (MDB_val const &)]: every step is asserted. *)
Definition vote_of_val (val : list byte) : res vote :=
  match vote_read val with
  | Got v _ => Ok v
  | Short => Fault Assertion_failed
  | Rd_fault f => Fault f
  end.

Definition vote_ok (v : vote) : Prop :=
  fits 64 (v_sequence v) /\ block_ok (v_block v) /\ fits 256 (v_account v) /\ fits 512 (v_signature v).

#[export] Instance vote_ok_dec v : Decision (vote_ok v).
Proof. unfold vote_ok. apply _. Defined.

#[export] Instance vote_serializable : Serializable vote.
Proof.
  refine {| to_stream := vote_serialize; from_stream := vote_read; in_range := vote_ok |}.
  - intros [q b a g] rest (Hq & Hb & Ha & Hg). unfold vote_serialize, vote_read.
    cbn [v_sequence v_block v_account v_signature] in *. unfold_io. rewrite <- ?app_assoc. rd_run.
    erewrite rd_bind_got by (by apply block_read_written). done.
  - intros s v rest H. unfold vote_read in H. unfold_io. rd_inv H.
    apply rd_bind_inv in H as (b & mid' & Hb & H). apply block_written_read in Hb as [-> Hb].
    injection H as <- <-. unfold vote_serialize, vote_ok. unfold_io.
    cbn [v_sequence v_block v_account v_signature]. rewrite <- ?app_assoc. split_and!; done.
Defined.

(** ** The vote table and its cache *)

Class Signing := { sign_message : Z -> account -> Z -> signature }.

(** A vote made with a private key; the signature is over the hash of the other fields. *)
Definition vote_make `{Signing} (a : account) (prv : Z) (sequence : Z) (b : block) : vote :=
  Vote sequence b a (sign_message prv a (vote_hash (Vote sequence b a 0))).

Record vote_store := VoteStore {
  vote_db : gmap Z (list byte);
  vote_cache : gmap Z vote
}.

Inductive vote_code := vote_invalid | vote_replay | vote_vote.
#[export] Instance vote_code_eq_dec : EqDecision vote_code.
Proof. solve_decision. Defined.

Section VoteStore.
Context `{Environment} `{Signing}.
Local Open Scope m_scope.

Definition vote_get (s : vote_store) (a : account) : res (option vote) :=
  match vote_db s !! a with
  | None => Ok None
  | Some val => match vote_of_val val with Ok v => Ok (Some v) | Fault f => Fault f end
  end.

Definition vote_current (s : vote_store) (a : account) : res (option vote) :=
  match vote_cache s !! a with
  | Some v => Ok (Some v)
  | None => vote_get s a
  end.

Definition vote_cache_put (a : account) (v : vote) : M vote_store unit :=
  st_put (fun s => VoteStore (vote_db s) (<[a := v]> (vote_cache s))).

Definition vote_generate (a : account) (key : Z) (b : block) : M vote_store vote :=
  current <- st_run (fun s => vote_current s a);;
  let sequence := wrap 64 (match current with Some v => v_sequence v | None => 0 end + 1) in
  let result := vote_make a key sequence b in
  vote_cache_put a result ;;;
  st_ret result.

(** The vote with the higher sequence, and whether it is the argument itself. *)
Definition vote_max (v : vote) : M vote_store (vote * bool) :=
  current <- st_run (fun s => vote_current s (v_account v));;
  let result :=
    match current with
    | Some c => if v_sequence v <? v_sequence c then (c, false) else (v, true)
    | None => (v, true)
    end in
  vote_cache_put (v_account v) (fst result) ;;;
  st_ret result.

Definition vote_validate (v : vote) : M vote_store (vote_code * option vote) :=
  if negb (validate_message (v_account v) (vote_hash v) (v_signature v)) then
    result <- vote_max v;;
    st_ret (if snd result : bool then vote_vote else vote_replay, Some (fst result))
  else st_ret (vote_invalid, None).

(** The part of [flush] for votes: the cache moves to the table. *)
Definition flush_votes (s : vote_store) : vote_store :=
  VoteStore (map_fold (fun a v db => <[a := vote_serialize v]> db) (vote_db s) (vote_cache s)) ∅.

(** ** Proofs *)

(** What the node knows of an account's votes; the table holds written votes. *)
Record vote_store_ok (s : vote_store) : Prop := {
  vs_db : forall a val, vote_db s !! a = Some val ->
    exists v, vote_ok v /\ v_account v = a /\ val = vote_serialize v;
  vs_cache : forall a v, vote_cache s !! a = Some v -> vote_ok v /\ v_account v = a
}.

Lemma vote_of_val_written v : vote_ok v -> vote_of_val (vote_serialize v) = Ok v.
Proof.
  intros Hv. unfold vote_of_val. pose proof (read_written v [] Hv) as Hr. cbn in Hr.
  rewrite app_nil_r in Hr. by rewrite Hr.
Qed.

Lemma vote_current_ok s a :
  vote_store_ok s ->
  exists c, vote_current s a = Ok c /\ forall v, c = Some v -> vote_ok v /\ v_account v = a.
Proof.
  intros [Hdb Hc]. unfold vote_current, vote_get. destruct (vote_cache s !! a) as [v|] eqn:Hv.
  { exists (Some v). split; [done|]. intros ? [= <-]. by apply Hc. }
  destruct (vote_db s !! a) as [val|] eqn:Hval; [|by exists None].
  destruct (Hdb _ _ Hval) as (v & Hok & Ha & ->). rewrite vote_of_val_written by done.
  exists (Some v). split; [done|]. by intros ? [= <-].
Qed.

Lemma flush_votes_db s a :
  vote_db (flush_votes s) !! a
  = match vote_cache s !! a with Some v => Some (vote_serialize v) | None => vote_db s !! a end.
Proof.
  unfold flush_votes. cbn. generalize (vote_db s) as db. intros db.
  induction (vote_cache s) as [|k v m Hk IH] using map_ind; [by rewrite map_fold_empty, lookup_empty|].
  rewrite map_fold_insert_L; [|intros j1 j2 z1 z2 y Hj _ _; by apply insert_insert_ne|done].
  rewrite !lookup_insert. case_decide as Ha; [by subst|]. exact IH.
Qed.

(** Moving the cache to the table changes no answer: after [flush] the
    current vote of every account, read back from its bytes, is the one it was
    before, and the store is still well formed. *)
Theorem flush_keeps_votes (s : vote_store) (a : account) :
  vote_store_ok s -> vote_current (flush_votes s) a = vote_current s a /\ vote_store_ok (flush_votes s).
Proof.
  intros Hs. pose proof Hs as [Hdb Hc]. split.
  - unfold vote_current at 1. cbn [vote_cache flush_votes]. rewrite lookup_empty. unfold vote_get.
    rewrite flush_votes_db. unfold vote_current, vote_get.
    destruct (vote_cache s !! a) as [v|] eqn:Hv; [|done].
    by rewrite vote_of_val_written by (by destruct (Hc _ _ Hv)).
  - split; [|intros x v; cbn; by rewrite lookup_empty]. intros x val. rewrite flush_votes_db.
    destruct (vote_cache s !! x) as [v|] eqn:Hv; [|apply Hdb].
    intros [= <-]. destruct (Hc _ _ Hv). eauto.
Qed.

Lemma cache_put_ok a v s :
  vote_store_ok s -> vote_ok v -> v_account v = a ->
  vote_store_ok (VoteStore (vote_db s) (<[a := v]> (vote_cache s))).
Proof.
  intros [Hdb Hc] Hv Ha. split; [exact Hdb|]. intros x w. cbn. rewrite lookup_insert.
  case_decide; [|apply Hc]. intros [= <-]. naive_solver.
Qed.

Lemma vote_max_run v s :
  vote_store_ok s -> vote_ok v ->
  exists c, vote_current s (v_account v) = Ok c
  /\ let keep := match c with Some c => v_sequence v <? v_sequence c | None => false end in
     let r := match c with Some c => if keep then c else v | None => v end in
     vote_max v s = Ok ((r, negb keep), VoteStore (vote_db s) (<[v_account v := r]> (vote_cache s)))
     /\ vote_ok r /\ v_account r = v_account v.
Proof.
  intros Hs Hv. destruct (vote_current_ok s (v_account v) Hs) as (c & Hc & Hok). exists c. split; [done|].
  unfold vote_max. erewrite st_run_ok by exact Hc. destruct c as [c|]; [|done].
  destruct (Hok c eq_refl). cbn. destruct (v_sequence v <? v_sequence c); done.
Qed.

(** Vote validation is total and keeps the highest sequence.  On a well
    formed store a vote whose signature does not verify is [invalid] and changes
    nothing; otherwise the vote is answered by [replay] exactly when a vote with
    a higher sequence is known for the account, and the vote known afterwards
    is that vote or the new one, so that the sequence known for an account never
    decreases. *)
Theorem vote_validate_exact (v : vote) (s : vote_store) :
  vote_store_ok s -> vote_ok v ->
  exists c code r s', vote_current s (v_account v) = Ok c
  /\ vote_validate v s = Ok ((code, r), s') /\ vote_store_ok s'
  /\ (code = vote_invalid <-> validate_message (v_account v) (vote_hash v) (v_signature v) = true)
  /\ (code = vote_invalid -> s' = s)
  /\ (code <> vote_invalid -> vote_current s' (v_account v) = Ok r
      /\ (code = vote_replay <-> exists w, c = Some w /\ v_sequence v < v_sequence w)
      /\ (code = vote_replay -> r = c) /\ (code = vote_vote -> r = Some v)).
Proof.
  intros Hs Hv. destruct (vote_max_run v s Hs Hv) as (c & Hc & Hm & Hr & Ha). cbv zeta in *.
  exists c. unfold vote_validate.
  destruct (validate_message (v_account v) (vote_hash v) (v_signature v)) eqn:Hval; cbn [negb].
  { exists vote_invalid, None, s. split_and!; naive_solver. }
  set (keep := match c with Some c => v_sequence v <? v_sequence c | None => false end) in *.
  set (w := match c with Some c => if keep then c else v | None => v end) in *.
  exists (if negb keep then vote_vote else vote_replay), (Some w),
    (VoteStore (vote_db s) (<[v_account v := w]> (vote_cache s))).
  split_and!; [done|erewrite st_bind_ok by exact Hm; reflexivity|by apply cache_put_ok| | |].
  - by destruct keep.
  - by destruct keep.
  - intros _. split_and!.
    + unfold vote_current. cbn. by rewrite lookup_insert_eq.
    + unfold keep. destruct c as [c|]; [|naive_solver].
      destruct (Z.ltb_spec (v_sequence v) (v_sequence c)); cbn; split; try done; [eauto|].
      intros (w' & [= <-] & ?). lia.
    + unfold w, keep. destruct c as [c|]; [|done]. by destruct (v_sequence v <? v_sequence c).
    + unfold w, keep. destruct c as [c|]; [|done]. by destruct (v_sequence v <? v_sequence c).
Qed.

(** A replayed vote is not recognised.  The comment in [vote_validate] asks
    for a sequence greater than any seen before; the code accepts an equal one,
    so a vote that was accepted is accepted again, however often it is sent. *)
Theorem replayed_vote_accepted (v : vote) (s s' : vote_store) (r : option vote) :
  vote_store_ok s -> vote_ok v ->
  vote_validate v s = Ok ((vote_vote, r), s') ->
  vote_validate v s' = Ok ((vote_vote, Some v), s').
Proof.
  intros Hs Hv Hval. destruct (vote_max_run v s Hs Hv) as (c & Hc & Hm & Hr & Ha). cbv zeta in *.
  unfold vote_validate in Hval. destruct (negb (validate_message _ _ _)) eqn:Hneg; [|by injection Hval].
  erewrite st_bind_ok in Hval by exact Hm. cbn in Hval. injection Hval as Hcode _ <-.
  assert (Hw : match c with Some c0 => if match c with Some c => v_sequence v <? v_sequence c | None => false end
                 then c0 else v | None => v end = v).
  { destruct c as [c|]; [|done]. by destruct (v_sequence v <? v_sequence c). }
  rewrite Hw in *. unfold vote_validate. rewrite Hneg. unfold vote_max.
  erewrite st_bind_ok.
  2:{ erewrite st_run_ok by (unfold vote_current; cbn; rewrite lookup_insert_eq; reflexivity).
      cbv beta iota zeta. rewrite Z.ltb_irrefl. cbn. reflexivity. }
  cbn. unfold st_ret. by rewrite insert_insert_eq.
Qed.

(** [vote_generate] does not fail. *)
Lemma vote_generate_run a key b s :
  vote_store_ok s -> fits 256 a -> block_ok b -> (forall h, fits 512 (sign_message key a h)) ->
  exists v s', vote_generate a key b s = Ok (v, s') /\ vote_store_ok s' /\ v_block v = b /\ v_account v = a.
Proof.
  intros Hs Ha Hb Hsig. destruct (vote_current_ok s a Hs) as (c & Hc & _).
  eexists _, _. split; [unfold vote_generate; erewrite st_run_ok by exact Hc; reflexivity|].
  split_and!; [|done|done]. apply cache_put_ok; [done| |done].
  split_and!; [by apply wrap_fits|done|done|apply Hsig].
Qed.

(** [vote_validate] does not fail on a vote with a valid signature, and does not
    call it invalid. *)
Lemma vote_validate_run v s :
  vote_store_ok s -> vote_ok v -> validate_message (v_account v) (vote_hash v) (v_signature v) = false ->
  exists code r s', vote_validate v s = Ok ((code, r), s') /\ code <> vote_invalid /\ vote_store_ok s'.
Proof.
  intros Hs Hv Hval. destruct (vote_max_run v s Hs Hv) as (c & Hc & Hm & Hr & Ha). cbv zeta in *.
  eexists _, _, _. unfold vote_validate. rewrite Hval. cbn [negb].
  split; [erewrite st_bind_ok by exact Hm; reflexivity|]. split; [by destruct (snd _)|]. by apply cache_put_ok.
Qed.

(** A generated vote is fresh and valid.  When a signature made with the
    account's key verifies, the vote [vote_generate] makes has the next sequence
    number, is the current vote of the account afterwards, and is accepted by
    [vote_validate] with the code [vote]; the next sequence number is larger
    than the last one until the 64 bit counter is used up. *)
Theorem generated_vote_valid (a : account) (key : Z) (b : block) (s : vote_store) :
  vote_store_ok s -> fits 256 a -> block_ok b ->
  (forall h, fits 512 (sign_message key a h)) ->
  (forall h, validate_message a h (sign_message key a h) = false) ->
  exists c v s', vote_current s a = Ok c /\ vote_generate a key b s = Ok (v, s')
  /\ v_block v = b /\ vote_current s' a = Ok (Some v)
  /\ (exists s'', vote_validate v s' = Ok ((vote_vote, Some v), s''))
  /\ (forall w, c = Some w -> v_sequence w < 2 ^ 64 - 1 -> v_sequence v = v_sequence w + 1).
Proof.
  intros Hs Ha Hb Hsig Hval. destruct (vote_current_ok s a Hs) as (c & Hc & Hok).
  set (q := wrap 64 (match c with Some v => v_sequence v | None => 0 end + 1)).
  set (v := vote_make a key q b).
  assert (Hv : vote_ok v) by (split_and!; [by apply wrap_fits|done|done|apply Hsig]).
  assert (Hcur : vote_current (VoteStore (vote_db s) (<[a := v]> (vote_cache s))) a = Ok (Some v))
    by (unfold vote_current; cbn; by rewrite lookup_insert_eq).
  exists c, v, (VoteStore (vote_db s) (<[a := v]> (vote_cache s))). split_and!; [done| |done|done| |].
  - unfold vote_generate. erewrite st_run_ok by exact Hc. reflexivity.
  - eexists. unfold vote_validate.
    assert (validate_message (v_account v) (vote_hash v) (v_signature v) = false) as ->.
    { unfold v, vote_make. cbn [v_account v_signature]. rewrite (vote_hash_unsigned q b a _ 0). apply Hval. }
    cbn [negb]. unfold vote_max. erewrite st_bind_ok.
    2:{ erewrite st_run_ok by exact Hcur. cbv beta iota zeta. rewrite Z.ltb_irrefl. reflexivity. }
    reflexivity.
  - intros w -> Hw. destruct (Hok w eq_refl) as [(Hq & _) _]. cbn. unfold q. apply wrap_small.
    unfold fits in *. lia.
Qed.
End VoteStore.

(** ** Elections *)

Inductive tally_result := tally_vote | tally_changed | tally_confirm.

(** The votes by account, in the order in which the container holds them. *)
Record votes := Votes { votes_id : block_hash; rep_votes : list (account * block) }.

Fixpoint votes_find (a : account) (l : list (account * block)) : option block :=
  match l with
  | [] => None
  | (x, b) :: l => if x =? a then Some b else votes_find a l
  end.

Fixpoint votes_assign (a : account) (b : block) (l : list (account * block)) : list (account * block) :=
  match l with
  | [] => []
  | (x, c) :: l => if x =? a then (x, b) :: l else (x, c) :: votes_assign a b l
  end.

(** The constructor: the block of the election starts with the vote of
    [not_an_account], a random number no account has. *)
Definition votes_new (not_an_account : account) (b : block) : votes := Votes (root b) [(not_an_account, b)].

Definition votes_vote (v : vote) (s : votes) : tally_result * votes :=
  match votes_find (v_account v) (rep_votes s) with
  | None => (tally_vote, Votes (votes_id s) (rep_votes s ++ [(v_account v, v_block v)]))
  | Some existing =>
      if negb (block_eqb existing (v_block v))
      then (tally_changed, Votes (votes_id s) (votes_assign (v_account v) (v_block v) (rep_votes s)))
      else (tally_confirm, s)
  end.

(** [totals]: blocks are compared by their contents. *)
Fixpoint totals_add (b : block) (w : Z) (l : list (block * Z)) : list (block * Z) :=
  match l with
  | [] => [(b, wrap 128 (0 + w))]
  | (c, t) :: l => if block_eqb c b then (c, wrap 128 (t + w)) :: l else (c, t) :: totals_add b w l
  end.

Fixpoint totals (weight_of : account -> Z) (acc : list (block * Z)) (l : list (account * block)) : list (block * Z) :=
  match l with
  | [] => acc
  | (a, b) :: l => totals weight_of (totals_add b (weight_of a) acc) l
  end.

(** The order in which an [unordered_map] is walked is not specified: a
    rearrangement of its entries. *)
Class Iteration := {
  iteration : list (block * Z) -> list (block * Z);
  iteration_perm l : iteration l ≡ₚ l
}.

(** Vote total to block; of blocks with equal totals the last one walked stays. *)
Definition tally `{Iteration} (s : store) (v : votes) : gmap Z block :=
  fold_left (fun m e => <[snd e := fst e]> m) (iteration (totals (weight s) [] (rep_votes v))) ∅.

(** The first entry of the map, which is ordered by decreasing total. *)
Definition winner `{Iteration} (s : store) (v : votes) : option (Z * block) :=
  map_fold (fun t b best =>
              match best with
              | None => Some (t, b)
              | Some (t', _) => if t' <? t then Some (t, b) else best
              end) None (tally s v).

(** *** Proofs *)

(** The sum of the weights of the accounts that vote for [b]. *)
Definition votes_for (w : account -> Z) (b : block) (l : list (account * block)) : Z :=
  foldr (fun e acc => (if block_eqb (snd e) b then w (fst e) else 0) + acc) 0 l.
Definition votes_total (w : account -> Z) (l : list (account * block)) : Z :=
  foldr (fun e acc => w (fst e) + acc) 0 l.

Lemma block_eqb_spec a b : reflect (a = b) (block_eqb a b).
Proof.
  destruct (block_eqb a b) eqn:He; constructor.
  - destruct a as [[[]]|[[]]|[[]]|[[]]|[[]]], b as [[[]]|[[]]|[[]]|[[]]|[[]]]; try done; revert He;
      cbn; cbv [send_block_eqb send_block_v2_eqb receive_block_eqb open_block_eqb change_block_eqb];
      fields; rewrite ?andb_true_iff, ?Z.eqb_eq, ?bool_decide_eq_true; intros; destruct_and?; congruence.
  - intros ->. revert He. destruct b as [[[]]|[[]]|[[]]|[[]]|[[]]]; cbn;
      cbv [send_block_eqb send_block_v2_eqb receive_block_eqb open_block_eqb change_block_eqb]; fields;
      by rewrite ?Z.eqb_refl, ?bool_decide_eq_true_2.
Qed.

Lemma block_eqb_refl b : block_eqb b b = true.
Proof. by destruct (block_eqb_spec b b). Qed.

(** The total of a block. *)
Fixpoint total_get (b : block) (l : list (block * Z)) : option Z :=
  match l with
  | [] => None
  | (c, t) :: l => if block_eqb c b then Some t else total_get b l
  end.

Lemma total_get_add b w l c :
  total_get c (totals_add b w l)
  = if block_eqb b c then Some (wrap 128 (default 0 (total_get b l) + w)) else total_get c l.
Proof.
  induction l as [|[x t] l IH]; cbn [totals_add total_get]; [by destruct (block_eqb b c)|].
  destruct (block_eqb_spec x b) as [->|Hxb]; cbn [total_get].
  - by destruct (block_eqb_spec b c).
  - rewrite IH. destruct (block_eqb_spec b c) as [->|]; [|done].
    by destruct (block_eqb_spec x c).
Qed.

Lemma totals_add_keys b w l : fst <$> totals_add b w l = if bool_decide (b ∈ fst <$> l) then fst <$> l else (fst <$> l) ++ [b].
Proof.
  induction l as [|[x t] l IH]; cbn [totals_add fmap list_fmap fst]; [by rewrite bool_decide_eq_false_2 by set_solver|].
  destruct (block_eqb_spec x b) as [->|Hxb]; cbn [fmap list_fmap fst].
  - by rewrite bool_decide_eq_true_2 by set_solver.
  - rewrite IH. destruct (decide (b ∈ fst <$> l)).
    + by rewrite !bool_decide_eq_true_2 by set_solver.
    + by rewrite !bool_decide_eq_false_2 by set_solver.
Qed.

Lemma total_get_elem b t l : NoDup (fst <$> l) -> (b, t) ∈ l <-> total_get b l = Some t.
Proof.
  induction l as [|[x u] l IH]; cbn; [set_solver|]. intros [Hx Hl]%NoDup_cons.
  rewrite elem_of_cons. destruct (block_eqb_spec x b) as [->|Hne].
  - split; [|intros [= ->]; by left]. intros [[= ->]|Hin]; [done|]. exfalso. apply Hx.
    apply list_elem_of_fmap. by exists (b, t).
  - rewrite <- (IH Hl). split; [|by right]. intros [[= -> ->]|?]; done.
Qed.

Lemma votes_for_one w b a c : votes_for w b [(a, c)] = if block_eqb c b then w a else 0.
Proof. unfold votes_for. cbn. destruct (block_eqb c b); lia. Qed.

Lemma votes_for_app w b l1 l2 : votes_for w b (l1 ++ l2) = votes_for w b l1 + votes_for w b l2.
Proof. unfold votes_for. induction l1 as [|e l1 IH]; cbn; [done|]. rewrite IH. lia. Qed.

Section Tally.
Context (w : account -> Z) (Hw : forall a, 0 <= w a).

Lemma votes_for_bounds b l : 0 <= votes_for w b l <= votes_total w l.
Proof.
  induction l as [|[a c] l IH]; cbn; [lia|]. pose proof (Hw a). unfold votes_for, votes_total in *.
  destruct (block_eqb c b); lia.
Qed.

Lemma votes_total_app l1 l2 : votes_total w (l1 ++ l2) = votes_total w l1 + votes_total w l2.
Proof. unfold votes_total. induction l1 as [|e l1 IH]; cbn; [done|]. rewrite IH. lia. Qed.

Lemma votes_total_nonneg l : 0 <= votes_total w l.
Proof. destruct l as [|[a c] l]; [done|]. pose proof (votes_for_bounds c ((a, c) :: l)). lia. Qed.

(** [acc] has the totals of the votes [p]. *)
Record counts (p : list (account * block)) (acc : list (block * Z)) : Prop := {
  co_nodup : NoDup (fst <$> acc);
  co_get : forall b, total_get b acc = if bool_decide (b ∈ snd <$> p) then Some (votes_for w b p) else None
}.

Lemma not_voted b p : b ∉ snd <$> p -> votes_for w b p = 0.
Proof.
  induction p as [|[a c] p IH]; cbn; [done|]. intros Hn. rewrite not_elem_of_cons in Hn.
  destruct Hn as [Hne Hn]. destruct (block_eqb_spec c b); [congruence|]. fold (votes_for w b p). rewrite IH by done. lia.
Qed.

Lemma counts_step p acc a b :
  counts p acc -> votes_total w (p ++ [(a, b)]) < 2 ^ 128 ->
  counts (p ++ [(a, b)]) (totals_add b (w a) acc).
Proof.
  intros [Hn Hg] Hlt. split.
  - rewrite totals_add_keys. case_bool_decide as Hb; [done|]. apply NoDup_app. split_and!; [done|set_solver|].
    apply NoDup_singleton.
  - intros c. rewrite total_get_add, fmap_app, votes_for_app, votes_for_one. cbn [fmap list_fmap snd].
    destruct (block_eqb_spec b c) as [->|Hne].
    + rewrite bool_decide_eq_true_2 by set_solver. f_equal. rewrite Hg.
      pose proof (votes_for_bounds c p). pose proof (Hw a).
      rewrite votes_total_app in Hlt. unfold votes_total at 2 in Hlt. cbn [foldr fst] in Hlt.
      case_bool_decide as Hc; cbn [from_option id].
      * rewrite wrap_small; [lia|]. unfold fits. lia.
      * rewrite (not_voted c p Hc) in *. rewrite wrap_small; [lia|]. unfold fits. lia.
    + rewrite Hg. rewrite (bool_decide_ext (c ∈ (snd <$> p) ++ [b]) (c ∈ snd <$> p)) by set_solver.
      case_bool_decide; [|done]. f_equal. lia.
Qed.

Lemma totals_counts l p acc :
  counts p acc -> votes_total w (p ++ l) < 2 ^ 128 -> counts (p ++ l) (totals w acc l).
Proof.
  revert p acc. induction l as [|[a b] l IH]; intros p acc Hc Hlt; cbn [totals]; [by rewrite app_nil_r|].
  rewrite cons_middle, app_assoc in *. apply IH; [|done]. apply counts_step; [done|].
  rewrite votes_total_app in Hlt. pose proof (votes_total_nonneg l). lia.
Qed.
End Tally.

(** The map from totals to blocks. *)
Definition by_total (l : list (block * Z)) (m : gmap Z block) : gmap Z block :=
  fold_left (fun m e => <[snd e := fst e]> m) l m.

Lemma by_total_lookup l m t b :
  by_total l m !! t = Some b -> (b, t) ∈ l \/ m !! t = Some b.
Proof.
  revert m. induction l as [|[c u] l IH]; intros m; cbn; [by right|].
  intros [Hin|Hm]%IH; [by left; right|]. cbn in Hm. rewrite lookup_insert in Hm. case_decide as Hu.
  - injection Hm as <-. subst. left. left.
  - by right.
Qed.

Lemma by_total_mono l m t : is_Some (m !! t) -> is_Some (by_total l m !! t).
Proof.
  revert m. induction l as [|[c u] l IH]; intros m Hm; cbn; [done|].
  apply IH. cbn. rewrite lookup_insert. case_decide; [by eexists|done].
Qed.

Lemma by_total_has l m t b : (b, t) ∈ l -> is_Some (by_total l m !! t).
Proof.
  revert m. induction l as [|[c u] l IH]; intros m; cbn; [by intros ?%not_elem_of_nil|].
  intros [[= <- <-]|Hin]%elem_of_cons; [|by apply IH].
  apply by_total_mono. cbn. rewrite lookup_insert_eq. by eexists.
Qed.

(** The entry with the largest key. *)
Lemma max_entry (m : gmap Z block) :
  match map_fold (fun t b best => match best with
                                  | None => Some (t, b)
                                  | Some (t', _) => if t' <? t then Some (t, b) else best
                                  end) None m with
  | None => m = ∅
  | Some (t, b) => m !! t = Some b /\ forall t', is_Some (m !! t') -> t' <= t
  end.
Proof.
  apply (map_fold_weak_ind (fun r m => match r with
     | None => m = ∅ | Some (t, b) => m !! t = Some b /\ forall t', is_Some (m !! t') -> t' <= t end)); [done|].
  intros t b m' best Hm' IH. destruct best as [[t0 b0]|].
  - destruct IH as [H0 Hmax]. destruct (Z.ltb_spec t0 t) as [Hlt|Hge].
    + split; [apply lookup_insert_eq|]. intros t'. rewrite lookup_insert. case_decide; [lia|].
      intros Ht'%Hmax. lia.
    + split; [rewrite lookup_insert_ne; [done|congruence]|]. intros t'. rewrite lookup_insert.
      case_decide; [lia|auto].
  - subst m'. split; [apply lookup_insert_eq|]. intros t'. rewrite lookup_insert. case_decide; [lia|].
    rewrite lookup_empty. by intros [? ?].
Qed.

Lemma winner_spec `{Iteration} s v :
  (forall a, 0 <= weight s a) -> rep_votes v <> [] -> votes_total (weight s) (rep_votes v) < 2 ^ 128 ->
  exists t b, winner s v = Some (t, b) /\ b ∈ snd <$> rep_votes v
  /\ t = votes_for (weight s) b (rep_votes v)
  /\ forall b', votes_for (weight s) b' (rep_votes v) <= t.
Proof.
  intros Hw Hne Hlt. pose proof (totals_counts (weight s) Hw (rep_votes v) [] []) as Hc. cbn [app] in Hc.
  specialize (Hc ltac:(split; [constructor|intros b; by rewrite bool_decide_eq_false_2 by apply not_elem_of_nil]) Hlt).
  destruct Hc as [Hn Hg].
  pose proof (max_entry (tally s v)) as Hmax. unfold winner. set (r := map_fold _ None (tally s v)) in *.
  assert (Hhas : forall b, b ∈ snd <$> rep_votes v -> is_Some (tally s v !! votes_for (weight s) b (rep_votes v))).
  { intros b Hb. apply (by_total_has _ _ _ b). rewrite iteration_perm. apply total_get_elem; [done|]. rewrite Hg.
    by rewrite bool_decide_eq_true_2. }
  destruct r as [[t b]|].
  - destruct Hmax as [Hl Hle]. exists t, b. apply by_total_lookup in Hl as [Hl|Hl]; [|by rewrite lookup_empty in Hl].
    rewrite iteration_perm in Hl. apply total_get_elem in Hl; [|done]. rewrite Hg in Hl. case_bool_decide as Hb; [|done]. injection Hl as <-.
    split_and!; [done|done|done|]. intros b'. destruct (decide (b' ∈ snd <$> rep_votes v)) as [Hb'|Hb'].
    + apply Hle. by apply Hhas.
    + rewrite (not_voted (weight s) b') by done. apply (votes_for_bounds (weight s) Hw).
  - exfalso. destruct (rep_votes v) as [|[a b] l] eqn:Hv; [done|].
    destruct (Hhas b) as [x Hx]; [cbn; set_solver|]. rewrite Hmax in Hx. by rewrite lookup_empty in Hx.
Qed.

(** *** What a vote does to an election *)

Lemma votes_find_assign a b l x :
  votes_find x (votes_assign a b l)
  = if x =? a then match votes_find a l with Some _ => Some b | None => None end else votes_find x l.
Proof.
  induction l as [|[y c] l IH]; cbn; [by destruct (x =? a)|].
  destruct (Z.eqb_spec y a) as [->|Hya]; cbn.
  - rewrite (Z.eqb_sym a x). by destruct (x =? a).
  - rewrite IH. destruct (Z.eqb_spec x a) as [Hx|]; [|done]. rewrite Hx. by rewrite (proj2 (Z.eqb_neq _ _) Hya).
Qed.

Lemma votes_find_snoc a b l x :
  votes_find x (l ++ [(a, b)])
  = match votes_find x l with Some c => Some c | None => if a =? x then Some b else None end.
Proof. induction l as [|[y c] l IH]; cbn; [done|]. by destruct (y =? x). Qed.

Lemma votes_assign_keys a b l : fst <$> votes_assign a b l = fst <$> l.
Proof. induction l as [|[y c] l IH]; cbn; [done|]. destruct (y =? a); cbn; by f_equal. Qed.

Lemma votes_find_none a l : votes_find a l = None <-> a ∉ fst <$> l.
Proof.
  induction l as [|[y c] l IH]; cbn; [split; [intros _; apply not_elem_of_nil|done]|].
  rewrite not_elem_of_cons, <- IH. destruct (Z.eqb_spec y a) as [->|Hne]; naive_solver.
Qed.

Lemma votes_vote_keys v e : NoDup (fst <$> rep_votes e) -> NoDup (fst <$> rep_votes (snd (votes_vote v e))).
Proof.
  intros Hn. unfold votes_vote. destruct (votes_find (v_account v) (rep_votes e)) as [b|] eqn:Hf.
  - destruct (negb _); [|done]. cbn. by rewrite votes_assign_keys.
  - cbn. rewrite fmap_app. apply NoDup_app. apply votes_find_none in Hf.
    split_and!; [done|set_solver|apply NoDup_singleton].
Qed.

(** An election keeps one vote per account.  A vote of an account that has
    not voted is [vote], of one that voted for another block [changed], of one
    that voted for an equal block [confirm]; afterwards the account's vote is
    for that block, the votes of all other accounts and the root are as before,
    and no account has two votes when none had. *)
Theorem votes_vote_exact (v : vote) (e : votes) :
  let '(r, e') := votes_vote v e in
  (r = tally_vote <-> votes_find (v_account v) (rep_votes e) = None)
  /\ (r = tally_confirm <-> votes_find (v_account v) (rep_votes e) = Some (v_block v))
  /\ (forall a, votes_find a (rep_votes e')
               = if a =? v_account v then Some (v_block v) else votes_find a (rep_votes e))
  /\ votes_id e' = votes_id e
  /\ (NoDup (fst <$> rep_votes e) -> NoDup (fst <$> rep_votes e')).
Proof.
  pose proof (votes_vote_keys v e) as Hk. unfold votes_vote in *.
  destruct (votes_find (v_account v) (rep_votes e)) as [b|] eqn:Hf.
  - destruct (block_eqb_spec b (v_block v)) as [->|Hne]; cbn [negb snd] in *; split_and!; try done.
    + intros a. by destruct (Z.eqb_spec a (v_account v)) as [->|].
    + split; [done|]. by intros [= ?].
    + intros a. cbn. by rewrite votes_find_assign, Hf.
  - split_and!; try done. intros a. cbn. rewrite votes_find_snoc.
    destruct (Z.eqb_spec a (v_account v)) as [->|Hne]; [by rewrite Hf, Z.eqb_refl|].
    rewrite (proj2 (Z.eqb_neq (v_account v) a)) by done. by destruct (votes_find a (rep_votes e)).
Qed.

(** The weights of different accounts are made of the balances of different accounts. *)
Lemma msum_add {K V} `{Countable K} (f g : K -> V -> Z) m :
  msum f m + msum g m = msum (fun k v => f k v + g k v) m.
Proof.
  induction m as [|k v m Hk IH] using map_ind; [by rewrite !msum_empty|].
  rewrite !msum_insert_new by done. rewrite <- IH. lia.
Qed.

Lemma msum_zero {K V} `{Countable K} (f : K -> V -> Z) m : (forall k v, f k v = 0) -> msum f m = 0.
Proof.
  intros Hf. induction m as [|k v m Hk IH] using map_ind; [apply msum_empty|].
  rewrite msum_insert_new by done. by rewrite Hf, IH.
Qed.

Lemma weights_sum E A (l : list account) :
  NoDup l ->
  foldr (fun r acc => weight_of E A r + acc) 0 l
  = msum (fun _ i => if bool_decide (repr E (rep_block i) ∈ l) then balance_of i else 0) A.
Proof.
  induction l as [|r l IH]; cbn [foldr]; intros Hn.
  - symmetry. apply msum_zero. intros. by rewrite bool_decide_eq_false_2 by apply not_elem_of_nil.
  - apply NoDup_cons in Hn as [Hr Hn]. rewrite IH by done. unfold weight_of. rewrite msum_add.
    apply msum_ext. intros _ i _. destruct (Z.eqb_spec (repr E (rep_block i)) r) as [->|Hne].
    + rewrite bool_decide_eq_false_2 by done. rewrite bool_decide_eq_true_2 by set_solver. lia.
    + rewrite Z.add_0_l. apply eq_trans with (y := if bool_decide (repr E (rep_block i) ∈ l) then balance_of i else 0);
        [done|]. by rewrite (bool_decide_ext (repr E (rep_block i) ∈ r :: l) (repr E (rep_block i) ∈ l)) by set_solver.
Qed.

(** An election from its first block on. *)
Definition election (not_an_account : account) (b : block) (l : list vote) : votes :=
  fold_left (fun e v => snd (votes_vote v e)) l (votes_new not_an_account b).

Lemma election_keys na b l :
  NoDup (rep_votes (election na b l)).*1 /\ rep_votes (election na b l) <> [].
Proof.
  assert (Hgen : forall e, NoDup (rep_votes e).*1 -> rep_votes e <> [] ->
    let e' := fold_left (fun e v => snd (votes_vote v e)) l e in NoDup (rep_votes e').*1 /\ rep_votes e' <> []).
  { induction l as [|v l IH]; intros e Hn Hne; [done|]. apply IH; [by apply votes_vote_keys|].
    unfold votes_vote. destruct (votes_find _ _) as [c|] eqn:Hf; [|by destruct (rep_votes e)].
    destruct (negb _); [|done]. cbn. intros Hnil%(f_equal (fmap fst)).
    rewrite votes_assign_keys in Hnil. by destruct (rep_votes e). }
  apply Hgen; [apply NoDup_singleton|done].
Qed.

(** There is a winner when somebody voted, and every account at most once. *)
Lemma winner_found `{Environment, Iteration} {n g s} (I : inv_with n g s) (e : votes) :
  NoDup (rep_votes e).*1 -> rep_votes e <> [] ->
  exists t b, winner s e = Some (t, b) /\ b ∈ snd <$> rep_votes e
  /\ t = votes_for (weight s) b (rep_votes e) /\ 0 <= t <= genesis_amount
  /\ forall b', votes_for (weight s) b' (rep_votes e) <= t.
Proof.
  intros Hn Hne.
  assert (Hw : forall r, weight s r = weight_of (entry_at s) (accounts s) r) by apply (iv_weight _ _ _ I).
  assert (Hpos : forall r, 0 <= weight s r) by (intros r; rewrite Hw; apply (weight_of_bounds I)).
  assert (Htot : votes_total (weight s) (rep_votes e) <= genesis_amount).
  { transitivity (foldr (fun r acc => weight_of (entry_at s) (accounts s) r + acc) 0 (fst <$> rep_votes e)).
    - clear -Hw. induction (rep_votes e) as [|[a c] m IH]; cbn; [lia|]. unfold votes_total in *. rewrite Hw. lia.
    - rewrite weights_sum by done. rewrite <- (iv_total _ _ _ I). pose proof (total_pending_nonneg I).
      enough (msum (fun _ i => if bool_decide (repr (entry_at s) (rep_block i) ∈ fst <$> rep_votes e)
        then balance_of i else 0) (accounts s) <= total_balance (accounts s)) by lia.
      apply msum_le. intros a i Hi%(balance_nonneg I). case_bool_decide; lia. }
  destruct (winner_spec s e Hpos Hne) as (t & b & Hwin & Hb & Ht & Hmax).
  { eapply Z.le_lt_trans; [exact Htot|reflexivity]. }
  exists t, b. pose proof (votes_for_bounds (weight s) Hpos b (rep_votes e)). split_and!; try done; lia.
Qed.

