(* ===== verification/VotesExamples.v ===== *)
(** * The theorems on votes, on concrete inputs

    Votes for the blocks of the small ledger of [LedgerExamples], signed by the
    stand-in for Ed25519 used there. *)
From Stdlib Require Import ZArith Lia List.
From stdpp Require Import prelude gmap.
From S2P Require Import Prelude Blake2b Numbers Streams Blocks Store Ledger StoreFacts LedgerInv LedgerQueries LedgerProcess LedgerRollback LedgerTheorems LedgerExamples Votes.

#[export] Instance toy_signing : Signing := {| sign_message := fun _ a h => toy_sign a h |}.

#[export] Instance insertion_order : Iteration := {| iteration := id; iteration_perm l := Permutation_refl l |}.

(** Account 5 has voted twice, the second vote is still in the cache. *)
Definition vote_5_1 : vote := vote_make 5 0 1 (Send send_1).
Definition vote_5_2 : vote := vote_make 5 0 2 (Open open_2).
Definition vote_5_3 : vote := vote_make 5 0 3 (Open open_2).
Definition vote_live : vote := vote_make live_account 0 1 (Send send_3).

Definition votes_seen : vote_store := VoteStore {[ 5 := vote_serialize vote_5_1 ]} {[ 5 := vote_5_2 ]}.

Lemma toy_sign_fits a h : fits 512 (toy_sign a h).
Proof. apply wrap_fits. lia. Qed.

Lemma toy_sign_valid a h : validate_message a h (toy_sign a h) = false.
Proof. cbn. by rewrite Z.eqb_refl. Qed.

Lemma made_vote_ok a q b : fits 64 q -> block_ok b -> fits 256 a -> vote_ok (vote_make a 0 q b).
Proof. intros. split_and!; try done. apply toy_sign_fits. Qed.

Lemma vote_5_ok q b : fits 64 q -> block_ok b -> vote_ok (vote_make 5 0 q b).
Proof. intros. apply made_vote_ok; [done..|]. unfold fits. lia. Qed.

Lemma send_1_ok : block_ok (Send send_1).
Proof. refine (bool_decide_unpack _ _). vm_compute. exact I. Qed.
Lemma open_2_ok : block_ok (Open open_2).
Proof. refine (bool_decide_unpack _ _). vm_compute. exact I. Qed.

Lemma votes_seen_ok : vote_store_ok votes_seen.
Proof.
  split; intros a x; cbn [vote_db vote_cache votes_seen]; intros [<- <-]%lookup_singleton_Some.
  - exists vote_5_1. split_and!; [apply vote_5_ok; [unfold fits; lia|exact send_1_ok]|reflexivity..].
  - split; [apply vote_5_ok; [unfold fits; lia|exact open_2_ok]|reflexivity].
Qed.

Lemma flush_keeps_votes_witness :
  vote_current (flush_votes votes_seen) 5 = vote_current votes_seen 5
  /\ vote_store_ok (flush_votes votes_seen).
Proof. apply (flush_keeps_votes votes_seen 5). exact votes_seen_ok. Defined.

Lemma vote_5_3_ok : vote_ok vote_5_3.
Proof. apply vote_5_ok; [unfold fits; lia|exact open_2_ok]. Qed.

Lemma vote_validate_exact_witness :
  exists c code r s', vote_current votes_seen 5 = Ok c
  /\ vote_validate vote_5_3 votes_seen = Ok ((code, r), s') /\ vote_store_ok s'
  /\ (code = vote_invalid <-> validate_message 5 (vote_hash vote_5_3) (v_signature vote_5_3) = true)
  /\ (code = vote_invalid -> s' = votes_seen)
  /\ (code <> vote_invalid -> vote_current s' 5 = Ok r
      /\ (code = vote_replay <-> exists w, c = Some w /\ 3 < v_sequence w)
      /\ (code = vote_replay -> r = c) /\ (code = vote_vote -> r = Some vote_5_3)).
Proof. apply (vote_validate_exact vote_5_3 votes_seen); [exact votes_seen_ok|exact vote_5_3_ok]. Defined.

(** The store after the third vote. *)
Definition votes_seen' : vote_store := VoteStore (vote_db votes_seen) (<[5 := vote_5_3]> (vote_cache votes_seen)).

Lemma accepted_over v c s :
  vote_cache s !! v_account v = Some c -> v_sequence c <= v_sequence v ->
  validate_message (v_account v) (vote_hash v) (v_signature v) = false ->
  vote_validate v s = Ok ((vote_vote, Some v), VoteStore (vote_db s) (<[v_account v := v]> (vote_cache s))).
Proof.
  intros Hc Hq Hv. unfold vote_validate. rewrite Hv. cbn [negb]. unfold vote_max.
  erewrite st_bind_ok.
  2:{ erewrite st_run_ok by (unfold vote_current; rewrite Hc; reflexivity).
      cbv beta iota zeta. rewrite (proj2 (Z.ltb_ge _ _)) by done. reflexivity. }
  reflexivity.
Qed.

Lemma made_vote_valid a q b :
  validate_message a (vote_hash (vote_make a 0 q b)) (v_signature (vote_make a 0 q b)) = false.
Proof.
  unfold vote_make. cbn [v_signature]. rewrite (vote_hash_unsigned q b a _ 0). apply toy_sign_valid.
Qed.

Lemma vote_5_3_accepted : vote_validate vote_5_3 votes_seen = Ok ((vote_vote, Some vote_5_3), votes_seen').
Proof. apply (accepted_over vote_5_3 vote_5_2 votes_seen); [reflexivity|cbn; lia|apply made_vote_valid]. Qed.

Lemma replayed_vote_accepted_witness :
  vote_validate vote_5_3 votes_seen' = Ok ((vote_vote, Some vote_5_3), votes_seen').
Proof.
  apply (replayed_vote_accepted vote_5_3 votes_seen votes_seen' (Some vote_5_3));
    [exact votes_seen_ok|exact vote_5_3_ok|exact vote_5_3_accepted].
Defined.

Lemma generated_vote_valid_witness :
  exists c v s', vote_current votes_seen 5 = Ok c /\ vote_generate 5 0 (Open open_2) votes_seen = Ok (v, s')
  /\ v_block v = Open open_2 /\ vote_current s' 5 = Ok (Some v)
  /\ (exists s'', vote_validate v s' = Ok ((vote_vote, Some v), s''))
  /\ (forall w, c = Some w -> v_sequence w < 2 ^ 64 - 1 -> v_sequence v = v_sequence w + 1).
Proof.
  apply (generated_vote_valid 5 0 (Open open_2) votes_seen);
    [exact votes_seen_ok|unfold fits; lia|exact open_2_ok|apply toy_sign_fits|apply toy_sign_valid].
Defined.

