(* ===== verification/Work.v ===== *)
(** * Proof of work (rai/lib/work.cpp)

    The value of a nonce, the check of a block's work, and the pool of threads
    that look for nonces.  The pool is shared by its worker threads and the
    threads that call [generate], [cancel] and [stop]: a run is a sequence of
    events, each of them what one thread does between two points at which
    another can get in (a section under the mutex, one attempt, one test of the
    atomic [ticket]).  A callback is named by a number, calling it is recorded in
    [answers]; [work_observers] is left out.  The numbers of the generator
    [xorshift1024star] are part of the events.  [ticket] is an atomic [int], kept
    here modulo [2 ^ 32]. *)
From Stdlib Require Import ZArith Lia List Permutation.
From stdpp Require Import prelude list.
From S2P Require Import Prelude Lists Blake2b Numbers Blocks.

Inductive rai_networks := rai_test_network | rai_beta_network | rai_live_network.
#[export] Instance rai_networks_eq_dec : EqDecision rai_networks.
Proof. solve_decision. Defined.

(** The network the program is compiled for. *)
Class Network := { rai_network : rai_networks }.

Definition publish_test_threshold : Z := 0xff00000000000000.
Definition publish_full_threshold : Z := 0xffffffc000000000.
Definition publish_threshold `{Network} : Z :=
  if decide (rai_network = rai_test_network) then publish_test_threshold else publish_full_threshold.

(** The digest of eight bytes, as the integer with these bytes in memory. *)
Definition work_value (root_a : block_hash) (work_a : Z) : Z :=
  le_combine (blake2b_hash 8 [le_split 8 work_a; bytes256 root_a]).

(** [true] is an error. *)
Definition work_validate `{Network} (root_a : block_hash) (work_a : Z) : bool :=
  work_value root_a work_a <? publish_threshold.

Definition work_validate_block `{Network} (b : block) : bool := work_validate (root b) (block_work b).

(** ** The pool *)

Record request := Request { r_callback : nat; r_root : Z }.
#[export] Instance request_eq_dec : EqDecision request.
Proof. solve_decision. Defined.

(** The local variables of [loop] while it searches; [leaving] once the loop on
    [ticket] has ended and the mutex is being taken. *)
Record search := Search {
  current_l : request;
  ticket_l : Z;
  work_l : option Z;
  output : Z;
  iteration : nat;
  leaving : bool
}.

Inductive thread_state :=
| Checking
| Waiting
| Working (s : search)
| Exited.

Record work_pool := Pool {
  ticket : Z;
  done_ : bool;
  pending_work : list request;
  threads : list thread_state;
  answers : list (request * option Z)
}.

Section Pool.
Context `{Network} (opencl : Z -> option Z).

Definition set_thread (i : nat) (t : thread_state) (p : work_pool) : work_pool :=
  Pool (ticket p) (done_ p) (pending_work p) (<[i := t]> (threads p)) (answers p).

Definition next_ticket (t : Z) : Z := wrap 32 (t + 1).

(** The constructor starts the threads. *)
Definition pool_new (count : nat) : work_pool := Pool 0 false [] (repeat Checking count) [].

(** The head of the loop, with the mutex held: leave, wait, or read the request
    at the front and the ticket. *)
Definition loop_head (i : nat) (p : work_pool) : work_pool :=
  if negb (done_ p) || negb (bool_decide (pending_work p = [])) then
    match pending_work p with
    | current :: _ => set_thread i (Working (Search current (ticket p) None 0 0 false)) p
    | [] => set_thread i Waiting p
    end
  else set_thread i Exited p.

(** One turn of the inner loop: the hash state was just initialised. *)
Definition attempt (rng_next : Z) (s : search) : search :=
  Search (current_l s) (ticket_l s) (Some rng_next) (work_value (r_root (current_l s)) rng_next)
    (iteration s - 1) false.

(** The test of the loop on [ticket]: another 256 attempts, or the loop ends. *)
Definition ticket_test (p : work_pool) (s : search) : search :=
  if (ticket p =? ticket_l s) && (output s <? publish_threshold)
  then Search (current_l s) (ticket_l s) (work_l s) (output s) 256 false
  else Search (current_l s) (ticket_l s) (work_l s) (output s) 0 true.

(** After the search, with the mutex held, up to the head of the loop. *)
Definition finish (i : nat) (s : search) (p : work_pool) : res work_pool :=
  if ticket p =? ticket_l s then
    if negb (publish_threshold <=? output s) then Fault Assertion_failed else
    match work_l s with
    | None => Fault Indeterminate_value
    | Some work =>
        if negb (work_value (r_root (current_l s)) work =? output s) then Fault Assertion_failed else
        Ok (loop_head i (Pool (next_ticket (ticket p)) (done_ p) (tail (pending_work p)) (threads p)
                           (answers p ++ [(current_l s, Some work)])))
    end
  else Ok (loop_head i p).

Definition thread_step (i : nat) (rng_next : Z) (p : work_pool) : res work_pool :=
  match threads p !! i with
  | Some Checking => Ok (loop_head i p)
  | Some (Working s) =>
      if leaving s then finish i s p
      else if negb (iteration s =? 0)%nat && (output s <? publish_threshold)
      then Ok (set_thread i (Working (attempt rng_next s)) p)
      else Ok (set_thread i (Working (ticket_test p s)) p)
  | Some Waiting | Some Exited | None => Ok p
  end.

Definition wake (t : thread_state) : thread_state := match t with Waiting => Checking | _ => t end.

(** [notify_all] *)
Definition notify (p : work_pool) : work_pool :=
  Pool (ticket p) (done_ p) (pending_work p) (wake <$> threads p) (answers p).

Definition cancel (root_a : Z) (p : work_pool) : work_pool :=
  let ticket' :=
    match pending_work p with
    | front :: _ => if r_root front =? root_a then next_ticket (ticket p) else ticket p
    | [] => ticket p
    end in
  Pool ticket' (done_ p) (filter (fun r => r_root r <> root_a) (pending_work p)) (threads p)
    (answers p ++ ((fun r => (r, None)) <$> filter (fun r => r_root r = root_a) (pending_work p))).

Definition stop (p : work_pool) : work_pool :=
  notify (Pool (ticket p) true (pending_work p) (threads p) (answers p)).

Definition generate (root_a : Z) (callback : nat) (p : work_pool) : res work_pool :=
  if is_zero root_a then Fault Assertion_failed else
  match opencl root_a with
  | None => Ok (notify (Pool (ticket p) (done_ p) (pending_work p ++ [Request callback root_a]) (threads p) (answers p)))
  | Some w => Ok (Pool (ticket p) (done_ p) (pending_work p) (threads p) (answers p ++ [(Request callback root_a, Some w)]))
  end.

(** [Woken] is a wakeup without a notification, which a condition variable allows. *)
Inductive event :=
| Generate (root_a : Z) (callback : nat)
| Cancel (root_a : Z)
| Stop
| Run (thread : nat) (rng_next : Z)
| Woken (thread : nat).

Definition pool_step (e : event) (p : work_pool) : res work_pool :=
  match e with
  | Generate root_a callback => generate root_a callback p
  | Cancel root_a => Ok (cancel root_a p)
  | Stop => Ok (stop p)
  | Run i w => thread_step i w p
  | Woken i => Ok (Pool (ticket p) (done_ p) (pending_work p) (alter wake i (threads p)) (answers p))
  end.

Fixpoint pool_run (es : list event) (p : work_pool) : res work_pool :=
  match es with
  | [] => Ok p
  | e :: es => match pool_step e p with Ok p' => pool_run es p' | Fault f => Fault f end
  end.

(** ** The invariant *)

(** [k] is the number of times the ticket was raised. *)
Record search_ok (k : Z) (p : work_pool) (s : search) : Prop := {
  so_ticket : exists k', 0 <= k' <= k /\ ticket_l s = wrap 32 k'
    /\ (k' = k -> exists rest, pending_work p = current_l s :: rest)
    /\ (leaving s = true -> output s < publish_threshold -> k' < k);
  so_output : match work_l s with
              | Some w => output s = work_value (r_root (current_l s)) w
              | None => output s = 0
              end
}.

Definition thread_ok (k : Z) (p : work_pool) (t : thread_state) : Prop :=
  match t with
  | Working s => search_ok k p s
  | Waiting => pending_work p = [] /\ done_ p = false
  | Checking => True
  | Exited => True
  end.

Definition answer_ok (a : request * option Z) : Prop :=
  match snd a with
  | Some w => work_validate (r_root (fst a)) w = false \/ opencl (r_root (fst a)) = Some w
  | None => True
  end.

Record pool_ok (k : Z) (p : work_pool) : Prop := {
  po_ticket : 0 <= k /\ ticket p = wrap 32 k;
  po_threads : Forall (thread_ok k p) (threads p);
  po_answers : Forall answer_ok (answers p)
}.

Lemma threshold_pos : 0 < publish_threshold.
Proof. unfold publish_threshold. case_decide; reflexivity. Qed.

#[local] Opaque publish_threshold work_value.

Lemma pool_new_ok count : pool_ok 0 (pool_new count).
Proof.
  split; [done| |constructor]. cbn. apply Forall_forall. intros t Ht%list_elem_of_In%repeat_spec. by subst.
Qed.

(** A thread is as good as before when the front stays unless the ticket rises. *)
Lemma thread_ok_mono k k' p p' t :
  thread_ok k p t -> k <= k' ->
  (k' = k -> forall r rest, pending_work p = r :: rest -> exists rest', pending_work p' = r :: rest') ->
  (t = Waiting -> pending_work p' = [] /\ done_ p' = false) ->
  thread_ok k' p' t.
Proof.
  intros Ht Hk Hfront Hwait. destruct t as [| |s|]; [done|by apply Hwait| |done].
  destruct Ht as [(k0 & Hk0 & Htl & Hcur & Hleft) Hout]. split; [|done].
  exists k0. split_and!; [lia..|done| |].
  - intros ->. destruct (Hcur ltac:(lia)) as [rest Hrest]. apply (Hfront ltac:(lia) _ _ Hrest).
  - intros Hl Ho. specialize (Hleft Hl Ho). lia.
Qed.

(** A change that leaves the queue and [done_] alone. *)
Lemma thread_ok_same k p p' t :
  pending_work p' = pending_work p -> done_ p' = done_ p -> thread_ok k p t -> thread_ok k p' t.
Proof.
  intros Hp Hd Ht. apply (thread_ok_mono k k p p' t Ht ltac:(lia)); rewrite Hp.
  - intros _ r rest ->. by eexists.
  - intros ->. by rewrite Hd.
Qed.

Lemma set_thread_ok k p i t : pool_ok k p -> thread_ok k p t -> pool_ok k (set_thread i t p).
Proof.
  intros [Ht Hth Ha] Hok. split; [done| |done]. cbn [threads set_thread]. apply Forall_insert.
  - eapply Forall_impl; [exact Hth|]. intros t'. by apply thread_ok_same.
  - by apply (thread_ok_same k p).
Qed.

Lemma loop_head_ok k p i : pool_ok k p -> pool_ok k (loop_head i p).
Proof.
  intros Hp. unfold loop_head. destruct (done_ p) eqn:Hd; cbn [negb orb].
  - case_bool_decide as Hq; cbn [negb]; [by apply set_thread_ok|].
    destruct (pending_work p) as [|c rest] eqn:Hc; [done|]. apply set_thread_ok; [done|].
    split; [|done]. exists k. destruct (po_ticket _ _ Hp) as [? ->]. split_and!; [lia..|done|by eexists|done].
  - destruct (pending_work p) as [|c rest] eqn:Hc; apply set_thread_ok; try done.
    split; [|done]. exists k. destruct (po_ticket _ _ Hp) as [? ->]. split_and!; [lia..|done|by eexists|done].
Qed.

Lemma notify_ok k p : pool_ok k p -> pool_ok k (notify p).
Proof.
  intros [Ht Hth Ha]. split; [done| |done]. cbn [threads notify]. apply Forall_fmap.
  eapply Forall_impl; [exact Hth|]. intros t Hok. unfold compose.
  destruct t; cbn [wake]; [done|done| |done]. by apply (thread_ok_same k p).
Qed.

(** The threads that [notify_all] wakes need not be well placed before it. *)
Lemma notified_ok k p p' :
  pool_ok k p -> ticket p' = ticket p -> threads p' = threads p ->
  (forall r rest, pending_work p = r :: rest -> exists rest', pending_work p' = r :: rest') ->
  Forall answer_ok (answers p') -> pool_ok k (notify p').
Proof.
  intros [Ht Hth Ha] Et Eth Hfront Ha'. split; [by rewrite <- Et in Ht| |done]. cbn [threads notify].
  rewrite Eth. apply Forall_fmap. eapply Forall_impl; [exact Hth|]. intros t Hok. unfold compose.
  destruct t; cbn [wake]; [done|done| |done].
  apply (thread_ok_mono k k p); [done|lia|by intros _|done].
Qed.

Lemma wrap_inj32 a b : 0 <= a < 2 ^ 32 -> 0 <= b < 2 ^ 32 -> wrap 32 a = wrap 32 b -> a = b.
Proof. intros Ha Hb. rewrite !wrap_small by (unfold fits; lia). done. Qed.

(** The ticket is raised and the front request goes. *)
Lemma raised_ok k p q d a :
  pool_ok k p -> d = done_ p -> (pending_work p = [] -> q = []) -> Forall answer_ok a ->
  pool_ok (k + 1) (Pool (next_ticket (ticket p)) d q (threads p) a).
Proof.
  intros [[Hk Ht] Hth Ha] -> Hq Ha'. split; [|cbn|done].
  - cbn. rewrite Ht. split; [lia|]. unfold next_ticket. apply wrap_add_l.
  - eapply Forall_impl; [exact Hth|]. intros t Hok.
    apply (thread_ok_mono k (k + 1) p); [done|lia|lia|]. intros ->. destruct Hok as [Hp Hd]. cbn. auto.
Qed.

Lemma finish_ok k p i s :
  pool_ok k p -> k < 2 ^ 32 - 1 -> search_ok k p s -> leaving s = true ->
  exists k' p', finish i s p = Ok p' /\ pool_ok k' p' /\ k <= k' <= k + 1.
Proof.
  intros Hp Hlt [(k0 & Hk0 & Htl & Hcur & Hleft) Hout] Hl. unfold finish.
  destruct (po_ticket _ _ Hp) as [Hk Ht].
  destruct (Z.eqb_spec (ticket p) (ticket_l s)) as [He|Hne].
  2:{ exists k. eexists. split_and!; [reflexivity|by apply loop_head_ok|lia..]. }
  assert (k0 = k) as -> by (apply wrap_inj32; [lia|lia|congruence]).
  destruct (Z.leb_spec publish_threshold (output s)) as [Hge|Hsmall]; [|specialize (Hleft Hl Hsmall); lia].
  cbn [negb]. pose proof threshold_pos. destruct (work_l s) as [w|]; [|lia].
  rewrite Hout, Z.eqb_refl. cbn [negb]. exists (k + 1). eexists. split_and!; [reflexivity| |lia..].
  apply loop_head_ok. apply raised_ok; [done|done|by intros ->|].
  apply Forall_app. split; [apply (po_answers _ _ Hp)|]. constructor; [|done]. left. cbn.
  unfold work_validate. apply Z.ltb_ge. lia.
Qed.

Lemma thread_step_ok k p i w :
  pool_ok k p -> k < 2 ^ 32 - 1 ->
  exists k' p', thread_step i w p = Ok p' /\ pool_ok k' p' /\ k <= k' <= k + 1.
Proof.
  intros Hp Hlt. unfold thread_step. destruct (threads p !! i) as [[| |s|]|] eqn:Hi;
    try (exists k, p; split_and!; [done|done|lia..]).
  { exists k. eexists. split_and!; [reflexivity|by apply loop_head_ok|lia..]. }
  assert (Hs : search_ok k p s) by apply (Forall_lookup_1 _ _ _ _ (po_threads _ _ Hp) Hi).
  destruct (leaving s) eqn:Hl; [by apply finish_ok|].
  destruct (negb _ && _); exists k; eexists; (split_and!; [reflexivity| |lia..]); apply set_thread_ok; [done| |done|].
  - destruct Hs as [(k0 & Hk0 & Htl & Hcur & _) _]. split; [|reflexivity]. exists k0.
    split_and!; [lia|lia|exact Htl|exact Hcur|]. intros Hf _. destruct (diff_false_true Hf).
  - destruct Hs as [(k0 & Hk0 & Htl & Hcur & _) Hout]. unfold ticket_test.
    destruct (Z.eqb_spec (ticket p) (ticket_l s)) as [He|Hne]; cbn [andb].
    + destruct (Z.ltb_spec (output s) publish_threshold); (split; [|exact Hout]); exists k0;
        (split_and!; [lia|lia|exact Htl|exact Hcur|]); intros Hf ?; [destruct (diff_false_true Hf)|cbn in *; lia].
    + split; [|exact Hout]. exists k0. split_and!; [lia|lia|exact Htl|exact Hcur|]. intros _ _.
      destruct (po_ticket _ _ Hp) as [_ Ht]. rewrite Ht, Htl in Hne.
      assert (k0 <> k) by congruence. lia.
Qed.

Lemma cancel_ok k p r :
  pool_ok k p -> exists k', pool_ok k' (cancel r p) /\ k <= k' <= k + 1.
Proof.
  intros Hp. unfold cancel.
  assert (Ha : Forall answer_ok (answers p ++ ((fun r => (r, None)) <$> filter (fun x => r_root x = r) (pending_work p)))).
  { apply Forall_app. split; [apply (po_answers _ _ Hp)|]. apply Forall_fmap, Forall_forall. done. }
  destruct (pending_work p) as [|front rest] eqn:Hq; cbn [filter list_filter] in *.
  { exists k. split; [|lia]. destruct Hp as [Ht Hth _]. split; [done| |done]. cbn.
    eapply Forall_impl; [exact Hth|]. intros t. by apply thread_ok_same. }
  destruct (Z.eqb_spec (r_root front) r) as [He|Hne].
  - exists (k + 1). split; [|lia]. apply raised_ok; [done|done|by rewrite Hq|done].
  - exists k. split; [|lia]. destruct Hp as [Ht Hth _]. split; [done| |done]. cbn [threads].
    eapply Forall_impl; [exact Hth|]. intros t Hok. apply (thread_ok_mono k k p); [done|lia| |].
    + intros _ x rest'. rewrite Hq. intros [= <- <-]. cbn. rewrite decide_True by done. by eexists.
    + intros ->. destruct Hok as [Hok _]. by rewrite Hq in Hok.
Qed.

Definition event_ok (e : event) : Prop := match e with Generate r _ => r <> 0 | _ => True end.

Lemma pool_step_ok k p e :
  pool_ok k p -> k < 2 ^ 32 - 1 -> event_ok e ->
  exists k' p', pool_step e p = Ok p' /\ pool_ok k' p' /\ k <= k' <= k + 1.
Proof.
  intros Hp Hlt He. destruct e as [r c|r| |i w|i]; cbn [pool_step].
  - unfold generate, is_zero. cbn in He. rewrite (proj2 (Z.eqb_neq r 0)) by done.
    destruct (opencl r) as [w|] eqn:Ho; exists k; eexists; (split_and!; [reflexivity| |lia..]).
    + destruct Hp as [Ht Hth Ha]. split; [done| |].
      * cbn. eapply Forall_impl; [exact Hth|]. intros t. by apply thread_ok_same.
      * cbn. apply Forall_app. split; [done|]. constructor; [|done]. by right.
    + apply (notified_ok k p); [done..| |apply (po_answers _ _ Hp)].
      intros x rest Hx. cbn. rewrite Hx. by eexists.
  - destruct (cancel_ok k p r Hp) as (k' & Hk' & ?). exists k'. eexists. split_and!; [reflexivity|done|lia..].
  - exists k. eexists. split_and!; [reflexivity| |lia..].
    apply (notified_ok k p); [done..| |apply (po_answers _ _ Hp)]. intros x rest Hx. cbn. by eexists.
  - by apply thread_step_ok.
  - exists k. eexists. split_and!; [reflexivity| |lia..]. destruct Hp as [Ht Hth Ha]. split; [done| |done].
    cbn. apply Forall_alter; [eapply Forall_impl; [exact Hth|]; intros t; by apply thread_ok_same|].
    intros t _ Hok. destruct t; cbn [wake]; [done|done| |done]. exact Hok.
Qed.

(** *** Requests are neither lost nor answered twice *)

Definition requested (e : event) : list request :=
  match e with Generate r c => [Request c r] | _ => [] end.
Definition cancelled (e : event) (r : Z) : Prop := e = Cancel r.

Lemma loop_head_queue i p :
  pending_work (loop_head i p) = pending_work p /\ answers (loop_head i p) = answers p.
Proof. unfold loop_head. destruct (negb (done_ p) || _); [destruct (pending_work p) eqn:Hq|]; by cbn [pending_work set_thread answers]. Qed.

Lemma pool_step_requests k p e p' :
  pool_ok k p -> k < 2 ^ 32 - 1 -> pool_step e p = Ok p' ->
  pending_work p' ++ (answers p').*1 ≡ₚ requested e ++ pending_work p ++ (answers p).*1
  /\ (forall r, (r, None) ∈ answers p' -> (r, None) ∈ answers p \/ cancelled e (r_root r)).
Proof.
  intros Hp Hlt. destruct e as [r c|r| |i w|i]; cbn [pool_step requested].
  - unfold generate. destruct (is_zero r); [done|]. destruct (opencl r) as [w|]; intros [= <-]; cbn.
    + rewrite fmap_app. cbn. split; [|intros x [?|?%list_elem_of_singleton]%elem_of_app; [by left|done]].
      apply perm_answer.
    + split; [|by left]. apply perm_enqueue.
  - intros [= <-]. cbn. split.
    + rewrite fmap_app, <- list_fmap_compose. unfold compose. cbn. rewrite list_fmap_id.
      apply perm_cancel, perm_filter_split.
    + intros x [Hx|Hx]%elem_of_app; [by left|]. right. apply list_elem_of_fmap in Hx as (y & [= ->] & Hy).
      apply list_elem_of_filter in Hy as [<- _]. done.
  - intros [= <-]. cbn. split; [done|by left].
  - unfold thread_step. destruct (threads p !! i) as [[| |s|]|] eqn:Hi; try (intros [= <-]; by split; [|left]).
    { intros [= <-]. destruct (loop_head_queue i p) as [-> ->]. by split; [|left]. }
    assert (Hs : search_ok k p s) by apply (Forall_lookup_1 _ _ _ _ (po_threads _ _ Hp) Hi).
    destruct (leaving s) eqn:Hl.
    2:{ destruct (negb _ && _); intros [= <-]; by split; [|left]. }
    unfold finish. destruct Hs as [(k0 & Hk0 & Htl & Hcur & Hleft) Hout]. destruct (po_ticket _ _ Hp) as [Hk Ht].
    destruct (Z.eqb_spec (ticket p) (ticket_l s)) as [He|Hne].
    2:{ intros [= <-]. destruct (loop_head_queue i p) as [-> ->]. by split; [|left]. }
    assert (k0 = k) as -> by (apply wrap_inj32; [lia|lia|congruence]).
    destruct (Hcur eq_refl) as [rest Hrest]. destruct (negb (_ <=? _)); [done|].
    destruct (work_l s) as [w'|]; [|done]. destruct (negb _); [done|]. intros [= <-].
    match goal with |- context [loop_head i ?q] => destruct (loop_head_queue i q) as [-> ->] end.
    cbn. rewrite Hrest. cbn. rewrite fmap_app. cbn. split.
    + apply perm_answer.
    + intros x [?|?%list_elem_of_singleton]%elem_of_app; [by left|done].
  - intros [= <-]. cbn. by split; [|left].
Qed.

Lemma pool_run_app es1 es2 p :
  pool_run (es1 ++ es2) p = match pool_run es1 p with Ok p' => pool_run es2 p' | Fault f => Fault f end.
Proof. revert p. induction es1 as [|e es1 IH]; intros p; cbn; [done|]. by destruct (pool_step e p). Qed.

Lemma pool_run_ok es k p :
  pool_ok k p -> k + Z.of_nat (length es) < 2 ^ 32 -> Forall event_ok es ->
  exists k' p', pool_run es p = Ok p' /\ pool_ok k' p' /\ k' <= k + Z.of_nat (length es)
  /\ pending_work p' ++ (answers p').*1 ≡ₚ concat (requested <$> es) ++ pending_work p ++ (answers p).*1
  /\ (forall r, (r, None) ∈ answers p' -> (r, None) ∈ answers p \/ Cancel (r_root r) ∈ es).
Proof.
  revert k p. induction es as [|e es IH]; intros k p Hp Hlt Hes; cbn [pool_run fmap list_fmap concat].
  { exists k, p. split_and!; [done|done|cbn in *; lia|done|by left]. }
  apply Forall_cons in Hes as [He Hes]. cbn [length] in Hlt.
  destruct (pool_step_ok k p e Hp ltac:(lia) He) as (k1 & p1 & Hs & Hp1 & Hk1). rewrite Hs.
  destruct (pool_step_requests k p e p1 Hp ltac:(lia) Hs) as [Hperm1 Hnone1].
  destruct (IH k1 p1 Hp1 ltac:(lia) Hes) as (k2 & p2 & Hr & Hp2 & Hk2 & Hperm2 & Hnone2).
  exists k2, p2. cbn [length]. split_and!; [done|done|lia|by eapply perm_run|].
  intros r [Hr1|Hr1]%Hnone2; [|right; by right].
  apply Hnone1 in Hr1 as [Hr1|Hr1]; [by left|]. right. rewrite Hr1. left.
Qed.

(** C40: the work pool is sound.  Whatever the threads and callers do, in
    fewer than [2 ^ 32] steps, no assertion of the workers fails; every request
    made is either still pending or was answered, exactly once; an answer with a
    nonce passes [work_validate] unless the OpenCL device gave it; an answer
    without one went to a cancelled root; and no worker sleeps while there is
    work or after [stop]. *)
Theorem work_pool_sound (count : nat) (es : list event) :
  Forall event_ok es -> Z.of_nat (length es) < 2 ^ 32 ->
  exists p, pool_run es (pool_new count) = Ok p
  /\ pending_work p ++ (answers p).*1 ≡ₚ concat (requested <$> es)
  /\ (forall r w, (r, Some w) ∈ answers p -> work_validate (r_root r) w = false \/ opencl (r_root r) = Some w)
  /\ (forall r, (r, None) ∈ answers p -> Cancel (r_root r) ∈ es)
  /\ (forall i, threads p !! i = Some Waiting -> pending_work p = [] /\ done_ p = false).
Proof.
  intros Hes Hlt.
  destruct (pool_run_ok es 0 (pool_new count) (pool_new_ok count) Hlt Hes) as (k & p & Hr & Hp & _ & Hperm & Hnone).
  exists p. split_and!; [done|by rewrite app_nil_r in Hperm| | |].
  - intros r w Ha. apply (proj1 (Forall_forall _ _) (po_answers _ _ Hp) _ Ha).
  - intros r [Ha|Ha]%Hnone; [by apply not_elem_of_nil in Ha|done].
  - intros i Hi. apply (Forall_lookup_1 _ _ _ _ (po_threads _ _ Hp) Hi).
Qed.

(** *** Progress *)

(** What thread [i] does when it alone runs. *)
Definition runs (i : nat) (p p' : work_pool) : Prop := exists ws, pool_run (Run i <$> ws) p = Ok p'.

Lemma runs_refl i p : runs i p p.
Proof. by exists []. Qed.

Lemma runs_step i w p p' p'' : thread_step i w p = Ok p' -> runs i p' p'' -> runs i p p''.
Proof. intros Hs [ws Hr]. exists (w :: ws). cbn. by rewrite Hs. Qed.

Lemma runs_trans i p p' p'' : runs i p p' -> runs i p' p'' -> runs i p p''.
Proof. intros [ws H1] [ws' H2]. exists (ws ++ ws'). by rewrite fmap_app, pool_run_app, H1. Qed.

(** A search that can end: the ticket was raised, or [w] is a solution. *)
Definition can_end (w : Z) (p : work_pool) (s : search) : Prop :=
  ticket p <> ticket_l s \/ work_validate (r_root (current_l s)) w = false.

Definition ended (p : work_pool) (s s' : search) : Prop :=
  leaving s' = true /\ current_l s' = current_l s /\ ticket_l s' = ticket_l s
  /\ (ticket p = ticket_l s -> publish_threshold <= output s')
  /\ match work_l s' with
     | Some w => output s' = work_value (r_root (current_l s')) w
     | None => output s' = 0
     end.

Definition output_ok (s : search) : Prop :=
  match work_l s with
  | Some w => output s = work_value (r_root (current_l s)) w
  | None => output s = 0
  end.

Section Thread.
Context (i : nat) (w : Z) (p : work_pool) (Hi : (i < length (threads p))%nat).

Definition at_search (s : search) : work_pool := set_thread i (Working s) p.

Lemma at_search_thread s : threads (at_search s) !! i = Some (Working s).
Proof. cbn. by apply list_lookup_insert_eq. Qed.

Lemma at_search_set s t : set_thread i t (at_search s) = set_thread i t p.
Proof. unfold at_search, set_thread. cbn. by rewrite list_insert_insert_eq. Qed.

(** The loop ends at once when the ticket was raised or a solution was found. *)
Lemma leave_step s :
  leaving s = false -> output_ok s -> ticket p <> ticket_l s \/ publish_threshold <= output s ->
  iteration s = 0%nat \/ publish_threshold <= output s ->
  exists s', runs i (at_search s) (at_search s') /\ ended p s s'.
Proof.
  intros Hl Ho Hend Hit.
  exists (Search (current_l s) (ticket_l s) (work_l s) (output s) 0 true). split.
  - eapply (runs_step i w); [|apply runs_refl]. unfold thread_step. rewrite at_search_thread, Hl, !at_search_set.
    assert (negb (iteration s =? 0)%nat && (output s <? publish_threshold) = false) as ->.
    { destruct Hit as [->|Hit]; [done|]. rewrite (proj2 (Z.ltb_ge _ _) Hit). apply andb_false_r. }
    unfold ticket_test. cbn [ticket at_search set_thread].
    assert ((ticket p =? ticket_l s) && (output s <? publish_threshold) = false) as ->; [|reflexivity].
    destruct Hend as [Hne|Hge]; [by rewrite (proj2 (Z.eqb_neq _ _) Hne)|].
    rewrite (proj2 (Z.ltb_ge _ _) Hge). apply andb_false_r.
  - split_and!; [done..| |exact Ho]. cbn. intros He. destruct Hend as [Hne|Hge]; [congruence|exact Hge].
Qed.

Lemma attempt_step s :
  leaving s = false -> iteration s <> 0%nat -> output s < publish_threshold ->
  runs i (at_search s) (at_search (attempt w s)).
Proof.
  intros Hl Hit Hlt. eapply (runs_step i w); [|apply runs_refl]. unfold thread_step.
  rewrite at_search_thread, Hl, !at_search_set.
  rewrite (proj2 (Nat.eqb_neq _ _) Hit), (proj2 (Z.ltb_lt _ _) Hlt). done.
Qed.

Lemma search_ends s :
  leaving s = false -> output_ok s -> can_end w p s ->
  exists s', runs i (at_search s) (at_search s') /\ ended p s s'.
Proof.
  remember (iteration s) as n eqn:Hn. revert s Hn. induction n as [|n IH]; intros s Hn Hl Ho Hend.
  - destruct (Z.le_gt_cases publish_threshold (output s)) as [Hge|Hlt]; [by apply leave_step; auto|].
    destruct (Z.eq_dec (ticket p) (ticket_l s)) as [He|Hne]; [|by apply leave_step; auto].
    destruct Hend as [Hne|Hw]; [congruence|].
    set (s1 := Search (current_l s) (ticket_l s) (work_l s) (output s) 256 false).
    assert (H1 : runs i (at_search s) (at_search s1)).
    { eapply (runs_step i w); [|apply runs_refl]. unfold thread_step. rewrite at_search_thread, Hl, !at_search_set, <- Hn.
      cbn [negb Nat.eqb andb]. unfold ticket_test. cbn [ticket at_search set_thread].
      by rewrite He, Z.eqb_refl, (proj2 (Z.ltb_lt _ _) Hlt). }
    assert (H2 : runs i (at_search s1) (at_search (attempt w s1))) by (apply attempt_step; [reflexivity|cbn; lia|exact Hlt]).
    apply Z.ltb_ge in Hw.
    destruct (leave_step (attempt w s1)) as (s' & H3 & Hs'); [done|reflexivity|right; exact Hw|right; exact Hw|].
    exists s'. split; [by eapply runs_trans; [|eapply runs_trans]|exact Hs'].
  - destruct (Z.le_gt_cases publish_threshold (output s)) as [Hge|Hlt]; [by apply leave_step; auto|].
    destruct (IH (attempt w s)) as (s' & Hr & Hs'); [cbn; lia|done|reflexivity|exact Hend|].
    exists s'. split; [|exact Hs']. eapply runs_trans; [|exact Hr]. apply attempt_step; [done|lia|done].
Qed.

Context (r : request) (rest : list request) (Hq : pending_work p = r :: rest)
  (Hw : work_validate (r_root r) w = false).

(** The front request was answered with a solution. *)
Definition answered (p' : work_pool) : Prop :=
  exists w', work_validate (r_root r) w' = false
  /\ answers p' = answers p ++ [(r, Some w')] /\ pending_work p' = rest.

Lemma finish_answers s :
  leaving s = true -> output_ok s -> current_l s = r -> ticket p = ticket_l s -> publish_threshold <= output s ->
  exists p', runs i (at_search s) p' /\ answered p'.
Proof.
  intros Hl Ho Hc He Hge. unfold output_ok in Ho. pose proof threshold_pos. destruct (work_l s) as [w'|] eqn:Hws; [|lia].
  eexists. split.
  - eapply (runs_step i w); [|apply runs_refl]. unfold thread_step. rewrite at_search_thread, Hl. unfold finish.
    cbn [ticket at_search set_thread done_ pending_work answers]. rewrite He, Z.eqb_refl, (proj2 (Z.leb_le _ _) Hge), Hws, Ho, Z.eqb_refl.
    cbn [negb]. reflexivity.
  - exists w'. match goal with |- context [loop_head i ?q] => destruct (loop_head_queue i q) as [-> ->] end.
    cbn [answers pending_work]. rewrite Hq, Hc. split_and!; [|reflexivity|reflexivity]. apply Z.ltb_ge. by rewrite <- Hc, <- Ho.
Qed.

Lemma search_answers s :
  output_ok s -> current_l s = r -> ticket p = ticket_l s -> (leaving s = true -> publish_threshold <= output s) ->
  exists p', runs i (at_search s) p' /\ answered p'.
Proof.
  intros Ho Hc He Hleft. destruct (leaving s) eqn:Hl; [by apply finish_answers; auto|].
  destruct (search_ends s Hl Ho) as (s' & Hr & Hl' & Hc' & Ht' & Hge & Ho'); [right; by rewrite Hc|].
  destruct (finish_answers s') as (p' & Hr' & Ha); [exact Hl'|exact Ho'|congruence|congruence|by apply Hge|].
  exists p'. split; [by eapply runs_trans|done].
Qed.

(** At the head of the loop the front request is taken up. *)
Lemma head_answers : exists p', runs i (loop_head i p) p' /\ answered p'.
Proof.
  assert (loop_head i p = at_search (Search r (ticket p) None 0 0 false)) as ->.
  { unfold loop_head. rewrite Hq. rewrite (bool_decide_eq_false_2 (r :: rest = [])) by done. by destruct (done_ p). }
  by apply search_answers.
Qed.

Lemma stale_answers s :
  output_ok s -> ticket p <> ticket_l s -> exists p', runs i (at_search s) p' /\ answered p'.
Proof.
  intros Ho Hne.
  assert (Hfin : forall s', leaving s' = true -> ticket_l s' = ticket_l s ->
    exists p', runs i (at_search s') p' /\ answered p').
  { intros s' Hl' Ht'. destruct head_answers as (p' & Hr & Ha). exists p'. split; [|done].
    assert (Hh : loop_head i (at_search s') = loop_head i p).
    { unfold loop_head. cbn [done_ pending_work at_search set_thread ticket]. by rewrite Hq, !at_search_set. }
    eapply (runs_step i w); [|rewrite <- Hh in Hr; exact Hr]. unfold thread_step. rewrite at_search_thread, Hl'.
    unfold finish. cbn [ticket at_search set_thread]. by rewrite (proj2 (Z.eqb_neq (ticket p) (ticket_l s'))) by congruence. }
  destruct (leaving s) eqn:Hl; [by apply Hfin|].
  destruct (search_ends s Hl Ho) as (s' & Hr & Hl' & Hc' & Ht' & _); [by left|].
  destruct (Hfin s' Hl' Ht') as (p' & Hr' & Ha). exists p'. split; [by eapply runs_trans|done].
Qed.
End Thread.

(** The work pool makes progress.  In every state it can reach in fewer than
    [2 ^ 32] steps, when a request is at the front for which a solution exists,
    any worker that has not exited can, by running alone and without a further
    notification, answer that request with a valid nonce and remove it. *)
Theorem work_pool_progress (count : nat) (es : list event) (p : work_pool) (i : nat) (t : thread_state)
    (r : request) (rest : list request) (w : Z) :
  Forall event_ok es -> Z.of_nat (length es) < 2 ^ 32 -> pool_run es (pool_new count) = Ok p ->
  threads p !! i = Some t -> t <> Exited -> pending_work p = r :: rest ->
  work_validate (r_root r) w = false ->
  exists p', runs i p p' /\ answered p r rest p'.
Proof.
  intros Hes Hlt Hrun Hi Ht Hq Hw.
  destruct (pool_run_ok es 0 (pool_new count) (pool_new_ok count) Hlt Hes) as (k & p1 & Hr & Hp & Hk & _).
  assert (p1 = p) as -> by congruence. clear Hr.
  pose proof (lookup_lt_Some _ _ _ Hi) as Hlen.
  pose proof (Forall_lookup_1 _ _ _ _ (po_threads _ _ Hp) Hi) as Hok.
  destruct t as [| |s|]; [| |assert (Heq : p = at_search i p s)|destruct (Ht eq_refl)].
  - destruct (head_answers i w p Hlen r rest Hq Hw) as (p' & Hr & Ha). exists p'. split; [|done].
    eapply (runs_step i w); [|exact Hr]. unfold thread_step. by rewrite Hi.
  - destruct Hok as [Hok _]. by rewrite Hq in Hok.
  - unfold at_search, set_thread. rewrite list_insert_id by done. by destruct p.
  - enough (Hx : exists p', runs i (at_search i p s) p' /\ answered p r rest p') by (rewrite <- Heq in Hx; exact Hx).
    destruct Hok as [(k0 & Hk0 & Htl & Hcur & Hleft) Hout].
    destruct (Z.eq_dec (ticket p) (ticket_l s)) as [He|Hne]; [|by apply (stale_answers i w p Hlen r rest Hq Hw)].
    assert (k0 = k) as ->.
    { apply wrap_inj32; [lia|lia|]. destruct (po_ticket _ _ Hp). congruence. }
    destruct (Hcur eq_refl) as [rest' Hrest]. rewrite Hq in Hrest. injection Hrest as Hc _.
    apply (search_answers i w p Hlen r rest Hq Hw); [exact Hout|done|done|].
    intros Hl. destruct (Z.le_gt_cases publish_threshold (output s)) as [Hge|Hs]; [exact Hge|].
    specialize (Hleft Hl Hs). lia.
Qed.
End Pool.

(** *** A run

    Two threads on the test network: they go to sleep, a request wakes them, one
    takes it up, it is cancelled, and another request comes in. *)
#[export] Instance test_network : Network := {| rai_network := rai_test_network |}.

Definition no_opencl (r : Z) : option Z := None.

Definition sample_run : list event :=
  [Run 0 0; Run 1 0; Generate 7 1; Run 1 0; Run 1 0; Cancel 7; Generate 7 2].

Definition sample_pool : work_pool :=
  Pool 1 false [Request 2 7] [Checking; Working (Search (Request 1 7) 0 None 0 256 false)]
    [(Request 1 7, None)].

Lemma sample_run_ok : Forall event_ok sample_run.
Proof. repeat constructor; discriminate. Qed.

Lemma sample_run_result : pool_run no_opencl sample_run (pool_new 2) = Ok sample_pool.
Proof. vm_compute. reflexivity. Qed.

Lemma work_7 : work_validate 7 167 = false.
Proof. vm_compute. reflexivity. Qed.

Lemma work_pool_sound_witness :
  exists p, pool_run no_opencl sample_run (pool_new 2) = Ok p
  /\ pending_work p ++ (answers p).*1 ≡ₚ [Request 1 7; Request 2 7]
  /\ (forall r w, (r, Some w) ∈ answers p -> work_validate (r_root r) w = false \/ no_opencl (r_root r) = Some w)
  /\ (forall r, (r, None) ∈ answers p -> Cancel (r_root r) ∈ sample_run)
  /\ (forall i, threads p !! i = Some Waiting -> pending_work p = [] /\ done_ p = false).
Proof. apply (work_pool_sound no_opencl 2 sample_run); [exact sample_run_ok|reflexivity]. Defined.

Lemma work_pool_progress_witness :
  exists p', runs no_opencl 1 sample_pool p' /\ answered sample_pool (Request 2 7) [] p'.
Proof.
  apply (work_pool_progress no_opencl 2 sample_run sample_pool 1
    (Working (Search (Request 1 7) 0 None 0 256 false)) (Request 2 7) [] 167);
    [exact sample_run_ok|reflexivity|exact sample_run_result|reflexivity|discriminate|reflexivity|exact work_7].
Defined.
