(* ===== verification/Messages.v ===== *)
(** * Network messages (rai/node/common.cpp)

    The header all messages share, the eight kinds of message with their binary
    forms, and [message_parser], which decides what a UDP packet is and whether
    it is handed on.  A call of the visitor is the result of the parser; its
    flags [error] and [insufficient_work] are its state. *)
From Stdlib Require Import ZArith Lia List.
From stdpp Require Import prelude list.
From S2P Require Import Prelude Blake2b Numbers Streams Blocks Votes Work.

Local Open Scope rd_scope.

(** ** The header *)

Inductive message_type :=
| mt_invalid | mt_not_a_type | mt_keepalive | mt_publish | mt_confirm_req | mt_confirm_ack
| mt_bulk_pull | mt_bulk_push | mt_frontier_req | mt_bulk_pull_blocks.

Definition message_type_code (t : message_type) : Z :=
  match t with
  | mt_invalid => 0 | mt_not_a_type => 1 | mt_keepalive => 2 | mt_publish => 3 | mt_confirm_req => 4
  | mt_confirm_ack => 5 | mt_bulk_pull => 6 | mt_bulk_push => 7 | mt_frontier_req => 8
  | mt_bulk_pull_blocks => 9
  end.

(** The type is kept as its code: an enumeration object can hold any [uint8_t]. *)
Record message := Message {
  version_max : Z;
  version_using : Z;
  version_min : Z;
  m_type : Z;
  extensions : Z
}.

#[export] Instance message_eq_dec : EqDecision message.
Proof. solve_decision. Defined.

Definition block_type_mask : Z := 0x0f00.
Definition ipv4_only_position : Z := 1.

Definition message_new (type_a : message_type) : message := Message 5 5 1 (message_type_code type_a) 0.

Definition header_block_type (m : message) : Z := Z.shiftr (Z.land (extensions m) block_type_mask) 8.

Definition block_type_set (type_a : block_type) (m : message) : message :=
  let cleared := Z.land (extensions m) (Z.ldiff 0xffff block_type_mask) in
  Message (version_max m) (version_using m) (version_min m) (m_type m)
    (Z.lor cleared (wrap 16 (Z.shiftl (block_type_code type_a) 8))).

Definition ipv4_only (m : message) : bool := Z.testbit (extensions m) ipv4_only_position.

Definition ipv4_only_set (value_a : bool) (m : message) : message :=
  Message (version_max m) (version_using m) (version_min m) (m_type m)
    (if value_a then Z.setbit (extensions m) ipv4_only_position else Z.clearbit (extensions m) ipv4_only_position).

Section Network.
Context `{Network}.

Definition magic_number : list byte :=
  match rai_network with
  | rai_test_network => [byte.of_Z 82; byte.of_Z 65]
  | rai_beta_network => [byte.of_Z 82; byte.of_Z 66]
  | rai_live_network => [byte.of_Z 82; byte.of_Z 67]
  end.

Definition write_header (m : message) : list byte :=
  magic_number ++ le_split 1 (version_max m) ++ le_split 1 (version_using m) ++ le_split 1 (version_min m)
  ++ le_split 1 (m_type m) ++ le_split 2 (extensions m).

Definition read_header : reader message :=
  magic_number_l <~ read 2;;
  if bool_decide (magic_number_l = magic_number) then
    version_max <~ read_le 1;; version_using <~ read_le 1;; version_min <~ read_le 1;;
    type <~ read_le 1;; extensions <~ read_le 2;;
    rd_ret (Message version_max version_using version_min type extensions)
  else rd_fail.

(** [assert (!result)] after a read. *)
Definition rd_asserted {A} (m : reader A) : reader A := fun s =>
  match m s with Short => Rd_fault Assertion_failed | r => r end.

Definition rd_assert (b : bool) : reader unit := fun s => if b then Got tt s else Rd_fault Assertion_failed.

(** The reads at the start of every [deserialize]. *)
Definition read_header_of (t : message_type) : reader message :=
  m <~ rd_asserted read_header;; _ <~ rd_assert (m_type m =? message_type_code t);; rd_ret m.

(** ** The messages *)

Record endpoint := Endpoint { address : Z; port : Z }.
#[export] Instance endpoint_eq_dec : EqDecision endpoint.
Proof. solve_decision. Defined.

Record keepalive := Keepalive { ka_header : message; peers : list endpoint }.

Definition keepalive_new : keepalive := Keepalive (message_new mt_keepalive) (repeat (Endpoint 0 0) 8).

Definition write_endpoint (e : endpoint) : list byte := write_u128 (address e) ++ le_split 2 (port e).

(** The results of the two reads are not looked at: when the stream has ended,
    [address] and [port] are indeterminate. *)
Definition read_endpoint : reader endpoint := fun s =>
  match (address <~ read_u128;; port <~ read_le 2;; rd_ret (Endpoint address port)) s with
  | Short => Rd_fault Indeterminate_value
  | r => r
  end.

Fixpoint read_endpoints (n : nat) : reader (list endpoint) :=
  match n with
  | O => rd_ret []
  | S n => e <~ read_endpoint;; es <~ read_endpoints n;; rd_ret (e :: es)
  end.

Definition keepalive_serialize (k : keepalive) : list byte :=
  write_header (ka_header k) ++ concat (write_endpoint <$> peers k).

Definition keepalive_deserialize : reader keepalive :=
  m <~ read_header_of mt_keepalive;; peers <~ read_endpoints 8;; rd_ret (Keepalive m peers).

Definition keepalive_eqb (a b : keepalive) : bool := bool_decide (peers a = peers b).

Record publish := Publish { pb_header : message; pb_block : block }.

Definition publish_new (b : block) : publish :=
  Publish (block_type_set (type b) (message_new mt_publish)) b.

Definition publish_serialize (p : publish) : list byte := write_header (pb_header p) ++ serialize (pb_block p).

Definition publish_deserialize : reader publish :=
  m <~ read_header_of mt_publish;; b <~ deserialize_block_as (header_block_type m);; rd_ret (Publish m b).

Definition publish_eqb (a b : publish) : bool := block_eqb (pb_block a) (pb_block b).

Record confirm_req := ConfirmReq { cr_header : message; cr_block : block }.

Definition confirm_req_new (b : block) : confirm_req :=
  ConfirmReq (block_type_set (type b) (message_new mt_confirm_req)) b.

Definition confirm_req_serialize (c : confirm_req) : list byte := write_header (cr_header c) ++ serialize (cr_block c).

Definition confirm_req_deserialize : reader confirm_req :=
  m <~ read_header_of mt_confirm_req;; b <~ deserialize_block_as (header_block_type m);; rd_ret (ConfirmReq m b).

Definition confirm_req_eqb (a b : confirm_req) : bool := block_eqb (cr_block a) (cr_block b).

Record confirm_ack := ConfirmAck { ca_header : message; ca_vote : vote }.

Definition confirm_ack_new (v : vote) : confirm_ack :=
  ConfirmAck (block_type_set (type (v_block v)) (message_new mt_confirm_ack)) v.

Definition confirm_ack_serialize (c : confirm_ack) : res (list byte) :=
  let t := header_block_type (ca_header c) in
  if (t =? block_type_code send) || (t =? block_type_code receive) || (t =? block_type_code open)
     || (t =? block_type_code change) || (t =? block_type_code send_v2)
  then Ok (write_header (ca_header c) ++ vote_serialize_untyped (ca_vote c))
  else Fault Assertion_failed.

(** The constructor from a stream, which does not look at the type. *)
Definition confirm_ack_read : reader confirm_ack :=
  m <~ read_header;; v <~ vote_read_as (header_block_type m);; rd_ret (ConfirmAck m v).

Definition confirm_ack_deserialize : reader confirm_ack :=
  m <~ read_header_of mt_confirm_ack;; v <~ vote_read_as (header_block_type m);; rd_ret (ConfirmAck m v).

Definition confirm_ack_eqb (a b : confirm_ack) : bool := vote_eqb (ca_vote a) (ca_vote b).

Record frontier_req := FrontierReq { fr_header : message; fr_start : account; fr_age : Z; fr_count : Z }.

Definition frontier_req_serialize (f : frontier_req) : list byte :=
  write_header (fr_header f) ++ write_u256 (fr_start f) ++ le_split 4 (fr_age f) ++ le_split 4 (fr_count f).

Definition frontier_req_deserialize : reader frontier_req :=
  m <~ read_header_of mt_frontier_req;; start <~ read_u256;; age <~ read_le 4;; count <~ read_le 4;;
  rd_ret (FrontierReq m start age count).

Definition frontier_req_eqb (a b : frontier_req) : bool :=
  (fr_start a =? fr_start b) && (fr_age a =? fr_age b) && (fr_count a =? fr_count b).

Record bulk_pull := BulkPull { bp_header : message; bp_start : Z; bp_end : block_hash }.

Definition bulk_pull_serialize (b : bulk_pull) : list byte :=
  write_header (bp_header b) ++ write_u256 (bp_start b) ++ write_u256 (bp_end b).

Definition bulk_pull_deserialize : reader bulk_pull :=
  m <~ read_header_of mt_bulk_pull;; start <~ read_u256;; end_ <~ read_u256;; rd_ret (BulkPull m start end_).

Record bulk_pull_blocks := BulkPullBlocks {
  bb_header : message;
  min_hash : block_hash;
  max_hash : block_hash;
  mode : Z;
  max_count : Z
}.

Definition bulk_pull_blocks_serialize (b : bulk_pull_blocks) : list byte :=
  write_header (bb_header b) ++ write_u256 (min_hash b) ++ write_u256 (max_hash b) ++ le_split 1 (mode b)
  ++ le_split 4 (max_count b).

Definition bulk_pull_blocks_deserialize : reader bulk_pull_blocks :=
  m <~ read_header_of mt_bulk_pull_blocks;; min_hash <~ read_u256;; max_hash <~ read_u256;; mode <~ read_le 1;;
  max_count <~ read_le 4;; rd_ret (BulkPullBlocks m min_hash max_hash mode max_count).

Record bulk_push := BulkPush { bu_header : message }.

Definition bulk_push_serialize (b : bulk_push) : list byte := write_header (bu_header b).

Definition bulk_push_deserialize : reader bulk_push := m <~ read_header_of mt_bulk_push;; rd_ret (BulkPush m).

(** ** The parser *)

Record message_parser := Parser { parser_error : bool; insufficient_work : bool }.

Definition message_parser_new : message_parser := Parser false false.

(** A call of the visitor. *)
Inductive visit :=
| Visit_keepalive (k : keepalive)
| Visit_publish (p : publish)
| Visit_confirm_req (c : confirm_req)
| Visit_confirm_ack (c : confirm_ack).

Definition at_end (s : list byte) : bool := match read 1 s with Got _ _ => false | _ => true end.

Definition set_error (p : message_parser) : message_parser := Parser true (insufficient_work p).
Definition set_insufficient_work (p : message_parser) : message_parser := Parser (parser_error p) true.

Definition deserialize_keepalive (buffer : list byte) (p : message_parser) : res (message_parser * option visit) :=
  match keepalive_deserialize buffer with
  | Got incoming stream =>
      if at_end stream then Ok (p, Some (Visit_keepalive incoming)) else Ok (set_error p, None)
  | Short => Ok (set_error p, None)
  | Rd_fault f => Fault f
  end.

Definition deserialize_publish (buffer : list byte) (p : message_parser) : res (message_parser * option visit) :=
  match publish_deserialize buffer with
  | Got incoming stream =>
      if at_end stream then
        if negb (work_validate_block (pb_block incoming)) then Ok (p, Some (Visit_publish incoming))
        else Ok (set_insufficient_work p, None)
      else Ok (set_error p, None)
  | Short => Ok (set_error p, None)
  | Rd_fault f => Fault f
  end.

Definition deserialize_confirm_req (buffer : list byte) (p : message_parser) : res (message_parser * option visit) :=
  match confirm_req_deserialize buffer with
  | Got incoming stream =>
      if at_end stream then
        if negb (work_validate_block (cr_block incoming)) then Ok (p, Some (Visit_confirm_req incoming))
        else Ok (set_insufficient_work p, None)
      else Ok (set_error p, None)
  | Short => Ok (set_error p, None)
  | Rd_fault f => Fault f
  end.

Definition deserialize_confirm_ack (buffer : list byte) (p : message_parser) : res (message_parser * option visit) :=
  match confirm_ack_read buffer with
  | Got incoming stream =>
      if at_end stream then
        if negb (work_validate_block (v_block (ca_vote incoming))) then Ok (p, Some (Visit_confirm_ack incoming))
        else Ok (set_insufficient_work p, None)
      else Ok (set_error p, None)
  | Short => Ok (set_error p, None)
  | Rd_fault f => Fault f
  end.

Definition deserialize_buffer (buffer : list byte) (p : message_parser) : res (message_parser * option visit) :=
  let p := Parser false (insufficient_work p) in
  match read_header buffer with
  | Got m _ =>
      if m_type m =? message_type_code mt_keepalive then deserialize_keepalive buffer p
      else if m_type m =? message_type_code mt_publish then deserialize_publish buffer p
      else if m_type m =? message_type_code mt_confirm_req then deserialize_confirm_req buffer p
      else if m_type m =? message_type_code mt_confirm_ack then deserialize_confirm_ack buffer p
      else Ok (set_error p, None)
  | _ => Ok (set_error p, None)
  end.

(** ** Proofs *)

Definition message_ok (m : message) : Prop :=
  fits 8 (version_max m) /\ fits 8 (version_using m) /\ fits 8 (version_min m) /\ fits 8 (m_type m)
  /\ fits 16 (extensions m).

#[export] Instance message_ok_dec m : Decision (message_ok m).
Proof. unfold message_ok. apply _. Defined.

Lemma length_magic : length magic_number = 2%nat.
Proof. unfold magic_number. by destruct rai_network. Qed.

Lemma read_header_written m rest : message_ok m -> read_header (write_header m ++ rest) = Got m rest.
Proof.
  intros (H1 & H2 & H3 & H4 & H5). unfold read_header, write_header. rewrite <- ?app_assoc.
  erewrite rd_bind_got by (apply read_app, length_magic). rewrite bool_decide_eq_true_2 by done.
  rd_run. by destruct m.
Qed.

Lemma read_header_inv s m rest : read_header s = Got m rest -> s = write_header m ++ rest /\ message_ok m.
Proof.
  unfold read_header. intros (mg & mid & [-> Hl]%read_inv & Hr)%rd_bind_inv.
  case_bool_decide as Hm; [|done]. rd_inv Hr. injection Hr as <- <-. subst mg.
  unfold write_header, message_ok. cbn. rewrite <- ?app_assoc. split_and!; done.
Qed.

Lemma read_header_of_written t m rest :
  message_ok m -> m_type m = message_type_code t -> read_header_of t (write_header m ++ rest) = Got m rest.
Proof.
  intros Hm Ht. unfold read_header_of. erewrite rd_bind_got.
  2:{ unfold rd_asserted. by rewrite read_header_written. }
  rewrite Ht. unfold rd_bind, rd_assert. by rewrite Z.eqb_refl.
Qed.

Lemma read_header_of_inv t s m rest :
  read_header_of t s = Got m rest -> s = write_header m ++ rest /\ message_ok m /\ m_type m = message_type_code t.
Proof.
  unfold read_header_of, rd_asserted. intros (m' & mid & Hr & Hm)%rd_bind_inv.
  destruct (read_header s) as [m0 mid0| |] eqn:Hh; [|done..]. injection Hr as <- <-.
  apply read_header_inv in Hh as [-> Hok]. unfold rd_bind, rd_assert in Hm.
  destruct (Z.eqb_spec (m_type m0) (message_type_code t)); [|done]. injection Hm as <- <-. done.
Qed.

Definition endpoint_ok (e : endpoint) : Prop := fits 128 (address e) /\ fits 16 (port e).

Lemma read_endpoint_written e rest : endpoint_ok e -> read_endpoint (write_endpoint e ++ rest) = Got e rest.
Proof.
  intros [Ha Hp]. unfold read_endpoint, write_endpoint. unfold_io. rewrite <- app_assoc.
  match goal with |- match ?x with _ => _ end = _ => assert (x = Got e rest) as ->; [|done] end.
  rd_run. by destruct e.
Qed.

Lemma read_endpoint_inv s e rest : read_endpoint s = Got e rest -> s = write_endpoint e ++ rest /\ endpoint_ok e.
Proof.
  unfold read_endpoint. destruct (rd_bind _ _ s) as [e' rest'| |] eqn:Hr; [|done..]. intros [= <- <-].
  unfold_io. rd_inv Hr. injection Hr as <- <-. unfold write_endpoint, endpoint_ok. unfold_io. cbn.
  rewrite <- app_assoc. done.
Qed.

Lemma read_endpoints_written es rest :
  Forall endpoint_ok es -> read_endpoints (length es) (concat (write_endpoint <$> es) ++ rest) = Got es rest.
Proof.
  induction es as [|e es IH]; cbn; intros Hes; [done|]. apply Forall_cons in Hes as [He Hes].
  rewrite <- app_assoc. erewrite rd_bind_got by (by apply read_endpoint_written).
  erewrite rd_bind_got by (by apply IH). done.
Qed.

Lemma read_endpoints_inv n s es rest :
  read_endpoints n s = Got es rest ->
  s = concat (write_endpoint <$> es) ++ rest /\ Forall endpoint_ok es /\ length es = n.
Proof.
  revert s es rest. induction n as [|n IH]; intros s es rest; cbn.
  { by intros [= <- <-]. }
  intros (e & mid & [-> He]%read_endpoint_inv & Hr)%rd_bind_inv.
  apply rd_bind_inv in Hr as (es' & mid' & (-> & Hes & <-)%IH & [= <- <-]). cbn. rewrite <- app_assoc.
  split_and!; [done|by constructor|done].
Qed.

Lemma vote_read_as_written v rest :
  vote_ok v ->
  vote_read_as (block_type_code (type (v_block v))) (vote_serialize_untyped v ++ rest) = Got v rest.
Proof.
  intros (Hq & Hb & Ha & Hg). unfold vote_read_as, vote_serialize_untyped. unfold_io. rewrite <- ?app_assoc. rd_run.
  erewrite rd_bind_got by (by apply deserialize_serialize). by destruct v.
Qed.

Lemma vote_read_as_inv t s v rest :
  vote_read_as t s = Got v rest ->
  s = vote_serialize_untyped v ++ rest /\ vote_ok v /\ t = block_type_code (type (v_block v)).
Proof.
  unfold vote_read_as. unfold_io. intros Hr. rd_inv Hr.
  apply rd_bind_inv in Hr as (b & mid' & (-> & -> & Hb)%serialize_deserialize & [= <- <-]).
  unfold vote_serialize_untyped, vote_ok. unfold_io. cbn [v_account v_signature v_sequence v_block].
  rewrite <- ?app_assoc. split_and!; done.
Qed.

(** *** What a well-formed message is, and its bytes *)

Definition visit_ok (v : visit) : Prop :=
  match v with
  | Visit_keepalive k =>
      message_ok (ka_header k) /\ m_type (ka_header k) = message_type_code mt_keepalive
      /\ Forall endpoint_ok (peers k) /\ length (peers k) = 8%nat
  | Visit_publish p =>
      message_ok (pb_header p) /\ m_type (pb_header p) = message_type_code mt_publish
      /\ header_block_type (pb_header p) = block_type_code (type (pb_block p)) /\ block_ok (pb_block p)
  | Visit_confirm_req c =>
      message_ok (cr_header c) /\ m_type (cr_header c) = message_type_code mt_confirm_req
      /\ header_block_type (cr_header c) = block_type_code (type (cr_block c)) /\ block_ok (cr_block c)
  | Visit_confirm_ack c =>
      message_ok (ca_header c) /\ m_type (ca_header c) = message_type_code mt_confirm_ack
      /\ header_block_type (ca_header c) = block_type_code (type (v_block (ca_vote c))) /\ vote_ok (ca_vote c)
  end.

Definition visit_serialize (v : visit) : res (list byte) :=
  match v with
  | Visit_keepalive k => Ok (keepalive_serialize k)
  | Visit_publish p => Ok (publish_serialize p)
  | Visit_confirm_req c => Ok (confirm_req_serialize c)
  | Visit_confirm_ack c => confirm_ack_serialize c
  end.

(** The work of the block a message carries is sufficient. *)
Definition visit_worked (v : visit) : bool :=
  match v with
  | Visit_keepalive _ => true
  | Visit_publish p => negb (work_validate_block (pb_block p))
  | Visit_confirm_req c => negb (work_validate_block (cr_block c))
  | Visit_confirm_ack c => negb (work_validate_block (v_block (ca_vote c)))
  end.

Lemma at_end_nil s : at_end s = true <-> s = [].
Proof. destruct s; [done|]. split; done. Qed.

Lemma keepalive_read_exact s k rest :
  keepalive_deserialize s = Got k rest <-> s = keepalive_serialize k ++ rest /\ visit_ok (Visit_keepalive k).
Proof.
  unfold keepalive_deserialize, keepalive_serialize. split.
  - intros (m & mid & (-> & Hm & Ht)%read_header_of_inv & Hr)%rd_bind_inv.
    apply rd_bind_inv in Hr as (es & mid' & (-> & Hes & Hl)%read_endpoints_inv & [= <- <-]).
    rewrite <- app_assoc. done.
  - intros (-> & Hm & Ht & Hes & Hl). rewrite <- app_assoc.
    erewrite rd_bind_got by (by apply read_header_of_written). rewrite <- Hl.
    erewrite rd_bind_got by (by apply read_endpoints_written). by destruct k.
Qed.

Lemma publish_read_exact s p rest :
  publish_deserialize s = Got p rest <-> s = publish_serialize p ++ rest /\ visit_ok (Visit_publish p).
Proof.
  unfold publish_deserialize, publish_serialize. split.
  - intros (m & mid & (-> & Hm & Ht)%read_header_of_inv & Hr)%rd_bind_inv.
    apply rd_bind_inv in Hr as (b & mid' & (Hbt & -> & Hb)%serialize_deserialize & [= <- <-]).
    rewrite <- app_assoc. done.
  - intros (-> & Hm & Ht & Hbt & Hb). rewrite <- app_assoc.
    erewrite rd_bind_got by (by apply read_header_of_written). rewrite Hbt.
    erewrite rd_bind_got by (by apply deserialize_serialize). by destruct p.
Qed.

Lemma confirm_req_read_exact s c rest :
  confirm_req_deserialize s = Got c rest <-> s = confirm_req_serialize c ++ rest /\ visit_ok (Visit_confirm_req c).
Proof.
  unfold confirm_req_deserialize, confirm_req_serialize. split.
  - intros (m & mid & (-> & Hm & Ht)%read_header_of_inv & Hr)%rd_bind_inv.
    apply rd_bind_inv in Hr as (b & mid' & (Hbt & -> & Hb)%serialize_deserialize & [= <- <-]).
    rewrite <- app_assoc. done.
  - intros (-> & Hm & Ht & Hbt & Hb). rewrite <- app_assoc.
    erewrite rd_bind_got by (by apply read_header_of_written). rewrite Hbt.
    erewrite rd_bind_got by (by apply deserialize_serialize). by destruct c.
Qed.

Lemma confirm_ack_serialize_ok c :
  header_block_type (ca_header c) = block_type_code (type (v_block (ca_vote c))) ->
  confirm_ack_serialize c = Ok (write_header (ca_header c) ++ vote_serialize_untyped (ca_vote c)).
Proof. intros Ht. unfold confirm_ack_serialize. rewrite Ht. by destruct (v_block (ca_vote c)). Qed.

Lemma confirm_ack_read_exact s c rest :
  m_type (ca_header c) = message_type_code mt_confirm_ack ->
  confirm_ack_read s = Got c rest
  <-> s = (write_header (ca_header c) ++ vote_serialize_untyped (ca_vote c)) ++ rest /\ visit_ok (Visit_confirm_ack c).
Proof.
  intros Htype. unfold confirm_ack_read. split.
  - intros (m & mid & (-> & Hm)%read_header_inv & Hr)%rd_bind_inv.
    apply rd_bind_inv in Hr as (v & mid' & (-> & Hv & Hbt)%vote_read_as_inv & [= <- <-]).
    rewrite <- app_assoc. done.
  - intros (-> & Hm & Ht & Hbt & Hv). rewrite <- app_assoc.
    erewrite rd_bind_got by (by apply read_header_written). rewrite Hbt.
    erewrite rd_bind_got by (by apply vote_read_as_written). by destruct c.
Qed.

#[local] Opaque work_validate_block.

(** Each of the four handlers hands on exactly what it reads to the end. *)
Lemma handed_on {A} (r : rd A) (insufficient : A -> bool) (f : A -> visit) (p p' : message_parser) (v : visit) :
  match r with
  | Got m stream =>
      if at_end stream then
        if negb (insufficient m) then Ok (p, Some (f m)) else Ok (set_insufficient_work p, None)
      else Ok (set_error p, None)
  | Short => Ok (set_error p, None)
  | Rd_fault e => Fault e
  end = Ok (p', Some v)
  <-> exists m, r = Got m [] /\ v = f m /\ p' = p /\ insufficient m = false.
Proof.
  destruct r as [m stream| |e]; [|by split; [|intros (? & ? & _)]..]. destruct (at_end stream) eqn:Ha.
  - apply at_end_nil in Ha as ->. destruct (insufficient m) eqn:Hi; cbn [negb]; split.
    + done.
    + intros (? & [= <-] & _ & _ & ?). congruence.
    + intros [= <- <-]. by exists m.
    + by intros (? & [= <-] & -> & -> & _).
  - split; [done|]. by intros (? & [= _ ->] & _).
Qed.

Lemma deserialize_keepalive_exact buffer p p' v :
  deserialize_keepalive buffer p = Ok (p', Some v)
  <-> exists k, keepalive_deserialize buffer = Got k [] /\ v = Visit_keepalive k /\ p' = p /\ false = false.
Proof. apply (handed_on (keepalive_deserialize buffer) (fun _ => false)). Qed.

Lemma deserialize_publish_exact buffer p p' v :
  deserialize_publish buffer p = Ok (p', Some v)
  <-> exists m, publish_deserialize buffer = Got m [] /\ v = Visit_publish m /\ p' = p
      /\ work_validate_block (pb_block m) = false.
Proof. apply (handed_on (publish_deserialize buffer) (fun m => work_validate_block (pb_block m))). Qed.

Lemma deserialize_confirm_req_exact buffer p p' v :
  deserialize_confirm_req buffer p = Ok (p', Some v)
  <-> exists m, confirm_req_deserialize buffer = Got m [] /\ v = Visit_confirm_req m /\ p' = p
      /\ work_validate_block (cr_block m) = false.
Proof. apply (handed_on (confirm_req_deserialize buffer) (fun m => work_validate_block (cr_block m))). Qed.

Lemma deserialize_confirm_ack_exact buffer p p' v :
  deserialize_confirm_ack buffer p = Ok (p', Some v)
  <-> exists m, confirm_ack_read buffer = Got m [] /\ v = Visit_confirm_ack m /\ p' = p
      /\ work_validate_block (v_block (ca_vote m)) = false.
Proof. apply (handed_on (confirm_ack_read buffer) (fun m => work_validate_block (v_block (ca_vote m)))). Qed.

Lemma visit_header v buffer :
  visit_ok v -> visit_serialize v = Ok buffer ->
  exists m rest, read_header buffer = Got m rest
  /\ m_type m = message_type_code (match v with
       | Visit_keepalive _ => mt_keepalive | Visit_publish _ => mt_publish
       | Visit_confirm_req _ => mt_confirm_req | Visit_confirm_ack _ => mt_confirm_ack end).
Proof.
  destruct v as [k|p|c|c]; cbn; intros (Hm & Ht & Hx & Hy).
  1-3: intros [= <-]; eexists _, _; (split; [by apply read_header_written|done]).
  rewrite confirm_ack_serialize_ok by done. intros [= <-]; eexists _, _; (split; [by apply read_header_written|done]).
Qed.

Lemma parser_accepts v buffer p :
  visit_ok v -> visit_serialize v = Ok buffer -> visit_worked v = true ->
  deserialize_buffer buffer p = Ok (Parser false (insufficient_work p), Some v).
Proof.
  intros Hok Hs Hw. destruct (visit_header v buffer Hok Hs) as (m & rest & Hh & Ht).
  unfold deserialize_buffer. rewrite Hh, Ht.
  destruct v as [k|x|c|c]; cbn in Hs, Hw |- *; rewrite ?negb_true_iff in Hw.
  - injection Hs as <-. apply deserialize_keepalive_exact. exists k. split; [|done].
    apply keepalive_read_exact. by rewrite app_nil_r.
  - injection Hs as <-. apply deserialize_publish_exact. exists x. split_and!; [|reflexivity|reflexivity|exact Hw].
    apply publish_read_exact. rewrite app_nil_r. split; [reflexivity|exact Hok].
  - injection Hs as <-. apply deserialize_confirm_req_exact. exists c. split_and!; [|reflexivity|reflexivity|exact Hw].
    apply confirm_req_read_exact. rewrite app_nil_r. split; [reflexivity|exact Hok].
  - pose proof Hok as (_ & Hty & Hbt & _). rewrite confirm_ack_serialize_ok in Hs by done. injection Hs as <-.
    apply deserialize_confirm_ack_exact. exists c. split_and!; [|reflexivity|reflexivity|exact Hw].
    apply confirm_ack_read_exact; [exact Hty|]. rewrite app_nil_r. split; [reflexivity|exact Hok].
Qed.

Lemma parser_reads buffer p p' v :
  deserialize_buffer buffer p = Ok (p', Some v) ->
  visit_ok v /\ visit_serialize v = Ok buffer /\ visit_worked v = true /\ p' = Parser false (insufficient_work p).
Proof.
  unfold deserialize_buffer. destruct (read_header buffer) as [m rest| |] eqn:Hh; [|done..].
  destruct (Z.eqb_spec (m_type m) (message_type_code mt_keepalive)).
  { intros (k & [-> Hk]%keepalive_read_exact & -> & -> & _)%deserialize_keepalive_exact.
    cbn [visit_serialize]. by rewrite app_nil_r. }
  destruct (Z.eqb_spec (m_type m) (message_type_code mt_publish)).
  { intros (k & [-> Hk]%publish_read_exact & -> & -> & Hw)%deserialize_publish_exact.
    cbn [visit_serialize visit_worked]. rewrite app_nil_r, Hw. split_and!; [exact Hk|reflexivity..]. }
  destruct (Z.eqb_spec (m_type m) (message_type_code mt_confirm_req)).
  { intros (k & [-> Hk]%confirm_req_read_exact & -> & -> & Hw)%deserialize_confirm_req_exact.
    cbn [visit_serialize visit_worked]. rewrite app_nil_r, Hw. split_and!; [exact Hk|reflexivity..]. }
  destruct (Z.eqb_spec (m_type m) (message_type_code mt_confirm_ack)) as [Ht|]; [|done].
  intros (k & Hr & -> & -> & Hw)%deserialize_confirm_ack_exact.
  assert (Hkt : m_type (ca_header k) = message_type_code mt_confirm_ack).
  { pose proof Hr as Hr'. unfold confirm_ack_read in Hr'. apply rd_bind_inv in Hr' as (m' & mid & Hm' & Hr').
    rewrite Hh in Hm'. injection Hm' as <- <-. apply rd_bind_inv in Hr' as (v & mid' & _ & [= <- _]). done. }
  apply confirm_ack_read_exact in Hr as [-> Hk]; [|done]. pose proof Hk as (_ & _ & Hbt & _).
  cbn [visit_serialize visit_worked]. rewrite confirm_ack_serialize_ok, app_nil_r, Hw by exact Hbt.
  split_and!; [exact Hk|reflexivity..].
Qed.


(** *** Messages the node makes *)

Lemma block_type_set_get t m : header_block_type (block_type_set t m) = block_type_code t.
Proof.
  unfold header_block_type, block_type_set, block_type_mask. cbn [extensions].
  rewrite Z.land_lor_distr_l, <- Z.land_assoc. change (Z.land (Z.ldiff 0xffff 0x0f00) 0x0f00) with 0.
  rewrite Z.land_0_r, Z.lor_0_l. by destruct t.
Qed.

Lemma new_message_ok t bt : message_ok (block_type_set bt (message_new t)) /\ message_ok (message_new t).
Proof. destruct t, bt; split; refine (bool_decide_unpack _ _); vm_compute; exact I. Qed.

(** What one node sends another accepts.  A keepalive with eight peers, and
    the publish, confirm_req and confirm_ack messages made for a well-formed
    block or vote whose work is sufficient, arrive as what they were. *)
Theorem sent_messages_arrive (es : list endpoint) (b : block) (v : vote) (p : message_parser) :
  Forall endpoint_ok es -> length es = 8%nat -> block_ok b -> vote_ok v ->
  work_validate_block b = false -> work_validate_block (v_block v) = false ->
  let p' := Parser false (insufficient_work p) in
  let k := Keepalive (message_new mt_keepalive) es in
  deserialize_buffer (keepalive_serialize k) p = Ok (p', Some (Visit_keepalive k))
  /\ deserialize_buffer (publish_serialize (publish_new b)) p = Ok (p', Some (Visit_publish (publish_new b)))
  /\ deserialize_buffer (confirm_req_serialize (confirm_req_new b)) p = Ok (p', Some (Visit_confirm_req (confirm_req_new b)))
  /\ exists s, confirm_ack_serialize (confirm_ack_new v) = Ok s
     /\ deserialize_buffer s p = Ok (p', Some (Visit_confirm_ack (confirm_ack_new v))).
Proof.
  intros Hes Hl Hb Hv Hwb Hwv p' k. split_and!.
  - apply parser_accepts; [|done..]. split_and!; [apply (new_message_ok _ invalid)|done..].
  - apply parser_accepts; [|reflexivity|cbn [visit_worked publish_new confirm_req_new pb_block cr_block]; by rewrite Hwb].
    split_and!; [apply new_message_ok|done|apply block_type_set_get|done].
  - apply parser_accepts; [|reflexivity|cbn [visit_worked publish_new confirm_req_new pb_block cr_block]; by rewrite Hwb].
    split_and!; [apply new_message_ok|done|apply block_type_set_get|done].
  - eexists. split; [apply confirm_ack_serialize_ok, block_type_set_get|].
    apply parser_accepts; [|apply confirm_ack_serialize_ok, block_type_set_get|cbn [visit_worked confirm_ack_new ca_vote]; by rewrite Hwv].
    split_and!; [apply new_message_ok|done|apply block_type_set_get|done].
Qed.

(** *** Packets the parser does not survive *)

Lemma length_write_header m : length (write_header m) = 8%nat.
Proof. unfold write_header. rewrite !length_app, length_magic, !length_le_split. done. Qed.

Lemma read_endpoint_short s :
  (length s < 18)%nat -> read_endpoint s = Rd_fault Indeterminate_value.
Proof.
  intros Hl. unfold read_endpoint, read_u128, read_be, read_le, read, rd_bind.
  destruct (Nat.leb_spec 16 (length s)); [|done]. unfold rd_ret. rewrite length_drop.
  by rewrite (proj2 (Nat.leb_gt 2 (length s - 16))) by lia.
Qed.

Lemma read_endpoint_long s :
  (18 <= length s)%nat -> exists e, read_endpoint s = Got e (drop 18 s).
Proof.
  intros Hl. unfold read_endpoint, read_u128, read_be, read_le, read, rd_bind, rd_ret.
  rewrite (proj2 (Nat.leb_le 16 (length s))) by lia. rewrite length_drop.
  rewrite (proj2 (Nat.leb_le 2 (length s - 16))) by lia. rewrite drop_drop. by eexists.
Qed.

Lemma read_endpoints_short n s :
  (length s < 18 * n)%nat -> read_endpoints n s = Rd_fault Indeterminate_value.
Proof.
  revert s. induction n as [|n IH]; intros s Hl; [lia|]. cbn [read_endpoints].
  destruct (Nat.lt_ge_cases (length s) 18) as [Hs|Hs].
  - unfold rd_bind. by rewrite read_endpoint_short.
  - destruct (read_endpoint_long s Hs) as [e He]. erewrite rd_bind_got by exact He.
    unfold rd_bind. rewrite IH; [done|]. rewrite length_drop. lia.
Qed.

Lemma unknown_block_type t s :
  (forall b, t <> block_type_code (type b)) -> deserialize_block_as t s = Rd_fault Assertion_failed.
Proof.
  intros Ht. unfold deserialize_block_as. destruct (block_type_of_code t) as [ty|] eqn:Hty; [|done].
  assert (t = block_type_code ty) as ->.
  { unfold block_type_of_code in Hty. repeat case_match; simplify_eq; done. }
  destruct ty; try done; exfalso.
  - by apply (Ht (Send (SendBlock (SendHashables 0 0 0) 0 0))).
  - by apply (Ht (Receive (ReceiveBlock (ReceiveHashables 0 0) 0 0))).
  - by apply (Ht (Open (OpenBlock (OpenHashables 0 0 0) 0 0))).
  - by apply (Ht (Change (ChangeBlock (ChangeHashables 0 0) 0 0))).
  - by apply (Ht (SendV2 empty_send_v2)).
Qed.

(** A packet from the network can stop the node.  Every publish or
    confirm_req packet whose header states a kind of block that does not exist
    runs into [assert (false)] in [deserialize_block], whatever follows the
    header; and every keepalive packet with fewer than eight peers after its
    header is read with indeterminate addresses and ports. *)
Theorem malformed_packets_fault (m : message) (rest : list byte) (p : message_parser) :
  message_ok m ->
  ((m_type m = message_type_code mt_publish \/ m_type m = message_type_code mt_confirm_req) ->
   (forall b, header_block_type m <> block_type_code (type b)) ->
   deserialize_buffer (write_header m ++ rest) p = Fault Assertion_failed)
  /\ (m_type m = message_type_code mt_keepalive -> (length rest < 144)%nat ->
      deserialize_buffer (write_header m ++ rest) p = Fault Indeterminate_value).
Proof.
  intros Hm. unfold deserialize_buffer. rewrite read_header_written by done. split.
  - intros [Ht|Ht] Hbt; rewrite Ht; cbn [Z.eqb message_type_code Pos.eqb].
    + unfold deserialize_publish, publish_deserialize.
      erewrite rd_bind_got by (by apply read_header_of_written). unfold rd_bind.
      by rewrite unknown_block_type.
    + unfold deserialize_confirm_req, confirm_req_deserialize.
      erewrite rd_bind_got by (by apply read_header_of_written). unfold rd_bind.
      by rewrite unknown_block_type.
  - intros Ht Hl. rewrite Ht. cbn [Z.eqb message_type_code Pos.eqb].
    unfold deserialize_keepalive, keepalive_deserialize.
    erewrite rd_bind_got by (by apply read_header_of_written). unfold rd_bind.
    rewrite read_endpoints_short; [done|lia].
Qed.

(** *** The messages of the bootstrap connection *)

Definition header_of (t : message_type) (m : message) : Prop := message_ok m /\ m_type m = message_type_code t.

(** The requests of the bootstrap connection are read exactly: a stream is
    read as a frontier_req, bulk_pull, bulk_pull_blocks or bulk_push message, up
    to some rest, exactly when it is what [serialize] writes for that message,
    with a header of that type and fields in range, followed by that rest. *)
Theorem bootstrap_messages_exact (s rest : list byte) :
  (forall f, frontier_req_deserialize s = Got f rest
     <-> s = frontier_req_serialize f ++ rest /\ header_of mt_frontier_req (fr_header f)
         /\ fits 256 (fr_start f) /\ fits 32 (fr_age f) /\ fits 32 (fr_count f))
  /\ (forall b, bulk_pull_deserialize s = Got b rest
     <-> s = bulk_pull_serialize b ++ rest /\ header_of mt_bulk_pull (bp_header b)
         /\ fits 256 (bp_start b) /\ fits 256 (bp_end b))
  /\ (forall b, bulk_pull_blocks_deserialize s = Got b rest
     <-> s = bulk_pull_blocks_serialize b ++ rest /\ header_of mt_bulk_pull_blocks (bb_header b)
         /\ fits 256 (min_hash b) /\ fits 256 (max_hash b) /\ fits 8 (mode b) /\ fits 32 (max_count b))
  /\ (forall b, bulk_push_deserialize s = Got b rest
     <-> s = bulk_push_serialize b ++ rest /\ header_of mt_bulk_push (bu_header b)).
Proof.
  unfold frontier_req_deserialize, bulk_pull_deserialize, bulk_pull_blocks_deserialize, bulk_push_deserialize,
    frontier_req_serialize, bulk_pull_serialize, bulk_pull_blocks_serialize, bulk_push_serialize, header_of.
  unfold_io. split_and!; intros x; (split;
    [intros (m & mid & (-> & Hm & Ht)%read_header_of_inv & Hr)%rd_bind_inv; rd_inv Hr; injection Hr as <- <-;
     cbn; rewrite <- ?app_assoc; split_and!; done
    |intros; destruct_and?; subst s; rewrite <- ?app_assoc;
     erewrite rd_bind_got by (by apply read_header_of_written); rd_run; by destruct x]).
Qed.
End Network.

(** ** Examples, on the test network *)

(** An open block of account 7 with sufficient work. *)
Definition worked_block : block := Open (OpenBlock (OpenHashables 1 2 7) 0 167).
Definition worked_vote : vote := Vote 1 worked_block 5 0.
Definition some_peers : list endpoint := Endpoint 1 7075 :: repeat (Endpoint 0 0) 7.

Lemma worked_block_ok : block_ok worked_block.
Proof. refine (bool_decide_unpack _ _). vm_compute. exact I. Qed.

Lemma worked_block_validates : work_validate_block worked_block = false.
Proof. exact work_7. Qed.

Lemma worked_vote_ok : vote_ok worked_vote.
Proof. split_and!; [unfold fits; cbn; lia|exact worked_block_ok|unfold fits; cbn; lia..]. Qed.

Lemma some_peers_ok : Forall endpoint_ok some_peers.
Proof. repeat constructor; unfold fits; cbn; lia. Qed.

Lemma sent_messages_arrive_witness :
  let p' := Parser false false in
  let k := Keepalive (message_new mt_keepalive) some_peers in
  deserialize_buffer (keepalive_serialize k) message_parser_new = Ok (p', Some (Visit_keepalive k))
  /\ deserialize_buffer (publish_serialize (publish_new worked_block)) message_parser_new
     = Ok (p', Some (Visit_publish (publish_new worked_block)))
  /\ deserialize_buffer (confirm_req_serialize (confirm_req_new worked_block)) message_parser_new
     = Ok (p', Some (Visit_confirm_req (confirm_req_new worked_block)))
  /\ exists s, confirm_ack_serialize (confirm_ack_new worked_vote) = Ok s
     /\ deserialize_buffer s message_parser_new = Ok (p', Some (Visit_confirm_ack (confirm_ack_new worked_vote))).
Proof.
  apply (sent_messages_arrive some_peers worked_block worked_vote message_parser_new);
    [exact some_peers_ok|reflexivity|exact worked_block_ok|exact worked_vote_ok
    |exact worked_block_validates|exact worked_block_validates].
Defined.

Lemma malformed_packets_fault_witness :
  let m := message_new mt_publish in let k := message_new mt_keepalive in
  deserialize_buffer (write_header m ++ []) message_parser_new = Fault Assertion_failed
  /\ deserialize_buffer (write_header k ++ []) message_parser_new = Fault Indeterminate_value.
Proof.
  assert (Hm : forall t, message_ok (message_new t)) by (intros t; apply (new_message_ok t invalid)).
  split.
  - apply (malformed_packets_fault (message_new mt_publish) [] message_parser_new (Hm _)); [by left|].
    intros b. by destruct b.
  - apply (malformed_packets_fault (message_new mt_keepalive) [] message_parser_new (Hm _)); [done|cbn; lia].
Defined.
