(* ===== verification/Unchecked.v ===== *)
(** * Blocks that wait for another (rai/secure.cpp)

    The table of unchecked blocks, keyed by the hash each of them waits for,
    with the cache in front of it, and [flush], which writes the caches out.
    The table keeps several values per key, sorted and without duplicates
    ([MDB_DUPSORT]): a list of keys and bytes in that order.  The cache is an
    [unordered_multimap]: a list of its elements, of which those with the same
    key are walked in an order the standard leaves open. *)
From Stdlib Require Import ZArith Lia List.
From stdpp Require Import prelude list.
From S2P Require Import Prelude Lists Numbers Streams Blocks Votes.

Record unchecked_store := UncheckedStore {
  unchecked_db : list (Z * list byte);
  unchecked_cache : list (Z * block)
}.

(** The order in which a multimap walks the elements with one key. *)
Class MultimapOrder := {
  equal_range : list block -> list block;
  equal_range_perm l : equal_range l ≡ₚ l
}.

Definition unchecked_empty : unchecked_store := UncheckedStore [] [].

(** [memcmp] on the common length, then the lengths. *)
Fixpoint bytes_compare (a b : list byte) : comparison :=
  match a, b with
  | [], [] => Eq
  | [], _ :: _ => Lt
  | _ :: _, [] => Gt
  | x :: a, y :: b =>
      match Z.compare (byte.unsigned x) (byte.unsigned y) with Eq => bytes_compare a b | c => c end
  end.

Definition entry_compare (a b : Z * list byte) : comparison :=
  match Z.compare (fst a) (fst b) with Eq => bytes_compare (snd a) (snd b) | c => c end.

(** [mdb_put] into such a table. *)
Fixpoint dup_put (e : Z * list byte) (l : list (Z * list byte)) : list (Z * list byte) :=
  match l with
  | [] => [e]
  | x :: l => match entry_compare e x with Lt => e :: x :: l | Eq => x :: l | Gt => x :: dup_put e l end
  end.

Definition unchecked_clear (u : unchecked_store) : unchecked_store := UncheckedStore [] (unchecked_cache u).

Definition unchecked_put (h : block_hash) (b : block) (u : unchecked_store) : unchecked_store :=
  UncheckedStore (unchecked_db u) (unchecked_cache u ++ [(h, b)]).

(** The blocks of the cache, then those of the table; [None] is the null pointer
    [deserialize_block] returns for bytes that are too short. *)
Fixpoint read_blocks (l : list (list byte)) : res (list (option block)) :=
  match l with
  | [] => Ok []
  | bytes :: l =>
      match deserialize_block bytes with
      | Rd_fault f => Fault f
      | r => match read_blocks l with
             | Ok bs => Ok (match r with Got b _ => Some b | _ => None end :: bs)
             | Fault f => Fault f
             end
      end
  end.

Definition unchecked_get `{MultimapOrder} (h : block_hash) (u : unchecked_store) : res (list (option block)) :=
  let cached := Some <$> equal_range (snd <$> filter (fun e => fst e = h) (unchecked_cache u)) in
  match read_blocks (snd <$> filter (fun e => fst e = h) (unchecked_db u)) with
  | Ok stored => Ok (cached ++ stored)
  | Fault f => Fault f
  end.

Definition unchecked_del (h : block_hash) (b : block) (u : unchecked_store) : unchecked_store :=
  UncheckedStore
    (filter (fun e => ~ (fst e = h /\ snd e = serialize_block b)) (unchecked_db u))
    (filter (fun e => ~ (fst e = h /\ block_eqb (snd e) b = true)) (unchecked_cache u)).

Definition unchecked_count (u : unchecked_store) : nat := length (unchecked_db u).

(** The part of [flush] for unchecked blocks. *)
Definition flush_unchecked (u : unchecked_store) : unchecked_store :=
  UncheckedStore (fold_left (fun db e => dup_put (fst e, serialize_block (snd e)) db) (unchecked_cache u) (unchecked_db u)) [].

(** [rai::block_store::flush] *)
Definition flush (v : vote_store) (u : unchecked_store) : vote_store * unchecked_store :=
  (flush_votes v, flush_unchecked u).

(** ** Proofs *)

(** [b] waits for [h]. *)
Definition held (u : unchecked_store) (h : block_hash) (b : block) : Prop :=
  (h, b) ∈ unchecked_cache u \/ (h, serialize_block b) ∈ unchecked_db u.

Record unchecked_ok (u : unchecked_store) : Prop := {
  uo_db : forall h bytes, (h, bytes) ∈ unchecked_db u -> exists b, block_ok b /\ bytes = serialize_block b;
  uo_cache : forall h b, (h, b) ∈ unchecked_cache u -> block_ok b
}.

Lemma bytes_compare_eq a b : bytes_compare a b = Eq <-> a = b.
Proof.
  revert b. induction a as [|x a IH]; intros [|y b]; cbn; [done..|].
  destruct (Z.compare_spec (byte.unsigned x) (byte.unsigned y)) as [He|Hl|Hg].
  - rewrite IH. apply (f_equal byte.of_Z) in He. rewrite !byte.of_Z_unsigned in He. naive_solver.
  - split; [done|]. intros [= -> ->]. lia.
  - split; [done|]. intros [= -> ->]. lia.
Qed.

Lemma entry_compare_eq a b : entry_compare a b = Eq <-> a = b.
Proof.
  destruct a as [h x], b as [k y]. unfold entry_compare. cbn.
  destruct (Z.compare_spec h k) as [->|Hl|Hg].
  - rewrite bytes_compare_eq. naive_solver.
  - split; [done|]. intros [= -> ->]. lia.
  - split; [done|]. intros [= -> ->]. lia.
Qed.

Lemma elem_of_dup_put x e l : x ∈ dup_put e l <-> x = e \/ x ∈ l.
Proof.
  induction l as [|y l IH]; cbn; [by rewrite list_elem_of_singleton; set_solver|].
  destruct (entry_compare e y) eqn:He.
  - apply entry_compare_eq in He as ->. set_solver.
  - set_solver.
  - rewrite !elem_of_cons, IH. naive_solver.
Qed.

Lemma elem_of_flush x l db :
  x ∈ fold_left (fun db e => dup_put (fst e, serialize_block (snd e)) db) l db
  <-> x ∈ db \/ exists h b, (h, b) ∈ l /\ x = (h, serialize_block b).
Proof.
  revert db. induction l as [|[h b] l IH]; intros db; cbn [fold_left fst snd].
  - split; [by left|]. intros [?|(? & ? & ?%not_elem_of_nil & _)]; done.
  - rewrite IH, elem_of_dup_put. setoid_rewrite elem_of_cons. split.
    + intros [[->|?]|(h' & b' & ? & ->)]; [right; exists h, b; auto|by left|right; exists h', b'; auto].
    + intros [?|(h' & b' & [[= -> ->]|?] & ->)]; [auto|auto|right; exists h', b'; auto].
Qed.

Lemma read_blocks_ok l bs :
  (forall bytes, bytes ∈ l -> exists b, block_ok b /\ bytes = serialize_block b) ->
  l = serialize_block <$> bs -> Forall block_ok bs -> read_blocks l = Ok (Some <$> bs).
Proof.
  revert bs. induction l as [|x l IH]; intros [|b bs] Hl; cbn; try done.
  intros [= -> ->] [Hb Hbs]%Forall_cons.
  rewrite <- (app_nil_r (serialize_block b)), block_read_written by done.
  rewrite (IH bs); [done| |done|done]. intros bytes Hin. apply Hl. by right.
Qed.

Lemma serialized_list (l : list (list byte)) :
  (forall bytes, bytes ∈ l -> exists b, block_ok b /\ bytes = serialize_block b) ->
  exists bs, l = serialize_block <$> bs /\ Forall block_ok bs.
Proof.
  induction l as [|x l IH]; intros Hl; [by exists []|].
  destruct (Hl x ltac:(left)) as (b & Hb & ->). destruct IH as (bs & -> & Hbs); [intros; apply Hl; by right|].
  exists (b :: bs). split; [done|by constructor].
Qed.

Lemma serialize_block_inj b b' : block_ok b -> block_ok b' -> serialize_block b = serialize_block b' -> b = b'.
Proof. exact (to_stream_inj (H := block_serializable) b b'). Qed.

(** What [unchecked_get] reads: the cached blocks, then the stored ones. *)
Lemma unchecked_get_read `{MultimapOrder} u h :
  unchecked_ok u ->
  exists bs, unchecked_get h u = Ok (Some <$> equal_range (snd <$> filter (fun e => fst e = h) (unchecked_cache u)) ++ bs)
  /\ snd <$> filter (fun e => fst e = h) (unchecked_db u) = serialize_block <$> bs /\ Forall block_ok bs.
Proof.
  intros [Hdb Hc]. set (l := snd <$> filter (fun e => fst e = h) (unchecked_db u)).
  assert (Hl : forall bytes, bytes ∈ l -> exists b, block_ok b /\ bytes = serialize_block b).
  { intros bytes Hin. unfold l in Hin. apply list_elem_of_fmap in Hin as ([k x] & -> & [<- Hin]%list_elem_of_filter).
    by eapply Hdb. }
  destruct (serialized_list l Hl) as (bs & Hbs & Hok). exists bs. split_and!; [|done|done].
  unfold unchecked_get. fold l. rewrite (read_blocks_ok l bs Hl Hbs Hok). by rewrite fmap_app.
Qed.

Lemma unchecked_get_held `{MultimapOrder} u h :
  unchecked_ok u -> exists bs, unchecked_get h u = Ok (Some <$> bs) /\ forall b, b ∈ bs <-> held u h b /\ block_ok b.
Proof.
  intros Hu. destruct (unchecked_get_read u h Hu) as (bs & He & Hbs & Hok). destruct Hu as [Hdb Hc].
  set (cs := snd <$> filter (fun e => fst e = h) (unchecked_cache u)) in *.
  assert (Hcs : forall b, b ∈ equal_range cs <-> (h, b) ∈ unchecked_cache u).
  { intros b. transitivity (b ∈ cs).
    - split; apply perm_in; [|symmetry]; apply equal_range_perm.
    - unfold cs. rewrite list_elem_of_fmap. split.
      + intros ([k x] & -> & [<- Hin]%list_elem_of_filter). done.
      + intros Hin. exists (h, b). split; [done|]. by apply list_elem_of_filter. }
  assert (Hl : forall bytes, bytes ∈ serialize_block <$> bs <-> (h, bytes) ∈ unchecked_db u).
  { intros bytes. rewrite <- Hbs, list_elem_of_fmap. split.
    - intros ([k x] & -> & [<- Hin]%list_elem_of_filter). done.
    - intros Hin. exists (h, bytes). split; [done|]. by apply list_elem_of_filter. }
  exists (equal_range cs ++ bs). split; [done|]. intros b. rewrite elem_of_app, Hcs. unfold held. split.
  - intros [Hin|Hin].
    + split; [by left|]. by eapply Hc.
    + split; [|by apply (proj1 (Forall_forall _ _) Hok)]. right. apply Hl, list_elem_of_fmap. eauto.
  - intros [[Hin|Hin] Hb]; [by left|right]. apply Hl, list_elem_of_fmap in Hin as (b' & Heq & Hin).
    assert (b' = b) as <-; [|done]. symmetry. apply serialize_block_inj; [done| |done].
    by apply (proj1 (Forall_forall _ _) Hok).
Qed.

Lemma unchecked_put_held u h b k c : held (unchecked_put h b u) k c <-> held u k c \/ k = h /\ c = b.
Proof. unfold held. cbn. rewrite elem_of_app, list_elem_of_singleton. naive_solver. Qed.

Lemma unchecked_del_held u h b k c :
  block_ok b -> block_ok c -> held (unchecked_del h b u) k c <-> held u k c /\ ~ (k = h /\ c = b).
Proof.
  intros Hb Hc. unfold held. cbn. rewrite !list_elem_of_filter. cbn. split.
  - intros [[Hn Hin]|[Hn Hin]]; (split; [auto|]); intros [-> ->]; apply Hn; (split; [reflexivity|]);
      [apply block_eqb_refl|reflexivity].
  - intros [[Hin|Hin] Hn]; [left|right]; (split; [|done]); intros [-> Heq]; apply Hn; (split; [done|]).
    + by destruct (block_eqb_spec c b).
    + by apply serialize_block_inj.
Qed.

Lemma flush_unchecked_held u k c : held u k c -> held (flush_unchecked u) k c.
Proof.
  intros [Hin|Hin]; right; cbn; rewrite elem_of_flush; [right; eauto|by left].
Qed.

Lemma flush_unchecked_held' u k c : unchecked_ok u -> block_ok c -> held (flush_unchecked u) k c -> held u k c.
Proof.
  intros [Hdb Hca] Hc [Hin|Hin]; [by apply not_elem_of_nil in Hin|]. cbn in Hin.
  rewrite elem_of_flush in Hin. destruct Hin as [Hin|(h & b & Hin & [-> Heq]%pair_equal_spec)]; [by right|]. left.
  assert (c = b) as ->; [|done]. apply serialize_block_inj; [done|by eapply Hca|exact Heq].
Qed.

(** *** Taking out all blocks that wait for one hash *)

Definition without (h : block_hash) (u : unchecked_store) : unchecked_store :=
  UncheckedStore (filter (fun e => fst e <> h) (unchecked_db u)) (filter (fun e => fst e <> h) (unchecked_cache u)).

Definition total_held (u : unchecked_store) : nat := (length (unchecked_db u) + length (unchecked_cache u))%nat.

Lemma unchecked_del_all h bs u :
  fold_left (fun u b => unchecked_del h b u) bs u
  = UncheckedStore (filter (fun e => ~ (fst e = h /\ snd e ∈ serialize_block <$> bs)) (unchecked_db u))
      (filter (fun e => ~ (fst e = h /\ snd e ∈ bs)) (unchecked_cache u)).
Proof.
  revert u. induction bs as [|b bs IH]; intros [db ca]; cbn [fold_left unchecked_db unchecked_cache].
  - f_equal; symmetry; apply filter_all; intros x [_ Hn]; by apply not_elem_of_nil in Hn.
  - rewrite IH. cbn [unchecked_del unchecked_db unchecked_cache]. rewrite !list_filter_filter. f_equal; apply filter_ext_in;
      intros x _; cbn [fmap list_fmap]; rewrite elem_of_cons.
    + tauto.
    + destruct (block_eqb_spec (snd x) b); naive_solver.
Qed.

Lemma unchecked_del_got `{MultimapOrder} h u bs :
  unchecked_ok u -> unchecked_get h u = Ok (Some <$> bs) ->
  fold_left (fun u b => unchecked_del h b u) bs u = without h u
  /\ (total_held (without h u) + length bs = total_held u)%nat.
Proof.
  intros Hu Hg. destruct (unchecked_get_read u h Hu) as (st & He & Hst & Hok).
  rewrite He in Hg. injection Hg as Hg. apply (inj (fmap Some)) in Hg as <-.
  set (cs := snd <$> filter (fun e => fst e = h) (unchecked_cache u)) in *. split.
  - rewrite unchecked_del_all. unfold without. f_equal; apply filter_ext_in; intros [k x] Hin; cbn [fst snd].
    + rewrite fmap_app, elem_of_app, <- Hst, !list_elem_of_fmap. split; [|tauto].
      intros Hn ->. apply Hn. split; [done|]. right. exists (h, x). by rewrite list_elem_of_filter.
    + rewrite elem_of_app. split; [|tauto]. intros Hn ->. apply Hn. split; [done|]. left.
      apply (perm_in _ cs); [symmetry; apply equal_range_perm|]. apply list_elem_of_fmap. exists (h, x).
      by rewrite list_elem_of_filter.
  - unfold total_held, without. cbn [unchecked_db unchecked_cache].
    rewrite length_app, (Permutation_length (equal_range_perm cs)). apply (f_equal length) in Hst.
    rewrite !length_fmap in Hst. unfold cs. rewrite length_fmap, <- Hst.
    rewrite <- (length_filter_split (fun e => fst e = h) (unchecked_db u)),
      <- (length_filter_split (fun e => fst e = h) (unchecked_cache u)). lia.
Qed.

Lemma without_held h u k c : held (without h u) k c <-> held u k c /\ k <> h.
Proof. unfold held. cbn. rewrite !list_elem_of_filter. naive_solver. Qed.

Lemma without_ok h u : unchecked_ok u -> unchecked_ok (without h u).
Proof. intros [Hdb Hc]. split; cbn; intros k x [_ Hin]%list_elem_of_filter; eauto. Qed.

Lemma unchecked_put_ok h b u : block_ok b -> unchecked_ok u -> unchecked_ok (unchecked_put h b u).
Proof.
  intros Hb [Hdb Hc]. split; [exact Hdb|]. intros k c. cbn. rewrite elem_of_app, list_elem_of_singleton. naive_solver.
Qed.

Lemma flush_unchecked_ok u : unchecked_ok u -> unchecked_ok (flush_unchecked u).
Proof.
  intros [Hdb Hc]. split; [|by intros ? ? ?%not_elem_of_nil]. intros k x. cbn. rewrite elem_of_flush.
  intros [Hin|(j & c & Hin & [-> ->]%pair_equal_spec)]; eauto.
Qed.

Lemma length_dup_put e l : (length (dup_put e l) <= S (length l))%nat.
Proof. induction l as [|x l IH]; cbn; [lia|]. destruct (entry_compare e x); cbn; lia. Qed.

Lemma flush_unchecked_held_le u : (total_held (flush_unchecked u) <= total_held u)%nat.
Proof.
  unfold total_held. cbn [flush_unchecked unchecked_db unchecked_cache length]. generalize (unchecked_db u).
  induction (unchecked_cache u) as [|[h b] l IH]; intros db; cbn [fold_left length]; [lia|].
  pose proof (length_dup_put (h, serialize_block b) db). specialize (IH (dup_put (h, serialize_block b) db)).
  cbn [fst snd]. lia.
Qed.

(** The unchecked table holds what it was given.  On a well-formed table,
    cache and database together, [unchecked_get] returns, as readable blocks,
    exactly the blocks that wait for a hash; [unchecked_put] adds exactly its
    block, [unchecked_del] removes exactly its block, and [flush] moves the cache
    to the database without losing or adding one. *)
Theorem unchecked_exact `{MultimapOrder} (u : unchecked_store) (h : block_hash) (b : block) :
  unchecked_ok u -> block_ok b ->
  (exists bs, unchecked_get h u = Ok (Some <$> bs) /\ forall c, c ∈ bs <-> held u h c /\ block_ok c)
  /\ unchecked_ok (unchecked_put h b u)
  /\ (forall k c, held (unchecked_put h b u) k c <-> held u k c \/ k = h /\ c = b)
  /\ unchecked_ok (unchecked_del h b u)
  /\ (forall k c, block_ok c -> held (unchecked_del h b u) k c <-> held u k c /\ ~ (k = h /\ c = b))
  /\ unchecked_ok (flush_unchecked u)
  /\ (forall k c, block_ok c -> held (flush_unchecked u) k c <-> held u k c).
Proof.
  intros Hu Hb. split_and!.
  - by apply unchecked_get_held.
  - by apply unchecked_put_ok.
  - intros. apply unchecked_put_held.
  - destruct Hu as [Hdb Hc]. split; cbn; intros k x [_ Hin]%list_elem_of_filter; eauto.
  - intros k c Hok. by apply unchecked_del_held.
  - by apply flush_unchecked_ok.
  - intros k c Hok. split; [by apply flush_unchecked_held'|apply flush_unchecked_held].
Qed.

Definition sample_unchecked : unchecked_store :=
  UncheckedStore [(5, serialize_block sample_send)] [(5, sample_send); (7, sample_send_v2)].

#[local] Instance in_order : MultimapOrder := { equal_range l := l; equal_range_perm l := Permutation_refl l }.

Lemma unchecked_exact_witness :
  (exists bs, unchecked_get 5 sample_unchecked = Ok (Some <$> bs)
   /\ forall c, c ∈ bs <-> held sample_unchecked 5 c /\ block_ok c)
  /\ unchecked_ok (flush_unchecked sample_unchecked).
Proof.
  assert (Hs : block_ok sample_send) by (refine (bool_decide_unpack _ _); vm_compute; exact I).
  assert (Hs2 : block_ok sample_send_v2) by (refine (bool_decide_unpack _ _); vm_compute; exact I).
  assert (Hok : unchecked_ok sample_unchecked).
  { split; cbn [unchecked_db unchecked_cache sample_unchecked]; intros h x; rewrite ?elem_of_cons; intros Hin.
    - destruct Hin as [[= -> ->]|Hin]; [eauto|by apply not_elem_of_nil in Hin].
    - destruct Hin as [[= -> ->]|[[= -> ->]|Hin]]; [done|done|by apply not_elem_of_nil in Hin]. }
  destruct (unchecked_exact sample_unchecked 5 sample_send Hok Hs) as (H1 & _ & _ & _ & _ & H2 & _).
  split; [exact H1|exact H2].
Defined.
