(* ===== verification/Processor.v ===== *)
(** * The block processor and the gap cache (rai/node/node.cpp)

    What the node does with blocks that arrive: [block_processor] hands them to
    the ledger one after the other, puts a block that refers to one the ledger
    does not have into the unchecked table, and takes it out again when that
    block was accepted; [gap_cache] remembers such blocks and the votes for them.

    The thread of the block processor runs between other threads: adding a block
    to its queue, stopping it, flushing the store.  What each of them does
    between two acquisitions of the lock or of the write transaction is one
    event, and a run is any sequence of events.  The clock is read as often as
    the code reads it.  Logging is left out; what is told to observers and to the
    bootstrapper is recorded. *)
From Stdlib Require Import ZArith Lia List.
From stdpp Require Import prelude gmap.
From S2P Require Import Prelude Numbers Streams Blocks Store Ledger Votes Work Unchecked.

Local Open Scope m_scope.

Record gap_information := GapInformation { arrival : Z; gap_hash : block_hash; gap_votes : votes }.

(** The successive readings of the monotonic clock in milliseconds, the vote
    key no account has, the configured fraction, and the order in which the
    hash table of the gap cache is walked. *)
Class NodeEnvironment := {
  steady_clock : nat -> Z;
  not_an_account : account;
  bootstrap_fraction_numerator : Z;
  hash_order : list gap_information -> list gap_information;
  hash_order_perm l : hash_order l ≡ₚ l
}.

(** ** State *)

Inductive node_event :=
| Blocks_observed (b : block) (a : option account) (m : option amount)
| Balance_observed (a : option account) (is_pending : bool)
| Pending_account_indeterminate
| Process_fork (b : block)
| Bootstrap_scheduled (h : block_hash).

Record node := Node {
  n_store : store;
  n_unchecked : unchecked_store;
  n_gaps : list gap_information;   (* in the order of arrival *)
  n_readings : nat;                (* how often the clock was read *)
  n_events : list node_event
}.

Record block_processor_item := Item { item_block : block; force : bool }.

Section Node.
Context `{Environment, NodeEnvironment, Network, Iteration, MultimapOrder}.

Definition on_ledger {A} (m : M store A) : M node A := fun n =>
  match m (n_store n) with
  | Ok (a, s) => Ok (a, Node s (n_unchecked n) (n_gaps n) (n_readings n) (n_events n))
  | Fault f => Fault f
  end.

Definition on_unchecked (f : unchecked_store -> unchecked_store) : M node unit := fun n =>
  Ok (tt, Node (n_store n) (f (n_unchecked n)) (n_gaps n) (n_readings n) (n_events n)).

Definition on_gaps (f : list gap_information -> list gap_information) : M node unit := fun n =>
  Ok (tt, Node (n_store n) (n_unchecked n) (f (n_gaps n)) (n_readings n) (n_events n)).

Definition emit (e : list node_event) : M node unit := fun n =>
  Ok (tt, Node (n_store n) (n_unchecked n) (n_gaps n) (n_readings n) (n_events n ++ e)).

Definition steady_now : M node Z := fun n =>
  Ok (steady_clock (n_readings n),
      Node (n_store n) (n_unchecked n) (n_gaps n) (S (n_readings n)) (n_events n)).

(** ** The gap cache *)

Definition gap_cache_max : nat := 256.

(** Insertion by arrival, after the entries that arrived at the same time. *)
Fixpoint gap_insert (g : gap_information) (l : list gap_information) : list gap_information :=
  match l with
  | [] => [g]
  | x :: l => if arrival g <? arrival x then g :: x :: l else x :: gap_insert g l
  end.

Definition gap_find (h : block_hash) (l : list gap_information) : option gap_information :=
  find (fun g => gap_hash g =? h) l.

Definition gap_erase (h : block_hash) (l : list gap_information) : list gap_information :=
  filter (fun g => gap_hash g <> h) l.

(** [modify] on the index by arrival: the entry stays where it is as long as it
    is in order with its neighbours, and is inserted anew otherwise. *)
Fixpoint gap_touch (before : option gap_information) (now : Z) (h : block_hash) (l : list gap_information) :
    option (list gap_information) :=
  match l with
  | [] => None
  | x :: l =>
      if gap_hash x =? h then
        let above := match before with Some y => arrival y <=? now | None => true end in
        let below := match l with y :: _ => now <=? arrival y | [] => true end in
        if above && below then Some (GapInformation now (gap_hash x) (gap_votes x) :: l) else None
      else cons x <$> gap_touch (Some x) now h l
  end.

Definition gap_cache_add (b : block) : M node unit :=
  let h := hash b in
  existing <- st_get (fun n => gap_find h (n_gaps n));;
  now <- steady_now;;
  match existing with
  | Some info =>
      on_gaps (fun l =>
        match gap_touch None now h l with
        | Some l => l
        | None => gap_insert (GapInformation now (gap_hash info) (gap_votes info)) (gap_erase h l)
        end)
  | None =>
      on_gaps (fun l =>
        let l := gap_insert (GapInformation now h (votes_new not_an_account b)) l in
        if (gap_cache_max <? length l)%nat then tail l else l)
  end.

(** The order of the multiplication and the division is the code's. *)
Definition bootstrap_threshold (inactive_supply : Z) : M node Z :=
  supply_l <- on_ledger (st_run (supply inactive_supply));;
  st_ret (wrap 128 (supply_l / 256 * bootstrap_fraction_numerator)).

Definition gap_cache_vote (inactive_supply : Z) (v : vote) : M node unit :=
  let h := hash (v_block v) in
  existing <- st_get (fun n => gap_find h (n_gaps n));;
  match existing with
  | None => st_ret tt
  | Some info =>
      let votes_l := snd (votes_vote v (gap_votes info)) in
      on_gaps (fmap (fun g => if gap_hash g =? h then GapInformation (arrival g) (gap_hash g) votes_l else g)) ;;;
      winner_l <- st_get (fun n => winner (n_store n) votes_l);;
      threshold <- bootstrap_threshold inactive_supply;;
      match winner_l with
      | None => st_fault Assertion_failed
      | Some (weight_l, _) => if threshold <? weight_l then emit [Bootstrap_scheduled h] else st_ret tt
      end
  end.

(** Entries are taken from the front of the hash table, in whatever order that
    is, until one of them is recent. *)
Fixpoint purge_from (fuel : nat) (cutoff : Z) (l : list gap_information) : list gap_information :=
  match fuel, hash_order l with
  | S fuel, first :: _ =>
      if arrival first <? cutoff then purge_from fuel cutoff (gap_erase (gap_hash first) l) else l
  | _, _ => l
  end.

Definition purge_old : M node unit :=
  now <- steady_now;;
  on_gaps (fun l => purge_from (length l) (now - 10 * 1000) l).

(** ** Processing *)

Definition process_receive_one (b : block) : M node process_return :=
  result <- on_ledger (process b);;
  match code result with
  | gap_previous =>
      on_unchecked (unchecked_put (previous b) b) ;;; gap_cache_add b ;;; st_ret result
  | gap_source =>
      on_unchecked (unchecked_put (source b) b) ;;; gap_cache_add b ;;; st_ret result
  | old =>
      existing <- st_get (fun n => block_get (n_store n) (hash b));;
      match existing with
      | Some existing =>
          if work_value (root b) (block_work existing) <? work_value (root b) (block_work b) then
            successor_l <- st_get (fun n => block_successor (n_store n) (hash b));;
            on_ledger (block_put (hash b) b successor_l) ;;; st_ret result
          else st_ret result
      | None => st_ret result
      end
  | fork => emit [Process_fork b] ;;; st_ret result
  | progress | bad_signature | overspend | unreceivable | not_receive_from_send | account_mismatch
  | opened_burn_account => st_ret result
  end.

(** The blocks that waited for [h], taken out of the unchecked table; each is
    pushed to the front of the queue. *)
Fixpoint release (h : block_hash) (cached : list (option block)) (queue : list block_processor_item) :
    M node (list block_processor_item) :=
  match cached with
  | [] => st_ret queue
  | Some b :: cached =>
      on_unchecked (unchecked_del h b) ;;; release h cached (Item b false :: queue)
  | None :: _ => st_fault Indeterminate_value
  end.

(** What is told to observers about an accepted block.  The ledger does not set
    the pending account of a block that receives, and it is read all the same. *)
Definition notify_progress (i : block * process_return) : list node_event :=
  let r := snd i in
  Blocks_observed (fst i) (ret_account r) (ret_amount r) ::
  match ret_amount r with
  | Some m =>
      if 0 <? m then
        Balance_observed (ret_account r) false ::
        match ret_pending_account r with
        | Some a => if negb (is_zero a) then [Balance_observed (Some a) true] else []
        | None => [Pending_account_indeterminate]
        end
      else []
  | None => [Pending_account_indeterminate]
  end.

(** A block that won an election replaces the block at its place; [successor]
    does not return a null pointer. *)
Definition replace_forced (b : block) : M node unit :=
  successor_l <- on_ledger (successor (root b));;
  if negb (hash successor_l =? hash b) then on_ledger (rollback loop_fuel (hash successor_l)) else st_ret tt.

(** One turn of the inner loop of [process_receive_many], with the queue and the
    accepted blocks. *)
Definition process_item (item : block_processor_item) (blocks_processing : list block_processor_item)
    (progressed : list (block * process_return)) :
    M node (list block_processor_item * list (block * process_return)) :=
  let b := item_block item in
  (if force item then replace_forced b else st_ret tt) ;;;
  result <- process_receive_one b;;
  match code result with
  | progress | old =>
      cached <- st_run (fun n => unchecked_get (hash b) (n_unchecked n));;
      queue <- release (hash b) cached blocks_processing;;
      on_gaps (gap_erase (hash b)) ;;;
      st_ret (queue, if decide (code result = progress) then progressed ++ [(b, result)] else progressed)
  | _ => st_ret (blocks_processing, progressed)
  end.

(** The inner loop: one transaction, until its time is over. *)
Fixpoint process_batch (fuel : nat) (cutoff : Z) (blocks_processing : list block_processor_item)
    (progressed : list (block * process_return)) :
    M node (list block_processor_item * list (block * process_return)) :=
  match blocks_processing with
  | [] => st_ret ([], progressed)
  | item :: rest =>
      now <- steady_now;;
      if negb (now <? cutoff) then st_ret (blocks_processing, progressed) else
      match fuel with
      | O => st_fault Out_of_fuel
      | S fuel => r <- process_item item rest progressed;; process_batch fuel cutoff (fst r) (snd r)
      end
  end.

Definition transaction_timeout : Z := 1000.

(** One turn of the outer loop: a transaction, and what is told about it. *)
Definition process_transaction (fuel : nat) (blocks_processing : list block_processor_item) :
    M node (list block_processor_item) :=
  now <- steady_now;;
  r <- process_batch fuel (now + transaction_timeout) blocks_processing [];;
  emit (concat (notify_progress <$> snd r)) ;;;
  st_ret (fst r).

Fixpoint process_receive_many (fuel : nat) (blocks_processing : list block_processor_item) : M node unit :=
  match blocks_processing, fuel with
  | [], _ => st_ret tt
  | _ :: _, O => st_fault Out_of_fuel
  | _ :: _, S fuel' => rest <- process_transaction fuel blocks_processing;; process_receive_many fuel' rest
  end.

(** ** The thread of the block processor *)

Record block_processor := BlockProcessor {
  stopped : bool;
  idle : bool;
  blocks : list block_processor_item;
  waiting : bool;                           (* the thread waits for the condition *)
  processing : list block_processor_item;   (* what the thread took *)
  bp_node : node
}.

Definition block_processor_new (n : node) : block_processor := BlockProcessor false true [] false [] n.

Inductive event :=
| Add (item : block_processor_item)
| Stop
| Turn
| Flush_store.

Definition block_processor_add (item : block_processor_item) (p : block_processor) : block_processor :=
  BlockProcessor (stopped p) (idle p) (blocks p ++ [item]) (waiting p) (processing p) (bp_node p).

Definition block_processor_stop (p : block_processor) : block_processor :=
  BlockProcessor true (idle p) (blocks p) (waiting p) (processing p) (bp_node p).

(** What the thread does until it gives up the lock or ends a transaction; a
    thread that waits wakes up first.  A stopped thread ends the work it took. *)
Definition process_blocks (fuel : nat) (p : block_processor) : res block_processor :=
  match processing p with
  | _ :: _ =>
      match process_transaction fuel (processing p) (bp_node p) with
      | Ok (rest, n) => Ok (BlockProcessor (stopped p) (idle p) (blocks p) (waiting p) rest n)
      | Fault f => Fault f
      end
  | [] =>
      let idle_l := if waiting p then false else idle p in
      if stopped p then Ok (BlockProcessor true idle_l (blocks p) false [] (bp_node p)) else
      match blocks p with
      | _ :: _ => Ok (BlockProcessor false idle_l [] false (blocks p) (bp_node p))
      | [] => Ok (BlockProcessor false true [] true [] (bp_node p))
      end
  end.

(** When [flush] returns to its caller. *)
Definition block_processor_flushed (p : block_processor) : bool :=
  stopped p || (match blocks p with [] => true | _ => false end && idle p).

Definition flush_store (n : node) : node :=
  Node (n_store n) (flush_unchecked (n_unchecked n)) (n_gaps n) (n_readings n) (n_events n).

Definition handle_event (fuel : nat) (e : event) (p : block_processor) : res block_processor :=
  match e with
  | Add item => Ok (block_processor_add item p)
  | Stop => Ok (block_processor_stop p)
  | Turn => process_blocks fuel p
  | Flush_store =>
      Ok (BlockProcessor (stopped p) (idle p) (blocks p) (waiting p) (processing p) (flush_store (bp_node p)))
  end.

Fixpoint run_events (fuel : nat) (es : list event) (p : block_processor) : res block_processor :=
  match es with
  | [] => Ok p
  | e :: es => match handle_event fuel e p with Ok p => run_events fuel es p | Fault f => Fault f end
  end.

(** [n'] has the ledger and the unchecked blocks of [n]. *)
Definition same_tables (n n' : node) : Prop := n_store n' = n_store n /\ n_unchecked n' = n_unchecked n.

Lemma gap_cache_add_run b n : exists n', gap_cache_add b n = Ok (tt, n') /\ same_tables n n'.
Proof.
  unfold gap_cache_add, st_bind, st_get, steady_now, on_gaps. destruct (gap_find _ _); eexists; (split; [reflexivity|by split]).
Qed.

(** ** Waiting for the block processor *)

(** The flag [idle] is only set while the thread waits, with nothing taken. *)
Definition quiet (p : block_processor) : Prop :=
  (idle p = true -> waiting p = true) /\ (waiting p = true -> processing p = []).

Lemma handle_event_quiet fuel e p p' : quiet p -> handle_event fuel e p = Ok p' -> quiet p'.
Proof.
  intros [Hi Hw]. destruct e; cbn [handle_event]; [by intros [= <-]|by intros [= <-]| |by intros [= <-]].
  unfold process_blocks. destruct (processing p) as [|x l] eqn:Hp.
  - set (idle_l := if waiting p then false else idle p).
    assert (Hl : idle_l = true -> False).
    { unfold idle_l. destruct (waiting p); [done|]. by intros Hx%Hi. }
    destruct (stopped p); [|destruct (blocks p)]; intros [= <-]; by split.
  - destruct (process_transaction _ _ _) as [[rest n]|]; intros [= <-]. split; cbn; [done|].
    intros Hc. by specialize (Hw Hc).
Qed.

Lemma run_events_quiet fuel es p p' : quiet p -> run_events fuel es p = Ok p' -> quiet p'.
Proof.
  revert p. induction es as [|e es IH]; intros p Hq; cbn [run_events]; [by intros [= <-]|].
  destruct (handle_event fuel e p) as [p1|] eqn:He; [|done]. apply IH. by eapply handle_event_quiet.
Qed.

(** [flush] waits until all blocks are processed, but not at the start.  Once
    the thread has found its queue empty, then, whatever happens afterwards, when
    [flush] returns on a processor that is not stopped, no block is queued or being
    processed.  Before that the flag [idle] is set from the start: when a block is
    added before the thread looks at its queue for the first time, [flush] returns
    while the thread is processing the block. *)
Theorem flush_waits (fuel : nat) (n : node) (i : block_processor_item) (es : list event) :
  (forall p, run_events fuel (Turn :: es) (block_processor_new n) = Ok p ->
     block_processor_flushed p = true -> stopped p = false -> processing p = [] /\ blocks p = [])
  /\ exists q, run_events fuel [Add i; Turn] (block_processor_new n) = Ok q
     /\ block_processor_flushed q = true /\ processing q = [i].
Proof.
  split.
  - intros p Hr Hf Hs. change (run_events fuel es (BlockProcessor false true [] true [] n) = Ok p) in Hr.
    apply run_events_quiet in Hr as [Hi Hw]; [|by split].
    unfold block_processor_flushed in Hf. rewrite Hs in Hf. destruct (blocks p); [|done].
    split; [|done]. by apply Hw, Hi.
  - eexists. split; [reflexivity|]. by split.
Qed.
End Node.
