(* ===== verification/Forks.v ===== *)
(** * Forks and duplicates in the block processor

    What the block processor does when two blocks claim the same place: a block
    that won its election replaces the other one, with everything that was built
    on it; and a block that is known already replaces its own copy when it
    carries more work. *)
From Stdlib Require Import ZArith Lia List.
From stdpp Require Import prelude gmap.
From S2P Require Import Prelude Lists Numbers Streams Blocks Store Ledger StoreFacts LedgerInv LedgerQueries LedgerExtend LedgerShrink LedgerProcess LedgerRollback LedgerUndo LedgerUnique LedgerTheorems LedgerSub Votes Work Unchecked Processor.

(** The answers of a ledger that has no room for the block. *)
Definition displaced (c : process_result) : Prop := c = fork \/ c = old \/ c = gap_previous.

(** The place of [b] is free: its account is not open, or [b] comes right behind
    the head of a chain. *)
Definition place_free (s : store) (b : block) : Prop :=
  if is_open b then accounts s !! root b = None else exists pb, entry_at s (root b) = Some (pb, 0).

Ltac settle E :=
  lazymatch type of E with
  | (_ <- _ ;; _)%m _ = Ok _ => apply st_bind_inv in E as (? & ? & _ & E); settle E
  | st_ret _ _ = Ok _ =>
      apply (f_equal (fun x => match x with Ok (r, _) => code r | Fault _ => progress end)) in E;
      cbn [st_ret code failed] in E; rewrite <- E; intros [Hx|[Hx|Hx]]; discriminate Hx
  | st_fault _ _ = Ok _ => discriminate E
  | (if ?c then _ else _) _ = Ok _ => destruct c; settle E
  | match ?c with Some _ => _ | None => _ end _ = Ok _ => destruct c; settle E
  end.

Section Free.
Context `{Environment} {n : nat} {g : ghost} {s : store} (I : inv_with n g s).

Lemma free_place_answer b r s1 :
  match b with SendV2 _ => False | _ => True end -> entry_at s (hash b) = None -> place_free s b ->
  process b s = Ok (r, s1) -> ~ displaced (code r).
Proof.
  intros Hk Hn Hp E. pose proof (proj2 (block_exists_false _ _) Hn) as Hex. unfold place_free in Hp.
  assert (Hfr : is_open b = false -> block_exists s (root b) = true /\ is_zero (frontier_get s (root b)) = false
      /\ exists i, account_get s (frontier_get s (root b)) = Some i /\ head i = root b).
  { intros Ho. rewrite Ho in Hp. destruct Hp as (pb & Hp).
    rewrite (frontier_get_head I _ _ Hp). split_and!.
    - apply block_exists_true. by eexists.
    - apply is_zero_ne. exact (ei_own _ _ _ _ _ _ (inv_entry I _ _ _ Hp)).
    - destruct (ai_owner _ _ _ _ (iv_accounts _ _ _ I) _ _ _ Hp) as (i & Hi & _ & Hh). exists i. split; [exact Hi|auto]. }
  destruct b as [b|b|b|b|b]; [|destruct Hk|..]; cbn [is_open root] in Hp, Hfr; cbn [process] in E.
  - destruct (Hfr eq_refl) as (H1 & H2 & i & H3 & _). unfold process_send in E. cbv zeta in E.
    revert E. read_as Hex. read_as H1. read_as H2. intros E.
    destruct (validate_message _ _ _); settle E.
  - destruct (Hfr eq_refl) as (H1 & H2 & i & H3 & H4). unfold process_receive in E. cbv zeta in E.
    revert E. read_as Hex. read_step. destruct (block_exists s (rh_source (receive_h b))); [|cbn [negb]; intros E; settle E]. cbn [negb].
    read_as H2. destruct (validate_message _ _ _); [intros E; settle E|].
    read_as H3. change (default account_info_default (Some i)) with i. rewrite H4, Z.eqb_refl. cbn [negb]. intros E. settle E.
  - unfold process_open in E. cbv zeta in E. revert E. read_as Hex. read_step.
    destruct (block_exists s (oh_source (open_h b))); [|cbn [negb]; intros E; settle E]. cbn [negb].
    destruct (validate_message _ _ _); [intros E; settle E|].
    read_as (Hp : account_get s (oh_account (open_h b)) = None). intros E. settle E.
  - destruct (Hfr eq_refl) as (H1 & H2 & i & H3 & _). unfold process_change in E. cbv zeta in E.
    revert E. read_as Hex. read_as H1. read_as H2. intros E. settle E.
Qed.
End Free.

(** ** A block that won its election *)

(** The block [f] has the place of [b]. *)
Definition occupies (s : store) (f : block_hash) (b : block) : Prop :=
  if is_open b then exists i, account_get s (root b) = Some i /\ open_block_hash i = f
  else account_exists s (root b) = false /\ block_successor s (root b) = f /\ f <> 0.

Section Forced.
Context `{Environment, NodeEnvironment, Network, Iteration, MultimapOrder}.

Lemma occupant_found {n g s} (I : inv_with n g s) b f fb :
  (query_fuel n <= loop_fuel)%nat -> match b with SendV2 _ => False | _ => True end -> occupies s f b ->
  block_get s f = Some fb -> successor (root b) s = Ok (fb, s).
Proof.
  intros Hf Hk Hocc (m & Hfb)%get_entry. unfold occupies in Hocc. destruct (is_open b) eqn:Ho.
  - destruct Hocc as (i & Hi & <-). destruct (successor_open I _ _ Hi) as (ob & k & -> & Hob & _). congruence.
  - destruct Hocc as (Hna & Hsu & Hf0). rewrite block_successor_entry in Hsu.
    destruct (entry_at s (root b)) as [[pb m']|] eqn:Hp; [|by destruct Hf0].
    cbn [fmap option_fmap option_map snd from_option id] in Hsu. subst m'.
    destruct (successor_ok I _ _ _ Hf Hp Hna Hf0) as (b' & k & -> & Hb' & _). congruence.
Qed.

(** Rolling the occupant back frees the place. *)
Lemma occupant_gone {n g s n' g' s'} (I : inv_with n g s) (I' : inv_with n' g' s') b f fb :
  match b with SendV2 _ => False | _ => True end -> occupies s f b -> block_get s f = Some fb ->
  trimmed (grank g) (grank g f) s s' -> entry_at s' f = None -> place_free s' b.
Proof.
  intros Hk Hocc (m & Hfb)%get_entry [T1 T2] Hgone. unfold occupies in Hocc. unfold place_free.
  destruct (is_open b) eqn:Ho.
  - destruct Hocc as (i & Hi & Hof). destruct (accounts s' !! root b) as [i'|] eqn:Hi'; [|done]. exfalso.
    pose proof (inv_head I _ _ Hi) as [_ _ _ _ _ _ (ob & k & Hob & Hoa)].
    pose proof (inv_head I' _ _ Hi') as [_ _ _ _ _ _ (ob' & k' & Hob' & Hoa')].
    destruct (sub_entry T1 _ _ _ Hob') as (k2 & Hob2).
    pose proof (ei_block _ _ _ _ _ _ (inv_entry I _ _ _ Hob)) as (Q1 & _ & Q2 & _).
    pose proof (ei_block _ _ _ _ _ _ (inv_entry I _ _ _ Hob2)) as (Q1' & _ & Q2' & _).
    assert (open_block_hash i' = f) as Heq; [|congruence]. rewrite <- Hof.
    apply (ci_uniq _ _ _ (iv_chain _ _ _ I)); [by eexists|by eexists|congruence|congruence].
  - destruct Hocc as (_ & Hsu & Hf0). rewrite block_successor_entry in Hsu.
    destruct (entry_at s (root b)) as [[pb m']|] eqn:Hp; [|by destruct Hf0].
    cbn [fmap option_fmap option_map snd from_option id] in Hsu. subst m'.
    destruct (ei_succ _ _ _ _ _ _ (inv_entry I _ _ _ Hp)) as [|(sb & k & Hs & Hprev)]; [done|].
    assert (Hso : is_open sb = false).
    { destruct (is_open sb) eqn:Hso; [|done]. apply open_previous in Hso. rewrite <- Hprev, Hso, (zero_entry I) in Hp. done. }
    destruct (inv_previous I _ _ _ Hs Hso) as (_ & _ & _ & Hr). rewrite Hprev in Hr.
    assert (Hp' : block_get s' (root b) = Some pb) by (rewrite (T2 _ Hr); apply get_entry; by eexists).
    apply get_entry in Hp' as (m' & Hp'). exists pb. rewrite Hp'. do 2 f_equal.
    exact (sub_head I' I T1 _ _ _ _ Hp' Hp Hgone).
Qed.

(** A block that won its election gets its place.  On a reachable ledger in
    which another block, not the genesis block, has the place of the admissible
    block [b], processing [b] by force does not fail an assertion: the other block
    is gone afterwards, no block but [b] is new, and the ledger did not answer
    that [b] is a fork, is known already, or has no previous block; when it
    accepted [b], then [b] is in the ledger. *)
Theorem forced_block_replaces_fork (gb : open_block) (n : nat) (nd : node) (b fb : block) (f : block_hash) :
  reachable gb n (n_store nd) -> (query_fuel n <= loop_fuel)%nat -> (rollback_fuel (n_store nd) <= loop_fuel)%nat ->
  admissible b -> block_get (n_store nd) (hash b) = None ->
  occupies (n_store nd) f b -> f <> hash b -> block_get (n_store nd) f = Some fb -> ~ is_genesis fb ->
  exists r nd', (replace_forced b ;;; process_receive_one b)%m nd = Ok (r, nd')
  /\ ~ displaced (code r) /\ block_get (n_store nd') f = None
  /\ (forall x b', x <> hash b -> block_get (n_store nd') x = Some b' -> block_get (n_store nd) x = Some b')
  /\ (code r = progress -> block_get (n_store nd') (hash b) = Some b).
Proof.
  intros R Hf Hrf Ha Hnew Hocc Hne Hfb Hng. destruct (reachable_inv _ _ _ R Hf) as (g & I).
  assert (Hk : match b with SendV2 _ => False | _ => True end).
  { destruct b; [exact Logic.I|exact (proj2 (proj2 Ha))|exact Logic.I..]. }
  pose proof (occupant_found I b f fb Hf Hk Hocc Hfb) as Hsucc.
  apply get_entry in Hfb as Hfe. destruct Hfe as (m & Hfe). pose proof (ei_hash _ _ _ _ _ _ (inv_entry I _ _ _ Hfe)) as Hh.
  destruct (rollback_ok I f fb loop_fuel Hf Hfb Hng Hrf) as (g' & s' & Hroll & I' & T & Hgone).
  pose proof (occupant_gone I I' b f fb Hk Hocc Hfb T Hgone) as Hfree.
  assert (Hn' : entry_at s' (hash b) = None).
  { destruct (entry_at s' (hash b)) as [[b' k]|] eqn:Hx; [|done]. destruct (sub_entry (proj1 T) _ _ _ Hx) as (k' & Hx').
    rewrite (proj2 (get_entry _ _ _)) in Hnew by (by eexists). discriminate Hnew. }
  destruct (process_handled I' Hf b Ha) as (r & s2 & Hp & Hcase).
  pose proof (free_place_answer I' b r s2 Hk Hn' Hfree Hp) as Hans.
  set (nd1 := Node s' (n_unchecked nd) (n_gaps nd) (n_readings nd) (n_events nd)).
  assert (Hrep : replace_forced b nd = Ok (tt, nd1)).
  { unfold replace_forced. erewrite st_bind_ok by (unfold on_ledger; rewrite Hsucc; reflexivity).
    rewrite Hh, (proj2 (Z.eqb_neq _ _) Hne). cbn [negb]. unfold on_ledger. cbn [n_store]. by rewrite Hroll. }
  assert (Hone : exists nd', process_receive_one b nd1 = Ok (r, nd') /\ n_store nd' = s2).
  { unfold process_receive_one. erewrite st_bind_ok by (unfold on_ledger; cbn [n_store nd1]; rewrite Hp; reflexivity).
    destruct (code r) eqn:Hc; try (eexists; split; [reflexivity|reflexivity]).
    - destruct Hans. right. by left.
    - destruct Hans. right. by right.
    - read_step. match goal with |- context [(gap_cache_add b ;;; _)%m ?n1] =>
        destruct (gap_cache_add_run b n1) as (n2 & Hadd & Hs2 & _) end.
      exists n2. erewrite st_bind_ok by exact Hadd. split; [reflexivity|exact Hs2]. }
  destruct Hone as (nd' & Hone & <-). exists r, nd'. erewrite st_bind_ok by exact Hrep.
  assert (Hget : forall x b', x <> hash b -> block_get (n_store nd') x = Some b' -> block_get s' x = Some b').
  { intros x b' Hx Hb'. destruct Hcase as [(_ & Heq)|(_ & g2 & _ & _ & HE & _)]; [by rewrite Heq in Hb'|].
    apply get_entry in Hb' as (k & Hb'). destruct (grown_inv b _ _ _ HE Hb') as [[? _]|(k' & Hk')]; [done|].
    apply get_entry. by eexists. }
  split_and!; [exact Hone|exact Hans| | |].
  - destruct (block_get (n_store nd') f) as [b'|] eqn:Hx; [|done]. apply (Hget _ _ Hne), get_entry in Hx as (k & Hx). congruence.
  - intros x b' Hx Hb'. by apply (proj1 T), Hget.
  - intros Hc. destruct Hcase as [(Hx & _)|(_ & g2 & _ & _ & HE & _)]; [by destruct Hx|].
    apply get_entry. exists 0. rewrite HE. unfold ext_entries. by rewrite decide_True.
Qed.
End Forced.

(** ** A block that is known already *)

Section Known.
Context `{Environment, NodeEnvironment, Network, Iteration, MultimapOrder}.

Lemma block_put_known {n g s} (I : inv_with n g s) ob ob' m :
  entry_at s (hash (Open ob)) = Some (Open ob, m) ->
  exists s', block_put (hash (Open ob)) (Open ob') m s = Ok (tt, s')
  /\ forall x, entry_at s' x = if decide (x = hash (Open ob)) then Some (Open ob', m) else entry_at s x.
Proof.
  intros Hh. unfold block_put. read_step. rewrite st_assert_true.
  2:{ destruct (ei_succ _ _ _ _ _ _ (inv_entry I _ _ _ Hh)) as [->|(sb & k & Hs & _)]; [reflexivity|].
      apply orb_true_iff. right. apply block_exists_true. by eexists. }
  erewrite st_bind_ok by (apply block_put_raw_run; reflexivity). read_step. read_step.
  eexists. split; [reflexivity|]. intros x. apply put_entry_at; [apply I|].
  exact (writable_present s _ (Open ob) m (iv_disjoint _ _ _ I) (iv_typed _ _ _ I) Hh).
Qed.

(** A known block loses its signature.  On a reachable ledger, a copy of an
    open block that carries more work, and any signature whatsoever, is answered
    as old and all the same takes the place of the block in the store: the
    signature that was checked is overwritten by one that was not. *)
Theorem known_block_loses_its_signature (gb : open_block) (n : nat) (nd : node) (ob : open_block) (sig : signature) (work : Z) :
  reachable gb n (n_store nd) -> (query_fuel n <= loop_fuel)%nat ->
  block_get (n_store nd) (hash (Open ob)) = Some (Open ob) ->
  work_value (root (Open ob)) (open_work ob) < work_value (root (Open ob)) work ->
  let copy := Open (OpenBlock (open_h ob) sig work) in
  exists nd', process_receive_one copy nd = Ok (failed old, nd')
  /\ block_get (n_store nd') (hash (Open ob)) = Some copy
  /\ forall x, x <> hash (Open ob) -> block_get (n_store nd') x = block_get (n_store nd) x.
Proof.
  intros R Hf Hb Hw copy. destruct (reachable_inv _ _ _ R Hf) as (g & I). apply get_entry in Hb as Hbe.
  destruct Hbe as (m & Hbe). assert (Hh : hash copy = hash (Open ob)).
  { apply hash_concat. reflexivity. }
  assert (Hold : process copy (n_store nd) = Ok (failed old, n_store nd)).
  { cbn [process copy]. unfold process_open. cbv zeta.
    assert (Hex : block_exists (n_store nd) (hash copy) = true) by (rewrite Hh; apply block_exists_true; by eexists).
    unfold copy in Hex. by read_as Hex. }
  destruct (block_put_known I ob (OpenBlock (open_h ob) sig work) m Hbe) as (s' & Hput & HE).
  fold copy in Hput, HE.
  exists (Node s' (n_unchecked nd) (n_gaps nd) (n_readings nd) (n_events nd)). split_and!.
  - unfold process_receive_one. erewrite st_bind_ok by (unfold on_ledger; rewrite Hold; reflexivity).
    cbn [code failed]. read_step. cbn [n_store]. rewrite Hh, Hb.
    assert (Hlt : (work_value (root copy) (block_work (Open ob)) <? work_value (root copy) (block_work copy)) = true)
      by (apply Z.ltb_lt; exact Hw).
    rewrite Hlt. read_step. cbn [n_store].
    rewrite block_successor_entry, Hbe. cbn [fmap option_fmap option_map snd from_option id].
    unfold st_bind, on_ledger. cbn [n_store]. by rewrite Hput.
  - rewrite block_get_entry. cbn [n_store]. rewrite HE, decide_True by reflexivity. reflexivity.
  - intros x Hx. rewrite !block_get_entry. cbn [n_store]. rewrite HE, decide_False by exact Hx. reflexivity.
Qed.
End Known.
