(* ===== verification/GapCache.v ===== *)
(** * The gap cache

    The bounded cache of blocks that refer to unknown ones: it keeps at most 256
    entries, one per hash and in the order of arrival; the oldest entry makes
    room for a new one. *)
From Stdlib Require Import ZArith Lia List Sorted.
From stdpp Require Import prelude list.
From S2P Require Import Prelude Lists Numbers Streams Blocks Store Ledger Votes Work Unchecked Processor.

Definition arrives_before (a b : gap_information) : Prop := arrival a <= arrival b.

Record gaps_ok (l : list gap_information) : Prop := {
  go_unique : NoDup (gap_hash <$> l);
  go_sorted : StronglySorted arrives_before l;
  go_bounded : (length l <= gap_cache_max)%nat
}.

(** ** Lists in the order of arrival *)

Lemma gap_insert_elem x g l : x ∈ gap_insert g l <-> x = g \/ x ∈ l.
Proof.
  induction l as [|y l IH]; cbn; [rewrite list_elem_of_singleton; set_solver|].
  destruct (arrival g <? arrival y); rewrite !elem_of_cons, ?IH; set_solver.
Qed.

Lemma length_gap_insert g l : length (gap_insert g l) = S (length l).
Proof. induction l as [|y l IH]; cbn; [done|]. destruct (arrival g <? arrival y); cbn; lia. Qed.

Lemma gap_insert_sorted g l : StronglySorted arrives_before l -> StronglySorted arrives_before (gap_insert g l).
Proof.
  induction 1 as [|y l Hl IH Hy]; cbn; [by repeat constructor|].
  destruct (Z.ltb_spec (arrival g) (arrival y)) as [Hlt|Hge].
  - constructor; [by constructor|]. constructor; [unfold arrives_before; lia|].
    eapply List.Forall_impl; [|exact Hy]. unfold arrives_before. lia.
  - constructor; [done|]. apply Forall_forall. intros x [->|Hx]%gap_insert_elem; [exact Hge|].
    exact (proj1 (Forall_forall _ _) Hy x Hx).
Qed.

Lemma gap_insert_unique g l :
  NoDup (gap_hash <$> l) -> gap_hash g ∉ gap_hash <$> l -> NoDup (gap_hash <$> gap_insert g l).
Proof.
  induction l as [|y l IH]; cbn [gap_insert fmap list_fmap]; intros Hu Hg; [by apply NoDup_singleton|].
  apply NoDup_cons in Hu as [Hy Hu]. rewrite elem_of_cons in Hg.
  destruct (arrival g <? arrival y); cbn [fmap list_fmap]; apply NoDup_cons.
  - split; [by rewrite elem_of_cons|]. by apply NoDup_cons.
  - split; [|apply IH; tauto]. rewrite list_elem_of_fmap. intros (x & Hx & [->|Hin]%gap_insert_elem); [naive_solver|].
    apply Hy, list_elem_of_fmap. eauto.
Qed.

Lemma gap_insert_last g l :
  (forall x, x ∈ l -> arrival x <= arrival g) -> gap_insert g l = l ++ [g].
Proof.
  induction l as [|y l IH]; cbn; intros Hl; [done|]. rewrite (proj2 (Z.ltb_ge _ _)); [|apply Hl; left].
  rewrite IH; [done|]. intros x Hx. apply Hl. by right.
Qed.

Lemma sorted_filter (P : gap_information -> Prop) `{forall x, Decision (P x)} l :
  StronglySorted arrives_before l -> StronglySorted arrives_before (filter P l).
Proof.
  induction 1 as [|x l Hl IH Hx]; [constructor|]. rewrite filter_cons. destruct (decide (P x)); [|done].
  constructor; [done|]. apply Forall_forall. intros y [_ Hy]%list_elem_of_filter. exact (proj1 (Forall_forall _ _) Hx y Hy).
Qed.

Lemma gap_erase_elem x h l : x ∈ gap_erase h l <-> x ∈ l /\ gap_hash x <> h.
Proof. unfold gap_erase. rewrite list_elem_of_filter. tauto. Qed.

Lemma unique_filter (P : gap_information -> Prop) `{forall x, Decision (P x)} l :
  NoDup (gap_hash <$> l) -> NoDup (gap_hash <$> filter P l).
Proof.
  induction l as [|x l IH]; cbn [fmap list_fmap]; [done|]. intros [Hx Hu]%NoDup_cons. rewrite filter_cons.
  destruct (decide (P x)); [|by apply IH]. cbn [fmap list_fmap]. apply NoDup_cons. split; [|by apply IH].
  rewrite list_elem_of_fmap. intros (y & Hy & [_ Hin]%list_elem_of_filter). apply Hx, list_elem_of_fmap. eauto.
Qed.

Lemma gap_erase_ok h l : gaps_ok l -> gaps_ok (gap_erase h l).
Proof.
  intros [Hu Hs Hb]. split; [by apply unique_filter|by apply sorted_filter|].
  unfold gap_erase. pose proof (length_filter_split (fun g => gap_hash g = h) l). lia.
Qed.

Lemma gap_find_none h l : gap_find h l = None <-> h ∉ gap_hash <$> l.
Proof.
  unfold gap_find. induction l as [|x l IH]; cbn; [split; [by intros _ ?%not_elem_of_nil|done]|].
  rewrite elem_of_cons. destruct (Z.eqb_spec (gap_hash x) h) as [<-|Hn]; [|rewrite IH]; naive_solver.
Qed.

Lemma gap_find_some h l g : gap_find h l = Some g -> g ∈ l /\ gap_hash g = h.
Proof.
  unfold gap_find. induction l as [|x l IH]; cbn; [done|]. destruct (Z.eqb_spec (gap_hash x) h) as [<-|Hn].
  - intros [= ->]. split; [left|done].
  - intros Hf%IH. split; [by right; apply Hf|apply Hf].
Qed.

Lemma gap_unique l x y : NoDup (gap_hash <$> l) -> x ∈ l -> y ∈ l -> gap_hash x = gap_hash y -> x = y.
Proof.
  induction l as [|z l IH]; cbn [fmap list_fmap]; [by intros _ ?%not_elem_of_nil|].
  intros [Hz Hu]%NoDup_cons. rewrite !elem_of_cons. intros [->|Hx] [->|Hy] He; [done| | |by apply IH].
  - destruct Hz. apply list_elem_of_fmap. eauto.
  - destruct Hz. apply list_elem_of_fmap. eauto.
Qed.

(** What [modify] leaves when it keeps the entry in its place. *)
Lemma gap_touch_spec before now h l l' :
  NoDup (gap_hash <$> l) -> StronglySorted arrives_before l ->
  (forall y, before = Some y -> Forall (arrives_before y) l) ->
  gap_touch before now h l = Some l' ->
  exists info, info ∈ l /\ gap_hash info = h /\ gap_hash <$> l' = gap_hash <$> l
  /\ StronglySorted arrives_before l' /\ (forall y, before = Some y -> Forall (arrives_before y) l')
  /\ forall x, x ∈ l' <-> x = GapInformation now h (gap_votes info) \/ x ∈ gap_erase h l.
Proof.
  revert before l'. induction l as [|x l IH]; intros before l' Hu Hs Hb; cbn [gap_touch]; [done|].
  cbn [fmap list_fmap] in Hu. apply NoDup_cons in Hu as [Hx Hu]. inversion_clear Hs as [|? ? Hs' Hxl].
  destruct (Z.eqb_spec (gap_hash x) h) as [<-|Hne].
  - intros Ht. destruct (_ && _) eqn:Hc; [injection Ht as <-|discriminate Ht].
    apply andb_true_iff in Hc as [Ha Hbl]. exists x.
    assert (Hall : Forall (fun z => now <= arrival z) l).
    { destruct l as [|y l]; [constructor|]. apply Z.leb_le in Hbl. inversion_clear Hs' as [|? ? _ Hy].
      constructor; [exact Hbl|]. eapply List.Forall_impl; [|exact Hy]. unfold arrives_before. lia. }
    split_and!; [left|done|done|by constructor| |].
    + intros y ->. constructor; [by apply Z.leb_le in Ha|].
      specialize (Hb y eq_refl). by inversion_clear Hb.
    + intros z. rewrite elem_of_cons, gap_erase_elem, elem_of_cons. split; [|naive_solver].
      intros [->|Hz]; [by left|right]. split; [by right|]. intros Hh. apply Hx, list_elem_of_fmap. by eexists.
  - destruct (gap_touch (Some x) now h l) as [l1|] eqn:Ht; [|done]. intros [= <-].
    destruct (IH (Some x) l1 Hu Hs' ltac:(by intros y [= <-]) Ht) as (info & Hin & Hh & Hhash & Hs1 & Hb1 & Hel).
    exists info. split_and!; [by right|done|cbn [fmap list_fmap]; by f_equal|constructor; [done|by apply Hb1]| |].
    + intros y Hy. specialize (Hb y Hy). inversion_clear Hb as [|? ? Hyx Hyl]. constructor; [done|].
      specialize (Hb1 x eq_refl). eapply List.Forall_impl; [|exact Hb1]. unfold arrives_before in *. lia.
    + intros z. rewrite elem_of_cons, Hel, !gap_erase_elem, elem_of_cons. naive_solver.
Qed.

Section Add.
Context `{Environment, NodeEnvironment, Network, Iteration, MultimapOrder}.
Implicit Types (n : node) (b : block).

(** The entries after [add] of a block that is known. *)
Lemma gap_renew_ok now h l info :
  gaps_ok l -> gap_find h l = Some info ->
  let l' := match gap_touch None now h l with
            | Some l => l
            | None => gap_insert (GapInformation now (gap_hash info) (gap_votes info)) (gap_erase h l)
            end in
  gaps_ok l' /\ forall x, x ∈ l' <-> x = GapInformation now h (gap_votes info) \/ x ∈ gap_erase h l.
Proof.
  intros G Hf. pose proof G as [Hu Hs Hb]. destruct (gap_find_some _ _ _ Hf) as [Hin <-]. cbv zeta.
  destruct (gap_touch None now (gap_hash info) l) as [l'|] eqn:Ht.
  - destruct (gap_touch_spec None _ _ _ _ Hu Hs (fun y Hy => False_ind _ ltac:(discriminate Hy)) Ht) as (i & Hi & Hh & Hhash & Hs' & _ & Hel).
    assert (i = info) as -> by (by apply (gap_unique l)). split; [|exact Hel].
    split; [by rewrite Hhash|done|]. apply (f_equal length) in Hhash. rewrite !length_fmap in Hhash. lia.
  - destruct (gap_erase_ok (gap_hash info) l G) as [Hu' Hs' _]. split.
    + split; [|by apply gap_insert_sorted|].
      * apply gap_insert_unique; [done|]. rewrite list_elem_of_fmap. intros (x & Hx & [_ Hn]%gap_erase_elem).
        cbn [gap_hash] in Hx. congruence.
      * rewrite length_gap_insert. unfold gap_erase.
        pose proof (length_filter_split (fun g => gap_hash g = gap_hash info) l) as Hsplit.
        enough (0 < length (filter (fun g => gap_hash g = gap_hash info) l))%nat by lia.
        assert (Hm : info ∈ filter (fun g => gap_hash g = gap_hash info) l) by (by apply list_elem_of_filter).
        destruct (nil_or_length_pos (filter (fun g => gap_hash g = gap_hash info) l)) as [He|]; [|lia].
        rewrite He in Hm. by apply not_elem_of_nil in Hm.
    + intros x. apply gap_insert_elem.
Qed.

(** The gap cache is bounded, in order, and keeps what is new.  On a
    well-formed cache whose entries arrived before now, [add] does not fail; the
    cache stays well formed (at most 256 entries, one per hash, in the order of
    arrival).  A block that is in it only gets a new time of arrival and keeps
    its votes; a new block comes last, and when the cache is full the oldest entry
    and no other makes room.  The ledger and the unchecked table stay. *)
Theorem gap_cache_add_exact (n : node) (b : block) :
  gaps_ok (n_gaps n) -> (forall g, g ∈ n_gaps n -> arrival g <= steady_clock (n_readings n)) ->
  let now := steady_clock (n_readings n) in
  exists n', gap_cache_add b n = Ok (tt, n') /\ gaps_ok (n_gaps n')
  /\ n_store n' = n_store n /\ n_unchecked n' = n_unchecked n
  /\ match gap_find (hash b) (n_gaps n) with
     | Some info => forall g, g ∈ n_gaps n' <->
         g = GapInformation now (hash b) (gap_votes info) \/ g ∈ n_gaps n /\ gap_hash g <> hash b
     | None => n_gaps n' = (if (length (n_gaps n) <? gap_cache_max)%nat then n_gaps n else tail (n_gaps n))
                           ++ [GapInformation now (hash b) (votes_new not_an_account b)]
     end.
Proof.
  intros G Hall now. unfold gap_cache_add. unfold st_bind, st_get, steady_now, on_gaps. cbn [n_gaps].
  destruct (gap_find (hash b) (n_gaps n)) as [info|] eqn:Hf.
  - eexists. split; [reflexivity|]. cbn [n_gaps n_store n_unchecked]. fold now.
    destruct (gap_renew_ok now _ _ _ G Hf) as [G' Hel]. split_and!; [exact G'|done|done|].
    intros g. rewrite Hel, gap_erase_elem. done.
  - eexists. split; [reflexivity|]. cbn [n_gaps n_store n_unchecked]. fold now.
    set (g := GapInformation now (hash b) (votes_new not_an_account b)).
    apply gap_find_none in Hf. pose proof G as [Hu Hs Hb].
    assert (Hins : gap_insert g (n_gaps n) = n_gaps n ++ [g]) by (by apply gap_insert_last).
    pose proof (gap_insert_sorted g _ Hs) as Hs'. pose proof (gap_insert_unique g _ Hu Hf) as Hu'.
    pose proof (length_gap_insert g (n_gaps n)) as Hlen. rewrite Hins in *. rewrite Hlen. unfold gap_cache_max in *.
    destruct (Nat.ltb_spec 256 (S (length (n_gaps n)))), (Nat.ltb_spec (length (n_gaps n)) 256); [lia| | |lia].
    + destruct (n_gaps n) as [|x l] eqn:Hl; [cbn [length] in *; lia|].
      cbn [app tail fmap list_fmap] in *. split_and!; [|done|done|done].
      split; [by apply NoDup_cons in Hu' as [_ Hu']|by inversion_clear Hs'|]. unfold gap_cache_max. cbn [length] in *. lia.
    + split_and!; [|done|done|done]. split; [done|done|]. unfold gap_cache_max. lia.
Qed.
End Add.

(** ** Purging *)

Section Purge.
Context `{Environment, NodeEnvironment, Network, Iteration, MultimapOrder}.

Lemma hash_order_elem x l : x ∈ hash_order l <-> x ∈ l.
Proof. split; apply perm_in; [|symmetry]; apply hash_order_perm. Qed.

Lemma purge_from_spec fuel cutoff l :
  gaps_ok l -> (length l <= fuel)%nat ->
  let l' := purge_from fuel cutoff l in
  gaps_ok l' /\ (forall g, g ∈ l' -> g ∈ l) /\ (forall g, g ∈ l -> g ∉ l' -> arrival g < cutoff)
  /\ (l' = [] \/ exists g r, hash_order l' = g :: r /\ cutoff <= arrival g).
Proof.
  revert l. induction fuel as [|fuel IH]; intros l G Hf; cbn [purge_from]; cbv zeta.
  - destruct l as [|x l]; [|cbn [length] in Hf; lia]. split_and!; [done|done|done|by left].
  - destruct (hash_order l) as [|first r] eqn:Ho.
    { assert (l = []) as ->.
      { destruct l as [|x l]; [done|]. assert (Hx : x ∈ hash_order (x :: l)) by (apply hash_order_elem; left).
        rewrite Ho in Hx. by apply not_elem_of_nil in Hx. }
      split_and!; [done|done|done|by left]. }
    assert (Hin : first ∈ l) by (apply hash_order_elem; rewrite Ho; left).
    destruct (Z.ltb_spec (arrival first) cutoff) as [Hlt|Hge].
    + destruct (IH (gap_erase (gap_hash first) l)) as (G' & Hsub & Hrem & Hend).
      * by apply gap_erase_ok.
      * unfold gap_erase. pose proof (length_filter_split (fun g => gap_hash g = gap_hash first) l) as Hs.
        assert (Hm : first ∈ filter (fun g => gap_hash g = gap_hash first) l) by (by apply list_elem_of_filter).
        destruct (nil_or_length_pos (filter (fun g => gap_hash g = gap_hash first) l)) as [He|]; [|lia].
        rewrite He in Hm. by apply not_elem_of_nil in Hm.
      * split_and!; [done| | |done].
        -- intros g Hg%Hsub%gap_erase_elem. tauto.
        -- intros g Hg Hn. destruct (decide (gap_hash g = gap_hash first)) as [He|He].
           ++ by rewrite (gap_unique l g first (go_unique _ G) Hg Hin He).
           ++ apply Hrem; [by apply gap_erase_elem|done].
    + split_and!; [done|done|done|]. right. eauto.
Qed.

(** Purging removes nothing that is recent, and stops early.  On a well-formed
    cache [purge_old] does not fail, keeps the cache well formed, and removes only
    entries that arrived more than ten seconds ago; it stops at the first recent
    entry in the order of the hash table, so that nothing is removed at all, how
    old the others may be, when that is the first one. *)
Theorem purge_old_exact (n : node) :
  gaps_ok (n_gaps n) ->
  let cutoff := steady_clock (n_readings n) - 10000 in
  exists n', purge_old n = Ok (tt, n') /\ gaps_ok (n_gaps n')
  /\ (forall g, g ∈ n_gaps n' -> g ∈ n_gaps n)
  /\ (forall g, g ∈ n_gaps n -> g ∉ n_gaps n' -> arrival g < cutoff)
  /\ (n_gaps n' = [] \/ exists g r, hash_order (n_gaps n') = g :: r /\ cutoff <= arrival g)
  /\ (forall g r, hash_order (n_gaps n) = g :: r -> cutoff <= arrival g -> n_gaps n' = n_gaps n).
Proof.
  intros G cutoff. destruct (purge_from_spec (length (n_gaps n)) cutoff (n_gaps n) G ltac:(lia)) as (G1 & P1 & P2 & P3).
  eexists. split; [reflexivity|]. cbn [n_gaps]. change (10 * 1000) with 10000. fold cutoff. split_and!; [done..|].
  intros g r Ho Hg. destruct (length (n_gaps n)); cbn [purge_from]; [done|]. rewrite Ho.
  by rewrite (proj2 (Z.ltb_ge _ _) Hg).
Qed.
End Purge.
