(* ===== verification/Convergence.v ===== *)
(** * Blocks may arrive in any order

    Nodes learn blocks in different orders.  The block processor keeps a block
    that comes too early until the block it refers to is accepted; this file
    shows that in the end the order does not matter: when all blocks of some
    ledger [t] were added to the queue, in whatever order, how often, and with
    whatever the other threads do in between, the thread comes to rest with a
    ledger that is equal to [t], and no block is left in the unchecked table. *)
From Stdlib Require Import ZArith Lia List.
From stdpp Require Import prelude gmap.
From S2P Require Import Prelude Lists Numbers Streams Blocks Store Ledger StoreFacts LedgerInv LedgerQueries LedgerExtend LedgerShrink LedgerProcess LedgerRollback LedgerUndo LedgerUnique LedgerTheorems LedgerSub Votes Work Unchecked Processor.

(** ** The steps of the processor *)

Lemma process_old `{Environment} s b :
  match b with SendV2 _ => False | _ => True end -> block_exists s (hash b) = true -> process b s = Ok (failed old, s).
Proof.
  intros Hk Hex. destruct b as [b|b|b|b|b]; [|destruct Hk|..]; cbn [process];
    [unfold process_send|unfold process_receive|unfold process_open|unfold process_change]; cbv zeta; by read_as Hex.
Qed.

(** How many blocks are added in a run. *)
Fixpoint adds (es : list event) : nat :=
  match es with [] => 0 | Add _ :: es => S (adds es) | _ :: es => adds es end.

Section Steps.
Context `{Environment, NodeEnvironment, Network, Iteration, MultimapOrder}.

Definition set_tables (s : store) (u : unchecked_store) (n : node) : node :=
  Node s u (n_gaps n) (n_readings n) (n_events n).

Lemma release_run h bs queue n :
  release h (Some <$> bs) queue n
  = Ok (rev (flip Item false <$> bs) ++ queue,
        set_tables (n_store n) (fold_left (fun u b => unchecked_del h b u) bs (n_unchecked n)) n).
Proof.
  revert queue n. induction bs as [|b bs IH]; intros queue n; cbn [release fmap list_fmap fold_left rev app].
  - by destruct n.
  - read_step. rewrite IH. cbn [n_store n_unchecked]. unfold set_tables. cbn [n_gaps n_readings n_events].
    rewrite <- app_assoc. done.
Qed.

Lemma process_item_gap b queue progressed n r k :
  process b (n_store n) = Ok (r, n_store n) ->
  code r = gap_previous /\ k = previous b \/ code r = gap_source /\ k = source b ->
  exists n', process_item (Item b false) queue progressed n = Ok ((queue, progressed), n')
  /\ n_store n' = n_store n /\ n_unchecked n' = unchecked_put k b (n_unchecked n).
Proof.
  intros Hp Hk. unfold process_item. cbn [item_block force]. read_step.
  assert (He : exists n', process_receive_one b n = Ok (r, n')
      /\ n_store n' = n_store n /\ n_unchecked n' = unchecked_put k b (n_unchecked n)).
  { unfold process_receive_one. erewrite st_bind_ok by (unfold on_ledger; rewrite Hp; reflexivity).
    destruct Hk as [[-> ->]|[-> ->]]; read_step;
      (match goal with |- context [(gap_cache_add b ;;; _)%m ?n1] => destruct (gap_cache_add_run b n1) as (n' & Ha & Hs & Hu) end;
       exists n'; erewrite st_bind_ok by exact Ha; split_and!; [reflexivity|exact Hs|exact Hu]). }
  destruct He as (n' & He & Hs & Hu). exists n'. erewrite st_bind_ok by exact He.
  destruct Hk as [[-> _]|[-> _]]; split_and!; [reflexivity|exact Hs|exact Hu|reflexivity|exact Hs|exact Hu].
Qed.

Lemma process_item_done b queue progressed n r s' bs :
  process b (n_store n) = Ok (r, s') -> unchecked_ok (n_unchecked n) ->
  code r = progress \/ code r = old /\ block_get s' (hash b) = Some b ->
  unchecked_get (hash b) (n_unchecked n) = Ok (Some <$> bs) ->
  exists progressed' n', process_item (Item b false) queue progressed n
    = Ok ((rev (flip Item false <$> bs) ++ queue, progressed'), n')
  /\ n_store n' = s' /\ n_unchecked n' = without (hash b) (n_unchecked n).
Proof.
  intros Hp Hu Hc Hg. destruct (unchecked_del_got _ _ _ Hu Hg) as [Hdel _].
  assert (He : process_receive_one b n = Ok (r, set_tables s' (n_unchecked n) n)).
  { unfold process_receive_one. erewrite st_bind_ok by (unfold on_ledger; rewrite Hp; reflexivity).
    destruct Hc as [->|[-> Hb]]; [reflexivity|]. read_step. cbn [n_store]. rewrite Hb. by rewrite Z.ltb_irrefl. }
  unfold process_item. cbn [item_block force]. read_step. erewrite st_bind_ok by exact He.
  destruct Hc as [->|[-> _]]; eexists _, _; (erewrite st_bind_ok by (unfold st_run; cbn [n_unchecked set_tables]; rewrite Hg; reflexivity));
    (erewrite st_bind_ok by apply release_run); read_step; cbn [n_unchecked set_tables n_store]; rewrite Hdel;
    (split_and!; [reflexivity..]).
Qed.
End Steps.

(** ** The invariant *)

Section Converging.
Context `{Environment, NodeEnvironment, Network, Iteration, MultimapOrder}.
Context {nt : nat} {g' : ghost} {t : store} (J : inv_with nt g' t) (Hsigned : signed g' t).
Context (Hfuel : (query_fuel (S (size (all_hashes t))) <= loop_fuel)%nat).

(** A block of [t]. *)
Definition wanted (b : block) : Prop := admissible b /\ block_get t (hash b) = Some b.

Record ledger_part (s : store) : Prop := {
  lp_inv : exists g, inv_with (size (all_hashes s)) g s;
  lp_sub : forall x b, block_get s x = Some b -> block_get t x = Some b;
  lp_genesis : forall h b m, entry_at t h = Some (b, m) -> is_genesis b -> is_Some (entry_at s h)
}.

(** The node is on its way to [t]: its ledger is a part of [t], and what is in
    the queue or held back is in [t]; what is held back waits for a block of [t]
    that the ledger does not have.  At most [N] blocks are on their way. *)
Record converging (N : nat) (queue : list block_processor_item) (n : node) : Prop := {
  cv_ledger : ledger_part (n_store n);
  cv_queue : forall i, i ∈ queue -> force i = false /\ wanted (item_block i);
  cv_ok : unchecked_ok (n_unchecked n);
  cv_held : forall k b, block_ok b -> held (n_unchecked n) k b -> wanted b /\ lacks (g' := g') (s := n_store n) (t := t) b k;
  cv_count : (total_held (n_unchecked n) + length queue <= N)%nat
}.

(** Where a block is that was added. *)
Definition present (queue : list block_processor_item) (n : node) (b : block) : Prop :=
  is_Some (entry_at (n_store n) (hash b)) \/ b ∈ (item_block <$> queue) \/ exists k, held (n_unchecked n) k b.

Definition missing (s : store) : nat := (size (all_hashes t) - size (all_hashes s))%nat.
Definition distance (K : nat) (queue : list block_processor_item) (n : node) : nat :=
  (missing (n_store n) * S K + length queue)%nat.

Lemma part_size s : ledger_part s -> (size (all_hashes s) <= size (all_hashes t))%nat.
Proof.
  intros [_ Hsub _]. apply subseteq_size. intros x Hx. apply elem_of_all_hashes in Hx as [[b m] Hx].
  apply elem_of_all_hashes. destruct (sub_entry Hsub _ _ _ Hx) as (m' & ->). by eexists.
Qed.

Lemma grown_size {s s' : store} b :
  entry_at s (hash b) = None -> (forall x, entry_at s' x = ext_entries (entry_at s) b x) ->
  size (all_hashes s') = S (size (all_hashes s)).
Proof.
  intros Hf HE. assert (all_hashes s' = {[hash b]} ∪ all_hashes s) as ->.
  { apply set_eq. intros x. rewrite elem_of_union, elem_of_singleton, !elem_of_all_hashes, HE. unfold ext_entries.
    case_decide as Hx; [split; [by left|by eexists]|]. destruct (entry_at s x) as [[bx m]|].
    - split; [by right|by eexists].
    - split; [by intros [? [=]]|]. intros [Hc|[? [=]]]. by destruct Hx. }
  rewrite size_union, size_singleton; [done|]. intros x Hx Hin. apply elem_of_singleton in Hx as ->.
  apply elem_of_all_hashes in Hin. rewrite Hf in Hin. by destruct Hin.
Qed.

(** A block of [t] that is accepted leads to a larger part of [t]. *)
Lemma part_grows s b r s' :
  ledger_part s -> wanted b -> entry_at s (hash b) = None -> process b s = Ok (r, s') -> code r = progress ->
  ledger_part s' /\ size (all_hashes s') = S (size (all_hashes s))
  /\ (forall x, is_Some (entry_at s' x) <-> x = hash b \/ is_Some (entry_at s x)).
Proof.
  intros L [Ha Hb] Hn Hp Hc. pose proof (part_size s L) as Hle. destruct L as [(g & I) Hsub Hg].
  assert (Hf : (query_fuel (size (all_hashes s)) <= loop_fuel)%nat) by (unfold query_fuel in *; lia).
  destruct (process_handled I Hf b Ha) as (ret & s1 & E & Hcase). rewrite E in Hp. injection Hp as -> ->.
  destruct Hcase as [(Hx & _)|(_ & g1 & I1 & _ & HE & _)]; [by destruct Hx|].
  pose proof (grown_size b Hn HE) as Hs.
  assert (Hiff : forall x, is_Some (entry_at s' x) <-> x = hash b \/ is_Some (entry_at s x)).
  { intros x. rewrite HE. unfold ext_entries. case_decide as Hx; [split; [by left|by eexists]|].
    destruct (entry_at s x) as [[bx m]|]; [split; [by right|by eexists]|].
    split; [by intros [? [=]]|]. intros [?|[? [=]]]. by destruct Hx. }
  split_and!; [|exact Hs|exact Hiff]. split.
  - exists g1. by rewrite Hs.
  - intros x bx (m & Hx)%get_entry. destruct (grown_inv b _ _ _ HE Hx) as [[-> ->]|(k & Hk)]; [exact Hb|].
    apply Hsub, get_entry. by eexists.
  - intros h bh m Hh Hgen. apply Hiff. right. by eapply Hg.
Qed.
(** What one block of the queue leads to. *)
Definition advances (N K : nat) (item : block_processor_item) (queue : list block_processor_item) (n : node)
    (queue' : list block_processor_item) (n' : node) : Prop :=
  converging N queue' n' /\ (distance K queue' n' < distance K (item :: queue) n)%nat
  /\ forall c, wanted c -> present (item :: queue) n c -> present queue' n' c.

Lemma present_cons i queue n c : present (i :: queue) n c <-> c = item_block i \/ present queue n c.
Proof. unfold present. cbn [fmap list_fmap]. rewrite elem_of_cons. tauto. Qed.

(** The block is there already: nothing waits for it. *)
Lemma advance_old N K b queue n n' :
  converging N (Item b false :: queue) n -> is_Some (entry_at (n_store n) (hash b)) ->
  n_store n' = n_store n -> n_unchecked n' = without (hash b) (n_unchecked n) ->
  advances N K (Item b false) queue n queue n'.
Proof.
  intros [L Hq Hok Hheld Hcount] Hb Es Eu. cbn [length] in Hcount. split_and!.
  - split.
    + by rewrite Es.
    + intros i Hi. apply Hq. by right.
    + rewrite Eu. by apply without_ok.
    + intros k c Hc. rewrite Eu, Es, without_held. intros [Hh _]. by apply Hheld.
    + rewrite Eu. unfold total_held, without in *. cbn [unchecked_db unchecked_cache].
      pose proof (length_filter_split (fun e => fst e = hash b) (unchecked_db (n_unchecked n))).
      pose proof (length_filter_split (fun e => fst e = hash b) (unchecked_cache (n_unchecked n))). lia.
  - unfold distance. rewrite Es. cbn [length]. lia.
  - intros c [[Hc _] _]. rewrite present_cons. cbn [item_block]. unfold present. rewrite Es, Eu.
    intros [->|[?|[?|(k & Hk)]]]; [by left|by left|by right; left|right; right]. exists k. rewrite without_held.
    split; [done|]. intros ->. destruct (Hheld _ _ Hc Hk) as (_ & Hn & _). rewrite Hn in Hb. by destruct Hb.
Qed.

(** The block has to wait for [k]. *)
Lemma advance_gap N K b queue n n' k :
  converging N (Item b false :: queue) n -> lacks (g' := g') (s := n_store n) (t := t) b k ->
  n_store n' = n_store n -> n_unchecked n' = unchecked_put k b (n_unchecked n) ->
  advances N K (Item b false) queue n queue n'.
Proof.
  intros [L Hq Hok Hheld Hcount] Hk Es Eu. cbn [length] in Hcount.
  destruct (Hq (Item b false) ltac:(left)) as [_ Hw]. cbn [item_block] in Hw. split_and!.
  - split.
    + by rewrite Es.
    + intros i Hi. apply Hq. by right.
    + rewrite Eu. apply unchecked_put_ok; [exact (proj1 (proj1 Hw))|done].
    + intros j c Hc. rewrite Eu, Es, unchecked_put_held. intros [Hh|[-> ->]]; [by apply Hheld|by split].
    + rewrite Eu. unfold total_held in *. cbn [unchecked_put unchecked_db unchecked_cache]. rewrite length_app. cbn [length]. lia.
  - unfold distance. rewrite Es. cbn [length]. lia.
  - intros c _. rewrite present_cons. cbn [item_block]. unfold present. rewrite Es, Eu. setoid_rewrite unchecked_put_held.
    intros [->|[?|[?|(j & Hj)]]]; [right; right; by exists k; right|by left|by right; left|right; right; exists j; by left].
Qed.

(** The block is accepted, and the blocks that waited for it are queued. *)
Lemma advance_progress N K b queue n n' r s' bs :
  (N <= K)%nat ->
  converging N (Item b false :: queue) n -> entry_at (n_store n) (hash b) = None ->
  process b (n_store n) = Ok (r, s') -> code r = progress ->
  unchecked_get (hash b) (n_unchecked n) = Ok (Some <$> bs) ->
  (forall c, c ∈ bs <-> held (n_unchecked n) (hash b) c /\ block_ok c) ->
  n_store n' = s' -> n_unchecked n' = without (hash b) (n_unchecked n) ->
  advances N K (Item b false) queue n (rev (flip Item false <$> bs) ++ queue) n'.
Proof.
  intros HNK [L Hq Hok Hheld Hcount] Hn Hp Hc Hg Hbs Es Eu. cbn [length] in Hcount.
  destruct (Hq (Item b false) ltac:(left)) as [_ Hw]. cbn [item_block] in Hw.
  destruct (part_grows _ _ _ _ L Hw Hn Hp Hc) as (L' & Hsize & Hiff).
  destruct (unchecked_del_got _ _ _ Hok Hg) as [_ Htot]. pose proof (part_size _ L') as Hle.
  assert (Hrel : forall i, i ∈ rev (flip Item false <$> bs) ++ queue <-> (exists c, i = Item c false /\ c ∈ bs) \/ i ∈ queue).
  { intros i. rewrite elem_of_app, list_elem_of_In, <- in_rev, <- list_elem_of_In, list_elem_of_fmap. done. }
  assert (Hlen : length (rev (flip Item false <$> bs) ++ queue) = (length bs + length queue)%nat)
    by (by rewrite length_app, length_rev, length_fmap).
  split_and!.
  - split.
    + by rewrite Es.
    + intros i [(c & -> & [Hh Hcok]%Hbs)|Hi]%Hrel; [|apply Hq; by right]. split; [done|]. by eapply Hheld.
    + rewrite Eu. by apply without_ok.
    + intros k c Hcok. rewrite Eu, Es, without_held. intros [Hh Hk].
      destruct (Hheld _ _ Hcok Hh) as (Hcw & Hn1 & Ht & Hr). split; [exact Hcw|]. split_and!; [|exact Ht|exact Hr].
      destruct (entry_at s' k) as [e|] eqn:He; [|done]. exfalso.
      destruct (proj1 (Hiff k) ltac:(by eexists)) as [|[? Hx]]; [done|congruence].
    + rewrite Eu, Hlen. lia.
  - unfold distance, missing. rewrite Es, Hlen, Hsize. rewrite Hsize in Hle. cbn [length].
    assert (size (all_hashes t) - size (all_hashes (n_store n))
      = S (size (all_hashes t) - S (size (all_hashes (n_store n)))))%nat as -> by lia. cbn [Nat.mul]. lia.
  - intros c [[Hcok _] _]. rewrite present_cons. cbn [item_block]. unfold present. rewrite Es, Eu.
    assert (Hqueue : forall c, c ∈ bs \/ c ∈ item_block <$> queue -> c ∈ item_block <$> rev (flip Item false <$> bs) ++ queue).
    { intros d Hd. apply list_elem_of_fmap. destruct Hd as [Hd|(i & -> & Hi)%list_elem_of_fmap].
      - exists (Item d false). split; [done|]. apply Hrel. left. eauto.
      - exists i. split; [done|]. apply Hrel. by right. }
    intros [->|[?|[?|(k & Hk)]]].
    + left. apply Hiff. by left.
    + left. apply Hiff. by right.
    + right; left. apply Hqueue. by right.
    + destruct (decide (k = hash b)) as [->|Hkb].
      * right; left. apply Hqueue. left. by apply Hbs.
      * right; right. exists k. by rewrite without_held.
Qed.

Lemma process_item_advances N K b queue progressed n :
  (N <= K)%nat ->
  converging N (Item b false :: queue) n ->
  exists queue' progressed' n', process_item (Item b false) queue progressed n = Ok ((queue', progressed'), n')
  /\ advances N K (Item b false) queue n queue' n'.
Proof.
  intros HNK C. pose proof C as [L Hq Hok Hheld _].
  destruct (Hq (Item b false) ltac:(left)) as [_ [Ha Hb]]. cbn [item_block] in Ha, Hb.
  destruct (unchecked_get_held _ (hash b) Hok) as (bs & Hg & Hbs).
  destruct (entry_at (n_store n) (hash b)) as [[b0 m0]|] eqn:He.
  - assert (Hb0 : block_get (n_store n) (hash b) = Some b).
    { assert (Hx : block_get (n_store n) (hash b) = Some b0) by (apply get_entry; by eexists).
      rewrite Hx, <- Hb. symmetry. exact (lp_sub _ L _ _ Hx). }
    assert (Hold : process b (n_store n) = Ok (failed old, n_store n)).
    { apply process_old; [|apply block_exists_true; by eexists].
      destruct b; [exact I|exact (proj2 (proj2 Ha))|exact I..]. }
    assert (bs = []) as ->.
    { destruct bs as [|c bs]; [done|]. exfalso. destruct (proj1 (Hbs c) ltac:(left)) as [Hh Hc].
      destruct (Hheld _ _ Hc Hh) as (_ & Hn & _). congruence. }
    destruct (process_item_done b queue progressed n _ _ [] Hold Hok (or_intror (conj eq_refl Hb0)) Hg)
      as (progressed' & n' & Hrun & Es & Eu). exists queue, progressed', n'. split; [exact Hrun|].
    apply advance_old; [exact C|by eexists|exact Es|exact Eu].
  - apply get_entry in Hb as Hbt. destruct Hbt as (m & Hbt). pose proof (part_size _ L) as Hle.
    pose proof L as [(g & Ig) Hsub Hgen].
    assert (Hng : ~ is_genesis b) by (intros Hx; destruct (Hgen _ _ _ Hbt Hx) as [? Hc]; congruence).
    assert (Hf : (query_fuel (size (all_hashes (n_store n))) <= loop_fuel)%nat) by (unfold query_fuel in *; lia).
    destruct (offered Ig J Hf Hsub b m Hbt He Hng (Hsigned _ _ _ Hbt Hng)) as [(r & s1 & Hp & Hc)|(r & Hp & Hgap)].
    + destruct (process_item_done b queue progressed n r s1 bs Hp Hok (or_introl Hc) Hg)
        as (progressed' & n' & Hrun & Es & Eu). eexists _, progressed', n'. split; [exact Hrun|].
      exact (advance_progress _ _ _ _ _ _ _ _ _ HNK C He Hp Hc Hg Hbs Es Eu).
    + assert (exists k, (code r = gap_previous /\ k = previous b \/ code r = gap_source /\ k = source b)
                /\ lacks (g' := g') (s := n_store n) (t := t) b k) as (k & Hk & Hlack)
        by (destruct Hgap as [[? ?]|[? ?]]; eauto).
      destruct (process_item_gap b queue progressed n r k Hp Hk) as (n' & Hrun & Es & Eu).
      exists queue, progressed, n'. split; [exact Hrun|]. exact (advance_gap _ _ _ _ _ _ _ C Hlack Es Eu).
Qed.
(** *** Transactions *)

Lemma converging_same N queue n n' : same_tables n n' -> converging N queue n -> converging N queue n'.
Proof. intros [Es Eu] []. split; rewrite ?Es, ?Eu; done. Qed.

Lemma present_same queue n n' c : same_tables n n' -> present queue n c <-> present queue n' c.
Proof. intros [Es Eu]. unfold present. by rewrite Es, Eu. Qed.

Lemma distance_same K queue n n' : same_tables n n' -> distance K queue n' = distance K queue n.
Proof. intros [Es _]. unfold distance. by rewrite Es. Qed.

Definition ticked (n : node) : node := Node (n_store n) (n_unchecked n) (n_gaps n) (S (n_readings n)) (n_events n).

Lemma ticked_same n : same_tables n (ticked n).
Proof. by split. Qed.

Lemma process_batch_advances N K fuel cutoff queue progressed n :
  (N <= K)%nat -> converging N queue n -> (distance K queue n <= fuel)%nat ->
  exists queue' progressed' n', process_batch fuel cutoff queue progressed n = Ok ((queue', progressed'), n')
  /\ converging N queue' n' /\ (distance K queue' n' <= distance K queue n)%nat
  /\ (queue <> [] -> steady_clock (n_readings n) < cutoff -> (distance K queue' n' < distance K queue n)%nat)
  /\ forall c, wanted c -> present queue n c -> present queue' n' c.
Proof.
  intros HNK. revert queue progressed n.
  induction fuel as [|fuel IH]; intros [|[b f] queue] progressed n C Hf; cbn [process_batch].
  1,3: eexists [], progressed, n; split_and!; [reflexivity|exact C|lia|done|done].
  { unfold distance in Hf. cbn [length] in Hf. lia. }
  read_step. fold (ticked n). pose proof (ticked_same n) as Hs. destruct (Z.ltb_spec (steady_clock (n_readings n)) cutoff) as [Hlt|Hge].
  - destruct (cv_queue _ _ _ C (Item b f) ltac:(left)) as [Hff _]. cbn [force] in Hff. subst f.
    apply (converging_same _ _ _ _ Hs) in C as C1.
    destruct (process_item_advances N K b queue progressed (ticked n) HNK C1) as (q1 & p1 & n1 & He & C2 & Hd & Hp).
    cbn [negb]. erewrite st_bind_ok by exact He. cbn [fst snd].
    rewrite (distance_same _ _ _ _ Hs) in Hd.
    destruct (IH q1 p1 n1 C2 ltac:(lia)) as (q2 & p2 & n2 & He2 & C3 & Hd2 & _ & Hp2).
    exists q2, p2, n2. split_and!; [exact He2|exact C3|lia|intros _ _; lia|].
    intros c Hc Hpc. apply (Hp2 c Hc), (Hp c Hc). exact (proj1 (present_same _ _ _ _ Hs) Hpc).
  - cbn [negb]. eexists _, progressed, (ticked n).
    split_and!; [reflexivity|exact (converging_same _ _ _ _ Hs C)| | |].
    + by rewrite (distance_same _ _ _ _ Hs).
    + intros _ Hc. lia.
    + intros c _ Hpc. exact (proj1 (present_same _ _ _ _ Hs) Hpc).
Qed.

(** Between two readings of the clock in a row less time passes than a
    transaction may take. *)
Context (Hclock : forall i, steady_clock (S i) < steady_clock i + transaction_timeout).

Lemma process_transaction_advances N K fuel queue n :
  (N <= K)%nat -> converging N queue n -> (distance K queue n <= fuel)%nat -> queue <> [] ->
  exists queue' n', process_transaction fuel queue n = Ok (queue', n')
  /\ converging N queue' n' /\ (distance K queue' n' < distance K queue n)%nat
  /\ forall c, wanted c -> present queue n c -> present queue' n' c.
Proof.
  intros HNK C Hf Hne. unfold process_transaction. read_step. fold (ticked n). pose proof (ticked_same n) as Hs.
  rewrite <- (distance_same _ _ _ _ Hs) in Hf |- *. apply (converging_same _ _ _ _ Hs) in C.
  destruct (process_batch_advances N K fuel (steady_clock (n_readings n) + transaction_timeout) queue [] (ticked n) HNK C Hf)
    as (q1 & p1 & n1 & He & C1 & _ & Hd & Hp).
  erewrite st_bind_ok by exact He. read_step. cbn [fst snd].
  set (n2 := Node (n_store n1) (n_unchecked n1) (n_gaps n1) (n_readings n1) (n_events n1 ++ concat (notify_progress <$> p1))).
  assert (Hs2 : same_tables n1 n2) by (by split). exists q1, n2. split_and!.
  - reflexivity.
  - exact (converging_same _ _ _ _ Hs2 C1).
  - rewrite (distance_same _ _ _ _ Hs2). apply Hd; [done|]. apply Hclock.
  - intros c Hc Hpc. apply (present_same _ _ _ _ Hs2), (Hp c Hc). exact (proj1 (present_same _ _ _ _ Hs) Hpc).
Qed.
(** *** The thread *)

Definition queued (p : block_processor) : list block_processor_item := processing p ++ blocks p.

Record on_way (N : nat) (p : block_processor) : Prop := {
  ow_running : stopped p = false;
  ow_node : exists N1, converging N1 (processing p) (bp_node p) /\ (N1 + length (blocks p) <= N)%nat;
  ow_blocks : forall i, i ∈ blocks p -> force i = false /\ wanted (item_block i)
}.

Definition bound (K : nat) : nat := (size (all_hashes t) * S K + K)%nat.

Lemma distance_bound N K queue n : (N <= K)%nat -> converging N queue n -> (distance K queue n <= bound K)%nat.
Proof.
  intros HNK [L _ _ _ Hc]. unfold distance, bound, missing. pose proof (part_size _ L).
  assert ((size (all_hashes t) - size (all_hashes (n_store n))) * S K <= size (all_hashes t) * S K)%nat
    by (apply Nat.mul_le_mono_r; lia). lia.
Qed.

Definition at_rest (p : block_processor) : Prop := processing p = [] /\ blocks p = [].

Definition turns_left (K : nat) (p : block_processor) : nat :=
  (2 * distance K (queued p) (bp_node p) + match processing p with [] => 1 | _ => 0 end)%nat.

Lemma turns_left_pos K p : (0 < turns_left K p)%nat.
Proof. unfold turns_left, queued, distance. destruct (processing p); cbn [app length]; lia. Qed.

Lemma turns_left_bound N K p : (N <= K)%nat -> on_way N p -> (turns_left K p <= 2 * bound K + 1)%nat.
Proof.
  intros HNK [_ (N1 & C & HN) Hb]. unfold turns_left.
  assert (Hd : (distance K (queued p) (bp_node p) <= bound K)%nat).
  { apply (distance_bound (N1 + length (blocks p))); [lia|]. destruct C as [L Hq Hok Hh Hc]. split; [done| |done|done|].
    - intros i. unfold queued. rewrite elem_of_app. intros [Hi|Hi]; auto.
    - unfold queued. rewrite length_app. lia. }
  destruct (processing p); lia.
Qed.

Definition kept (p p' : block_processor) : Prop := forall c,
  wanted c -> present (queued p) (bp_node p) c -> present (queued p') (bp_node p') c.

Lemma present_app q1 q2 n c : present (q1 ++ q2) n c <-> present q1 n c \/ c ∈ item_block <$> q2.
Proof. unfold present. rewrite fmap_app, elem_of_app. tauto. Qed.

Lemma process_blocks_advances N K fuel p :
  (N <= K)%nat -> (bound K <= fuel)%nat -> on_way N p ->
  exists p', process_blocks fuel p = Ok p' /\ on_way N p' /\ kept p p'
  /\ (at_rest p' \/ (turns_left K p' < turns_left K p)%nat) /\ (at_rest p -> at_rest p').
Proof.
  intros HNK Hsteps [Hst (N1 & C & HN) Hb]. destruct p as [st id bl wt pr n]. cbn in Hst, C, HN, Hb. subst st.
  unfold process_blocks. cbn [processing stopped idle waiting blocks bp_node]. destruct pr as [|i pr].
  - destruct bl as [|j bl].
    + eexists. split; [reflexivity|]. split_and!; [|intros c _ Hpc; exact Hpc|by left|by intros _].
      split; [done|eexists; split; [exact C|done]|done].
    + eexists. split; [reflexivity|]. split_and!.
      * split; cbn [processing stopped blocks bp_node]; [done| |by intros i ?%not_elem_of_nil].
        exists (N1 + length (j :: bl))%nat. split; [|cbn [length] in *; lia].
        destruct C as [L Hq Hok Hh Hc]. split; [done|exact Hb|done|done|cbn [length] in *; lia].
      * intros c _. unfold queued. cbn [processing blocks bp_node app]. by rewrite app_nil_r.
      * right. unfold turns_left, queued. cbn [processing blocks bp_node app]. rewrite app_nil_r. lia.
      * by intros [_ ?].
  - destruct (process_transaction_advances N1 K fuel (i :: pr) n ltac:(lia) C) as (q' & n' & He & C' & Hd & Hp).
    + pose proof (distance_bound N1 K _ _ ltac:(lia) C). lia.
    + done.
    + rewrite He. eexists. split; [reflexivity|]. split_and!.
      * split; cbn [processing stopped blocks bp_node]; [done|by exists N1|done].
      * intros c Hc. unfold queued. cbn [processing blocks bp_node]. rewrite !present_app. intros [Hpc|Hin]; [left; by apply Hp|by right].
      * right. unfold turns_left, queued. cbn [processing blocks bp_node].
        unfold distance in *. rewrite !length_app. destruct q'; lia.
      * by intros [? _].
Qed.

(** *** Runs *)

Definition benign (e : event) : Prop :=
  match e with Add i => force i = false /\ wanted (item_block i) | Stop => False | Turn | Flush_store => True end.

Lemma flush_converging N queue n : converging N queue n -> converging N queue (flush_store n).
Proof.
  intros [L Hq Hok Hh Hc]. split; cbn [flush_store n_store n_unchecked]; [done|done|by apply flush_unchecked_ok| |].
  - intros k b Hb Hk. apply Hh; [done|]. by apply flush_unchecked_held'.
  - pose proof (flush_unchecked_held_le (n_unchecked n)). lia.
Qed.

Lemma handle_event_on_way N K fuel e p :
  (N <= K)%nat -> (bound K <= fuel)%nat -> on_way N p -> benign e ->
  exists p', handle_event fuel e p = Ok p' /\ on_way (N + adds [e]) p' /\ kept p p'
  /\ forall b, e = Add (Item b false) -> present (queued p') (bp_node p') b.
Proof.
  intros HNK Hsteps Hw He. destruct e as [i| | |]; cbn [handle_event adds].
  - eexists. split; [reflexivity|]. destruct Hw as [Hst (N1 & C & HN) Hb]. split_and!.
    + split; cbn [block_processor_add stopped processing blocks bp_node]; [done| |].
      * exists N1. split; [done|]. rewrite length_app. cbn [length]. lia.
      * intros j. rewrite elem_of_app, list_elem_of_singleton. intros [Hj| ->]; [by apply Hb|exact He].
    + intros c _. unfold queued. cbn [block_processor_add processing blocks bp_node].
      rewrite app_assoc, (present_app (_ ++ _)). by left.
    + intros b [= ->]. unfold queued. cbn [block_processor_add processing blocks bp_node].
      rewrite app_assoc, present_app. right. by apply list_elem_of_singleton.
  - destruct He.
  - destruct (process_blocks_advances N K fuel p HNK Hsteps Hw) as (p' & He' & Hw' & Hk & _). exists p'.
    rewrite Nat.add_0_r. split_and!; [done|done|done|done].
  - eexists. split; [reflexivity|]. rewrite Nat.add_0_r. destruct Hw as [Hst (N1 & C & HN) Hb]. split_and!.
    + split; [done| |done]. exists N1. split; [by apply flush_converging|done].
    + intros c Hc. unfold queued. cbn [processing blocks bp_node]. unfold present. cbn [flush_store n_store n_unchecked].
      intros [?|[?|(k & Hk)]]; [by left|by right; left|right; right]. exists k. by apply flush_unchecked_held.
    + done.
Qed.

Lemma run_events_on_way N K fuel es p :
  (N + adds es <= K)%nat -> (bound K <= fuel)%nat -> on_way N p -> (forall e, e ∈ es -> benign e) ->
  exists p', run_events fuel es p = Ok p' /\ on_way (N + adds es) p' /\ kept p p'
  /\ forall b, Add (Item b false) ∈ es -> present (queued p') (bp_node p') b.
Proof.
  revert N p. induction es as [|e es IH]; intros N p HNK Hsteps Hw He; cbn [run_events].
  - exists p. rewrite Nat.add_0_r. split_and!; [done|done|intros c _ Hpc; exact Hpc|]. by intros b ?%not_elem_of_nil.
  - assert (Ha : adds (e :: es) = (adds [e] + adds es)%nat).
    { by destruct e. }
    rewrite Ha in HNK |- *. pose proof (He e ltac:(left)) as Hbe.
    destruct (handle_event_on_way N K fuel e p ltac:(lia) Hsteps Hw Hbe) as (p1 & -> & Hw1 & Hk1 & Hp1).
    destruct (IH (N + adds [e])%nat p1 ltac:(lia) Hsteps Hw1) as (p2 & -> & Hw2 & Hk2 & Hp2); [intros; apply He; by right|].
    exists p2. rewrite Nat.add_assoc. split_and!; [done|done| |].
    + intros c Hc Hpc. by apply Hk2, Hk1.
    + intros b [Heq|Hin]%elem_of_cons; [|by apply Hp2]. apply Hk2; [|apply Hp1; by symmetry].
      rewrite <- Heq in Hbe. exact (proj2 Hbe).
Qed.

Lemma run_events_app fuel es es' p :
  run_events fuel (es ++ es') p = match run_events fuel es p with Ok p => run_events fuel es' p | Fault f => Fault f end.
Proof. revert p. induction es as [|e es IH]; intros p; cbn; [done|]. destruct (handle_event fuel e p); [apply IH|done]. Qed.

(** The thread comes to rest. *)
Lemma turns_come_to_rest N K fuel k p :
  (N <= K)%nat -> (bound K <= fuel)%nat -> on_way N p -> (turns_left K p <= k)%nat \/ at_rest p ->
  exists p', run_events fuel (replicate k Turn) p = Ok p' /\ on_way N p' /\ kept p p' /\ at_rest p'.
Proof.
  intros HNK Hsteps. revert p. induction k as [|k IH]; intros p Hw Hk; cbn [replicate run_events handle_event].
  - destruct Hk as [Hk|Hr]; [pose proof (turns_left_pos K p); lia|]. exists p. split_and!; [done|done|intros c _ Hpc; exact Hpc|done].
  - destruct (process_blocks_advances N K fuel p HNK Hsteps Hw) as (p1 & -> & Hw1 & Hk1 & Hd & Hr).
    destruct (IH p1 Hw1) as (p2 & -> & Hw2 & Hk2 & Hr2).
    + destruct Hk as [Hk|Hk]; [|by right; apply Hr]. destruct Hd as [Hd|Hd]; [by right|left; lia].
    + exists p2. split_and!; [done|done| |done]. intros c Hc Hpc. by apply Hk2, Hk1.
Qed.
(** At rest, a node that was given all blocks of [t] has them all. *)
Lemma rest_complete N p :
  on_way N p -> at_rest p ->
  (forall x b, block_get t x = Some b -> ~ is_genesis b -> wanted b /\ present (queued p) (bp_node p) b) ->
  (forall x, block_get (n_store (bp_node p)) x = block_get t x) /\ n_unchecked (bp_node p) = unchecked_empty.
Proof.
  intros [_ (N1 & [L _ Hok Hheld _] & _) _] [Hpr Hbl] Hall. unfold queued in Hall. rewrite Hpr, Hbl in Hall.
  set (n := bp_node p) in *.
  assert (Hin : forall r x b m, entry_at t x = Some (b, m) -> (grank g' x < r)%nat -> is_Some (entry_at (n_store n) x)).
  { induction r as [|r IH]; intros x b m Hx Hr; [lia|].
    destruct (decide (is_genesis b)) as [Hg|Hng]; [exact (lp_genesis _ L _ _ _ Hx Hg)|].
    pose proof (ei_hash _ _ _ _ _ _ (inv_entry J _ _ _ Hx)) as Hh.
    destruct (Hall x b) as [Hw Hpb]; [apply get_entry; by eexists|done|].
    destruct Hpb as [Hs|[Hn|(k & Hk)]]; [by rewrite <- Hh|by apply not_elem_of_nil in Hn|].
    destruct (Hheld k b (proj1 (proj1 Hw)) Hk) as (_ & Hkn & [[kb km] Hkt] & Hkr). rewrite Hh in Hkr.
    destruct (IH k kb km Hkt ltac:(lia)) as [? Hc]. congruence. }
  assert (Hnone : forall k b, block_ok b -> ~ held (n_unchecked n) k b).
  { intros k b Hb Hk. destruct (Hheld k b Hb Hk) as (_ & Hkn & [[kb km] Hkt] & _).
    destruct (Hin (S (grank g' k)) k kb km Hkt ltac:(lia)) as [? Hc]. congruence. }
  split.
  - intros x. destruct (block_get t x) as [b|] eqn:Hx.
    + apply get_entry in Hx as Hx'. destruct Hx' as (m & Hx').
      destruct (Hin (S (grank g' x)) x b m Hx' ltac:(lia)) as [[b' m'] Hs].
      assert (Hs' : block_get (n_store n) x = Some b') by (apply get_entry; by eexists).
      rewrite Hs'. rewrite <- Hx. symmetry. exact (lp_sub _ L _ _ Hs').
    + destruct (block_get (n_store n) x) as [b'|] eqn:Hs; [|done]. apply (lp_sub _ L) in Hs. congruence.
  - destruct (n_unchecked n) as [db ca]. unfold unchecked_empty. f_equal.
    + destruct db as [|[k bytes] db]; [done|]. exfalso.
      destruct (uo_db _ Hok k bytes ltac:(left)) as (b & Hb & ->). apply (Hnone k b Hb). right. left.
    + destruct ca as [|[k b] ca]; [done|]. exfalso.
      apply (Hnone k b (uo_cache _ Hok k b ltac:(left))). left. left.
Qed.
End Converging.

(** ** The theorem *)

Section Theorem_.
Context `{Environment, NodeEnvironment, Network, Iteration, MultimapOrder}.

(** A node that starts with the ledger [s]. *)
Definition fresh_node (s : store) : block_processor := block_processor_new (Node s unchecked_empty [] 0 []).

Lemma genesis_part gb nt g t u s :
  reachable gb nt t -> (query_fuel nt <= loop_fuel)%nat -> inv_with nt g t -> genesis_ok gb ->
  genesis_initialize gb initial_store = Ok (u, s) -> ledger_part (t := t) s.
Proof.
  intros R Hf J Hg Hi. rewrite genesis_initialize_run in Hi. injection Hi as _ <-.
  pose proof (reachable_has_genesis gb nt t R Hf) as Hgt. apply get_entry in Hgt as Hgt'. destruct Hgt' as (mg & Hgt').
  assert (HE : forall x, is_Some (entry_at (genesis_store (gb := gb) initial_store) x) <-> x = hash (Open gb)).
  { intros x. rewrite genesis_entries by exact initial_no_blocks. unfold ext_entries. case_decide as Hx.
    - split; [done|by eexists].
    - rewrite initial_entries. split; [by intros [? [=]]|]. intros ->. by destruct Hx. }
  assert (Hs : all_hashes (genesis_store (gb := gb) initial_store) = {[hash (Open gb)]}).
  { apply set_eq. intros x. by rewrite elem_of_all_hashes, HE, elem_of_singleton. }
  split.
  - rewrite Hs, size_singleton. by apply genesis_inv.
  - intros x b (m & Hx)%get_entry. assert (x = hash (Open gb)) as -> by (apply HE; by eexists).
    rewrite genesis_entries in Hx by exact initial_no_blocks. unfold ext_entries in Hx. rewrite decide_True in Hx by reflexivity.
    injection Hx as <- _. exact Hgt.
  - intros h b m Hh Hb. apply HE. exact (genesis_unique J _ _ _ _ _ _ Hh Hgt' Hb (proj1 Hg)).
Qed.

Lemma any_order_converges (gb : open_block) (nt : nat) (t s : store) u (es : list event) (fuel k : nat) :
  reachable gb nt t -> (query_fuel nt <= loop_fuel)%nat ->
  (query_fuel (S (size (all_hashes t))) <= loop_fuel)%nat ->
  (forall i, steady_clock (S i) < steady_clock i + transaction_timeout) ->
  genesis_initialize gb initial_store = Ok (u, s) ->
  (forall e, e ∈ es ->
     match e with
     | Add i => force i = false /\ admissible (item_block i) /\ block_get t (hash (item_block i)) = Some (item_block i)
     | Stop => False
     | Turn | Flush_store => True
     end) ->
  (forall x b, block_get t x = Some b -> ~ is_genesis b -> Add (Item b false) ∈ es) ->
  (size (all_hashes t) * S (adds es) + adds es <= fuel)%nat -> (2 * fuel + 1 <= k)%nat ->
  exists p, run_events fuel (es ++ replicate k Turn) (fresh_node s) = Ok p
  /\ processing p = [] /\ blocks p = []
  /\ ledger_equiv t (n_store (bp_node p)) /\ n_unchecked (bp_node p) = unchecked_empty.
Proof.
  intros R Hf Hft Hclock Hi Hes Hall Hfuel Hk. destruct (reachable_signed gb nt t R Hf) as (g & J & Hsig).
  pose proof (genesis_part gb nt g t u s R Hf J (reachable_genesis_ok _ _ _ R) Hi) as L.
  assert (W : on_way (g' := g) (t := t) 0 (fresh_node s)).
  { split; [done| |by intros i ?%not_elem_of_nil]. exists 0%nat. split; [|done].
    split; [exact L|by intros i ?%not_elem_of_nil| | |done].
    - split; by intros h b ?%not_elem_of_nil.
    - intros h b _ [?%not_elem_of_nil|?%not_elem_of_nil]; done. }
  destruct (run_events_on_way J Hsig Hft Hclock 0 (adds es) fuel es _ ltac:(lia) Hfuel W Hes) as (p1 & E1 & W1 & _ & P1).
  cbn [Nat.add] in W1. pose proof (turns_left_bound Hft (adds es) (adds es) p1 ltac:(lia) W1) as Hb.
  destruct (turns_come_to_rest J Hsig Hft Hclock (adds es) (adds es) fuel k p1 ltac:(lia) Hfuel W1) as (p & E & W2 & K2 & Hr).
  { left. unfold bound in Hb. lia. }
  exists p. rewrite run_events_app, E1, E. destruct (rest_complete J Hft (adds es) p W2 Hr) as [Hsame Hun].
  { intros x b Hx Hng. pose proof (Hall x b Hx Hng) as Hin. pose proof (proj2 (Hes _ Hin)) as Hw. split; [exact Hw|].
    apply K2; [exact Hw|]. by apply P1. }
  split_and!; [done|apply Hr|apply Hr| |exact Hun].
  destruct (ow_node _ _ W2) as (N1 & [[(g1 & I1) _ _] _ _ _ _] & _). exact (same_blocks_equiv J I1 Hsame).
Qed.

End Theorem_.
