(* ===== verification/Elections.v ===== *)
(** * Elections (rai/node/node.cpp)

    [election] collects the votes for the blocks that claim one root and confirms
    one of them, when a quorum agrees or when its time is over;
    [active_transactions] keeps the elections that are going on.

    Elections are shared: [roots] and the tasks that wait to be run in the
    background point to them, so they live in a heap.  What is done in the
    background or sent to the network is recorded as a task, in order; the tasks
    that work on the elections are operations of this file.  The ledger does not
    change during these operations. *)
From Stdlib Require Import ZArith Lia List.
From stdpp Require Import prelude gmap.
From S2P Require Import Prelude Numbers Streams Blocks Store Ledger Votes Work Unchecked Processor.

Local Open Scope m_scope.

(** ** State *)

(** The wallets of the node: whether the password is valid, and the accounts
    with their private keys. *)
Record wallet := Wallet { valid_password : bool; wallet_keys : list (account * Z) }.

(** [election]; the action to call with the confirmed block is a number. *)
Record election_info := ElectionInfo {
  confirmation_action : nat;
  e_votes : votes;
  last_vote : Z;
  last_winner : block;
  confirmed : bool
}.

Record conflict_info := ConflictInfo { conflict_root : block_hash; conflict_election : nat; announcements : Z }.

Inductive task :=
| Broadcast_winner (e : nat)
| Force_block (b : block)
| Process_confirmed (e : nat) (b : block) (action : nat)
| Republish_vote (v : vote)
| Republish_block (b : block)
| Bootstrap
| Announce_votes_at (time : Z).

(** [roots] is ordered by root. *)
Record active_transactions := Active {
  at_store : store;
  at_votes : vote_store;
  heap : gmap nat election_info;
  heap_next : nat;
  roots : list conflict_info;
  at_readings : nat;
  tasks : list task
}.

Definition announcements_per_interval : nat := 32.
Definition contigious_announcements : Z := 4.
Definition announce_interval_ms `{Network} : Z :=
  match rai_network with rai_test_network => 10 | _ => 16000 end.
Definition Mxrb_ratio : Z := 10 ^ 30.

Section Elections.
Context `{Environment, Signing, NodeEnvironment, Network, Iteration}.
Context (wallets : list wallet) (inactive_supply : Z).

Definition now_at : M active_transactions Z := fun a =>
  Ok (steady_clock (at_readings a),
      Active (at_store a) (at_votes a) (heap a) (heap_next a) (roots a) (S (at_readings a)) (tasks a)).

Definition background (t : task) : M active_transactions unit := fun a =>
  Ok (tt, Active (at_store a) (at_votes a) (heap a) (heap_next a) (roots a) (at_readings a) (tasks a ++ [t])).

Definition on_votes {A} (m : M vote_store A) : M active_transactions A := fun a =>
  match m (at_votes a) with
  | Ok (r, v) => Ok (r, Active (at_store a) v (heap a) (heap_next a) (roots a) (at_readings a) (tasks a))
  | Fault f => Fault f
  end.

Definition set_roots (f : list conflict_info -> list conflict_info) : M active_transactions unit := fun a =>
  Ok (tt, Active (at_store a) (at_votes a) (heap a) (heap_next a) (f (roots a)) (at_readings a) (tasks a)).

(** Through a pointer to an election. *)
Definition election_get (e : nat) : M active_transactions election_info := fun a =>
  match heap a !! e with Some i => Ok (i, a) | None => Fault Indeterminate_value end.

Definition election_put (e : nat) (i : election_info) : M active_transactions unit := fun a =>
  Ok (tt, Active (at_store a) (at_votes a) (<[e := i]> (heap a)) (heap_next a) (roots a) (at_readings a) (tasks a)).

Definition set_votes (v : votes) (i : election_info) : election_info :=
  ElectionInfo (confirmation_action i) v (last_vote i) (last_winner i) (confirmed i).

(** ** One election *)

(** [wallets::foreach_representative]: the accounts of unlocked wallets that
    have weight. *)
Definition representatives (s : store) : list (account * Z) :=
  concat ((fun w => filter (fun k => is_zero (weight s (fst k)) = false /\ valid_password w = true) (wallet_keys w)) <$> wallets).

Fixpoint cast_votes (e : nat) (reps : list (account * Z)) : M active_transactions unit :=
  match reps with
  | [] => st_ret tt
  | (pub, prv) :: reps =>
      i <- election_get e;;
      v <- on_votes (vote_generate pub prv (last_winner i));;
      election_put e (set_votes (snd (votes_vote v (e_votes i))) i) ;;;
      cast_votes e reps
  end.

Definition compute_rep_votes (e : nat) : M active_transactions unit :=
  reps <- st_get (fun a => representatives (at_store a));;
  cast_votes e reps.

(** The constructor; the result is the pointer to the new election. *)
Definition election_new (b : block) (action : nat) : M active_transactions nat :=
  now <- now_at;;
  ex <- st_get (fun a => block_exists (at_store a) (hash b));;
  st_assert ex ;;;
  e <- (fun a => Ok (heap_next a,
          Active (at_store a) (at_votes a)
            (<[heap_next a := ElectionInfo action (votes_new not_an_account b) now b false]> (heap a))
            (S (heap_next a)) (roots a) (at_readings a) (tasks a)));;
  compute_rep_votes e ;;;
  st_ret e.

Definition broadcast_winner (e : nat) : M active_transactions unit :=
  compute_rep_votes e ;;;
  i <- election_get e;;
  background (Republish_block (last_winner i)).

Definition quorum_threshold : M active_transactions Z :=
  supply_l <- st_run (fun a => supply inactive_supply (at_store a));;
  st_ret (supply_l / 2).

Definition minimum_threshold : M active_transactions Z :=
  supply_l <- st_run (fun a => supply inactive_supply (at_store a));;
  st_ret (supply_l / 16).

(** The first entry of the tally, which is asserted not to be empty. *)
Definition first_of_tally (e : nat) : M active_transactions (Z * block) :=
  i <- election_get e;;
  first <- st_get (fun a => winner (at_store a) (e_votes i));;
  match first with Some first => st_ret first | None => st_fault Assertion_failed end.

Definition confirm_once (e : nat) : M active_transactions unit :=
  i <- election_get e;;
  if confirmed i then st_ret tt else
  election_put e (ElectionInfo (confirmation_action i) (e_votes i) (last_vote i) (last_winner i) true) ;;;
  first <- first_of_tally e;;
  let block_l := snd first in
  (if negb (block_eqb block_l (last_winner i)) then
     minimum <- minimum_threshold;;
     if minimum <? fst first then
       background (Force_block block_l) ;;;
       election_put e (ElectionInfo (confirmation_action i) (e_votes i) (last_vote i) block_l true)
     else st_ret tt
   else st_ret tt) ;;;
  i <- election_get e;;
  background (Process_confirmed e (last_winner i) (confirmation_action i)).

Definition have_quorum (e : nat) : M active_transactions bool :=
  first <- first_of_tally e;;
  quorum <- quorum_threshold;;
  st_ret (quorum <? fst first).

Definition confirm_if_quorum (e : nat) : M active_transactions unit :=
  quorum <- have_quorum e;;
  if quorum : bool then confirm_once e else st_ret tt.

(** What is logged is left out. *)
Definition confirm_cutoff (e : nat) : M active_transactions unit := confirm_once e.

(** [network::republish_vote]; sending is a task. *)
Definition republish_vote (last : Z) (v : vote) : M active_transactions unit :=
  now <- now_at;;
  if last <? now - 1000 then
    w <- st_get (fun a => weight (at_store a) (v_account v));;
    if wrap 128 (Mxrb_ratio * 256) <? w then background (Republish_vote v) else st_ret tt
  else st_ret tt.

Definition election_vote (e : nat) (v : vote) : M active_transactions unit :=
  i <- election_get e;;
  republish_vote (last_vote i) v ;;;
  now <- now_at;;
  i <- election_get e;;
  election_put e (ElectionInfo (confirmation_action i) (e_votes i) now (last_winner i) (confirmed i)) ;;;
  r <- on_votes (vote_validate v);;
  st_assert (negb (bool_decide (fst r = vote_invalid))) ;;;
  i <- election_get e;;
  election_put e (set_votes (snd (votes_vote v (e_votes i))) i) ;;;
  confirm_if_quorum e.

(** ** The elections that are going on *)

Definition roots_find (r : block_hash) (l : list conflict_info) : option conflict_info :=
  find (fun c => conflict_root c =? r) l.

Fixpoint roots_insert (c : conflict_info) (l : list conflict_info) : list conflict_info :=
  match l with
  | [] => [c]
  | x :: l => if conflict_root c <? conflict_root x then c :: x :: l else x :: roots_insert c l
  end.

Definition roots_erase (r : block_hash) (l : list conflict_info) : list conflict_info :=
  filter (fun c => conflict_root c <> r) l.

(** The two loops of [announce_votes] over [roots]: what is left of them, and the
    roots of the elections that ended.  The counter the first loop tests is
    not changed by the loop: the variable it counts with is another one of the
    same name. *)
Fixpoint announce_roots (counter : nat) (l : list conflict_info) :
    M active_transactions (list conflict_info * list block_hash) :=
  match l with
  | [] => st_ret ([], [])
  | c :: l' =>
      if (counter <? announcements_per_interval)%nat then
        let e := conflict_election c in
        background (Broadcast_winner e) ;;;
        r <- (if contigious_announcements - 1 <=? announcements c then
                confirm_cutoff e ;;;
                i <- election_get e;;
                st_ret (c, [votes_id (e_votes i)])
              else
                let n := wrap 32 (announcements c + 1) in
                i <- election_get e;;
                (if (1 <? n) && (length (rep_votes (e_votes i)) <=? 1)%nat then background Bootstrap else st_ret tt) ;;;
                st_ret (ConflictInfo (conflict_root c) e n, []));;
        rest <- announce_roots counter l';;
        st_ret (fst r :: fst rest, snd r ++ snd rest)
      else st_ret ((fun c => ConflictInfo (conflict_root c) (conflict_election c) 0) <$> l, [])
  end.

Fixpoint erase_roots (inactive : list block_hash) : M active_transactions unit :=
  match inactive with
  | [] => st_ret tt
  | r :: inactive =>
      found <- st_get (fun a => roots_find r (roots a));;
      st_assert (bool_decide (is_Some found)) ;;;
      set_roots (roots_erase r) ;;;
      erase_roots inactive
  end.

Definition announce_votes : M active_transactions unit :=
  l <- st_get roots;;
  r <- announce_roots 0 l;;
  set_roots (fun _ => fst r) ;;;
  erase_roots (snd r) ;;;
  now <- now_at;;
  background (Announce_votes_at (now + announce_interval_ms)).

Definition active_stop : M active_transactions unit := set_roots (fun _ => []).

Definition active_start (b : block) (action : nat) : M active_transactions bool :=
  existing <- st_get (fun a => roots_find (root b) (roots a));;
  match existing with
  | None => e <- election_new b action;; set_roots (roots_insert (ConflictInfo (root b) e 0)) ;;; st_ret false
  | Some _ => st_ret true
  end.

Definition active_vote (v : vote) : M active_transactions unit :=
  existing <- st_get (fun a => roots_find (root (v_block v)) (roots a));;
  match existing with
  | None => st_ret tt
  | Some c => election_vote (conflict_election c) v
  end.

Definition active_block (a : active_transactions) (b : block) : bool :=
  bool_decide (is_Some (roots_find (root b) (roots a))).
End Elections.
