(* ===== verification/ElectionTheorems.v ===== *)
(** * Elections: what they promise

    The operations on elections never fail an assertion; every election confirms
    at most one block, which claims the root of the election; every election
    ends. *)
From Stdlib Require Import ZArith Lia List Sorted.
From stdpp Require Import prelude gmap.
From S2P Require Import Prelude Lists Numbers Streams Blocks Store Ledger StoreFacts LedgerInv LedgerQueries LedgerExtend LedgerShrink LedgerProcess LedgerRollback LedgerUndo LedgerUnique LedgerTheorems Votes Work Unchecked Processor Elections.

(** ** The invariant *)

Record election_ok (i : election_info) : Prop := {
  eo_keys : NoDup (rep_votes (e_votes i)).*1;
  eo_some : rep_votes (e_votes i) <> [];
  eo_blocks : forall b, b ∈ snd <$> rep_votes (e_votes i) -> root b = votes_id (e_votes i) /\ block_ok b;
  eo_winner : root (last_winner i) = votes_id (e_votes i) /\ block_ok (last_winner i)
}.

(** How often the election [e] announced a confirmed block. *)
Definition confirms (e : nat) (t : task) : bool :=
  match t with Process_confirmed e' _ _ => bool_decide (e' = e) | _ => false end.
Definition confirmations (e : nat) (ts : list task) : nat := length (List.filter (confirms e) ts).

Lemma confirmations_app e ts ts' : confirmations e (ts ++ ts') = (confirmations e ts + confirmations e ts')%nat.
Proof. unfold confirmations. by rewrite List.filter_app, length_app. Qed.

Definition root_before (c d : conflict_info) : Prop := conflict_root c < conflict_root d.

(** The ledger may be changed by other parts of the node between operations. *)
Definition good_ledger `{Environment} (gb : open_block) (s : store) : Prop :=
  exists n, reachable gb n s /\ (query_fuel n <= loop_fuel)%nat.

Record active_ok `{Environment} (gb : open_block) (a : active_transactions) : Prop := {
  ao_store : good_ledger gb (at_store a);
  ao_votes : vote_store_ok (at_votes a);
  ao_heap : forall e i, heap a !! e = Some i -> election_ok i /\ (e < heap_next a)%nat;
  ao_sorted : StronglySorted root_before (roots a);
  ao_roots : forall c, c ∈ roots a -> 0 <= announcements c < contigious_announcements
    /\ exists i, heap a !! conflict_election c = Some i /\ votes_id (e_votes i) = conflict_root c;
  ao_once : forall e, confirmations e (tasks a)
    = match heap a !! e with Some i => if confirmed i then 1%nat else 0%nat | None => 0%nat end;
  ao_confirmed : forall e b act, Process_confirmed e b act ∈ tasks a ->
    exists i, heap a !! e = Some i /\ confirmed i = true /\ last_winner i = b /\ confirmation_action i = act;
  ao_broadcast : forall e, Broadcast_winner e ∈ tasks a -> is_Some (heap a !! e)
}.

(** What happens to the elections while time goes by. *)
Definition election_evolves (i i' : election_info) : Prop :=
  votes_id (e_votes i') = votes_id (e_votes i) /\ confirmation_action i' = confirmation_action i
  /\ (confirmed i = true -> confirmed i' = true /\ last_winner i' = last_winner i).

Definition evolves (a a' : active_transactions) : Prop :=
  (forall e i, heap a !! e = Some i -> exists i', heap a' !! e = Some i' /\ election_evolves i i')
  /\ (heap_next a <= heap_next a')%nat.

Lemma election_evolves_refl i : election_evolves i i.
Proof. by split_and!. Qed.

Lemma election_evolves_trans i j k : election_evolves i j -> election_evolves j k -> election_evolves i k.
Proof. unfold election_evolves. naive_solver congruence. Qed.

#[export] Instance evolves_preorder : PreOrder evolves.
Proof.
  split.
  - intros a. split; [|done]. intros e i Hi. exists i. split; [done|apply election_evolves_refl].
  - intros a b c [H1 N1] [H2 N2]. split; [|lia]. intros e i Hi. destruct (H1 _ _ Hi) as (i1 & Hi1 & E1).
    destruct (H2 _ _ Hi1) as (i2 & Hi2 & E2). exists i2. split; [done|]. by eapply election_evolves_trans.
Qed.

(** ** Votes in an election *)

Lemma votes_vote_nonempty v e : rep_votes e <> [] -> rep_votes (snd (votes_vote v e)) <> [].
Proof.
  unfold votes_vote. destruct (votes_find _ _) as [c|]; [|by destruct (rep_votes e)].
  destruct (negb _); [|done]. cbn. intros Hne Hnil%(f_equal (fmap fst)). rewrite votes_assign_keys in Hnil.
  by destruct (rep_votes e).
Qed.

Lemma votes_assign_blocks a b l c : c ∈ snd <$> votes_assign a b l -> c = b \/ c ∈ snd <$> l.
Proof.
  induction l as [|[x d] l IH]; cbn; [by right|]. destruct (x =? a); cbn; rewrite !elem_of_cons; naive_solver.
Qed.

Lemma votes_vote_blocks v e c : c ∈ snd <$> rep_votes (snd (votes_vote v e)) -> c = v_block v \/ c ∈ snd <$> rep_votes e.
Proof.
  unfold votes_vote. destruct (votes_find _ _) as [x|].
  - destruct (negb _); [|by right]. apply votes_assign_blocks.
  - cbn. rewrite fmap_app, elem_of_app. cbn. rewrite list_elem_of_singleton. naive_solver.
Qed.

Lemma votes_vote_id v e : votes_id (snd (votes_vote v e)) = votes_id e.
Proof. unfold votes_vote. destruct (votes_find _ _); [destruct (negb _)|]; done. Qed.

Lemma voted_ok i v :
  election_ok i -> root (v_block v) = votes_id (e_votes i) -> block_ok (v_block v) ->
  election_ok (set_votes (snd (votes_vote v (e_votes i))) i).
Proof.
  intros [Hk Hs Hb Hw] Hr Hok. split; cbn [set_votes e_votes last_winner].
  - by apply votes_vote_keys.
  - by apply votes_vote_nonempty.
  - intros b [->|Hin]%votes_vote_blocks; rewrite votes_vote_id; [done|by apply Hb].
  - by rewrite votes_vote_id.
Qed.

(** ** Steps that keep the invariant *)

Section Steps.
Context `{Environment, Signing, NodeEnvironment, Network, Iteration} {gb : open_block}.
Implicit Types (a : active_transactions) (e : nat) (i : election_info).

Definition put_election e i a : active_transactions :=
  Active (at_store a) (at_votes a) (<[e := i]> (heap a)) (heap_next a) (roots a) (at_readings a) (tasks a).

Lemma put_ok a e i i' :
  active_ok gb a -> heap a !! e = Some i -> election_ok i' -> election_evolves i i' -> confirmed i' = confirmed i ->
  active_ok gb (put_election e i' a) /\ evolves a (put_election e i' a).
Proof.
  intros [Hs Hv Hh Hso Hr Ho Hcf Hbr] He Hi' Hev Hc.
  split; [split|split]; cbn [put_election at_store at_votes heap heap_next roots tasks]; [done|done| |done| | | | | |done].
  - intros e' j. rewrite lookup_insert. case_decide as Hx; [|apply Hh]. intros [= <-]. split; [done|].
    subst e'. by eapply Hh.
  - intros c Hin. destruct (Hr c Hin) as (Ha & j & Hj & Hid). split; [done|]. rewrite lookup_insert.
    case_decide as Hx; [|by exists j]. subst e. rewrite He in Hj. injection Hj as <-. exists i'. split; [done|].
    rewrite <- Hid. apply Hev.
  - intros e'. rewrite Ho, lookup_insert. case_decide as Hx; [|done]. subst e'. by rewrite He, Hc.
  - intros e' b act Hin. destruct (Hcf _ _ _ Hin) as (j & Hj & Hjc & Hjw & Hja). rewrite lookup_insert.
    case_decide as Hx; [|by exists j]. subst e'. rewrite He in Hj. injection Hj as <-. exists i'.
    destruct Hev as (_ & Hact & Hw). destruct (Hw Hjc). split_and!; congruence.
  - intros e' Hin. rewrite lookup_insert. case_decide; [by eexists|by apply Hbr].
  - intros e' j Hj. rewrite lookup_insert. case_decide as Hx.
    + subst e'. rewrite He in Hj. injection Hj as <-. by exists i'.
    + exists j. split; [done|apply election_evolves_refl].
Qed.

(** A computation that does not fail, keeps the invariant, and ends in [post]. *)
Definition runs {A} (m : M active_transactions A) a (post : A -> active_transactions -> Prop) : Prop :=
  exists r a', m a = Ok (r, a') /\ active_ok gb a' /\ evolves a a' /\ post r a'.

Lemma runs_bind {A B} (m : M active_transactions A) (k : A -> M active_transactions B) a Q post :
  runs m a Q -> (forall r a', active_ok gb a' -> evolves a a' -> Q r a' -> runs (k r) a' post) -> runs (st_bind m k) a post.
Proof.
  intros (r & a' & He & Hok & Hev & HQ) Hk. destruct (Hk r a' Hok Hev HQ) as (r2 & a2 & He2 & Hok2 & Hev2 & HP).
  exists r2, a2. split_and!; [by erewrite st_bind_ok by exact He|done|by etrans|done].
Qed.

Lemma runs_ret {A} (r : A) a (post : A -> active_transactions -> Prop) : active_ok gb a -> post r a -> runs (st_ret r) a post.
Proof. intros Hok HP. exists r, a. split_and!; [reflexivity|exact Hok|reflexivity|exact HP]. Qed.

(** Reading steps. *)
Lemma runs_read {A B} (m : M active_transactions A) (k : A -> M active_transactions B) a r post :
  m a = Ok (r, a) -> runs (k r) a post -> runs (st_bind m k) a post.
Proof. intros Hm (r2 & a2 & He & Hrest). exists r2, a2. split; [by erewrite st_bind_ok by exact Hm|exact Hrest]. Qed.

Lemma runs_weaken {A} (m : M active_transactions A) a (Q post : A -> active_transactions -> Prop) :
  runs m a Q -> (forall r a', Q r a' -> post r a') -> runs m a post.
Proof. intros (r & a' & He & Hok & Hev & HQ) Hp. exists r, a'. auto. Qed.

(** Steps that leave the elections and [roots] alone. *)
Record same_elections (ts : list task) a a' : Prop := {
  se_store : at_store a' = at_store a;
  se_votes : vote_store_ok (at_votes a) -> vote_store_ok (at_votes a');
  se_heap : heap a' = heap a;
  se_next : heap_next a' = heap_next a;
  se_roots : roots a' = roots a;
  se_tasks : tasks a' = tasks a ++ ts
}.

(** A task that says nothing about confirmations, and names a known election. *)
Definition plain a (t : task) : Prop :=
  match t with
  | Process_confirmed _ _ _ => False
  | Broadcast_winner e => is_Some (heap a !! e)
  | _ => True
  end.

Lemma plain_confirmations a ts e : Forall (plain a) ts -> confirmations e ts = 0%nat.
Proof. induction 1 as [|t ts Ht _ IH]; [done|]. unfold confirmations in *. cbn. destruct t; cbn; done. Qed.

Lemma same_ok ts a a' : active_ok gb a -> Forall (plain a) ts -> same_elections ts a a' -> active_ok gb a' /\ evolves a a'.
Proof.
  intros [Hs Hv Hh Hso Hr Ho Hcf Hbr] Hts [Es Ev Eh En Er Et].
  split; [split|split]; rewrite ?Eh, ?En, ?Er, ?Et; try done.
  - by rewrite Es.
  - by apply Ev.
  - intros e. rewrite confirmations_app, (plain_confirmations _ _ _ Hts), Ho. lia.
  - intros e b act [Hin|Hin]%elem_of_app; [by apply Hcf|].
    pose proof (proj1 (Forall_forall _ _) Hts _ Hin) as Hp. destruct Hp.
  - intros e [Hin|Hin]%elem_of_app; [by apply Hbr|]. exact (proj1 (Forall_forall _ _) Hts _ Hin).
  - intros e i Hi. exists i. split; [done|apply election_evolves_refl].
Qed.

Lemma runs_background t a : active_ok gb a -> plain a t -> runs (background t) a (fun _ a' => same_elections [t] a a').
Proof.
  intros Hok Ht. set (a' := Active (at_store a) (at_votes a) (heap a) (heap_next a) (roots a) (at_readings a) (tasks a ++ [t])).
  assert (S : same_elections [t] a a') by (by split).
  destruct (same_ok [t] a a' Hok ltac:(by constructor) S). by exists tt, a'.
Qed.

Lemma same_nil st v h nx rs k ts k' v' :
  (vote_store_ok v -> vote_store_ok v') ->
  same_elections [] (Active st v h nx rs k ts) (Active st v' h nx rs k' ts).
Proof. intros Hv. split; cbn; rewrite ?app_nil_r; done. Qed.

Lemma runs_now a : active_ok gb a -> runs now_at a (fun r a' => r = steady_clock (at_readings a) /\ same_elections [] a a').
Proof.
  intros Hok. eexists _, _. split; [reflexivity|]. destruct a as [st v h nx rs k ts]. cbn.
  pose proof (same_nil st v h nx rs k ts (S k) v ltac:(done)) as S.
  destruct (same_ok [] _ _ Hok ltac:(done) S). by split_and!.
Qed.

Lemma runs_votes {A} (m : M vote_store A) a r v' :
  active_ok gb a -> m (at_votes a) = Ok (r, v') -> vote_store_ok v' ->
  runs (on_votes m) a (fun r' a' => r' = r /\ same_elections [] a a').
Proof.
  intros Hok Hm Hv. destruct a as [st v h nx rs k ts]. cbn in Hm.
  pose proof (same_nil st v h nx rs k ts k v' ltac:(done)) as S. destruct (same_ok [] _ _ Hok ltac:(done) S).
  exists r, (Active st v' h nx rs k ts). split_and!; [unfold on_votes; cbn; by rewrite Hm|done|done|done|done].
Qed.

Lemma runs_put a e i i' :
  active_ok gb a -> heap a !! e = Some i -> election_ok i' -> election_evolves i i' -> confirmed i' = confirmed i ->
  runs (election_put e i') a (fun _ a' => a' = put_election e i' a).
Proof.
  intros Hok He Hi' Hev Hc. destruct (put_ok a e i i' Hok He Hi' Hev Hc). by exists tt, (put_election e i' a).
Qed.

Lemma election_get_at a e i : heap a !! e = Some i -> election_get e a = Ok (i, a).
Proof. intros He. unfold election_get. by rewrite He. Qed.
End Steps.

(** ** The operations of an election *)

Definition key_ok `{Signing} (k : account * Z) : Prop :=
  fits 256 (fst k) /\ forall h, fits 512 (sign_message (snd k) (fst k) h).

Definition wallets_ok `{Signing} (ws : list wallet) : Prop := forall w, w ∈ ws -> Forall key_ok (wallet_keys w).

(** Only the votes of the election [e] changed. *)
Record votes_changed (e : nat) (i : election_info) (a a' : active_transactions) : Prop := {
  vc_store : at_store a' = at_store a;
  vc_heap : exists v, heap a' = <[e := set_votes v i]> (heap a);
  vc_roots : roots a' = roots a;
  vc_tasks : tasks a' = tasks a
}.

Section Operations.
Context `{Environment, Signing, NodeEnvironment, Network, Iteration} {gb : open_block}.
Context {ws : list wallet} {inactive : Z} (Hws : wallets_ok ws) (Hin : fits 128 inactive).
Notation runs := (runs (gb := gb)).

Lemma set_votes_evolves v i : votes_id v = votes_id (e_votes i) -> election_evolves i (set_votes v i).
Proof. intros Hv. split_and!; [exact Hv|reflexivity|intros Hc; by split]. Qed.

Lemma runs_cast e reps a i :
  active_ok gb a -> heap a !! e = Some i -> Forall key_ok reps -> runs (cast_votes e reps) a (fun _ => votes_changed e i a).
Proof.
  intros Hok He Hreps. revert a i Hok He. induction Hreps as [|[pub prv] reps [Hf Hsig] _ IH]; intros a i Hok He; cbn [cast_votes].
  - apply runs_ret; [done|]. split; [done| |done|done]. exists (e_votes i). by rewrite insert_id by (by destruct i).
  - eapply runs_read; [by apply election_get_at|].
    destruct (ao_heap _ _ Hok _ _ He) as [Hi _]. destruct (eo_winner _ Hi) as [Hroot Hbok].
    destruct (vote_generate_run pub prv (last_winner i) _ (ao_votes _ _ Hok) Hf Hbok Hsig) as (v & v' & Hgen & Hv' & Hvb & _).
    eapply runs_bind; [by apply (runs_votes _ _ v v')|]. intros r a1 Hok1 _ [-> S1]. pose proof S1 as [Es _ Eh _ Er Et].
    set (i1 := set_votes (snd (votes_vote v (e_votes i))) i).
    assert (Hi1 : election_ok i1) by (apply voted_ok; [done|congruence|congruence]).
    eapply runs_bind.
    + apply (runs_put a1 e i i1); [done|by rewrite Eh|done| |done]. apply set_votes_evolves, votes_vote_id.
    + intros [] a2 Hok2 _ ->. eapply runs_weaken.
      * apply (IH (put_election e i1 a1) i1 Hok2). apply lookup_insert_eq.
      * intros _ a3 [Vs (w & Vh) Vr Vt]. cbn in Vs, Vh, Vr, Vt.
        split; [congruence| |congruence|rewrite Vt, Et; apply app_nil_r]. exists w. rewrite Vh, Eh. apply insert_insert_eq.
Qed.

Lemma representatives_ok s : Forall key_ok (representatives ws s).
Proof.
  apply Forall_forall. intros k (l & Hk & Hl)%list_elem_of_In%in_concat. apply list_elem_of_In in Hl, Hk.
  unfold representatives in *. apply list_elem_of_fmap in Hk as (w & -> & Hw).
  apply list_elem_of_filter in Hl as [_ Hl]. exact (proj1 (Forall_forall _ _) (Hws w Hw) k Hl).
Qed.

Lemma runs_compute e a i :
  active_ok gb a -> heap a !! e = Some i -> runs (compute_rep_votes ws e) a (fun _ => votes_changed e i a).
Proof.
  intros Hok He. unfold compute_rep_votes. eapply runs_read; [reflexivity|].
  apply runs_cast; [done|done|apply representatives_ok].
Qed.

Lemma runs_broadcast e a :
  active_ok gb a -> is_Some (heap a !! e) ->
  runs (broadcast_winner ws e) a (fun _ a' => roots a' = roots a /\ at_store a' = at_store a).
Proof.
  intros Hok [i He]. unfold broadcast_winner. eapply runs_bind; [by apply (runs_compute e a i)|].
  intros _ a1 Hok1 _ [Vs (v & Vh) Vr Vt]. eapply runs_read; [apply election_get_at; rewrite Vh; apply lookup_insert_eq|].
  eapply runs_weaken; [by apply runs_background|]. intros _ a2 [Es _ Eh _ Er _]. split; congruence.
Qed.

(** The first entry of the tally is there. *)
Lemma runs_first e a i :
  active_ok gb a -> heap a !! e = Some i ->
  exists t b, winner (at_store a) (e_votes i) = Some (t, b) /\ b ∈ snd <$> rep_votes (e_votes i)
  /\ first_of_tally e a = Ok ((t, b), a).
Proof.
  intros Hok He. destruct (ao_store _ _ Hok) as (n & R & Hf). destruct (reachable_inv _ _ _ R Hf) as (g & I).
  destruct (ao_heap _ _ Hok _ _ He) as [[Hk Hs _ _] _].
  destruct (winner_found I (e_votes i) Hk Hs) as (t & b & Hw & Hb & _). exists t, b. split_and!; [done|done|].
  unfold first_of_tally. erewrite st_bind_ok by (by apply election_get_at). erewrite st_bind_ok by reflexivity. by rewrite Hw.
Qed.

Lemma supply_found a : active_ok gb a -> exists q, supply inactive (at_store a) = Ok q /\ 0 <= q.
Proof.
  intros Hok. destruct (ao_store _ _ Hok) as (n & R & Hf). destruct (supply_run R Hf inactive Hin) as [Hr ->].
  eexists. split; [reflexivity|].
  match goal with |- context [inactive <=? ?r] => destruct (Z.leb_spec inactive r) end; lia.
Qed.

(** The block a confirmation settles on: the first of the tally, when the weight
    behind it is worth a change, and otherwise the last winner. *)
Definition settles (q : Z) (s : store) (i : election_info) : block :=
  match winner s (e_votes i) with
  | Some (t, b) => if negb (block_eqb b (last_winner i)) && (q / 16 <? t) then b else last_winner i
  | None => last_winner i
  end.

Definition confirm_with (b : block) (i : election_info) : election_info :=
  ElectionInfo (confirmation_action i) (e_votes i) (last_vote i) b true.

Definition confirmed_state (e : nat) (i : election_info) (b : block) (a : active_transactions) : active_transactions :=
  Active (at_store a) (at_votes a) (<[e := confirm_with b i]> (heap a)) (heap_next a) (roots a) (at_readings a)
    (tasks a ++ (if block_eqb b (last_winner i) then [] else [Force_block b])
     ++ [Process_confirmed e b (confirmation_action i)]).

Lemma confirm_once_run e a i q :
  active_ok gb a -> heap a !! e = Some i -> supply inactive (at_store a) = Ok q ->
  confirm_once inactive e a
  = Ok (tt, if confirmed i then a else confirmed_state e i (settles q (at_store a) i) a).
Proof.
  intros Hok He Hq. destruct (runs_first e a i Hok He) as (t & b & Hw & _ & _).
  unfold confirm_once. erewrite st_bind_ok by (by apply election_get_at). destruct (confirmed i); [done|].
  erewrite st_bind_ok by reflexivity. unfold first_of_tally.
  erewrite st_bind_ok.
  2:{ erewrite st_bind_ok by (apply election_get_at; apply lookup_insert_eq).
      erewrite st_bind_ok by reflexivity. cbn [at_store e_votes]. rewrite Hw. reflexivity. }
  cbn [fst snd]. unfold confirmed_state, settles. rewrite Hw.
  destruct (block_eqb_spec b (last_winner i)) as [->|Hne]; cbn [negb andb].
  - erewrite st_bind_ok by reflexivity. erewrite st_bind_ok by (apply election_get_at; apply lookup_insert_eq).
    by rewrite block_eqb_refl.
  - assert (Hmin : forall a', at_store a' = at_store a -> minimum_threshold inactive a' = Ok (q / 16, a')).
    { intros a' Hs. unfold minimum_threshold. erewrite st_bind_ok by (unfold st_run; rewrite Hs, Hq; reflexivity). done. }
    destruct (q / 16 <? t) eqn:Hlt.
    + erewrite st_bind_ok.
      2:{ erewrite st_bind_ok by (by apply Hmin). rewrite Hlt. reflexivity. }
      erewrite st_bind_ok by (apply election_get_at; apply lookup_insert_eq).
      destruct (block_eqb_spec b (last_winner i)); [done|]. unfold background. cbn.
      by rewrite insert_insert_eq, <- app_assoc.
    + erewrite st_bind_ok.
      2:{ erewrite st_bind_ok by (by apply Hmin). rewrite Hlt. reflexivity. }
      erewrite st_bind_ok by (apply election_get_at; apply lookup_insert_eq). cbn. by rewrite block_eqb_refl.
Qed.

Lemma settles_ok e a i q :
  active_ok gb a -> heap a !! e = Some i ->
  let b := settles q (at_store a) i in root b = votes_id (e_votes i) /\ block_ok b.
Proof.
  intros Hok He. destruct (runs_first e a i Hok He) as (t & b & Hw & Hb & _).
  destruct (ao_heap _ _ Hok _ _ He) as [[_ _ Hbs Hlw] _]. unfold settles. rewrite Hw.
  destruct (negb _ && _); [by apply Hbs|exact Hlw].
Qed.

Lemma confirmed_ok e a i b :
  active_ok gb a -> heap a !! e = Some i -> confirmed i = false -> root b = votes_id (e_votes i) /\ block_ok b ->
  active_ok gb (confirmed_state e i b a) /\ evolves a (confirmed_state e i b a).
Proof.
  intros Hok He Hc Hb. pose proof Hok as [Hs Hv Hh Hso Hr Ho Hcf Hbr]. destruct (Hh _ _ He) as [[E1 E2 E3 _] Hlt].
  assert (Hnone : forall b' act, Process_confirmed e b' act ∈ tasks a -> False).
  { intros b' act Hx. destruct (Hcf _ _ _ Hx) as (j & Hj & Hjc & _). congruence. }
  assert (Hft : forall e', confirmations e' (if block_eqb b (last_winner i) then [] else [Force_block b]) = 0%nat)
    by (intros; by destruct (block_eqb _ _)).
  assert (Hin_f : forall x, x ∈ (if block_eqb b (last_winner i) then [] else [Force_block b]) -> x = Force_block b).
  { intros x. destruct (block_eqb _ _); [by intros ?%not_elem_of_nil|by intros ?%list_elem_of_singleton]. }
  split; [split|split]; cbn [confirmed_state at_store at_votes heap heap_next roots tasks]; [done|done| |done| | | | | |done].
  - intros e' j. rewrite lookup_insert. case_decide as Hx; [|apply Hh]. intros [= <-]. subst e'. by split.
  - intros c Hcin. destruct (Hr c Hcin) as (Ha & j & Hj & Hid). split; [done|]. rewrite lookup_insert.
    case_decide as Hx; [|by exists j]. subst e. rewrite He in Hj. injection Hj as <-. by eexists.
  - intros e'. rewrite !confirmations_app, Hft, Ho, lookup_insert. unfold confirmations. cbn [List.filter confirms].
    case_decide as Hx.
    + subst e'. rewrite He, Hc. by rewrite bool_decide_eq_true_2.
    + rewrite bool_decide_eq_false_2 by done. cbn [length]. lia.
  - intros e' b' act. rewrite !elem_of_app, list_elem_of_singleton, lookup_insert.
    intros [Hx|[Hx%Hin_f|[= -> -> ->]]]; [|discriminate Hx|].
    + case_decide as Heq; [|by apply Hcf]. subst e'. by apply Hnone in Hx.
    + rewrite decide_True by done. by eexists.
  - intros e'. rewrite !elem_of_app, list_elem_of_singleton, lookup_insert.
    intros [Hx|[Hx%Hin_f|Hx]]; [|discriminate Hx|discriminate Hx]. case_decide; [by eexists|by apply Hbr].
  - intros e' j Hj. rewrite lookup_insert. case_decide as Hx.
    + subst e'. rewrite He in Hj. injection Hj as <-. eexists. split; [done|]. split_and!; [done|done|]. congruence.
    + exists j. split; [done|apply election_evolves_refl].
Qed.

(** The election after a possible confirmation. *)
Definition after_confirm (q : Z) (s : store) (i : election_info) : election_info :=
  if confirmed i then i else confirm_with (settles q s i) i.

Lemma runs_confirm e a i q :
  active_ok gb a -> heap a !! e = Some i -> supply inactive (at_store a) = Ok q ->
  runs (confirm_once inactive e) a (fun _ a' => at_store a' = at_store a /\ roots a' = roots a
    /\ heap a' = <[e := after_confirm q (at_store a) i]> (heap a)).
Proof.
  intros Hok He Hq. eexists _, _. split; [by apply (confirm_once_run e a i q)|]. unfold after_confirm.
  destruct (confirmed i) eqn:Hc.
  - split_and!; [done|done|done|done|]. by rewrite insert_id.
  - destruct (confirmed_ok e a i (settles q (at_store a) i) Hok He Hc (settles_ok e a i q Hok He)). by split_and!.
Qed.

Lemma runs_quorum e a i q :
  active_ok gb a -> heap a !! e = Some i -> supply inactive (at_store a) = Ok q ->
  exists t b, winner (at_store a) (e_votes i) = Some (t, b)
  /\ runs (confirm_if_quorum inactive e) a (fun _ a' => at_store a' = at_store a /\ roots a' = roots a
       /\ heap a' = <[e := if q / 2 <? t then after_confirm q (at_store a) i else i]> (heap a)).
Proof.
  intros Hok He Hq. destruct (runs_first e a i Hok He) as (t & b & Hw & _ & Hfirst). exists t, b. split; [done|].
  unfold confirm_if_quorum. eapply runs_read.
  { unfold have_quorum. erewrite st_bind_ok by exact Hfirst. unfold quorum_threshold. erewrite st_bind_ok.
    2:{ erewrite st_bind_ok by (unfold st_run; rewrite Hq; reflexivity). reflexivity. }
    reflexivity. }
  cbn [fst]. destruct (q / 2 <? t); [by apply runs_confirm|].
  apply runs_ret; [done|]. by rewrite insert_id.
Qed.

(** The election after the vote [v], with the first total [t] of the new tally. *)
Definition after_vote (q : Z) (s : store) (now : Z) (v : vote) (i : election_info) : election_info :=
  let i' := ElectionInfo (confirmation_action i) (snd (votes_vote v (e_votes i))) now (last_winner i) (confirmed i) in
  match winner s (e_votes i') with
  | Some (t, _) => if q / 2 <? t then after_confirm q s i' else i'
  | None => i'
  end.

Lemma runs_republish last v a :
  active_ok gb a -> runs (republish_vote last v) a (fun _ a' => exists ts, same_elections ts a a').
Proof.
  intros Hok. unfold republish_vote. eapply runs_bind; [by apply runs_now|]. intros now a1 Hok1 _ [_ S1].
  destruct (last <? now - 1000); [|by apply runs_ret; [done|exists []]].
  eapply runs_read; [reflexivity|]. destruct (_ <? weight _ _); [|by apply runs_ret; [done|exists []]].
  eapply runs_weaken; [by apply runs_background|]. intros [] a2 S2. exists [Republish_vote v].
  destruct S1 as [A1 A2 A3 A4 A5 A6], S2 as [B1 B2 B3 B4 B5 B6].
  split; [congruence|auto|congruence|congruence|congruence|]. by rewrite B6, A6, app_nil_r.
Qed.

Lemma runs_vote e a i v q :
  active_ok gb a -> heap a !! e = Some i -> supply inactive (at_store a) = Ok q ->
  vote_ok v -> validate_message (v_account v) (vote_hash v) (v_signature v) = false ->
  root (v_block v) = votes_id (e_votes i) ->
  runs (election_vote inactive e v) a (fun _ a' => at_store a' = at_store a /\ roots a' = roots a
    /\ exists now, heap a' = <[e := after_vote q (at_store a) now v i]> (heap a)).
Proof.
  intros Hok He Hq Hv Hval Hroot. unfold election_vote. eapply runs_read; [by apply election_get_at|].
  eapply runs_bind; [by apply runs_republish|]. intros [] a1 Hok1 _ (ts & [S1 _ H1' _ R1 _]).
  eapply runs_bind; [by apply runs_now|]. intros now a2 Hok2 _ [_ [S2 _ H2' _ R2 _]].
  assert (He2 : heap a2 !! e = Some i) by congruence. eapply runs_read; [by apply election_get_at|].
  destruct (ao_heap _ _ Hok2 _ _ He2) as [Hi _].
  set (i3 := ElectionInfo (confirmation_action i) (e_votes i) now (last_winner i) (confirmed i)).
  assert (Hi3 : election_ok i3) by (destruct Hi; by split).
  eapply runs_bind; [apply (runs_put a2 e i i3); [done|done|done|by split_and!|done]|]. intros [] a3 Hok3 _ ->.
  destruct (vote_validate_run v _ (ao_votes _ _ Hok3) Hv Hval) as (c & r & v' & Hvv & Hc & Hv').
  eapply runs_bind; [by apply (runs_votes _ _ (c, r) v')|]. intros [c' r'] a4 Hok4 _ [[= -> ->] [S4 _ H4' _ R4 _]].
  cbn [put_election at_store heap roots] in S4, H4', R4. cbn [fst]. rewrite bool_decide_eq_false_2 by done.
  eapply runs_read; [reflexivity|].
  assert (He4 : heap a4 !! e = Some i3) by (rewrite H4'; apply lookup_insert_eq).
  eapply runs_read; [by apply election_get_at|].
  set (i5 := set_votes (snd (votes_vote v (e_votes i3))) i3).
  assert (Hi5 : election_ok i5) by (apply voted_ok; [done|done|apply Hv]).
  eapply runs_bind; [apply (runs_put a4 e i3 i5); [done|done|done| |done]; apply set_votes_evolves, votes_vote_id|].
  intros [] a5 Hok5 _ ->.
  destruct (runs_quorum e (put_election e i5 a4) i5 q Hok5) as (t & b & Hw & Hrun);
    [apply lookup_insert_eq|cbn [put_election at_store]; congruence|].
  eapply runs_weaken; [exact Hrun|]. cbn [put_election at_store heap roots] in Hw |- *.
  intros _ a6 (S6 & R6 & H6). split_and!; [congruence|congruence|]. exists now. unfold after_vote. cbv zeta.
  change (ElectionInfo _ _ now _ _) with i5. cbn [e_votes].
  assert (Hs : at_store a4 = at_store a) by congruence. rewrite Hs in Hw, H6. rewrite Hw.
  rewrite H6, H4', H2', H1'. rewrite !insert_insert_eq. done.
Qed.

(** ** The elections that are going on *)

Lemma roots_find_some r l c : roots_find r l = Some c -> c ∈ l /\ conflict_root c = r.
Proof.
  unfold roots_find. induction l as [|x l IH]; cbn; [done|]. destruct (Z.eqb_spec (conflict_root x) r) as [<-|Hn].
  - intros [= ->]. split; [left|done].
  - intros [? ?]%IH. split; [by right|done].
Qed.

Lemma roots_find_none r l : roots_find r l = None -> forall c, c ∈ l -> conflict_root c <> r.
Proof.
  unfold roots_find. induction l as [|x l IH]; cbn; [by intros _ c ?%not_elem_of_nil|].
  destruct (Z.eqb_spec (conflict_root x) r) as [|Hn]; [done|]. intros Hf c [->|Hc]%elem_of_cons; [done|by apply IH].
Qed.

Lemma roots_insert_elem x c l : x ∈ roots_insert c l <-> x = c \/ x ∈ l.
Proof.
  induction l as [|y l IH]; cbn; [rewrite list_elem_of_singleton; split; [by left|intros [|?%not_elem_of_nil]; done]|].
  destruct (conflict_root c <? conflict_root y); rewrite !elem_of_cons, ?IH; naive_solver.
Qed.

Lemma roots_insert_sorted c l :
  StronglySorted root_before l -> (forall x, x ∈ l -> conflict_root x <> conflict_root c) ->
  StronglySorted root_before (roots_insert c l).
Proof.
  induction 1 as [|y l Hl IH Hy]; intros Hn; cbn; [by repeat constructor|].
  assert (Hny : conflict_root y <> conflict_root c) by (apply Hn; left).
  destruct (Z.ltb_spec (conflict_root c) (conflict_root y)) as [Hlt|Hge].
  - constructor; [by constructor|]. constructor; [done|]. eapply List.Forall_impl; [|exact Hy]. unfold root_before. lia.
  - constructor; [apply IH; intros x Hx; apply Hn; by right|]. apply Forall_forall.
    intros x [->|Hx]%roots_insert_elem; [unfold root_before; lia|]. exact (proj1 (Forall_forall _ _) Hy x Hx).
Qed.

Lemma runs_set_roots f a :
  active_ok gb a -> StronglySorted root_before (f (roots a)) ->
  (forall c, c ∈ f (roots a) -> 0 <= announcements c < contigious_announcements
     /\ exists i, heap a !! conflict_election c = Some i /\ votes_id (e_votes i) = conflict_root c) ->
  runs (set_roots f) a (fun _ a' => at_store a' = at_store a /\ heap a' = heap a /\ tasks a' = tasks a /\ roots a' = f (roots a)).
Proof.
  intros [Hs Hv Hh Hso Hr Ho Hcf Hbr] Hso' Hr'. eexists _, _. split; [reflexivity|]. split_and!; [by split| |done..].
  split; [|done]. intros e i Hi. exists i. split; [done|apply election_evolves_refl].
Qed.

(** A new election. *)
Lemma runs_new b act a :
  active_ok gb a -> block_exists (at_store a) (hash b) = true -> block_ok b ->
  runs (election_new ws b act) a (fun e a' => at_store a' = at_store a /\ roots a' = roots a
    /\ exists i, heap a' !! e = Some i /\ votes_id (e_votes i) = root b).
Proof.
  intros Hok Hex Hb. unfold election_new. eapply runs_bind; [by apply runs_now|].
  intros now a1 Hok1 _ [_ [S1 _ H1' N1 R1 T1]]. eapply runs_read; [reflexivity|]. rewrite S1, Hex.
  eapply runs_read; [reflexivity|].
  set (i := ElectionInfo act (votes_new not_an_account b) now b false). set (e := heap_next a1).
  set (a2 := Active (at_store a1) (at_votes a1) (<[e := i]> (heap a1)) (S e) (roots a1) (at_readings a1) (tasks a1)).
  assert (Hi : election_ok i).
  { split; cbn; [apply NoDup_singleton|done| |done]. intros c Hc%list_elem_of_singleton. by subst c. }
  assert (Hfresh : heap a1 !! e = None).
  { destruct (heap a1 !! e) as [j|] eqn:Hj; [|done]. apply (ao_heap _ _ Hok1) in Hj as [_ Hlt]. unfold e in Hlt. lia. }
  assert (Hok2 : active_ok gb a2 /\ evolves a1 a2).
  { destruct Hok1 as [Hs Hv Hh Hso Hr Ho Hcf Hbr].
    split; [split|split]; cbn [a2 at_store at_votes heap heap_next roots tasks]; [done|done| |done| | | | | |unfold e; lia].
    - intros e' j. rewrite lookup_insert. case_decide as Hx; [intros [= <-]; subst e'; split; [done|lia]|].
      intros Hj. destruct (Hh _ _ Hj). split; [done|]. unfold e. lia.
    - intros c Hc. destruct (Hr c Hc) as (Ha & j & Hj & Hid). split; [done|]. exists j. rewrite lookup_insert_ne; [done|].
      intros Heq. congruence.
    - intros e'. rewrite Ho, lookup_insert. case_decide as Hx; [|done]. subst e'. by rewrite Hfresh.
    - intros e' b' act' Hx. destruct (Hcf _ _ _ Hx) as (j & Hj & Hrest). exists j. rewrite lookup_insert_ne; [done|congruence].
    - intros e' Hx. rewrite lookup_insert. case_decide; [by eexists|by apply Hbr].
    - intros e' j Hj. exists j. rewrite lookup_insert_ne by congruence. split; [done|apply election_evolves_refl]. }
  destruct Hok2 as [Hok2 Hev2].
  eapply (runs_bind _ _ _ (fun r a' => r = e /\ a' = a2)); [by exists e, a2|]. intros r a3 _ _ [-> ->].
  assert (He2 : heap a2 !! e = Some i) by apply lookup_insert_eq.
  eapply runs_bind; [by apply (runs_compute e a2 i)|]. intros [] a4 Hok4 Hev4 [V1 (v & V2) V3 V4].
  apply runs_ret; [done|]. split_and!; [rewrite V1; exact S1|rewrite V3; exact R1|].
  destruct (proj1 Hev4 _ _ He2) as (i' & Hi' & Hid & _). exists i'. split; [done|]. by rewrite Hid.
Qed.

Lemma runs_start b act a :
  active_ok gb a -> block_exists (at_store a) (hash b) = true -> block_ok b ->
  runs (active_start ws b act) a (fun r a' => (forall c, c ∈ roots a -> c ∈ roots a')
    /\ (r = true <-> active_block a b = true) /\ active_block a' b = true).
Proof.
  intros Hok Hex Hb. unfold active_start, active_block. eapply runs_read; [reflexivity|].
  destruct (roots_find (root b) (roots a)) as [c|] eqn:Hf.
  { apply runs_ret; [done|]. rewrite Hf. rewrite bool_decide_eq_true_2 by (by eexists). by split_and!. }
  eapply runs_bind; [by apply runs_new|]. intros e a1 Hok1 Hev1 (S1 & R1 & i & Hi & Hid).
  pose proof (roots_find_none _ _ Hf) as Hn.
  eapply runs_bind.
  { apply runs_set_roots; [done| |].
    - rewrite R1. apply roots_insert_sorted; [|exact Hn]. rewrite <- R1. apply Hok1.
    - intros c [->|Hc]%roots_insert_elem; [|by apply (ao_roots _ _ Hok1)]. unfold contigious_announcements. cbn.
      split; [lia|by exists i]. }
  intros [] a2 Hok2 _ (_ & _ & _ & R2). apply runs_ret; [done|]. rewrite R2, R1. split_and!.
  - intros c Hc. apply roots_insert_elem. by right.
  - split; [done|]. intros [? ?]%bool_decide_eq_true. congruence.
  - apply bool_decide_eq_true. destruct (roots_find (root b) (roots_insert _ _)) eqn:Hx; [by eexists|]. exfalso.
    apply (roots_find_none _ _ Hx (ConflictInfo (root b) e 0)); [apply roots_insert_elem; by left|done].
Qed.

Lemma runs_active_vote v a :
  active_ok gb a -> vote_ok v -> validate_message (v_account v) (vote_hash v) (v_signature v) = false ->
  runs (active_vote inactive v) a (fun _ a' => roots a' = roots a).
Proof.
  intros Hok Hv Hval. unfold active_vote. eapply runs_read; [reflexivity|].
  destruct (roots_find _ _) as [c|] eqn:Hf; [|by apply runs_ret].
  destruct (roots_find_some _ _ _ Hf) as [Hc Hr]. destruct (ao_roots _ _ Hok c Hc) as (_ & i & Hi & Hid).
  destruct (supply_found a Hok) as (q & Hq & _).
  eapply runs_weaken; [apply (runs_vote _ a i v q); [done..|congruence]|]. by intros [] a' (_ & R & _).
Qed.

(** *** Announcements *)

(** The elections announced by the tasks, in order. *)
Definition broadcasts (ts : list task) : list nat :=
  omap (fun t => match t with Broadcast_winner e => Some e | _ => None end) ts.

Lemma broadcasts_app ts ts' : broadcasts (ts ++ ts') = broadcasts ts ++ broadcasts ts'.
Proof. unfold broadcasts. by rewrite omap_app. Qed.

Definition last_round (c : conflict_info) : bool := contigious_announcements - 1 <=? announcements c.

(** What an announcement makes of an entry of [roots] that stays. *)
Definition tick (c : conflict_info) : conflict_info :=
  if last_round c then c else ConflictInfo (conflict_root c) (conflict_election c) (announcements c + 1).

Lemma runs_cutoff e a i :
  active_ok gb a -> heap a !! e = Some i ->
  runs (confirm_cutoff inactive e) a (fun _ a' => at_store a' = at_store a /\ roots a' = roots a
    /\ broadcasts (tasks a') = broadcasts (tasks a)
    /\ exists i', heap a' !! e = Some i' /\ confirmed i' = true /\ votes_id (e_votes i') = votes_id (e_votes i)).
Proof.
  intros Hok He. destruct (supply_found a Hok) as (q & Hq & _). unfold confirm_cutoff.
  destruct (runs_confirm e a i q Hok He Hq) as ([] & a' & Hrun & Hok' & Hev & Hs & Hr & Hh).
  exists tt, a'. split_and!; [done|done|done|done|done| |].
  - rewrite (confirm_once_run e a i q Hok He Hq) in Hrun. injection Hrun as <-. destruct (confirmed i); [done|].
    cbn [confirmed_state tasks]. rewrite !broadcasts_app. destruct (block_eqb _ _); cbn; by rewrite app_nil_r.
  - rewrite Hh, lookup_insert_eq. eexists. split; [done|]. unfold after_confirm. by destruct (confirmed i) eqn:Hc.
Qed.

Lemma conflict_at a c :
  active_ok gb a -> c ∈ roots a ->
  0 <= announcements c < 4 /\ exists i, heap a !! conflict_election c = Some i /\ votes_id (e_votes i) = conflict_root c.
Proof. intros Hok Hc. exact (ao_roots _ _ Hok c Hc). Qed.

Lemma runs_announce_roots l a :
  active_ok gb a -> (forall c, c ∈ l -> c ∈ roots a) ->
  runs (announce_roots inactive 0 l) a (fun r a' => at_store a' = at_store a /\ roots a' = roots a
    /\ fst r = tick <$> l /\ snd r = conflict_root <$> List.filter last_round l
    /\ (forall c, c ∈ l -> last_round c = true -> exists i, heap a' !! conflict_election c = Some i /\ confirmed i = true)
    /\ broadcasts (tasks a') = broadcasts (tasks a) ++ (conflict_election <$> l)).
Proof.
  revert a. induction l as [|c l IH]; intros a Hok Hl; cbn [announce_roots].
  { apply runs_ret; [done|]. split_and!; [done..|by intros c ?%not_elem_of_nil|by rewrite app_nil_r]. }
  change (0 <? announcements_per_interval)%nat with true. cbv iota zeta.
  destruct (conflict_at a c Hok (Hl c ltac:(left))) as (Ha & i & Hi & Hid).
  eapply runs_bind; [apply runs_background; [done|by eexists]|].
  intros [] a1 Hok1 _ [S1 _ H1' _ R1 T1].
  eapply (runs_bind _ _ _ (fun r a' => at_store a' = at_store a /\ roots a' = roots a
    /\ r = (tick c, if last_round c then [conflict_root c] else [])
    /\ (last_round c = true -> exists i', heap a' !! conflict_election c = Some i' /\ confirmed i' = true)
    /\ broadcasts (tasks a') = broadcasts (tasks a) ++ [conflict_election c])).
  - unfold tick. fold (last_round c). destruct (last_round c) eqn:Hlr.
    + eapply runs_bind; [apply (runs_cutoff _ a1 i); [done|by rewrite H1']|].
      intros [] a2 Hok2 _ (S2 & R2 & B2 & i' & Hi' & Hc' & Hid'). eapply runs_read; [by apply election_get_at|].
      apply runs_ret; [done|]. split_and!; [congruence|congruence| |by eauto|].
      * by rewrite Hid', Hid.
      * by rewrite B2, T1, broadcasts_app.
    + rewrite (wrap_small 32) by (unfold fits; lia). eapply runs_read; [apply election_get_at; by rewrite H1'|].
      eapply (runs_bind _ _ _ (fun _ a' => at_store a' = at_store a1 /\ roots a' = roots a1
        /\ broadcasts (tasks a') = broadcasts (tasks a1))).
      * destruct (_ && _); [|by apply runs_ret].
        eapply runs_weaken; [by apply runs_background|]. intros [] a2 [S2 _ _ _ R2 T2]. split_and!; [done|done|].
        rewrite T2, broadcasts_app. by rewrite app_nil_r.
      * intros [] a2 Hok2 _ (S2 & R2 & B2). apply runs_ret; [done|]. split_and!; [congruence|congruence|done|done|].
        by rewrite B2, T1, broadcasts_app.
  - intros r a2 Hok2 Hev2 (S2 & R2 & -> & Hc2 & B2).
    eapply runs_bind; [apply (IH a2 Hok2); rewrite R2; intros d Hd; apply Hl; by right|].
    intros [l' ina] a3 Hok3 Hev3 (S3 & R3 & E1 & E2 & Hc3 & B3). cbn [fst snd] in E1, E2. subst l' ina.
    apply runs_ret; [done|]. split_and!; [congruence|congruence|done| | |].
    + cbn [fst snd List.filter]. by destruct (last_round c).
    + intros d [->|Hd]%elem_of_cons Hlr; [|by apply Hc3]. destruct (Hc2 Hlr) as (i2 & Hi2 & Hcf2).
      destruct (proj1 Hev3 _ _ Hi2) as (i3 & Hi3 & _ & _ & Hk). exists i3. split; [done|]. by apply Hk.
    + rewrite B3, B2, <- app_assoc. done.
Qed.

Lemma tick_root c : conflict_root (tick c) = conflict_root c.
Proof. unfold tick. by destruct (last_round c). Qed.
Lemma tick_election c : conflict_election (tick c) = conflict_election c.
Proof. unfold tick. by destruct (last_round c). Qed.

Lemma root_unique l c d :
  StronglySorted root_before l -> c ∈ l -> d ∈ l -> conflict_root c = conflict_root d -> c = d.
Proof.
  induction 1 as [|x l Hl IH Hx]; [by intros ?%not_elem_of_nil|].
  rewrite !elem_of_cons. intros [->|Hc] [->|Hd] He; [done| | |by apply IH].
  - pose proof (proj1 (Forall_forall _ _) Hx d Hd) as Hlt. unfold root_before in Hlt. lia.
  - pose proof (proj1 (Forall_forall _ _) Hx c Hc) as Hlt. unfold root_before in Hlt. lia.
Qed.

Lemma sorted_roots_filter (P : conflict_info -> Prop) `{forall x, Decision (P x)} l :
  StronglySorted root_before l -> StronglySorted root_before (filter P l).
Proof.
  induction 1 as [|x l Hl IH Hx]; [constructor|]. rewrite filter_cons. destruct (decide (P x)); [|done].
  constructor; [done|]. apply Forall_forall. intros y [_ Hy]%list_elem_of_filter. exact (proj1 (Forall_forall _ _) Hx y Hy).
Qed.

Lemma sorted_tick l : StronglySorted root_before l -> StronglySorted root_before (tick <$> l).
Proof.
  induction 1 as [|x l Hl IH Hx]; cbn [fmap list_fmap]; [constructor|]. constructor; [done|]. apply Forall_forall.
  intros y (c & -> & Hc)%list_elem_of_fmap. unfold root_before. rewrite !tick_root. exact (proj1 (Forall_forall _ _) Hx c Hc).
Qed.

(** Roots to be erased are there, each once. *)
Lemma runs_erase ina a :
  active_ok gb a -> NoDup ina -> (forall r, r ∈ ina -> exists c, c ∈ roots a /\ conflict_root c = r) ->
  runs (erase_roots ina) a (fun _ a' => at_store a' = at_store a /\ heap a' = heap a /\ tasks a' = tasks a
    /\ forall c, c ∈ roots a' <-> c ∈ roots a /\ conflict_root c ∉ ina).
Proof.
  intros Hok Hn. revert a Hok. induction Hn as [|r ina Hr Hn IH]; intros a Hok Hall; cbn [erase_roots].
  { apply runs_ret; [done|]. split_and!; [done..|]. intros c. split; [intros Hc; split; [done|apply not_elem_of_nil]|by intros [? _]]. }
  eapply runs_read; [reflexivity|]. destruct (Hall r ltac:(left)) as (c & Hc & Hcr).
  destruct (roots_find r (roots a)) as [d|] eqn:Hf; [|by destruct (roots_find_none _ _ Hf c Hc)].
  rewrite bool_decide_eq_true_2 by (by eexists). eapply runs_read; [reflexivity|].
  assert (Hel : forall x, x ∈ roots_erase r (roots a) <-> x ∈ roots a /\ conflict_root x <> r)
    by (intros x; unfold roots_erase; rewrite list_elem_of_filter; tauto).
  eapply runs_bind.
  { apply runs_set_roots; [done|apply sorted_roots_filter, Hok|].
    intros x [Hx _]%Hel. by apply (ao_roots _ _ Hok). }
  intros [] a1 Hok1 _ (S1 & H1' & T1 & R1). eapply runs_weaken.
  - apply (IH a1 Hok1). intros r' Hr'. destruct (Hall r' ltac:(by right)) as (x & Hx & Hxr). exists x. split; [|done].
    rewrite R1. apply Hel. split; [done|]. intros He. apply Hr. by rewrite <- He, Hxr.
  - intros [] a2 (S2 & H2' & T2 & Hel2). split_and!; [congruence|congruence|congruence|]. intros x.
    rewrite Hel2, R1, Hel, not_elem_of_cons. tauto.
Qed.

Lemma nodup_last_roots l :
  StronglySorted root_before l -> NoDup (conflict_root <$> List.filter last_round l).
Proof.
  induction 1 as [|x l Hl IH Hx]; cbn; [constructor|]. destruct (last_round x); [|done]. cbn. apply NoDup_cons.
  split; [|done]. intros (y & Hy & Hm)%list_elem_of_fmap. apply list_elem_of_In, filter_In in Hm as [Hm%list_elem_of_In _].
  pose proof (proj1 (Forall_forall _ _) Hx y Hm) as Hlt. unfold root_before in Hlt. lia.
Qed.

Lemma runs_announce a :
  active_ok gb a ->
  runs (announce_votes inactive) a (fun _ a' =>
    (forall c', c' ∈ roots a' <-> exists c, c ∈ roots a /\ last_round c = false /\ c' = tick c)
    /\ (forall c, c ∈ roots a -> last_round c = true -> exists i, heap a' !! conflict_election c = Some i /\ confirmed i = true)
    /\ broadcasts (tasks a') = broadcasts (tasks a) ++ (conflict_election <$> roots a)).
Proof.
  intros Hok. unfold announce_votes. eapply runs_read; [reflexivity|].
  eapply runs_bind; [by apply (runs_announce_roots (roots a) a)|].
  intros [l ina] a1 Hok1 Hev1 (S1 & R1 & E1 & E2 & Hcf & B1). cbn [fst snd] in E1, E2 |- *. subst l ina.
  pose proof (ao_sorted _ _ Hok) as Hso.
  eapply runs_bind.
  { apply (runs_set_roots (fun _ => tick <$> roots a)); [done|by apply sorted_tick|].
    intros x (c & -> & Hc)%list_elem_of_fmap. rewrite tick_root, tick_election.
    assert (Hc1 : c ∈ roots a1) by (by rewrite R1). destruct (conflict_at a1 c Hok1 Hc1) as (Ha & i & Hi & Hid).
    split; [|by exists i]. unfold tick, last_round, contigious_announcements.
    destruct (Z.leb_spec (4 - 1) (announcements c)); cbn; lia. }
  intros [] a2 Hok2 _ (S2 & H2' & T2 & R2).
  eapply runs_bind.
  { apply (runs_erase (conflict_root <$> List.filter last_round (roots a)) a2 Hok2); [by apply nodup_last_roots|].
    intros r (c & -> & Hc)%list_elem_of_fmap. apply list_elem_of_In, filter_In in Hc as [Hc%list_elem_of_In _].
    exists (tick c). rewrite R2, tick_root. split; [|done]. apply list_elem_of_fmap. eauto. }
  intros [] a3 Hok3 _ (S3 & H3' & T3 & Hel).
  eapply runs_bind; [by apply runs_now|]. intros now a4 Hok4 _ [_ [S4 _ H4' _ R4 T4]].
  eapply runs_weaken; [by apply runs_background|]. intros [] a5 [S5 _ H5' _ R5 T5]. split_and!.
  - intros c'. rewrite R5, R4, Hel, R2, list_elem_of_fmap. split.
    + intros [(c & -> & Hc) Hn]. exists c. split_and!; [done| |done]. destruct (last_round c) eqn:Hlr; [|done].
      exfalso. apply Hn. rewrite tick_root. apply list_elem_of_fmap. exists c. split; [done|]. by apply list_elem_of_In, filter_In; split; [apply list_elem_of_In|].
    + intros (c & Hc & Hlr & ->). split; [eauto|]. rewrite tick_root. intros (d & Hd & Hin')%list_elem_of_fmap.
      apply list_elem_of_In, filter_In in Hin' as [Hin' Hlr']. apply list_elem_of_In in Hin'.
      assert (c = d) as -> by (by apply (root_unique (roots a))). congruence.
  - intros c Hc Hlr. rewrite H5', H4', H3', H2'. by apply Hcf.
  - rewrite T5, T4, broadcasts_app, app_nil_r, app_nil_r, T3, T2. exact B1.
Qed.
End Operations.

(** ** Runs *)

Inductive happening := Announcement | Stopping | Other_event.
#[export] Instance happening_eq_dec : EqDecision happening.
Proof. solve_decision. Defined.

Definition new_active (s : store) (v : vote_store) (readings : nat) : active_transactions :=
  Active s v ∅ 0 [] readings [].

Section Runs.
Context `{Environment, Signing, NodeEnvironment, Network, Iteration}.
Context (gb : open_block) (ws : list wallet) (inactive : Z).

(** What may happen: an election is started for a block of the ledger, a vote
    with a valid signature comes in, a winner is broadcast in the background, all
    elections are announced, all are dropped; and the rest of the node changes
    the ledger or the table of votes. *)
Inductive election_step : happening -> active_transactions -> active_transactions -> Prop :=
| step_start b act r a a' :
    block_exists (at_store a) (hash b) = true -> block_ok b -> active_start ws b act a = Ok (r, a') ->
    election_step Other_event a a'
| step_vote v u a a' :
    vote_ok v -> validate_message (v_account v) (vote_hash v) (v_signature v) = false ->
    active_vote inactive v a = Ok (u, a') -> election_step Other_event a a'
| step_broadcast e u a a' :
    Broadcast_winner e ∈ tasks a -> broadcast_winner ws e a = Ok (u, a') -> election_step Other_event a a'
| step_announce u a a' : announce_votes inactive a = Ok (u, a') -> election_step Announcement a a'
| step_stop u a a' : active_stop a = Ok (u, a') -> election_step Stopping a a'
| step_node s' v' a :
    good_ledger gb s' -> vote_store_ok v' ->
    election_step Other_event a (Active s' v' (heap a) (heap_next a) (roots a) (at_readings a) (tasks a)).

Inductive election_run : list happening -> active_transactions -> active_transactions -> Prop :=
| run_nil a : election_run [] a a
| run_cons h hs a a1 a2 : election_step h a a1 -> election_run hs a1 a2 -> election_run (h :: hs) a a2.

Context (Hws : wallets_ok ws) (Hin : fits 128 inactive).

(** What a step does to an entry of [roots]. *)
Definition entry_goes_on (h : happening) (c : conflict_info) (a' : active_transactions) : Prop :=
  match h with
  | Other_event => c ∈ roots a'
  | Stopping => True
  | Announcement =>
      if last_round c then exists i, heap a' !! conflict_election c = Some i /\ confirmed i = true
      else tick c ∈ roots a'
  end.

Lemma runs_result {A} (m : M active_transactions A) a post r a' :
  runs (gb := gb) m a post -> m a = Ok (r, a') -> active_ok gb a' /\ evolves a a' /\ post r a'.
Proof. intros (r1 & a1 & He & Hrest) He'. rewrite He in He'. injection He' as -> ->. exact Hrest. Qed.

Lemma step_ok h a a' :
  active_ok gb a -> election_step h a a' ->
  active_ok gb a' /\ evolves a a' /\ forall c, c ∈ roots a -> entry_goes_on h c a'.
Proof.
  intros Hok Hstep. destruct Hstep as [b act r a a' Hex Hb Hrun|v u a a' Hv Hval Hrun|e u a a' He Hrun|u a a' Hrun|u a a' Hrun|s' v' a Hs Hv].
  - destruct (runs_result _ _ _ _ _ (runs_start Hws b act a Hok Hex Hb) Hrun) as (Hok' & Hev & Hc & _). by split_and!.
  - destruct (runs_result _ _ _ _ _ (runs_active_vote Hin v a Hok Hv Hval) Hrun) as (Hok' & Hev & Hr). split_and!; [done|done|].
    intros c Hc. cbn. by rewrite Hr.
  - destruct (runs_result _ _ _ _ _ (runs_broadcast Hws e a Hok (ao_broadcast _ _ Hok e He)) Hrun) as (Hok' & Hev & Hr & _).
    split_and!; [done|done|]. intros c Hc. cbn. by rewrite Hr.
  - destruct (runs_result _ _ _ _ _ (runs_announce Hin a Hok) Hrun) as (Hok' & Hev & Hel & Hcf & _). split_and!; [done|done|].
    intros c Hc. unfold entry_goes_on. destruct (last_round c) eqn:Hlr; [by apply Hcf|]. apply Hel. eauto.
  - injection Hrun as _ <-. destruct (runs_set_roots (fun _ => []) a Hok) as (u' & a2 & He & Hok2 & Hev2 & _);
      [constructor|by intros c ?%not_elem_of_nil|]. injection He as _ <-. by split_and!.
  - destruct Hok as [Hs0 Hv0 Hh Hso Hr Ho Hcf Hbr]. split_and!; [by split| |by intros c Hc].
    split; [|done]. intros e i Hi. exists i. split; [done|apply election_evolves_refl].
Qed.

Lemma run_ok hs a a' : active_ok gb a -> election_run hs a a' -> active_ok gb a' /\ evolves a a'.
Proof.
  intros Hok Hrun. induction Hrun as [a|h hs a a1 a2 Hstep _ IH]; [done|].
  destruct (step_ok h a a1 Hok Hstep) as (Hok1 & Hev1 & _). destruct (IH Hok1). split; [done|by etrans].
Qed.

Lemma new_active_ok s v r : good_ledger gb s -> vote_store_ok v -> active_ok gb (new_active s v r).
Proof.
  intros Hs Hv. split; cbn [new_active at_store at_votes heap heap_next roots tasks]; [done|done| |constructor| | | |].
  - intros e i. by rewrite lookup_empty.
  - by intros c ?%not_elem_of_nil.
  - intros e. by rewrite lookup_empty.
  - by intros e b act ?%not_elem_of_nil.
  - by intros e ?%not_elem_of_nil.
Qed.

Context (s0 : store) (v0 : vote_store) (r0 : nat) (hs0 : list happening) (a : active_transactions).
Context (Hs0 : good_ledger gb s0) (Hv0 : vote_store_ok v0) (Hrun : election_run hs0 (new_active s0 v0 r0) a).

Lemma reached_ok : active_ok gb a.
Proof. exact (proj1 (run_ok _ _ _ (new_active_ok s0 v0 r0 Hs0 Hv0) Hrun)). Qed.

(** Elections fail no assertion.  After any sequence of events, in which the
    rest of the node may change the ledger and the table of votes at will, every
    operation returns: starting an election for a block of the ledger, a vote
    with a valid signature, a broadcast that was scheduled, and an announcement. *)
Theorem elections_never_fail :
  (forall b act, block_exists (at_store a) (hash b) = true -> block_ok b ->
     exists r a', active_start ws b act a = Ok (r, a') /\ active_block a' b = true /\ (r = true <-> active_block a b = true))
  /\ (forall v, vote_ok v -> validate_message (v_account v) (vote_hash v) (v_signature v) = false ->
     exists a', active_vote inactive v a = Ok (tt, a') /\ roots a' = roots a)
  /\ (forall e, Broadcast_winner e ∈ tasks a -> exists a', broadcast_winner ws e a = Ok (tt, a') /\ roots a' = roots a)
  /\ exists a', announce_votes inactive a = Ok (tt, a').
Proof.
  pose proof reached_ok as Hok. split_and!.
  - intros b act Hex Hb. destruct (runs_start Hws b act a Hok Hex Hb) as (r & a' & He & _ & _ & _ & Hr & Ha). eauto.
  - intros v Hv Hval. destruct (runs_active_vote Hin v a Hok Hv Hval) as ([] & a' & He & _ & _ & Hr). eauto.
  - intros e He. destruct (runs_broadcast Hws e a Hok (ao_broadcast _ _ Hok e He)) as ([] & a' & Hb & _ & _ & Hr & _). eauto.
  - destruct (runs_announce Hin a Hok) as ([] & a' & He & _). eauto.
Qed.

(** C28: an election confirms one block.  After any sequence of events every
    election has announced a confirmed block at most once; the block is the one
    the election holds as its winner, was announced to the action the election
    was started with, and claims the root of the election. *)
Theorem elections_confirm_once (e : nat) :
  (confirmations e (tasks a) <= 1)%nat
  /\ (forall b act, Process_confirmed e b act ∈ tasks a ->
      exists i, heap a !! e = Some i /\ confirmed i = true /\ last_winner i = b /\ confirmation_action i = act
      /\ root b = votes_id (e_votes i))
  /\ (forall i, heap a !! e = Some i -> confirmed i = true -> confirmations e (tasks a) = 1%nat).
Proof.
  pose proof reached_ok as Hok. split_and!.
  - rewrite (ao_once _ _ Hok). destruct (heap a !! e) as [i|]; [destruct (confirmed i)|]; lia.
  - intros b act Hb. destruct (ao_confirmed _ _ Hok _ _ _ Hb) as (i & Hi & Hc & <- & Ha). exists i.
    destruct (ao_heap _ _ Hok _ _ Hi) as [Hio _]. split_and!; try done. apply (eo_winner _ Hio).
  - intros i Hi Hc. by rewrite (ao_once _ _ Hok), Hi, Hc.
Qed.

Fixpoint announcements_in (hs : list happening) : Z :=
  match hs with [] => 0 | h :: hs => (if decide (h = Announcement) then 1 else 0) + announcements_in hs end.

(** An entry of [roots] is confirmed when enough announcements are made. *)
Lemma entry_ends hs a1 a2 c :
  active_ok gb a1 -> election_run hs a1 a2 -> Stopping ∉ hs ->
  c ∈ roots a1 -> contigious_announcements <= announcements c + announcements_in hs ->
  exists i, heap a2 !! conflict_election c = Some i /\ confirmed i = true.
Proof.
  intros Hok Hr. revert c. induction Hr as [a1|h hs a1 a2 a3 Hstep Hr IH]; intros c Hns Hc Hk.
  { destruct (ao_roots _ _ Hok c Hc) as [Hlt _]. cbn in Hk. lia. }
  apply not_elem_of_cons in Hns as [Hns1 Hns2]. cbn [announcements_in] in Hk.
  destruct (step_ok h a1 a2 Hok Hstep) as (Hok2 & _ & Hgo). specialize (Hgo c Hc). destruct h; cbn in Hgo.
  - rewrite decide_True in Hk by done. destruct (last_round c) eqn:Hlr.
    + destruct Hgo as (i & Hi & Hcf). destruct (run_ok hs a2 a3 Hok2 Hr) as [_ [Hev _]].
      destruct (Hev _ _ Hi) as (i' & Hi' & _ & _ & Hk'). exists i'. split; [done|]. by apply Hk'.
    + rewrite <- (tick_election c). apply (IH Hok2 (tick c) Hns2 Hgo).
      unfold tick. rewrite Hlr. cbn [announcements]. lia.
  - by destruct Hns1.
  - rewrite decide_False in Hk by done. apply (IH Hok2 c Hns2 Hgo). lia.
Qed.


(** A quorum decides an election.  A vote with a valid signature for a block
    whose root is in an election enters the tally of that election and changes no
    other; the election is confirmed from then on when it was before or when the
    largest total of the new tally is more than half of the supply, and in the
    second case it settles on the block with that total. *)
Theorem active_vote_exact (v : vote) (c : conflict_info) (i : election_info) (q : Z) :
  vote_ok v -> validate_message (v_account v) (vote_hash v) (v_signature v) = false ->
  roots_find (root (v_block v)) (roots a) = Some c -> heap a !! conflict_election c = Some i ->
  supply inactive (at_store a) = Ok q ->
  exists a' i' t b, active_vote inactive v a = Ok (tt, a')
  /\ roots a' = roots a /\ heap a' = <[conflict_election c := i']> (heap a)
  /\ e_votes i' = snd (votes_vote v (e_votes i)) /\ winner (at_store a) (e_votes i') = Some (t, b)
  /\ confirmed i' = confirmed i || (q / 2 <? t)
  /\ last_winner i' = (if negb (confirmed i) && (q / 2 <? t) then b else last_winner i).
Proof.
  intros Hv Hval Hf Hi Hq. pose proof reached_ok as Hok. destruct (roots_find_some _ _ _ Hf) as [Hc Hr].
  destruct (ao_roots _ _ Hok c Hc) as (_ & i0 & Hi0 & Hid). rewrite Hi in Hi0. injection Hi0 as <-.
  destruct (runs_vote (conflict_election c) a i v q Hok Hi Hq Hv Hval ltac:(congruence))
    as ([] & a' & Hrun' & Hok' & _ & Hs & Hro & now & Hh).
  destruct (supply_found Hin a Hok) as (q' & Hq' & Hpos). rewrite Hq in Hq'. injection Hq' as <-.
  exists a', (after_vote q (at_store a) now v i).
  set (i1 := ElectionInfo (confirmation_action i) (snd (votes_vote v (e_votes i))) now (last_winner i) (confirmed i)) in *.
  assert (Hi1 : exists t b, winner (at_store a) (e_votes i1) = Some (t, b)).
  { destruct (ao_store _ _ Hok) as (n & R & Hn). destruct (reachable_inv _ _ _ R Hn) as (g & I).
    destruct (ao_heap _ _ Hok _ _ Hi) as [[Hk Hne _ _] _].
    destruct (winner_found I (e_votes i1)) as (t & b & Hw & _);
      [by apply votes_vote_keys|by apply votes_vote_nonempty|eauto]. }
  destruct Hi1 as (t & b & Hw). exists t, b. unfold after_vote. cbv zeta. fold i1. rewrite Hw.
  assert (He : active_vote inactive v a = Ok (tt, a')).
  { unfold active_vote. erewrite st_bind_ok by reflexivity. by rewrite Hf. }
  unfold after_vote in Hh. cbv zeta in Hh. fold i1 in Hh. rewrite Hw in Hh.
  split_and!; [exact He|exact Hro|exact Hh|..]; destruct (Z.ltb_spec (q / 2) t) as [Hlt|Hge]; try done.
  - unfold after_confirm. by destruct (confirmed i1).
  - unfold after_confirm. by destruct (confirmed i1).
  - unfold after_confirm. cbn [i1 confirmed]. destruct (confirmed i) eqn:Hc'; reflexivity.
  - cbn. by rewrite orb_false_r.
  - unfold after_confirm. cbn [i1 confirmed]. destruct (confirmed i) eqn:Hc'; cbn [negb andb]; [done|].
    cbn [confirm_with last_winner]. unfold settles. rewrite Hw.
    destruct (block_eqb_spec b (last_winner i1)) as [->|Hne]; [done|]. cbn [negb andb].
    rewrite (proj2 (Z.ltb_lt _ _)); [done|]. assert (q / 16 <= q / 2) by (apply Z.div_le_compat_l; lia). lia.
  - by rewrite andb_false_r.
Qed.

(** Announcements are not limited.  The code says that at most 32 elections
    are announced at a time; but the counter is never advanced, and an
    announcement broadcasts the winner of every election, however many there are. *)
Theorem announcements_not_limited :
  exists a', announce_votes inactive a = Ok (tt, a')
  /\ broadcasts (tasks a') = broadcasts (tasks a) ++ (conflict_election <$> roots a).
Proof.
  destruct (runs_announce Hin a reached_ok) as ([] & a' & He & _ & _ & _ & _ & Hb). eauto.
Qed.
End Runs.
