(* ===== verification/ProcessorExamples.v ===== *)
(** * The block processor and an election on a small ledger

    The blocks of the small ledger arrive in reverse order, one of them twice,
    and the store is flushed while two of them wait.  Then an election for the last
    block of the small ledger, which nobody contests, and a vote of the genesis account
    for it. *)
From Stdlib Require Import ZArith Lia List.
From stdpp Require Import prelude gmap.
From S2P Require Import Prelude Lists Numbers Streams Blocks Store Ledger StoreFacts LedgerInv LedgerQueries LedgerExtend LedgerShrink LedgerProcess LedgerRollback LedgerUndo LedgerUnique LedgerTheorems LedgerSub LedgerExamples Votes VotesExamples Work Unchecked Processor Forks GapCache Convergence Elections ElectionTheorems.

#[local] Existing Instance in_order.

(** A clock by which almost every transaction is cut short. *)
#[local] Instance sample_node : NodeEnvironment := {|
  steady_clock i := 900 * Z.of_nat i;
  not_an_account := 1;
  bootstrap_fraction_numerator := 1;
  hash_order l := l;
  hash_order_perm l := Permutation_refl l
|}.

Definition sample_arrivals : list event :=
  [Add (Item (Send send_3) false); Turn; Turn; Add (Item (Open open_2) false); Turn; Turn; Flush_store;
   Turn; Add (Item (Open open_2) false); Turn; Add (Item (Send send_1) false); Turn].

(** All blocks of a ledger. *)
Definition block_list (s : store) : list (Z * block) :=
  let of_table (m : gmap Z entry) := (fun e => (fst e, fst (snd e))) <$> map_to_list m in
  of_table (send_blocks s) ++ of_table (receive_blocks s) ++ of_table (open_blocks s)
  ++ of_table (change_blocks s) ++ of_table (send_blocks_v2 s).

Lemma block_listed s x b : block_get s x = Some b -> (x, b) ∈ block_list s.
Proof.
  intros Hx. unfold block_list.
  assert (Hin : forall (m : gmap Z entry) k, m !! x = Some (b, k) ->
      (x, b) ∈ (fun e : Z * entry => (fst e, fst (snd e))) <$> map_to_list m).
  { intros m k Hm. apply list_elem_of_fmap. exists (x, (b, k)). split; [done|]. by apply elem_of_map_to_list. }
  rewrite !elem_of_app. unfold block_get, block_get_raw in Hx.
  destruct (send_blocks s !! x) as [[? ?]|] eqn:E1; [injection Hx as ->; left; by eapply Hin|].
  destruct (receive_blocks s !! x) as [[? ?]|] eqn:E2; [injection Hx as ->; right; left; by eapply Hin|].
  destruct (open_blocks s !! x) as [[? ?]|] eqn:E3; [injection Hx as ->; right; right; left; by eapply Hin|].
  destruct (change_blocks s !! x) as [[? ?]|] eqn:E4; [injection Hx as ->; right; right; right; left; by eapply Hin|].
  destruct (send_blocks_v2 s !! x) as [[? ?]|] eqn:E5; [injection Hx as ->; right; right; right; right; by eapply Hin|done].
Qed.

Lemma blocks_of_4 : block_list ledger_4 =
  [(send_3_hash, Send send_3); (send_1_hash, Send send_1); (open_2_hash, Open open_2); (live_genesis_hash, Open live_genesis)].
Proof. vm_compute. reflexivity. Qed.

Lemma size_of_4 : size (all_hashes ledger_4) = 4%nat.
Proof. vm_compute. reflexivity. Qed.

Lemma found_in_4 :
  block_get ledger_4 (hash (Send send_3)) = Some (Send send_3)
  /\ block_get ledger_4 (hash (Open open_2)) = Some (Open open_2)
  /\ block_get ledger_4 (hash (Send send_1)) = Some (Send send_1).
Proof. rewrite send_3_hashed, open_2_hashed, send_1_hashed. split_and!; vm_compute; reflexivity. Qed.


(** ** Signatures *)


(** ** A fork of the first send *)

Definition fork_1_hash : Z := 43782612084175738422730172878486119752442687019003451157509903646557173432457.
Definition fork_1 : send_block :=
  SendBlock (SendHashables live_genesis_hash other_account (genesis_amount - 200)) (toy_sign live_account fork_1_hash) 0.

Lemma fork_1_hashed : hash (Send fork_1) = fork_1_hash.
Proof. vm_compute. reflexivity. Qed.
Lemma fork_1_admissible : admissible (Send fork_1).
Proof. show_admissible fork_1_hashed. Qed.

Definition node_3 : node := Node ledger_3 unchecked_empty [] 0 [].

(** The open block that received the first send goes with it. *)
Lemma forced_block_replaces_fork_witness :
  exists r nd', (replace_forced (Send fork_1) ;;; process_receive_one (Send fork_1))%m node_3 = Ok (r, nd')
  /\ ~ displaced (code r) /\ block_get (n_store nd') send_1_hash = None
  /\ (forall x b', x <> hash (Send fork_1) -> block_get (n_store nd') x = Some b' -> block_get ledger_3 x = Some b')
  /\ (code r = progress -> block_get (n_store nd') (hash (Send fork_1)) = Some (Send fork_1)).
Proof.
  apply (forced_block_replaces_fork live_genesis 3 node_3 (Send fork_1) (Send send_1) send_1_hash
    reach_3 (fuel_ok 3 ltac:(lia))).
  - apply (bool_decide_unpack _). vm_compute. exact I.
  - exact fork_1_admissible.
  - rewrite fork_1_hashed. vm_compute. reflexivity.
  - split_and!; [vm_compute; reflexivity..|discriminate].
  - rewrite fork_1_hashed. discriminate.
  - vm_compute. reflexivity.
  - exact (fun H => H).
Defined.

(** A copy of the open block with more work and no signature. *)
Lemma known_block_loses_its_signature_witness :
  exists nd', process_receive_one (Open (OpenBlock (open_h open_2) 0 3)) node_3 = Ok (failed old, nd')
  /\ block_get (n_store nd') (hash (Open open_2)) = Some (Open (OpenBlock (open_h open_2) 0 3))
  /\ forall x, x <> hash (Open open_2) -> block_get (n_store nd') x = block_get ledger_3 x.
Proof.
  apply (known_block_loses_its_signature live_genesis 3 node_3 open_2 0 3 reach_3 (fuel_ok 3 ltac:(lia))).
  - rewrite open_2_hashed. vm_compute. reflexivity.
  - vm_compute. reflexivity.
Defined.

(** ** Gaps *)

Definition node_gap : node := Node ledger_1 unchecked_empty [GapInformation 0 9 (votes_new 1 (Send send_3))] 20 [].

Lemma node_gap_ok : gaps_ok (n_gaps node_gap).
Proof. split; [apply NoDup_singleton|by repeat constructor|cbn; unfold gap_cache_max; lia]. Qed.

Lemma node_gap_past g : g ∈ n_gaps node_gap -> arrival g <= steady_clock (n_readings node_gap).
Proof.
  intros Hg. apply elem_of_cons in Hg as [->|Hg]; [apply (bool_decide_unpack _); vm_compute; exact I|].
  destruct (not_elem_of_nil _ Hg).
Qed.

Lemma gap_cache_add_exact_witness :
  let now := steady_clock (n_readings node_gap) in
  exists n', gap_cache_add (Open open_2) node_gap = Ok (tt, n') /\ gaps_ok (n_gaps n')
  /\ n_store n' = n_store node_gap /\ n_unchecked n' = n_unchecked node_gap
  /\ match gap_find (hash (Open open_2)) (n_gaps node_gap) with
     | Some info => forall g, g ∈ n_gaps n' <->
         g = GapInformation now (hash (Open open_2)) (gap_votes info)
         \/ g ∈ n_gaps node_gap /\ gap_hash g <> hash (Open open_2)
     | None => n_gaps n' = (if (length (n_gaps node_gap) <? gap_cache_max)%nat then n_gaps node_gap else tail (n_gaps node_gap))
                           ++ [GapInformation now (hash (Open open_2)) (votes_new not_an_account (Open open_2))]
     end.
Proof. exact (gap_cache_add_exact node_gap (Open open_2) node_gap_ok node_gap_past). Defined.

Lemma purge_old_exact_witness :
  exists n', purge_old node_gap = Ok (tt, n') /\ gaps_ok (n_gaps n')
  /\ (forall g, g ∈ n_gaps n' -> g ∈ n_gaps node_gap)
  /\ (forall g, g ∈ n_gaps node_gap -> g ∉ n_gaps n' -> arrival g < 18000 - 10000)
  /\ (n_gaps n' = [] \/ exists g r, hash_order (n_gaps n') = g :: r /\ 18000 - 10000 <= arrival g)
  /\ (forall g r, hash_order (n_gaps node_gap) = g :: r -> 18000 - 10000 <= arrival g -> n_gaps n' = n_gaps node_gap).
Proof. exact (purge_old_exact node_gap node_gap_ok). Defined.

#[local] Existing Instance sample_node.

Lemma good_ledger_4 : good_ledger live_genesis ledger_4.
Proof. exists 4%nat. split; [exact reach_4|apply fuel_ok; lia]. Qed.

Lemma no_wallets_ok : wallets_ok [].
Proof. intros w Hw. destruct (not_elem_of_nil _ Hw). Qed.

Lemma no_inactive_supply : fits 128 0.
Proof. unfold fits. lia. Qed.

Definition active_0 : active_transactions := new_active ledger_4 votes_seen 0.
Definition election_1 : election_info := ElectionInfo 7 (votes_new 1 (Send send_3)) 0 (Send send_3) false.
Definition active_1 : active_transactions :=
  Active ledger_4 votes_seen {[ 0%nat := election_1 ]} 1 [ConflictInfo send_1_hash 0 0] 1 [].

Lemma started : active_start [] (Send send_3) 7 active_0 = Ok (false, active_1).
Proof.
  unfold active_start. erewrite st_bind_ok by reflexivity. cbn [active_0 roots new_active roots_find find].
  unfold election_new. erewrite st_bind_ok.
  2:{ erewrite st_bind_ok by reflexivity. erewrite st_bind_ok by reflexivity.
      cbn [at_store active_0 new_active]. rewrite send_3_hashed.
      rewrite st_assert_true by (vm_compute; reflexivity). erewrite st_bind_ok by reflexivity.
      erewrite st_bind_ok by reflexivity. reflexivity. }
  reflexivity.
Qed.

Lemma send_3_ok : block_ok (Send send_3).
Proof. exact (proj1 send_3_admissible). Qed.

Lemma sample_election : election_run live_genesis [] 0 [Other_event] active_0 active_1.
Proof.
  eapply run_cons; [|apply run_nil]. eapply (step_start _ _ _ (Send send_3) 7 false); [|exact send_3_ok|exact started].
  rewrite send_3_hashed. vm_compute. reflexivity.
Qed.

Lemma elections_never_fail_witness :
  (forall b act, block_exists (at_store active_1) (hash b) = true -> block_ok b ->
     exists r a', active_start [] b act active_1 = Ok (r, a') /\ active_block a' b = true
     /\ (r = true <-> active_block active_1 b = true))
  /\ (forall v, vote_ok v -> validate_message (v_account v) (vote_hash v) (v_signature v) = false ->
     exists a', active_vote 0 v active_1 = Ok (tt, a') /\ roots a' = roots active_1)
  /\ (forall e, Broadcast_winner e ∈ tasks active_1 ->
     exists a', broadcast_winner [] e active_1 = Ok (tt, a') /\ roots a' = roots active_1)
  /\ exists a', announce_votes 0 active_1 = Ok (tt, a').
Proof.
  exact (elections_never_fail live_genesis [] 0 no_wallets_ok no_inactive_supply ledger_4 votes_seen 0 [Other_event]
    active_1 good_ledger_4 votes_seen_ok sample_election).
Defined.

(** Four announcements. *)
Definition announced (a : active_transactions) : active_transactions :=
  match announce_votes 0 a with Ok (_, a') => a' | Fault _ => a end.

Lemma announced_step gb a :
  match announce_votes 0 a with Ok _ => true | Fault _ => false end = true ->
  election_step gb [] 0 Announcement a (announced a).
Proof.
  unfold announced. destruct (announce_votes 0 a) as [[u a']|] eqn:He; [|done]. intros _.
  exact (step_announce gb [] 0 u a a' He).
Qed.

Definition active_5 : active_transactions := announced (announced (announced (announced active_1))).

Lemma sample_announcements : election_run live_genesis [] 0 (replicate 4 Announcement) active_1 active_5.
Proof.
  eapply run_cons; [apply announced_step; vm_compute; reflexivity|].
  eapply run_cons; [apply announced_step; vm_compute; reflexivity|].
  eapply run_cons; [apply announced_step; vm_compute; reflexivity|].
  eapply run_cons; [apply announced_step; vm_compute; reflexivity|]. apply run_nil.
Qed.


Lemma run_app gb ws q hs hs' a a1 a2 :
  election_run gb ws q hs a a1 -> election_run gb ws q hs' a1 a2 -> election_run gb ws q (hs ++ hs') a a2.
Proof. induction 1 as [a|h hs a b c Hs _ IH]; intros Hr; [exact Hr|]. eapply run_cons; [exact Hs|by apply IH]. Qed.

Lemma elections_confirm_once_witness :
  (confirmations 0 (tasks active_5) <= 1)%nat
  /\ (forall b act, Process_confirmed 0 b act ∈ tasks active_5 ->
      exists i, heap active_5 !! 0%nat = Some i /\ confirmed i = true /\ last_winner i = b /\ confirmation_action i = act
      /\ root b = votes_id (e_votes i))
  /\ (forall i, heap active_5 !! 0%nat = Some i -> confirmed i = true -> confirmations 0 (tasks active_5) = 1%nat).
Proof.
  exact (elections_confirm_once live_genesis [] 0 no_wallets_ok no_inactive_supply ledger_4 votes_seen 0
    ([Other_event] ++ replicate 4 Announcement) active_5 good_ledger_4 votes_seen_ok
    (run_app _ _ _ _ _ _ _ _ sample_election sample_announcements) 0).
Defined.

(** The genesis account, which represents itself, votes. *)
Definition supply_4 : Z := 150.

Lemma supply_4_right : supply 0 ledger_4 = Ok supply_4.
Proof. vm_compute. reflexivity. Qed.

Lemma active_vote_exact_witness :
  exists a' i' t b, active_vote 0 vote_live active_1 = Ok (tt, a')
  /\ roots a' = roots active_1 /\ heap a' = <[0%nat := i']> (heap active_1)
  /\ e_votes i' = snd (votes_vote vote_live (e_votes election_1)) /\ winner ledger_4 (e_votes i') = Some (t, b)
  /\ confirmed i' = false || (supply_4 / 2 <? t)
  /\ last_winner i' = (if negb false && (supply_4 / 2 <? t) then b else Send send_3).
Proof.
  apply (active_vote_exact live_genesis [] 0 no_wallets_ok no_inactive_supply ledger_4 votes_seen 0 [Other_event]
    active_1 good_ledger_4 votes_seen_ok sample_election vote_live (ConflictInfo send_1_hash 0 0) election_1 supply_4).
  - apply made_vote_ok; [unfold fits; lia|exact send_3_ok|unfold fits; vm_compute; split; [discriminate|reflexivity]].
  - apply made_vote_valid.
  - vm_compute. reflexivity.
  - reflexivity.
  - exact supply_4_right.
Defined.

Lemma announcements_not_limited_witness :
  exists a', announce_votes 0 active_1 = Ok (tt, a')
  /\ broadcasts (tasks a') = broadcasts (tasks active_1) ++ (conflict_election <$> roots active_1).
Proof.
  exact (announcements_not_limited live_genesis [] 0 no_wallets_ok no_inactive_supply ledger_4 votes_seen 0 [Other_event]
    active_1 good_ledger_4 votes_seen_ok sample_election).
Defined.
