(* ===== verification/Peers.v ===== *)
(** * Peers (rai/node/node.cpp)

    [peer_container]: the peers the node knows and the endpoints it has tried to
    reach, and [block_arrival]: the blocks that came in lately.

    The containers have several indices.  A peer is one entry of a list, in the
    order of the random access index, which is the order of insertion; an ordered
    index walks the entries in an order that is sorted by its key, with ties in
    any order, and a hash index in any order. *)
From Stdlib Require Import ZArith Lia List Sorted.
From stdpp Require Import prelude list gmap.
From S2P Require Import Prelude Lists Numbers Streams Blocks Store Ledger Votes Work Messages Processor.

Local Open Scope m_scope.

Record peer_information := PeerInformation {
  p_endpoint : endpoint;
  last_contact : Z;
  last_attempt : Z;
  last_bootstrap_attempt : Z;
  last_rep_request : Z;
  last_rep_response : Z;
  rep_weight : Z;
  network_version : Z
}.

Record peer_attempt := PeerAttempt { a_endpoint : endpoint; attempted : Z }.

Inductive peer_event := Peer_observed (e : endpoint) | Disconnected.

Record peer_container := PeerContainer {
  self : endpoint;
  known : list peer_information;
  attempts : list peer_attempt;
  p_readings : nat;
  p_randoms : nat;
  p_events : list peer_event
}.

(** How the indices and the set of endpoints are walked, the random numbers
    [GenerateWord32 (0, n)] gives, and the shuffle. *)
Class PeerEnvironment := {
  index_order : (peer_information -> Z) -> list peer_information -> list peer_information;
  index_order_perm key l : index_order key l ≡ₚ l;
  index_order_sorted key l : StronglySorted (fun x y => key x <= key y) (index_order key l);
  peer_hash_order : list peer_information -> list peer_information;
  peer_hash_order_perm l : peer_hash_order l ≡ₚ l;
  set_order : list endpoint -> list endpoint;
  set_order_perm l : set_order l ≡ₚ l;
  shuffle : list endpoint -> list endpoint;
  shuffle_perm l : shuffle l ≡ₚ l;
  random_word : nat -> nat -> nat;
  random_word_le i n : (random_word i n <= n)%nat
}.

#[export] Instance endpoint_countable : Countable endpoint.
Proof.
  refine (inj_countable' (fun e => (address e, port e)) (fun x => Endpoint x.1 x.2) _). by intros [].
Defined.

(** An address as the socket gives it. *)
Inductive any_address := V4 (a : Z) | V6 (a : Z).

(** [address_v6::v4_mapped] *)
Definition v4_mapped (a : Z) : Z := Z.lor (Z.shiftl 0xffff 32) a.

Definition between (lo hi a : Z) : bool := (lo <=? a) && (a <=? hi).

(** [rai::reserved_address] *)
Definition reserved_address `{Network} (e : endpoint) : bool :=
  let bytes := address e in
  if between (v4_mapped 0x00000000) (v4_mapped 0x00ffffff) bytes then true
  else if between (v4_mapped 0xc0000200) (v4_mapped 0xc00002ff) bytes then true
  else if between (v4_mapped 0xc6336400) (v4_mapped 0xc63364ff) bytes then true
  else if between (v4_mapped 0xcb007100) (v4_mapped 0xcb0071ff) bytes then true
  else if between (v4_mapped 0xe0000000) (v4_mapped 0xefffffff) bytes then true
  else if between (v4_mapped 0xf0000000) (v4_mapped 0xffffffff) bytes then true
  else if between (Z.shiftl 0x0100 112) (Z.lor (Z.shiftl 0x0100 112) 0xffffffffffffffff) bytes then true
  else if between (Z.shiftl 0x20010db8 96) (Z.lor (Z.shiftl 0x20010db8 96) (Z.ones 96)) bytes then true
  else if between (Z.shiftl 0xff00 112) (Z.lor (Z.shiftl 0xff00 112) (Z.ones 112)) bytes then true
  else if (bytes =? 1) && negb (bool_decide (rai_network = rai_test_network)) then true
  else if between (v4_mapped 0x7f000000) (v4_mapped 0x7fffffff) bytes && negb (bool_decide (rai_network = rai_test_network))
  then true
  else false.

Section Peers.
Context `{NodeEnvironment, Network, PeerEnvironment}.

Definition peer_clock : M peer_container Z := fun p =>
  Ok (steady_clock (p_readings p),
      PeerContainer (self p) (known p) (attempts p) (S (p_readings p)) (p_randoms p) (p_events p)).

Definition peer_random (n : nat) : M peer_container nat := fun p =>
  Ok (random_word (p_randoms p) n,
      PeerContainer (self p) (known p) (attempts p) (p_readings p) (S (p_randoms p)) (p_events p)).

Definition set_known (f : list peer_information -> list peer_information) : M peer_container unit := fun p =>
  Ok (tt, PeerContainer (self p) (f (known p)) (attempts p) (p_readings p) (p_randoms p) (p_events p)).

Definition set_attempts (f : list peer_attempt -> list peer_attempt) : M peer_container unit := fun p =>
  Ok (tt, PeerContainer (self p) (known p) (f (attempts p)) (p_readings p) (p_randoms p) (p_events p)).

Definition notify (e : peer_event) : M peer_container unit := fun p =>
  Ok (tt, PeerContainer (self p) (known p) (attempts p) (p_readings p) (p_randoms p) (p_events p ++ [e])).

Definition peer_find (e : endpoint) (l : list peer_information) : option peer_information :=
  find (fun i => bool_decide (p_endpoint i = e)) l.

(** [modify] of the entry with the endpoint [e]. *)
Definition peer_modify (e : endpoint) (f : peer_information -> peer_information) : M peer_container unit :=
  set_known (fmap (fun i => if decide (p_endpoint i = e) then f i else i)).

Definition peer_container_new (self_a : endpoint) : peer_container := PeerContainer self_a [] [] 0 0 [].

Definition peer_information_new (e : endpoint) (now version : Z) : peer_information :=
  PeerInformation e now now 0 0 0 0 version.

Definition not_a_peer (p : peer_container) (e : endpoint) : bool :=
  if address e =? 0 then true
  else if reserved_address e then true
  else if bool_decide (e = self p) then true
  else false.

Definition known_peer (p : peer_container) (e : endpoint) : bool := bool_decide (is_Some (peer_find e (known p))).

(** Whether the peer was known already, or is none. *)
Definition peer_insert (e : endpoint) (version : Z) : M peer_container bool :=
  result <- st_get (fun p => not_a_peer p e);;
  if result : bool then st_ret true else
  existing <- st_get (fun p => peer_find e (known p));;
  match existing with
  | Some _ =>
      now <- peer_clock;;
      peer_modify e (fun i => PeerInformation (p_endpoint i) now (last_attempt i) (last_bootstrap_attempt i)
                                (last_rep_request i) (last_rep_response i) (rep_weight i) (network_version i)) ;;;
      st_ret true
  | None =>
      now <- peer_clock;;
      set_known (fun l => l ++ [peer_information_new e now version]) ;;;
      notify (Peer_observed e) ;;;
      st_ret false
  end.

Definition contacted (a : any_address) (port_a version : Z) : M peer_container unit :=
  let e := Endpoint (match a with V4 a => v4_mapped a | V6 a => a end) port_a in
  peer_insert e version ;;; st_ret tt.

Definition reachout (e : endpoint) : M peer_container bool :=
  no_peer <- st_get (fun p => not_a_peer p e);;
  is_known <- st_get (fun p => known_peer p e);;
  existing <- st_get (fun p => bool_decide (e ∈ a_endpoint <$> attempts p));;
  now <- peer_clock;;
  set_attempts (fun l => if existing : bool then l else l ++ [PeerAttempt e now]) ;;;
  st_ret (no_peer || is_known || existing).

(** ** Selections *)

(** Insertion into an [unordered_set]. *)
Definition set_insert (e : endpoint) (l : list endpoint) : list endpoint := if decide (e ∈ l) then l else l ++ [e].

(** The random part of [random_set]; [steps] is what is left of the attempts. *)
Fixpoint random_picks (steps count : nat) (result : list endpoint) : M peer_container (list endpoint) :=
  match steps with
  | O => st_ret result
  | S steps =>
      if (length result <? count)%nat then
        peers_size <- st_get (fun p => length (known p));;
        index <- peer_random (peers_size - 1);;
        picked <- st_get (fun p => known p !! index);;
        match picked with
        | Some i => random_picks steps count (set_insert (p_endpoint i) result)
        | None => st_fault Indeterminate_value (* reads past the end *)
        end
      else st_ret result
  end.

Fixpoint fill_set (count : nat) (l : list peer_information) (result : list endpoint) : list endpoint :=
  match l with
  | [] => result
  | i :: l => if (length result <? count)%nat then fill_set count l (set_insert (p_endpoint i) result) else result
  end.

Definition random_set (count : nat) : M peer_container (list endpoint) :=
  is_empty <- st_get (fun p => match known p with [] => true | _ => false end);;
  picks <- (if is_empty : bool then st_ret [] else random_picks (2 * count) count []);;
  st_get (fun p => fill_set count (index_order last_contact (known p)) picks).

(** The array of eight endpoints of a keepalive message. *)
Definition random_fill : M peer_container (list endpoint) :=
  picked <- random_set 8;;
  st_assert (length picked <=? 8)%nat ;;;
  st_ret (set_order picked ++ repeat (Endpoint 0 0) (8 - length picked)).

(** The peers with the largest weights, without those that have none. *)
Fixpoint take_representatives (count : nat) (l : list peer_information) : list peer_information :=
  match count, l with
  | S n, i :: l =>
      if negb (is_zero (rep_weight i)) then i :: take_representatives n l else take_representatives count l
  | _, _ => []
  end.

Definition peer_representatives (count : nat) (p : peer_container) : list peer_information :=
  take_representatives count (index_order (fun i => - rep_weight i) (known p)).

Definition rep_crawl (p : peer_container) : list endpoint := p_endpoint <$> take 8 (index_order last_rep_request (known p)).

Definition peers_size (p : peer_container) : nat := length (known p).

(** [std::ceil (std::sqrt (n))]: exact for the sizes that occur. *)
Definition size_sqrt (p : peer_container) : nat := Z.to_nat (Z.sqrt_up (Z.of_nat (length (known p)))).

Definition peers_empty (p : peer_container) : bool := (peers_size p =? 0)%nat.

Definition peer_list (p : peer_container) : list endpoint := shuffle (p_endpoint <$> peer_hash_order (known p)).

(** A version per endpoint; [std::map::insert] keeps what is there. *)
Definition list_version (p : peer_container) : gmap endpoint Z :=
  foldl (fun m i => match m !! p_endpoint i with Some _ => m | None => <[p_endpoint i := network_version i]> m end)
    ∅ (peer_hash_order (known p)).

Definition list_sqrt : M peer_container (list endpoint) :=
  n <- st_get size_sqrt;;
  picked <- random_set (2 * n);;
  st_ret (set_order picked).

(** ** Updates *)

Fixpoint refresh_attempts (es : list endpoint) : M peer_container unit :=
  match es with
  | [] => st_ret tt
  | e :: es =>
      now <- peer_clock;;
      peer_modify e (fun i => PeerInformation (p_endpoint i) (last_contact i) now (last_bootstrap_attempt i)
                                (last_rep_request i) (last_rep_response i) (rep_weight i) (network_version i)) ;;;
      refresh_attempts es
  end.

Definition purge_list (cutoff : Z) : M peer_container (list peer_information) :=
  result <- st_get (fun p => filter (fun i => cutoff <= last_contact i) (index_order last_contact (known p)));;
  set_known (filter (fun i => cutoff <= last_contact i)) ;;;
  es <- st_get (fun p => p_endpoint <$> peer_hash_order (known p));;
  refresh_attempts es ;;;
  set_attempts (filter (fun a => cutoff <= attempted a)) ;;;
  (match result with [] => notify Disconnected | _ => st_ret tt end) ;;;
  st_ret result.

Definition rep_response (e : endpoint) (weight_a : Z) : M peer_container bool :=
  existing <- st_get (fun p => peer_find e (known p));;
  match existing with
  | None => st_ret false
  | Some info =>
      now <- peer_clock;;
      let updated := rep_weight info <? weight_a in
      peer_modify e (fun i => PeerInformation (p_endpoint i) (last_contact i) (last_attempt i) (last_bootstrap_attempt i)
                                (last_rep_request i) now (if updated then weight_a else rep_weight i) (network_version i)) ;;;
      st_ret updated
  end.

Definition rep_request (e : endpoint) : M peer_container unit :=
  existing <- st_get (fun p => peer_find e (known p));;
  match existing with
  | None => st_ret tt
  | Some _ =>
      now <- peer_clock;;
      peer_modify e (fun i => PeerInformation (p_endpoint i) (last_contact i) (last_attempt i) (last_bootstrap_attempt i)
                                now (last_rep_response i) (rep_weight i) (network_version i))
  end.

(** The peer that was least recently asked, of those that are recent enough. *)
Definition bootstrap_peer : M peer_container endpoint :=
  found <- st_get (fun p => find (fun i => 5 <=? network_version i) (index_order last_bootstrap_attempt (known p)));;
  match found with
  | None => st_ret (Endpoint 0 0)
  | Some i =>
      now <- peer_clock;;
      peer_modify (p_endpoint i) (fun i => PeerInformation (p_endpoint i) (last_contact i) (last_attempt i) now
                                             (last_rep_request i) (last_rep_response i) (rep_weight i) (network_version i)) ;;;
      st_ret (p_endpoint i)
  end.
End Peers.

(** ** Recent blocks *)

Record block_arrival_info := BlockArrivalInfo { arrived : Z; arrival_hash : block_hash }.

(** The entries in the order of the index on the time of arrival. *)
Record block_arrival := BlockArrival { arrival : list block_arrival_info; ba_readings : nat }.

Section Arrival.
Context `{NodeEnvironment}.

Definition arrival_clock : M block_arrival Z := fun b =>
  Ok (steady_clock (ba_readings b), BlockArrival (arrival b) (S (ba_readings b))).

Definition on_arrival (f : list block_arrival_info -> list block_arrival_info) : M block_arrival unit := fun b =>
  Ok (tt, BlockArrival (f (arrival b)) (ba_readings b)).

(** An ordered index takes an entry after those with the same key. *)
Fixpoint arrival_place (i : block_arrival_info) (l : list block_arrival_info) : list block_arrival_info :=
  match l with
  | [] => [i]
  | j :: l => if arrived i <? arrived j then i :: j :: l else j :: arrival_place i l
  end.

(** [arrival.insert]: nothing happens when the hash is there. *)
Definition arrival_insert (i : block_arrival_info) (l : list block_arrival_info) : list block_arrival_info :=
  if decide (arrival_hash i ∈ arrival_hash <$> l) then l else arrival_place i l.

Definition arrival_add (h : block_hash) : M block_arrival unit :=
  now <- arrival_clock;;
  on_arrival (arrival_insert (BlockArrivalInfo now h)).

Fixpoint arrival_purge (now : Z) (l : list block_arrival_info) : list block_arrival_info :=
  match l with
  | [] => []
  | i :: l => if arrived i + 60 * 1000 <? now then arrival_purge now l else i :: l
  end.

Definition arrival_recent (h : block_hash) : M block_arrival bool :=
  now <- arrival_clock;;
  on_arrival (arrival_purge now) ;;;
  st_get (fun b => bool_decide (h ∈ arrival_hash <$> arrival b)).
End Arrival.

(** ** Proofs *)

Record peers_ok `{Network} (p : peer_container) : Prop := {
  po_unique : NoDup (p_endpoint <$> known p);
  po_peers : forall i, i ∈ known p -> not_a_peer p (p_endpoint i) = false;
  po_attempts : NoDup (a_endpoint <$> attempts p)
}.

Lemma peer_find_some e l i : peer_find e l = Some i -> i ∈ l /\ p_endpoint i = e.
Proof.
  unfold peer_find. intros Hf. apply find_some in Hf as [Hin He%bool_decide_eq_true]. by rewrite list_elem_of_In.
Qed.

Lemma peer_find_none e l : peer_find e l = None <-> e ∉ p_endpoint <$> l.
Proof.
  unfold peer_find. induction l as [|x l IH]; cbn; [split; [by intros _ ?%not_elem_of_nil|done]|].
  rewrite not_elem_of_cons. case_bool_decide as Hx; [naive_solver|]. rewrite IH. naive_solver.
Qed.

Lemma known_peer_elem p e : known_peer p e = true <-> e ∈ p_endpoint <$> known p.
Proof.
  unfold known_peer. rewrite bool_decide_eq_true. destruct (peer_find e (known p)) as [i|] eqn:Hf.
  - destruct (peer_find_some _ _ _ Hf) as [Hi <-]. split; [|by eexists]. intros _. apply list_elem_of_fmap. eauto.
  - apply peer_find_none in Hf. split; [by intros [? ?]|done].
Qed.

(** A change of an entry that keeps its endpoint. *)
Lemma modify_endpoints e (f : peer_information -> peer_information) (l : list peer_information) :
  (forall i, p_endpoint (f i) = p_endpoint i) ->
  p_endpoint <$> ((fun i => if decide (p_endpoint i = e) then f i else i) <$> l) = p_endpoint <$> l.
Proof.
  intros Hf. induction l as [|x l IH]; cbn; [done|]. f_equal; [|exact IH]. by case_decide.
Qed.

Section Theorems.
Context `{NodeEnvironment, Network, PeerEnvironment}.

Lemma same_endpoints_ok p p' :
  peers_ok p -> self p' = self p -> p_endpoint <$> known p' = p_endpoint <$> known p ->
  NoDup (a_endpoint <$> attempts p') -> peers_ok p'.
Proof.
  intros [Hu Hp _] Hs He Ha. split; [by rewrite He| |done]. intros i Hi.
  assert (Hin : p_endpoint i ∈ p_endpoint <$> known p) by (rewrite <- He; apply list_elem_of_fmap; eauto).
  apply list_elem_of_fmap in Hin as (j & -> & Hj). rewrite <- (Hp j Hj). unfold not_a_peer. by rewrite Hs.
Qed.

(** What the node takes for its peers.  On a well-formed container (one entry
    per endpoint, none of them unspecified, reserved or the node itself) [insert]
    does not fail and keeps the container well formed; it answers true exactly
    for an endpoint that is no peer or was known; the endpoints known afterwards
    are those known before and, when the answer is false, the new one, and it is
    then and only then that the observer is told. *)
Lemma peer_insert_run (p : peer_container) (e : endpoint) (version : Z) :
  peers_ok p ->
  exists r p', peer_insert e version p = Ok (r, p') /\ peers_ok p'
  /\ r = not_a_peer p e || known_peer p e
  /\ (forall x, known_peer p' x = known_peer p x || (negb r && bool_decide (x = e)))
  /\ p_events p' = p_events p ++ (if r then [] else [Peer_observed e]) /\ attempts p' = attempts p
  /\ self p' = self p.
Proof.
  intros Hok. pose proof Hok as [Hu Hp Ha]. unfold peer_insert, st_bind, st_get. cbv beta iota.
  destruct (not_a_peer p e) eqn:Hn.
  { exists true, p. split_and!; [done|done|done| |by rewrite app_nil_r|done|done]. intros x. by rewrite orb_false_r. }
  destruct (peer_find e (known p)) as [i|] eqn:Hf.
  - eexists true, _. split; [reflexivity|]. cbn [p_events attempts]. split_and!.
    + eapply same_endpoints_ok; [exact Hok|done| |exact Ha]. cbn. by apply modify_endpoints.
    + unfold known_peer. rewrite Hf. by rewrite bool_decide_eq_true_2 by (by eexists).
    + intros x. rewrite orb_false_r. apply eq_true_iff_eq. rewrite !known_peer_elem. cbn. by rewrite modify_endpoints.
    + by rewrite app_nil_r.
    + done.
    + done.
  - eexists false, _. split; [reflexivity|]. cbn [p_events attempts].
    assert (Hne : e ∉ p_endpoint <$> known p) by (by apply peer_find_none). split_and!.
    + split; cbn; [|intros j|exact Ha].
      * rewrite fmap_app. apply NoDup_app. split_and!; [done| |apply NoDup_singleton].
        intros x Hx Hx'. cbn in Hx'. apply list_elem_of_singleton in Hx' as ->. done.
      * rewrite elem_of_app, list_elem_of_singleton. intros [Hj| ->]; [by apply Hp|exact Hn].
    + cbn. symmetry. apply not_true_iff_false. by rewrite known_peer_elem.
    + intros x. apply eq_true_iff_eq. rewrite orb_true_iff. cbn [negb andb]. rewrite bool_decide_eq_true, !known_peer_elem.
      cbn. rewrite fmap_app, elem_of_app. cbn. by rewrite list_elem_of_singleton.
    + done.
    + done.
    + done.
Qed.

(** ** Selections *)

Lemma set_insert_spec e l :
  NoDup l -> NoDup (set_insert e l) /\ (forall x, x ∈ set_insert e l <-> x ∈ l \/ x = e)
  /\ (length (set_insert e l) <= S (length l))%nat.
Proof.
  intros Hl. unfold set_insert. case_decide as He; [split_and!; [done| |lia]; set_solver|].
  split_and!.
  - apply NoDup_app. split_and!; [done| |apply NoDup_singleton]. intros x Hx ->%list_elem_of_singleton. done.
  - intros x. by rewrite elem_of_app, list_elem_of_singleton.
  - rewrite length_app. cbn. lia.
Qed.

(** A set of at most [count] endpoints, all of them known. *)
Record chosen (count : nat) (l : list peer_information) (r : list endpoint) : Prop := {
  ch_unique : NoDup r;
  ch_known : forall e, e ∈ r -> e ∈ p_endpoint <$> l;
  ch_count : (length r <= count)%nat
}.

Lemma chosen_insert count (l : list peer_information) i r :
  chosen count l r -> i ∈ l -> (length r < count)%nat -> chosen count l (set_insert (p_endpoint i) r).
Proof.
  intros [Hu Hk Hc] Hi Hr. destruct (set_insert_spec (p_endpoint i) r Hu) as (Hu' & Hin & Hl). split; [done| |lia].
  intros e [He| ->]%Hin; [auto|]. apply list_elem_of_fmap. eauto.
Qed.

Lemma random_picks_run steps count r p :
  known p <> [] -> chosen count (known p) r ->
  exists r' p', random_picks steps count r p = Ok (r', p') /\ chosen count (known p) r' /\ known p' = known p
  /\ attempts p' = attempts p /\ self p' = self p /\ p_events p' = p_events p.
Proof.
  revert r p. induction steps as [|n IH]; intros r p Hne Hr; cbn [random_picks]; [by eexists _, _|].
  destruct (Nat.ltb_spec (length r) count) as [Hlt|]; [|by eexists _, _].
  unfold st_bind, st_get, peer_random. cbv beta iota. cbn [known].
  destruct (lookup_lt_is_Some_2 (known p) (random_word (p_randoms p) (length (known p) - 1))) as [i Hi].
  { pose proof (random_word_le (p_randoms p) (length (known p) - 1)). destruct (known p); [done|]. cbn in *. lia. }
  rewrite Hi. edestruct IH as (r' & p' & -> & ?); [exact Hne|apply chosen_insert; [exact Hr| |exact Hlt]|eauto].
  by eapply list_elem_of_lookup_2.
Qed.

Lemma fill_set_spec count (all l : list peer_information) r :
  (forall i, i ∈ l -> i ∈ all) -> chosen count all r ->
  let r' := fill_set count l r in
  chosen count all r'
  /\ (length r' = count \/ (forall e, e ∈ r \/ e ∈ p_endpoint <$> l -> e ∈ r')).
Proof.
  revert r. induction l as [|i l IH]; intros r Hl Hr; cbn [fill_set].
  { split; [done|]. right. intros e [He|He]; [done|]. by apply not_elem_of_nil in He. }
  destruct (Nat.ltb_spec (length r) count) as [Hlt|Hge].
  2:{ split; [done|]. left. pose proof (ch_count _ _ _ Hr). lia. }
  destruct (IH (set_insert (p_endpoint i) r)) as [Hc Hf].
  - intros j Hj. apply Hl. by right.
  - apply chosen_insert; [done| |done]. apply Hl. by left.
  - split; [exact Hc|]. destruct Hf as [Hf|Hf]; [by left|right]. intros e He. apply Hf.
    destruct (set_insert_spec (p_endpoint i) r (ch_unique _ _ _ Hr)) as (_ & Hin & _). rewrite Hin.
    cbn in He. rewrite elem_of_cons in He. tauto.
Qed.

(** A random selection is as large as it can be.  On a well-formed container
    [random_set] does not fail, whatever numbers the generator draws and however
    the indices break ties: the endpoints it gives are distinct, all of them are
    known, and there are [count] of them, or as many as there are peers when
    these are fewer; the peers are not changed. *)
Lemma random_set_run (p : peer_container) (count : nat) :
  peers_ok p ->
  exists r p', random_set count p = Ok (r, p')
  /\ NoDup r /\ (forall e, e ∈ r -> known_peer p e = true) /\ length r = Nat.min count (peers_size p)
  /\ known p' = known p /\ attempts p' = attempts p /\ p_events p' = p_events p
  /\ self p' = self p.
Proof.
  intros Hok. assert (Hnone : chosen count (known p) []).
  { split; [constructor|intros e He; by apply not_elem_of_nil in He|cbn; lia]. }
  assert (Hpick : exists r p',
    (if match known p with [] => true | _ => false end then st_ret [] else random_picks (2 * count) count []) p = Ok (r, p')
    /\ chosen count (known p) r /\ known p' = known p
    /\ attempts p' = attempts p /\ self p' = self p /\ p_events p' = p_events p).
  { destruct (known p) as [|i l] eqn:Hk; [by eexists _, _|]. rewrite <- Hk in *. apply random_picks_run; [|exact Hnone].
    by rewrite Hk. }
  destruct Hpick as (r & p' & Hrun & Hr & Hk & Ha & Hself & He).
  unfold random_set. erewrite st_bind_ok by reflexivity. erewrite st_bind_ok by exact Hrun. unfold st_get. rewrite Hk.
  eexists _, _. split; [reflexivity|].
  destruct (fill_set_spec count (known p) (index_order last_contact (known p)) r) as [[Hu Hin Hc] Hfull];
    [intros i; by rewrite index_order_perm|exact Hr|].
  split_and!; [exact Hu|intros e Hi; apply known_peer_elem; auto| |done|done|done|done].
  set (r' := fill_set _ _ _) in *. unfold peers_size. rewrite <- (length_fmap p_endpoint (known p)).
  assert (Hle : (length r' <= length (p_endpoint <$> known p))%nat).
  { apply NoDup_incl_length; [by apply NoDup_ListNoDup|]. intros e Hi%list_elem_of_In. apply list_elem_of_In. auto. }
  destruct Hfull as [Heq|Hall]; [lia|].
  assert (Hge : (length (p_endpoint <$> known p) <= length r')%nat).
  { apply NoDup_incl_length; [apply NoDup_ListNoDup; exact (po_unique _ Hok)|]. intros e Hi%list_elem_of_In.
    apply list_elem_of_In, Hall. right. by rewrite index_order_perm. }
  lia.
Qed.

(** ** Updates *)

Lemma refresh_attempts_run es p :
  exists p', refresh_attempts es p = Ok (tt, p') /\ p_endpoint <$> known p' = p_endpoint <$> known p
  /\ last_contact <$> known p' = last_contact <$> known p
  /\ self p' = self p /\ attempts p' = attempts p /\ p_events p' = p_events p.
Proof.
  revert p. induction es as [|e es IH]; intros p; cbn [refresh_attempts]; [by eexists|].
  erewrite st_bind_ok by reflexivity. unfold peer_modify. erewrite st_bind_ok by reflexivity.
  match goal with |- context [refresh_attempts es ?q] => destruct (IH q) as (p' & -> & He & Hc & ?) end.
  eexists. split; [reflexivity|]. split; [|split; [|done]].
  - rewrite He. cbn [known]. by apply modify_endpoints.
  - rewrite Hc. cbn [known]. rewrite <- list_fmap_compose. apply list_fmap_ext. intros _ i _. cbn. by case_decide.
Qed.

(** What is left of the peers.  On a well-formed container [purge_list] does
    not fail and keeps the container well formed: the peers it gives are those
    last heard from at the cutoff or later, sorted by that time; the container
    then knows exactly their endpoints, in the order they had, with their times
    of contact; exactly the attempts made at the cutoff or later are left; and
    the observer is told of a disconnection exactly when no peer is left. *)
Lemma purge_list_run (p : peer_container) (cutoff : Z) :
  peers_ok p ->
  exists r p', purge_list cutoff p = Ok (r, p') /\ peers_ok p'
  /\ r ≡ₚ filter (fun i => cutoff <= last_contact i) (known p)
  /\ StronglySorted (fun i j => last_contact i <= last_contact j) r
  /\ p_endpoint <$> known p' = p_endpoint <$> filter (fun i => cutoff <= last_contact i) (known p)
  /\ last_contact <$> known p' = last_contact <$> filter (fun i => cutoff <= last_contact i) (known p)
  /\ attempts p' = filter (fun a => cutoff <= attempted a) (attempts p)
  /\ p_events p' = p_events p ++ (if decide (known p' = []) then [Disconnected] else [])
  /\ self p' = self p.
Proof.
  intros Hok. unfold purge_list. erewrite st_bind_ok by reflexivity. erewrite st_bind_ok by reflexivity.
  erewrite st_bind_ok by reflexivity. cbn [known].
  match goal with |- context [refresh_attempts ?es] => set (E := es) end.
  set (kept := filter (fun i => cutoff <= last_contact i) (known p)).
  set (given := filter (fun i => cutoff <= last_contact i) (index_order last_contact (known p))).
  assert (Hperm : given ≡ₚ kept) by (apply filter_Permutation, index_order_perm).
  edestruct (refresh_attempts_run E) as (p1 & Hrun & He & Hc & Hs & Ha & Hv).
  erewrite st_bind_ok by exact Hrun. erewrite st_bind_ok by reflexivity. cbn [known self attempts p_events] in *.
  assert (Hsorted : StronglySorted (fun i j => last_contact i <= last_contact j) given)
    by (apply StronglySorted_filter, index_order_sorted).
  assert (Hok' : forall ev, peers_ok (PeerContainer (self p1) (known p1)
    (filter (fun a => cutoff <= attempted a) (attempts p1)) (p_readings p1) (p_randoms p1) ev)).
  { intros ev. destruct Hok as [Hu Hp Hat]. split; cbn [known attempts self].
    - rewrite He. by apply NoDup_fmap_filter.
    - intros i Hi. assert (Hin : p_endpoint i ∈ p_endpoint <$> kept) by (rewrite <- He; apply list_elem_of_fmap; eauto).
      apply list_elem_of_fmap in Hin as (j & -> & [_ Hj]%list_elem_of_filter). rewrite <- (Hp j Hj). unfold not_a_peer.
      cbn [self]. by rewrite Hs.
    - rewrite Ha. by apply NoDup_fmap_filter. }
  assert (Hempty : known p1 = [] <-> given = []).
  { rewrite <- !length_zero_iff_nil, (Permutation_length Hperm), <- (length_fmap p_endpoint (known p1)), He.
    by rewrite length_fmap. }
  destruct given as [|g gs] eqn:Hg.
  - erewrite st_bind_ok by reflexivity. eexists _, _. split; [reflexivity|]. cbn [known attempts p_events].
    rewrite decide_True by (by apply Hempty).
    split_and!; [apply Hok'| | | | | | |]; rewrite ?Ha, ?Hv; auto.
  - erewrite st_bind_ok by reflexivity. eexists _, _. split; [reflexivity|]. cbn [known attempts p_events].
    rewrite decide_False, app_nil_r by (by rewrite Hempty).
    split_and!; [apply Hok'| | | | | | |]; rewrite ?Ha, ?Hv; auto.
Qed.

(** ** Every run *)

Inductive peer_op :=
| Op_insert (e : endpoint) (version : Z)
| Op_contacted (a : any_address) (port_a version : Z)
| Op_reachout (e : endpoint)
| Op_random_fill
| Op_list_sqrt
| Op_purge_list (cutoff : Z)
| Op_rep_response (e : endpoint) (weight_a : Z)
| Op_rep_request (e : endpoint)
| Op_bootstrap_peer.

Definition peer_step (o : peer_op) : M peer_container unit :=
  match o with
  | Op_insert e version => peer_insert e version ;;; st_ret tt
  | Op_contacted a port_a version => contacted a port_a version
  | Op_reachout e => reachout e ;;; st_ret tt
  | Op_random_fill => random_fill ;;; st_ret tt
  | Op_list_sqrt => list_sqrt ;;; st_ret tt
  | Op_purge_list cutoff => purge_list cutoff ;;; st_ret tt
  | Op_rep_response e weight_a => rep_response e weight_a ;;; st_ret tt
  | Op_rep_request e => rep_request e
  | Op_bootstrap_peer => bootstrap_peer ;;; st_ret tt
  end.

Fixpoint peer_run (os : list peer_op) : M peer_container unit :=
  match os with
  | [] => st_ret tt
  | o :: os => peer_step o ;;; peer_run os
  end.

(** [m] does not fail and keeps the container well formed. *)
Definition keeps {A} (m : M peer_container A) : Prop :=
  forall p, peers_ok p -> exists a p', m p = Ok (a, p') /\ peers_ok p' /\ self p' = self p.

Lemma keeps_ret {A} (a : A) : keeps (st_ret a).
Proof. intros p Hp. by eexists _, _. Qed.

Lemma keeps_get {A} (f : peer_container -> A) : keeps (st_get f).
Proof. intros p Hp. by eexists _, _. Qed.

Lemma keeps_bind {A B} (m : M peer_container A) (k : A -> M peer_container B) :
  keeps m -> (forall a, keeps (k a)) -> keeps (st_bind m k).
Proof.
  intros Hm Hk p Hp. destruct (Hm p Hp) as (a & p1 & Hrun & Hp1 & Hs). erewrite st_bind_ok by exact Hrun.
  destruct (Hk a p1 Hp1) as (b & p2 & -> & ? & Hs2). eexists _, _. split; [reflexivity|]. split; [done|congruence].
Qed.

Lemma keeps_clock : keeps peer_clock.
Proof. intros p [? ? ?]. eexists _, _. split; [reflexivity|]. by repeat split. Qed.

Lemma keeps_modify e f : (forall i, p_endpoint (f i) = p_endpoint i) -> keeps (peer_modify e f).
Proof.
  intros Hf p Hp. eexists _, _. split; [reflexivity|]. split; [|done].
  eapply same_endpoints_ok; [exact Hp|done| |exact (po_attempts _ Hp)]. by apply modify_endpoints.
Qed.

Lemma keeps_insert e version : keeps (peer_insert e version).
Proof. intros p Hp. destruct (peer_insert_run p e version Hp) as (r & p' & ? & ?). exists r, p'. tauto. Qed.

Lemma keeps_random_set count : keeps (random_set count).
Proof.
  intros p Hp. destruct (random_set_run p count Hp) as (r & p' & ? & _ & _ & _ & Hk & Ha & _ & Hs). exists r, p'.
  split; [done|]. split; [|done]. eapply same_endpoints_ok; [exact Hp|done|by rewrite Hk|].
  rewrite Ha. exact (po_attempts _ Hp).
Qed.

(** The assertion of [random_fill] holds. *)
Lemma keeps_random_fill : keeps random_fill.
Proof.
  intros p Hp. destruct (keeps_random_set 8 p Hp) as (r & p' & Hrun & Hp' & Hs). unfold random_fill.
  erewrite st_bind_ok by exact Hrun. destruct (random_set_run p 8 Hp) as (r2 & p2 & Hrun2 & _ & _ & Hl & _).
  rewrite Hrun in Hrun2. injection Hrun2 as <- <-. rewrite st_assert_true by (apply Nat.leb_le; lia).
  by eexists _, _.
Qed.

Lemma keeps_purge cutoff : keeps (purge_list cutoff).
Proof. intros p Hp. destruct (purge_list_run p cutoff Hp) as (r & p' & ? & ?). exists r, p'. tauto. Qed.

Lemma keeps_reachout e : keeps (reachout e).
Proof.
  intros p Hp. eexists _, _. split; [reflexivity|]. split; [|done].
  eapply same_endpoints_ok; [exact Hp|done|done|]. cbn [attempts]. pose proof (po_attempts _ Hp).
  case_bool_decide as Hin; [done|]. rewrite fmap_app. apply NoDup_app. split_and!; [done| |apply NoDup_singleton].
  intros x Hx Hx'%list_elem_of_singleton. by subst x.
Qed.

#[local] Hint Resolve keeps_ret keeps_get keeps_clock keeps_insert keeps_random_set keeps_random_fill keeps_purge
  keeps_reachout : peers.
#[local] Hint Extern 1 (keeps (peer_modify _ _)) => apply keeps_modify; intros ?; reflexivity : peers.

Lemma keeps_step o : keeps (peer_step o).
Proof.
  destruct o; cbn [peer_step]; unfold contacted, list_sqrt, rep_response, rep_request, bootstrap_peer;
    repeat first [solve [auto with peers nocore] | apply keeps_bind; [|intros ?] | case_match].
Qed.

Lemma keeps_run os : keeps (peer_run os).
Proof. induction os; cbn; [auto with peers nocore|]. apply keeps_bind; [apply keeps_step|done]. Qed.

(** The peers stay well formed.  Whatever a node does with its peers, in any
    order, from the empty container on, no operation fails (no assertion breaks
    and no index is read past its end), and the container holds an endpoint once,
    never the unspecified address, a reserved one or the node itself, and an
    attempt per endpoint. *)
Theorem peers_stay_ok (self_a : endpoint) (os : list peer_op) :
  exists p, peer_run os (peer_container_new self_a) = Ok (tt, p) /\ self p = self_a
  /\ NoDup (p_endpoint <$> known p) /\ NoDup (a_endpoint <$> attempts p)
  /\ forall i, i ∈ known p -> address (p_endpoint i) <> 0 /\ reserved_address (p_endpoint i) = false
                            /\ p_endpoint i <> self_a.
Proof.
  assert (Hnew : peers_ok (peer_container_new self_a)).
  { split; cbn; [constructor|intros i Hi; by apply not_elem_of_nil in Hi|constructor]. }
  destruct (keeps_run os _ Hnew) as ([] & p & Hrun & [Hu Hp Ha] & Hs). cbn in Hs. exists p.
  split_and!; [done|done|done|done|]. intros i Hi. pose proof (Hp i Hi) as Hn. unfold not_a_peer in Hn.
  destruct (Z.eqb_spec (address (p_endpoint i)) 0); [done|]. destruct (reserved_address (p_endpoint i)); [done|].
  case_bool_decide; [done|]. by rewrite <- Hs.
Qed.
End Theorems.

(** ** Recent blocks *)

Section Recent.
Context `{NodeEnvironment}.

(** What [recent] answers from: sorted, and one entry per block. *)
Record arrivals_ok (b : block_arrival) : Prop := {
  ao_sorted : StronglySorted (fun i j => arrived i <= arrived j) (arrival b);
  ao_unique : NoDup (arrival_hash <$> arrival b)
}.

Lemma arrival_place_perm i l : arrival_place i l ≡ₚ i :: l.
Proof.
  induction l as [|j l IH]; cbn; [done|]. destruct (arrived i <? arrived j); [done|].
  eapply Permutation_trans; [apply perm_skip, IH|apply perm_swap].
Qed.

Lemma arrival_place_sorted i l :
  StronglySorted (fun i j => arrived i <= arrived j) l ->
  StronglySorted (fun i j => arrived i <= arrived j) (arrival_place i l).
Proof.
  induction 1 as [|j l Hs IH Hj]; cbn; [by repeat constructor|]. destruct (Z.ltb_spec (arrived i) (arrived j)).
  - constructor; [by constructor|]. constructor; [lia|]. eapply Forall_impl; [exact Hj|]. cbn. lia.
  - constructor; [exact IH|]. eapply Permutation_Forall; [symmetry; apply arrival_place_perm|]. constructor; [lia|exact Hj].
Qed.

(** The loop that stops at the first entry in time drops every one that is late. *)
Lemma arrival_purge_filter now l :
  StronglySorted (fun i j => arrived i <= arrived j) l -> arrival_purge now l = filter (fun i => now <= arrived i + 60 * 1000) l.
Proof.
  induction 1 as [|i l Hs IH Hi]; cbn [arrival_purge]; [done|]. rewrite filter_cons.
  destruct (Z.ltb_spec (arrived i + 60 * 1000) now); case_decide; [lia|exact IH| |lia].
  f_equal. symmetry. apply list_filter_all_in. intros j Hj. eapply Forall_forall in Hi; [|exact Hj]. cbn in Hi. lia.
Qed.

(** Which blocks count as live.  On entries that are sorted by their time and
    hold a block once, [add] and [recent] do not fail and keep them so; [add]
    keeps the time of a block that is there, and enters another with the time of
    now; [recent] drops exactly the entries that are more than a minute old, and
    answers true exactly for a block whose entry is not. *)
Theorem block_arrival_exact (b : block_arrival) (h : block_hash) :
  arrivals_ok b ->
  let now := steady_clock (ba_readings b) in
  (exists b', arrival_add h b = Ok (tt, b') /\ arrivals_ok b'
   /\ arrival b' ≡ₚ (if decide (h ∈ arrival_hash <$> arrival b) then arrival b else BlockArrivalInfo now h :: arrival b))
  /\ exists r b', arrival_recent h b = Ok (r, b') /\ arrivals_ok b'
   /\ arrival b' = filter (fun i => now <= arrived i + 60 * 1000) (arrival b)
   /\ (r = true <-> exists i, i ∈ arrival b /\ arrival_hash i = h /\ now <= arrived i + 60 * 1000).
Proof.
  intros [Hs Hu] now. split.
  - eexists. split; [reflexivity|]. cbn [arrival]. unfold arrival_insert. cbn [arrival_hash].
    case_decide as Hh; [split; [by split|done]|].
    pose proof (arrival_place_perm (BlockArrivalInfo now h) (arrival b)) as Hp. split; [|exact Hp].
    split; cbn [arrival]; [by apply arrival_place_sorted|].
    eapply NoDup_Permutation_proper; [apply fmap_Permutation, Hp|]. cbn. by constructor.
  - eexists _, _. split; [reflexivity|]. cbn [arrival]. rewrite arrival_purge_filter by exact Hs. split_and!; [|done|].
    + split; cbn [arrival].
      * by apply StronglySorted_filter.
      * by apply NoDup_fmap_filter.
    + rewrite bool_decide_eq_true, list_elem_of_fmap. split.
      * intros (i & -> & [Hl Hi]%list_elem_of_filter). by exists i.
      * intros (i & Hi & <- & Hl). exists i. split; [done|]. by apply list_elem_of_filter.
Qed.
End Recent.

(** ** A small container *)

#[local] Instance sample_clock : NodeEnvironment := {|
  steady_clock i := 900 * Z.of_nat i;
  not_an_account := 1;
  bootstrap_fraction_numerator := 1;
  hash_order l := l;
  hash_order_perm l := Permutation_refl l
|}.

(** A block that comes in again keeps the time it first came in. *)
Definition sample_arrivals : block_arrival := BlockArrival [BlockArrivalInfo 0 10; BlockArrivalInfo 50000 11] 67.

Lemma block_arrival_exact_witness :
  exists b', arrival_recent 10 sample_arrivals = Ok (false, b') /\ arrival b' = [BlockArrivalInfo 50000 11].
Proof.
  destruct (block_arrival_exact sample_arrivals 10) as [_ (r & b' & Hrun & _ & Ha & Hr)].
  { split; [repeat constructor; cbn; lia|].
    apply NoDup_cons. split; [intros ?%list_elem_of_singleton; discriminate|apply NoDup_singleton]. }
  exists b'. split; [|exact Ha]. destruct r; [|exact Hrun].
  destruct (proj1 Hr eq_refl) as (i & [->|[->|[]%not_elem_of_nil]%elem_of_cons]%elem_of_cons & Hh & Ht);
    [destruct (Ht eq_refl)|discriminate Hh].
Defined.
