(* ===== verification/BootstrapServer.v ===== *)
(** * Bootstrap servers (rai/node/bootstrap.cpp)

    What a node answers to the requests of another one that bootstraps from it:
    [frontier_req_server], [bulk_pull_server] and [bulk_pull_blocks_server], and
    the queue of requests of a connection, [bootstrap_server].

    A response is sent piece by piece, and every piece is made when the one
    before it has been written; so every step takes the tables as they are then.
    A session is all pieces of a response, when the tables stay as they are. *)
From Stdlib Require Import ZArith Lia List.
From stdpp Require Import prelude gmap sorting.
From S2P Require Import Prelude Numbers Streams Blocks Store Ledger Votes Messages.

Local Open Scope m_scope.

(** ** Walking a table *)

(** The entries of a table in the order of their keys, from the key [k] on. *)
Definition key_le {A} (x y : Z * A) : Prop := fst x <= fst y.
#[export] Instance key_le_dec {A} : RelDecision (@key_le A).
Proof. intros x y. unfold key_le. apply _. Defined.

Definition table_from {A} (k : Z) (m : gmap Z A) : list (Z * A) :=
  filter (fun x => k <= fst x) (merge_sort key_le (map_to_list m)).

(** Where an iterator that starts at the key [k] stands: on the first key that is
    not less; [None] is the end. *)
Definition first_from {A} (k : Z) (m : gmap Z A) : option (Z * A) :=
  match table_from k m with [] => None | x :: _ => Some x end.

(** [latest_begin (transaction, k)] *)
Definition latest_begin (k : account) (s : store) : option (account * account_info) := first_from k (accounts s).

(** ** Frontiers *)

Record frontier_req_server := FrontierServer {
  fs_current : account;
  fs_info : account_info;
  fs_request : frontier_req
}.

Definition frontier_next (s : store) (f : frontier_req_server) : frontier_req_server :=
  match latest_begin (wrap 256 (fs_current f + 1)) s with
  | Some (a, i) => FrontierServer a i (fs_request f)
  | None => FrontierServer 0 (fs_info f) (fs_request f)
  end.

(** [std::numeric_limits<uint32_t>::max ()]: no limit. *)
Definition any_age : Z := 2 ^ 32 - 1.

Fixpoint skip_old_loop (fuel : nat) (s : store) (now : Z) (f : frontier_req_server) : res frontier_req_server :=
  match fuel with
  | O => Fault Out_of_fuel
  | S fuel =>
      if negb (is_zero (fs_current f)) && (fr_age (fs_request f) <=? wrap 64 (now - modified (fs_info f)))
      then skip_old_loop fuel s now (frontier_next s f)
      else Ok f
  end.

Definition skip_old (fuel : nat) (s : store) (now : Z) (f : frontier_req_server) : res frontier_req_server :=
  if negb (fr_age (fs_request f) =? any_age) then skip_old_loop fuel s now f else Ok f.

(** The constructor. *)
Definition frontier_req_server_new (fuel : nat) (s : store) (now : Z) (r : frontier_req) : res frontier_req_server :=
  skip_old fuel s now
    (frontier_next s (FrontierServer (wrap 256 (fr_start r - 1)) (AccountInfo 0 0 0 0 0 0) r)).

(** What is sent next, and the server then, or [None] when this was the end. *)
Definition frontier_send_next (s : store) (f : frontier_req_server) : list byte * option frontier_req_server :=
  if negb (is_zero (fs_current f)) then
    (write_u256 (fs_current f) ++ write_u256 (head (fs_info f)), Some (frontier_next s f))
  else (write_u256 0 ++ write_u256 0, None).

Fixpoint frontier_session (fuel : nat) (s : store) (f : frontier_req_server) : res (list byte) :=
  match fuel with
  | O => Fault Out_of_fuel
  | S fuel =>
      match frontier_send_next s f with
      | (sent, None) => Ok sent
      | (sent, Some f) =>
          match frontier_session fuel s f with Ok rest => Ok (sent ++ rest) | Fault e => Fault e end
      end
  end.

(** ** The blocks of an account *)

Record bulk_pull_server := PullServer {
  ps_current : block_hash;
  ps_start : account;
  ps_end : block_hash
}.

Section Servers.
Context `{Environment}.

(** The constructor with [set_current_end]; it only reads. *)
Definition set_current_end (r : bulk_pull) : M store bulk_pull_server :=
  let start := bp_start r in
  known <- st_get (fun s => block_exists s (bp_end r));;
  let end_ := if negb known then 0 else bp_end r in
  info <- st_get (fun s => account_get s start);;
  match info with
  | None => st_ret (PullServer end_ start end_)
  | Some info =>
      if negb (is_zero end_) then
        account <- ledger_account end_;;
        if account =? start then st_ret (PullServer (head info) start end_)
        else st_ret (PullServer end_ start end_)
      else st_ret (PullServer (head info) start end_)
  end.

Definition pull_get_next (s : store) (p : bulk_pull_server) : option block * bulk_pull_server :=
  if negb (ps_current p =? ps_end p) then
    match block_get s (ps_current p) with
    | Some b =>
        let prev := previous b in
        (Some b, PullServer (if negb (is_zero prev) then prev else ps_end p) (ps_start p) (ps_end p))
    | None => (None, PullServer (ps_end p) (ps_start p) (ps_end p))
    end
  else (None, p).

(** The byte that ends a list of blocks. *)
Definition no_block : list byte := le_split 1 (block_type_code not_a_block).

Definition pull_send_next (s : store) (p : bulk_pull_server) : list byte * option bulk_pull_server :=
  match pull_get_next s p with
  | (Some b, p) => (serialize_block b, Some p)
  | (None, _) => (no_block, None)
  end.

Fixpoint pull_session (fuel : nat) (s : store) (p : bulk_pull_server) : res (list byte) :=
  match fuel with
  | O => Fault Out_of_fuel
  | S fuel =>
      match pull_send_next s p with
      | (sent, None) => Ok sent
      | (sent, Some p) => match pull_session fuel s p with Ok rest => Ok (sent ++ rest) | Fault e => Fault e end
      end
  end.

(** The whole response to a request. *)
Definition bulk_pull_response (fuel : nat) (r : bulk_pull) : M store (list byte) :=
  p <- set_current_end r;;
  st_run (fun s => pull_session fuel s p).
End Servers.

(** ** A range of blocks *)

(** [stream] walks the table as it was when the response began; [None] is its
    end. *)
Record bulk_pull_blocks_server := BlocksServer {
  bs_request : bulk_pull_blocks;
  bs_table : gmap Z block_info;
  bs_stream : option (Z * block_info);
  sent_count : Z;
  bs_checksum : Z
}.

Definition list_blocks : Z := 0.
Definition checksum_blocks : Z := 1.

(** The constructor with [set_params]. *)
Definition bulk_pull_blocks_server_new (s : store) (r : bulk_pull_blocks) : bulk_pull_blocks_server :=
  BlocksServer
    (BulkPullBlocks (bb_header r) (min_hash r) (if max_hash r <? min_hash r then min_hash r else max_hash r)
       (mode r) (max_count r))
    (blocks_info s) (first_from (min_hash r) (blocks_info s)) 0 0.

(** [++stream] *)
Definition stream_next (b : bulk_pull_blocks_server) (current : Z) : bulk_pull_blocks_server :=
  BlocksServer (bs_request b) (bs_table b) (first_from (current + 1) (bs_table b)) (sent_count b) (bs_checksum b).

Definition count_sent (b : bulk_pull_blocks_server) : bulk_pull_blocks_server :=
  BlocksServer (bs_request b) (bs_table b) (bs_stream b) (wrap 32 (sent_count b + 1)) (bs_checksum b).

Definition blocks_get_next (s : store) (b : bulk_pull_blocks_server) : option block * bulk_pull_blocks_server :=
  let limited := negb (max_count (bs_request b) =? 0) in
  let out_of_bounds := limited && (max_count (bs_request b) <=? sent_count b) in
  let b := if limited then count_sent b else b in
  if negb out_of_bounds then
    match bs_stream b with
    | Some (current, _) =>
        if current <? max_hash (bs_request b) then (block_get s current, stream_next b current) else (None, b)
    | None => (None, b)
    end
  else (None, b).

Definition add_checksum (h : Z) (b : bulk_pull_blocks_server) : bulk_pull_blocks_server :=
  BlocksServer (bs_request b) (bs_table b) (bs_stream b) (sent_count b) (Z.lxor (bs_checksum b) h).

Definition blocks_send_next (s : store) (b : bulk_pull_blocks_server) : list byte * option bulk_pull_blocks_server :=
  match blocks_get_next s b with
  | (Some block, b) =>
      if mode (bs_request b) =? list_blocks then (serialize_block block, Some b)
      else if mode (bs_request b) =? checksum_blocks then ([], Some (add_checksum (hash block) b))
      else ([], Some b)
  | (None, b) =>
      if mode (bs_request b) =? checksum_blocks then (no_block ++ write_u256 (bs_checksum b) ++ no_block, None)
      else (no_block, None)
  end.

Fixpoint blocks_session (fuel : nat) (s : store) (b : bulk_pull_blocks_server) : res (list byte) :=
  match fuel with
  | O => Fault Out_of_fuel
  | S fuel =>
      match blocks_send_next s b with
      | (sent, None) => Ok sent
      | (sent, Some b) => match blocks_session fuel s b with Ok rest => Ok (sent ++ rest) | Fault e => Fault e end
      end
  end.
