(* ===== verification/BootstrapTheorems.v ===== *)
(** * What the bootstrap servers send

    On a reachable ledger the responses are shown to be what the requests ask
    for: all frontiers in order, and a chain from its head down to a block. *)
From Stdlib Require Import ZArith Lia List Sorted.
From stdpp Require Import prelude gmap sorting.
From S2P Require Import Prelude Lists Numbers Streams Blocks Store Ledger StoreFacts LedgerInv LedgerQueries LedgerExtend LedgerShrink LedgerProcess LedgerRollback LedgerUndo LedgerUnique LedgerTheorems LedgerSub Votes Messages BootstrapServer.

(** ** Tables in order *)

Section Tables.
Context {A : Type}.
Implicit Types (m : gmap Z A) (l : list (Z * A)).

#[local] Instance key_le_trans : Transitive (@key_le A).
Proof. intros x y z. unfold key_le. lia. Qed.
#[local] Instance key_le_total : Total (@key_le A).
Proof. intros x y. unfold key_le. lia. Qed.

Definition key_lt (x y : Z * A) : Prop := fst x < fst y.

Lemma key_lt_sorted l : NoDup (fst <$> l) -> StronglySorted key_le l -> StronglySorted key_lt l.
Proof.
  induction 2 as [|x l Hl IH Hx]; [constructor|]. rewrite fmap_cons, NoDup_cons in *.
  destruct H as [Hn Hd]. constructor; [auto|]. apply Forall_forall. intros y Hy.
  pose proof (proj1 (Forall_forall _ _) Hx y Hy) as Hle. unfold key_le, key_lt in *.
  assert (fst x <> fst y) by (intros He; apply Hn; rewrite He; by apply list_elem_of_fmap_2). lia.
Qed.

Lemma table_sorted m : StronglySorted key_lt (merge_sort key_le (map_to_list m)).
Proof.
  apply key_lt_sorted; [|apply StronglySorted_merge_sort; apply _].
  eapply NoDup_Permutation_proper; [apply fmap_Permutation, merge_sort_Permutation|]. apply NoDup_fst_map_to_list.
Qed.

Lemma table_from_sorted k m : StronglySorted key_lt (table_from k m).
Proof. apply StronglySorted_filter, table_sorted. Qed.

Lemma table_from_nodup k m : NoDup (fst <$> table_from k m).
Proof.
  apply NoDup_fmap_filter. eapply NoDup_Permutation_proper; [apply fmap_Permutation, merge_sort_Permutation|]. apply NoDup_fst_map_to_list.
Qed.

Lemma table_from_elem k m x v : (x, v) ∈ table_from k m <-> k <= x /\ m !! x = Some v.
Proof.
  unfold table_from. rewrite list_elem_of_filter. cbn [fst].
  assert (He : (x, v) ∈ merge_sort key_le (map_to_list m) <-> m !! x = Some v).
  { rewrite <- elem_of_map_to_list. split; apply perm_in; [|symmetry]; apply merge_sort_Permutation. }
  by rewrite He.
Qed.

Lemma table_from_length k m : (length (table_from k m) <= size m)%nat.
Proof.
  unfold table_from. etransitivity; [apply length_filter|]. rewrite (Permutation_length (merge_sort_Permutation _ _)).
  by rewrite length_map_to_list.
Qed.

(** The rest of a walk is the walk from the next key on. *)
Lemma sorted_rest k l x r :
  StronglySorted key_lt l -> filter (fun y => k <= fst y) l = x :: r -> r = filter (fun y => fst x + 1 <= fst y) l.
Proof.
  induction 1 as [|y l Hl IH Hy]; [discriminate|]. rewrite !filter_cons. case_decide as Hk.
  - intros [= -> <-]. rewrite decide_False by lia. apply filter_ext_in. intros z Hz.
    pose proof (proj1 (Forall_forall _ _) Hy z Hz) as Hlt. unfold key_lt in Hlt. lia.
  - intros Hr. rewrite decide_False; [auto|].
    assert (Hx : x ∈ filter (fun y => k <= fst y) l) by (rewrite Hr; by left).
    apply list_elem_of_filter in Hx as [Hkx Hx]. lia.
Qed.

Lemma table_from_cons k m x v r : table_from k m = (x, v) :: r -> r = table_from (x + 1) m.
Proof. apply sorted_rest, table_sorted. Qed.

Lemma first_from_table k m :
  match first_from k m with
  | None => table_from k m = []
  | Some (x, v) => table_from k m = (x, v) :: table_from (x + 1) m /\ k <= x /\ m !! x = Some v
  end.
Proof.
  unfold first_from. destruct (table_from k m) as [|[x v] r] eqn:Ht; [done|].
  pose proof (table_from_cons _ _ _ _ _ Ht) as ->. split; [done|]. apply table_from_elem. rewrite Ht. by left.
Qed.

(** A walk from a key on that starts with this key. *)
Lemma first_from_found k m :
  match first_from k m with Some (x, _) => x =? k | None => false end = true <-> is_Some (m !! k).
Proof.
  pose proof (first_from_table k m) as Ht. assert (Hin : forall v, m !! k = Some v -> (k, v) ∈ table_from k m).
  { intros v Hv. apply table_from_elem. split; [lia|done]. }
  destruct (first_from k m) as [[x v]|].
  - destruct Ht as (Ht & Hle & Hx). rewrite Z.eqb_eq. split; [intros ->; by eexists|]. intros [v' Hv%Hin].
    rewrite Ht in Hv. apply elem_of_cons in Hv as [[= -> _]|[Hv _]%table_from_elem]; [done|lia].
  - split; [done|]. intros [v' Hv%Hin]. rewrite Ht in Hv. by apply not_elem_of_nil in Hv.
Qed.
End Tables.

(** ** Frontiers *)

(** The accounts from [start] on with their heads, in order. *)
Definition frontier_list (start : account) (s : store) (l : list (account * block_hash)) : Prop :=
  StronglySorted (fun x y => fst x < fst y) l
  /\ forall a h, (a, h) ∈ l <-> start <= a /\ exists i, accounts s !! a = Some i /\ head i = h.

Definition write_frontier (x : account * block_hash) : list byte := write_u256 (fst x) ++ write_u256 (snd x).

Definition heads_of (l : list (Z * account_info)) : list (account * block_hash) :=
  (fun x => (fst x, head (snd x))) <$> l.

Lemma heads_of_list start s : frontier_list start s (heads_of (table_from start (accounts s))).
Proof.
  split.
  - unfold heads_of. induction (table_from_sorted start (accounts s)) as [|x l Hl IH Hx]; cbn; [constructor|].
    constructor; [exact IH|]. apply Forall_forall. intros y Hy. unfold heads_of in Hy.
    apply list_elem_of_fmap in Hy as (z & -> & Hz). exact (proj1 (Forall_forall _ _) Hx z Hz).
  - intros a h. unfold heads_of. rewrite list_elem_of_fmap. split.
    + intros ([x i] & [= -> ->] & (Hk & Ha)%table_from_elem). eauto.
    + intros (Hk & i & Ha & <-). exists (a, i). split; [done|]. by apply table_from_elem.
Qed.

Section Frontiers.
Context {s : store}.
Context (Hfit : forall a i, accounts s !! a = Some i -> 0 < a < 2 ^ 256 - 1).

Lemma frontier_next_table f :
  0 <= fs_current f + 1 < 2 ^ 256 ->
  match table_from (fs_current f + 1) (accounts s) with
  | [] => frontier_next s f = FrontierServer 0 (fs_info f) (fs_request f)
  | (a, i) :: r => frontier_next s f = FrontierServer a i (fs_request f) /\ r = table_from (a + 1) (accounts s)
  end.
Proof.
  intros Hc. unfold frontier_next, latest_begin. rewrite wrap_small by (unfold fits; lia).
  pose proof (first_from_table (fs_current f + 1) (accounts s)) as Ht.
  destruct (first_from _ _) as [[a i]|]; [destruct Ht as (-> & _ & _)|rewrite Ht]; done.
Qed.

Lemma frontier_session_run fuel f :
  (length (table_from (fs_current f + 1) (accounts s)) + 2 <= fuel)%nat ->
  accounts s !! fs_current f = Some (fs_info f) ->
  frontier_session fuel s f
  = Ok (concat (write_frontier <$> heads_of ((fs_current f, fs_info f) :: table_from (fs_current f + 1) (accounts s)))
        ++ write_frontier (0, 0)).
Proof.
  remember (table_from (fs_current f + 1) (accounts s)) as l eqn:Hl. revert fuel f Hl.
  induction l as [|[a i] l IH]; intros [|fuel] f Hl Hfuel Ha; cbn [length] in Hfuel; try lia;
    pose proof (Hfit _ _ Ha) as Hb; pose proof (frontier_next_table f ltac:(lia)) as Hn; rewrite <- Hl in Hn;
    cbn [frontier_session]; unfold frontier_send_next at 1; rewrite (is_zero_ne (fs_current f)) by lia; cbn [negb].
  - rewrite Hn. destruct fuel as [|fuel]; [lia|]. cbn [frontier_session]. unfold frontier_send_next. cbn.
    by rewrite ?app_nil_r.
  - destruct Hn as [Hn Hr]. rewrite Hn. rewrite IH; [|exact Hr|lia|].
    + cbn [fs_current fs_info heads_of fmap list_fmap concat fst snd]. unfold heads_of. by rewrite <- !app_assoc.
    + cbn [fs_current fs_info]. apply (table_from_elem (fs_current f + 1)). rewrite <- Hl. by left.
Qed.

(** A request without a limit on the age. *)
Lemma frontier_response_run fuel now r :
  fits 256 (fr_start r) -> fr_age r = any_age -> (size (accounts s) + 2 <= fuel)%nat ->
  exists f, frontier_req_server_new fuel s now r = Ok f
  /\ frontier_session fuel s f
     = Ok (concat (write_frontier <$> heads_of (table_from (fr_start r) (accounts s))) ++ write_frontier (0, 0)).
Proof.
  intros Hst Hage Hfuel. unfold frontier_req_server_new, skip_old.
  set (f0 := FrontierServer _ _ r). pose proof (first_from_table (fr_start r) (accounts s)) as Ht.
  assert (Hn : frontier_next s f0 = match first_from (fr_start r) (accounts s) with
    | Some (a, i) => FrontierServer a i r | None => FrontierServer 0 (fs_info f0) r end).
  { unfold frontier_next, latest_begin, f0. cbn [fs_current fs_request]. unfold wrap.
    rewrite Zplus_mod_idemp_l. replace (fr_start r - 1 + 1) with (fr_start r) by lia.
    rewrite Z.mod_small by exact Hst. done. }
  rewrite Hn. pose proof (table_from_length (fr_start r) (accounts s)) as Hlen.
  destruct (first_from (fr_start r) (accounts s)) as [[a i]|]; cbn [fs_request]; rewrite Hage; change (any_age =? any_age) with true;
    cbn [negb]; (eexists; split; [reflexivity|]).
  - destruct Ht as (Ht & _ & Ha). rewrite Ht in Hlen |- *. cbn [length] in Hlen.
    apply (frontier_session_run fuel (FrontierServer a i r)); cbn [fs_current fs_info]; [lia|exact Ha].
  - rewrite Ht. destruct fuel as [|fuel]; [lia|]. reflexivity.
Qed.
End Frontiers.

(** ** Chains *)

(** The blocks from [top] down to [bottom], which is not one of them. *)
Fixpoint segment (s : store) (top : block_hash) (l : list block) (bottom : block_hash) : Prop :=
  match l with
  | [] => top = bottom
  | b :: l => block_get s top = Some b /\ segment s (previous b) l bottom
  end.

Section Chains.
Context `{Environment} {n : nat} {g : ghost} {s : store} (I : inv_with n g s).

(** [bottom] is below [top], or there is no bound. *)
Definition below (bottom top : block_hash) : Prop :=
  bottom = 0 \/ is_Some (entry_at s bottom) /\ gown g bottom = gown g top /\ gheight g bottom <= gheight g top.

(** One step down a chain. *)
Lemma below_previous top b m bottom :
  entry_at s top = Some (b, m) -> below bottom top -> top <> bottom ->
  (previous b = 0 /\ bottom = 0)
  \/ previous b <> 0 /\ below bottom (previous b) /\ (grank g (previous b) < grank g top)%nat
     /\ exists pb, entry_at s (previous b) = Some (pb, top).
Proof.
  intros He Hb Hne. pose proof (inv_entry I _ _ _ He) as Hi. destruct (is_open b) eqn:Ho.
  - left. split; [by apply open_previous|]. destruct Hb as [|((bb & Hbb) & Hown & Hh)]; [done|].
    destruct bb as [bb mb]. pose proof (ei_height _ _ _ _ _ _ (inv_entry I _ _ _ Hbb)) as H1. destruct Hne.
    assert (gheight g top = 1) by (pose proof (ei_block _ _ _ _ _ _ Hi) as Hbi; destruct b; try discriminate Ho; apply Hbi).
    apply (ci_uniq _ _ _ (iv_chain _ _ _ I)); [by eexists|by eexists|done|lia].
  - right. destruct (inv_previous I _ _ _ He Ho) as ((pb & Hp) & Hown & Hh & Hr). split_and!.
    + intros Hz. rewrite Hz, (zero_entry I) in Hp. discriminate Hp.
    + destruct Hb as [->|(Hs & Ho' & Hle)]; [by left|right]. split_and!; [done|congruence|].
      assert (gheight g bottom <> gheight g top); [|lia]. intros Heq. destruct Hne.
      apply (ci_uniq _ _ _ (iv_chain _ _ _ I)); [by eexists|done|done|done].
    + exact Hr.
    + eauto.
Qed.

Lemma pull_session_run fuel start top bottom :
  is_Some (entry_at s top) -> below bottom top -> (grank g top + 3 <= fuel)%nat ->
  exists l, segment s top l bottom /\ (length l <= S (grank g top))%nat
  /\ pull_session fuel s (PullServer top start bottom) = Ok (concat (serialize_block <$> l) ++ no_block).
Proof.
  revert top. induction fuel as [|fuel IH]; intros top [[b m] He] Hb Hf; [lia|].
  cbn [pull_session]. unfold pull_send_next, pull_get_next. cbn [ps_current ps_start ps_end].
  destruct (Z.eqb_spec top bottom) as [->|Hne]; cbn [negb].
  { exists []. split_and!; [done|cbn; lia|reflexivity]. }
  rewrite (entry_get _ _ _ He). destruct (below_previous _ _ _ _ He Hb Hne) as [(Hp & ->)|(Hp & Hb' & Hr & pb & Hpb)].
  - rewrite Hp. exists [b]. split_and!; [split; [exact (entry_get _ _ _ He)|exact Hp]|cbn; lia|].
    cbn [is_zero]. change (is_zero 0) with true. cbn [negb]. destruct fuel as [|fuel]; [lia|].
    cbn [pull_session]. unfold pull_send_next, pull_get_next. cbn [ps_current ps_end]. rewrite Z.eqb_refl. cbn. by rewrite app_nil_r.
  - rewrite (is_zero_ne _ Hp). cbn [negb].
    destruct (IH (previous b)) as (l & Hs & Hl & ->); [by eexists|exact Hb'|lia|].
    exists (b :: l). split_and!; [split; [exact (entry_get _ _ _ He)|exact Hs]|cbn; lia|]. cbn. by rewrite <- app_assoc.
Qed.

(** Down to the first block, every block of the chain is met. *)
Lemma segment_complete top l h b m :
  segment s top l 0 -> is_Some (entry_at s top) -> entry_at s h = Some (b, m) ->
  gown g h = gown g top -> gheight g h <= gheight g top -> b ∈ l.
Proof.
  revert top. induction l as [|x l IH]; intros top Hs [[tb tm] Ht] Hh Ho Hle; cbn [segment] in Hs.
  { subst top. rewrite (zero_entry I) in Ht. discriminate Ht. }
  destruct Hs as [Hx Hs]. rewrite (entry_get _ _ _ Ht) in Hx. injection Hx as ->.
  destruct (decide (h = top)) as [->|Hne]; [rewrite Hh in Ht; injection Ht as -> _; by left|right].
  destruct (below_previous _ _ _ h Ht) as [(_ & ->)|(Hp & [->|(_ & Ho' & Hle')] & _ & pb & Hpb)].
  - right. split_and!; [by eexists|done|done].
  - congruence.
  - rewrite (zero_entry I) in Hh. discriminate Hh.
  - rewrite (zero_entry I) in Hh. discriminate Hh.
  - apply (IH (previous x)); [done|by eexists|done|done|done].
Qed.

Lemma set_current_end_unknown r :
  accounts s !! bp_start r = None ->
  exists e, set_current_end r s = Ok (PullServer e (bp_start r) e, s).
Proof. intros Ha. unfold set_current_end, st_bind, st_get, account_get. rewrite Ha. by eexists. Qed.
End Chains.

Section Pulls.
Context `{Environment} {gb : open_block} {n : nat} {s : store}.
Context (R : reachable gb n s) (Hfuel : (query_fuel n <= loop_fuel)%nat).

(** What the server starts from: the head of the account and the bound, or
    nothing to send. *)
Lemma set_current_end_run {g} (I : inv_with n g s) r i :
  accounts s !! bp_start r = Some i ->
  let e := if block_exists s (bp_end r) then bp_end r else 0 in
  set_current_end r s
  = Ok (PullServer (if (e =? 0) || (gown g e =? bp_start r) then head i else e) (bp_start r) e, s)
  /\ (e <> 0 -> is_Some (entry_at s e)).
Proof.
  intros Ha e. assert (He : e <> 0 -> is_Some (entry_at s e)).
  { unfold e. destruct (block_exists s (bp_end r)) eqn:Hx; [|done]. intros _. by apply block_exists_true. }
  split; [|exact He]. unfold set_current_end, st_bind, st_get, account_get. rewrite Ha.
  fold e. replace (if negb (block_exists s (bp_end r)) then 0 else bp_end r) with e by (unfold e; by destruct (block_exists _ _)).
  unfold is_zero. destruct (Z.eqb_spec e 0) as [->|Hz]; cbn [negb orb]; [reflexivity|].
  rewrite (ledger_account_ok I Hfuel e (He Hz)). by destruct (gown g e =? bp_start r).
Qed.

Lemma bulk_pull_run (r : bulk_pull) (fuel : nat) :
  (n + 2 <= fuel)%nat ->
  let e := if block_exists s (bp_end r) then bp_end r else 0 in
  exists l, bulk_pull_response fuel r s = Ok (concat (serialize_block <$> l) ++ no_block, s)
  /\ match accounts s !! bp_start r with
     | None => l = []
     | Some i =>
         (e = 0 -> segment s (head i) l 0
                   /\ forall h b, block_get s h = Some b -> ledger_account h s = Ok (bp_start r, s) -> b ∈ l)
         /\ (e <> 0 -> ledger_account e s = Ok (bp_start r, s) -> segment s (head i) l e)
         /\ (e <> 0 -> ledger_account e s <> Ok (bp_start r, s) -> l = [])
     end.
Proof.
  intros Hf e. destruct (reachable_inv _ _ _ R Hfuel) as (g & I). unfold bulk_pull_response.
  destruct (accounts s !! bp_start r) as [i|] eqn:Ha.
  2:{ exists []. split; [|done]. destruct (set_current_end_unknown r Ha) as (x & Hx). erewrite st_bind_ok by exact Hx.
      unfold st_run. destruct fuel as [|fuel]; [lia|]. cbn [pull_session]. unfold pull_send_next, pull_get_next. cbn. by rewrite Z.eqb_refl. }
  destruct (set_current_end_run I r i Ha) as [Hrun He]. fold e in Hrun, He. erewrite st_bind_ok by exact Hrun.
  pose proof (inv_head I _ _ Ha) as [_ (hb & Hh) Hown _ _ _ _].
  pose proof (entry_rank I _ _ _ Hh) as Hrank. unfold st_run.
  assert (Hacc : e <> 0 -> ledger_account e s = Ok (gown g e, s)) by (intros Hz; by apply (ledger_account_ok I Hfuel), He).
  destruct (Z.eqb_spec e 0) as [Hz|Hz]; cbn [orb]; [|destruct (Z.eqb_spec (gown g e) (bp_start r)) as [Ho|Ho]].
  - destruct (pull_session_run I fuel (bp_start r) (head i) e) as (l & Hs & _ & ->); [by eexists|by left|lia|].
    exists l. split; [done|]. split_and!; [|done|done]. intros _. rewrite Hz in Hs. split; [done|].
    intros h b (m & Hb)%get_entry Hac. rewrite (ledger_account_ok I Hfuel h) in Hac by (by eexists). injection Hac as Hac.
    destruct (ai_owner _ _ _ _ (iv_accounts _ _ _ I) _ _ _ Hb) as (i' & Hi' & Hle & _). rewrite Hac, Ha in Hi'. injection Hi' as <-.
    eapply (segment_complete I); [exact Hs|by eexists|exact Hb|congruence|exact Hle].
  - destruct (He Hz) as [[eb em] Heb]. destruct (ai_owner _ _ _ _ (iv_accounts _ _ _ I) _ _ _ Heb) as (i' & Hi' & Hle & _).
    rewrite Ho, Ha in Hi'. injection Hi' as <-.
    destruct (pull_session_run I fuel (bp_start r) (head i) e) as (l & Hs & _ & ->); [by eexists| |lia|].
    { right. split_and!; [by apply He|congruence|exact Hle]. }
    exists l. split; [done|]. split_and!; [done|done|]. intros _ Hn. rewrite (Hacc Hz), Ho in Hn. done.
  - exists []. split; [|split_and!; [done| |done]].
    + destruct fuel as [|fuel]; [lia|]. cbn [pull_session]. unfold pull_send_next, pull_get_next. cbn [ps_current ps_end].
      by rewrite Z.eqb_refl.
    + intros _ Hn. rewrite (Hacc Hz) in Hn. injection Hn as Hn. done.
Qed.

(** C19: a pull is answered with the chain that was asked for.  On a reachable
    ledger the response to a request for an account ends, and consists of the
    blocks from the head of the account down to the block after the one that is
    named as the end; down to the first block, with every block of the account,
    when the ledger does not have the named one; and of nothing for an unknown
    account or an end in another chain. *)
Theorem bulk_pull_exact (r : bulk_pull) (fuel : nat) :
  (n + 2 <= fuel)%nat ->
  let e := if block_exists s (bp_end r) then bp_end r else 0 in
  exists l, bulk_pull_response fuel r s = Ok (concat (serialize_block <$> l) ++ no_block, s)
  /\ match accounts s !! bp_start r with
     | None => l = []
     | Some i =>
         (e = 0 -> segment s (head i) l 0
                   /\ forall h b, block_get s h = Some b -> ledger_account h s = Ok (bp_start r, s) -> b ∈ l)
         /\ (e <> 0 -> ledger_account e s = Ok (bp_start r, s) -> segment s (head i) l e)
         /\ (e <> 0 -> ledger_account e s <> Ok (bp_start r, s) -> l = [])
     end.
Proof. exact (bulk_pull_run r fuel). Qed.
End Pulls.

(** ** Ranges *)

(** The blocks a range request is answered with: those the table names from [lo]
    up to [hi], and no more than [count] of them, when it is not zero. *)
Definition limit {A} (count : Z) (l : list A) : list A := if count =? 0 then l else take (Z.to_nat count) l.

Definition range_blocks (s : store) (lo hi : Z) (m : gmap Z block_info) : list block :=
  omap (block_get s) (fst <$> filter (fun x => fst x < hi) (table_from lo m)).

(** Past the end of the range there is nothing. *)
Lemma range_blocks_done s k hi m : match first_from k m with Some (x, _) => hi <= x | None => True end -> range_blocks s k hi m = [].
Proof.
  intros Hx. unfold range_blocks. replace (filter _ _) with (@nil (Z * block_info)); [done|].
  symmetry. apply elem_of_nil_inv. intros [y v] [Hy Hin]%list_elem_of_filter. cbn in Hy.
  pose proof (first_from_table k m) as Ht. destruct (first_from k m) as [[x w]|]; [|rewrite Ht in Hin; by apply not_elem_of_nil in Hin].
  destruct Ht as (Ht & _). rewrite Ht in Hin. apply elem_of_cons in Hin as [[= -> ->]|Hin]; [lia|].
  apply table_from_elem in Hin as [Hin _]. lia.
Qed.

(** One step of a walk over a range. *)
Lemma range_blocks_step s k hi m x v b :
  first_from k m = Some (x, v) -> x < hi -> block_get s x = Some b ->
  range_blocks s k hi m = b :: range_blocks s (x + 1) hi m.
Proof.
  intros Hx Hlt Hb. pose proof (first_from_table k m) as Ht. rewrite Hx in Ht. destruct Ht as (Ht & _).
  unfold range_blocks. rewrite Ht, filter_cons_True by exact Hlt. cbn. by rewrite Hb.
Qed.

Section Ranges.
Context {s : store}.

(** The server stands at the key [k]. *)
Record stands (k : Z) (b : bulk_pull_blocks_server) : Prop := {
  st_stream : bs_stream b = first_from k (bs_table b);
  st_found : forall x i, bs_table b !! x = Some i -> is_Some (block_get s x);
  st_count : 0 <= sent_count b <= max_count (bs_request b) /\ max_count (bs_request b) < 2 ^ 32 \/ max_count (bs_request b) = 0
}.

(** What is left to send. *)
Definition left_of (k : Z) (b : bulk_pull_blocks_server) : list block :=
  let all := range_blocks s k (max_hash (bs_request b)) (bs_table b) in
  if max_count (bs_request b) =? 0 then all else take (Z.to_nat (max_count (bs_request b) - sent_count b)) all.

(** The step of the stream, when the limit is not reached. *)
Lemma stream_step k b :
  bs_stream b = first_from k (bs_table b) -> (forall x i, bs_table b !! x = Some i -> is_Some (block_get s x)) ->
  match range_blocks s k (max_hash (bs_request b)) (bs_table b) with
  | [] => match bs_stream b with Some (x, _) => (x <? max_hash (bs_request b)) = false | None => True end
  | y :: r => exists x i, bs_stream b = Some (x, i) /\ (x <? max_hash (bs_request b)) = true /\ block_get s x = Some y
              /\ r = range_blocks s (x + 1) (max_hash (bs_request b)) (bs_table b)
              /\ (length (table_from (x + 1) (bs_table b)) < length (table_from k (bs_table b)))%nat
  end.
Proof.
  intros -> Hfound. pose proof (first_from_table k (bs_table b)) as Ht.
  pose proof (range_blocks_done s k (max_hash (bs_request b)) (bs_table b)) as Hd.
  pose proof (range_blocks_step s k (max_hash (bs_request b)) (bs_table b)) as Hs.
  destruct (first_from k (bs_table b)) as [[x i]|]; [|by rewrite Hd].
  destruct Ht as (Ht & _ & Hm). destruct (Z.ltb_spec x (max_hash (bs_request b))) as [Hlt|Hge]; [|by rewrite Hd].
  destruct (Hfound _ _ Hm) as [y Hy]. rewrite (Hs x i y eq_refl Hlt Hy). exists x, i. split_and!; [done|by apply Z.ltb_lt|done|done|].
  rewrite Ht. cbn. lia.
Qed.

Lemma blocks_get_next_run k b :
  stands k b ->
  match left_of k b with
  | [] => exists b', blocks_get_next s b = (None, b') /\ bs_request b' = bs_request b /\ bs_checksum b' = bs_checksum b
  | y :: r => exists b' k', blocks_get_next s b = (Some y, b') /\ stands k' b' /\ left_of k' b' = r
              /\ bs_request b' = bs_request b /\ bs_checksum b' = bs_checksum b
              /\ (length (table_from k' (bs_table b')) < length (table_from k (bs_table b)))%nat
  end.
Proof.
  intros [Hst Hfound Hcount]. pose proof (stream_step k b Hst Hfound) as Hstep. unfold left_of, blocks_get_next.
  destruct (Z.eqb_spec (max_count (bs_request b)) 0) as [Hz|Hz]; cbn [negb andb].
  - destruct (range_blocks _ _ _ _) as [|y r].
    + exists b. split_and!; [|done|done]. destruct (bs_stream b) as [[x i]|]; [by rewrite Hstep|done].
    + destruct Hstep as (x & i & -> & -> & Hy & -> & Hlen). exists (stream_next b x), (x + 1). rewrite Hy.
      split_and!; [done|split; [done|exact Hfound|by right]|unfold left_of; cbn; by rewrite Hz|done|done|exact Hlen].
  - destruct Hcount as [[[H0 H1] H2]|]; [|done]. destruct (Z.leb_spec (max_count (bs_request b)) (sent_count b)); cbn [negb].
    { replace (max_count (bs_request b) - sent_count b) with 0 by lia. cbn. by eexists. }
    replace (Z.to_nat (max_count (bs_request b) - sent_count b))
      with (S (Z.to_nat (max_count (bs_request b) - (sent_count b + 1)))) by lia.
    cbn [count_sent bs_stream bs_request bs_table]. destruct (range_blocks _ _ _ _) as [|y r]; cbn [take].
    + exists (count_sent b). split_and!; [|done|done]. destruct (bs_stream b) as [[x i]|]; [by rewrite Hstep|done].
    + destruct Hstep as (x & i & -> & -> & Hy & -> & Hlen). exists (stream_next (count_sent b) x), (x + 1). rewrite Hy.
      assert (Hw : wrap 32 (sent_count b + 1) = sent_count b + 1) by (apply wrap_small; unfold fits; lia).
      split_and!; [done| | |done|done|exact Hlen].
      * split; [done|exact Hfound|]. left. cbn. rewrite Hw. lia.
      * unfold left_of. cbn. rewrite Hw. destruct (Z.eqb_spec (max_count (bs_request b)) 0); [done|]. done.
Qed.

(** Whatever the mode, the response ends. *)
Lemma blocks_session_ends fuel k b :
  stands k b -> (length (table_from k (bs_table b)) + 1 <= fuel)%nat -> exists bytes, blocks_session fuel s b = Ok bytes.
Proof.
  revert k b. induction fuel as [|fuel IH]; intros k b Hs Hf; [lia|].
  pose proof (blocks_get_next_run k b Hs) as Hn. cbn [blocks_session]. unfold blocks_send_next.
  destruct (left_of k b) as [|y r].
  - destruct Hn as (b' & -> & _). destruct (_ =? checksum_blocks); by eexists.
  - destruct Hn as (b' & k' & -> & Hs' & _ & _ & _ & Hlen).
    destruct (IH k' b' Hs' ltac:(lia)) as (x & Hx).
    destruct (IH k' (add_checksum (hash y) b')) as (z & Hz); [by destruct Hs'|cbn; lia|].
    destruct (_ =? list_blocks); [rewrite Hx; by eexists|]. destruct (_ =? checksum_blocks); [rewrite Hz|rewrite Hx]; by eexists.
Qed.

(** The two kinds of response. *)
Lemma blocks_session_run fuel k b :
  stands k b -> (length (table_from k (bs_table b)) + 1 <= fuel)%nat ->
  let sent := left_of k b in
  (mode (bs_request b) = list_blocks -> blocks_session fuel s b = Ok (concat (serialize_block <$> sent) ++ no_block))
  /\ (mode (bs_request b) = checksum_blocks ->
      blocks_session fuel s b = Ok (no_block ++ write_u256 (fold_left (fun c x => Z.lxor c (hash x)) sent (bs_checksum b)) ++ no_block)).
Proof.
  revert k b. induction fuel as [|fuel IH]; intros k b Hs Hf; [lia|]. cbn zeta.
  pose proof (blocks_get_next_run k b Hs) as Hn. cbn [blocks_session]. unfold blocks_send_next.
  destruct (left_of k b) as [|y r].
  - destruct Hn as (b' & -> & Hr & Hc). rewrite Hr, Hc. split; intros ->; reflexivity.
  - destruct Hn as (b' & k' & -> & Hs' & Hl & Hr & Hc & Hlen). rewrite Hr. split; intros Hm; rewrite Hm.
    + change (list_blocks =? list_blocks) with true. destruct (IH k' b' Hs' ltac:(lia)) as [H1 _].
      rewrite H1 by congruence. rewrite Hl. cbn. by rewrite <- app_assoc.
    + change (checksum_blocks =? list_blocks) with false. change (checksum_blocks =? checksum_blocks) with true.
      cbn [fold_left]. destruct (IH k' (add_checksum (hash y) b')) as [_ H2]; [by destruct Hs'|cbn; lia|].
      rewrite H2 by (cbn; congruence). cbn [bs_checksum add_checksum].
      replace (left_of k' (add_checksum (hash y) b')) with r by (by rewrite <- Hl). by rewrite Hc.
Qed.
End Ranges.

Section Responses.
Context `{Environment} {gb : open_block} {n : nat} {s : store}.
Context (R : reachable gb n s) (Hfuel : (query_fuel n <= loop_fuel)%nat).

Lemma segment_height {g} (I : inv_with n g s) top l :
  is_Some (entry_at s top) -> segment s top l 0 -> Z.of_nat (length l) = gheight g top.
Proof.
  revert top. induction l as [|x l IH]; intros top [[b m] He] Hs; cbn [segment] in Hs.
  { subst top. rewrite (zero_entry I) in He. discriminate He. }
  destruct Hs as [Hx Hs]. rewrite (entry_get _ _ _ He) in Hx. injection Hx as ->.
  pose proof (inv_entry I _ _ _ He) as Hi. destruct (is_open x) eqn:Ho.
  - rewrite (open_previous x Ho) in Hs. destruct l as [|y l].
    + pose proof (ei_block _ _ _ _ _ _ Hi) as Hbi. destruct x; try discriminate Ho. cbn. symmetry. apply Hbi.
    + cbn [segment] in Hs. destruct Hs as [Hy _]. apply get_entry in Hy as (k & Hy). rewrite (zero_entry I) in Hy. discriminate Hy.
  - destruct (inv_previous I _ _ _ He Ho) as ((pb & Hp) & _ & Hh & _). cbn [length].
    rewrite Hh, <- (IH (previous x)); [lia|by eexists|exact Hs].
Qed.

Lemma segment_exists {g} (I : inv_with n g s) top : is_Some (entry_at s top) -> exists l, segment s top l 0.
Proof.
  intros He. destruct (pull_session_run I (grank g top + 3) 0 top 0) as (l & Hs & _); [done|by left|lia|by exists l].
Qed.

(** The accounts of a reachable ledger are numbers of 256 bits, and not zero. *)
Lemma accounts_fit a i : fits 256 genesis_account -> accounts s !! a = Some i -> 0 < a < 2 ^ 256.
Proof.
  intros Hg Ha. destruct (reachable_inv _ _ _ R Hfuel) as (g & I).
  pose proof (inv_head I _ _ Ha) as [Hz _ _ _ _ _ (ob & m & Hob & Hac)].
  assert (Hfit : fits 256 a); [|unfold fits in Hfit; lia].
  destruct (decide (is_genesis (Open ob))) as [Hn|Hn].
  - assert (Hin : gown g (open_block_hash i) = a).
    { pose proof (ei_block _ _ _ _ _ _ (inv_entry I _ _ _ Hob)) as Hb. destruct Hb as (<- & _). done. }
    pose proof (ei_block _ _ _ _ _ _ (inv_entry I _ _ _ Hob)) as (_ & _ & _ & [(_ & Ho & _)|(((sb & k & Hs & _) & _) & _)]).
    + by rewrite <- Hin, Ho.
    + cbn in Hn. rewrite Hn, (genesis_entry I) in Hs. discriminate Hs.
  - assert (Hadm : admissible (Open ob)) by (apply (reachable_admissible gb n s R Hfuel (open_block_hash i)); [apply get_entry; eauto|done]).
    destruct Hadm as (Hok & _). rewrite <- Hac. destruct ob as [[src rep acc] sg w]. exact (proj1 (proj2 (proj2 Hok))).
Qed.

(** All frontiers are sent.  On a reachable ledger, unless the last number of
    256 bits is an account, the response to a request for frontiers of any age
    ends, and consists of the accounts from the start on, in order and with
    their heads, and a pair of zeros, which is no account. *)
Theorem frontiers_exact (r : frontier_req) (now : Z) (fuel : nat) :
  fits 256 genesis_account -> accounts s !! (2 ^ 256 - 1) = None ->
  fits 256 (fr_start r) -> fr_age r = any_age -> (size (accounts s) + 2 <= fuel)%nat ->
  exists f l, frontier_req_server_new fuel s now r = Ok f
  /\ frontier_session fuel s f = Ok (concat (write_frontier <$> l) ++ write_frontier (0, 0))
  /\ frontier_list (fr_start r) s l /\ forall a h, (a, h) ∈ l -> 0 < a.
Proof.
  intros Hg Hlast Hst Hage Hf.
  assert (Hfit : forall a i, accounts s !! a = Some i -> 0 < a < 2 ^ 256 - 1).
  { intros a i Ha. pose proof (accounts_fit a i Hg Ha). assert (a <> 2 ^ 256 - 1) by congruence. lia. }
  destruct (frontier_response_run Hfit fuel now r Hst Hage Hf) as (f & Hnew & Hrun).
  exists f, (heads_of (table_from (fr_start r) (accounts s))). pose proof (heads_of_list (fr_start r) s) as Hl.
  split_and!; [done|done|exact Hl|]. intros a h Hin. apply (proj2 Hl) in Hin as (_ & i & Ha & _). apply Hfit in Ha. lia.
Qed.

Lemma range_blocks_elem {g} (I : inv_with n g s) lo hi h b :
  b ∈ range_blocks s lo hi (blocks_info s) /\ hash b = h
  <-> block_get s h = Some b /\ lo <= h < hi /\ exists c, segment s h c 0 /\ Z.of_nat (length c) mod block_info_max = 0.
Proof.
  unfold range_blocks. rewrite list_elem_of_omap. split.
  - intros [(x & Hx & Hb) <-]. apply list_elem_of_fmap in Hx as ([y i] & -> & [Hlt (Hlo & Hi)%table_from_elem]%list_elem_of_filter).
    cbn in Hlt, Hlo, Hi, Hb. apply get_entry in Hb as (m & He). pose proof (ei_hash _ _ _ _ _ _ (inv_entry I _ _ _ He)) as ->.
    split_and!; [apply get_entry; eauto|lia|lia|]. destruct (segment_exists I y) as (c & Hc); [by eexists|]. exists c. split; [done|].
    rewrite (segment_height I y c) by (by eexists || done). pose proof (iv_info _ _ _ I y) as Hinfo. rewrite Hi in Hinfo.
    case_decide as Hd; [apply Hd|discriminate Hinfo].
  - intros (Hb & Hr & c & Hc & Hm). apply get_entry in Hb as (m & He). pose proof (ei_hash _ _ _ _ _ _ (inv_entry I _ _ _ He)) as Hh.
    split; [|exact Hh]. exists h. split; [|apply get_entry; eauto]. rewrite (segment_height I h c) in Hm by (by eexists || done).
    pose proof (iv_info _ _ _ I h) as Hinfo. rewrite decide_True in Hinfo by (split; [by eexists|exact Hm]).
    apply list_elem_of_fmap. eexists (h, _). split; [done|]. apply list_elem_of_filter. split; [cbn; lia|].
    apply table_from_elem. split; [lia|exact Hinfo].
Qed.

Lemma info_found {g} (I : inv_with n g s) x i : blocks_info s !! x = Some i -> is_Some (block_get s x).
Proof.
  intros Hi. pose proof (iv_info _ _ _ I x) as Hinfo. rewrite Hi in Hinfo. case_decide as Hd; [|discriminate Hinfo].
  destruct Hd as [([b m] & He) _]. exists b. apply get_entry. eauto.
Qed.

Lemma range_blocks_sorted {g} (I : inv_with n g s) lo hi :
  StronglySorted (fun x y => hash x < hash y) (range_blocks s lo hi (blocks_info s)).
Proof.
  unfold range_blocks. assert (Hs : StronglySorted key_lt (filter (fun x => fst x < hi) (table_from lo (blocks_info s))))
    by apply StronglySorted_filter, table_from_sorted.
  assert (Hh : forall x b, block_get s x = Some b -> hash b = x).
  { intros x b (m & Hb)%get_entry. exact (ei_hash _ _ _ _ _ _ (inv_entry I _ _ _ Hb)). }
  induction Hs as [|x l Hl IH Hx]; cbn; [constructor|]. destruct (block_get s (fst x)) as [b|] eqn:Hb; [|exact IH].
  constructor; [exact IH|]. apply Forall_forall. intros y (k & Hk & Hy)%list_elem_of_omap.
  apply list_elem_of_fmap in Hk as (z & -> & Hz). rewrite (Hh _ _ Hb), (Hh _ _ Hy). exact (proj1 (Forall_forall _ _) Hx z Hz).
Qed.

Lemma server_stands {g} (I : inv_with n g s) (r : bulk_pull_blocks) :
  fits 32 (max_count r) -> stands (s := s) (min_hash r) (bulk_pull_blocks_server_new s r).
Proof. intros Hc. split; [done|apply (info_found I)|]. left. cbn. unfold fits in Hc. lia. Qed.

(** A range of blocks is thinned out.  The response to a request for the
    blocks with a hash from one value up to another ends and lists, or sums up
    in a checksum, in the order of their hashes, not the blocks of the range but
    those of them whose position in their chain is a multiple of 32; when a count
    is given, so many of them. *)
Theorem range_pull_thinned (r : bulk_pull_blocks) (fuel : nat) :
  fits 32 (max_count r) -> (size (blocks_info s) + 1 <= fuel)%nat ->
  exists l, StronglySorted (fun x y => hash x < hash y) l
  /\ (forall h b, b ∈ l /\ hash b = h <->
     block_get s h = Some b /\ min_hash r <= h < max_hash r
     /\ exists c, segment s h c 0 /\ Z.of_nat (length c) mod block_info_max = 0)
  /\ (mode r = list_blocks ->
      blocks_session fuel s (bulk_pull_blocks_server_new s r)
      = Ok (concat (serialize_block <$> limit (max_count r) l) ++ no_block))
  /\ (mode r = checksum_blocks ->
      blocks_session fuel s (bulk_pull_blocks_server_new s r)
      = Ok (no_block ++ write_u256 (fold_left (fun c x => Z.lxor c (hash x)) (limit (max_count r) l) 0) ++ no_block)).
Proof.
  intros Hc Hf. destruct (reachable_inv _ _ _ R Hfuel) as (g & I).
  set (b := bulk_pull_blocks_server_new s r).
  exists (range_blocks s (min_hash r) (max_hash (bs_request b)) (blocks_info s)).
  pose proof (server_stands I r Hc) as Hst. fold b in Hst.
  assert (Hleft : left_of (s := s) (min_hash r) b
                  = limit (max_count r) (range_blocks s (min_hash r) (max_hash (bs_request b)) (blocks_info s))).
  { unfold left_of, limit. cbn. by rewrite Z.sub_0_r. }
  pose proof (table_from_length (min_hash r) (blocks_info s)) as Hlen.
  destruct (blocks_session_run fuel (min_hash r) b Hst) as [H1 H2]; [cbn; lia|]. rewrite Hleft in H1, H2.
  split_and!; [apply (range_blocks_sorted I)| |exact H1|exact H2]. intros h x. rewrite (range_blocks_elem I). cbn [b bulk_pull_blocks_server_new bs_request max_hash].
  destruct (Z.ltb_spec (max_hash r) (min_hash r)); [|done]. split; intros (_ & ? & _); lia.
Qed.
End Responses.
