(* ===== verification/BootstrapClient.v ===== *)
(** * Bootstrap clients (rai/node/bootstrap.cpp)

    What a node does that bootstraps from another one: [frontier_req_client]
    compares the frontiers of the other node with its own and makes a list of
    pulls, [bulk_pull_client] gets the blocks of a pull, and [bulk_push_client]
    sends the blocks the other node does not have, in an order found by
    [block_synchronization]; [bootstrap_attempt] keeps the list of pulls.

    What is read from the connection comes as a list of bytes, which may end
    before it is complete; the steps of a client take the tables as they are
    then.  What is handed to the block processor, the connections that are given
    back and the pulls asked from the peer of the frontiers are recorded. *)
From Stdlib Require Import ZArith Lia List.
From stdpp Require Import prelude gmap sorting.
From S2P Require Import Prelude Numbers Streams Blocks Store Ledger Votes Work Messages Unchecked Processor Elections BootstrapServer.

Local Open Scope m_scope.

(** ** State *)

Record pull_info := PullInfo {
  pull_account : account;
  pull_head : block_hash;
  pull_end : block_hash;
  pull_attempts : Z
}.

#[export] Instance pull_info_eq_dec : EqDecision pull_info.
Proof. solve_decision. Defined.

(** The two constructors. *)
Definition pull_info_new (a : account) (h e : block_hash) : pull_info := PullInfo a h e 0.

(** The tables of the node with [unsynced], the queue of the attempt, whether the
    connection the frontiers came from is still there, and what is done. *)
Record bootstrap_attempt := Attempt {
  ba_store : store;
  unsynced_table : gmap Z unit;
  pulls : list pull_info;
  connection_frontier_request : bool;
  pulling : Z;
  total_blocks : Z;
  ba_stopped : bool;
  added : list block_processor_item;
  pooled : nat;
  requested : list pull_info
}.

Definition set_unsynced (f : gmap Z unit -> gmap Z unit) (a : bootstrap_attempt) : bootstrap_attempt :=
  Attempt (ba_store a) (f (unsynced_table a)) (pulls a) (connection_frontier_request a) (pulling a) (total_blocks a)
    (ba_stopped a) (added a) (pooled a) (requested a).
Definition set_pulls (f : list pull_info -> list pull_info) (a : bootstrap_attempt) : bootstrap_attempt :=
  Attempt (ba_store a) (unsynced_table a) (f (pulls a)) (connection_frontier_request a) (pulling a) (total_blocks a)
    (ba_stopped a) (added a) (pooled a) (requested a).
Definition set_pulling (f : Z -> Z) (a : bootstrap_attempt) : bootstrap_attempt :=
  Attempt (ba_store a) (unsynced_table a) (pulls a) (connection_frontier_request a) (wrap 32 (f (pulling a))) (total_blocks a)
    (ba_stopped a) (added a) (pooled a) (requested a).
Definition add_block (b : block) (a : bootstrap_attempt) : bootstrap_attempt :=
  Attempt (ba_store a) (unsynced_table a) (pulls a) (connection_frontier_request a) (pulling a) (total_blocks a)
    (ba_stopped a) (added a ++ [Item b false]) (pooled a) (requested a).
Definition count_block (a : bootstrap_attempt) : bootstrap_attempt :=
  Attempt (ba_store a) (unsynced_table a) (pulls a) (connection_frontier_request a) (pulling a) (wrap 64 (total_blocks a + 1))
    (ba_stopped a) (added a) (pooled a) (requested a).
Definition pool_connection (a : bootstrap_attempt) : bootstrap_attempt :=
  Attempt (ba_store a) (unsynced_table a) (pulls a) (connection_frontier_request a) (pulling a) (total_blocks a)
    (ba_stopped a) (added a) (S (pooled a)) (requested a).
Definition request_directly (p : pull_info) (a : bootstrap_attempt) : bootstrap_attempt :=
  Attempt (ba_store a) (unsynced_table a) (pulls a) (connection_frontier_request a) (wrap 32 (pulling a + 1)) (total_blocks a)
    (ba_stopped a) (added a) (pooled a) (requested a ++ [p]).

(** ** The table of blocks the other node may not have *)

Definition unsynced_put (h : block_hash) : M bootstrap_attempt unit := st_put (set_unsynced (insert h tt)).
Definition unsynced_del (h : block_hash) : M bootstrap_attempt unit :=
  there <- st_get (fun a => bool_decide (is_Some (unsynced_table a !! h)));;
  st_assert there ;;;
  st_put (set_unsynced (delete h)).
Definition unsynced_exists (h : block_hash) (a : bootstrap_attempt) : bool :=
  match first_from h (unsynced_table a) with Some (x, _) => x =? h | None => false end.
Definition unsynced_begin (a : bootstrap_attempt) : option (Z * unit) := first_from 0 (unsynced_table a).

(** ** The attempt *)

Definition landing : account := 0x059F68AAB29DE0D3A27443625C7EA9CDDB6517A8B76FE37727EF6A4D76832AD5.
Definition faucet : account := 0x8E319CE6F3025E5B2DF66DA7AB1467FE48F1679C13DD43BFDB29FA2E9FC40D3B.
Definition account_1 : account := 0x6B31E80CABDD2FEE6F54A7BDBF91B666010418F4438EF0B48168F93CD79DBC85.
Definition account_2 : account := 0xFD6EE9E0E107A6A8584DB94A3F154799DD5C2A7D6ABED0889DA3B837B0E61663.

Section Attempts.
Context `{Environment}.

Definition add_pull (p : pull_info) : M bootstrap_attempt unit :=
  let a := pull_account p in
  if negb (a =? genesis_account) && negb (a =? landing) && negb (a =? faucet) && negb (a =? account_1) && negb (a =? account_2)
  then st_put (set_pulls (fun l => l ++ [p]))
  else st_put (set_pulls (cons p)).

Definition requeue_pull (p : pull_info) : M bootstrap_attempt unit :=
  let attempts := wrap 32 (pull_attempts p + 1) in
  let p := PullInfo (pull_account p) (pull_head p) (pull_end p) attempts in
  if attempts <? 4 then st_put (set_pulls (cons p))
  else if attempts =? 4 then
    let p := PullInfo (pull_account p) (pull_head p) (pull_end p) (attempts + 1) in
    alive <- st_get connection_frontier_request;;
    if alive : bool then st_put (request_directly p) else st_ret tt
  else st_ret tt.

Definition still_pulling (a : bootstrap_attempt) : bool :=
  negb (ba_stopped a) && (negb (match pulls a with [] => true | _ => false end) || (0 <? pulling a)).

(** The pull a free connection is given; the client counts as pulling. *)
Definition request_pull (connection : bool) : M bootstrap_attempt (option pull_info) :=
  if connection then
    next <- st_get pulls;;
    match next with
    | [] => st_fault Indeterminate_value (* the front of an empty queue *)
    | p :: _ => st_put (set_pulls (fun l => tail l)) ;;; st_put (set_pulling (fun n => n + 1)) ;;; st_ret (Some p)
    end
  else st_ret None.

(** The shuffle of [bootstrap_attempt::run]; [k i] is the number drawn for [i]. *)
Definition swap {A} (i k : nat) (l : list A) : list A :=
  match l !! i, l !! k with
  | Some x, Some y => <[k := x]> (<[i := y]> l)
  | _, _ => l
  end.

Fixpoint shuffle_pulls (k : nat -> nat) (i : nat) (l : list pull_info) : list pull_info :=
  match i with
  | O => l
  | S j => shuffle_pulls k j (swap i (k i) l)
  end.

(** ** Comparing frontiers *)

Record frontier_req_client := FrontierClient { fc_current : account; fc_info : account_info; fc_count : Z }.

Definition client_next (c : frontier_req_client) : M bootstrap_attempt frontier_req_client :=
  first <- st_get (fun a => latest_begin (wrap 256 (fc_current c + 1)) (ba_store a));;
  match first with
  | Some (x, i) => st_ret (FrontierClient x i (fc_count c))
  | None => st_ret (FrontierClient 0 (fc_info c) (fc_count c))
  end.

(** The constructor. *)
Definition frontier_req_client_new : M bootstrap_attempt frontier_req_client :=
  client_next (FrontierClient 0 account_info_default 0).

(** The request of [run]. *)
Definition frontier_request : frontier_req := FrontierReq (message_new mt_frontier_req) 0 (2 ^ 32 - 1) (2 ^ 32 - 1).

Fixpoint unsynced (fuel : nat) (current theirs : block_hash) : M bootstrap_attempt unit :=
  match fuel with
  | O => st_fault Out_of_fuel
  | S fuel =>
      if negb (is_zero current) && negb (current =? theirs) then
        unsynced_put current ;;;
        b <- st_get (fun a => block_get (ba_store a) current);;
        match b with
        | None => st_fault Indeterminate_value (* dereferences a null pointer *)
        | Some b => unsynced fuel (previous b) theirs
        end
      else st_ret tt
  end.

Context (wallets : list wallet).

(** [wallets::exists] *)
Definition wallets_exists (a : account) : bool :=
  existsb (fun w => bool_decide (a ∈ fst <$> wallet_keys w)) wallets.

(** An account of ours the other node does not have. *)
Definition unknown_to_them (c : frontier_req_client) : M bootstrap_attempt unit :=
  if wallets_exists (fc_current c) then unsynced loop_fuel (head (fc_info c)) 0 else st_ret tt.

(** Our accounts before [account]; all that are left, when there is none. *)
Fixpoint pass_accounts (fuel : nat) (account_a : option account) (c : frontier_req_client) : M bootstrap_attempt frontier_req_client :=
  match fuel with
  | O => st_fault Out_of_fuel
  | S fuel =>
      if negb (is_zero (fc_current c)) && match account_a with Some a => fc_current c <? a | None => true end then
        unknown_to_them c ;;;
        c <- client_next c;;
        pass_accounts fuel account_a c
      else st_ret c
  end.

(** A frontier has come in.  [None] is the end of the client. *)
Definition received_frontier (account_a : account) (latest_a : block_hash) (c : frontier_req_client) :
    M bootstrap_attempt (option frontier_req_client) :=
  let c := FrontierClient (fc_current c) (fc_info c) (wrap 32 (fc_count c + 1)) in
  if negb (is_zero account_a) then
    c <- pass_accounts loop_fuel (Some account_a) c;;
    c <- (if negb (is_zero (fc_current c)) then
            if account_a =? fc_current c then
              (if latest_a =? head (fc_info c) then st_ret tt
               else
                 known <- st_get (fun a => block_exists (ba_store a) latest_a);;
                 if known : bool then
                   (if wallets_exists (fc_current c) then unsynced loop_fuel (head (fc_info c)) latest_a else st_ret tt)
                 else add_pull (pull_info_new account_a latest_a (head (fc_info c)))) ;;;
              client_next c
            else
              st_assert (account_a <? fc_current c) ;;;
              add_pull (pull_info_new account_a latest_a 0) ;;;
              st_ret c
          else add_pull (pull_info_new account_a latest_a 0) ;;; st_ret c);;
    st_ret (Some c)
  else
    pass_accounts loop_fuel None c ;;;
    st_put pool_connection ;;;
    st_ret None.

(** Everything that comes in on the connection. *)
Fixpoint receive_frontiers (fuel : nat) (c : frontier_req_client) (s : list byte) : M bootstrap_attempt bool :=
  match fuel with
  | O => st_fault Out_of_fuel
  | S fuel =>
      match (rd_bind read_u256 (fun a => rd_bind read_u256 (fun l => rd_ret (a, l)))) s with
      | Got (a, l) rest =>
          c <- received_frontier a l c;;
          match c with
          | Some c => receive_frontiers fuel c rest
          | None => st_ret false
          end
      | Short => st_ret true
      | Rd_fault f => st_fault f
      end
  end.
End Attempts.

(** ** Pulling blocks *)

Record bulk_pull_client := PullClient { pc_pull : pull_info; expected : block_hash; pc_blocks : nat }.

(** [request]: what is sent, and the client that waits for the response. *)
Definition pull_request (p : pull_info) : bulk_pull * bulk_pull_client :=
  (BulkPull (message_new mt_bulk_pull) (pull_account p) (pull_end p), PullClient p (pull_head p) 0).

(** How many bytes are read after the byte of the type; a version-2 send is read
    as if it were a send. *)
Definition block_size (type_a : Z) : option nat :=
  match block_type_of_code type_a with
  | Some send | Some send_v2 => Some send_block_size
  | Some receive => Some receive_block_size
  | Some open => Some open_block_size
  | Some change => Some change_block_size
  | _ => None
  end.

Section Pulling.
(** Whether the connection was told to stop, as of the number of blocks received. *)
Context (pending_stop hard_stop : nat -> bool).

(** A block is handed to the block processor twice. *)
Definition received_block (b : block) (c : bulk_pull_client) : M bootstrap_attempt bulk_pull_client :=
  let c := if hash b =? expected c then PullClient (pc_pull c) (previous b) (pc_blocks c) else c in
  st_put (add_block b) ;;;
  st_put count_block ;;;
  st_put (add_block b) ;;;
  st_ret (PullClient (pc_pull c) (expected c) (S (pc_blocks c))).

Fixpoint receive_blocks (fuel : nat) (c : bulk_pull_client) (s : list byte) : M bootstrap_attempt bulk_pull_client :=
  match fuel with
  | O => st_fault Out_of_fuel
  | S fuel =>
      match read_le 1 s with
      | Got type_a rest =>
          match block_size type_a with
          | Some n =>
              match read n rest with
              | Got bytes rest =>
                  match deserialize_block (le_split 1 type_a ++ bytes) with
                  | Got b _ =>
                      c <- received_block b c;;
                      if negb (hard_stop (pc_blocks c)) then receive_blocks fuel c rest else st_ret c
                  | Short => st_ret c
                  | Rd_fault f => st_fault f
                  end
              | Short => st_ret c
              | Rd_fault f => st_fault f
              end
          | None =>
              if (type_a =? block_type_code not_a_block) && negb (pending_stop (pc_blocks c)) && (expected c =? pull_end (pc_pull c))
              then st_put pool_connection ;;; st_ret c
              else st_ret c
          end
      | Short => st_ret c
      | Rd_fault f => st_fault f
      end
  end.

(** The destructor. *)
Definition pull_client_end (c : bulk_pull_client) : M bootstrap_attempt unit :=
  st_put (set_pulling (fun n => n - 1)) ;;;
  if negb (expected c =? pull_end (pc_pull c))
  then requeue_pull (pull_info_new (pull_account (pc_pull c)) (expected c) (pull_end (pc_pull c)))
  else st_ret tt.

(** The life of a client whose connection yields [s]. *)
Definition pull_client_run (fuel : nat) (p : pull_info) (s : list byte) : M bootstrap_attempt unit :=
  c <- receive_blocks fuel (snd (pull_request p)) s;;
  pull_client_end c.
End Pulling.

(** ** Finding an order *)

Inductive sync_result := Sync_success | Sync_error | Sync_fork.

(** What [block_synchronization] leaves to the classes derived from it. *)
Class Synchronization (S : Type) := {
  synchronized : block_hash -> M S bool;
  retrieve : block_hash -> S -> option block;
  target : block -> M S sync_result
}.

Section Synchronization.
Context {S : Type} `{Synchronization S}.

(** [blocks], its back first, with the state of the derived class. *)
Abbreviation stack := (list block_hash).

(** [add_dependency] of the visitor: whether the list of dependencies is still
    complete, and [blocks]. *)
Definition add_dependency_of (h : block_hash) (complete : bool) (blocks : stack) : M S (bool * stack) :=
  done <- synchronized h;;
  found <- st_get (fun s => bool_decide (is_Some (retrieve h s)));;
  if negb done && found then st_ret (false, h :: blocks) else st_ret (complete, blocks).

Definition add_dependency (b : block) (blocks : stack) : M S (bool * stack) :=
  match b with
  | Send _ | SendV2 _ | Change _ => add_dependency_of (previous b) true blocks
  | Receive r =>
      x <- add_dependency_of (rh_previous (receive_h r)) true blocks;;
      if fst x : bool then add_dependency_of (rh_source (receive_h r)) true (snd x) else st_ret x
  | Open o => add_dependency_of (oh_source (open_h o)) true blocks
  end.

Fixpoint fill_dependencies (fuel : nat) (blocks : stack) : M S stack :=
  match fuel with
  | O => st_fault Out_of_fuel
  | Datatypes.S fuel =>
      match blocks with
      | [] => st_fault Indeterminate_value (* the back of an empty queue *)
      | h :: _ =>
          b <- st_get (retrieve h);;
          match b with
          | None => st_ret blocks
          | Some b =>
              x <- add_dependency b blocks;;
              if fst x : bool then st_ret (snd x) else fill_dependencies fuel (snd x)
          end
      end
  end.

Definition synchronize_one (fuel : nat) (blocks : stack) : M S (sync_result * stack) :=
  blocks <- fill_dependencies fuel blocks;;
  match blocks with
  | [] => st_fault Indeterminate_value
  | h :: blocks =>
      b <- st_get (retrieve h);;
      match b with
      | Some b => r <- target b;; st_ret (r, blocks)
      | None => st_ret (Sync_success, blocks)
      end
  end.
End Synchronization.

(** ** Pushing blocks *)

(** A [bulk_push_client]: the attempt, and the blocks written to the connection. *)
Record bulk_push_client := PushClient { pu_attempt : bootstrap_attempt; pushed : list block }.

Definition on_attempt {A} (m : M bootstrap_attempt A) : M bulk_push_client A := fun p =>
  match m (pu_attempt p) with
  | Ok (x, a) => Ok (x, PushClient a (pushed p))
  | Fault f => Fault f
  end.

Definition push_block (b : block) : M bulk_push_client unit := fun p => Ok (tt, PushClient (pu_attempt p) (pushed p ++ [b])).

(** [push_synchronization] with the target of [bulk_push_client]. *)
Definition push_synchronized (h : block_hash) : M bulk_push_client bool :=
  waits <- st_get (fun p => unsynced_exists h (pu_attempt p));;
  (if waits : bool then on_attempt (unsynced_del h) else st_ret tt) ;;;
  st_ret (negb waits).
Definition push_retrieve (h : block_hash) (p : bulk_push_client) : option block := block_get (ba_store (pu_attempt p)) h.
Definition push_target (b : block) : M bulk_push_client sync_result := push_block b ;;; st_ret Sync_success.

#[export] Instance push_synchronization : Synchronization bulk_push_client := {|
  synchronized := push_synchronized;
  retrieve := push_retrieve;
  target := push_target
|}.

(** What comes next: a block was written and the client goes on when that is
    done, or nothing was, or the end was written. *)
Inductive push_state := Writing | Stalled | Finished.

(** Whether [synchronize_one] has written a block. *)
Definition push_one (fuel : nat) (blocks : list block_hash) : M bulk_push_client (push_state * list block_hash) :=
  before <- st_get (fun p => length (pushed p));;
  r <- synchronize_one fuel blocks;;
  after <- st_get (fun p => length (pushed p));;
  st_ret (if (before <? after)%nat then Writing else Stalled, snd r).

Definition push (fuel : nat) (blocks : list block_hash) : M bulk_push_client (push_state * list block_hash) :=
  first <- st_get (fun p => unsynced_begin (pu_attempt p));;
  match first with
  | Some (h, _) =>
      if negb (is_zero h) then
        on_attempt (unsynced_del h) ;;;
        push_one fuel (h :: blocks)
      else st_ret (Finished, blocks)
  | None => st_ret (Finished, blocks)
  end.

(** The client from the start on, or when [blocks] are left, as long as every
    write succeeds. *)
Fixpoint push_run (fuel : nat) (blocks : list block_hash) : M bulk_push_client push_state :=
  match fuel with
  | O => st_fault Out_of_fuel
  | S fuel' =>
      r <- (match blocks with [] => push fuel blocks | _ => push_one fuel blocks end);;
      match fst r with
      | Writing => push_run fuel' (snd r)
      | other => st_ret other
      end
  end.
