(* ===== verification/BootstrapSync.v ===== *)
(** * Synchronizing with another node

    What a client makes of the frontiers of another node, what it gets from a
    pull, and what a push sends. *)
From Stdlib Require Import ZArith Lia List Sorted Permutation.
From stdpp Require Import prelude gmap sorting.
From S2P Require Import Prelude Lists Numbers Streams Blocks Store Ledger StoreFacts LedgerInv LedgerQueries LedgerExtend LedgerShrink LedgerProcess LedgerRollback LedgerUndo LedgerUnique LedgerTheorems LedgerSub Votes Work Messages Unchecked Processor Elections BootstrapServer BootstrapTheorems BootstrapClient.

Lemma unsynced_exists_true x a : unsynced_exists x a = true <-> is_Some (unsynced_table a !! x).
Proof. apply first_from_found. Qed.

(** ** Effects of a client *)

(** From [top] down to [x] without meeting [theirs]. *)
Definition walks (s : store) (top theirs x : block_hash) : Prop :=
  exists c, segment s top c x /\ x <> 0 /\ theirs ∉ x :: (hash <$> c).

(** The node is as before, but for new pulls [P] and blocks [U] to be pushed. *)
Record effects (U : Z -> Prop) (P : list pull_info) (a a' : bootstrap_attempt) : Prop := {
  ef_store : ba_store a' = ba_store a;
  ef_unsynced : forall x, is_Some (unsynced_table a' !! x) <-> is_Some (unsynced_table a !! x) \/ U x;
  ef_pulls : pulls a' ≡ₚ P ++ pulls a;
  ef_added : added a' = added a;
  ef_requested : requested a' = requested a;
  ef_pulling : pulling a' = pulling a;
  ef_stopped : ba_stopped a' = ba_stopped a
}.

Lemma effects_none a : effects (fun _ => False) [] a a.
Proof. split; try done. intros x. tauto. Qed.

Lemma effects_trans U P V Q a b c : effects U P a b -> effects V Q b c -> effects (fun x => U x \/ V x) (Q ++ P) a c.
Proof.
  intros [S1 U1 P1 A1 R1 N1 T1] [S2 U2 P2 A2 R2 N2 T2]. split; [congruence| | |congruence..].
  - intros x. rewrite U2, U1. tauto.
  - eapply Permutation_trans; [exact P2|]. rewrite <- app_assoc. by apply Permutation_app_head.
Qed.

Lemma effects_weaken U V P Q a b : effects U P a b -> (forall x, U x <-> V x) -> P ≡ₚ Q -> effects V Q a b.
Proof.
  intros [S1 U1 P1 A1 R1 N1 T1] Hu Hp. split; [done| | |done..].
  - intros x. by rewrite U1, Hu.
  - eapply Permutation_trans; [exact P1|]. by apply Permutation_app_tail.
Qed.

Section Frontiers.
Context `{Environment} {n : nat} {g : ghost} {s : store} (I : inv_with n g s).
Context (Hfuel : (query_fuel n <= loop_fuel)%nat).
Implicit Types (a : bootstrap_attempt) (c : frontier_req_client).

Lemma walks_step top b m theirs x :
  entry_at s top = Some (b, m) -> top <> theirs -> walks s top theirs x <-> x = top \/ walks s (previous b) theirs x.
Proof.
  intros He Hne. pose proof (ei_hash _ _ _ _ _ _ (inv_entry I _ _ _ He)) as Hh. split.
  - intros ([|b' c] & Hs & Hx & Ht); cbn [segment] in Hs; [by left|right]. destruct Hs as [Hb Hs].
    rewrite (entry_get _ _ _ He) in Hb. injection Hb as <-. exists c. split_and!; [done|done|].
    cbn in Ht. rewrite !not_elem_of_cons in Ht. rewrite not_elem_of_cons. tauto.
  - assert (Hz : top <> 0) by (intros ->; rewrite (zero_entry I) in He; discriminate He).
    intros [->|(c & Hs & Hx & Ht)].
    + exists []. split_and!; [done|done|]. cbn. rewrite list_elem_of_singleton. congruence.
    + exists (b :: c). split_and!; [split; [exact (entry_get _ _ _ He)|exact Hs]|done|]. cbn.
      rewrite Hh. rewrite !not_elem_of_cons in *. destruct Ht as [H1 H2]. split_and!; [done|congruence|done].
Qed.

Lemma walks_done top theirs x : top = 0 \/ top = theirs /\ is_Some (entry_at s top) -> ~ walks s top theirs x.
Proof.
  intros Ht (c & Hs & Hx & Hn). rewrite not_elem_of_cons in Hn. destruct Hn as [Hn1 Hn2]. destruct c as [|b c]; cbn in Hs.
  - destruct Ht as [->|[-> _]]; done.
  - destruct Hs as [Hb _]. apply get_entry in Hb as (m & Hb). destruct Ht as [->|[-> _]].
    + rewrite (zero_entry I) in Hb. discriminate Hb.
    + apply Hn2. cbn. rewrite (ei_hash _ _ _ _ _ _ (inv_entry I _ _ _ Hb)). by left.
Qed.

Lemma unsynced_run fuel a top theirs :
  ba_store a = s -> (top <> 0 -> is_Some (entry_at s top) /\ (grank g top + 2 <= fuel)%nat) -> (1 <= fuel)%nat ->
  exists a', unsynced fuel top theirs a = Ok (tt, a') /\ effects (walks s top theirs) [] a a'.
Proof.
  revert a top. induction fuel as [|fuel IH]; intros a top Ha Htop Hf; [lia|]. cbn [unsynced].
  unfold is_zero. destruct (Z.eqb_spec top 0) as [->|Hz]; cbn [negb andb].
  { exists a. split; [done|]. eapply effects_weaken; [apply effects_none| |done]. intros x. split; [done|].
    intros Hw. destruct (walks_done 0 theirs x); [by left|done]. }
  destruct (Htop Hz) as [[[b m] He] Hr]. destruct (Z.eqb_spec top theirs) as [->|Hne]; cbn [negb].
  { exists a. split; [done|]. eapply effects_weaken; [apply effects_none| |done]. intros x. split; [done|].
    intros Hw. destruct (walks_done theirs theirs x); [right; split; [done|by eexists]|done]. }
  erewrite st_bind_ok by reflexivity. erewrite st_bind_ok by reflexivity. cbn [ba_store set_unsynced]. rewrite Ha, (entry_get _ _ _ He).
  set (a1 := set_unsynced (insert top ()) a).
  assert (E1 : effects (fun x => x = top) [] a a1).
  { split; try done. intros x. cbn. rewrite lookup_insert. case_decide; [|naive_solver]. split; [by right|by eexists]. }
  destruct (IH a1 (previous b)) as (a' & -> & E2); [exact Ha| |lia|].
  - intros Hp. destruct (is_open b) eqn:Ho; [by rewrite (open_previous b Ho) in Hp|].
    destruct (inv_previous I _ _ _ He Ho) as ((pb & Hpb) & _ & _ & Hrk). split; [by eexists|lia].
  - exists a'. split; [done|]. eapply effects_weaken; [exact (effects_trans _ _ _ _ _ _ _ E1 E2)| |done].
    intros x. by rewrite (walks_step top b m theirs x He Hne).
Qed.

(** *** Walking our accounts *)

Context (Hfit : forall y i, accounts s !! y = Some i -> 0 < y < 2 ^ 256 - 1).
Context (wallets : list wallet).

(** The client stands at the first of our accounts from [k] on. *)
Definition stands_at (k : Z) c : Prop :=
  match table_from k (accounts s) with
  | [] => fc_current c = 0
  | (x, i) :: _ => fc_current c = x /\ fc_info c = i
  end.

Lemma table_skip k b : k <= b -> (forall y i, accounts s !! y = Some i -> k <= y -> b <= y) ->
  table_from b (accounts s) = table_from k (accounts s).
Proof.
  intros Hkb Hno. unfold table_from. apply filter_ext_in. intros [y i] Hy. cbn [fst]. split; [lia|].
  intros Hk. assert (Hin : (y, i) ∈ table_from k (accounts s)) by (apply list_elem_of_filter; done).
  apply table_from_elem in Hin as [_ Ha]. by eapply Hno.
Qed.

Lemma client_next_run a c :
  ba_store a = s -> 0 <= fc_current c < 2 ^ 256 - 1 ->
  exists c', client_next c a = Ok (c', a) /\ stands_at (fc_current c + 1) c' /\ fc_count c' = fc_count c.
Proof.
  intros Ha Hc. unfold client_next, latest_begin. erewrite st_bind_ok by reflexivity. rewrite Ha, wrap_small by (unfold fits; lia).
  pose proof (first_from_table (fc_current c + 1) (accounts s)) as Ht. unfold stands_at.
  destruct (first_from _ _) as [[x i]|]; [destruct Ht as (-> & _)|rewrite Ht]; (eexists; split; [reflexivity|]; done).
Qed.

(** Blocks of accounts in our wallets, from [k] up to [b]. *)
Definition ours_between (k : Z) (b : option Z) (x : Z) : Prop :=
  exists y i, k <= y /\ match b with Some b => y < b | None => True end
  /\ accounts s !! y = Some i /\ wallets_exists wallets y = true /\ walks s (head i) 0 x.

Lemma head_rank y i : accounts s !! y = Some i -> head i <> 0 -> is_Some (entry_at s (head i)) /\ (grank g (head i) + 2 <= loop_fuel)%nat.
Proof.
  intros Hy _. pose proof (inv_head I _ _ Hy) as [_ (hb & Hh) _ _ _ _ _]. split; [by eexists|].
  pose proof (entry_rank I _ _ _ Hh). unfold query_fuel in Hfuel. lia.
Qed.

Lemma unsynced_account a y i theirs :
  ba_store a = s -> accounts s !! y = Some i ->
  exists a', (if wallets_exists wallets y then unsynced loop_fuel (head i) theirs else st_ret tt) a = Ok (tt, a')
  /\ effects (fun x => wallets_exists wallets y = true /\ walks s (head i) theirs x) [] a a'.
Proof.
  intros Ha Hy. destruct (wallets_exists wallets y) eqn:Hw.
  - destruct (unsynced_run loop_fuel a (head i) theirs Ha) as (a' & -> & E); [exact (head_rank y i Hy)|unfold query_fuel in Hfuel; lia|].
    exists a'. split; [done|]. eapply effects_weaken; [exact E| |done]. intros x. tauto.
  - exists a. split; [done|]. eapply effects_weaken; [apply effects_none| |done]. intros x. split; [done|]. intros [? _]. done.
Qed.

Lemma pass_accounts_run fuel a c k b :
  ba_store a = s -> 0 <= k -> stands_at k c -> match b with Some b => k <= b | None => True end ->
  (length (table_from k (accounts s)) + 1 <= fuel)%nat ->
  exists c' a', pass_accounts wallets fuel b c a = Ok (c', a') /\ effects (ours_between k b) [] a a'
  /\ match b with Some b => stands_at b c' | None => True end.
Proof.
  revert a c k. induction fuel as [|fuel IH]; intros a c k Ha Hk Hc Hb Hf; [lia|]. cbn [pass_accounts].
  pose proof Hc as Hst. unfold stands_at in Hst. pose proof (first_from_table k (accounts s)) as Ht. unfold first_from in Ht.
  destruct (table_from k (accounts s)) as [|[x i] rest] eqn:Hl.
  - rewrite Hst. cbn. exists c, a. assert (Hnone : forall y i, accounts s !! y = Some i -> k <= y -> False).
    { intros y i Hy Hle. assert (Hin : (y, i) ∈ table_from k (accounts s)) by (by apply table_from_elem). rewrite Hl in Hin.
      by apply not_elem_of_nil in Hin. }
    split_and!; [done| |].
    + eapply effects_weaken; [apply effects_none| |done]. intros z. split; [done|]. intros (y & j & Hy & _ & Hj & _). eauto.
    + destruct b as [b|]; [|done]. unfold stands_at. rewrite (table_skip k b Hb), Hl; [done|]. intros y j Hj Hle. destruct (Hnone y j Hj Hle).
  - destruct Hst as [Hcx Hci]. destruct Ht as (Ht & Hkx & Hx). pose proof (Hfit _ _ Hx) as Hfx. rewrite Hcx.
    rewrite (is_zero_ne x) by lia. cbn [negb andb].
    assert (Hrest : rest = table_from (x + 1) (accounts s)) by congruence.
    assert (Hnext : forall y j, accounts s !! y = Some j -> k <= y -> y = x \/ x + 1 <= y).
    { intros y j Hj Hle. assert (Hin : (y, j) ∈ table_from k (accounts s)) by (by apply table_from_elem). rewrite Hl in Hin.
      apply elem_of_cons in Hin as [[= -> ->]|Hin]; [by left|]. right. rewrite Hrest in Hin. apply table_from_elem in Hin. lia. }
    destruct (match b with Some b0 => x <? b0 | None => true end) eqn:Hpass.
    + destruct (unsynced_account a x i 0 Ha Hx) as (a1 & Hun & E1). unfold unknown_to_them. rewrite Hcx, Hci.
      erewrite st_bind_ok by exact Hun. pose proof (ef_store _ _ _ _ E1) as Hs1. rewrite Ha in Hs1.
      destruct (client_next_run a1 c Hs1 ltac:(lia)) as (c1 & Hn & Hc1 & _). erewrite st_bind_ok by exact Hn. rewrite Hcx in Hc1.
      destruct (IH a1 c1 (x + 1) Hs1 ltac:(lia) Hc1) as (c' & a' & -> & E2 & Hp).
      { destruct b as [b|]; [|done]. apply Z.ltb_lt in Hpass. lia. }
      { rewrite <- Hrest. cbn in Hf. lia. }
      exists c', a'. split_and!; [done| |done]. eapply effects_weaken; [exact (effects_trans _ _ _ _ _ _ _ E1 E2)| |done].
      intros z. unfold ours_between. split.
      * intros [[Hw Hz]|(y & j & Hy & Hyb & Hrest')]; [exists x, i|exists y, j]; split_and!; try done; [|lia|tauto..].
        destruct b as [b|]; [by apply Z.ltb_lt|done].
      * intros (y & j & Hy & Hyb & Hj & Hw & Hz). destruct (Hnext y j Hj Hy) as [->|Hgt]; [left|right; exists y, j; auto].
        rewrite Hx in Hj. injection Hj as <-. auto.
    + destruct b as [b|]; [|discriminate Hpass]. apply Z.ltb_ge in Hpass. exists c, a.
      assert (Hge : forall y j, accounts s !! y = Some j -> k <= y -> b <= y).
      { intros y j Hj Hle. destruct (Hnext y j Hj Hle); lia. }
      split_and!; [done| |].
      * eapply effects_weaken; [apply effects_none| |done]. intros z. split; [done|]. intros (y & j & Hy & Hyb & Hj & _).
        specialize (Hge y j Hj Hy). lia.
      * unfold stands_at. rewrite (table_skip k b Hb Hge), Hl. done.
Qed.

(** *** One frontier *)

(** The pull that a frontier of the other node calls for. *)
Definition needed_pull (f : account * block_hash) : list pull_info :=
  match accounts s !! fst f with
  | None => [pull_info_new (fst f) (snd f) 0]
  | Some i => if (snd f =? head i) || block_exists s (snd f) then [] else [pull_info_new (fst f) (snd f) (head i)]
  end.

(** What the other node lacks of an account it knows. *)
Definition ours_above (f : account * block_hash) (x : Z) : Prop :=
  exists i, accounts s !! fst f = Some i /\ snd f <> head i /\ block_exists s (snd f) = true
  /\ wallets_exists wallets (fst f) = true /\ walks s (head i) (snd f) x.

Lemma add_pull_run a p : exists a', add_pull p a = Ok (tt, a') /\ effects (fun _ => False) [p] a a'.
Proof.
  unfold add_pull. destruct (_ && _); (eexists; split; [reflexivity|]; split; cbn; try done; try (intros x; tauto)).
  apply Permutation_app_comm.
Qed.

Context (Hacc : (size (accounts s) + 2 <= loop_fuel)%nat).

Lemma no_account_at b : (forall i, accounts s !! b = Some i -> False) -> table_from (b + 1) (accounts s) = table_from b (accounts s).
Proof.
  intros Hb. apply table_skip; [lia|]. intros y i Hy Hle. assert (y <> b) by (intros ->; eauto). lia.
Qed.

Lemma received_frontier_run a c k f :
  ba_store a = s -> 0 <= k <= fst f -> fst f <> 0 -> stands_at k c ->
  exists c' a', received_frontier wallets (fst f) (snd f) c a = Ok (Some c', a')
  /\ effects (fun x => ours_between k (Some (fst f)) x \/ ours_above f x) (needed_pull f) a a' /\ stands_at (fst f + 1) c'.
Proof.
  intros Ha Hk Hz Hc. destruct f as [y h]. cbn [fst snd] in *. unfold received_frontier. rewrite (is_zero_ne y Hz). cbn [negb].
  pose proof (table_from_length k (accounts s)) as Hlen.
  destruct (pass_accounts_run loop_fuel a (FrontierClient (fc_current c) (fc_info c) (wrap 32 (fc_count c + 1))) k (Some y) Ha
    ltac:(cbn; lia) Hc ltac:(cbn; lia) ltac:(cbn; lia)) as (c1 & a1 & Hp & E1 & Hc1).
  erewrite st_bind_ok by exact Hp. pose proof (ef_store _ _ _ _ E1) as Hs1. rewrite Ha in Hs1.
  assert (Hmiss : forall c', accounts s !! y = None -> stands_at y c' -> stands_at (y + 1) c').
  { intros c' Hno. unfold stands_at. rewrite no_account_at; [done|]. intros i Hi. congruence. }
  assert (Hnew : accounts s !! y = None -> exists a',
    (add_pull (pull_info_new y h 0) ;;; st_ret c1)%m a1 = Ok (c1, a')
    /\ effects (fun x => ours_between k (Some y) x \/ ours_above (y, h) x) (needed_pull (y, h)) a a').
  { intros Hno. destruct (add_pull_run a1 (pull_info_new y h 0)) as (a2 & Hadd & E2). exists a2.
    split; [by erewrite st_bind_ok by exact Hadd|]. eapply effects_weaken; [exact (effects_trans _ _ _ _ _ _ _ E1 E2)| |].
    - intros x. split; [intros [?|[]]; by left|intros [?|(i & Hi & _)]; [by left|cbn in Hi; congruence]].
    - unfold needed_pull. cbn [fst snd]. by rewrite Hno. }
  pose proof Hc1 as Hst. unfold stands_at in Hst. pose proof (first_from_table y (accounts s)) as Ht. unfold first_from in Ht.
  destruct (table_from y (accounts s)) as [|[x i] rest] eqn:Hl.
  - assert (Hno : accounts s !! y = None).
    { destruct (accounts s !! y) as [j|] eqn:Hj; [|done]. assert (Hin : (y, j) ∈ table_from y (accounts s)) by (apply table_from_elem; split; [lia|done]).
      rewrite Hl in Hin. by apply not_elem_of_nil in Hin. }
    rewrite Hst. destruct (Hnew Hno) as (a2 & Hadd & E). cbn [is_zero]. change (is_zero 0) with true. cbn [negb].
    erewrite st_bind_ok by exact Hadd. exists c1, a2. split_and!; [done|exact E|by apply Hmiss].
  - destruct Hst as [Hcx Hci]. destruct Ht as (_ & Hyx & Hx). pose proof (Hfit _ _ Hx) as Hfx. rewrite Hcx, Hci.
    rewrite (is_zero_ne x) by lia. cbn [negb]. destruct (Z.eqb_spec y x) as [<-|Hne].
    + assert (Hstep : exists a2, (if h =? head i then st_ret tt else
          known <- st_get (fun a => block_exists (ba_store a) h);;
          if known : bool then (if wallets_exists wallets y then unsynced loop_fuel (head i) h else st_ret tt)
          else add_pull (pull_info_new y h (head i)))%m a1 = Ok (tt, a2)
        /\ effects (ours_above (y, h)) (needed_pull (y, h)) a1 a2).
      { unfold needed_pull. cbn [fst snd]. rewrite Hx. destruct (Z.eqb_spec h (head i)) as [->|Hh]; cbn [orb].
        - exists a1. split; [done|]. eapply effects_weaken; [apply effects_none| |done]. intros z. split; [done|].
          intros (j & Hj & Hne & _). cbn in Hj, Hne. congruence.
        - erewrite st_bind_ok by reflexivity. rewrite Hs1. destruct (block_exists s h) eqn:Hex.
          + destruct (unsynced_account a1 y i h Hs1 Hx) as (a2 & -> & E). exists a2. split; [done|].
            eapply effects_weaken; [exact E| |done]. intros z. unfold ours_above. cbn. split.
            * intros [Hw Hz']. exists i. auto.
            * intros (j & Hj & _ & _ & Hw & Hz'). split; [done|]. congruence.
          + destruct (add_pull_run a1 (pull_info_new y h (head i))) as (a2 & -> & E). exists a2. split; [done|].
            eapply effects_weaken; [exact E| |done]. intros z. split; [done|]. intros (j & _ & _ & Hex' & _). cbn in Hex'. congruence. }
      destruct Hstep as (a2 & Hstep & E2). pose proof (ef_store _ _ _ _ E2) as Hs2. rewrite Hs1 in Hs2.
      destruct (client_next_run a2 c1 Hs2 ltac:(lia)) as (c2 & Hn & Hc2 & _). rewrite Hcx in Hc2.
      exists c2, a2. split_and!; [|eapply effects_weaken; [exact (effects_trans _ _ _ _ _ _ _ E1 E2)|done|by rewrite app_nil_r]|exact Hc2].
      erewrite st_bind_ok; [|erewrite st_bind_ok by exact Hstep; exact Hn]. reflexivity.
    + assert (Hno : accounts s !! y = None).
      { destruct (accounts s !! y) as [j|] eqn:Hj; [|done]. assert (Hin : (y, j) ∈ table_from y (accounts s)) by (apply table_from_elem; split; [lia|done]).
        rewrite Hl in Hin. apply elem_of_cons in Hin as [[= <- _]|Hin]; [done|].
        pose proof (table_from_cons _ _ _ _ _ Hl) as ->. apply table_from_elem in Hin. lia. }
      destruct (Hnew Hno) as (a2 & Hadd & E).
      exists c1, a2. split_and!; [|exact E|by apply Hmiss].
      erewrite st_bind_ok; [|rewrite st_assert_true by (apply Z.ltb_lt; lia); exact Hadd]. reflexivity.
Qed.

(** *** All frontiers *)

(** What the other node lacks: accounts it does not list, and the upper parts of
    chains whose frontier it has is a block of ours. *)
Definition ours_only (k : Z) (l : list (account * block_hash)) (x : Z) : Prop :=
  (exists y i, k <= y /\ y ∉ fst <$> l /\ accounts s !! y = Some i /\ wallets_exists wallets y = true /\ walks s (head i) 0 x)
  \/ exists f, f ∈ l /\ ours_above f x.

Lemma ours_only_cons k f l x :
  k <= fst f -> Forall (fun z => fst f < fst z) l ->
  ours_only k (f :: l) x <-> (ours_between k (Some (fst f)) x \/ ours_above f x) \/ ours_only (fst f + 1) l x.
Proof.
  intros Hk Hl. unfold ours_only, ours_between. rewrite fmap_cons. split.
  - intros [(y & i & Hy & Hn & Hr)|(z & [->|Hz]%elem_of_cons & Hr)]; [|tauto|right; right; eauto].
    rewrite not_elem_of_cons in Hn. destruct Hn as [Hn1 Hn2]. destruct (decide (y < fst f)) as [Hlt|Hge].
    + left. left. exists y, i. tauto.
    + right. left. exists y, i. split; [lia|tauto].
  - intros [[(y & i & Hy & Hlt & Hr)|Ha]|[(y & i & Hy & Hn & Hr)|(z & Hz & Hr)]].
    + left. exists y, i. split; [done|]. split; [|done]. rewrite not_elem_of_cons. split; [lia|].
      intros (z & -> & Hz)%list_elem_of_fmap. pose proof (proj1 (Forall_forall _ _) Hl z Hz). cbn in *. lia.
    + right. exists f. split; [by left|done].
    + left. exists y, i. split; [lia|]. split; [|done]. rewrite not_elem_of_cons. split; [lia|done].
    + right. exists z. split; [by right|done].
Qed.

Lemma read_frontier (y h : Z) rest :
  fits 256 y -> fits 256 h ->
  rd_bind read_u256 (fun x => rd_bind read_u256 (fun l => rd_ret (x, l))) (write_frontier (y, h) ++ rest) = Got (y, h) rest.
Proof.
  intros Hy Hh. unfold write_frontier, rd_bind. cbn [fst snd]. unfold read_u256, write_u256.
  rewrite <- app_assoc, read_be_app by exact Hy. by rewrite read_be_app by exact Hh.
Qed.

Lemma receive_frontiers_run fuel a c k l :
  ba_store a = s -> 0 <= k -> stands_at k c -> StronglySorted (fun x y => fst x < fst y) l ->
  Forall (fun f => k <= fst f /\ fst f <> 0 /\ fits 256 (fst f) /\ fits 256 (snd f)) l -> (length l + 1 <= fuel)%nat ->
  exists a', receive_frontiers wallets fuel c (concat (write_frontier <$> l) ++ write_frontier (0, 0)) a = Ok (false, a')
  /\ effects (ours_only k l) (concat (needed_pull <$> l)) a a'.
Proof.
  revert fuel a c k. induction l as [|f l IH]; intros [|fuel] a c k Ha Hk Hc Hs Hl Hf; cbn [length] in Hf; try lia;
    cbn [receive_frontiers].
  - cbn [fmap list_fmap concat app]. rewrite <- (app_nil_r (write_frontier (0, 0))).
    rewrite read_frontier by (unfold fits; lia). unfold received_frontier. change (is_zero 0) with true. cbn [negb].
    pose proof (table_from_length k (accounts s)) as Hlen.
    destruct (pass_accounts_run loop_fuel a (FrontierClient (fc_current c) (fc_info c) (wrap 32 (fc_count c + 1))) k None Ha Hk Hc Logic.I
      ltac:(lia)) as (c1 & a1 & Hp & E1 & _).
    erewrite st_bind_ok; [|erewrite st_bind_ok by exact Hp; reflexivity]. eexists. split; [reflexivity|].
    assert (E2 : effects (fun _ => False) [] a1 (pool_connection a1)) by (split; try done; intros x; cbn; tauto).
    eapply effects_weaken; [exact (effects_trans _ _ _ _ _ _ _ E1 E2)| |done].
    intros x. unfold ours_only, ours_between. split.
    + intros [(y & i & Hy & _ & Hr)|[]]. left. exists y, i. split; [done|]. split; [by apply not_elem_of_nil|done].
    + intros [(y & i & Hy & _ & Hr)|(f & Hf' & _)]; [left; exists y, i; auto|by apply not_elem_of_nil in Hf'].
  - apply StronglySorted_inv in Hs as [Hs Hlt]. apply Forall_cons in Hl as [(Hkf & Hz & Hf1 & Hf2) Hl].
    destruct f as [y h]. cbn [fst snd] in *. cbn [fmap list_fmap concat]. rewrite <- app_assoc, read_frontier by done.
    destruct (received_frontier_run a c k (y, h) Ha ltac:(cbn; lia) Hz Hc) as (c1 & a1 & Hrun & E1 & Hc1).
    cbn [fst snd] in Hrun. erewrite st_bind_ok by exact Hrun. pose proof (ef_store _ _ _ _ E1) as Hs1. rewrite Ha in Hs1.
    destruct (IH fuel a1 c1 (y + 1) Hs1 ltac:(lia) Hc1 Hs) as (a' & -> & E2); [|lia|].
    { apply Forall_forall. intros z Hz'. pose proof (proj1 (Forall_forall _ _) Hlt z Hz'). pose proof (proj1 (Forall_forall _ _) Hl z Hz') as (_ & ?). cbn in *.
      split; [lia|done]. }
    exists a'. split; [done|]. eapply effects_weaken; [exact (effects_trans _ _ _ _ _ _ _ E1 E2)| |apply Permutation_app_comm].
    intros x. symmetry. apply (ours_only_cons k (y, h) l x); [done|exact Hlt].
Qed.
End Frontiers.

(** ** The exchange of frontiers *)

Lemma account_bounds `{Environment} {gb m u} (Hgen : fits 256 genesis_account) (U : reachable gb m u) (Hu : (query_fuel m <= loop_fuel)%nat) :
  accounts u !! (2 ^ 256 - 1) = None -> forall y i, accounts u !! y = Some i -> 0 < y < 2 ^ 256 - 1.
Proof.
  intros Hl y i Hy. pose proof (accounts_fit U Hu y i Hgen Hy). assert (y <> 2 ^ 256 - 1) by congruence. lia.
Qed.

Section Exchange.
Context `{Environment} {gb : open_block} {n nt : nat} {s t : store}.
Context (R : reachable gb n s) (Hf : (query_fuel n <= loop_fuel)%nat).
Context (T : reachable gb nt t) (Hft : (query_fuel nt <= loop_fuel)%nat).
Context (Hgen : fits 256 genesis_account) (Hlast : accounts s !! (2 ^ 256 - 1) = None) (Hlast' : accounts t !! (2 ^ 256 - 1) = None).
Context (Hacc : (size (accounts s) + 2 <= loop_fuel)%nat).

Lemma head_found {g} (I : inv_with n g s) y i : accounts s !! y = Some i -> block_exists s (head i) = true /\ head i <> 0.
Proof.
  intros Hy. pose proof (inv_head I _ _ Hy) as [_ (hb & Hh) _ _ _ _ _]. split; [apply block_exists_true; by eexists|].
  intros Hz. rewrite Hz, (zero_entry I) in Hh. discriminate Hh.
Qed.

Lemma heads_fit {g} (I : inv_with nt g t) y i : accounts t !! y = Some i -> fits 256 (head i).
Proof.
  intros Hy. pose proof (inv_head I _ _ Hy) as [_ (hb & Hh) _ _ _ _ _].
  rewrite <- (ei_hash _ _ _ _ _ _ (inv_entry I _ _ _ Hh)). apply hash_fits.
Qed.

(** An account whose head at the other node is not a block of ours. *)
Definition behind (y : account) (p : pull_info) : Prop :=
  exists i, accounts t !! y = Some i /\ p = pull_info_new y (head i) (latest s y)
  /\ (accounts s !! y = None \/ block_exists s (head i) = false).

Lemma needed_pulls_spec {g} (I : inv_with n g s) l :
  frontier_list 0 t l -> (forall y i, accounts t !! y = Some i -> 0 <= y) ->
  NoDup (concat (needed_pull (s := s) <$> l)) /\ forall p, p ∈ concat (needed_pull (s := s) <$> l) <-> exists y, behind y p.
Proof.
  intros [Hs Hl] Hpos.
  assert (Hneed : forall f p, p ∈ needed_pull (s := s) f <-> p = pull_info_new (fst f) (snd f) (latest s (fst f))
    /\ (accounts s !! fst f = None \/ block_exists s (snd f) = false)).
  { intros [y h] p. unfold needed_pull, latest, account_get. cbn [fst snd]. destruct (accounts s !! y) as [i|] eqn:Hy.
    - destruct (Z.eqb_spec h (head i)) as [->|Hne]; cbn [orb].
      + split; [by intros ?%not_elem_of_nil|]. intros [_ [?|Hx]]; [done|]. rewrite (proj1 (head_found I y i Hy)) in Hx. done.
      + destruct (block_exists s h); [split; [by intros ?%not_elem_of_nil|intros [_ [?|?]]; done]|].
        rewrite list_elem_of_singleton. split; [intros ->; auto|by intros [-> _]].
    - rewrite list_elem_of_singleton. split; [intros ->; auto|by intros [-> _]]. }
  split.
  - clear Hl. induction Hs as [|f l Hs IH Hlt]; [constructor|]. cbn [fmap list_fmap concat]. apply NoDup_app. split_and!; [| |exact IH].
    + unfold needed_pull. destruct (accounts s !! fst f); [destruct (_ || _)|]; [constructor|apply NoDup_singleton..].
    + intros p Hp Hq. apply list_elem_of_In, in_concat in Hq as (q & Hq & Hin). apply list_elem_of_In in Hq, Hin.
      apply list_elem_of_fmap in Hq as (z & -> & Hz). apply Hneed in Hp as [-> _]. apply Hneed in Hin as [Heq _].
      injection Heq as Heq _ _. pose proof (proj1 (Forall_forall _ _) Hlt z Hz). cbn in *. lia.
  - intros p. rewrite list_elem_of_In, in_concat. split.
    + intros (q & Hq & Hin). apply list_elem_of_In in Hq, Hin. apply list_elem_of_fmap in Hq as ([y h] & -> & Hz).
      apply Hneed in Hin as [-> Hin]. apply Hl in Hz as (_ & i & Hi & <-). exists y, i. auto.
    + intros (y & i & Hi & -> & Hx). exists (needed_pull (s := s) (y, head i)). split; apply list_elem_of_In.
      * apply list_elem_of_fmap. exists (y, head i). split; [done|]. apply Hl. split; [by eapply Hpos|eauto].
      * apply Hneed. auto.
Qed.

(** The blocks of our wallets that the other node lacks. *)
Definition to_push (wallets : list wallet) (x : block_hash) : Prop :=
  exists y i, accounts s !! y = Some i /\ wallets_exists wallets y = true
  /\ match accounts t !! y with
     | None => walks s (head i) 0 x
     | Some j => head j <> head i /\ block_exists s (head j) = true /\ walks s (head i) (head j) x
     end.

Lemma ours_only_push wallets l x :
  frontier_list 0 t l -> (forall y i, accounts s !! y = Some i -> 0 < y) -> (forall y i, accounts t !! y = Some i -> 0 <= y) ->
  ours_only (s := s) wallets 1 l x <-> to_push wallets x.
Proof.
  intros [_ Hl] Hpos Hpos'. unfold ours_only, to_push. split.
  - intros [(y & i & Hy & Hn & Hi & Hw & Hx)|([y h] & Hin & (i & Hi & Hne & Hex & Hw & Hx))]; cbn [fst snd] in *.
    + exists y, i. split_and!; [done|done|]. destruct (accounts t !! y) as [j|] eqn:Hj; [|done].
      destruct Hn. apply list_elem_of_fmap. exists (y, head j). split; [done|]. apply Hl. split; [by eapply Hpos'|eauto].
    + apply Hl in Hin as (_ & j & Hj & <-). exists y, i. split_and!; [done|done|]. by rewrite Hj.
  - intros (y & i & Hi & Hw & Hx). destruct (accounts t !! y) as [j|] eqn:Hj.
    + right. exists (y, head j). split; [apply Hl; split; [by eapply Hpos'|eauto]|]. destruct Hx as (Hne & Hex & Hx). exists i. auto.
    + left. exists y, i. split_and!; [specialize (Hpos _ _ Hi); lia| |done|done|done].
      intros ([z h] & -> & (_ & j & Hj' & _)%Hl)%list_elem_of_fmap. cbn in Hj. congruence.
Qed.

Lemma exchange_run wallets a now fuel :
  ba_store a = s -> (size (accounts t) + 2 <= fuel)%nat ->
  exists f bytes c a', frontier_req_server_new fuel t now frontier_request = Ok f /\ frontier_session fuel t f = Ok bytes
  /\ frontier_req_client_new a = Ok (c, a) /\ receive_frontiers wallets fuel c bytes a = Ok (false, a')
  /\ exists P, effects (to_push wallets) P a a' /\ NoDup P /\ forall p, p ∈ P <-> exists y, behind y p.
Proof.
  intros Ha Hfuel. destruct (reachable_inv _ _ _ R Hf) as (g & I). destruct (reachable_inv _ _ _ T Hft) as (g' & J).
  pose proof (account_bounds Hgen R Hf Hlast) as Hfit. pose proof (account_bounds Hgen T Hft Hlast') as Hfit'.
  destruct (frontier_response_run (s := t) Hfit' fuel now frontier_request) as (f & Hnew & Hses);
    [unfold fits; cbn; lia|reflexivity|exact Hfuel|]. cbn [fr_start frontier_request] in Hses.
  pose proof (heads_of_list 0 t) as Hl. set (l := heads_of (table_from 0 (accounts t))) in *.
  destruct (client_next_run (s := s) Hf a (FrontierClient 0 account_info_default 0) Ha ltac:(cbn; lia)) as (c & Hc & Hst & _).
  cbn [fc_current] in Hst. change (0 + 1) with 1 in Hst.
  assert (Hlen : (length l + 1 <= fuel)%nat).
  { unfold l, heads_of. rewrite length_fmap. pose proof (table_from_length 0 (accounts t)). lia. }
  destruct (receive_frontiers_run I Hf Hfit wallets Hacc fuel a c 1 l Ha ltac:(lia) Hst (proj1 Hl)) as (a' & Hrun & E); [|exact Hlen|].
  { apply Forall_forall. intros [y h] Hin. apply (proj2 Hl) in Hin as (_ & i & Hi & <-). pose proof (Hfit' _ _ Hi). cbn [fst snd].
    split_and!; [lia|lia|unfold fits; lia|exact (heads_fit J _ _ Hi)]. }
  exists f, (concat (write_frontier <$> l) ++ write_frontier (0, 0)), c, a'. split_and!; [exact Hnew|exact Hses|exact Hc|exact Hrun|].
  destruct (needed_pulls_spec I l Hl) as [Hnd Hp]. { intros y i Hy. apply Hfit' in Hy. lia. }
  eexists. split_and!; [|exact Hnd|exact Hp]. eapply effects_weaken; [exact E| |done].
  intros x. apply ours_only_push; [exact Hl| |]; intros y i Hy; [apply Hfit in Hy|apply Hfit' in Hy]; lia.
Qed.

(** C18: two ledgers are compared exactly.  A node with the reachable ledger [s]
    asks a node with the reachable ledger [t] for its frontiers.  The response
    ends, the client reads all of it without a failed assertion, and then there
    is exactly one new pull for every account that we do not know or whose head
    at the other node is not a block of ours, down to our head; and the blocks to be pushed are exactly
    those of our wallets' accounts that the other node cannot have: those above
    its head, and all of an account that it does not know. *)
Theorem frontiers_compared (wallets : list wallet) (a : bootstrap_attempt) (now : Z) (fuel : nat) :
  ba_store a = s -> (size (accounts t) + 2 <= fuel)%nat ->
  exists f bytes c a' P, frontier_req_server_new fuel t now frontier_request = Ok f /\ frontier_session fuel t f = Ok bytes
  /\ frontier_req_client_new a = Ok (c, a) /\ receive_frontiers wallets fuel c bytes a = Ok (false, a')
  /\ pulls a' ≡ₚ P ++ pulls a /\ NoDup P
  /\ (forall p, p ∈ P <-> exists y i, accounts t !! y = Some i /\ (accounts s !! y = None \/ block_exists s (head i) = false)
                        /\ p = pull_info_new y (head i) (latest s y))
  /\ (forall x, unsynced_exists x a' = true <-> unsynced_exists x a = true \/ to_push wallets x)
  /\ ba_store a' = s /\ added a' = added a.
Proof.
  intros Ha Hfuel. destruct (exchange_run wallets a now fuel Ha Hfuel) as (f & bytes & c & a' & E1 & E2 & E3 & E4 & P & [F1 F2 F3 F4 F5 F6 F7] & Hnd & HP).
  exists f, bytes, c, a', P. split_and!; [done..| | |congruence|done].
  - intros p. rewrite HP. split; intros (y & i & Hi & H1 & H2); exists y, i; by split_and!.
  - intros x. by rewrite !unsynced_exists_true.
Qed.
End Exchange.

(** ** Pulling *)

Section Reading.
(** A reader that reports every error. *)
Definition safe {A} (m : reader A) : Prop := forall s f, m s <> Rd_fault f.

Lemma safe_ret {A} (a : A) : safe (rd_ret a).
Proof. by intros s f. Qed.
Lemma safe_bind {A B} (m : reader A) (k : A -> reader B) : safe m -> (forall a, safe (k a)) -> safe (rd_bind m k).
Proof. intros Hm Hk s f. unfold rd_bind. pose proof (Hm s) as Hs. destruct (m s) as [a rest| |f']; [apply Hk|done|by destruct (Hs f')]. Qed.
Lemma safe_read k : safe (read k).
Proof. intros s f. unfold read. by destruct (_ <=? _)%nat. Qed.
Lemma safe_be k : safe (read_be k).
Proof. apply safe_bind; [apply safe_read|intros; apply safe_ret]. Qed.
Lemma safe_le k : safe (read_le k).
Proof. apply safe_bind; [apply safe_read|intros; apply safe_ret]. Qed.
Lemma safe_loop k acc : safe (read_bytes_loop k acc).
Proof. revert acc. induction k; intros acc [|c s] f; cbn; try done. apply IHk. Qed.

(** Only the size of an action can be read where there is nothing. *)
Lemma action_safe s f : (66 <= length s)%nat -> send_block_v2_read s <> Rd_fault f.
Proof.
  intros Hs. unfold send_block_v2_read, send_hashables_v2_read, rd_bind at 1 2, read_u256.
  unfold read_be at 1, rd_bind at 1, read at 1. destruct (Nat.leb_spec 32 (length s)); [|lia].
  unfold rd_ret at 1, rd_bind at 1, read_be at 1, rd_bind at 1, read at 1. rewrite length_drop.
  destruct (Nat.leb_spec 32 (length s - 32)); [|lia]. unfold rd_ret at 1, rd_bind at 1, read_bytes.
  assert (Hl : (2 <= length (drop 32 (drop 32 s)))%nat) by (rewrite !length_drop; lia).
  destruct (drop 32 (drop 32 s)) as [|c1 [|c2 rest]]; cbn in Hl; [lia|lia|].
  match goal with |- context [read_bytes_loop ?k ?acc rest] => pose proof (safe_loop k acc rest) as Hloop; destruct (read_bytes_loop k acc rest) as [x r| |f'] end;
    [|done|by destruct (Hloop f')].
  apply safe_bind; [apply safe_be|]. intros sg. apply safe_bind; [apply safe_le|]. intros w. apply safe_ret.
Qed.

Lemma fixed_safe : safe send_block_read /\ safe receive_block_read /\ safe open_block_read /\ safe change_block_read.
Proof.
  split_and!;
    [unfold send_block_read, send_hashables_read|unfold receive_block_read, receive_hashables_read
    |unfold open_block_read, open_hashables_read|unfold change_block_read, change_hashables_read];
    repeat (apply safe_bind; [|intros ?]); first [apply safe_read|apply safe_be|apply safe_le|apply safe_ret].
Qed.

Lemma sized_block_safe type_a k bytes f :
  block_size type_a = Some k -> length bytes = k -> fits 8 type_a -> deserialize_block (le_split 1 type_a ++ bytes) <> Rd_fault f.
Proof.
  intros Hk Hl Ht. unfold deserialize_block. erewrite rd_bind_got by (apply read_le_app; exact Ht).
  destruct fixed_safe as (F1 & F2 & F3 & F4).
  unfold block_size in Hk. unfold deserialize_block_as. destruct (block_type_of_code type_a) as [[]|]; try discriminate Hk;
    try (apply safe_bind; [assumption|intros; apply safe_ret]).
  injection Hk as Hk. unfold rd_bind. pose proof (action_safe bytes) as Ha. destruct (send_block_v2_read bytes) as [b r| |f']; [done|done|].
  unfold send_block_size in Hk. by destruct (Ha f' ltac:(lia)).
Qed.
End Reading.

Section PullClient.
Context (pending_stop hard_stop : nat -> bool).
Implicit Types (a : bootstrap_attempt) (c : bulk_pull_client).

(** What a pull changes: blocks are added, each of them twice, and connections
    given back; the queue of pulls is left alone until the client ends. *)
Record received (l : list block) a a' : Prop := {
  re_store : ba_store a' = ba_store a;
  re_unsynced : unsynced_table a' = unsynced_table a;
  re_pulls : pulls a' = pulls a;
  re_frontier : connection_frontier_request a' = connection_frontier_request a;
  re_pulling : pulling a' = pulling a;
  re_added : added a' = added a ++ concat ((fun b => [Item b false; Item b false]) <$> l);
  re_requested : requested a' = requested a;
  re_stopped : ba_stopped a' = ba_stopped a
}.

Lemma received_nil a : received [] a a.
Proof. split; try done. cbn. by rewrite app_nil_r. Qed.

Lemma received_block_run b c a :
  exists a', received_block b c a
    = Ok (PullClient (pc_pull c) (if hash b =? expected c then previous b else expected c) (S (pc_blocks c)), a')
  /\ received [b] a a'.
Proof.
  eexists. split.
  - unfold received_block. erewrite st_bind_ok by reflexivity. erewrite st_bind_ok by reflexivity. erewrite st_bind_ok by reflexivity.
    unfold st_ret. by destruct (hash b =? expected c).
  - split; try done. cbn. by rewrite <- app_assoc.
Qed.

Lemma received_cons b l a1 a2 a3 : received [b] a1 a2 -> received l a2 a3 -> received (b :: l) a1 a3.
Proof.
  intros [S1 U1 P1 F1 N1 A1 R1 T1] [S2 U2 P2 F2 N2 A2 R2 T2]. split; try congruence. rewrite A2, A1. cbn. by rewrite <- app_assoc.
Qed.

(** Whatever comes in, the client ends. *)
Lemma receive_blocks_total fuel c s a :
  (length s < fuel)%nat -> exists c' a' l, receive_blocks pending_stop hard_stop fuel c s a = Ok (c', a')
  /\ received l a a' /\ pc_pull c' = pc_pull c.
Proof.
  revert c s a. induction fuel as [|fuel IH]; intros c s a Hf; [lia|]. cbn [receive_blocks].
  destruct (read_le 1 s) as [ty rest| |f] eqn:Hr;
    [|exists c, a, []; split_and!; [done|apply received_nil|done]|by destruct (safe_le 1 s f)].
  apply read_le_inv in Hr as [-> Hty]. rewrite length_app, length_le_split in Hf.
  destruct (block_size ty) as [k|] eqn:Hk.
  2:{ destruct (_ && _); [|exists c, a, []; split_and!; [done|apply received_nil|done]].
      exists c, (pool_connection a), []. split_and!; [done| |done]. split; try done. cbn. by rewrite app_nil_r. }
  destruct (read k rest) as [bytes rest'| |f] eqn:Hrd;
    [|exists c, a, []; split_and!; [done|apply received_nil|done]|by destruct (safe_read k rest f)].
  apply read_inv in Hrd as [-> Hlen]. rewrite length_app in Hf.
  pose proof (fun f => sized_block_safe ty k bytes f Hk Hlen Hty) as Hsafe.
  destruct (deserialize_block _) as [b r| |f]; [|exists c, a, []; split_and!; [done|apply received_nil|done]|by destruct (Hsafe f)].
  destruct (received_block_run b c a) as (a1 & Hrun & E1). erewrite st_bind_ok by exact Hrun.
  destruct (hard_stop _); cbn [negb].
  - eexists _, a1, [b]. split_and!; [reflexivity|exact E1|done].
  - destruct (IH (PullClient (pc_pull c) (if hash b =? expected c then previous b else expected c) (S (pc_blocks c))) rest' a1
      ltac:(lia)) as (c' & a' & l & Hgo & E2 & Hp). exists c', a', (b :: l).
    split_and!; [exact Hgo|by eapply received_cons|exact Hp].
Qed.

(** A pull is never given up.  Whatever comes in on the connection of a pull,
    the client ends; when the blocks did not lead to the end of the pull, what
    is missing is put at the front of the queue as a pull that was tried once,
    however often it was tried before.  So the limit on the attempts is never
    reached, and the peer the frontiers came from is never asked. *)
Theorem pull_never_given_up (p : pull_info) (s : list byte) (a : bootstrap_attempt) :
  exists a', pull_client_run pending_stop hard_stop (S (length s)) p s a = Ok (tt, a')
  /\ requested a' = requested a
  /\ (pulls a' = pulls a \/ exists e, e <> pull_end p /\ pulls a' = PullInfo (pull_account p) e (pull_end p) 1 :: pulls a).
Proof.
  unfold pull_client_run. cbn [pull_request snd].
  destruct (receive_blocks_total (S (length s)) (PullClient p (pull_head p) 0) s a ltac:(lia)) as (c & a1 & l & Hrun & [S1 U1 P1 F1 N1 A1 R1 T1] & Hp).
  erewrite st_bind_ok by exact Hrun. unfold pull_client_end. erewrite st_bind_ok by reflexivity. cbn in Hp. rewrite Hp.
  destruct (Z.eqb_spec (expected c) (pull_end p)) as [He|He]; cbn [negb].
  - eexists. split; [reflexivity|]. split; [exact R1|]. by left.
  - eexists. split; [reflexivity|]. split; [exact R1|]. right. exists (expected c). split; [done|]. cbn. by rewrite P1.
Qed.
End PullClient.
