(* ===== verification/BootstrapPush.v ===== *)
(** * What a push sends

    [bulk_push_client] sends the blocks that are marked as unsynced.  They are
    taken in the order of their hashes, but the blocks a block depends on go
    first: [block_synchronization] keeps a stack of blocks that wait for others.
    On a reachable ledger every marked block is sent once, after what it depends
    on. *)
From Stdlib Require Import ZArith Lia List Sorted Permutation.
From stdpp Require Import prelude gmap sorting.
From S2P Require Import Prelude Lists Numbers Streams Blocks Store Ledger StoreFacts LedgerInv LedgerQueries LedgerExtend LedgerShrink LedgerProcess LedgerRollback LedgerUndo LedgerUnique LedgerTheorems LedgerSub Votes Work Messages Unchecked Processor Elections BootstrapServer BootstrapTheorems BootstrapClient BootstrapSync.

Local Open Scope m_scope.

(** The blocks a block depends on. *)
Definition dependencies (b : block) : list block_hash :=
  match b with
  | Send _ | SendV2 _ | Change _ => [previous b]
  | Receive r => [rh_previous (receive_h r); rh_source (receive_h r)]
  | Open o => [oh_source (open_h o)]
  end.

Section Push.
Context `{Environment} {n : nat} {g : ghost} {s : store} (I : inv_with n g s).
Implicit Types (p : bulk_push_client) (K : list block_hash) (U : gmap Z unit).

Abbreviation marked p := (unsynced_table (pu_attempt p)).

Lemma dependency_rank h b m d :
  entry_at s h = Some (b, m) -> d ∈ dependencies b -> is_Some (entry_at s d) -> (grank g d < grank g h)%nat.
Proof.
  intros Hh Hd Hs. destruct (is_open b) eqn:Ho.
  - destruct b as [| | |o|]; try discriminate Ho. apply list_elem_of_singleton in Hd as ->.
    destruct (ei_block _ _ _ _ _ _ (inv_entry I _ _ _ Hh)) as (_ & _ & _ & [(Hsrc & _)|((_ & Hr & _) & _)]); [|exact Hr].
    rewrite Hsrc, (genesis_entry I) in Hs. by destruct Hs.
  - destruct (inv_previous I _ _ _ Hh Ho) as (_ & _ & _ & Hr). destruct b as [b|b|b|b|b]; try discriminate Ho; cbn [dependencies previous] in *.
    + by apply list_elem_of_singleton in Hd as ->.
    + by apply list_elem_of_singleton in Hd as ->.
    + apply elem_of_cons in Hd as [->|Hd]; [exact Hr|]. apply list_elem_of_singleton in Hd as ->.
      destruct (ei_block _ _ _ _ _ _ (inv_entry I _ _ _ Hh)) as (_ & _ & (_ & Hr' & _) & _). exact Hr'.
    + by apply list_elem_of_singleton in Hd as ->.
Qed.

(** The marked blocks [U0] are still marked, on the stack or sent. *)
Record pushing U0 K p : Prop := {
  pi_store : ba_store (pu_attempt p) = s;
  pi_sorted : StronglySorted (fun x y => (grank g x < grank g y)%nat) K;
  pi_parts : forall x, is_Some (U0 !! x) <-> is_Some (marked p !! x) \/ x ∈ K \/ x ∈ hash <$> pushed p;
  pi_stack : forall x, x ∈ K -> marked p !! x = None /\ x ∉ hash <$> pushed p;
  pi_pushed : forall b, b ∈ pushed p -> marked p !! hash b = None /\ block_get s (hash b) = Some b;
  pi_once : NoDup (hash <$> pushed p);
  pi_order : forall l1 b l2, pushed p = l1 ++ b :: l2 -> forall d, d ∈ dependencies b -> is_Some (U0 !! d) -> d ∈ hash <$> l1
}.

Context (U0 : gmap Z unit) (Hknown : forall x, is_Some (U0 !! x) -> is_Some (entry_at s x)).

Definition unmark (h : block_hash) p : bulk_push_client := PushClient (set_unsynced (delete h) (pu_attempt p)) (pushed p).

Lemma unmark_marked h p x : marked (unmark h p) !! x = if decide (x = h) then None else marked p !! x.
Proof. cbn. case_decide as Hx; [subst; apply lookup_delete_eq|]. by rewrite lookup_delete_ne. Qed.

Lemma unsynced_del_run h p : is_Some (marked p !! h) -> on_attempt (unsynced_del h) p = Ok (tt, unmark h p).
Proof.
  intros Hm. unfold on_attempt, unsynced_del. erewrite st_bind_ok by reflexivity. by rewrite bool_decide_eq_true_2.
Qed.

(** A marked block of low rank moves to the stack. *)
Lemma mark_to_stack K p h :
  pushing U0 K p -> is_Some (marked p !! h) -> (forall x, x ∈ K -> (grank g h < grank g x)%nat) -> pushing U0 (h :: K) (unmark h p).
Proof.
  intros [S1 K1 P1 D1 B1 N1 O1] Hm Hlow. split; [exact S1| | | | |exact N1|exact O1].
  - constructor; [exact K1|]. by apply Forall_forall.
  - intros x. rewrite P1, unmark_marked, elem_of_cons. cbn [pushed unmark]. case_decide as Hx; [subst|tauto].
    split; [by right; left; left|by left].
  - intros x. rewrite unmark_marked, elem_of_cons. cbn [pushed unmark]. intros [->|Hx].
    + rewrite decide_True by done. split; [done|]. intros (b & -> & Hb)%list_elem_of_fmap. destruct (B1 b Hb) as [Hn _].
      rewrite Hn in Hm. by destruct Hm.
    + destruct (D1 x Hx) as [-> ?]. split; [by case_decide|done].
  - intros b Hb. destruct (B1 b Hb) as [Hn ?]. rewrite unmark_marked, Hn. split; [by case_decide|done].
Qed.

Lemma marked_size h p : is_Some (marked p !! h) -> size (marked p) = S (size (marked (unmark h p))).
Proof. intros [x Hx]. cbn. rewrite map_size_delete_Some by (by eexists). assert (size (marked p) <> 0)%nat; [|lia]. intros Hz%map_size_empty_iff. by rewrite Hz, lookup_empty in Hx. Qed.

(** One dependency. *)
Lemma add_dependency_of_run d c K p :
  pushing U0 K p ->
  add_dependency_of d c K p
  = if bool_decide (is_Some (marked p !! d)) then Ok ((false, d :: K), unmark d p) else Ok ((c, K), p).
Proof.
  intros P. unfold add_dependency_of, synchronized, push_synchronization, retrieve, push_synchronized, push_retrieve.
  destruct (bool_decide_reflect (is_Some (marked p !! d))) as [Hm|Hm].
  - assert (Hx : unsynced_exists d (pu_attempt p) = true) by (by apply unsynced_exists_true).
    erewrite st_bind_ok; [|erewrite st_bind_ok by reflexivity; rewrite Hx; erewrite st_bind_ok by (by apply unsynced_del_run); reflexivity].
    erewrite st_bind_ok by reflexivity. cbn [negb andb]. rewrite bool_decide_eq_true_2; [done|].
    cbn [unmark pu_attempt set_unsynced ba_store]. rewrite (pi_store _ _ _ P).
    destruct (Hknown d) as [[b m] Hb]; [by apply (pi_parts _ _ _ P); left|]. exists b. by eapply entry_get.
  - assert (Hx : unsynced_exists d (pu_attempt p) = false) by (apply not_true_iff_false; by rewrite unsynced_exists_true).
    erewrite st_bind_ok; [|erewrite st_bind_ok by reflexivity; rewrite Hx; erewrite st_bind_ok by reflexivity; reflexivity].
    by erewrite st_bind_ok by reflexivity.
Qed.

(** The first dependency that is still marked moves to the stack. *)
Lemma add_dependency_run K p b :
  pushing U0 K p ->
  (add_dependency b K p = Ok ((true, K), p) /\ forall d, d ∈ dependencies b -> marked p !! d = None)
  \/ exists d, d ∈ dependencies b /\ is_Some (marked p !! d) /\ add_dependency b K p = Ok ((false, d :: K), unmark d p).
Proof.
  intros P. assert (Hone : forall d, (add_dependency_of d true K p = Ok ((true, K), p) /\ marked p !! d = None)
    \/ is_Some (marked p !! d) /\ add_dependency_of d true K p = Ok ((false, d :: K), unmark d p)).
  { intros d. rewrite add_dependency_of_run by done. destruct (bool_decide_reflect (is_Some (marked p !! d))); [by right|left].
    split; [done|by apply eq_None_not_Some]. }
  destruct b as [b|b|b|b|b]; cbn [add_dependency dependencies previous].
  1, 2, 4, 5: match goal with |- context [add_dependency_of ?d _ _ _] => destruct (Hone d) as [[-> Hd]|[Hd ->]] end;
    [left; split; [done|]; by intros d ->%list_elem_of_singleton|right; eexists; by split_and!; [apply list_elem_of_singleton| |]].
  destruct (Hone (rh_previous (receive_h b))) as [[He Hd]|[Hd He]].
  - erewrite st_bind_ok by exact He. cbn [fst snd]. destruct (Hone (rh_source (receive_h b))) as [[-> Hd']|[Hd' ->]].
    + left. split; [done|]. intros d [->| ->%list_elem_of_singleton]%elem_of_cons; done.
    + right. exists (rh_source (receive_h b)). split_and!; [right; by apply list_elem_of_singleton|done|done].
  - right. exists (rh_previous (receive_h b)). erewrite st_bind_ok by exact He. split_and!; [left|done|done].
Qed.

Lemma stack_entry K p x : pushing U0 K p -> x ∈ K -> exists b m, entry_at s x = Some (b, m).
Proof.
  intros P Hx. destruct (Hknown x) as [[b m] Hb]; [|eauto]. apply (pi_parts _ _ _ P). by right; left.
Qed.

(** The stack is filled until the block at its top waits for nothing. *)
Lemma fill_dependencies_run fuel h K p :
  pushing U0 (h :: K) p -> (size (marked p) + 1 <= fuel)%nat ->
  exists h' K' p' b m, fill_dependencies fuel (h :: K) p = Ok (h' :: K', p') /\ pushing U0 (h' :: K') p'
  /\ pushed p' = pushed p /\ (size (marked p') + length K' = size (marked p) + length K)%nat
  /\ entry_at s h' = Some (b, m) /\ forall d, d ∈ dependencies b -> marked p' !! d = None.
Proof.
  revert h K p. induction fuel as [|fuel IH]; intros h K p P Hf; [lia|]. cbn [fill_dependencies].
  destruct (stack_entry _ _ h P ltac:(left)) as (b & m & Hb). erewrite st_bind_ok by reflexivity.
  cbn [retrieve push_synchronization push_retrieve]. unfold push_retrieve. rewrite (pi_store _ _ _ P), (entry_get _ _ _ Hb).
  destruct (add_dependency_run _ _ b P) as [[He Hd]|(d & Hd & Hm & He)]; erewrite st_bind_ok by exact He; cbn [fst snd].
  - exists h, K, p, b, m. by split_and!.
  - assert (P' : pushing U0 (d :: h :: K) (unmark d p)).
    { apply mark_to_stack; [done|done|]. assert (Hr : (grank g d < grank g h)%nat).
      { eapply dependency_rank; [exact Hb|exact Hd|]. apply Hknown, (pi_parts _ _ _ P). by left. }
      pose proof (pi_sorted _ _ _ P) as Hs. inversion_clear Hs as [|? ? _ Hall]. intros x [->|Hx]%elem_of_cons; [done|].
      assert (grank g h < grank g x)%nat by exact (proj1 (Forall_forall _ _) Hall x Hx). lia. }
    pose proof (marked_size d p Hm) as Hsz.
    destruct (IH d (h :: K) (unmark d p) P' ltac:(lia)) as (h' & K' & p' & b' & m' & Hrun & P2 & Hpu & Hsz' & Hb' & Hd').
    exists h', K', p', b', m'. split_and!; [exact Hrun|exact P2|exact Hpu|cbn [length] in Hsz'; lia|exact Hb'|exact Hd'].
Qed.

(** The block at the top is sent. *)
Lemma send_top h K p b m :
  pushing U0 (h :: K) p -> entry_at s h = Some (b, m) -> (forall d, d ∈ dependencies b -> marked p !! d = None) ->
  pushing U0 K (PushClient (pu_attempt p) (pushed p ++ [b])).
Proof.
  intros P Hb Hd. pose proof (ei_hash _ _ _ _ _ _ (inv_entry I _ _ _ Hb)) as Hh. pose proof P as [S1 K1 P1 D1 B1 N1 O1].
  inversion_clear K1 as [|? ? Ks Hlow]. destruct (D1 h ltac:(left)) as [Hm Hn].
  assert (HhK : h ∉ K). { intros Hx. assert (grank g h < grank g h)%nat by exact (proj1 (Forall_forall _ _) Hlow h Hx). lia. }
  split; cbn [pu_attempt pushed]; rewrite ?fmap_app; cbn [fmap list_fmap]; [exact S1|exact Ks| | | | |].
  - intros x. rewrite P1, elem_of_cons, elem_of_app, list_elem_of_singleton, Hh. tauto.
  - intros x Hx. destruct (D1 x ltac:(by right)) as [? ?]. split; [done|]. rewrite elem_of_app, list_elem_of_singleton, Hh.
    intros [?| ->]; done.
  - intros c [Hc| ->%list_elem_of_singleton]%elem_of_app; [by apply B1|]. rewrite Hh. split; [done|by eapply entry_get].
  - apply NoDup_app. split_and!; [done| |apply NoDup_singleton]. intros x Hx ->%list_elem_of_singleton. by rewrite Hh in Hx.
  - intros l1 c l2 Heq d Hdc Hdu. destruct l2 as [|z l2' _] using rev_ind.
    + apply app_inj_tail in Heq as [<- <-]. destruct (proj1 (P1 d) Hdu) as [[x Hx]|[[->|Hx]%elem_of_cons|Hx]]; [by rewrite Hd in Hx| | |done].
      * assert (grank g h < grank g h)%nat; [|lia]. by eapply dependency_rank; [exact Hb|exact Hdc|eexists].
      * assert (grank g d < grank g h)%nat by (eapply dependency_rank; [exact Hb|exact Hdc|by apply Hknown]).
        assert (grank g h < grank g d)%nat by exact (proj1 (Forall_forall _ _) Hlow d Hx). lia.
    + rewrite app_comm_cons, app_assoc in Heq. apply app_inj_tail in Heq as [Heq <-]. by eapply O1.
Qed.

Lemma push_one_run fuel h K p :
  pushing U0 (h :: K) p -> (size (marked p) + 1 <= fuel)%nat ->
  exists K' p', push_one fuel (h :: K) p = Ok ((Writing, K'), p') /\ pushing U0 K' p'
  /\ (size (marked p') + length K' = size (marked p) + length K)%nat.
Proof.
  intros P Hf. destruct (fill_dependencies_run fuel h K p P Hf) as (h' & K' & p' & b & m & Hfill & P' & Hpu & Hsz & Hb & Hd).
  exists K', (PushClient (pu_attempt p') (pushed p' ++ [b])). split_and!; [|by eapply send_top|cbn; lia].
  unfold push_one, synchronize_one. erewrite st_bind_ok by reflexivity.
  erewrite st_bind_ok.
  2:{ erewrite st_bind_ok by exact Hfill. cbv beta iota. erewrite st_bind_ok by reflexivity. cbn [retrieve push_synchronization]. unfold push_retrieve.
      rewrite (pi_store _ _ _ P'), (entry_get _ _ _ Hb). reflexivity. }
  erewrite st_bind_ok by reflexivity. cbn [pushed snd]. rewrite Hpu, length_app. cbn [length].
  destruct (Nat.ltb_spec (length (pushed p)) (length (pushed p) + 1)); [done|lia].
Qed.

Lemma push_run_ok fuel K p :
  pushing U0 K p -> (size (marked p) + length K + 1 <= fuel)%nat ->
  exists p', push_run fuel K p = Ok (Finished, p') /\ pushing U0 [] p' /\ marked p' = ∅.
Proof.
  revert K p. induction fuel as [|fuel IH]; intros K p P Hf; [lia|]. cbn [push_run]. destruct K as [|h K].
  - unfold push. pose proof (first_from_table 0 (marked p)) as Ht. unfold unsynced_begin.
    destruct (first_from 0 (marked p)) as [[h []]|] eqn:Hfirst.
    + destruct Ht as (_ & _ & Hm). assert (Hs : is_Some (marked p !! h)) by (by eexists).
      destruct (Hknown h) as [[b mb] Hb]; [by apply (pi_parts _ _ _ P); left|].
      assert (Hz : h <> 0) by (intros ->; rewrite (zero_entry I) in Hb; discriminate Hb).
      assert (P1 : pushing U0 [h] (unmark h p)) by (apply mark_to_stack; [done|done|by intros x ?%not_elem_of_nil]).
      pose proof (marked_size h p Hs) as Hsz. cbn [length] in Hf.
      destruct (push_one_run (S fuel) h [] (unmark h p) P1 ltac:(lia)) as (K' & p' & Hrun & P' & Hsz').
      erewrite st_bind_ok.
      2:{ erewrite st_bind_ok by reflexivity. rewrite Hfirst, (is_zero_ne h Hz). cbn [negb].
          erewrite st_bind_ok by (by apply unsynced_del_run). exact Hrun. }
      cbn [fst snd]. apply IH; [exact P'|cbn [length] in Hsz'; lia].
    + exists p. split_and!; [|done|].
      * erewrite st_bind_ok; [|erewrite st_bind_ok by reflexivity; rewrite Hfirst; reflexivity]. done.
      * apply map_eq. intros x. rewrite lookup_empty. destruct (marked p !! x) as [[]|] eqn:Hx; [exfalso|done].
        destruct (Hknown x) as [[b mb] Hb]; [apply (pi_parts _ _ _ P); left; by eexists|].
        assert (0 <= x) by (rewrite <- (ei_hash _ _ _ _ _ _ (inv_entry I _ _ _ Hb)); apply hash_fits).
        assert (Hin : (x, ()) ∈ table_from 0 (marked p)) by (by apply table_from_elem). rewrite Ht in Hin. by apply not_elem_of_nil in Hin.
  - destruct (push_one_run (S fuel) h K p P ltac:(cbn [length] in Hf; lia)) as (K' & p' & Hrun & P' & Hsz').
    erewrite st_bind_ok by exact Hrun. cbn [fst snd]. apply IH; [exact P'|cbn [length] in *; lia].
Qed.
End Push.

Section Theorem_.
Context `{Environment}.

(** A push sends what is marked, in an order that can be processed.  On a
    reachable ledger all of whose marked blocks are there, the client ends by
    itself; it has sent every marked block exactly once, nothing else, each after
    the marked blocks it depends on; and no block is marked any more. *)
Theorem push_exact (gb : open_block) (n : nat) (s : store) (a : bootstrap_attempt) (fuel : nat) :
  reachable gb n s -> (query_fuel n <= loop_fuel)%nat -> ba_store a = s ->
  (forall x, unsynced_exists x a = true -> block_exists s x = true) -> (size (unsynced_table a) + 1 <= fuel)%nat ->
  exists p, push_run fuel [] (PushClient a []) = Ok (Finished, p) /\ unsynced_table (pu_attempt p) = ∅
  /\ NoDup (hash <$> pushed p)
  /\ (forall b, b ∈ pushed p <-> block_get s (hash b) = Some b /\ unsynced_exists (hash b) a = true)
  /\ (forall x, unsynced_exists x a = true -> x ∈ hash <$> pushed p)
  /\ forall l1 b l2, pushed p = l1 ++ b :: l2 ->
       forall d, d ∈ dependencies b -> unsynced_exists d a = true -> d ∈ hash <$> l1.
Proof.
  intros R Hf Ha Hex Hfuel. destruct (reachable_inv _ _ _ R Hf) as (g & I).
  assert (Hknown : forall x, is_Some (unsynced_table a !! x) -> is_Some (entry_at s x)).
  { intros x Hx. by apply block_exists_true, Hex, unsynced_exists_true. }
  destruct (push_run_ok I (unsynced_table a) Hknown fuel [] (PushClient a [])) as (p & Hrun & [S1 K1 P1 D1 B1 N1 O1] & He); [|cbn; lia|].
  { split; cbn; [done|constructor| |by intros x ?%not_elem_of_nil|by intros x ?%not_elem_of_nil|constructor|by intros []].
    intros x. rewrite !elem_of_nil. tauto. }
  rewrite He in P1. setoid_rewrite lookup_empty in P1.
  assert (Hm : forall x, unsynced_exists x a = true <-> x ∈ hash <$> pushed p).
  { intros x. rewrite unsynced_exists_true, P1, elem_of_nil. split; [intros [[? [=]]|[[]|?]]; done|by right; right]. }
  exists p. split_and!; [done|done|done| |by intros x Hx%Hm|].
  - intros b. rewrite Hm. split.
    + intros Hb. split; [by apply B1|]. by apply list_elem_of_fmap_2.
    + intros [Hb (c & Heq & Hc)%list_elem_of_fmap]. destruct (B1 c Hc) as [_ Hg]. rewrite <- Heq, Hb in Hg. by injection Hg as ->.
  - intros l1 b l2 Heq d Hd Hu. eapply O1; [exact Heq|exact Hd|]. by apply unsynced_exists_true.
Qed.
End Theorem_.
