(* ===== verification/BootstrapTransfer.v ===== *)
(** * Bootstrapping gets the ledger

    The parts put together: a node that has the genesis block only compares its
    frontiers with those of another node, pulls what it is told it lacks, and
    hands the blocks to its block processor, which ends with the ledger of the
    other node. *)
From Stdlib Require Import ZArith Lia List Sorted Permutation.
From stdpp Require Import prelude gmap sorting.
From S2P Require Import Prelude Lists Numbers Streams Blocks Store Ledger StoreFacts LedgerInv LedgerQueries LedgerExtend LedgerShrink LedgerProcess LedgerRollback LedgerUndo LedgerUnique LedgerTheorems LedgerSub Votes Work Messages Unchecked Processor Convergence Elections BootstrapServer BootstrapTheorems BootstrapClient BootstrapSync BootstrapPush.

Local Open Scope m_scope.

(** ** Pulls one after the other *)

Section Pulls.
Context `{Environment}.

(** The other node's response to a request. *)
Definition response_of (t : store) (fuel : nat) (r : bulk_pull) : M bootstrap_attempt (list byte) :=
  st_run (fun _ => match bulk_pull_response fuel r t with Ok (bytes, _) => Ok bytes | Fault f => Fault f end).

(** The loop of [bootstrap_attempt::run] with one connection, to a node with the
    ledger [t], that is not told to stop. *)
Fixpoint run_pulls (fuel : nat) (t : store) : M bootstrap_attempt unit :=
  match fuel with
  | O => st_fault Out_of_fuel
  | S fuel' =>
      more <- st_get still_pulling;;
      if more : bool then
        queue <- st_get pulls;;
        match queue with
        | [] => st_fault Out_of_fuel (* waits for a client that is not there *)
        | _ =>
            p <- request_pull true;;
            match p with
            | None => run_pulls fuel' t
            | Some p =>
                bytes <- response_of t fuel (fst (pull_request p));;
                pull_client_run (fun _ => false) (fun _ => false) (S (length bytes)) p bytes ;;;
                run_pulls fuel' t
            end
        end
      else st_ret tt
  end.

(** [request_frontier], with the other node's response; whether it failed. *)
Definition request_frontier (wallets : list wallet) (now : Z) (fuel : nat) (t : store) : M bootstrap_attempt bool :=
  c <- frontier_req_client_new;;
  f <- st_run (fun _ => frontier_req_server_new fuel t now frontier_request);;
  bytes <- st_run (fun _ => frontier_session fuel t f);;
  failed <- receive_frontiers wallets fuel c bytes;;
  (if failed : bool then st_put (set_pulls (fun _ => [])) else st_ret tt) ;;;
  st_ret failed.

(** [request_push]: what was sent. *)
Definition request_push (fuel : nat) : M bootstrap_attempt (list block) := fun a =>
  match push_run fuel [] (PushClient a []) with
  | Ok (Finished, p) => Ok (pushed p, pu_attempt p)
  | Ok (_, _) => Fault Out_of_fuel (* waits for a write that was not begun *)
  | Fault f => Fault f
  end.

Definition set_stopped (a : bootstrap_attempt) : bootstrap_attempt :=
  Attempt (ba_store a) (unsynced_table a) (pulls a) (connection_frontier_request a) (pulling a) (total_blocks a)
    true (added a) (pooled a) (requested a).

(** [run] when the first request for frontiers is answered. *)
Definition bootstrap_run (wallets : list wallet) (k : nat -> nat) (now : Z) (fuel : nat) (t : store) : M bootstrap_attempt (list block) :=
  failed <- request_frontier wallets now fuel t;;
  st_assert (negb failed) ;;;
  st_put (set_pulls (fun l => shuffle_pulls k (length l - 1) l)) ;;;
  run_pulls fuel t ;;;
  sent <- request_push fuel;;
  st_put set_stopped ;;;
  st_ret sent.

Lemma swap_perm {A} i k (l : list A) : swap i k l ≡ₚ l.
Proof.
  unfold swap. destruct (l !! i) as [x|] eqn:Hi; [|done]. destruct (l !! k) as [y|] eqn:Hk; [|done].
  by apply Permutation_insert_swap.
Qed.

Lemma shuffle_perm k i l : shuffle_pulls k i l ≡ₚ l.
Proof. revert l. induction i as [|i IH]; intros l; cbn; [done|]. eapply Permutation_trans; [apply IH|apply swap_perm]. Qed.
End Pulls.

(** ** Chains in parts *)

Section Segments.
Context `{Environment} {n : nat} {g : ghost} {s : store} (I : inv_with n g s).

(** Where a segment ends. *)
Lemma segment_drop top l bottom :
  segment s top l bottom -> is_Some (entry_at s top) ->
  bottom = 0 \/ is_Some (entry_at s bottom) /\ gown g bottom = gown g top /\ gheight g bottom + Z.of_nat (length l) = gheight g top.
Proof.
  revert top. induction l as [|b l IH]; intros top Hs He; cbn [segment] in Hs.
  { subst bottom. right. split_and!; [done|done|cbn; lia]. }
  destruct Hs as [Hb Hs]. apply get_entry in Hb as (m & Hb). destruct (is_open b) eqn:Ho.
  - rewrite (open_previous b Ho) in Hs. destruct l as [|c l]; [by left|]. destruct Hs as [Hc _]. apply get_entry in Hc as (k & Hc).
    rewrite (zero_entry I) in Hc. discriminate Hc.
  - destruct (inv_previous I _ _ _ Hb Ho) as ((pb & Hp) & Hown & Hh & _).
    destruct (IH (previous b) Hs) as [->|(Hx & Hox & Hhx)]; [by eexists|by left|right]. split_and!; [done|congruence|cbn [length]; lia].
Qed.

(** A segment holds exactly the blocks of the chain above its bottom. *)
Lemma segment_elem top l bottom h b m :
  segment s top l bottom -> is_Some (entry_at s top) -> entry_at s h = Some (b, m) ->
  b ∈ l <-> gown g h = gown g top /\ gheight g h <= gheight g top /\ (bottom = 0 \/ gheight g bottom < gheight g h).
Proof.
  intros Hs Htop Hh. pose proof (ei_hash _ _ _ _ _ _ (inv_entry I _ _ _ Hh)) as Hhash. revert top Hs Htop.
  induction l as [|x l IH]; intros top Hs Htop; pose proof (segment_drop _ _ _ Hs Htop) as Hd; cbn [segment] in Hs.
  { subst bottom. split; [by intros ?%not_elem_of_nil|]. intros (_ & Hle & [->|Hlt]); [|lia].
    rewrite (zero_entry I) in Htop. by destruct Htop. }
  destruct Hs as [Hx Hs]. apply get_entry in Hx as (k & Hx). pose proof (ei_hash _ _ _ _ _ _ (inv_entry I _ _ _ Hx)) as Hxh.
  assert (Hbot : bottom = 0 \/ gheight g bottom < gheight g top) by (destruct Hd as [?|(_ & _ & Hd)]; [by left|right; cbn in Hd; lia]).
  destruct (decide (h = top)) as [->|Hne].
  { rewrite Hh in Hx. injection Hx as <- <-. split; [intros _; by split_and!|]. intros _. by left. }
  assert (Hbx : b <> x) by congruence. rewrite elem_of_cons. destruct (is_open x) eqn:Ho.
  - pose proof (ei_block _ _ _ _ _ _ (inv_entry I _ _ _ Hx)) as Hxi. rewrite (open_previous x Ho) in Hs. destruct l as [|c l].
    + split; [by intros [?|?%not_elem_of_nil]|]. intros (Hown & Hle & _). destruct Hne.
      pose proof (ei_height _ _ _ _ _ _ (inv_entry I _ _ _ Hh)).
      assert (gheight g top = 1) by (destruct x; try discriminate Ho; apply Hxi).
      apply (ci_uniq _ _ _ (iv_chain _ _ _ I)); [by eexists|done|done|lia].
    + destruct Hs as [Hc _]. apply get_entry in Hc as (k' & Hc). rewrite (zero_entry I) in Hc. discriminate Hc.
  - destruct (inv_previous I _ _ _ Hx Ho) as ((pb & Hp) & Hown & Hhp & _).
    rewrite (IH (previous x) Hs) by (by eexists). rewrite Hown. split.
    + intros [?|(Ho' & Hle & Hb)]; [done|]. split_and!; [done|lia|done].
    + intros (Ho' & Hle & Hb). right. split_and!; [done| |done]. assert (gheight g h <> gheight g top); [|lia].
      intros Heq. destruct Hne. apply (ci_uniq _ _ _ (iv_chain _ _ _ I)); [by eexists|done|done|done].
Qed.
End Segments.

(** ** A complete pull *)

Section Complete.
Implicit Types (a : bootstrap_attempt) (c : bulk_pull_client).

Definition plain_block (b : block) : Prop := block_ok b /\ match b with SendV2 _ => False | _ => True end.

Lemma plain_size b : plain_block b -> block_size (block_type_code (type b)) = Some (length (serialize b)).
Proof. intros [_ Hk]. rewrite block_sizes. by destruct b. Qed.

Lemma receive_one fuel b rest c a :
  plain_block b ->
  exists a', receive_blocks (fun _ => false) (fun _ => false) (S fuel) c (serialize_block b ++ rest) a
    = receive_blocks (fun _ => false) (fun _ => false) fuel
        (PullClient (pc_pull c) (if hash b =? expected c then previous b else expected c) (S (pc_blocks c))) rest a'
  /\ received [b] a a'.
Proof.
  intros Hpl. pose proof (plain_size b Hpl) as Hsize. destruct Hpl as [Hok Hk]. destruct (received_block_run b c a) as (a' & Hrun & E). exists a'. split; [|exact E].
  cbn [receive_blocks]. unfold serialize_block. rewrite <- app_assoc.
  rewrite (read_le_app 1) by apply type_code_fits.
  rewrite Hsize, read_app by reflexivity. rewrite <- (app_nil_r (le_split 1 _ ++ _)).
  fold (serialize_block b). rewrite block_read_written by exact Hok. by erewrite st_bind_ok by exact Hrun.
Qed.

Lemma receive_segment {n g t} `{Environment} (J : inv_with n g t) fuel top l bottom c a :
  segment t top l bottom -> Forall plain_block l -> expected c = top -> (length l + 1 <= fuel)%nat ->
  exists c' a', receive_blocks (fun _ => false) (fun _ => false) fuel c (concat (serialize_block <$> l) ++ no_block) a = Ok (c', a')
  /\ expected c' = bottom /\ pc_pull c' = pc_pull c /\ received l a a'.
Proof.
  revert fuel top c a. induction l as [|b l IH]; intros [|fuel] top c a Hs Hl He Hf; cbn [length] in Hf; try lia; cbn [segment] in Hs.
  - cbn [fmap list_fmap concat app]. cbn [receive_blocks]. rewrite <- (app_nil_r no_block). unfold no_block.
    rewrite (read_le_app 1) by (unfold fits; cbn; lia). cbn [block_size block_type_of_code block_type_code].
    change (block_size 1) with (@None nat). cbv beta iota.
    destruct (_ && _).
    + exists c, (pool_connection a). split_and!; [done|congruence|done|]. split; try done. cbn. by rewrite app_nil_r.
    + exists c, a. split_and!; [done|congruence|done|apply received_nil].
  - destruct Hs as [Hb Hs]. apply Forall_cons in Hl as [Hpb Hl]. cbn [fmap list_fmap concat]. rewrite <- app_assoc.
    destruct (receive_one fuel b (concat (serialize_block <$> l) ++ no_block) c a Hpb) as (a1 & -> & E1).
    apply get_entry in Hb as (m & Hb). rewrite (ei_hash _ _ _ _ _ _ (inv_entry J _ _ _ Hb)), He, Z.eqb_refl.
    destruct (IH fuel (previous b) (PullClient (pc_pull c) (previous b) (S (pc_blocks c))) a1 Hs Hl eq_refl ltac:(lia))
      as (c' & a' & -> & Hexp & Hp & E2).
    exists c', a'. split_and!; [done|done|done|by eapply received_cons].
Qed.
End Complete.

(** ** All pulls *)

Section AllPulls.
Context `{Environment} {gb : open_block} {nt : nat} {t : store} {g : ghost}.
Context (T : reachable gb nt t) (Hft : (query_fuel nt <= loop_fuel)%nat) (J : inv_with nt g t).
Implicit Types (a : bootstrap_attempt) (p : pull_info).

(** A pull the other node has an answer to: the head of an account, down to a
    block of that account or to its first block; never down to the genesis block. *)
Definition good_pull p : Prop :=
  exists i, accounts t !! pull_account p = Some i /\ pull_head p = head i
  /\ (pull_end p = 0 /\ pull_account p <> genesis_account
      \/ is_Some (entry_at t (pull_end p)) /\ gown g (pull_end p) = pull_account p).

Lemma segment_not_genesis top l bottom b :
  segment t top l bottom -> is_Some (entry_at t top) ->
  (bottom = 0 /\ gown g top <> genesis_account \/ is_Some (entry_at t bottom)) -> b ∈ l ->
  exists h, block_get t h = Some b /\ ~ is_genesis b.
Proof.
  intros Hs Ht Hb Hin.
  assert (Hh : exists h m, entry_at t h = Some (b, m)).
  { clear Hb Ht. revert top Hs. induction l as [|x l IH]; intros top Hs; [by apply not_elem_of_nil in Hin|]. destruct Hs as [Hx Hs].
    apply elem_of_cons in Hin as [->|Hin]; [|by eapply IH]. apply get_entry in Hx as (m & Hx). eauto. }
  destruct Hh as (h & m & Hh). destruct (proj1 (segment_elem J _ _ _ _ _ _ Hs Ht Hh) Hin) as (Hown & Hle & Hlow).
  exists h. split; [apply get_entry; eauto|]. intros Hg. destruct (genesis_of J _ _ _ Hh Hg) as [Ho H1].
  destruct Hb as [[_ Hne]|[[bb bm] Hbb]]; [congruence|].
  destruct Hlow as [->|Hlow]; [rewrite (zero_entry J) in Hbb; discriminate Hbb|].
  pose proof (ei_height _ _ _ _ _ _ (inv_entry J _ _ _ Hbb)). lia.
Qed.

Lemma segment_plain top l bottom :
  segment t top l bottom -> is_Some (entry_at t top) ->
  (bottom = 0 /\ gown g top <> genesis_account \/ is_Some (entry_at t bottom)) -> Forall plain_block l.
Proof.
  intros Hs Ht Hb. apply Forall_forall. intros b Hin. destruct (segment_not_genesis _ _ _ _ Hs Ht Hb Hin) as (h & Hh & Hng).
  destruct (reachable_admissible _ _ _ T Hft h b Hh Hng) as (Hok & _ & Hk). split; [exact Hok|]. by destruct b.
Qed.

Lemma concat_length l : (length l <= length (concat (serialize_block <$> l)))%nat.
Proof.
  induction l as [|b l IH]; [cbn; lia|]. cbn [fmap list_fmap concat length]. rewrite length_app.
  assert (1 <= length (serialize_block b))%nat by (unfold serialize_block; rewrite length_app, length_le_split; lia). lia.
Qed.

Lemma segment_unique top l l' bottom :
  segment t top l bottom -> segment t top l' bottom -> is_Some (entry_at t top) -> l = l'.
Proof.
  revert top l'. induction l as [|b l IH]; intros top l' Hs Hs' Ht; pose proof (segment_drop J _ _ _ Hs' Ht) as Hd.
  - cbn in Hs. subst bottom. destruct l' as [|b l']; [done|]. destruct Hd as [->|(_ & _ & Hd)]; [|cbn in Hd; lia].
    rewrite (zero_entry J) in Ht. by destruct Ht.
  - pose proof (segment_drop J _ _ _ Hs Ht) as Hd'. destruct Hs as [Hb Hs]. destruct l' as [|b' l'].
    + cbn in Hs'. subst bottom. destruct Hd' as [->|(_ & _ & Hd')]; [|cbn in Hd'; lia].
      rewrite (zero_entry J) in Ht. by destruct Ht.
    + destruct Hs' as [Hb' Hs']. rewrite Hb in Hb'. injection Hb' as <-. f_equal. apply get_entry in Hb as (m & Hb).
      destruct (is_open b) eqn:Ho.
      * rewrite (open_previous b Ho) in Hs, Hs'.
        assert (Hnil : forall k, segment t 0 k bottom -> k = []).
        { intros [|x k]; [done|]. intros [Hx _]. apply get_entry in Hx as (m' & Hx). rewrite (zero_entry J) in Hx. discriminate Hx. }
        by rewrite (Hnil l Hs), (Hnil l' Hs').
      * destruct (inv_previous J _ _ _ Hb Ho) as ((pb & Hp) & _). eapply IH; [exact Hs|exact Hs'|by eexists].
Qed.

Lemma pull_complete fuel p a :
  good_pull p -> (nt + 2 <= fuel)%nat ->
  exists l bytes a', segment t (pull_head p) l (pull_end p) /\ is_Some (entry_at t (pull_head p))
  /\ response_of t fuel (fst (pull_request p)) a = Ok (bytes, a)
  /\ pull_client_run (fun _ => false) (fun _ => false) (S (length bytes)) p bytes a = Ok (tt, set_pulling (fun n => n - 1) a')
  /\ received l a a'.
Proof.
  intros (i & Hi & Hhd & He) Hf. pose proof (inv_head J _ _ Hi) as [_ (hb & Hh) Hown _ _ _ _].
  pose proof (entry_rank J _ _ _ Hh) as Hrank.
  destruct (set_current_end_run Hft J (fst (pull_request p)) i Hi) as [Hrun _]. cbn [pull_request fst bp_start bp_end] in Hrun.
  assert (Hend : (if block_exists t (pull_end p) then pull_end p else 0) = pull_end p).
  { destruct He as [[-> _]|[Hx _]]; [by destruct (block_exists t 0)|]. by rewrite (proj2 (block_exists_true t _) Hx). }
  assert (Hstart : (if (pull_end p =? 0) || (gown g (pull_end p) =? pull_account p) then head i else pull_end p) = head i).
  { destruct He as [[-> _]|[_ ->]]; [done|]. by rewrite Z.eqb_refl, orb_true_r. }
  rewrite Hend, Hstart in Hrun.
  destruct (pull_session_run J fuel (pull_account p) (head i) (pull_end p)) as (l & Hs & _ & Hses); [by eexists| |lia|].
  { destruct He as [[-> _]|[[[eb em] Hx] Ho]]; [by left|right]. split_and!; [by eexists|congruence|].
    destruct (ai_owner _ _ _ _ (iv_accounts _ _ _ J) _ _ _ Hx) as (i' & Hi' & Hle & _). congruence. }
  assert (Hplain : Forall plain_block l).
  { eapply segment_plain; [exact Hs|by eexists|]. destruct He as [[? Hg]|[Hx _]]; [left|by right]. split; [done|congruence]. }
  set (bytes := concat (serialize_block <$> l) ++ no_block) in *. rewrite <- Hhd in Hs.
  destruct (receive_segment J (S (length bytes)) (pull_head p) l (pull_end p) (PullClient p (pull_head p) 0) a Hs Hplain eq_refl)
    as (c' & a' & Hrec & Hexp & Hp & E).
  { unfold bytes. rewrite length_app. pose proof (concat_length l). cbn. lia. }
  exists l, bytes, a'. split_and!; [exact Hs|rewrite Hhd; by eexists| | |exact E].
  - unfold response_of, st_run, bulk_pull_response. cbn [pull_request fst]. erewrite st_bind_ok by exact Hrun. unfold st_run. by rewrite Hses.
  - unfold pull_client_run. cbn [pull_request snd]. erewrite st_bind_ok by exact Hrec. unfold pull_client_end.
    erewrite st_bind_ok by reflexivity. cbn [pc_pull] in Hp. by rewrite Hp, Hexp, Z.eqb_refl.
Qed.

Lemma run_pulls_run fuel a :
  Forall good_pull (pulls a) -> ba_stopped a = false -> pulling a = 0 -> (length (pulls a) + nt + 3 <= fuel)%nat ->
  exists a', run_pulls fuel t a = Ok (tt, a') /\ pulls a' = [] /\ pulling a' = 0
  /\ unsynced_table a' = unsynced_table a
  /\ (forall i, i ∈ added a' <-> i ∈ added a \/ exists p l b, p ∈ pulls a /\ segment t (pull_head p) l (pull_end p) /\ b ∈ l /\ i = Item b false).
Proof.
  revert a. induction fuel as [|fuel IH]; intros a Hg Hst Hz Hf; [lia|]. cbn [run_pulls].
  erewrite st_bind_ok by reflexivity. unfold still_pulling. rewrite Hst, Hz. destruct (pulls a) as [|p ps] eqn:Hps; cbn [negb andb orb].
  { change (0 <? 0) with false. cbv iota. exists a. split_and!; [done|done|done|done|]. intros i. split; [by left|].
    intros [?|(p & l & b & []%not_elem_of_nil & _)]. done. }
  erewrite st_bind_ok by reflexivity. rewrite Hps. unfold request_pull.
  erewrite st_bind_ok; [|erewrite st_bind_ok by reflexivity; rewrite Hps; reflexivity].
  set (a1 := set_pulling _ (set_pulls _ a)). apply Forall_cons in Hg as [Hp Hg]. cbn [length] in Hf.
  destruct (pull_complete (S fuel) p a1 Hp ltac:(lia)) as (l & bytes & a2 & Hs & Htop & Hresp & Hrun & [S1 U1 P1 F1 N1 A1 R1 T1]).
  erewrite st_bind_ok by exact Hresp. erewrite st_bind_ok by exact Hrun.
  assert (Hps2 : pulls (set_pulling (fun n => n - 1) a2) = ps). { cbn. rewrite P1. cbn. by rewrite Hps. }
  destruct (IH (set_pulling (fun n => n - 1) a2)) as (a' & Hgo & He & Hn & Hun & Hadd).
  - by rewrite Hps2.
  - cbn. rewrite T1. exact Hst.
  - cbn. rewrite N1. cbn. rewrite Hz. reflexivity.
  - rewrite Hps2. lia.
  - exists a'. split_and!; [exact Hgo|exact He|exact Hn|rewrite Hun; exact U1|]. intros i. rewrite Hadd, Hps2. cbn [added set_pulling]. rewrite A1. cbn [added a1 set_pulling set_pulls].
    rewrite elem_of_app.
    assert (Hl : i ∈ concat ((fun b => [Item b false; Item b false]) <$> l) <-> exists b, b ∈ l /\ i = Item b false).
    { rewrite list_elem_of_In, in_concat. split.
      - intros (q & Hq & Hin). apply list_elem_of_In in Hq, Hin. apply list_elem_of_fmap in Hq as (b & -> & Hb). exists b. split; [done|].
        rewrite !elem_of_cons in Hin. destruct Hin as [|[|[]%not_elem_of_nil]]; done.
      - intros (b & Hb & ->). exists [Item b false; Item b false]. split; apply list_elem_of_In; [|left]. apply list_elem_of_fmap. eauto. }
    rewrite Hl. split.
    + intros [[?|(b & Hb & ->)]|(q & l' & b & Hq & Hx)]; [by left|right; exists p, l, b|right; exists q, l', b]; split_and!; try done; try apply Hx; [left|by right].
    + intros [?|(q & l' & b & Hq & Hx & Hb & ->)]; [by left; left|]. apply elem_of_cons in Hq as [->|Hq].
      * left. right. exists b. split; [|done]. by rewrite (segment_unique _ _ _ _ Hs Hx Htop).
      * right. exists q, l', b. done.
Qed.
End AllPulls.

(** ** From the genesis block to the ledger *)

Lemma reachable_pos `{Environment} gb n s : reachable gb n s -> (1 <= n)%nat.
Proof. induction 1; lia. Qed.

Section Gets.
Context `{Environment, NodeEnvironment, Network, Iteration, MultimapOrder}.
Context {gb : open_block} {nt : nat} {t s : store} {u : unit}.
Context (T : reachable gb nt t) (Hft : (query_fuel nt <= loop_fuel)%nat).
Context (Hinit : genesis_initialize gb initial_store = Ok (u, s)).

Lemma genesis_only :
  accounts s = {[genesis_account := genesis_info (gb := gb)]} /\ forall x, block_exists s x = true <-> x = hash (Open gb).
Proof.
  clear T Hft. rewrite genesis_initialize_run in Hinit. injection Hinit as _ <-. split; [done|]. intros x.
  rewrite block_exists_true, genesis_entries by exact initial_no_blocks. unfold ext_entries. case_decide as Hx.
  - split; [done|by eexists].
  - rewrite initial_entries. split; [by intros [? [=]]|]. intros ->. by destruct Hx.
Qed.

Context {g : ghost} (J : inv_with nt g t).

Lemma genesis_in_t : exists m, entry_at t (hash (Open gb)) = Some (Open gb, m)
  /\ gown g (hash (Open gb)) = genesis_account /\ gheight g (hash (Open gb)) = 1.
Proof.
  pose proof (reachable_has_genesis gb nt t T Hft) as Hg. apply get_entry in Hg as (m & Hg). exists m. split; [exact Hg|].
  exact (genesis_of J _ _ _ Hg (proj1 (reachable_genesis_ok _ _ _ T))).
Qed.

(** What a node with the genesis block only is told it lacks. *)
Lemma behind_good y p : behind (s := s) (t := t) y p -> good_pull (t := t) (g := g) p.
Proof.
  intros (i & Hi & -> & Hx). exists i. destruct genesis_only as [Ha _]. destruct genesis_in_t as (m & Hg & Hown & _).
  unfold latest, account_get in *. rewrite Ha in *. cbn [pull_info_new pull_account pull_head pull_end]. split_and!; [done|done|].
  destruct (decide (y = genesis_account)) as [->|Hne]; [right|left].
  - rewrite lookup_singleton_eq. cbn [head genesis_info]. split; [by eexists|done].
  - rewrite lookup_singleton_ne by congruence. done.
Qed.

Lemma not_genesis_high h b m :
  entry_at t h = Some (b, m) -> ~ is_genesis b -> gown g h = genesis_account -> 1 < gheight g h.
Proof.
  intros Hh Hng Ho. destruct genesis_in_t as (mg & Hg & Hown & Hg1).
  pose proof (ei_height _ _ _ _ _ _ (inv_entry J _ _ _ Hh)). assert (gheight g h <> 1); [|lia].
  intros Hh1. apply Hng. assert (h = hash (Open gb)) as -> by (apply (ci_uniq _ _ _ (iv_chain _ _ _ J)); [by eexists|by eexists|congruence|congruence]).
  rewrite Hg in Hh. injection Hh as <- <-. exact (proj1 (reachable_genesis_ok _ _ _ T)).
Qed.

(** Every other block is on the way of a pull. *)
Lemma block_pulled h b :
  block_get t h = Some b -> ~ is_genesis b ->
  exists y p, behind (s := s) (t := t) y p /\ forall l, segment t (pull_head p) l (pull_end p) -> b ∈ l.
Proof.
  intros Hb Hng. apply get_entry in Hb as (m & Hb).
  destruct (ai_owner _ _ _ _ (iv_accounts _ _ _ J) _ _ _ Hb) as (i & Hi & Hle & _).
  pose proof (inv_head J _ _ Hi) as [_ (hb & Hh) Hown _ _ _ _].
  destruct genesis_only as [Ha Hex]. destruct genesis_in_t as (mg & Hg & Hgo & Hg1).
  exists (gown g h), (pull_info_new (gown g h) (head i) (latest s (gown g h))). split.
  - exists i. split_and!; [done|done|]. rewrite Ha. destruct (decide (gown g h = genesis_account)) as [Ho|Hne].
    + right. destruct (block_exists s (head i)) eqn:Hx; [|done]. apply Hex in Hx. rewrite Hx in Hle.
      pose proof (not_genesis_high h b m Hb Hng Ho). lia.
    + left. by rewrite lookup_singleton_ne.
  - cbn [pull_info_new pull_head pull_end]. intros l Hs. apply (segment_elem J _ _ _ h b m Hs); [by eexists|done|].
    split_and!; [congruence|done|]. unfold latest, account_get. rewrite Ha.
    destruct (decide (gown g h = genesis_account)) as [Ho|Hne].
    + right. rewrite Ho, lookup_singleton_eq. cbn [head genesis_info]. pose proof (not_genesis_high h b m Hb Hng Ho). lia.
    + left. by rewrite lookup_singleton_ne.
Qed.

Lemma behind_count (P : list pull_info) : NoDup P -> (forall p, p ∈ P <-> exists y, behind (s := s) (t := t) y p) -> (length P <= size (accounts t))%nat.
Proof.
  intros Hnd HP. rewrite <- length_map_to_list.
  rewrite <- (length_fmap (fun x => pull_info_new (fst x) (head (snd x)) (latest s (fst x))) (map_to_list (accounts t))).
  apply submseteq_length, NoDup_submseteq; [exact Hnd|]. intros p (y & i & Hi & -> & _)%HP.
  apply list_elem_of_fmap. exists (y, i). split; [done|]. by apply elem_of_map_to_list.
Qed.

(** The other node has the genesis block. *)
Lemma nothing_to_push wallets x : ~ to_push (s := s) (t := t) wallets x.
Proof.
  intros (y & i & Hy & _ & Hx). destruct genesis_only as [Ha Hex]. destruct genesis_in_t as (m & Hg & Hown & _).
  rewrite Ha in Hy. apply lookup_singleton_Some in Hy as [<- <-].
  destruct (ai_owner _ _ _ _ (iv_accounts _ _ _ J) _ _ _ Hg) as (j & Hj & _). rewrite Hown in Hj. rewrite Hj in Hx.
  destruct Hx as (Hne & Hx & _). apply Hex in Hx. by destruct Hne.
Qed.

Lemma push_nothing {B} fuel a (f : list block -> M bootstrap_attempt B) :
  unsynced_table a = ∅ -> (1 <= fuel)%nat -> st_bind (request_push fuel) f a = f [] a.
Proof.
  intros Hu Hf. destruct fuel as [|fuel]; [lia|]. unfold st_bind, request_push. cbn [push_run]. unfold push, unsynced_begin.
  erewrite st_bind_ok; [|erewrite st_bind_ok by reflexivity; cbn [pu_attempt]; rewrite Hu; reflexivity]. done.
Qed.

Context (Hgen : fits 256 genesis_account) (Hlast : accounts t !! (2 ^ 256 - 1) = None) (Hg1 : genesis_account <> 2 ^ 256 - 1).

(** What the attempt hands to the block processor: all blocks but the first. *)
Lemma bootstrap_run_ok wallets k now fuel a :
  (size (accounts t) + nt + 3 <= fuel)%nat ->
  ba_store a = s -> unsynced_table a = ∅ -> pulls a = [] -> added a = [] -> ba_stopped a = false -> pulling a = 0 ->
  exists a', bootstrap_run wallets k now fuel t a = Ok ([], a') /\ ba_stopped a' = true /\ pulls a' = [] /\ pulling a' = 0
  /\ forall i, i ∈ added a' <-> exists h b, block_get t h = Some b /\ ~ is_genesis b /\ i = Item b false.
Proof.
  intros Hf Ha Hu0 Hps Hadd Hst Hn.
  assert (S1 : reachable gb 1 s) by (econstructor; [exact (reachable_genesis_ok _ _ _ T)|exact Hinit]).
  assert (Hnt : (1 <= nt)%nat) by exact (reachable_pos _ _ _ T).
  assert (Hf1 : (query_fuel 1 <= loop_fuel)%nat) by (unfold query_fuel in *; lia).
  destruct genesis_only as [Hacc _].
  assert (Hl1 : accounts s !! (2 ^ 256 - 1) = None) by (by rewrite Hacc, lookup_singleton_ne).
  assert (Hsz : (size (accounts s) + 2 <= loop_fuel)%nat) by (rewrite Hacc, map_size_singleton; unfold query_fuel in *; lia).
  destruct (exchange_run S1 Hf1 T Hft Hgen Hl1 Hlast Hsz wallets a now fuel Ha ltac:(lia))
    as (f & bytes & c & a1 & E1 & E2 & E3 & E4 & P & [F1 F2 F3 F4 F5 F6 F7] & Hnd & HP).
  assert (Hfr : request_frontier wallets now fuel t a = Ok (false, a1)).
  { unfold request_frontier. erewrite st_bind_ok by exact E3. erewrite st_bind_ok by (unfold st_run; rewrite E1; reflexivity).
    erewrite st_bind_ok by (unfold st_run; rewrite E2; reflexivity). by erewrite st_bind_ok by exact E4. }
  unfold bootstrap_run. erewrite st_bind_ok by exact Hfr. erewrite st_bind_ok by reflexivity. erewrite st_bind_ok by reflexivity.
  set (a2 := set_pulls _ a1).
  assert (Hperm : pulls a2 ≡ₚ P).
  { cbn. eapply Permutation_trans; [apply shuffle_perm|]. by rewrite Hps, app_nil_r in F3. }
  destruct (run_pulls_run T Hft J fuel a2) as (a' & Hrun & He & Hz & Hun & Hin).
  - apply Forall_forall. intros p Hp. apply (perm_in _ _ _ Hperm) in Hp. apply HP in Hp as (y & Hy). by eapply behind_good.
  - cbn. congruence.
  - cbn. congruence.
  - rewrite (Permutation_length Hperm). pose proof (behind_count P Hnd HP). lia.
  - erewrite st_bind_ok by exact Hrun. assert (Hempty : unsynced_table a' = ∅).
    { rewrite Hun. apply map_eq. intros x. rewrite lookup_empty. apply eq_None_not_Some. intros Hx. apply F2 in Hx.
      rewrite Hu0, lookup_empty in Hx. destruct Hx as [[? [=]]|Hx]. exact (nothing_to_push wallets x Hx). }
    rewrite (push_nothing fuel a') by (done || lia). exists (set_stopped a').
    split_and!; [done|done|exact He|exact Hz|]. intros i. cbn [added set_stopped]. rewrite Hin. cbn [a2 set_pulls added]. rewrite F4, Hadd. split.
    + intros [[]%not_elem_of_nil|(p & l & b & Hp & Hs & Hb & ->)].
      apply (perm_in _ _ _ Hperm), HP in Hp as (y & Hy). destruct (behind_good _ _ Hy) as (j & Hj & Hhd & Hend).
      pose proof (inv_head J _ _ Hj) as [_ (hb & Hh) Hown _ _ _ _]. rewrite Hhd in Hs.
      destruct (segment_not_genesis Hft J _ _ _ b Hs) as (h & Hb' & Hng); [by eexists| |done|by exists h, b].
      destruct Hend as [[? ?]|[? _]]; [left|by right]. split; [done|congruence].
    + intros (h & b & Hb & Hng & ->). right. destruct (block_pulled h b Hb Hng) as (y & p & Hy & Hl).
      destruct (behind_good _ _ Hy) as (j & Hj & Hhd & Hend). pose proof (inv_head J _ _ Hj) as [_ (hb & Hh) Hown _ _ _ _].
      destruct (pull_complete T Hft J (nt + 2) p a (behind_good _ _ Hy) ltac:(lia)) as (l & _ & _ & Hs & _).
      exists p, l, b. split_and!; [|exact Hs|by apply Hl|done]. apply (perm_in _ _ _ (Permutation_sym Hperm)), HP. eauto.
Qed.
End Gets.

Section Theorem_.
Context `{Environment, NodeEnvironment, Network, Iteration, MultimapOrder}.

End Theorem_.
