(* ===== verification/BootstrapServe.v ===== *)
(** * Requests are answered in order

    Whatever the order in which reads and writes are completed, a bootstrap
    connection sends the complete answers to the requests that it reads, in their
    order; then it takes the blocks of a push. *)
From Stdlib Require Import ZArith Lia List.
From stdpp Require Import prelude gmap sorting.
From S2P Require Import Prelude Lists Numbers Streams Blocks Store Ledger StoreFacts LedgerInv LedgerQueries LedgerExtend LedgerShrink LedgerProcess LedgerRollback LedgerUndo LedgerUnique LedgerTheorems LedgerSub Votes Work Messages Unchecked Processor Convergence Elections BootstrapServer BootstrapTheorems BootstrapClient BootstrapSync BootstrapTransfer BootstrapConnection.

Local Open Scope m_scope.

(** ** Requests as bytes *)

Section Requests.
Context `{Network}.

Definition request_header (r : request) : message :=
  match r with
  | Pull_request r => bp_header r
  | Blocks_request r => bb_header r
  | Frontier_request r => fr_header r
  | Push_request => message_new mt_bulk_push
  end.

Definition request_body (r : request) : list byte :=
  match r with
  | Pull_request r => write_u256 (bp_start r) ++ write_u256 (bp_end r)
  | Blocks_request r => write_u256 (min_hash r) ++ write_u256 (max_hash r) ++ le_split 1 (mode r) ++ le_split 4 (max_count r)
  | Frontier_request r => write_u256 (fr_start r) ++ le_split 4 (fr_age r) ++ le_split 4 (fr_count r)
  | Push_request => []
  end.

Definition encode_request (r : request) : list byte := write_header (request_header r) ++ request_body r.

(** A request that is answered, with fields in range. *)
Definition ask_ok (r : request) : Prop :=
  match r with
  | Pull_request r => header_of mt_bulk_pull (bp_header r) /\ fits 256 (bp_start r) /\ fits 256 (bp_end r)
  | Blocks_request r => header_of mt_bulk_pull_blocks (bb_header r) /\ fits 256 (min_hash r) /\ fits 256 (max_hash r)
                        /\ fits 8 (mode r) /\ fits 32 (max_count r)
  | Frontier_request r => header_of mt_frontier_req (fr_header r) /\ fits 256 (fr_start r) /\ fits 32 (fr_age r) /\ fits 32 (fr_count r)
  | Push_request => False
  end.

(** The read for the body of a request. *)
Definition reading_of (r : request) : reading :=
  let h := write_header (request_header r) in
  match r with
  | Pull_request _ => Reading_pull h
  | Blocks_request _ => Reading_blocks h
  | Frontier_request _ => Reading_frontier h
  | Push_request => Not_reading
  end.

Lemma length_write_u256 z : length (write_u256 z) = 32%nat.
Proof. apply length_be_split. Qed.

Lemma request_body_size r : ask_ok r -> read_size (reading_of r) = Some (length (request_body r)).
Proof.
  intros Hr. destruct r; cbn [reading_of request_body read_size]; rewrite ?length_app, ?length_write_u256, ?length_le_split; done.
Qed.
End Requests.

Section Serve.
Context `{Environment, Network}.
Context (s : store) (now : Z) (in_progress : bool) (fuel : nat).
Implicit Types (c : bootstrap_server) (r : request) (Q U : list request).

(** ** Answers *)

Fixpoint response_session (k : nat) (x : response) : res (list byte) :=
  match k with
  | O => Fault Out_of_fuel
  | S k =>
      match response_next s x with
      | (sent, None) => Ok sent
      | (sent, Some x) => match response_session k x with Ok rest => Ok (sent ++ rest) | Fault e => Fault e end
      end
  end.

Lemma response_session_pull k p : response_session k (Pull_response p) = pull_session k s p.
Proof. revert p. induction k as [|k IH]; intros p; cbn; [done|]. destruct (pull_send_next s p) as [b [p'|]]; cbn; [by rewrite IH|done]. Qed.
Lemma response_session_blocks k b : response_session k (Blocks_response b) = blocks_session k s b.
Proof. revert b. induction k as [|k IH]; intros b; cbn; [done|]. destruct (blocks_send_next s b) as [x [b'|]]; cbn; [by rewrite IH|done]. Qed.
Lemma response_session_frontier k f : response_session k (Frontier_response f) = frontier_session k s f.
Proof. revert f. induction k as [|k IH]; intros f; cbn; [done|]. destruct (frontier_send_next s f) as [x [f'|]]; cbn; [by rewrite IH|done]. Qed.

(** The answer to a request. *)
Definition answer (r : request) : res (list byte) :=
  match r with
  | Pull_request r => match bulk_pull_response fuel r s with Ok (bytes, _) => Ok bytes | Fault f => Fault f end
  | Blocks_request r => blocks_session fuel s (bulk_pull_blocks_server_new s r)
  | Frontier_request r => match frontier_req_server_new fuel s now r with Ok f => frontier_session fuel s f | Fault f => Fault f end
  | Push_request => Ok []
  end.

Definition answer_bytes (r : request) : list byte := match answer r with Ok bytes => bytes | Fault _ => [] end.

(** What is read is answered: its answer is complete within [fuel] writes. *)
Definition answered (r : request) : Prop := ask_ok r /\ exists bytes, answer r = Ok bytes.

Lemma ledger_account_reads h t a t' : ledger_account h t = Ok (a, t') -> t' = t.
Proof.
  unfold ledger_account, st_bind, st_get, st_assert, st_run, st_ret, st_fault. destruct (block_exists t h); [|done].
  destruct (account_loop _ _ _ _) as [x|]; [|done]. destruct (negb _); [|done]. by intros [= _ <-].
Qed.

Lemma set_current_end_reads (r : bulk_pull) t p t' : set_current_end r t = Ok (p, t') -> t' = t.
Proof.
  unfold set_current_end, st_bind, st_get, st_ret. destruct (account_get t (bp_start r)) as [i|]; [|by intros [= _ <-]].
  destruct (negb (is_zero _)); [|by intros [= _ <-]].
  destruct (ledger_account _ t) as [[a t1]|] eqn:Ha; [|done]. apply ledger_account_reads in Ha as ->.
  destruct (a =? bp_start r); by intros [= _ <-].
Qed.

Lemma answered_starts r : answered r ->
  exists x, response_new s now fuel r = Ok (Some x) /\ response_session fuel x = Ok (answer_bytes r).
Proof.
  unfold answered, answer_bytes. intros [Ha [bytes Ho]]. destruct r as [r|r|r|]; cbn [answer response_new] in *; [| | |destruct Ha].
  - unfold bulk_pull_response, st_bind in *. destruct (set_current_end r s) as [[p s']|] eqn:He; [|discriminate Ho].
    pose proof (set_current_end_reads r s p s' He) as ->. unfold st_run in *.
    exists (Pull_response p). split; [done|]. rewrite response_session_pull. by destruct (pull_session fuel s p).
  - exists (Blocks_response (bulk_pull_blocks_server_new s r)). split; [done|]. rewrite response_session_blocks. by rewrite Ho.
  - destruct (frontier_req_server_new fuel s now r) as [f|]; [|discriminate Ho]. exists (Frontier_response f). split; [done|].
    rewrite response_session_frontier. by rewrite Ho.
Qed.

(** ** Writing *)

(** [rest] is still to be written after the write [w], in less than [k] writes. *)
Definition writes (w : writing) (rest : list byte) (k : nat) : Prop :=
  match w with
  | Not_writing => False
  | Writing_more x => exists j, k = S j /\ response_session j x = Ok rest
  | Writing_end => rest = [] /\ k = 1%nat
  end.

Lemma send_next_run j x rest c :
  response_session j x = Ok rest ->
  exists bytes w rest' k, send_next s x c = Ok (tt, write_bytes_to bytes w c)
  /\ writes w rest' k /\ bytes ++ rest' = rest /\ (k <= j)%nat.
Proof.
  destruct j as [|j]; [done|]. cbn [response_session]. unfold send_next. destruct (response_next s x) as [bytes [x'|]].
  - destruct (response_session j x') as [rest'|] eqn:Hr; [|done]. intros [= <-].
    exists bytes, (Writing_more x'), rest', (S j). split_and!; [done|by exists j|done|done].
  - intros [= <-]. exists bytes, Writing_end, [], 1%nat. split_and!; [done|done|by rewrite app_nil_r|lia].
Qed.

Lemma run_next_ask r q c :
  answered r -> requests c = Some r :: q ->
  exists bytes w rest k, run_next s now fuel c = Ok (tt, write_bytes_to bytes w (set_requests (fun _ => None :: q) c))
  /\ writes w rest k /\ bytes ++ rest = answer_bytes r /\ (k <= fuel)%nat.
Proof.
  intros Ha Hq. destruct (answered_starts r Ha) as (x & Hx & Hs). unfold run_next.
  erewrite st_bind_ok by reflexivity. rewrite Hq. erewrite st_bind_ok by (unfold st_run; rewrite Hx; reflexivity).
  cbv beta iota. erewrite st_bind_ok by reflexivity. by apply send_next_run.
Qed.

(** The requests that are answered, all of them, and the state of the answers:
    [Q] wait in the queue, [U] were not read yet, [P] is a push that was. *)
Context (all : list request) (Hall : Forall answered all).

Definition answers (l : list request) : list byte := concat (answer_bytes <$> l).

Record answering (P : list (option request)) Q U (k : nat) c : Prop := {
  an_known : Forall answered (Q ++ U);
  an_state :
    (sv_writing c = Not_writing /\ Q = [] /\ P = [] /\ requests c = [] /\ k = 0%nat /\ sv_sent c ++ answers U = answers all)
    \/ exists rest, writes (sv_writing c) rest k /\ requests c = None :: (Some <$> Q) ++ P
       /\ sv_sent c ++ rest ++ answers Q ++ answers U = answers all
}.

(** What the answers leave alone. *)
Definition same_reading c c' : Prop :=
  sv_input c' = sv_input c /\ sv_reading c' = sv_reading c /\ sv_processed c' = sv_processed c.

(** A request was read. *)
Lemma add_request_run Q r U k c :
  answering [] Q (r :: U) k c ->
  exists c' Q' k', add_request s now fuel r c = Ok (tt, c') /\ answering [] Q' U k' c' /\ same_reading c c'
  /\ (k' + (fuel + 2) * length Q' <= k + (fuel + 2) * S (length Q))%nat.
Proof.
  intros [Hk Hs]. unfold add_request. erewrite st_bind_ok by reflexivity. erewrite st_bind_ok by reflexivity.
  assert (Hr : answered r) by (rewrite Forall_app, Forall_cons in Hk; tauto).
  destruct Hs as [(Hw & -> & _ & Hq & -> & Hsent)|(rest & Hwr & Hq & Hsent)].
  - rewrite bool_decide_eq_true_2 by done.
    destruct (run_next_ask r [] (set_requests (fun q => q ++ [Some r]) c) Hr) as (bytes & w & rest & k & Hrun & Hwr & Hb & Hle);
      [cbn; by rewrite Hq|].
    exists (write_bytes_to bytes w (set_requests (fun _ => [None]) (set_requests (fun q => q ++ [Some r]) c))), [], k.
    split_and!; [exact Hrun| |done|cbn [length]; lia]. split; [by apply Forall_cons in Hk as [_ Hk]|].
    right. exists rest. split_and!; [done|done|]. cbn [write_bytes_to sv_sent set_requests]. rewrite <- Hsent. unfold answers. cbn.
    rewrite <- !app_assoc. f_equal. rewrite app_assoc. by rewrite Hb.
  - rewrite bool_decide_eq_false_2 by (by rewrite Hq).
    eexists _, (Q ++ [r]), k. split_and!; [reflexivity| |done|rewrite length_app; cbn [length]; lia].
    split; [by rewrite <- app_assoc|]. right. exists rest. split_and!; [done| |].
    + cbn. rewrite Hq, app_nil_r, fmap_app. cbn. by rewrite app_nil_r.
    + cbn. rewrite <- Hsent. unfold answers. rewrite fmap_app, concat_app. cbn. by rewrite app_nil_r, <- !app_assoc.
Qed.

(** A write is complete: either the answers go on, or a push begins. *)
Lemma write_complete_run P Q U k c :
  answering P Q U k c -> sv_writing c <> Not_writing -> P = [] \/ P = [Some Push_request] /\ U = [] ->
  exists c', write_complete s now fuel c = Ok (tt, c')
  /\ ((exists Q' k', answering P Q' U k' c' /\ same_reading c c'
        /\ (k' + (fuel + 2) * length Q' < k + (fuel + 2) * length Q)%nat)
      \/ (P = [Some Push_request] /\ sv_sent c' = answers all /\ requests c' = P /\ sv_writing c' = Not_writing
          /\ sv_reading c' = Reading_type /\ sv_input c' = sv_input c /\ sv_processed c' = sv_processed c /\ (0 < k)%nat)).
Proof.
  intros [Hk Hs] Hne HP. destruct Hs as [(Hw & _)|(rest & Hwr & Hq & Hsent)]; [done|].
  unfold write_complete. erewrite st_bind_ok by reflexivity. destruct (sv_writing c) as [|x|] eqn:Hw; [destruct Hwr| |].
  - destruct Hwr as (j & -> & Hj). destruct (send_next_run j x rest c Hj) as (bytes & w & rest' & k & Hrun & Hwr & Hb & Hle).
    eexists. split; [exact Hrun|]. left. exists Q, k. split_and!; [|done|lia]. split; [done|]. right. exists rest'.
    split_and!; [done|done|]. cbn. rewrite <- Hsent, <- Hb. by rewrite <- !app_assoc.
  - destruct Hwr as [-> ->]. erewrite st_bind_ok by reflexivity. unfold finish_request. erewrite st_bind_ok by reflexivity.
    erewrite st_bind_ok by reflexivity. cbn [requests set_requests set_writing tail]. rewrite Hq. cbn [tail].
    set (c1 := set_requests _ _). assert (Hq1 : requests c1 = (Some <$> Q) ++ P) by (cbn; by rewrite Hq).
    cbn [app] in Hsent. destruct Q as [|r Q].
    + destruct HP as [->|[-> ->]].
      * rewrite bool_decide_eq_true_2 by done. cbn [negb]. exists c1. split; [done|]. left. exists [], 0%nat.
        split_and!; [|done|cbn; lia]. split; [done|]. left. by split_and!.
      * rewrite bool_decide_eq_false_2 by done. cbn [negb]. exists (set_reading Reading_type c1). split.
        -- unfold run_next. erewrite st_bind_ok by reflexivity. rewrite Hq1. reflexivity.
        -- right. split_and!; try done; [|lia]. cbn. by rewrite app_nil_r in Hsent.
    + rewrite bool_decide_eq_false_2 by done. cbn [negb]. apply Forall_cons in Hk as [Hr Hk].
      destruct (run_next_ask r (fmap (M := list) Some Q ++ P) c1 Hr Hq1) as (bytes & w & rest & k & Hrun & Hwr & Hb & Hle).
      eexists. split; [exact Hrun|]. left. exists Q, k. split_and!; [|done|cbn [length]; lia]. split; [done|]. right.
      exists rest. split_and!; [done|done|]. cbn. rewrite <- Hsent. unfold answers. cbn. rewrite <- Hb. by rewrite <- !app_assoc.
Qed.

(** ** Reading *)

(** What comes in after the requests: nothing, or a push of some blocks. *)
Context (given : option (list block)) (junk : list byte).
Context (Hgiven : forall l, given = Some l -> Forall plain_block l).

Definition push_bytes (l : list block) : list byte := concat (serialize_block <$> l) ++ no_block ++ junk.
Definition given_bytes : list byte :=
  match given with None => [] | Some l => encode_request Push_request ++ push_bytes l end.
Definition unread U : list byte := concat (encode_request <$> U) ++ given_bytes.
Definition taken (l : list block) : list block := if in_progress then [] else l.

Record pushing_state (l : list block) (r : reading) (input : list byte) c : Prop := {
  ps_requests : requests c = [Some Push_request];
  ps_writing : sv_writing c = Not_writing;
  ps_sent : sv_sent c = answers all;
  ps_reading : sv_reading c = r;
  ps_input : sv_input c = input;
  ps_processed : sv_processed c = taken l
}.

Inductive serving : bootstrap_server -> nat -> Prop :=
| Sv_header Q U k c :
    answering [] Q U k c -> sv_reading c = Reading_header -> sv_input c = unread U -> sv_processed c = [] ->
    serving c (k + (fuel + 2) * (length Q + length U) + length (sv_input c))
| Sv_body Q r U k c :
    answering [] Q (r :: U) k c -> sv_reading c = reading_of r -> sv_input c = request_body r ++ unread U -> sv_processed c = [] ->
    serving c (k + (fuel + 2) * (length Q + S (length U)) + length (sv_input c))
| Sv_wait Q k l c :
    given = Some l -> answering [Some Push_request] Q [] k c -> sv_reading c = Not_reading -> sv_input c = push_bytes l ->
    sv_processed c = [] -> serving c (k + (fuel + 2) * length Q + length (sv_input c))
| Sv_type l1 l2 c :
    given = Some (l1 ++ l2) -> pushing_state l1 Reading_type (push_bytes l2) c -> serving c (length (sv_input c))
| Sv_block l1 b l2 c :
    given = Some (l1 ++ b :: l2) ->
    pushing_state l1 (Reading_block (block_type_code (type b)) (length (serialize b))) (serialize b ++ push_bytes l2) c ->
    serving c (length (sv_input c))
| Sv_done l c :
    given = Some l -> requests c = [] -> sv_writing c = Not_writing -> sv_sent c = answers all -> sv_reading c = Not_reading ->
    sv_processed c = taken l -> serving c (length (sv_input c)).

(** A read whose bytes are there. *)
Lemma read_complete_run c n bytes rest :
  read_size (sv_reading c) = Some n -> sv_input c = bytes ++ rest -> length bytes = n ->
  read_complete s now in_progress fuel c
  = match sv_reading c with
    | Not_reading => st_ret tt
    | Reading_header => receive_header_action s now fuel bytes
    | Reading_pull h => receive_bulk_pull_action s now fuel (h ++ bytes)
    | Reading_blocks h => receive_bulk_pull_blocks_action s now fuel (h ++ bytes)
    | Reading_frontier h => receive_frontier_req_action s now fuel (h ++ bytes)
    | Reading_type => push_received_type s now fuel (le_combine bytes)
    | Reading_block type_a _ => push_received_block in_progress type_a bytes
    end (set_reading Not_reading (set_input rest c)).
Proof.
  intros Hn Hi Hl. unfold read_complete. erewrite st_bind_ok by reflexivity. erewrite st_bind_ok by reflexivity.
  rewrite Hn, Hi, length_app. destruct (Nat.leb_spec n (length bytes + length rest)); [|lia].
  rewrite <- Hl, take_app_length, drop_app_length. erewrite st_bind_ok by reflexivity. done.
Qed.

Lemma read_header_ask r rest : ask_ok r ->
  read_header (write_header (request_header r) ++ rest) = Got (request_header r) rest
  /\ m_type (request_header r) = message_type_code (match r with Pull_request _ => mt_bulk_pull | Blocks_request _ => mt_bulk_pull_blocks
       | Frontier_request _ => mt_frontier_req | Push_request => mt_bulk_push end).
Proof. intros Hr. destruct r; try destruct Hr as [[Hm Ht] Hr]; [..|destruct Hr]; (split; [by apply read_header_written|exact Ht]). Qed.

(** The header of a request was read. *)
Lemma header_read_ask r c : ask_ok r ->
  receive_header_action s now fuel (write_header (request_header r)) c = Ok (tt, set_reading (reading_of r) c).
Proof.
  intros Hr. destruct (read_header_ask r [] Hr) as [Hh Ht]. rewrite app_nil_r in Hh.
  unfold receive_header_action. rewrite Hh, Ht. destruct r; [reflexivity..|destruct Hr].
Qed.

(** The body of a request was read. *)
Lemma body_read_ask r c : ask_ok r ->
  match reading_of r with
  | Reading_pull h => receive_bulk_pull_action s now fuel (h ++ request_body r)
  | Reading_blocks h => receive_bulk_pull_blocks_action s now fuel (h ++ request_body r)
  | Reading_frontier h => receive_frontier_req_action s now fuel (h ++ request_body r)
  | _ => st_ret tt
  end c = (add_request s now fuel r ;;; st_put (set_reading Reading_header)) c.
Proof.
  intros Hr. destruct (bootstrap_messages_exact (encode_request r) []) as (H1 & H2 & H3 & _).
  destruct r as [r|r|r|]; [..|destruct Hr]; cbn [reading_of];
    unfold receive_bulk_pull_action, receive_bulk_pull_blocks_action, receive_frontier_req_action, receive_request_action.
  - unfold encode_request in H2. rewrite (proj2 (H2 r)); [done|]. split; [by rewrite app_nil_r|exact Hr].
  - unfold encode_request in H3. rewrite (proj2 (H3 r)); [done|]. split; [by rewrite app_nil_r|exact Hr].
  - unfold encode_request in H1. rewrite (proj2 (H1 r)); [done|]. split; [by rewrite app_nil_r|exact Hr].
Qed.

(** Nothing is under way. *)
Definition resting c : Prop :=
  sv_writing c = Not_writing /\ (sv_reading c = Not_reading \/ sv_reading c = Reading_header /\ sv_input c = []).

Definition reads_on c (m : nat) : Prop :=
  exists c' m', read_complete s now in_progress fuel c = Ok (tt, c') /\ serving c' m'
  /\ ((m' < m)%nat \/ c' = c /\ m' = m /\ (sv_writing c <> Not_writing \/ resting c)).

Lemma not_read c : sv_reading c = Not_reading -> read_complete s now in_progress fuel c = Ok (tt, c).
Proof. intros Hr. unfold read_complete. erewrite st_bind_ok by reflexivity. erewrite st_bind_ok by reflexivity. by rewrite Hr. Qed.

Lemma reads_push_header Q k c l :
  given = Some l -> answering [] Q [] k c -> sv_reading c = Reading_header -> sv_input c = encode_request Push_request ++ push_bytes l ->
  sv_processed c = [] -> reads_on c (k + (fuel + 2) * (length Q + 0) + length (sv_input c)).
Proof.
  intros Hl A Hr Hi Hp. unfold encode_request in Hi. cbn [request_body request_header] in Hi. rewrite app_nil_r in Hi.
  assert (Hrun : read_complete s now in_progress fuel c = add_request s now fuel Push_request (set_reading Not_reading (set_input (push_bytes l) c))).
  { rewrite (read_complete_run c 8 _ _ ltac:(by rewrite Hr) Hi (length_write_header _)), Hr. unfold receive_header_action.
    rewrite <- (app_nil_r (write_header _)), read_header_written by (unfold message_ok, message_new, fits; cbn; lia). reflexivity. }
  set (c1 := set_reading Not_reading (set_input (push_bytes l) c)) in *.
  assert (Hlen : length (sv_input c) = (8 + length (push_bytes l))%nat) by (by rewrite Hi, length_app, length_write_header).
  destruct A as [Hk Hs]. unfold reads_on. rewrite Hrun. unfold add_request. erewrite st_bind_ok by reflexivity. erewrite st_bind_ok by reflexivity.
  destruct Hs as [(Hw & -> & _ & Hq & -> & Hsent)|(rest & Hwr & Hq & Hsent)].
  - rewrite bool_decide_eq_true_2 by done. eexists _, _. split; [|split].
    + unfold run_next. erewrite st_bind_ok by reflexivity. cbn [requests set_requests]. change (requests c1) with (requests c).
      rewrite Hq. cbn [app]. reflexivity.
    + apply (Sv_type [] l); [done|]. split; try done; [cbn; by rewrite Hq| |].
      * cbn. unfold answers in *. cbn in Hsent. by rewrite app_nil_r in Hsent.
      * cbn. rewrite Hp. unfold taken. by destruct in_progress.
    + left. cbn. lia.
  - rewrite bool_decide_eq_false_2 by (cbn; by rewrite Hq). eexists _, _. split; [reflexivity|split].
    + apply (Sv_wait Q k l); [done| |done|done|done]. split; [done|]. right. exists rest. split_and!; [done| |done].
      cbn. rewrite Hq, app_nil_r. done.
    + left. cbn. lia.
Qed.

Lemma reads_header Q U k c :
  answering [] Q U k c -> sv_reading c = Reading_header -> sv_input c = unread U -> sv_processed c = [] ->
  reads_on c (k + (fuel + 2) * (length Q + length U) + length (sv_input c)).
Proof.
  intros A Hr Hi Hp. destruct U as [|r U].
  - unfold unread, given_bytes in Hi. cbn in Hi. destruct given as [l|] eqn:Hl; [by apply (reads_push_header Q k c l)|].
    exists c, (k + (fuel + 2) * (length Q + 0) + length (sv_input c))%nat. split_and!.
    + unfold read_complete. erewrite st_bind_ok by reflexivity. erewrite st_bind_ok by reflexivity. by rewrite Hr, Hi.
    + apply (Sv_header Q []); [done|done| |done]. unfold unread, given_bytes. by rewrite Hl.
    + right. split_and!; [done|done|]. destruct (sv_writing c) eqn:Hw; [right|left; done..]. split; [done|]. by right.
  - assert (Hok : answered r) by (pose proof (an_known _ _ _ _ _ A) as Hk; rewrite Forall_app, Forall_cons in Hk; tauto).
    assert (Hi' : sv_input c = write_header (request_header r) ++ request_body r ++ unread U).
    { rewrite Hi. unfold unread. cbn [fmap list_fmap concat]. unfold encode_request at 1. by rewrite <- !app_assoc. }
    eexists _, _. split; [|split].
    + rewrite (read_complete_run c 8 _ _ ltac:(by rewrite Hr) Hi' (length_write_header _)), Hr. by apply header_read_ask, Hok.
    + apply (Sv_body Q r U k); [|done..]. destruct A as [Hk Hs]. split; [exact Hk|exact Hs].
    + left. cbn [sv_input set_reading set_input]. rewrite Hi'. rewrite !length_app, length_write_header. cbn [length]. lia.
Qed.

Lemma reads_body Q r U k c :
  answering [] Q (r :: U) k c -> sv_reading c = reading_of r -> sv_input c = request_body r ++ unread U -> sv_processed c = [] ->
  reads_on c (k + (fuel + 2) * (length Q + S (length U)) + length (sv_input c)).
Proof.
  intros A Hr Hi Hp.
  assert (Hok : answered r) by (pose proof (an_known _ _ _ _ _ A) as Hk; rewrite Forall_app, Forall_cons in Hk; tauto).
  pose proof (request_body_size r (proj1 Hok)) as Hsize. rewrite <- Hr in Hsize.
  set (c1 := set_reading Not_reading (set_input (unread U) c)).
  assert (A1 : answering [] Q (r :: U) k c1) by (destruct A as [Hk Hs]; split; [exact Hk|exact Hs]).
  destruct (add_request_run Q r U k c1 A1) as (c2 & Q' & k' & Hadd & A2 & (Hi2 & _ & Hp2) & Hm).
  exists (set_reading Reading_header c2). eexists. split; [|split].
  - rewrite (read_complete_run c _ _ _ Hsize Hi eq_refl), Hr. fold c1. pose proof (body_read_ask r c1 (proj1 Hok)) as Hb.
    assert (Hgo : (add_request s now fuel r ;;; st_put (set_reading Reading_header)) c1 = Ok (tt, set_reading Reading_header c2))
      by (by erewrite st_bind_ok by exact Hadd).
    rewrite <- Hgo, <- Hb. destruct r; [reflexivity..|destruct Hok as [[] _]].
  - apply (Sv_header Q' U k'); [|done|exact Hi2|cbn; by rewrite Hp2]. destruct A2 as [Hk Hs]. split; [exact Hk|exact Hs].
  - left. cbn [sv_input set_reading]. rewrite Hi2. cbn [sv_input c1 set_reading set_input]. rewrite Hi, length_app.
    assert (1 <= length (request_body r))%nat; [|lia].
    destruct r; [cbn [request_body]; rewrite ?length_app, ?length_write_u256; lia..|destruct Hok as [[] _]].
Qed.

Lemma taken_snoc l b : taken (l ++ [b]) = taken l ++ taken [b].
Proof. unfold taken. by destruct in_progress. Qed.

Lemma reads_type l1 l2 c :
  given = Some (l1 ++ l2) -> pushing_state l1 Reading_type (push_bytes l2) c -> reads_on c (length (sv_input c)).
Proof.
  intros Hl [Hq Hw Hs Hr Hi Hp]. destruct l2 as [|b l2].
  - unfold push_bytes in Hi. cbn in Hi. eexists _, _. split; [|split].
    + rewrite (read_complete_run c 1 no_block junk ltac:(by rewrite Hr) Hi eq_refl), Hr. unfold push_received_type.
      change (le_combine no_block) with (block_type_code not_a_block). change (block_size (block_type_code not_a_block)) with (@None nat).
      cbv iota. rewrite Z.eqb_refl. unfold finish_request. erewrite st_bind_ok by reflexivity. erewrite st_bind_ok by reflexivity.
      cbn [requests set_requests set_reading set_input]. rewrite Hq. reflexivity.
    + apply (Sv_done (l1 ++ [])); [done|cbn; by rewrite Hq|done|done|done|]. cbn. by rewrite app_nil_r.
    + left. cbn [sv_input set_reading set_requests set_input]. rewrite Hi, length_app. change (length no_block) with 1%nat. lia.
  - assert (Hi' : sv_input c = le_split 1 (block_type_code (type b)) ++ serialize b ++ push_bytes l2).
    { rewrite Hi. unfold push_bytes. cbn [fmap list_fmap concat]. unfold serialize_block at 1. by rewrite <- !app_assoc. }
    assert (Hpl : plain_block b) by (pose proof (Hgiven _ Hl) as Hg; rewrite Forall_app, Forall_cons in Hg; tauto).
    eexists _, _. split; [|split].
    + rewrite (read_complete_run c 1 _ _ ltac:(by rewrite Hr) Hi' (length_le_split _ _)), Hr. unfold push_received_type.
      assert (Hc : le_combine (le_split 1 (block_type_code (type b))) = block_type_code (type b)) by (by destruct b).
      rewrite Hc, plain_size by done. reflexivity.
    + apply (Sv_block l1 b l2); [done|]. split; done.
    + left. cbn [sv_input set_reading set_input]. rewrite Hi', (length_app (le_split _ _)), length_le_split. lia.
Qed.

Lemma reads_block l1 b l2 c :
  given = Some (l1 ++ b :: l2) ->
  pushing_state l1 (Reading_block (block_type_code (type b)) (length (serialize b))) (serialize b ++ push_bytes l2) c ->
  reads_on c (length (sv_input c)).
Proof.
  intros Hl [Hq Hw Hs Hr Hi Hp].
  assert (Hpl : plain_block b) by (pose proof (Hgiven _ Hl) as Hg; rewrite Forall_app, Forall_cons in Hg; tauto).
  assert (Hpos : (1 <= length (serialize b))%nat) by (rewrite block_sizes; destruct b, Hpl; cbn; (lia || done)).
  exists (set_reading Reading_type (if in_progress then set_reading Not_reading (set_input (push_bytes l2) c)
    else process_block b (set_reading Not_reading (set_input (push_bytes l2) c)))). eexists. split; [|split].
  - rewrite (read_complete_run c _ _ _ ltac:(by rewrite Hr) Hi eq_refl), Hr. unfold push_received_block.
    fold (serialize_block b). rewrite <- (app_nil_r (serialize_block b)), block_read_written by apply Hpl. by destruct in_progress.
  - apply (Sv_type (l1 ++ [b]) l2); [by rewrite <- app_assoc|].
    split; try (by destruct in_progress). rewrite taken_snoc, <- Hp. unfold taken. destruct in_progress; cbn; [by rewrite app_nil_r|done].
  - left. rewrite Hi, length_app. destruct in_progress; cbn; lia.
Qed.

Lemma serving_reads c m : serving c m -> reads_on c m.
Proof.
  destruct 1 as [Q U k c A Hr Hi Hp|Q r U k c A Hr Hi Hp|Q k l c Hl A Hr Hi Hp|l1 l2 c Hl Hs|l1 b l2 c Hl Hs|l c Hl Hq Hw Hs Hr Hp].
  - by apply reads_header.
  - by eapply reads_body.
  - exists c. eexists. split_and!; [by apply not_read|by apply (Sv_wait Q k l)|]. right. split_and!; [done|done|left].
    intros Hn. destruct (an_state _ _ _ _ _ A) as [(_ & _ & [=] & _)|(rest & Hwr & _)]. by rewrite Hn in Hwr.
  - by eapply reads_type.
  - by eapply reads_block.
  - exists c. eexists. split_and!; [by apply not_read|by apply (Sv_done l)|]. right. split_and!; [done|done|right]. split; [done|by left].
Qed.

Lemma serving_writes c m : serving c m ->
  exists c' m', write_complete s now fuel c = Ok (tt, c') /\ serving c' m' /\ ((m' < m)%nat \/ c' = c /\ m' = m /\ sv_writing c = Not_writing).
Proof.
  intros Hsv. assert (Hd : sv_writing c = Not_writing \/ sv_writing c <> Not_writing) by (destruct (sv_writing c); auto).
  destruct Hd as [Hw|Hw].
  { exists c, m. split_and!; [|done|by right]. unfold write_complete. erewrite st_bind_ok by reflexivity. by rewrite Hw. }
  destruct Hsv as [Q U k c A Hr Hi Hp|Q r U k c A Hr Hi Hp|Q k l c Hl A Hr Hi Hp|l1 l2 c Hl []|l1 b l2 c Hl []|l c Hl Hq Hw' Hs Hr Hp]; try done.
  - destruct (write_complete_run [] Q U k c A Hw ltac:(by left)) as (c' & Hrun & [(Q' & k' & A' & (Hi' & Hr' & Hp') & Hm)|([=] & _)]).
    exists c'. eexists. split_and!; [exact Hrun|apply (Sv_header Q' U k'); [done|congruence..]|]. rewrite Hi'. left. lia.
  - destruct (write_complete_run [] Q (r :: U) k c A Hw ltac:(by left)) as (c' & Hrun & [(Q' & k' & A' & (Hi' & Hr' & Hp') & Hm)|([=] & _)]).
    exists c'. eexists. split_and!; [exact Hrun|apply (Sv_body Q' r U k'); [done|congruence..]|]. rewrite Hi'. left. lia.
  - destruct (write_complete_run [Some Push_request] Q [] k c A Hw ltac:(by right))
      as (c' & Hrun & [(Q' & k' & A' & (Hi' & Hr' & Hp') & Hm)|(_ & Hs' & Hq' & Hw' & Hr' & Hi' & Hp' & Hk)]).
    + exists c'. eexists. split_and!; [exact Hrun|apply (Sv_wait Q' k' l); [done|done|congruence..]|]. rewrite Hi'. left. lia.
    + exists c'. eexists. split_and!; [exact Hrun|apply (Sv_type [] l); [done|]|rewrite Hi'; left; lia].
      split; [done|done|done|done|congruence|]. rewrite Hp', Hp. unfold taken. by destruct in_progress.
Qed.

(** ** Runs *)

Lemma resting_stays c es : resting c -> socket_run s now in_progress fuel es c = Ok (tt, c).
Proof.
  intros [Hw Hr]. induction es as [|e es IH]; [done|]. cbn [socket_run].
  assert (He : socket_step s now in_progress fuel e c = Ok (tt, c)); [|by erewrite st_bind_ok by exact He].
  destruct e; cbn [socket_step].
  - destruct Hr as [Hr|[Hr Hi]]; [by apply not_read|]. unfold read_complete. erewrite st_bind_ok by reflexivity.
    erewrite st_bind_ok by reflexivity. by rewrite Hr, Hi.
  - unfold write_complete. erewrite st_bind_ok by reflexivity. by rewrite Hw.
Qed.

Lemma serving_run c m es : serving c m -> exists c' m', socket_run s now in_progress fuel es c = Ok (tt, c') /\ serving c' m' /\ (m' <= m)%nat.
Proof.
  revert c m. induction es as [|e es IH]; intros c m Hs; [by exists c, m|]. cbn [socket_run].
  assert (He : exists c' m', socket_step s now in_progress fuel e c = Ok (tt, c') /\ serving c' m' /\ (m' <= m)%nat).
  { destruct e; [destruct (serving_reads c m Hs) as (c' & m' & Hrun & Hs' & Hm)|destruct (serving_writes c m Hs) as (c' & m' & Hrun & Hs' & Hm)];
      exists c', m'; (split_and!; [done|done|lia]). }
  destruct He as (c1 & m1 & He & Hs1 & Hm1). destruct (IH c1 m1 Hs1) as (c2 & m2 & Hrun & Hs2 & Hm2).
  exists c2, m2. split_and!; [by erewrite st_bind_ok by exact He|done|lia].
Qed.

Definition rounds (k : nat) : list socket_event := concat (replicate k [Received; Written]).

Lemma socket_run_app es es' c :
  socket_run s now in_progress fuel (es ++ es') c
  = match socket_run s now in_progress fuel es c with Ok (_, c) => socket_run s now in_progress fuel es' c | Fault f => Fault f end.
Proof.
  revert c. induction es as [|e es IH]; intros c; cbn; [done|]. unfold st_bind. destruct (socket_step _ _ _ _ _ _) as [[[] c']|]; [apply IH|done].
Qed.

Lemma rounds_rest k c m : serving c m -> (m < k)%nat -> exists c' m', socket_run s now in_progress fuel (rounds k) c = Ok (tt, c') /\ serving c' m' /\ resting c'.
Proof.
  revert c m. induction k as [|k IH]; intros c m Hs Hk; [lia|].
  destruct (serving_reads c m Hs) as (c1 & m1 & Hread & Hs1 & Hm1). destruct (serving_writes c1 m1 Hs1) as (c2 & m2 & Hwrite & Hs2 & Hm2).
  assert (Hround : socket_run s now in_progress fuel (rounds (S k)) c = socket_run s now in_progress fuel (rounds k) c2).
  { unfold rounds. cbn [replicate concat]. rewrite socket_run_app. cbn [socket_run socket_step]. erewrite st_bind_ok by exact Hread.
    by erewrite st_bind_ok by exact Hwrite. }
  assert (Hd : (m2 < m)%nat \/ resting c).
  { destruct Hm1 as [Hm1|(-> & -> & Hx)]; [left; destruct Hm2 as [?|(_ & -> & _)]; lia|].
    destruct Hx as [Hx|Hx]; [|by right]. destruct Hm2 as [Hm2|(_ & _ & Hn)]; [by left|done]. }
  destruct Hd as [Hd|Hd]; [rewrite Hround; apply (IH c2 m2); [done|lia]|]. exists c, m. split_and!; [by apply resting_stays|done|done].
Qed.

Definition complete c : Prop :=
  sv_sent c = answers all /\ sv_processed c = match given with Some l => taken l | None => [] end /\ requests c = [].

Lemma resting_complete c m : serving c m -> resting c -> complete c.
Proof.
  intros Hs [Hw Hr]. unfold complete.
  destruct Hs as [Q U k c A Hr' Hi Hp|Q r U k c A Hr' Hi Hp|Q k l c Hl A Hr' Hi Hp|l1 l2 c Hl []|l1 b l2 c Hl []|l c Hl Hq Hw' Hs Hr' Hp].
  - rewrite Hr' in Hr. destruct Hr as [[=]|[_ Hn]]. rewrite Hi in Hn. unfold unread in Hn. apply app_eq_nil in Hn as [Hu Hg].
    assert (U = []) as ->. { destruct U as [|r U]; [done|]. cbn in Hu. apply app_eq_nil in Hu as [Hu _].
      assert (Hc : length (encode_request r) = 0%nat) by (by rewrite Hu). unfold encode_request in Hc. rewrite length_app, length_write_header in Hc. lia. }
    assert (given = None) as ->. { unfold given_bytes in Hg. destruct given as [l|]; [|done]. apply app_eq_nil in Hg as [Hg _].
      assert (Hc : length (encode_request Push_request) = 0%nat) by (by rewrite Hg). unfold encode_request in Hc.
      rewrite length_app, length_write_header in Hc. lia. }
    destruct (an_state _ _ _ _ _ A) as [(_ & _ & _ & Hq & _ & Hsent)|(rest & Hwr & _)]; [|by rewrite Hw in Hwr].
    split_and!; [|done|done]. unfold answers at 1 in Hsent. cbn in Hsent. by rewrite app_nil_r in Hsent.
  - rewrite Hr' in Hr. assert (Hok : answered r) by (pose proof (an_known _ _ _ _ _ A) as Hk; rewrite Forall_app, Forall_cons in Hk; tauto).
    destruct r, Hr as [|[? _]]; try done. all: by destruct Hok as [[] _].
  - destruct (an_state _ _ _ _ _ A) as [(_ & _ & [=] & _)|(rest & Hwr & _)]. by rewrite Hw in Hwr.
  - destruct Hr as [Hr|[Hr _]]; congruence.
  - destruct Hr as [Hr|[Hr _]]; congruence.
  - rewrite Hl. by split_and!.
Qed.

(** Nothing wrong is sent or taken before. *)
Lemma serving_prefix c m : serving c m ->
  sv_sent c `prefix_of` answers all /\ sv_processed c `prefix_of` match given with Some l => taken l | None => [] end.
Proof.
  assert (Hp : forall P Q U k c0, answering P Q U k c0 -> sv_sent c0 `prefix_of` answers all).
  { intros P Q U k c0 [_ [(_ & _ & _ & _ & _ & Hs)|(rest & _ & _ & Hs)]]; eexists; by symmetry. }
  destruct 1 as [Q U k c A Hr' Hi ->|Q r U k c A Hr' Hi ->|Q k l c Hl A Hr' Hi ->|l1 l2 c -> [_ _ -> _ _ ->]|l1 b l2 c -> [_ _ -> _ _ ->]|l c -> Hq Hw' -> Hr' ->];
    (split; [try (by eapply Hp); done|]); try (by apply prefix_nil); try done;
    unfold taken; destruct in_progress; try done; by apply prefix_app_r.
Qed.
End Serve.

Section Theorem_.
Context `{Environment, Network}.

(** On a reachable ledger every request is answered. *)
Lemma reachable_answers gb n s now fuel r :
  reachable gb n s -> (query_fuel n <= loop_fuel)%nat -> fits 256 genesis_account -> accounts s !! (2 ^ 256 - 1) = None ->
  (n + size (accounts s) + size (blocks_info s) + 2 <= fuel)%nat ->
  ask_ok r -> match r with Frontier_request f => fr_age f = any_age | _ => True end -> answered s now fuel r.
Proof.
  intros R Hf Hg Hlast Hfuel Hok Hage. split; [exact Hok|]. destruct (reachable_inv _ _ _ R Hf) as (g & I).
  destruct r as [r|r|r|]; cbn [answer].
  - destruct (bulk_pull_run R Hf r fuel ltac:(lia)) as (l & -> & _). by eexists.
  - apply (blocks_session_ends fuel (min_hash r)); [apply (server_stands Hf I), Hok|]. pose proof (table_from_length (min_hash r) (blocks_info s)). cbn. lia.
  - destruct (frontier_response_run (s := s) (account_bounds Hg R Hf Hlast) fuel now r) as (f & -> & ->); [apply Hok|exact Hage|lia|by eexists].
  - destruct Hok.
Qed.

End Theorem_.
