(* ===== verification/BootstrapExamples.v ===== *)
(** * Bootstrapping on small ledgers

    A node with the genesis block only, or with the genesis block and a send,
    bootstraps from a node with four blocks; and pushes what it has. *)
From Stdlib Require Import ZArith Lia List Sorted Permutation.
From stdpp Require Import prelude gmap sorting.
From S2P Require Import Prelude Lists Numbers Streams Blocks Store Ledger StoreFacts LedgerInv LedgerQueries LedgerExtend LedgerShrink LedgerProcess LedgerRollback LedgerUndo LedgerUnique LedgerTheorems LedgerSub LedgerExamples Votes VotesExamples Work Messages Unchecked Processor Convergence Elections ProcessorExamples BootstrapServer BootstrapTheorems BootstrapClient BootstrapSync BootstrapPush BootstrapTransfer BootstrapConnection BootstrapServe.

#[local] Existing Instance in_order.
#[local] Existing Instance sample_node.

Definition pull_all : bulk_pull := BulkPull (message_new mt_bulk_pull) live_account 0.

Lemma bulk_pull_exact_witness :
  let e := if block_exists ledger_4 (bp_end pull_all) then bp_end pull_all else 0 in
  exists l, bulk_pull_response 6 pull_all ledger_4 = Ok (concat (serialize_block <$> l) ++ no_block, ledger_4)
  /\ match accounts ledger_4 !! bp_start pull_all with
     | None => l = []
     | Some i =>
         (e = 0 -> segment ledger_4 (head i) l 0
                   /\ forall h b, block_get ledger_4 h = Some b -> ledger_account h ledger_4 = Ok (bp_start pull_all, ledger_4) -> b ∈ l)
         /\ (e <> 0 -> ledger_account e ledger_4 = Ok (bp_start pull_all, ledger_4) -> segment ledger_4 (head i) l e)
         /\ (e <> 0 -> ledger_account e ledger_4 <> Ok (bp_start pull_all, ledger_4) -> l = [])
     end.
Proof. apply (bulk_pull_exact reach_4 (fuel_ok 4 ltac:(lia)) pull_all 6). lia. Defined.

Definition range_all : bulk_pull_blocks := BulkPullBlocks (message_new mt_bulk_pull_blocks) 0 (2 ^ 256 - 1) list_blocks 0.

Lemma range_pull_thinned_witness :
  exists l, StronglySorted (fun x y => hash x < hash y) l
  /\ (forall h b, b ∈ l /\ hash b = h <->
     block_get ledger_4 h = Some b /\ 0 <= h < 2 ^ 256 - 1
     /\ exists c, segment ledger_4 h c 0 /\ Z.of_nat (length c) mod block_info_max = 0)
  /\ (list_blocks = list_blocks ->
      blocks_session 1 ledger_4 (bulk_pull_blocks_server_new ledger_4 range_all)
      = Ok (concat (serialize_block <$> limit 0 l) ++ no_block))
  /\ (list_blocks = checksum_blocks ->
      blocks_session 1 ledger_4 (bulk_pull_blocks_server_new ledger_4 range_all)
      = Ok (no_block ++ write_u256 (fold_left (fun c x => Z.lxor c (hash x)) (limit 0 l) 0) ++ no_block)).
Proof.
  apply (range_pull_thinned reach_4 (fuel_ok 4 ltac:(lia)) range_all 1).
  - unfold fits. cbn. lia.
  - apply (bool_decide_unpack _). vm_compute. exact I.
Defined.

Definition sample_attempt (s : store) : bootstrap_attempt := Attempt s ∅ [] true 0 0 false [] 0 [].

Lemma genesis_fits_256 : fits 256 genesis_account.
Proof. apply (bool_decide_unpack _). vm_compute. exact I. Qed.

Lemma frontiers_compared_witness :
  exists f bytes c a' P, frontier_req_server_new 4 ledger_4 0 frontier_request = Ok f /\ frontier_session 4 ledger_4 f = Ok bytes
  /\ frontier_req_client_new (sample_attempt ledger_2) = Ok (c, sample_attempt ledger_2)
  /\ receive_frontiers [] 4 c bytes (sample_attempt ledger_2) = Ok (false, a')
  /\ pulls a' ≡ₚ P ++ [] /\ NoDup P
  /\ (forall p, p ∈ P <-> exists y i, accounts ledger_4 !! y = Some i
                        /\ (accounts ledger_2 !! y = None \/ block_exists ledger_2 (head i) = false)
                        /\ p = pull_info_new y (head i) (latest ledger_2 y))
  /\ (forall x, unsynced_exists x a' = true <-> unsynced_exists x (sample_attempt ledger_2) = true \/ to_push (s := ledger_2) (t := ledger_4) [] x)
  /\ ba_store a' = ledger_2 /\ added a' = [].
Proof.
  apply (frontiers_compared reach_2 (fuel_ok 2 ltac:(lia)) reach_4 (fuel_ok 4 ltac:(lia)) genesis_fits_256).
  - vm_compute. reflexivity.
  - vm_compute. reflexivity.
  - apply (bool_decide_unpack _). vm_compute. exact I.
  - reflexivity.
  - apply (bool_decide_unpack _). vm_compute. exact I.
Defined.


(** Three blocks are to be pushed; the one with the lowest hash, the open block,
    depends on the one with the highest. *)
Definition push_attempt : bootstrap_attempt :=
  set_unsynced (fun _ => {[send_3_hash := tt; open_2_hash := tt; send_1_hash := tt]}) (sample_attempt ledger_4).

Lemma push_exact_witness :
  exists p, push_run 4 [] (PushClient push_attempt []) = Ok (Finished, p) /\ unsynced_table (pu_attempt p) = ∅
  /\ NoDup (hash <$> pushed p)
  /\ (forall b, b ∈ pushed p <-> block_get ledger_4 (hash b) = Some b /\ unsynced_exists (hash b) push_attempt = true)
  /\ (forall x, unsynced_exists x push_attempt = true -> x ∈ hash <$> pushed p)
  /\ forall l1 b l2, pushed p = l1 ++ b :: l2 ->
       forall d, d ∈ dependencies b -> unsynced_exists d push_attempt = true -> d ∈ hash <$> l1.
Proof.
  apply (push_exact live_genesis 4 ledger_4 push_attempt 4 reach_4 (fuel_ok 4 ltac:(lia))).
  - reflexivity.
  - intros x Hx. apply unsynced_exists_true in Hx. cbn [unsynced_table push_attempt set_unsynced] in Hx.
    rewrite !lookup_insert_is_Some, lookup_singleton_is_Some in Hx.
    destruct Hx as [<-|[_ [<-|[_ <-]]]]; vm_compute; reflexivity.
  - apply (bool_decide_unpack _). vm_compute. exact I.
Defined.

(** The blocks in the order in which they are sent. *)
Example push_in_order :
  match push_run 4 [] (PushClient push_attempt []) with
  | Ok (_, p) => pushed p
  | Fault _ => []
  end = [Send send_1; Open open_2; Send send_3].
Proof. vm_compute. reflexivity. Qed.

(** ** A connection *)

Definition sample_requests : list request := [Pull_request pull_all; Frontier_request frontier_request; Blocks_request range_all].

Lemma sample_requests_ok r :
  r ∈ sample_requests -> ask_ok r /\ match r with Frontier_request f => fr_age f = any_age | _ => True end.
Proof.
  intros Hr. unfold sample_requests in Hr.
  repeat (apply elem_of_cons in Hr as [->|Hr];
    [split; [cbn [ask_ok]; unfold header_of, message_ok, fits; cbn; split_and!; (reflexivity || lia || done)|done]|]).
  by apply not_elem_of_nil in Hr.
Qed.

Lemma sample_given l : Some [Send send_1] = Some l -> Forall plain_block l.
Proof. intros [= <-]. apply Forall_singleton. split; [apply send_1_admissible|exact I]. Qed.

Definition sample_input : list byte :=
  concat (encode_request <$> sample_requests) ++ given_bytes (Some [Send send_1]) [].

