(* ===== verification/DistributedWork.v ===== *)
(** * Work from other machines (rai/node/node.cpp)

    [distributed_work] asks every work peer for proof of work, takes the first
    answer that suffices, and has the work pool compute it when all peers have
    failed.  The handlers of the connections run on several threads; what one
    does between two accesses to shared state is one event, and a run is any
    sequence of events.  What the body of a response says is part of the event. *)
From Stdlib Require Import ZArith Lia List.
From stdpp Require Import prelude gmap.
From S2P Require Import Prelude Numbers Streams Blocks Store Ledger StoreFacts Work.

(** The field "work" of the body of a response. *)
Inductive response := Unparsable | Not_a_number | Work_is (w : Z).

(** How far the request to a peer is: it waits to be run, it connects, writes
    or reads; [success] ([Some]) or [failure] has removed it, and was told
    whether it was the last one; work was set and [stop] comes next. *)
Inductive stage :=
| Queued | Connecting | Writing | Reading
| Removed (r : option response) (last : bool)
| Stopping.

Record distributed_work := Distributed {
  outstanding : gmap Z Z;      (* ports by address *)
  completed : bool;
  requests : gmap Z stage;
  local : bool;                (* the pool was asked and has not answered yet *)
  work_answers : list Z;       (* the calls of the callback *)
  cancels : list Z             (* peers a cancel was written for *)
}.

Inductive work_event :=
| Run_request (h : Z)
| Connected (h : Z) (ok : bool)
| Written (h : Z) (ok : bool)
| Response_read (h : Z) (r : option response)   (* an error, or a status other than ok, is [None] *)
| Resume (h : Z)
| Pool_answers (w : option Z).

Section Work.
Context `{Network} (root_a : block_hash).

Definition at_stage (h : Z) (x : option stage) (d : distributed_work) : distributed_work :=
  Distributed (outstanding d) (completed d) (partial_alter (fun _ => x) h (requests d)) (local d) (work_answers d) (cancels d).

(** The test and set of [completed] is one access. *)
Definition set_once (w : Z) (d : distributed_work) : distributed_work :=
  if completed d then d
  else Distributed (outstanding d) true (requests d) (local d) (work_answers d ++ [w]) (cancels d).

Definition handle_failure (last : bool) (d : distributed_work) : distributed_work :=
  if last then
    if completed d then d
    else Distributed (outstanding d) true (requests d) true (work_answers d) (cancels d)
  else d.

(** [remove], and the request goes on with what it returned. *)
Definition remove (h : Z) (r : option response) (d : distributed_work) : distributed_work :=
  let o := delete h (outstanding d) in
  at_stage h (Some (Removed r (bool_decide (o = ∅))))
    (Distributed o (completed d) (requests d) (local d) (work_answers d) (cancels d)).

Definition distributed_stop (d : distributed_work) : distributed_work :=
  Distributed ∅ (completed d) (requests d) (local d) (work_answers d) (cancels d ++ (fst <$> map_to_list (outstanding d))).

(** The rest of [success] and [failure]. *)
Definition resume (h : Z) (x : stage) (d : distributed_work) : option distributed_work :=
  match x with
  | Removed (Some (Work_is w)) last =>
      if work_validate root_a w then Some (at_stage h None (handle_failure last d))
      else Some (at_stage h (Some Stopping) (set_once w d))
  | Removed _ last => Some (at_stage h None (handle_failure last d))
  | Stopping => Some (at_stage h None (distributed_stop d))
  | _ => None
  end.

(** [None] when the event cannot happen; a fault when the callback of the pool
    takes the value of an answer that has none. *)
Definition work_step (e : work_event) (d : distributed_work) : option (res distributed_work) :=
  match e with
  | Run_request h => match requests d !! h with Some Queued => Some (Ok (at_stage h (Some Connecting) d)) | _ => None end
  | Connected h ok =>
      match requests d !! h with
      | Some Connecting => Some (Ok (if ok then at_stage h (Some Writing) d else remove h None d))
      | _ => None
      end
  | Written h ok =>
      match requests d !! h with
      | Some Writing => Some (Ok (if ok then at_stage h (Some Reading) d else remove h None d))
      | _ => None
      end
  | Response_read h r => match requests d !! h with Some Reading => Some (Ok (remove h r d)) | _ => None end
  | Resume h => match requests d !! h with Some x => Ok <$> resume h x d | None => None end
  | Pool_answers w =>
      if local d then
        match w with
        | Some w => Some (Ok (Distributed (outstanding d) (completed d) (requests d) false (work_answers d ++ [w]) (cancels d)))
        | None => Some (Fault Indeterminate_value)
        end
      else None
  end.

(** The constructor and [start]; a peer that is listed twice is asked once. *)
Definition distributed_start (work_peers : list (Z * Z)) : distributed_work :=
  let o := foldr (fun p m => <[fst p := snd p]> m) ∅ (rev work_peers) in
  let d := Distributed o false ∅ false [] [] in
  if bool_decide (o = ∅) then handle_failure true d
  else Distributed o false ((fun _ => Queued) <$> o) false [] [].

Inductive work_run (d : distributed_work) : list work_event -> distributed_work -> Prop :=
| Work_nil : work_run d [] d
| Work_snoc es e d1 d2 : work_run d es d1 -> work_step e d1 = Some (Ok d2) -> work_run d (es ++ [e]) d2.

(** ** Invariant *)

#[local] Opaque work_validate.

(** Not yet removed. *)
Definition early (x : stage) : Prop := match x with Queued | Connecting | Writing | Reading => True | _ => False end.

Record work_inv (d : distributed_work) : Prop := {
  wi_open : completed d = false ->
    local d = false /\ work_answers d = []
    /\ (forall h, is_Some (outstanding d !! h) <-> exists x, requests d !! h = Some x /\ early x)
    /\ (outstanding d = ∅ -> exists h r, requests d !! h = Some (Removed r true));
  wi_done : completed d = true ->
    if local d then work_answers d = [] else exists w, work_answers d = [w] /\ work_validate root_a w = false;
  wi_stopping : forall h, requests d !! h = Some Stopping -> completed d = true
}.

Lemma at_stage_requests h x d k : requests (at_stage h x d) !! k = if decide (h = k) then x else requests d !! k.
Proof. cbn. rewrite lookup_partial_alter. by case_decide. Qed.

(** A request goes on and is not removed. *)
Lemma inv_advance d h x y : work_inv d -> requests d !! h = Some x -> early x -> early y -> work_inv (at_stage h (Some y) d).
Proof.
  intros [J1 J2 J3] Hx Ex Ey. split.
  - intros Hc. destruct (J1 Hc) as (H1 & H2 & H3 & H4). split_and!; [done|done| |].
    + intros k. cbn [outstanding at_stage]. rewrite H3, at_stage_requests. case_decide as Hk; [subst k|done]. split; intros _; eauto.
    + intros Ho. destruct (H4 Ho) as (k & r & Hk). exists k, r. rewrite at_stage_requests. case_decide; [|done].
      subst k. rewrite Hx in Hk. injection Hk as ->. destruct Ex.
  - exact J2.
  - intros k. rewrite at_stage_requests. case_decide; [|apply J3]. intros [= ->]. destruct Ey.
Qed.

Lemma inv_remove d h x r : work_inv d -> requests d !! h = Some x -> early x -> work_inv (remove h r d).
Proof.
  intros [J1 J2 J3] Hx Ex. unfold remove. set (o := delete h (outstanding d)). split.
  - intros Hc. destruct (J1 Hc) as (H1 & H2 & H3 & H4). split_and!; [done|done| |].
    + intros k. rewrite at_stage_requests. cbn [outstanding at_stage requests]. unfold o. rewrite lookup_delete. destruct (decide (h = k)) as [Hk|Hk]; [|exact (H3 k)].
      split; [by intros [? ?]|]. intros (y & [= <-] & []).
    + intros Ho. exists h, r. rewrite at_stage_requests, decide_True by done. cbn in Ho. by rewrite bool_decide_true.
  - exact J2.
  - intros k. rewrite at_stage_requests. case_decide; [discriminate|apply J3].
Qed.

(** A request that was removed, and not the last one, ends. *)
Lemma inv_end d h x : work_inv d -> requests d !! h = Some x -> ~ early x -> (forall r, x = Removed r true -> completed d = true) ->
  work_inv (at_stage h None d).
Proof.
  intros [J1 J2 J3] Hx Ex Hl. split.
  - intros Hc. destruct (J1 Hc) as (H1 & H2 & H3 & H4). split_and!; [done|done| |].
    + intros k. cbn [outstanding at_stage]. rewrite H3, at_stage_requests. case_decide as Hk; [subst k|done].
      split; intros (y & Hy & Ey); [congruence|discriminate].
    + intros Ho. destruct (H4 Ho) as (k & r & Hk). exists k, r. rewrite at_stage_requests. case_decide; [|done].
      subst k. cbn in Hc. rewrite (Hl r) in Hc by congruence. discriminate.
  - exact J2.
  - intros k. rewrite at_stage_requests. case_decide; [discriminate|apply J3].
Qed.

Lemma inv_failure d last : work_inv d -> work_inv (handle_failure last d) /\ requests (handle_failure last d) = requests d
  /\ (last = true -> completed (handle_failure last d) = true).
Proof.
  intros J. unfold handle_failure. destruct last; [|done]. destruct (completed d) eqn:Hc; [done|]. split_and!; [|done|done].
  destruct (wi_open d J Hc) as (_ & Ha & _). split; [done|by intros _|done].
Qed.

Lemma inv_set_once d w : work_inv d -> work_validate root_a w = false -> work_inv (set_once w d) /\ requests (set_once w d) = requests d
  /\ completed (set_once w d) = true.
Proof.
  intros J Hw. unfold set_once. destruct (completed d) eqn:Hc; [split_and!; [exact J|reflexivity|exact Hc]|].
  split_and!; [|reflexivity|reflexivity]. destruct (wi_open d J Hc) as (Hl & Ha & _).
  split; [discriminate| |reflexivity]. cbn [local completed work_answers]. intros _. rewrite Hl, Ha. exists w. exact (conj eq_refl Hw).
Qed.

(** With the work set nothing depends on the requests any more. *)
Lemma inv_completed d d' :
  work_inv d -> completed d = true -> completed d' = true -> local d' = local d -> work_answers d' = work_answers d -> work_inv d'.
Proof. intros [_ J2 _] Hc Hc' Hl Ha. split; [congruence| |done]. intros _. rewrite Hl, Ha. by apply J2. Qed.

Lemma inv_resume d h x d' : work_inv d -> requests d !! h = Some x -> resume h x d = Some d' -> work_inv d'.
Proof.
  intros J Hx Hr.
  assert (Hfail : forall r last, x = Removed r last -> work_inv (at_stage h None (handle_failure last d))).
  { intros r last ->. destruct (inv_failure d last J) as (J' & Hreq & Hc). eapply inv_end; [exact J'|by rewrite Hreq|cbn; tauto|].
    intros r' [= <- ->]. by apply Hc. }
  destruct x as [| | | |[[| |w]|] last|]; cbn [resume] in Hr. 1-4: discriminate Hr. 1,2,4: injection Hr as <-; exact (Hfail _ _ eq_refl).
  - destruct (work_validate root_a w) eqn:Hw; injection Hr as <-; [exact (Hfail _ _ eq_refl)|].
    destruct (inv_set_once d w J Hw) as (J' & _ & Hc). exact (inv_completed _ (at_stage h (Some Stopping) (set_once w d)) J' Hc Hc eq_refl eq_refl).
  - injection Hr as <-. pose proof (wi_stopping d J h Hx) as Hc. exact (inv_completed _ (at_stage h None (distributed_stop d)) J Hc Hc eq_refl eq_refl).
Qed.

Definition honest_pool (e : work_event) : Prop :=
  match e with Pool_answers w => exists x, w = Some x /\ work_validate root_a x = false | _ => True end.

Lemma inv_step e d d' : work_inv d -> honest_pool e -> work_step e d = Some (Ok d') -> work_inv d'.
Proof.
  intros J He Hs. destruct e as [h|h ok|h ok|h r|h|w]; cbn [work_step] in Hs.
  - destruct (requests d !! h) as [[]|] eqn:Hx; try discriminate. injection Hs as <-. by eapply inv_advance.
  - destruct (requests d !! h) as [[]|] eqn:Hx; try discriminate. injection Hs as <-. destruct ok; [by eapply inv_advance|by eapply inv_remove].
  - destruct (requests d !! h) as [[]|] eqn:Hx; try discriminate. injection Hs as <-. destruct ok; [by eapply inv_advance|by eapply inv_remove].
  - destruct (requests d !! h) as [[]|] eqn:Hx; try discriminate. injection Hs as <-. by eapply inv_remove.
  - destruct (requests d !! h) as [x|] eqn:Hx; [|discriminate]. destruct (resume h x d) as [d1|] eqn:Hr; [|discriminate].
    injection Hs as <-. by eapply inv_resume.
  - destruct He as (x & -> & Hv). destruct (local d) eqn:Hl; [|discriminate]. injection Hs as <-. destruct J as [J1 J2 J3].
    destruct (completed d) eqn:Hc; [|destruct (J1 eq_refl); congruence]. specialize (J2 eq_refl). rewrite Hl in J2.
    split; [discriminate| |reflexivity]. intros _. cbn. rewrite J2. exists x. exact (conj eq_refl Hv).
Qed.

(** ** Every run ends *)

Definition stage_weight (x : stage) : Z :=
  match x with Queued => 6 | Connecting => 5 | Writing => 4 | Reading => 3 | Removed _ _ => 2 | Stopping => 1 end.

Definition weight_left (d : distributed_work) : Z := msum (fun _ x => stage_weight x) (requests d) + (if local d then 1 else 0).

Lemma stage_weight_pos x : 1 <= stage_weight x.
Proof. destruct x; cbn; lia. Qed.

Lemma weight_nonneg d : 0 <= weight_left d.
Proof.
  unfold weight_left. pose proof (msum_nonneg (fun (_ : Z) x => stage_weight x) (requests d)) as Hn.
  specialize (Hn ltac:(intros k v _; pose proof (stage_weight_pos v); lia)). destruct (local d); lia.
Qed.

Lemma weight_at h x y d : requests d !! h = Some x ->
  weight_left (at_stage h y d) = weight_left d - stage_weight x + (match y with Some y => stage_weight y | None => 0 end).
Proof.
  intros Hx. unfold weight_left. cbn [at_stage requests local]. destruct y as [y|].
  - change (partial_alter (fun _ => Some y) h (requests d)) with (<[h := y]> (requests d)). rewrite (msum_insert _ _ _ _ _ Hx). lia.
  - change (partial_alter (fun _ => None) h (requests d)) with (delete h (requests d)). rewrite (msum_delete _ _ _ _ Hx). lia.
Qed.

Lemma step_shrinks e d d' : work_inv d -> work_step e d = Some (Ok d') -> weight_left d' < weight_left d.
Proof.
  intros J Hs.
  assert (Hrem : forall h x r, requests d !! h = Some x -> early x -> weight_left (remove h r d) < weight_left d).
  { intros h x r Hx Ex. unfold remove. rewrite (weight_at h x) by exact Hx. destruct x; cbn; try destruct Ex; unfold weight_left; cbn [requests local]; lia. }
  assert (Hfail : forall h r last, requests d !! h = Some (Removed r last) -> weight_left (at_stage h None (handle_failure last d)) < weight_left d).
  { intros h r last Hx. destruct (inv_failure d last J) as (_ & Hreq & _). rewrite (weight_at h (Removed r last)) by (by rewrite Hreq).
    unfold weight_left. rewrite Hreq. cbn [stage_weight]. unfold handle_failure. destruct last, (completed d), (local d); cbn [local]; lia. }
  destruct e as [h|h ok|h ok|h r|h|w]; cbn [work_step] in Hs.
  1-4: destruct (requests d !! h) as [[]|] eqn:Hx; try discriminate; injection Hs as <-; try destruct ok;
    try (by eapply Hrem); rewrite (weight_at h _ _ d Hx); cbn [stage_weight]; lia.
  - destruct (requests d !! h) as [x|] eqn:Hx; [|discriminate].
    destruct x as [| | | |[[| |w]|] last|]; cbn [resume fmap option_fmap option_map] in Hs.
    1-4: discriminate Hs. 1,2,4: injection Hs as <-; exact (Hfail _ _ _ Hx).
    + destruct (work_validate root_a w) eqn:Hw; cbn [fmap option_fmap option_map] in Hs; injection Hs as <-; [exact (Hfail _ _ _ Hx)|].
      destruct (inv_set_once d w J Hw) as (_ & Hreq & _). rewrite (weight_at h (Removed (Some (Work_is w)) last)) by (by rewrite Hreq).
      unfold weight_left. rewrite Hreq. cbn [stage_weight]. unfold set_once. destruct (completed d); cbn [local]; lia.
    + injection Hs as <-. rewrite (weight_at h Stopping) by exact Hx. unfold weight_left. cbn. lia.
  - destruct (local d) eqn:Hl; [|discriminate]. destruct w; [|discriminate]. injection Hs as <-. unfold weight_left. rewrite Hl. cbn. lia.
Qed.

Lemma start_inv peers : work_inv (distributed_start peers).
Proof.
  unfold distributed_start. set (o := foldr _ _ _). case_bool_decide as Ho.
  - split; [discriminate|by intros _|]. intros h. cbn. by rewrite lookup_empty.
  - split; [|discriminate|].
    + intros _. split_and!; [done|done| |done]. intros h. cbn [outstanding requests]. rewrite lookup_fmap. destruct (o !! h); cbn.
      * split; [|by eexists]. intros _. by exists Queued.
      * split; [by intros [? ?]|]. by intros (x & ? & _).
    + intros h. cbn [requests]. rewrite lookup_fmap. by destruct (o !! h).
Qed.

Lemma peers_size (l : list (Z * Z)) : (size (foldr (fun p (m : gmap Z Z) => <[fst p := snd p]> m) ∅ l) <= length l)%nat.
Proof.
  induction l as [|p l IH]; cbn [foldr length]; [by rewrite map_size_empty|]. rewrite map_size_insert.
  destruct (_ !! fst p); unfold id; lia.
Qed.

Lemma start_weight peers : weight_left (distributed_start peers) <= 6 * Z.of_nat (length peers) + 1.
Proof.
  unfold distributed_start. set (o := foldr _ _ _). case_bool_decide as Ho; unfold weight_left; cbn; [rewrite msum_empty; lia|].
  assert (Hs : forall m : gmap Z Z, msum (fun _ x => stage_weight x) ((fun _ => Queued) <$> m) = 6 * Z.of_nat (size m)).
  { intros m. induction m as [|k v m Hk IH] using map_ind; [by rewrite fmap_empty, msum_empty|].
    rewrite fmap_insert, msum_insert_new, map_size_insert_None, IH by (by rewrite ?lookup_fmap, ?Hk). cbn. lia. }
  rewrite Hs. pose proof (peers_size (rev peers)) as Hp. rewrite length_rev in Hp. fold o in Hp. lia.
Qed.

Lemma run_inv d es d' : work_inv d -> work_run d es d' -> Forall honest_pool es ->
  work_inv d' /\ Z.of_nat (length es) <= weight_left d - weight_left d'.
Proof.
  intros J Hrun. induction Hrun as [|es e d1 d2 _ IH Hs]; intros He; [split; [exact J|cbn; lia]|].
  apply Forall_app in He as [He1 [He2 _]%Forall_cons]. destruct (IH He1) as [J1 Hl]. split; [by eapply inv_step|].
  pose proof (step_shrinks _ _ _ J1 Hs). rewrite length_app. cbn [length]. lia.
Qed.

(** Something can happen as long as there is no answer. *)
Lemma can_go_on d : work_inv d -> work_answers d = [] ->
  (exists e, honest_pool e /\ (exists d', work_step e d = Some (Ok d'))) \/ local d = true.
Proof.
  intros J Ha. destruct (completed d) eqn:Hc.
  { right. pose proof (wi_done d J Hc) as Hd. destruct (local d); [reflexivity|]. destruct Hd as (w & Hw & _). congruence. }
  left. destruct (wi_open d J Hc) as (_ & _ & H3 & H4). destruct (map_choose_or_empty (outstanding d)) as [(h & p & Hp)|Ho].
  - destruct (proj1 (H3 h) ltac:(by eexists)) as (x & Hx & Ex).
    destruct x; try destruct Ex.
    + exists (Run_request h). split; [exact Logic.I|]. cbn. rewrite Hx. by eexists.
    + exists (Connected h true). split; [exact Logic.I|]. cbn. rewrite Hx. by eexists.
    + exists (Written h true). split; [exact Logic.I|]. cbn. rewrite Hx. by eexists.
    + exists (Response_read h None). split; [exact Logic.I|]. cbn. rewrite Hx. by eexists.
  - destruct (H4 Ho) as (h & r & Hr). exists (Resume h). split; [exact Logic.I|]. cbn [work_step]. rewrite Hr. cbn [resume].
    destruct r as [[| |w]|]; try (eexists; reflexivity). destruct (work_validate root_a w); eexists; reflexivity.
Qed.
End Work.

(** ** Claims *)


(** A request to the pool that is cancelled takes the value of an empty answer. *)
Theorem cancelled_work_throws `{Network} root_a d : local d = true -> work_step root_a (Pool_answers None) d = Some (Fault Indeterminate_value).
Proof. intros Hl. cbn. by rewrite Hl. Qed.

(** ** Example *)

Fixpoint run_all `{Network} (r : block_hash) (es : list work_event) (d : distributed_work) : option distributed_work :=
  match es with
  | [] => Some d
  | e :: es => match work_step r e d with Some (Ok d) => run_all r es d | _ => None end
  end.

Lemma run_all_run `{Network} r es d0 es0 d d' : work_run r d0 es0 d -> run_all r es d = Some d' -> work_run r d0 (es0 ++ es) d'.
Proof.
  revert es0 d. induction es as [|e es IH]; intros es0 d Hrun Hall; cbn [run_all] in Hall.
  - injection Hall as <-. by rewrite app_nil_r.
  - destruct (work_step r e d) as [[d1|]|] eqn:Hs; try discriminate. change (e :: es) with ([e] ++ es). rewrite app_assoc.
    apply (IH _ d1); [|exact Hall]. by eapply Work_snoc.
Qed.

(** Two peers: one answers, the connection to the other fails in between. *)
Definition sample_events : list work_event :=
  [Run_request 1; Run_request 2; Connected 1 true; Written 1 true; Response_read 1 (Some (Work_is 31)); Connected 2 false;
   Resume 1; Resume 2; Resume 1].

