(* ===== verification/Wallet.v ===== *)
(** * The wallet (rai/node/wallet.cpp)

    A wallet is a table of account keys, encrypted by a wallet key, which is kept
    encrypted by a key that is derived from the user's password.  Seven entries of
    the table, under the numbers from zero to six, are special; the others are
    accounts, whose value is an encrypted private key or the index of a key that
    is derived from the wallet's seed.

    AES, Argon2 and Ed25519 are not part of this program; they are the parameters
    of the class [WalletCrypto].  AES is used in counter mode, which adds a key
    stream to the text, so the parameter is that key stream.  Random numbers are
    arguments. *)
From Stdlib Require Import ZArith Lia List.
From stdpp Require Import prelude gmap sorting.
From S2P Require Import Prelude Lists Blake2b Numbers Streams Blocks Store Ledger Work BootstrapServer.

Local Open Scope m_scope.

Class WalletCrypto := {
  (** The first 256 bits of the key stream of AES-256 in counter mode. *)
  aes_ctr : Z -> Z -> Z;
  (** Argon2d with a cost of memory, for a password and a salt. *)
  argon2 : Z -> list byte -> Z -> Z;
  ed25519_publickey : Z -> account
}.

(** ** Keys *)

Section Keys.
Context `{WalletCrypto, Network}.

(** [uint256_union::encrypt] and [raw_key::decrypt]. *)
Definition encrypt (cleartext key iv : Z) : Z := xor256 cleartext (aes_ctr key iv).
Definition decrypt (ciphertext key iv : Z) : Z := xor256 ciphertext (aes_ctr key iv).

(** [rai::deterministic_key]: the seed, and the last four bytes of the index. *)
Definition derived_key (seed index : Z) : Z := be_combine (blake2b_hash 32 [be_split 32 seed; be_split 4 index]).

#[global] Opaque derived_key.

Definition kdf_full_work : Z := 64 * 1024.
Definition kdf_test_work : Z := 8.
Definition kdf_work : Z := if decide (rai_network = rai_test_network) then kdf_test_work else kdf_full_work.

(** [kdf::phs] *)
Definition phs (text : list byte) (salt : Z) : Z := argon2 kdf_work text salt.
End Keys.

(** ** Fans *)

(** A key spread out over several values, at least one. *)
Definition fan := list Z.

(** The constructor; the values drawn are [random]. *)
Definition fan_new (key : Z) (random : list Z) : fan := random ++ [fold_left xor256 random key].

Definition fan_value (f : fan) : Z := fold_left xor256 f 0.

Definition fan_value_set (v : Z) (f : fan) : fan :=
  match f with
  | [] => [] (* a fan is never empty *)
  | x :: f' => xor256 (xor256 x (fan_value f)) v :: f'
  end.

(** ** The table *)

Record wallet_value := WalletValue { wv_key : Z; wv_work : Z }.

Record wallet_store := WalletStore {
  entries : gmap Z wallet_value;
  password : fan;
  wallet_key_mem : fan
}.

Definition set_entries (f : gmap Z wallet_value -> gmap Z wallet_value) (w : wallet_store) : wallet_store :=
  WalletStore (f (entries w)) (password w) (wallet_key_mem w).
Definition set_password (f : fan -> fan) (w : wallet_store) : wallet_store :=
  WalletStore (entries w) (f (password w)) (wallet_key_mem w).
Definition set_wallet_key_mem (f : fan -> fan) (w : wallet_store) : wallet_store :=
  WalletStore (entries w) (password w) (f (wallet_key_mem w)).

Definition version_special : Z := 0.
Definition salt_special : Z := 1.
Definition wallet_key_special : Z := 2.
Definition check_special : Z := 3.
Definition representative_special : Z := 4.
Definition seed_special : Z := 5.
Definition deterministic_index_special : Z := 6.
Definition special_count : Z := 7.

Definition version_current : Z := 3.

Definition entry_get_raw (w : wallet_store) (k : Z) : wallet_value := default (WalletValue 0 0) (entries w !! k).
Definition entry_put_raw (k : Z) (v : wallet_value) : M wallet_store unit := st_put (set_entries (insert k v)).
Definition erase (k : Z) : M wallet_store unit :=
  there <- st_get (fun w => bool_decide (is_Some (entries w !! k)));;
  st_assert there ;;;
  st_put (set_entries (delete k)).

(** [begin]: the accounts in order, and [find] as [exists] uses it. *)
Definition wallet_begin (w : wallet_store) : list (Z * wallet_value) := table_from special_count (entries w).
Definition key_exists (w : wallet_store) (k : Z) : bool :=
  match first_from k (entries w) with Some (x, _) => x =? k | None => false end.

Definition wallet_accounts (w : wallet_store) : list account := fst <$> wallet_begin w.

Definition check (w : wallet_store) : Z := wv_key (entry_get_raw w check_special).
Definition salt (w : wallet_store) : Z := wv_key (entry_get_raw w salt_special).
(** [salt.owords[0]] *)
Definition salt_iv (w : wallet_store) : Z := Z.shiftr (salt w) 128.

Definition version (w : wallet_store) : Z := wrap 8 (wv_key (entry_get_raw w version_special)).
Definition version_put (v : Z) : M wallet_store unit := entry_put_raw version_special (WalletValue v 0).

Definition representative_set (a : account) : M wallet_store unit := entry_put_raw representative_special (WalletValue a 0).
Definition wallet_representative (w : wallet_store) : account := wv_key (entry_get_raw w representative_special).
Definition is_representative (w : wallet_store) : bool := key_exists w (wallet_representative w).

Definition deterministic_index_get (w : wallet_store) : Z := wrap 32 (wv_key (entry_get_raw w deterministic_index_special)).
Definition deterministic_index_set (i : Z) : M wallet_store unit := entry_put_raw deterministic_index_special (WalletValue i 0).

Inductive key_type := not_a_type | unknown | adhoc | deterministic.
#[export] Instance key_type_eq_dec : EqDecision key_type.
Proof. solve_decision. Defined.

Definition key_type_of (v : wallet_value) : key_type :=
  if 2 ^ 64 - 1 <? wv_key v then adhoc
  else if wrap 32 (Z.shiftr (wv_key v) 32) =? 1 then deterministic
  else unknown.

(** ** Passwords and keys *)

Section Store.
Context `{WalletCrypto, Network}.

Definition wallet_key (w : wallet_store) : Z :=
  decrypt (fan_value (wallet_key_mem w)) (fan_value (password w)) (salt_iv w).

Definition seed (w : wallet_store) : Z := decrypt (wv_key (entry_get_raw w seed_special)) (wallet_key w) (salt_iv w).

Definition valid_password (w : wallet_store) : bool := check w =? encrypt 0 (wallet_key w) (salt_iv w).

Definition derive_key (w : wallet_store) (text : list byte) : Z := phs text (salt w).

(** The loop of [deterministic_clear] over the accounts there were. *)
Fixpoint clear_keys (l : list (Z * wallet_value)) : M wallet_store unit :=
  match l with
  | [] => st_ret tt
  | (k, v) :: l =>
      (if bool_decide (key_type_of v = deterministic) then erase k else st_ret tt) ;;;
      clear_keys l
  end.

Definition deterministic_clear : M wallet_store unit :=
  l <- st_get wallet_begin;;
  clear_keys l ;;;
  deterministic_index_set 0.

Definition seed_set (prv : Z) : M wallet_store unit :=
  ciphertext <- st_get (fun w => encrypt prv (wallet_key w) (salt_iv w));;
  entry_put_raw seed_special (WalletValue ciphertext 0) ;;;
  deterministic_clear.

Definition deterministic_key (index : Z) : M wallet_store Z :=
  ok <- st_get valid_password;;
  st_assert ok ;;;
  st_get (fun w => derived_key (seed w) index).

(** The index of the first key that is not there yet, and its public key. *)
Fixpoint find_index (fuel : nat) (index : Z) : M wallet_store (Z * account) :=
  match fuel with
  | O => st_fault Out_of_fuel
  | S fuel =>
      prv <- deterministic_key index;;
      let result := ed25519_publickey prv in
      there <- st_get (fun w => key_exists w result);;
      if there : bool then find_index fuel (wrap 32 (index + 1)) else st_ret (index, result)
  end.

Definition deterministic_insert (fuel : nat) : M wallet_store account :=
  index <- st_get deterministic_index_get;;
  x <- find_index fuel index;;
  let '(index, result) := x in
  let marker := Z.lor (Z.shiftl 1 32) index in
  entry_put_raw result (WalletValue marker 0) ;;;
  deterministic_index_set (wrap 32 (index + 1)) ;;;
  st_ret result.

Definition insert_adhoc (prv : Z) : M wallet_store account :=
  ok <- st_get valid_password;;
  st_assert ok ;;;
  let pub := ed25519_publickey prv in
  ciphertext <- st_get (fun w => encrypt prv (wallet_key w) (salt_iv w));;
  entry_put_raw pub (WalletValue ciphertext 0) ;;;
  st_ret pub.

(** The private key, or [None] for an error.  The assertion of
    [deterministic_key] was tested before. *)
Definition fetch (w : wallet_store) (pub : account) : option Z :=
  let prv :=
    if valid_password w then
      let value := entry_get_raw w pub in
      if negb (is_zero (wv_key value)) then
        match key_type_of value with
        | deterministic => Some (derived_key (seed w) (wrap 32 (wv_key value)))
        | adhoc => Some (decrypt (wv_key value) (wallet_key w) (salt_iv w))
        | _ => None
        end
      else None
    else None in
  match prv with
  | Some prv => if pub =? ed25519_publickey prv then Some prv else None
  | None => None
  end.

(** Whether it failed. *)
Definition rekey (text : list byte) : M wallet_store bool :=
  ok <- st_get valid_password;;
  if ok : bool then
    password_new <- st_get (fun w => derive_key w text);;
    wallet_key_l <- st_get wallet_key;;
    st_put (set_password (fan_value_set password_new)) ;;;
    encrypted <- st_get (fun w => encrypt wallet_key_l password_new (salt_iv w));;
    st_put (set_wallet_key_mem (fan_value_set encrypted)) ;;;
    entry_put_raw wallet_key_special (WalletValue encrypted 0) ;;;
    st_ret false
  else st_ret true.

(** ** Upgrades *)

(** A key that the wallet key does not decrypt is tried with the keys that the
    zero password and the empty password would give. *)
Definition upgrade_key (zero_password empty_password : Z) (k : Z) : M wallet_store unit :=
  found <- st_get (fun w => fetch w k);;
  match found with
  | Some _ => st_ret tt
  | None =>
      data <- st_get (fun w => wv_key (entry_get_raw w k));;
      iv <- st_get salt_iv;;
      let prv := decrypt data zero_password iv in
      if ed25519_publickey prv =? k then insert_adhoc prv ;;; st_ret tt
      else
        let prv := decrypt data empty_password iv in
        if ed25519_publickey prv =? k then insert_adhoc prv ;;; st_ret tt else st_ret tt
  end.

Fixpoint upgrade_keys (zero_password empty_password : Z) (l : list account) : M wallet_store unit :=
  match l with
  | [] => st_ret tt
  | k :: l => upgrade_key zero_password empty_password k ;;; upgrade_keys zero_password empty_password l
  end.

Definition upgrade_v1_v2 : M wallet_store unit :=
  v <- st_get version;;
  st_assert (v =? 1) ;;;
  value <- st_get (fun w => wv_key (entry_get_raw w wallet_key_special));;
  zero_password <- st_get (fun w => decrypt value 0 (salt_iv w));;
  empty_password <- st_get (fun w => decrypt value (derive_key w []) (salt_iv w));;
  l <- st_get wallet_accounts;;
  upgrade_keys zero_password empty_password l ;;;
  version_put 2.

Definition upgrade_v2_v3 (random_seed : Z) : M wallet_store unit :=
  v <- st_get version;;
  st_assert (v =? 2) ;;;
  seed_set random_seed ;;;
  entry_put_raw deterministic_index_special (WalletValue 0 0) ;;;
  version_put 3.

(** Whether it failed.  The version is read in the transaction of the caller,
    which does not see what an upgrade has written. *)
Definition attempt_password (random_seed : Z) (text : list byte) : M wallet_store bool :=
  password_l <- st_get (fun w => derive_key w text);;
  st_put (set_password (fan_value_set password_l)) ;;;
  ok <- st_get valid_password;;
  v <- st_get version;;
  (if ok : bool then
     (if v =? 1 then upgrade_v1_v2 else st_ret tt) ;;;
     (if v =? 2 then upgrade_v2_v3 random_seed else st_ret tt)
   else st_ret tt) ;;;
  st_ret (negb ok).

(** ** Creation *)

Record wallet_random := WalletRandom {
  r_salt : Z; r_wallet_key : Z; r_seed : Z;
  r_password : list Z; r_wallet_key_mem : list Z
}.

(** The constructor, on a table that may be a wallet already. *)
Definition wallet_store_new (table : gmap Z wallet_value) (representative_a : account) (r : wallet_random) : res wallet_store :=
  let w := WalletStore table (fan_new 0 (r_password r)) (fan_new 0 (r_wallet_key_mem r)) in
  let init : M wallet_store unit :=
    there <- st_get (fun w => bool_decide (is_Some (entries w !! version_special)));;
    (if negb there then
       version_put version_current ;;;
       entry_put_raw salt_special (WalletValue (r_salt r) 0) ;;;
       st_put (set_password (fan_value_set 0)) ;;;
       iv <- st_get salt_iv;;
       let encrypted := encrypt (r_wallet_key r) 0 iv in
       entry_put_raw wallet_key_special (WalletValue encrypted 0) ;;;
       st_put (set_wallet_key_mem (fan_value_set encrypted)) ;;;
       entry_put_raw check_special (WalletValue (encrypt 0 (r_wallet_key r) iv) 0) ;;;
       entry_put_raw representative_special (WalletValue representative_a 0) ;;;
       seed_set (r_seed r) ;;;
       entry_put_raw deterministic_index_special (WalletValue 0 0)
     else st_ret tt) ;;;
    key <- st_get (fun w => wv_key (entry_get_raw w wallet_key_special));;
    st_put (set_wallet_key_mem (fan_value_set key)) in
  match init w with Ok (_, w) => Ok w | Fault f => Fault f end.

(** ** Work *)

Definition work_get (w : wallet_store) (k : account) : option Z :=
  let entry := entry_get_raw w k in
  if negb (is_zero (wv_key entry)) then Some (wv_work entry) else None.

Definition work_put (k : account) (work : Z) : M wallet_store unit :=
  entry <- st_get (fun w => entry_get_raw w k);;
  st_assert (negb (is_zero (wv_key entry))) ;;;
  entry_put_raw k (WalletValue (wv_key entry) work).

(** ** The wallet *)

(** [wallet::insert_adhoc] and [wallet::deterministic_insert], without the work
    that is generated for the new account; zero stands for failure. *)
Definition wallet_insert_adhoc (prv : Z) : M wallet_store account :=
  ok <- st_get valid_password;;
  if ok : bool then insert_adhoc prv else st_ret 0.

Definition wallet_deterministic_insert (fuel : nat) : M wallet_store account :=
  ok <- st_get valid_password;;
  if ok : bool then deterministic_insert fuel else st_ret 0.

(** [wallet::enter_initial_password]: newly created wallets have a zero key. *)
Definition enter_initial_password (random_seed : Z) : M wallet_store unit :=
  password_l <- st_get (fun w => fan_value (password w));;
  if is_zero password_l then
    ok <- st_get valid_password;;
    (if ok : bool then rekey [] ;;; st_ret tt else st_ret tt) ;;;
    attempt_password random_seed [] ;;;
    st_ret tt
  else st_ret tt.

(** ** Between wallets *)

(** The wallet that is called and the other one. *)
Abbreviation both := (wallet_store * wallet_store)%type.

Definition on_this {A} (m : M wallet_store A) : M both A := fun x =>
  match m (fst x) with Ok (a, w) => Ok (a, (w, snd x)) | Fault f => Fault f end.
Definition on_other {A} (m : M wallet_store A) : M both A := fun x =>
  match m (snd x) with Ok (a, w) => Ok (a, (fst x, w)) | Fault f => Fault f end.

(** [result] stays set, and then nothing is moved any more. *)
Fixpoint move_keys (keys : list account) (result : bool) : M both bool :=
  match keys with
  | [] => st_ret result
  | k :: keys =>
      prv <- st_get (fun x => fetch (snd x) k);;
      match prv, result with
      | Some prv, false => on_this (insert_adhoc prv) ;;; on_other (erase k) ;;; move_keys keys false
      | _, _ => move_keys keys true
      end
  end.

Definition wallet_move (keys : list account) : M both bool :=
  ok <- st_get (fun x => valid_password (fst x));;
  st_assert ok ;;;
  ok <- st_get (fun x => valid_password (snd x));;
  st_assert ok ;;;
  move_keys keys false.

Definition wallet_import : M both bool :=
  ok <- st_get (fun x => valid_password (fst x));;
  st_assert ok ;;;
  ok <- st_get (fun x => valid_password (snd x));;
  st_assert ok ;;;
  keys <- st_get (fun x => wallet_accounts (snd x));;
  move_keys keys false.
End Store.
