(* ===== verification/WalletRing.v ===== *)
(** * A wallet is a key ring

    What a wallet promises, without encryption: a map from accounts to private
    keys, some of them derived from a seed, that opens with a password.  The table
    of the wallet is shown to implement it.  How much the encryption adds is shown
    too: nothing, because the check value is the key stream itself. *)
From Stdlib Require Import ZArith Lia List.
From stdpp Require Import prelude gmap sorting.
From S2P Require Import Prelude Lists Blake2b Numbers Streams Blocks Store Ledger StoreFacts LedgerInv LedgerQueries LedgerExtend LedgerProcess Work BootstrapServer BootstrapTheorems Wallet.

(** ** Exclusive or *)

Lemma xor256_cancel a b : xor256 (xor256 a b) b = a.
Proof. unfold xor256. by rewrite Z.lxor_assoc, Z.lxor_nilpotent, Z.lxor_0_r. Qed.

Lemma xor256_0_l a : xor256 0 a = a.
Proof. apply Z.lxor_0_l. Qed.

Lemma fold_xor (l : list Z) x y : fold_left xor256 l (xor256 x y) = xor256 x (fold_left xor256 l y).
Proof. revert y. induction l as [|z l IH]; intros y; cbn; [done|]. rewrite <- IH. f_equal. apply Z.lxor_assoc. Qed.

Lemma fan_cons x f : fan_value (x :: f) = xor256 x (fan_value f).
Proof. unfold fan_value. cbn. rewrite xor256_0_l. rewrite <- (Z.lxor_0_r x) at 1. exact (fold_xor f x 0). Qed.

(** A fan keeps what it is given. *)
Lemma fan_set_value v f : f <> [] -> fan_value (fan_value_set v f) = v /\ fan_value_set v f <> [].
Proof.
  destruct f as [|x f]; [done|]. intros _. cbn [fan_value_set]. split; [|done]. rewrite !fan_cons. unfold xor256.
  rewrite <- (Z.lxor_assoc x x), Z.lxor_nilpotent, Z.lxor_0_l.
  by rewrite (Z.lxor_comm _ v), Z.lxor_assoc, Z.lxor_nilpotent, Z.lxor_0_r.
Qed.

Lemma fan_new_value key random : fan_value (fan_new key random) = key /\ fan_new key random <> [].
Proof.
  split; [|unfold fan_new; by destruct random]. unfold fan_new, fan_value. rewrite fold_left_app. cbn.
  rewrite <- (Z.lxor_0_r key) at 1. fold (xor256 key 0). rewrite fold_xor. unfold xor256.
  by rewrite (Z.lxor_comm key), <- Z.lxor_assoc, Z.lxor_nilpotent, Z.lxor_0_l.
Qed.

(** ** The specification *)

Inductive ring_key := Own (prv : Z) | Derived (index : Z).

Record key_ring := KeyRing {
  ring_keys : gmap account ring_key;
  ring_seed : Z;
  ring_next : Z;
  ring_password : option (list byte);
  ring_unlocked : bool
}.

Definition private_of (seed : Z) (k : ring_key) : Z :=
  match k with Own prv => prv | Derived i => derived_key seed i end.

Definition ring_secret (r : key_ring) (a : account) : option Z := private_of (ring_seed r) <$> ring_keys r !! a.

(** What the user asks of a wallet. *)
Inductive wallet_op :=
| Insert (prv : Z)
| Derive
| Rekey (text : list byte)
| Enter (text : list byte)
| Remove (a : account)
| New_seed (prv : Z)
| Set_work (a : account) (work : Z).

Section Spec.
Context `{WalletCrypto}.

Definition is_derived (k : ring_key) : Prop := match k with Derived _ => True | Own _ => False end.
#[export] Instance is_derived_dec k : Decision (is_derived k).
Proof. destruct k; cbn; apply _. Defined.

(** What it does to the key ring, and the account it answers with, zero for none
    and one for the error of an operation that has no account. *)
Inductive ring_step (r : key_ring) : wallet_op -> Z -> key_ring -> Prop :=
| Ring_insert prv :
    ring_unlocked r = true ->
    ring_step r (Insert prv) (ed25519_publickey prv)
      (KeyRing (<[ed25519_publickey prv := Own prv]> (ring_keys r)) (ring_seed r) (ring_next r) (ring_password r) true)
| Ring_insert_locked prv : ring_unlocked r = false -> ring_step r (Insert prv) 0 r
| Ring_derive i a :
    ring_unlocked r = true -> a = ed25519_publickey (derived_key (ring_seed r) i) -> ring_keys r !! a = None ->
    ring_step r Derive a
      (KeyRing (<[a := Derived i]> (ring_keys r)) (ring_seed r) (wrap 32 (i + 1)) (ring_password r) true)
| Ring_derive_locked : ring_unlocked r = false -> ring_step r Derive 0 r
| Ring_rekey text :
    ring_unlocked r = true ->
    ring_step r (Rekey text) 0 (KeyRing (ring_keys r) (ring_seed r) (ring_next r) (Some text) true)
| Ring_rekey_locked text : ring_unlocked r = false -> ring_step r (Rekey text) 1 r
| Ring_enter text (u : bool) :
    (ring_password r = Some text -> u = true) ->
    ring_step r (Enter text) (if u then 0 else 1) (KeyRing (ring_keys r) (ring_seed r) (ring_next r) (ring_password r) u)
| Ring_remove a :
    is_Some (ring_keys r !! a) ->
    ring_step r (Remove a) 0 (KeyRing (delete a (ring_keys r)) (ring_seed r) (ring_next r) (ring_password r) (ring_unlocked r))
| Ring_new_seed prv :
    ring_unlocked r = true ->
    ring_step r (New_seed prv) 0
      (KeyRing (filter (fun x => ~ is_derived (snd x)) (ring_keys r)) prv 0 (ring_password r) true)
| Ring_new_seed_locked prv : ring_unlocked r = false -> ring_step r (New_seed prv) 1 r
| Ring_set_work a work : is_Some (ring_keys r !! a) -> ring_step r (Set_work a work) 0 r.
End Spec.

(** ** The implementation *)

Section Refinement.
Context `{WalletCrypto, Network}.
Implicit Types (w : wallet_store) (r : key_ring).

Local Open Scope m_scope.

Definition run_op (fuel : nat) (random_seed : Z) (op : wallet_op) : M wallet_store Z :=
  match op with
  | Insert prv => wallet_insert_adhoc prv
  | Derive => wallet_deterministic_insert fuel
  | Rekey text => e <- rekey text;; st_ret (if e : bool then 1 else 0)
  | Enter text => e <- attempt_password random_seed text;; st_ret (if e : bool then 1 else 0)
  | Remove a => erase a ;;; st_ret 0
  | New_seed prv =>
      ok <- st_get valid_password;;
      if ok : bool then seed_set prv ;;; st_ret 0 else st_ret 1
  | Set_work a work => work_put a work ;;; st_ret 0
  end.

(** A wallet that implements a key ring. *)
Definition keeps (r : key_ring) (ck : Z) (a : account) (k : option ring_key) (v : option wallet_value) : Prop :=
  match k, v with
  | None, None => True
  | Some (Own prv), Some v => wv_key v = xor256 prv ck /\ 2 ^ 64 - 1 < wv_key v /\ ed25519_publickey prv = a
  | Some (Derived i), Some v => wv_key v = 2 ^ 32 + i /\ fits 32 i /\ ed25519_publickey (derived_key (ring_seed r) i) = a
  | _, _ => False
  end.

Record implements w r : Prop := {
  im_keys : forall a, special_count <= a -> keeps r (check w) a (ring_keys r !! a) (entries w !! a);
  im_ring : forall a, is_Some (ring_keys r !! a) -> special_count <= a;
  im_special : forall k, 0 <= k < special_count -> is_Some (entries w !! k);
  im_seed : wv_key (entry_get_raw w seed_special) = xor256 (ring_seed r) (check w);
  im_next : wv_key (entry_get_raw w deterministic_index_special) = ring_next r /\ fits 32 (ring_next r);
  im_version : version w = version_current;
  im_fans : password w <> [] /\ wallet_key_mem w <> [];
  im_mem : fan_value (wallet_key_mem w) = wv_key (entry_get_raw w wallet_key_special);
  im_unlocked : valid_password w = ring_unlocked r;
  im_password : forall t, ring_password r = Some t ->
    aes_ctr (decrypt (wv_key (entry_get_raw w wallet_key_special)) (derive_key w t) (salt_iv w)) (salt_iv w) = check w
}.

(** *** What depends on the first special entries only *)

Record core_same w w' : Prop := {
  cs_entries : forall k, 0 <= k < representative_special -> entries w' !! k = entries w !! k;
  cs_password : password w' = password w;
  cs_mem : wallet_key_mem w' = wallet_key_mem w
}.

Lemma core_get w w' k : core_same w w' -> 0 <= k < representative_special -> entry_get_raw w' k = entry_get_raw w k.
Proof. intros C Hk. unfold entry_get_raw. by rewrite (cs_entries _ _ C). Qed.

Lemma core_facts w w' : core_same w w' ->
  check w' = check w /\ salt w' = salt w /\ version w' = version w /\ wallet_key w' = wallet_key w
  /\ valid_password w' = valid_password w
  /\ wv_key (entry_get_raw w' wallet_key_special) = wv_key (entry_get_raw w wallet_key_special).
Proof.
  intros C. unfold valid_password, wallet_key, check, salt, salt_iv, salt, version.
  rewrite (core_get w w' check_special C), (core_get w w' salt_special C), (core_get w w' version_special C),
    (core_get w w' wallet_key_special C) by (unfold check_special, salt_special, version_special, wallet_key_special, representative_special; lia).
  by rewrite (cs_password _ _ C), (cs_mem _ _ C).
Qed.

Lemma core_put k v w : representative_special <= k -> core_same w (set_entries (insert k v) w).
Proof. intros Hk. split; [|done|done]. intros j Hj. cbn. apply lookup_insert_ne. lia. Qed.
Lemma core_del k w : representative_special <= k -> core_same w (set_entries (delete k) w).
Proof. intros Hk. split; [|done|done]. intros j Hj. cbn. apply lookup_delete_ne. lia. Qed.

(** Nothing but the accounts, the seed and the index has changed. *)
Lemma implements_core w w' r r' :
  implements w r -> core_same w w' -> ring_password r' = ring_password r -> ring_unlocked r' = ring_unlocked r ->
  (forall a, special_count <= a -> keeps r' (check w) a (ring_keys r' !! a) (entries w' !! a)) ->
  (forall a, is_Some (ring_keys r' !! a) -> special_count <= a) ->
  (forall k, 0 <= k < special_count -> is_Some (entries w' !! k)) ->
  wv_key (entry_get_raw w' seed_special) = xor256 (ring_seed r') (check w) ->
  wv_key (entry_get_raw w' deterministic_index_special) = ring_next r' /\ fits 32 (ring_next r') ->
  implements w' r'.
Proof.
  intros I C Hp Hu Hk Hr Hs Hseed Hn. destruct (core_facts w w' C) as (E1 & E2 & E3 & E4 & E5 & E6).
  destruct I as [I1 I2 I3 I4 I5 I6 I7 I8 I9 I10]. split; try congruence; try assumption.
  - intros a Ha. rewrite E1. by apply Hk.
  - by rewrite (cs_password _ _ C), (cs_mem _ _ C).
  - by rewrite (cs_mem _ _ C), E6.
  - intros t Ht. rewrite E1, E6. unfold salt_iv, derive_key. rewrite E2. apply I10. congruence.
Qed.

(** When the password is valid, the key stream is the check value. *)
Lemma stream_is_check w : valid_password w = true <-> aes_ctr (wallet_key w) (salt_iv w) = check w.
Proof. unfold valid_password, encrypt. rewrite xor256_0_l, Z.eqb_eq. split; congruence. Qed.

Lemma seed_of w r : implements w r -> ring_unlocked r = true -> seed w = ring_seed r.
Proof.
  intros I Hu. unfold seed, decrypt. rewrite (im_seed _ _ I). rewrite (proj1 (stream_is_check w)); [apply xor256_cancel|].
  by rewrite (im_unlocked _ _ I).
Qed.

Lemma key_exists_true w k : key_exists w k = true <-> is_Some (entries w !! k).
Proof. apply first_from_found. Qed.

(** *** The operations *)

(** What an operation may be asked for: keys that are not special numbers and
    whose cipher text is not one of the marks, accounts that are there. *)
Context (Hpub : forall prv, fits 256 (ed25519_publickey prv)).

Definition insertable w (prv : Z) : Prop := special_count <= ed25519_publickey prv /\ 2 ^ 64 - 1 < xor256 prv (check w).

Definition op_ok (fuel : nat) w (op : wallet_op) : Prop :=
  match op with
  | Insert prv => insertable w prv
  | Derive => exists j, (j < fuel)%nat
      /\ entries w !! ed25519_publickey (derived_key (seed w) (wrap 32 (deterministic_index_get w + Z.of_nat j))) = None
  | Remove a | Set_work a _ => special_count <= a /\ is_Some (entries w !! a)
  | _ => True
  end.

(** An operation is carried out as the key ring asks for. *)
Definition refines (fuel : nat) (random_seed : Z) w r op : Prop :=
  exists out w' r', run_op fuel random_seed op w = Ok (out, w') /\ ring_step r op out r' /\ implements w' r'.

Lemma special_lt : representative_special < special_count.
Proof. unfold representative_special, special_count. lia. Qed.

Lemma entries_after w k v j : entries (set_entries (insert k v) w) !! j = if decide (k = j) then Some v else entries w !! j.
Proof. cbn. by rewrite lookup_insert. Qed.

Lemma raw_after w k v j : j <> k -> entry_get_raw (set_entries (insert k v) w) j = entry_get_raw w j.
Proof. intros Hj. unfold entry_get_raw. rewrite entries_after, decide_False by done. done. Qed.

(** An account is written. *)
Lemma implements_put w r r' a k v :
  implements w r -> special_count <= a -> keeps r' (check w) a (Some k) (Some v) ->
  ring_keys r' = <[a := k]> (ring_keys r) -> ring_seed r' = ring_seed r -> ring_next r' = ring_next r ->
  ring_password r' = ring_password r -> ring_unlocked r' = ring_unlocked r ->
  implements (set_entries (insert a v) w) r'.
Proof.
  intros I Ha Hk Hkeys Hseed Hnext Hp Hu. pose proof special_lt. pose proof I as [I1 I2 I3 I4 I5 I6 I7 I8 I9 I10].
  eapply (implements_core w); [exact I|apply core_put; lia|exact Hp|exact Hu|..].
  - intros b Hb. rewrite Hkeys, lookup_insert, entries_after. case_decide as Hab; [by subst|]. unfold keeps. rewrite Hseed. by apply I1.
  - intros b. rewrite Hkeys, lookup_insert_is_Some. intros [<-|[_ Hb]]; [done|by apply I2].
  - intros j Hj. rewrite entries_after. case_decide; [by eexists|]. by apply I3.
  - rewrite Hseed, raw_after; [done|]. unfold seed_special, special_count in *. lia.
  - rewrite Hnext, raw_after; [done|]. unfold deterministic_index_special, special_count in *. lia.
Qed.

Lemma insert_refines fuel rs w r prv : implements w r -> insertable w prv -> refines fuel rs w r (Insert prv).
Proof.
  intros I [Ha Hc]. unfold refines, run_op, wallet_insert_adhoc. erewrite st_bind_ok by reflexivity.
  pose proof (im_unlocked _ _ I) as Hu. destruct (valid_password w) eqn:Hv.
  - eexists _, _, _. split; [|split; [by apply Ring_insert|]].
    + unfold insert_adhoc. erewrite st_bind_ok by reflexivity. rewrite Hv. erewrite st_bind_ok by reflexivity.
      erewrite st_bind_ok by reflexivity. erewrite st_bind_ok by reflexivity. reflexivity.
    + eapply implements_put; [exact I|exact Ha| |reflexivity|done..]. cbn. unfold encrypt. rewrite (proj1 (stream_is_check w) Hv). done.
  - eexists _, _, r. split; [reflexivity|]. split; [by apply Ring_insert_locked|exact I].
Qed.

Lemma find_index_run w j fuel i :
  valid_password w = true -> fits 32 i -> (j < fuel)%nat ->
  entries w !! ed25519_publickey (derived_key (seed w) (wrap 32 (i + Z.of_nat j))) = None ->
  exists i', find_index fuel i w = Ok ((i', ed25519_publickey (derived_key (seed w) i')), w)
  /\ fits 32 i' /\ entries w !! ed25519_publickey (derived_key (seed w) i') = None.
Proof.
  intros Hv. revert fuel i. induction j as [|j IH]; intros [|fuel] i Hi Hf Hn; try lia; cbn [find_index];
    (erewrite st_bind_ok; [|unfold deterministic_key; erewrite st_bind_ok by reflexivity; rewrite Hv; by erewrite st_bind_ok by reflexivity]);
    erewrite st_bind_ok by reflexivity; pose proof (key_exists_true w (ed25519_publickey (derived_key (seed w) i))) as Hk;
    destruct (key_exists w _).
  - rewrite Z.add_0_r, wrap_small in Hn by done. destruct (proj1 Hk eq_refl) as [v Hx]. congruence.
  - exists i. split_and!; [done|done|]. rewrite Z.add_0_r, wrap_small in Hn by done. done.
  - apply IH; [apply wrap_fits; lia|lia|]. rewrite wrap_add_l. by replace (i + 1 + Z.of_nat j) with (i + Z.of_nat (S j)) by lia.
  - exists i. split_and!; [done|done|]. apply eq_None_not_Some. intros Hx. by apply Hk in Hx.
Qed.

Lemma marker_value i : fits 32 i -> Z.lor (Z.shiftl 1 32) i = 2 ^ 32 + i.
Proof.
  intros Hi. rewrite Z.shiftl_mul_pow2, Z.mul_1_l by lia. symmetry. apply Z.add_nocarry_lor.
  apply Z.bits_inj'. intros j Hj. rewrite Z.land_spec, Z.pow2_bits_eqb, Z.bits_0 by lia.
  destruct (Z.eqb_spec 32 j) as [<-|]; [|done]. cbn [andb]. rewrite <- (Z.mod_small i (2 ^ 32)) by exact Hi.
  apply Z.mod_pow2_bits_high. lia.
Qed.

(** The index is written. *)
Lemma implements_index w r i :
  implements w r -> fits 32 i ->
  implements (set_entries (insert deterministic_index_special (WalletValue i 0)) w)
    (KeyRing (ring_keys r) (ring_seed r) i (ring_password r) (ring_unlocked r)).
Proof.
  intros I Hi. pose proof I as [I1 I2 I3 I4 I5 I6 I7 I8 I9 I10].
  eapply (implements_core w); [exact I|apply core_put; unfold representative_special, deterministic_index_special; lia|done|done|..].
  - intros a Ha. rewrite entries_after, decide_False; [by apply I1|]. unfold deterministic_index_special, special_count in *. lia.
  - exact I2.
  - intros k Hk. rewrite entries_after. case_decide; [by eexists|by apply I3].
  - by rewrite raw_after.
  - split; [|done]. unfold entry_get_raw. by rewrite entries_after, decide_True.
Qed.

Lemma derive_refines fuel rs w r : implements w r -> op_ok fuel w Derive -> refines fuel rs w r Derive.
Proof.
  intros I (j & Hj & Hn). unfold refines, run_op, wallet_deterministic_insert. erewrite st_bind_ok by reflexivity.
  pose proof (im_unlocked _ _ I) as Hu. destruct (valid_password w) eqn:Hv.
  2:{ eexists _, _, r. split; [reflexivity|]. split; [by apply Ring_derive_locked|exact I]. }
  assert (Hindex : fits 32 (deterministic_index_get w)) by (apply wrap_fits; lia).
  destruct (find_index_run w j fuel _ Hv Hindex Hj Hn) as (i & Hfind & Hi & Hnone).
  rewrite (seed_of w r I (eq_sym Hu)) in Hfind, Hnone. set (a := ed25519_publickey (derived_key (ring_seed r) i)) in *.
  assert (Ha : special_count <= a).
  { destruct (decide (special_count <= a)) as [?|Hlt]; [done|]. pose proof (Hpub (derived_key (ring_seed r) i)) as Hfit. unfold fits in Hfit. fold a in Hfit.
    destruct (im_special _ _ I a) as [v Hx]; [lia|congruence]. }
  assert (Hfree : ring_keys r !! a = None).
  { pose proof (im_keys _ _ I a Ha) as Hk. rewrite Hnone in Hk. destruct (ring_keys r !! a) as [[]|]; [done..|done]. }
  set (w1 := set_entries (insert a (WalletValue (Z.lor (Z.shiftl 1 32) i) 0)) w).
  set (r1 := KeyRing (<[a := Derived i]> (ring_keys r)) (ring_seed r) (ring_next r) (ring_password r) true).
  exists a, (set_entries (insert deterministic_index_special (WalletValue (wrap 32 (i + 1)) 0)) w1). eexists.
  split; [|split; [by apply (Ring_derive r i a)|]].
  - unfold deterministic_insert. erewrite st_bind_ok by reflexivity. erewrite st_bind_ok by exact Hfind. cbv beta iota.
    erewrite st_bind_ok by reflexivity. erewrite st_bind_ok by reflexivity. reflexivity.
  - apply (implements_index w1 r1); [|apply wrap_fits; lia].
    eapply implements_put; [exact I|exact Ha| |reflexivity|done..]. cbn. rewrite marker_value by done. done.
Qed.

Lemma remove_refines fuel rs w r a : implements w r -> op_ok fuel w (Remove a) -> refines fuel rs w r (Remove a).
Proof.
  intros I [Ha Hx]. pose proof special_lt. pose proof I as [I1 I2 I3 I4 I5 I6 I7 I8 I9 I10].
  assert (Hr : is_Some (ring_keys r !! a)).
  { specialize (I1 a Ha). destruct Hx as [v Hv]. rewrite Hv in I1. destruct (ring_keys r !! a) as [k|]; [by eexists|done]. }
  eexists _, _, _. split; [|split; [by apply Ring_remove|]].
  - cbn [run_op]. unfold erase. erewrite st_bind_ok.
    2:{ erewrite st_bind_ok by reflexivity. rewrite bool_decide_eq_true_2 by done. by erewrite st_bind_ok by reflexivity. }
    reflexivity.
  - assert (Hraw : forall k, k <> a -> entry_get_raw (set_entries (delete a) w) k = entry_get_raw w k)
      by (intros k Hk; unfold entry_get_raw; cbn; by rewrite lookup_delete_ne).
    eapply (implements_core w); [exact I|apply core_del; lia|done|done|..].
    + intros b Hb. cbn. rewrite !lookup_delete. case_decide; [done|]. by apply I1.
    + intros b. cbn. rewrite lookup_delete_is_Some. intros [_ Hb]. by apply I2.
    + intros k Hk. cbn. rewrite lookup_delete_ne by lia. by apply I3.
    + rewrite Hraw; [done|]. unfold seed_special, special_count in *. lia.
    + rewrite Hraw; [done|]. unfold deterministic_index_special, special_count in *. lia.
Qed.

Lemma set_work_refines fuel rs w r a work : implements w r -> op_ok fuel w (Set_work a work) -> refines fuel rs w r (Set_work a work).
Proof.
  intros I [Ha [v Hv]]. pose proof (im_keys _ _ I a Ha) as Hk. rewrite Hv in Hk.
  destruct (ring_keys r !! a) as [k|] eqn:Hr; [|done].
  assert (Hz : wv_key v <> 0) by (destruct k; cbn in Hk; unfold fits in Hk; lia).
  eexists _, _, r. split; [|split; [apply Ring_set_work; by eexists|]].
  - cbn [run_op]. erewrite st_bind_ok.
    2:{ unfold work_put. erewrite st_bind_ok by reflexivity. unfold entry_get_raw. rewrite Hv. cbn [default].
        rewrite is_zero_ne by done. by erewrite st_bind_ok by reflexivity. }
    reflexivity.
  - eapply (implements_put w r r a k); [exact I|exact Ha| | |done..]; [|symmetry; by apply insert_id].
    destruct k; exact Hk.
Qed.

Lemma rekey_refines fuel rs w r text : implements w r -> refines fuel rs w r (Rekey text).
Proof.
  intros I. pose proof (im_unlocked _ _ I) as Hu. unfold refines, run_op. destruct (valid_password w) eqn:Hv.
  2:{ exists 1, w, r. split; [|split; [by apply Ring_rekey_locked|exact I]]. unfold rekey, st_bind, st_get. by rewrite Hv. }
  pose proof I as [I1 I2 I3 I4 I5 I6 [I7 I7'] I8 I9 I10].
  set (pn := derive_key w text). set (enc := encrypt (wallet_key w) pn (salt_iv w)).
  set (w' := set_entries (insert wallet_key_special (WalletValue enc 0))
               (set_wallet_key_mem (fan_value_set enc) (set_password (fan_value_set pn) w))).
  assert (Hraw : forall k, k <> wallet_key_special -> entry_get_raw w' k = entry_get_raw w k).
  { intros k Hk. unfold entry_get_raw. cbn. by rewrite lookup_insert_ne. }
  assert (Hnew : wv_key (entry_get_raw w' wallet_key_special) = enc) by (unfold entry_get_raw; cbn; by rewrite lookup_insert_eq).
  assert (Hc : check w' = check w) by (unfold check; by rewrite Hraw).
  assert (Hs : salt w' = salt w) by (unfold salt; by rewrite Hraw).
  assert (Hiv : salt_iv w' = salt_iv w) by (unfold salt_iv; by rewrite Hs).
  destruct (fan_set_value pn _ I7) as [Fp Fp']. destruct (fan_set_value enc _ I7') as [Fm Fm'].
  assert (Hwk : wallet_key w' = wallet_key w).
  { unfold wallet_key at 1. cbn [w' set_entries set_wallet_key_mem set_password wallet_key_mem password]. rewrite Fm, Fp, Hiv.
    unfold decrypt, enc, encrypt. apply xor256_cancel. }
  exists 0, w'. eexists. split; [|split; [by apply Ring_rekey|]].
  - erewrite st_bind_ok.
    2:{ unfold rekey. erewrite st_bind_ok by reflexivity. rewrite Hv. erewrite st_bind_ok by reflexivity. erewrite st_bind_ok by reflexivity.
        erewrite st_bind_ok by reflexivity. erewrite st_bind_ok by reflexivity. erewrite st_bind_ok by reflexivity.
        erewrite st_bind_ok by reflexivity. reflexivity. }
    reflexivity.
  - split.
    + intros a Ha. rewrite Hc. cbn. rewrite lookup_insert_ne by (unfold special_count, wallet_key_special in *; lia). by apply I1.
    + exact I2.
    + intros k Hk. cbn. rewrite lookup_insert. case_decide; [by eexists|by apply I3].
    + rewrite Hc, Hraw by done. exact I4.
    + rewrite Hraw by done. exact I5.
    + unfold version. rewrite Hraw by done. exact I6.
    + done.
    + by rewrite Hnew.
    + apply stream_is_check. rewrite Hwk, Hiv, Hc. by apply stream_is_check.
    + intros t [= <-]. rewrite Hnew, Hiv, Hc. unfold derive_key. rewrite Hs. fold (derive_key w text). fold pn.
      unfold enc, decrypt, encrypt. rewrite xor256_cancel. by apply stream_is_check.
Qed.

(** Entering a password, when no upgrade is due. *)
Lemma attempt_run rs text w :
  version w = version_current ->
  let w' := set_password (fan_value_set (derive_key w text)) w in attempt_password rs text w = Ok (negb (valid_password w'), w').
Proof.
  intros Hv w'. unfold attempt_password. erewrite st_bind_ok by reflexivity. erewrite st_bind_ok by reflexivity. fold w'.
  erewrite st_bind_ok by reflexivity. erewrite st_bind_ok by reflexivity. change (version w') with (version w). rewrite Hv.
  erewrite st_bind_ok by (destruct (valid_password w'); reflexivity). reflexivity.
Qed.

Lemma enter_refines fuel rs w r text : implements w r -> refines fuel rs w r (Enter text).
Proof.
  intros I. pose proof I as [I1 I2 I3 I4 I5 I6 [I7 I7'] I8 I9 I10]. unfold refines, run_op.
  set (w' := set_password (fan_value_set (derive_key w text)) w).
  destruct (fan_set_value (derive_key w text) _ I7) as [Fp Fp'].
  exists (if valid_password w' then 0 else 1), w'. eexists. split; [|split; [apply (Ring_enter r text (valid_password w'))|]].
  - erewrite st_bind_ok by exact (attempt_run rs text w I6). fold w'. by destruct (valid_password w').
  - intros Hp. apply stream_is_check. unfold wallet_key. cbn [w' set_password wallet_key_mem password]. rewrite Fp, I8. by apply I10.
  - split; try done.
Qed.

(** The keys of a list that are derived are erased. *)
Lemma clear_keys_run l w :
  NoDup (fst <$> l) -> (forall k v, (k, v) ∈ l -> entries w !! k = Some v) ->
  exists w', clear_keys l w = Ok (tt, w') /\ password w' = password w /\ wallet_key_mem w' = wallet_key_mem w
  /\ forall k v, entries w' !! k = Some v <-> entries w !! k = Some v /\ ~ ((k, v) ∈ l /\ key_type_of v = deterministic).
Proof.
  revert w. induction l as [|[k v] l IH]; intros w Hnd Hin.
  { exists w. split_and!; [done..|]. intros k v. split; [|by intros [? _]]. intros Hk. split; [done|]. by intros [?%not_elem_of_nil _]. }
  cbn in Hnd. apply NoDup_cons in Hnd as [Hk Hnd]. cbn [clear_keys]. pose proof (Hin k v ltac:(left)) as Hkv.
  set (w1 := if bool_decide (key_type_of v = deterministic) then set_entries (delete k) w else w).
  assert (Hstep : (if bool_decide (key_type_of v = deterministic) then erase k else st_ret tt) w = Ok (tt, w1)).
  { unfold w1. case_bool_decide; [|done]. unfold erase. erewrite st_bind_ok by reflexivity. by rewrite bool_decide_eq_true_2. }
  assert (Hne : forall k' v', (k', v') ∈ l -> k' <> k).
  { intros k' v' Hl ->. apply Hk. apply list_elem_of_fmap. by exists (k, v'). }
  assert (H1 : forall k', k' <> k -> entries w1 !! k' = entries w !! k').
  { intros k' Hk'. unfold w1. case_bool_decide; [|done]. cbn. by rewrite lookup_delete_ne. }
  destruct (IH w1 Hnd) as (w' & Hrun & Hp & Hm & Hw).
  { intros k' v' Hl. rewrite H1 by (by eapply Hne). apply Hin. by right. }
  exists w'. split_and!; [by erewrite st_bind_ok by exact Hstep| | |].
  - rewrite Hp. unfold w1. by case_bool_decide.
  - rewrite Hm. unfold w1. by case_bool_decide.
  - intros k' v'. rewrite Hw, elem_of_cons. destruct (decide (k' = k)) as [->|Hk'].
    + assert (Hno : (k, v') ∉ l) by (intros Hl; by eapply Hne). unfold w1. case_bool_decide as Ht.
      * cbn. rewrite lookup_delete_eq. split; [by intros [? _]|]. rewrite Hkv. intros [[= <-] Hx]. destruct Hx. auto.
      * rewrite Hkv. split; [|intros [? _]; by split; [|intros [? _]]]. intros [[= <-] _]. split; [done|].
        intros [[_|?] ?]; done.
    + rewrite H1 by done. split; intros [Hv Hx]; (split; [done|]); [|tauto]. intros [[[= <-]|Hl] Ht]; [done|tauto].
Qed.

Lemma key_type_own v : 2 ^ 64 - 1 < wv_key v -> key_type_of v = adhoc.
Proof. intros Hv. unfold key_type_of. by destruct (Z.ltb_spec (2 ^ 64 - 1) (wv_key v)); [|lia]. Qed.

Lemma key_type_derived v i : wv_key v = 2 ^ 32 + i -> fits 32 i -> key_type_of v = deterministic /\ wrap 32 (wv_key v) = i.
Proof.
  unfold fits. intros Hv Hi. unfold key_type_of. rewrite Hv. destruct (Z.ltb_spec (2 ^ 64 - 1) (2 ^ 32 + i)); [lia|].
  rewrite Z.shiftr_div_pow2 by lia. replace ((2 ^ 32 + i) / 2 ^ 32) with 1; [split; [done|]|].
  - unfold wrap. rewrite <- (Z.mod_small i (2 ^ 32)) at 2 by lia. rewrite Z.add_comm. exact (Z_mod_plus_full i 1 (2 ^ 32)).
  - apply (Z.div_unique _ _ _ i); lia.
Qed.

Lemma new_seed_refines fuel rs w r prv : implements w r -> refines fuel rs w r (New_seed prv).
Proof.
  intros I. pose proof (im_unlocked _ _ I) as Hu. unfold refines, run_op. destruct (valid_password w) eqn:Hv.
  2:{ exists 1, w, r. split; [|split; [by apply Ring_new_seed_locked|exact I]]. unfold st_bind, st_get. by rewrite Hv. }
  pose proof I as [I1 I2 I3 I4 I5 I6 I7 I8 I9 I10].
  set (c := encrypt prv (wallet_key w) (salt_iv w)). set (w1 := set_entries (insert seed_special (WalletValue c 0)) w).
  assert (C1 : core_same w w1) by (apply core_put; unfold representative_special, seed_special; lia).
  destruct (clear_keys_run (wallet_begin w1) w1) as (w2 & Hrun & Hp & Hm & Hw).
  { apply table_from_nodup. }
  { intros k v Hk. by apply table_from_elem in Hk as [_ Hk]. }
  assert (Hlow : forall k, k < special_count -> entries w2 !! k = entries w1 !! k).
  { intros k Hk. apply option_eq. intros v. rewrite Hw. split; [by intros [? _]|]. intros Hv'. split; [done|].
    intros [Hin _]. apply table_from_elem in Hin as [? _]. lia. }
  set (w3 := set_entries (insert deterministic_index_special (WalletValue 0 0)) w2).
  exists 0, w3. eexists. split; [|split; [by apply Ring_new_seed|]].
  - erewrite st_bind_ok by reflexivity. rewrite Hv. erewrite st_bind_ok.
    2:{ unfold seed_set. erewrite st_bind_ok by reflexivity. erewrite st_bind_ok by reflexivity. fold c. fold w1.
        unfold deterministic_clear. erewrite st_bind_ok by reflexivity. erewrite st_bind_ok by exact Hrun. reflexivity. }
    reflexivity.
  - pose proof special_lt as Hsl. unfold representative_special in Hsl.
    eapply (implements_core w); [exact I| |done|done|..].
    + split; [|cbn; by rewrite Hp|cbn; by rewrite Hm]. intros k Hk. unfold representative_special in Hk. cbn.
      rewrite lookup_insert_ne by (unfold deterministic_index_special; lia). rewrite Hlow by lia. cbn.
      rewrite lookup_insert_ne by (unfold seed_special; lia). done.
    + intros a Ha. cbn [ring_keys ring_seed w3 set_entries entries].
      rewrite lookup_insert_ne by (unfold deterministic_index_special, special_count in *; lia).
      assert (Hw1 : entries w1 !! a = entries w !! a) by (cbn; rewrite lookup_insert_ne; [done|unfold seed_special, special_count in *; lia]).
      specialize (I1 a Ha). unfold keeps in *.
      destruct (ring_keys r !! a) as [[p|i]|] eqn:Hra, (entries w !! a) as [v|] eqn:Hv1; try done.
      * rewrite (map_lookup_filter_Some_2 _ _ _ _ Hra) by (cbn; tauto). replace (entries w2 !! a) with (Some v); [done|]. symmetry. apply Hw. split; [congruence|].
        intros [_ Ht]. rewrite key_type_own in Ht by apply I1. discriminate Ht.
      * rewrite (map_lookup_filter_None_2 _ (ring_keys r) a) by (right; intros x; rewrite Hra; intros [= <-]; cbn; tauto).
        replace (entries w2 !! a) with (@None wallet_value); [done|]. symmetry.
        apply eq_None_not_Some. intros [v' Hv']. apply Hw in Hv' as [Hv' Hx]. rewrite Hw1 in Hv'. injection Hv' as <-.
        apply Hx. split; [apply table_from_elem; split; [done|congruence]|]. exact (proj1 (key_type_derived v i (proj1 I1) (proj1 (proj2 I1)))).
      * rewrite (map_lookup_filter_None_2 _ (ring_keys r) a) by (by left).
        replace (entries w2 !! a) with (@None wallet_value); [done|]. symmetry. apply eq_None_not_Some. intros [v' Hv'].
        apply Hw in Hv' as [Hv' _]. congruence.
    + cbn. intros a [k Hk]. apply map_lookup_filter_Some in Hk as [Hk _]. apply I2. by eexists.
    + intros k Hk. cbn. rewrite lookup_insert. case_decide; [by eexists|]. rewrite Hlow by lia. cbn. rewrite lookup_insert.
      case_decide; [by eexists|by apply I3].
    + cbn [ring_seed]. unfold entry_get_raw. cbn. rewrite lookup_insert_ne by done. rewrite Hlow by done. cbn.
      rewrite lookup_insert_eq. cbn. unfold c, encrypt. by rewrite (proj1 (stream_is_check w) Hv).
    + cbn [ring_next]. unfold entry_get_raw. cbn. rewrite lookup_insert_eq. split; [done|]. unfold fits. lia.
Qed.

Lemma op_refines fuel rs w r op : implements w r -> op_ok fuel w op -> refines fuel rs w r op.
Proof.
  intros I Hop. destruct op.
  - by apply insert_refines.
  - by apply derive_refines.
  - by apply rekey_refines.
  - by apply enter_refines.
  - by apply remove_refines.
  - by apply new_seed_refines.
  - by apply set_work_refines.
Qed.

(** *** Creation *)

Lemma wallet_new_implements rep rnd :
  exists w, wallet_store_new ∅ rep rnd = Ok w /\ implements w (KeyRing ∅ (r_seed rnd) 0 None true).
Proof.
  destruct rnd as [sa ke se pa me]. unfold wallet_store_new. cbn [r_salt r_wallet_key r_seed r_password r_wallet_key_mem].
  destruct (fan_new_value 0 pa) as [_ Fp]. destruct (fan_new_value 0 me) as [_ Fm].
  set (p1 := fan_value_set 0 (fan_new 0 pa)). destruct (fan_set_value 0 _ Fp) as [Vp Np]. fold p1 in Vp, Np.
  set (iv := Z.shiftr sa 128). set (enc := encrypt ke 0 iv).
  set (m1 := fan_value_set enc (fan_new 0 me)). destruct (fan_set_value enc _ Fm) as [Vm Nm]. fold m1 in Vm, Nm.
  set (t1 := <[representative_special := WalletValue rep 0]> (<[check_special := WalletValue (encrypt 0 ke iv) 0]>
    (<[wallet_key_special := WalletValue enc 0]> (<[salt_special := WalletValue sa 0]> (<[version_special := WalletValue 3 0]> (∅ : gmap Z wallet_value)))))).
  set (w1 := WalletStore t1 p1 m1).
  assert (Hk : wallet_key w1 = ke).
  { unfold wallet_key. cbn [w1 password wallet_key_mem]. rewrite Vm, Vp. change (salt_iv w1) with iv. unfold enc, decrypt, encrypt. apply xor256_cancel. }
  set (sd := encrypt se (wallet_key w1) iv).
  set (w2 := set_entries (insert deterministic_index_special (WalletValue 0 0))
    (set_entries (insert deterministic_index_special (WalletValue 0 0)) (set_entries (insert seed_special (WalletValue sd 0)) w1))).
  exists (set_wallet_key_mem (fan_value_set enc) w2). split.
  - reflexivity.
  - destruct (fan_set_value enc _ Nm) as [Vm2 Nm2]. set (w := set_wallet_key_mem (fan_value_set enc) w2).
    assert (Hc : check w = aes_ctr ke iv) by exact (xor256_0_l _).
    assert (Hkey : wallet_key w = ke).
    { unfold wallet_key. change (wallet_key_mem w) with (fan_value_set enc m1). change (password w) with p1. change (salt_iv w) with iv.
      rewrite Vm2, Vp. unfold enc, decrypt, encrypt. apply xor256_cancel. }
    split; cbn [ring_keys ring_seed ring_next ring_password ring_unlocked].
    + intros a Ha. rewrite lookup_empty. replace (entries w !! a) with (@None wallet_value); [done|].
      unfold special_count in Ha. unfold w, w2, w1, t1. cbn [set_wallet_key_mem set_entries entries].
      unfold deterministic_index_special, seed_special, representative_special, check_special, wallet_key_special, salt_special, version_special.
      rewrite !lookup_insert_ne by lia. by rewrite lookup_empty.
    + intros a [k Hx]. by rewrite lookup_empty in Hx.
    + intros k Hx. unfold special_count in Hx. assert (Hl : k ∈ [0; 1; 2; 3; 4; 5; 6]).
      { rewrite !elem_of_cons. lia. }
      rewrite !elem_of_cons, elem_of_nil in Hl. destruct_or? Hl; try done; subst k; by eexists.
    + change (wv_key (entry_get_raw w seed_special)) with sd. unfold sd, encrypt. by rewrite Hk, Hc.
    + split; [done|]. unfold fits. lia.
    + done.
    + done.
    + change (wallet_key_mem w) with (fan_value_set enc m1). by rewrite Vm2.
    + apply stream_is_check. rewrite Hkey, Hc. done.
    + done.
Qed.

(** *** Fetching *)

Lemma fetch_run w r a :
  implements w r -> special_count <= a -> fetch w a = if ring_unlocked r then ring_secret r a else None.
Proof.
  intros I Ha. unfold fetch. rewrite (im_unlocked _ _ I). destruct (ring_unlocked r) eqn:Hu; [|done].
  assert (Hc : aes_ctr (wallet_key w) (salt_iv w) = check w) by (apply stream_is_check; by rewrite (im_unlocked _ _ I)).
  pose proof (im_keys _ _ I a Ha) as Hk. unfold keeps in Hk. unfold ring_secret, entry_get_raw.
  destruct (ring_keys r !! a) as [[prv|i]|], (entries w !! a) as [v|]; try done; cbn [from_option id fmap option_fmap option_map private_of].
  - destruct Hk as (Hv & Hlt & Hp). rewrite is_zero_ne, key_type_own by lia. cbn [negb]. unfold decrypt.
    by rewrite Hv, Hc, xor256_cancel, Hp, Z.eqb_refl.
  - destruct Hk as (Hv & Hi & Hp). destruct (key_type_derived v i Hv Hi) as [Ht Hw]. unfold fits in Hi.
    rewrite is_zero_ne, Ht by lia. cbn [negb]. by rewrite (seed_of w r I Hu), Hw, Hp, Z.eqb_refl.
Qed.

Lemma accounts_run w r a : implements w r -> a ∈ wallet_accounts w <-> is_Some (ring_keys r !! a).
Proof.
  intros I. unfold wallet_accounts, wallet_begin. rewrite list_elem_of_fmap. split.
  - intros ([k v] & -> & (Hk & Hv)%table_from_elem). cbn. pose proof (im_keys _ _ I k Hk) as Hx. rewrite Hv in Hx.
    destruct (ring_keys r !! k); [by eexists|done].
  - intros Hr. pose proof (im_ring _ _ I a Hr) as Ha. pose proof (im_keys _ _ I a Ha) as Hx. destruct Hr as [k Hk]. rewrite Hk in Hx.
    destruct (entries w !! a) as [v|] eqn:Hv; [|by destruct k]. exists (a, v). split; [done|]. by apply table_from_elem.
Qed.

(** *** Moving keys *)

Definition all_insertable w (keys : list account) (q : key_ring) : Prop :=
  forall a prv, a ∈ keys -> ring_secret q a = Some prv -> insertable w prv.

Lemma ring_entry w r a : implements w r -> is_Some (ring_secret r a) -> is_Some (entries w !! a).
Proof.
  intros I Hs. unfold ring_secret in Hs. apply fmap_is_Some in Hs. pose proof (im_keys _ _ I a (im_ring _ _ I a Hs)) as Hx.
  destruct Hs as [k Hk]. rewrite Hk in Hx. destruct (entries w !! a) as [v|]; [by eexists|]. destruct k; destruct Hx.
Qed.

(** A key that is fetched belongs to its account. *)
Lemma secret_pub w r a prv : implements w r -> ring_secret r a = Some prv -> ed25519_publickey prv = a /\ special_count <= a.
Proof.
  intros I Hs. unfold ring_secret in Hs. destruct (ring_keys r !! a) as [k|] eqn:Hk; [|done].
  pose proof (im_ring _ _ I a ltac:(by eexists)) as Ha. split; [|exact Ha]. pose proof (im_keys _ _ I a Ha) as Hx. rewrite Hk in Hx.
  unfold keeps in Hx. cbn [fmap option_fmap option_map] in Hs. injection Hs as <-. destruct k as [p|j], (entries w !! a); try destruct Hx.
  - tauto.
  - tauto.
Qed.

(** One key from the other wallet to this one. *)
Lemma move_one w o r q a prv :
  implements w r -> implements o q -> ring_unlocked r = true -> ring_secret q a = Some prv -> insertable w prv ->
  exists w' o', on_this (insert_adhoc prv) (w, o) = Ok (a, (w', o)) /\ on_other (erase a) (w', o) = Ok (tt, (w', o'))
  /\ check w' = check w
  /\ implements w' (KeyRing (<[a := Own prv]> (ring_keys r)) (ring_seed r) (ring_next r) (ring_password r) true)
  /\ implements o' (KeyRing (delete a (ring_keys q)) (ring_seed q) (ring_next q) (ring_password q) (ring_unlocked q)).
Proof.
  intros I J Hu Hs Hins. destruct (secret_pub o q a prv J Hs) as [Hp Ha]. subst a.
  destruct (insert_refines 0 0 w r prv I Hins) as (out & w' & r' & Hrun & Hstep & I').
  assert (Hv : valid_password w = true) by (by rewrite (im_unlocked _ _ I)).
  cbn [run_op] in Hrun. unfold wallet_insert_adhoc, st_bind at 1, st_get at 1 in Hrun. rewrite Hv in Hrun.
  inversion Hstep; subst; [|congruence].
  destruct (remove_refines 0 0 o q (ed25519_publickey prv) J) as (out & o' & q' & Hrun' & Hstep' & J').
  { split; [exact Ha|]. apply (ring_entry o q); [exact J|]. rewrite Hs. by eexists. }
  inversion Hstep'; subst. cbn [run_op] in Hrun'. unfold st_bind at 1 in Hrun'.
  destruct (erase _ o) as [[[] o1]|] eqn:He; [|done]. injection Hrun' as <-.
  exists w', o1. split_and!; [unfold on_this; cbn [fst snd]; by rewrite Hrun|unfold on_other; cbn [fst snd]; by rewrite He| |exact I'|exact J'].
  unfold insert_adhoc, st_bind, st_get, st_assert, st_ret in Hrun. rewrite Hv in Hrun. injection Hrun as <-.
  pose proof special_lt as Hsl. assert (Hle : representative_special <= ed25519_publickey prv) by (destruct Hins; lia).
  exact (proj1 (core_facts _ _ (core_put _ _ w Hle))).
Qed.

Record moved (keys : list account) (r q r' q' : key_ring) : Prop := {
  mv_this : forall a, a ∉ keys -> ring_secret r' a = ring_secret r a;
  mv_other : forall a, a ∉ keys -> ring_secret q' a = ring_secret q a;
  mv_kept : forall a prv, ring_secret q a = Some prv -> ring_secret q' a = Some prv \/ ring_secret r' a = Some prv;
  mv_never_lost : forall a, is_Some (ring_secret r a) -> is_Some (ring_secret r' a);
  mv_unlocked : ring_unlocked r' = ring_unlocked r /\ ring_unlocked q' = ring_unlocked q
}.

Lemma move_keys_run keys res w o r q :
  implements w r -> implements o q -> ring_unlocked r = true -> ring_unlocked q = true -> NoDup keys ->
  (forall a, a ∈ keys -> special_count <= a) -> all_insertable w keys q ->
  exists res' w' o' r' q', move_keys keys res (w, o) = Ok (res', (w', o')) /\ implements w' r' /\ implements o' q' /\ moved keys r q r' q'
  /\ (res' = false <-> res = false /\ forall a, a ∈ keys -> is_Some (ring_secret q a))
  /\ (res' = false -> forall a, a ∈ keys -> ring_keys q' !! a = None /\ ring_secret r' a = ring_secret q a).
Proof.
  revert res w o r q. induction keys as [|a keys IH]; intros res w o r q I J Hr Hq Hnd Hsp Hins.
  { exists res, w, o, r, q. split_and!; [done|done|done| | |by intros _ a ?%not_elem_of_nil].
    - split; auto.
    - split; [|by intros [? _]]. intros ->. split; [done|]. by intros a ?%not_elem_of_nil. }
  apply NoDup_cons in Hnd as [Hna Hnd]. cbn [move_keys]. erewrite st_bind_ok by reflexivity. cbn [snd].
  rewrite (fetch_run o q a J (Hsp a ltac:(left))), Hq.
  assert (Hskip : forall w1, (ring_secret q a = None \/ res = true) -> w1 = w ->
    exists res' w' o' r' q', move_keys keys true (w1, o) = Ok (res', (w', o')) /\ implements w' r' /\ implements o' q' /\ moved (a :: keys) r q r' q'
    /\ (res' = false <-> res = false /\ forall b, b ∈ a :: keys -> is_Some (ring_secret q b))
    /\ (res' = false -> forall b, b ∈ a :: keys -> ring_keys q' !! b = None /\ ring_secret r' b = ring_secret q b)).
  { intros w1 Hno ->. destruct (IH true w o r q I J Hr Hq Hnd) as (res' & w' & o' & r' & q' & Hrun & I' & J' & [M1 M2 M3 M4 M5] & [Hres _] & _).
    - intros b Hb. apply Hsp. by right.
    - intros b prv Hb. apply Hins. by right.
    - assert (Ht : res' = true) by (destruct res'; [done|by destruct (Hres eq_refl)]). subst res'.
      exists true, w', o', r', q'. split_and!; [done|done|done| |..]; [split; try done|split; [done|]|done].
      + intros b Hb. apply M1. intros Hx. apply Hb. by right.
      + intros b Hb. apply M2. intros Hx. apply Hb. by right.
      + intros [-> Hall]. destruct Hno as [Hno|Hno]; [|done]. destruct (Hall a ltac:(left)) as [p Hp]. congruence. }
  destruct (ring_secret q a) as [prv|] eqn:Hs; [|by apply Hskip; [left|]]. destruct res; [by apply Hskip; [right|]|].
  destruct (move_one w o r q a prv I J Hr Hs) as (w1 & o1 & E1 & E2 & Hck & I1 & J1); [by apply (Hins a); [left|]|].
  erewrite st_bind_ok by exact E1. erewrite st_bind_ok by exact E2.
  set (r1 := KeyRing (<[a := Own prv]> (ring_keys r)) (ring_seed r) (ring_next r) (ring_password r) true) in *.
  set (q1 := KeyRing (delete a (ring_keys q)) (ring_seed q) (ring_next q) (ring_password q) (ring_unlocked q)) in *.
  assert (Hr1 : forall b, ring_secret r1 b = if decide (a = b) then Some prv else ring_secret r b).
  { intros b. unfold ring_secret, r1. cbn. rewrite lookup_insert. by case_decide. }
  assert (Hq1 : forall b, ring_secret q1 b = if decide (a = b) then None else ring_secret q b).
  { intros b. unfold ring_secret, q1. cbn. rewrite lookup_delete. by case_decide. }
  destruct (IH false w1 o1 r1 q1 I1 J1 eq_refl Hq Hnd) as (res' & w' & o' & r' & q' & Hrun & I' & J' & [M1 M2 M3 M4 M5] & Hres & Hall).
  { intros b Hb. apply Hsp. by right. }
  { intros b p Hb Hp. rewrite Hq1 in Hp. case_decide; [done|]. unfold insertable. rewrite Hck. apply (Hins b p); [by right|done]. }
  exists res', w', o', r', q'. split_and!; [exact Hrun|exact I'|exact J'| | |].
  - split.
    + intros b Hb. rewrite not_elem_of_cons in Hb. rewrite M1, Hr1, decide_False by (tauto || intros ->; tauto). done.
    + intros b Hb. rewrite not_elem_of_cons in Hb. rewrite M2, Hq1, decide_False by (tauto || intros ->; tauto). done.
    + intros b p Hb. destruct (decide (a = b)) as [<-|Hab].
      * right. rewrite M1, Hr1, decide_True by done. congruence.
      * apply M3. by rewrite Hq1, decide_False.
    + intros b Hb. apply M4. rewrite Hr1. case_decide; [by eexists|done].
    + rewrite (proj1 M5), (proj2 M5). done.
  - rewrite Hres. split; intros [_ Hx]; (split; [done|]).
    + intros b [->|Hb]%elem_of_cons; [by eexists|]. specialize (Hx b Hb). rewrite Hq1 in Hx. case_decide; [by destruct Hx|done].
    + intros b Hb. rewrite Hq1, decide_False by (intros ->; done). apply Hx. by right.
  - intros Hf b [->|Hb]%elem_of_cons.
    + split; [|rewrite M1, Hr1, decide_True by done; congruence].
      pose proof (M2 a Hna) as Hx. rewrite Hq1, decide_True in Hx by done. unfold ring_secret in Hx. by destruct (ring_keys q' !! a).
    + destruct (Hall Hf b Hb) as [Hx Hy]. split; [done|]. rewrite Hy, Hq1, decide_False; [done|]. by intros ->.
Qed.
End Refinement.
