(* ===== verification/WalletTheorems.v ===== *)
(** * What the wallet guarantees, and what it does not

    Every run of a wallet is a run of the key ring of WalletRing, and keys that
    are moved between wallets are not lost.  The encryption is shown to add
    nothing: the table alone yields every key, whatever the password is. *)
From Stdlib Require Import ZArith Lia List.
From stdpp Require Import prelude gmap sorting.
From S2P Require Import Prelude Lists Blake2b Numbers Streams Blocks Store Ledger Work BootstrapServer BootstrapTheorems Wallet WalletRing.

(** ** Runs *)

Section Runs.
Context `{WalletCrypto, Network}.

(** The wallets that come of a new one by operations, with the operations and
    their answers. *)
Inductive wallet_run (rep : account) (rnd : wallet_random) : list (wallet_op * Z) -> wallet_store -> Prop :=
| Wallet_created w : wallet_store_new ∅ rep rnd = Ok w -> wallet_run rep rnd [] w
| Wallet_ran tr w fuel random_seed op out w' :
    wallet_run rep rnd tr w -> op_ok fuel w op -> run_op fuel random_seed op w = Ok (out, w') ->
    wallet_run rep rnd (tr ++ [(op, out)]) w'.

Inductive ring_run (s : Z) : list (wallet_op * Z) -> key_ring -> Prop :=
| Ring_created : ring_run s [] (KeyRing ∅ s 0 None true)
| Ring_ran tr r op out r' : ring_run s tr r -> ring_step r op out r' -> ring_run s (tr ++ [(op, out)]) r'.

Context (Hpub : forall prv, fits 256 (ed25519_publickey prv)).

Lemma wallet_run_implements rep rnd tr w :
  wallet_run rep rnd tr w -> exists r, ring_run (r_seed rnd) tr r /\ implements w r.
Proof.
  induction 1 as [w Hw|tr w fuel rs op out w' _ (r & Hr & I) Hop Hrun].
  - destruct (wallet_new_implements rep rnd) as (w0 & Hw0 & I). assert (w0 = w) as -> by congruence.
    eexists. split; [apply Ring_created|exact I].
  - destruct (op_refines Hpub fuel rs w r op I Hop) as (out' & w1 & r' & Hrun' & Hstep & I').
    rewrite Hrun in Hrun'. injection Hrun' as <- <-. exists r'. split; [|exact I']. by eapply Ring_ran.
Qed.

(** ** The key stream *)

(** What someone reads who has the table and no password.  The check value is
    the encryption of zero, and so the key stream that encrypts the seed and the
    keys. *)
Definition leaked (table : gmap Z wallet_value) (a : account) : option Z :=
  let raw k := wv_key (default (WalletValue 0 0) (table !! k)) in
  let stream := raw check_special in
  v ← table !! a;
  match key_type_of v with
  | adhoc => Some (xor256 (wv_key v) stream)
  | deterministic => Some (derived_key (xor256 (raw seed_special) stream) (wrap 32 (wv_key v)))
  | _ => None
  end.

Lemma leaked_implements w r a : implements w r -> special_count <= a -> leaked (entries w) a = ring_secret r a.
Proof.
  intros I Ha. pose proof (im_keys _ _ I a Ha) as Hk. unfold leaked, ring_secret, keeps in *.
  change (wv_key (default (WalletValue 0 0) (entries w !! check_special))) with (check w).
  change (wv_key (default (WalletValue 0 0) (entries w !! seed_special))) with (wv_key (entry_get_raw w seed_special)).
  rewrite (im_seed _ _ I), xor256_cancel.
  destruct (ring_keys r !! a) as [[prv|i]|], (entries w !! a) as [v|]; try destruct Hk as (Hv & Hx & Hp); try done;
    cbn [mbind option_bind fmap option_fmap option_map private_of].
  - rewrite key_type_own by exact Hx. by rewrite Hv, xor256_cancel.
  - destruct (key_type_derived v i Hv Hx) as [-> ->]. done.
Qed.

(** Whoever opens the wallet reads what the table leaks. *)
Lemma enter_leaked w r random_seed text w' a :
  implements w r -> special_count <= a -> attempt_password random_seed text w = Ok (false, w') ->
  fetch w' a = leaked (entries w) a.
Proof.
  intros I Ha Hrun. destruct (op_refines Hpub 0 random_seed w r (Enter text) I Logic.I) as (out & w1 & r' & Hrun' & Hstep & I').
  cbn [run_op] in Hrun'. erewrite st_bind_ok in Hrun' by exact Hrun. injection Hrun' as <- <-.
  inversion Hstep as [| | | | | |t u Hu E1 E2 E3| | | |]; subst. destruct u; [|discriminate].
  rewrite (fetch_run w' _ a I' Ha), (leaked_implements w r a I Ha). done.
Qed.

(** ** Moving keys *)

Lemma accounts_special w a : a ∈ wallet_accounts w -> special_count <= a.
Proof. unfold wallet_accounts, wallet_begin. rewrite list_elem_of_fmap. by intros ([k v] & -> & [Hk _]%table_from_elem). Qed.

Definition movable w o (keys : list account) : Prop :=
  valid_password w = true /\ valid_password o = true /\ NoDup keys /\ (forall a, a ∈ keys -> special_count <= a)
  /\ forall a prv, a ∈ keys -> fetch o a = Some prv -> insertable w prv.

(** What moving [keys] from [o] to [w] leaves in [w'] and [o']. *)
Record keys_moved w o (keys : list account) (failed : bool) w' o' : Prop := {
  km_failed : failed = false <-> forall a, a ∈ keys -> is_Some (fetch o a);
  km_moved : failed = false -> forall a, a ∈ keys -> a ∉ wallet_accounts o' /\ fetch w' a = fetch o a;
  km_rest : forall a, special_count <= a -> a ∉ keys -> fetch w' a = fetch w a /\ fetch o' a = fetch o a;
  km_kept : forall a prv, special_count <= a -> fetch o a = Some prv -> fetch o' a = Some prv \/ fetch w' a = Some prv;
  km_own : forall a, special_count <= a -> is_Some (fetch w a) -> is_Some (fetch w' a)
}.

Lemma move_keys_moved w o r q keys :
  implements w r -> implements o q -> movable w o keys ->
  exists failed w' o', move_keys keys false (w, o) = Ok (failed, (w', o')) /\ keys_moved w o keys failed w' o'.
Proof.
  intros I J (Vw & Vo & Hnd & Hsp & Hins).
  assert (Hr : ring_unlocked r = true) by (by rewrite <- (im_unlocked _ _ I)).
  assert (Hq : ring_unlocked q = true) by (by rewrite <- (im_unlocked _ _ J)).
  assert (Fo : forall a, special_count <= a -> fetch o a = ring_secret q a) by (intros a Ha; by rewrite (fetch_run o q a J Ha), Hq).
  assert (Fw : forall a, special_count <= a -> fetch w a = ring_secret r a) by (intros a Ha; by rewrite (fetch_run w r a I Ha), Hr).
  destruct (move_keys_run keys false w o r q I J Hr Hq Hnd Hsp) as (e & w' & o' & r' & q' & Hrun & I' & J' & [M1 M2 M3 M4 M5] & He & Hall).
  { intros a prv Ha Hs. apply (Hins a prv Ha). by rewrite Fo by auto. }
  assert (Fo' : forall a, special_count <= a -> fetch o' a = ring_secret q' a) by (intros a Ha; by rewrite (fetch_run o' q' a J' Ha), (proj2 M5), Hq).
  assert (Fw' : forall a, special_count <= a -> fetch w' a = ring_secret r' a) by (intros a Ha; by rewrite (fetch_run w' r' a I' Ha), (proj1 M5), Hr).
  exists e, w', o'. split; [exact Hrun|]. split.
  - rewrite He. split.
    + intros [_ Hx] a Ha. rewrite Fo by auto. auto.
    + intros Hx. split; [done|]. intros a Ha. rewrite <- Fo by auto. auto.
  - intros Hf a Ha. destruct (Hall Hf a Ha) as [Hn Hs]. rewrite Fw', Fo by auto. split; [|exact Hs].
    rewrite (accounts_run o' q' a J'), Hn. by intros [? ?].
  - intros a Hx Ha. rewrite Fw', Fw, Fo', Fo by done. auto.
  - intros a prv Hx. rewrite Fo, Fo', Fw' by done. apply M3.
  - intros a Hx. rewrite Fw, Fw' by done. apply M4.
Qed.
End Runs.

(** ** Claims *)

(** C20: A wallet is a key ring.  Whatever operations a new wallet carries out,
    they answer as the key ring of the specification, whose keys are not
    encrypted, may answer; when it is unlocked, every account's private key is
    fetched, and none when it is locked; the accounts listed are the ring's; and
    the next operation ends without a failed assertion. *)
Theorem wallet_refines `{WalletCrypto, Network} (Hpub : forall prv, fits 256 (ed25519_publickey prv)) rep rnd tr w :
  wallet_run rep rnd tr w ->
  exists r, ring_run (r_seed rnd) tr r
  /\ (forall a, special_count <= a -> fetch w a = if ring_unlocked r then ring_secret r a else None)
  /\ (forall a, a ∈ wallet_accounts w <-> is_Some (ring_keys r !! a))
  /\ forall fuel random_seed op, op_ok fuel w op -> exists out w', run_op fuel random_seed op w = Ok (out, w').
Proof.
  intros Hrun. destruct (wallet_run_implements Hpub rep rnd tr w Hrun) as (r & Hr & I). exists r. split_and!; [exact Hr|..].
  - intros a Ha. by apply fetch_run.
  - intros a. by apply accounts_run.
  - intros fuel rs op Hop. destruct (op_refines Hpub fuel rs w r op I Hop) as (out & w' & r' & Hx & _). eauto.
Qed.

(** C21: The password protects nothing.  From the table of any wallet, locked or
    not, [leaked] computes for every account, without the password, exactly the
    private key that the owner gets after a password has opened the wallet: the
    check value in the table is the key stream the keys are encrypted with. *)
Theorem wallet_opens_without_password `{WalletCrypto, Network} (Hpub : forall prv, fits 256 (ed25519_publickey prv)) rep rnd tr w
    random_seed text w' a :
  wallet_run rep rnd tr w -> attempt_password random_seed text w = Ok (false, w') -> special_count <= a ->
  fetch w' a = leaked (entries w) a.
Proof.
  intros Hrun He Ha. destruct (wallet_run_implements Hpub rep rnd tr w Hrun) as (r & _ & I). by eapply enter_leaked.
Qed.

(** C24: Moving keys between two unlocked wallets loses none: it fails exactly
    when one of the keys cannot be fetched; otherwise all of them are in this
    wallet and no longer in the other; in any case keys that were not named stay
    where they were, and a named key is in one of the wallets.  Importing a
    wallet moves all its keys and empties it. *)
Theorem moved_keys_not_lost `{WalletCrypto, Network} (Hpub : forall prv, fits 256 (ed25519_publickey prv)) rep rnd tr w
    rep' rnd' tr' o :
  wallet_run rep rnd tr w -> wallet_run rep' rnd' tr' o ->
  (forall keys, movable w o keys ->
   exists failed w' o', wallet_move keys (w, o) = Ok (failed, (w', o')) /\ keys_moved w o keys failed w' o')
  /\ (movable w o (wallet_accounts o) ->
     exists w' o', wallet_import (w, o) = Ok (false, (w', o')) /\ keys_moved w o (wallet_accounts o) false w' o').
Proof.
  intros Hw Ho. destruct (wallet_run_implements Hpub _ _ _ _ Hw) as (r & _ & I).
  destruct (wallet_run_implements Hpub _ _ _ _ Ho) as (q & _ & J).
  assert (Hboth : forall A (m : M (wallet_store * wallet_store) A), valid_password w = true -> valid_password o = true ->
    st_bind (st_get (fun x => valid_password (fst x))) (fun ok => st_bind (st_assert ok) (fun _ =>
    st_bind (st_get (fun x => valid_password (snd x))) (fun ok => st_bind (st_assert ok) (fun _ => m)))) (w, o) = m (w, o)).
  { intros A m Vw Vo. unfold st_bind, st_get, st_assert, st_ret. cbn [fst snd]. rewrite Vw. cbn [fst snd]. by rewrite Vo. }
  split; [intros keys Hm|intros Hm]; destruct (move_keys_moved w o r q _ I J Hm) as (e & w' & o' & Hrun & Hk); pose proof Hm as (Vw & Vo & _).
  - exists e, w', o'. split; [|exact Hk]. unfold wallet_move. by rewrite Hboth.
  - assert (e = false) as ->.
    { apply (km_failed _ _ _ _ _ _ Hk). intros a Ha. rewrite (fetch_run o q a J (accounts_special o a Ha)), <- (im_unlocked _ _ J), Vo.
      apply fmap_is_Some. by apply (accounts_run o q a J). }
    exists w', o'. split; [|exact Hk]. unfold wallet_import. rewrite Hboth by done. erewrite st_bind_ok by reflexivity. exact Hrun.
Qed.
