(* ===== verification/WalletBackup.v ===== *)
(** * Backups of a wallet (rai/node/wallet.cpp)

    A wallet is written to a file as pairs of hexadecimal numbers and can be made
    again from it; and it is opened again from its table when the node starts.
    In both cases the password opens it as before.

    The JSON library turns the text into pairs of strings, in order, or fails; it
    is not part of this program, and neither is the reading and printing of large
    numbers in a stream, which is the class [HexStream]. *)
From Stdlib Require Import ZArith Lia List String.
From stdpp Require Import prelude gmap sorting.
From S2P Require Import Prelude Lists Blake2b Numbers Streams Blocks Store Ledger Work BootstrapServer BootstrapTheorems Wallet WalletRing WalletTheorems.

Local Open Scope m_scope.

Class HexStream := {
  (** What is printed with a width of 64 and zeros to fill it. *)
  hex_print : Z -> string;
  (** The number read from a stream, and whether its end was reached; [None] is
      an exception. *)
  hex_read : string -> option (Z * bool)
}.

Section Backup.
Context `{WalletCrypto, Network, HexStream}.

(** [uint256_union::encode_hex], [decode_hex]; [None] is an error. *)
Definition encode_hex (n : Z) : string := hex_print n.

Definition decode_hex (text : string) : option Z :=
  if negb (String.length text =? 0)%nat && (String.length text <=? 64)%nat then
    match hex_read text with
    | Some (n, true) => Some n
    | Some (_, false) | None => None
    end
  else None.

(** [wallet_store::serialize_json], up to the writing of the tree. *)
Definition serialize_json (w : wallet_store) : list (string * string) :=
  (fun x => (encode_hex (fst x), encode_hex (wv_key (snd x)))) <$> table_from 0 (entries w).

(** The loop over the tree; the error of the last pair is what remains. *)
Fixpoint load_pairs (tree : list (string * string)) (init_a : bool) : M wallet_store bool :=
  match tree with
  | [] => st_ret init_a
  | (k, v) :: tree =>
      match decode_hex k with
      | Some key =>
          match decode_hex v with
          | Some value => entry_put_raw key (WalletValue value 0) ;;; load_pairs tree false
          | None => load_pairs tree true
          end
      | None => load_pairs tree true
      end
  end.

Definition lacks (k : Z) (w : wallet_store) : bool := bool_decide (entries w !! k = None).

(** The constructor from a backup; [None] is a text that is no JSON.  The values
    drawn for the fans are [random]. *)
Definition wallet_store_json (tree : option (list (string * string))) (random_p random_k : list Z) : res (bool * wallet_store) :=
  let w := WalletStore ∅ (fan_new 0 random_p) (fan_new 0 random_k) in
  let init : M wallet_store bool :=
    error <- load_pairs (default [] tree) (bool_decide (tree = None));;
    missing <- st_get (fun w => lacks version_special w || lacks wallet_key_special w || lacks salt_special w
                                || lacks check_special w || lacks representative_special w);;
    st_put (set_password (fan_value_set 0)) ;;;
    key <- st_get (fun w => wv_key (entry_get_raw w wallet_key_special));;
    st_put (set_wallet_key_mem (fan_value_set key)) ;;;
    st_ret (error || missing) in
  init w.

(** [wallet::import]: whether it failed, and the wallet. *)
Definition wallet_import_json (tree : option (list (string * string))) (text : list byte) (random_p random_k : list Z) (random_seed : Z) :
    M wallet_store bool := fun w =>
  match wallet_store_json tree random_p random_k with
  | Fault f => Fault f
  | Ok (true, _) => Ok (true, w)
  | Ok (false, temp) =>
      match attempt_password random_seed text temp with
      | Fault f => Fault f
      | Ok (true, _) => Ok (true, w)
      | Ok (false, temp) =>
          match wallet_import (w, temp) with
          | Ok (e, (w', _)) => Ok (e, w')
          | Fault f => Fault f
          end
      end
  end.

(** ** The same wallet, read again *)

Record same_table (w w' : wallet_store) : Prop := {
  st_keys : forall k, wv_key <$> entries w' !! k = wv_key <$> entries w !! k;
  st_password : password w' <> [];
  st_mem_fan : wallet_key_mem w' <> [];
  st_mem : fan_value (wallet_key_mem w') = wv_key (entry_get_raw w' wallet_key_special)
}.

Lemma same_raw w w' k : same_table w w' -> wv_key (entry_get_raw w' k) = wv_key (entry_get_raw w k).
Proof. intros S. pose proof (st_keys _ _ S k) as Hk. unfold entry_get_raw. destruct (entries w' !! k), (entries w !! k); cbn in *; congruence. Qed.

(** The ring whose lock is what the memory of [w'] makes of it. *)
Definition reopened (r : key_ring) (w' : wallet_store) : key_ring :=
  KeyRing (ring_keys r) (ring_seed r) (ring_next r) (ring_password r) (valid_password w').

Lemma implements_reopened w w' r : implements w r -> same_table w w' -> implements w' (reopened r w').
Proof.
  intros I S. pose proof (fun k => same_raw w w' k S) as Hr. destruct I as [I1 I2 I3 I4 I5 I6 I7 I8 I9 I10].
  assert (Hc : check w' = check w) by exact (Hr check_special). assert (Hs : salt w' = salt w) by exact (Hr salt_special).
  split; cbn [reopened ring_keys ring_seed ring_next ring_password ring_unlocked].
  - intros a Ha. specialize (I1 a Ha). pose proof (st_keys _ _ S a) as Hk. rewrite Hc. unfold keeps in *. cbn [ring_seed].
    destruct (ring_keys r !! a) as [[]|], (entries w !! a), (entries w' !! a); cbn in Hk; try done; injection Hk as ->; exact I1.
  - exact I2.
  - intros k Hk. apply I3 in Hk as [v Hv]. pose proof (st_keys _ _ S k) as Hx. rewrite Hv in Hx. destruct (entries w' !! k); [by eexists|done].
  - by rewrite Hr, Hc.
  - by rewrite Hr.
  - unfold version in *. by rewrite Hr.
  - split; apply S.
  - by rewrite (st_mem _ _ S).
  - done.
  - intros t Ht. unfold salt_iv, derive_key. rewrite Hr, Hs, Hc. by apply I10.
Qed.

(** *** From a backup *)

(** Numbers of 256 bits are printed with 64 digits and read back. *)
Definition hex_ok : Prop := forall n, fits 256 n -> String.length (hex_print n) = 64%nat /\ hex_read (hex_print n) = Some (n, true).

Definition table_fits (w : wallet_store) : Prop := forall k v, entries w !! k = Some v -> fits 256 k /\ fits 256 (wv_key v).

Lemma hex_roundtrip n : hex_ok -> fits 256 n -> decode_hex (encode_hex n) = Some n.
Proof. intros Hh Hn. destruct (Hh n Hn) as [Hl Hr]. unfold decode_hex, encode_hex. by rewrite Hl, Hr. Qed.

Lemma load_pairs_run (l : list (Z * wallet_value)) e w :
  hex_ok -> NoDup (fst <$> l) -> (forall k v, (k, v) ∈ l -> fits 256 k /\ fits 256 (wv_key v)) ->
  exists w', load_pairs ((fun x => (encode_hex (fst x), encode_hex (wv_key (snd x)))) <$> l) e w = Ok (match l with [] => e | _ => false end, w')
  /\ password w' = password w /\ wallet_key_mem w' = wallet_key_mem w
  /\ (forall k v, (k, v) ∈ l -> entries w' !! k = Some (WalletValue (wv_key v) 0))
  /\ (forall k, k ∉ fst <$> l -> entries w' !! k = entries w !! k).
Proof.
  intros Hh. revert e w. induction l as [|[k v] l IH]; intros e w Hnd Hfit.
  { exists w. split_and!; [done..| |done]. by intros k v ?%not_elem_of_nil. }
  apply NoDup_cons in Hnd as [Hk Hnd]. destruct (Hfit k v ltac:(left)) as [Fk Fv].
  cbn [fmap list_fmap fst snd load_pairs]. rewrite !hex_roundtrip by done. erewrite st_bind_ok by reflexivity.
  destruct (IH false (set_entries (insert k (WalletValue (wv_key v) 0)) w) Hnd) as (w' & Hrun & Hp & Hm & Hin & Hout).
  { intros k' v' Hx. apply Hfit. by right. }
  exists w'. split_and!; [|exact Hp|exact Hm| |].
  - etransitivity; [exact Hrun|]. by destruct l.
  - intros k' v' [[= -> ->]|Hx]%elem_of_cons; [|by apply Hin]. rewrite Hout by exact Hk. apply lookup_insert_eq.
  - intros k' Hx. apply not_elem_of_cons in Hx as [Hne Hx]. rewrite Hout by exact Hx. by apply lookup_insert_ne.
Qed.

Lemma serialize_elem w k v : table_fits w -> (k, v) ∈ table_from 0 (entries w) <-> entries w !! k = Some v.
Proof. intros Hf. rewrite table_from_elem. split; [by intros [_ ?]|]. intros Hv. split; [|exact Hv]. apply (Hf k v Hv). Qed.

Lemma backup_same w rp rk :
  hex_ok -> table_fits w -> (forall k, 0 <= k < special_count -> is_Some (entries w !! k)) ->
  exists w', wallet_store_json (Some (serialize_json w)) rp rk = Ok (false, w') /\ same_table w w' /\ fan_value (password w') = 0.
Proof.
  intros Hh Hf Hsp. unfold wallet_store_json, serialize_json. cbn [default from_option id].
  destruct (fan_new_value 0 rp) as [_ Fp]. destruct (fan_new_value 0 rk) as [_ Fk].
  destruct (load_pairs_run (table_from 0 (entries w)) (bool_decide (Some (serialize_json w) = None)) (WalletStore ∅ (fan_new 0 rp) (fan_new 0 rk)) Hh)
    as (w1 & Hrun & Hp & Hm & Hin & Hout).
  { apply table_from_nodup. }
  { intros k v Hx. apply (Hf k v). by apply serialize_elem. }
  assert (He : match table_from 0 (entries w) with [] => bool_decide (Some (serialize_json w) = None) | _ => false end = false) by (by destruct (table_from 0 _)).
  rewrite He in Hrun. cbn [password wallet_key_mem] in Hp, Hm.
  assert (Hl : forall k, entries w1 !! k = (fun v => WalletValue (wv_key v) 0) <$> entries w !! k).
  { intros k. destruct (entries w !! k) as [v|] eqn:Hv; [by apply Hin, serialize_elem|]. rewrite Hout; [apply lookup_empty|].
    intros ([k' v] & -> & Hx)%list_elem_of_fmap. apply serialize_elem in Hx; [|exact Hf]. cbn in Hv. congruence. }
  assert (Hs : forall k, 0 <= k < special_count -> lacks k w1 = false).
  { intros k Hk. unfold lacks. rewrite Hl. destruct (Hsp k Hk) as [v ->]. by apply bool_decide_false. }
  set (key := wv_key (entry_get_raw w1 wallet_key_special)).
  destruct (fan_set_value 0 (password w1) ltac:(by rewrite Hp)) as [Vp Np].
  destruct (fan_set_value key (wallet_key_mem w1) ltac:(by rewrite Hm)) as [Vm Nm].
  exists (set_wallet_key_mem (fan_value_set key) (set_password (fan_value_set 0) w1)). split; [|split; [split|exact Vp]].
  - erewrite st_bind_ok by exact Hrun. erewrite st_bind_ok by reflexivity.
    rewrite !Hs by (unfold special_count, version_special, wallet_key_special, salt_special, check_special, representative_special; lia).
    reflexivity.
  - intros k. cbn. rewrite Hl. by destruct (entries w !! k).
  - exact Np.
  - exact Nm.
  - exact Vm.
Qed.

(** *** From the table *)

Lemma reopen_same w rep rnd :
  is_Some (entries w !! version_special) ->
  exists w', wallet_store_new (entries w) rep rnd = Ok w' /\ same_table w w' /\ fan_value (password w') = 0.
Proof.
  intros Hv. unfold wallet_store_new. destruct (fan_new_value 0 (r_password rnd)) as [Vp Fp]. destruct (fan_new_value 0 (r_wallet_key_mem rnd)) as [_ Fk].
  set (w0 := WalletStore (entries w) (fan_new 0 (r_password rnd)) (fan_new 0 (r_wallet_key_mem rnd))).
  set (key := wv_key (entry_get_raw w0 wallet_key_special)). destruct (fan_set_value key (wallet_key_mem w0) Fk) as [Vm Nm].
  exists (set_wallet_key_mem (fan_value_set key) w0). split; [|split; [split|exact Vp]].
  - unfold st_bind at 1, st_get at 1. cbn [entries w0]. rewrite bool_decide_true by exact Hv. reflexivity.
  - done.
  - exact Fp.
  - exact Nm.
  - exact Vm.
Qed.

(** The password opens it as before. *)
Lemma opens_same w w' r text :
  implements w r -> same_table w w' ->
  valid_password (set_password (fan_value_set (derive_key w' text)) w') = valid_password (set_password (fan_value_set (derive_key w text)) w).
Proof.
  intros I S. destruct (im_fans _ _ I) as [Fp _]. pose proof (im_mem _ _ I) as Hm. unfold valid_password, wallet_key, salt_iv.
  change (check (set_password (fan_value_set (derive_key w' text)) w')) with (check w').
  change (check (set_password (fan_value_set (derive_key w text)) w)) with (check w).
  change (salt (set_password (fan_value_set (derive_key w' text)) w')) with (salt w').
  change (salt (set_password (fan_value_set (derive_key w text)) w)) with (salt w). cbn [set_password password wallet_key_mem].
  rewrite (proj1 (fan_set_value _ _ Fp)), (proj1 (fan_set_value _ _ (st_password _ _ S))), Hm, (st_mem _ _ S).
  unfold check, derive_key, salt. by rewrite !(same_raw w w' _ S).
Qed.

Lemma accounts_same w w' a : same_table w w' -> a ∈ wallet_accounts w' <-> a ∈ wallet_accounts w.
Proof.
  intros S. pose proof (st_keys _ _ S a) as Hk. unfold wallet_accounts, wallet_begin. rewrite !list_elem_of_fmap.
  split; intros ([k v] & -> & [Hge Hv]%table_from_elem); cbn in Hk; rewrite Hv in Hk.
  - destruct (entries w !! k) as [v'|] eqn:Hv'; [|done]. exists (k, v'). split; [done|]. by apply table_from_elem.
  - destruct (entries w' !! k) as [v'|] eqn:Hv'; [|done]. exists (k, v'). split; [done|]. by apply table_from_elem.
Qed.

Lemma leaked_same w w' a : same_table w w' -> leaked (entries w') a = leaked (entries w) a.
Proof.
  intros S. unfold leaked. pose proof (same_raw w w' check_special S) as Hc. pose proof (same_raw w w' seed_special S) as Hs.
  unfold entry_get_raw in Hc, Hs. rewrite Hc, Hs. pose proof (st_keys _ _ S a) as Ha.
  destruct (entries w' !! a) as [v'|], (entries w !! a) as [v|]; cbn in Ha; try done. injection Ha as Ha.
  cbn [mbind option_bind]. unfold key_type_of. by rewrite Ha.
Qed.

Lemma reopened_opens w w' r random_seed text w1 :
  (forall prv, fits 256 (ed25519_publickey prv)) -> implements w r -> same_table w w' ->
  attempt_password random_seed text w = Ok (false, w1) ->
  exists w1', attempt_password random_seed text w' = Ok (false, w1') /\ forall a, special_count <= a -> fetch w1' a = fetch w1 a.
Proof.
  intros Hpub I S Hrun. pose proof (implements_reopened w w' r I S) as I'. pose proof Hrun as Hx.
  rewrite (attempt_run random_seed text w (im_version _ _ I)) in Hx. injection Hx as Hv _.
  pose proof (attempt_run random_seed text w' (im_version _ _ I')) as Hrun'. cbv zeta in Hrun'. rewrite (opens_same w w' r text I S), Hv in Hrun'.
  eexists. split; [exact Hrun'|]. intros a Ha.
  rewrite (enter_leaked Hpub w' _ _ _ _ a I' Ha Hrun'), (enter_leaked Hpub w r _ _ _ a I Ha Hrun). exact (leaked_same w w' a S).
Qed.
End Backup.

(** ** Claims *)

(** C23: A backup restores the wallet, and so does the table when the node starts
    again.  The wallet that is made from the text a wallet was written to, and
    the one that is opened from its table, have the same accounts; every password
    that opens the wallet opens them, and gives the same keys. *)
Theorem backup_restores `{WalletCrypto, Network, HexStream} (Hpub : forall prv, fits 256 (ed25519_publickey prv)) rep rnd tr w rp rk rep' rnd' :
  hex_ok -> wallet_run rep rnd tr w -> table_fits w ->
  exists w1 w2, wallet_store_json (Some (serialize_json w)) rp rk = Ok (false, w1) /\ wallet_store_new (entries w) rep' rnd' = Ok w2
  /\ forall w', w' = w1 \/ w' = w2 ->
     (forall a, a ∈ wallet_accounts w' <-> a ∈ wallet_accounts w)
     /\ forall random_seed text w0, attempt_password random_seed text w = Ok (false, w0) ->
        exists w0', attempt_password random_seed text w' = Ok (false, w0') /\ forall a, special_count <= a -> fetch w0' a = fetch w0 a.
Proof.
  intros Hh Hrun Hf. destruct (wallet_run_implements Hpub _ _ _ _ Hrun) as (r & _ & I).
  destruct (backup_same w rp rk Hh Hf (im_special _ _ I)) as (w1 & E1 & S1 & _).
  destruct (reopen_same w rep' rnd') as (w2 & E2 & S2 & _); [by apply (im_special _ _ I)|].
  exists w1, w2. split_and!; [exact E1|exact E2|]. intros w' Hw'. assert (S : same_table w w') by (by destruct Hw' as [->| ->]).
  split; [intros a; exact (accounts_same w w' a S)|]. intros rs text w0 Hx. by eapply reopened_opens.
Qed.

(** A pair that cannot be decoded is forgotten when a later one can be. *)
Theorem load_errors_forgotten `{HexStream} k v k' v' key value e w :
  decode_hex k = None -> decode_hex k' = Some key -> decode_hex v' = Some value ->
  load_pairs [(k, v); (k', v')] e w = Ok (false, set_entries (insert key (WalletValue value 0)) w).
Proof. intros H1 H2 H3. cbn [load_pairs]. by rewrite H1, H2, H3. Qed.
