(* ===== verification/WalletActions.v ===== *)
(** * What a wallet does (rai/node/wallet.cpp)

    A wallet makes blocks for its accounts: sends, changes of representative and
    receives.  Such actions wait in a queue that one thread works off, those of
    greater priority first; a send comes to the queue by way of a task in the
    background.  The work of the next block is prepared when a block was made.

    The node is the state of the block processor's model; an election that is
    started and answers that are given are recorded in order.  Proof of work is
    asked of the node by the class [WorkSource]. *)
From Stdlib Require Import ZArith Lia List.
From stdpp Require Import prelude gmap sorting.
From S2P Require Import Prelude Numbers Streams Blocks Store Ledger Votes Work Unchecked Processor Peers Wallet.

Local Open Scope m_scope.

(** [node::generate_work] waits until it is answered. *)
Class WorkSource := { generate_work : block_hash -> Z }.

(** ** State *)

(** What is done with the block an action made: a callback, or the promise that
    [change_sync] and [receive_sync], or [send_sync], wait for. *)
Inductive callback := Callback (n : nat) | Set_failed (n : nat) | Set_hash (n : nat) | Log_error (b : block).

Inductive wallet_action :=
| Act_send (source destination : account) (amount_a : amount) (action_a : callback) (generate_work_a : bool)
| Act_send_v2 (source destination : account) (code_a : list byte) (action_a : callback) (generate_work_a : bool)
| Act_change (source representative_a : account) (action_a : callback) (generate_work_a : bool)
| Act_receive (b : block) (representative_a : account) (amount_a : amount) (action_a : callback) (generate_work_a : bool)
| Act_work (a : account) (root_a : block_hash).

Inductive background_task :=
| Queue_later (priority : Z) (x : wallet_action)
| Generate_later (a : account) (root_a : block_hash)
| Search_run (keys : list account)
(** Start an election on the block, ask for votes, and receive from the account when it is confirmed. *)
| Confirm_then_receive (a : account) (b : option block).

Inductive answer :=
| Called (n : nat) (b : option block)
| Failed (n : nat) (error : bool)
| Hash_given (n : nat) (h : block_hash)
| Logged_error (b : block)
| Election_started (a : account) (b : option block).

Record wallet_node := WalletNode {
  wn_wallet : wallet_store;
  wn_node : node;
  wn_arrival : block_arrival;
  wn_actions : list (Z * wallet_action);
  wn_background : list background_task;
  wn_answers : list answer
}.

Definition on_store {A} (m : M wallet_store A) : M wallet_node A := fun n =>
  match m (wn_wallet n) with
  | Ok (a, w) => Ok (a, WalletNode w (wn_node n) (wn_arrival n) (wn_actions n) (wn_background n) (wn_answers n))
  | Fault f => Fault f
  end.
Definition on_node {A} (m : M node A) : M wallet_node A := fun n =>
  match m (wn_node n) with
  | Ok (a, x) => Ok (a, WalletNode (wn_wallet n) x (wn_arrival n) (wn_actions n) (wn_background n) (wn_answers n))
  | Fault f => Fault f
  end.
Definition on_block_arrival {A} (m : M block_arrival A) : M wallet_node A := fun n =>
  match m (wn_arrival n) with
  | Ok (a, x) => Ok (a, WalletNode (wn_wallet n) (wn_node n) x (wn_actions n) (wn_background n) (wn_answers n))
  | Fault f => Fault f
  end.
Definition on_actions (f : list (Z * wallet_action) -> list (Z * wallet_action)) : M wallet_node unit := fun n =>
  Ok (tt, WalletNode (wn_wallet n) (wn_node n) (wn_arrival n) (f (wn_actions n)) (wn_background n) (wn_answers n)).
Definition in_background (t : background_task) : M wallet_node unit := fun n =>
  Ok (tt, WalletNode (wn_wallet n) (wn_node n) (wn_arrival n) (wn_actions n) (wn_background n ++ [t]) (wn_answers n)).
Definition give (x : answer) : M wallet_node unit := fun n =>
  Ok (tt, WalletNode (wn_wallet n) (wn_node n) (wn_arrival n) (wn_actions n) (wn_background n) (wn_answers n ++ [x])).

(** ** The queue *)

Definition generate_priority : Z := 2 ^ 128 - 1.
Definition high_priority : Z := 2 ^ 128 - 2.

(** A multimap by descending priority: an action goes after those that have its
    priority. *)
Fixpoint action_insert {A} (x : Z * A) (l : list (Z * A)) : list (Z * A) :=
  match l with
  | [] => [x]
  | y :: l => if fst y <? fst x then x :: y :: l else y :: action_insert x l
  end.

Definition queue_wallet_action (priority : Z) (x : wallet_action) : M wallet_node unit :=
  on_actions (action_insert (priority, x)).

Section Actions.
Context `{WalletCrypto, Environment, Signing, NodeEnvironment, Network, Iteration, MultimapOrder, WorkSource}.
Context (receive_minimum : Z) (fuel : nat).

Definition ledger_of (n : wallet_node) : store := n_store (wn_node n).

(** ** Work *)

Definition work_fetch (account_a : account) (root_a : block_hash) : M wallet_node Z :=
  cached <- st_get (fun n => work_get (wn_wallet n) account_a);;
  match cached with
  | None => st_ret (generate_work root_a)
  | Some result => st_ret (if work_validate root_a result then generate_work root_a else result)
  end.

Definition work_update (account_a : account) (root_a : block_hash) (work_a : Z) : M wallet_node unit :=
  st_assert (negb (work_validate root_a work_a)) ;;;
  there <- st_get (fun n => key_exists (wn_wallet n) account_a);;
  st_assert there ;;;
  latest_l <- st_get (fun n => latest_root (ledger_of n) account_a);;
  if latest_l =? root_a then on_store (work_put account_a work_a) else st_ret tt.

Definition work_generate (account_a : account) (root_a : block_hash) : M wallet_node unit :=
  let work := generate_work root_a in
  there <- st_get (fun n => key_exists (wn_wallet n) account_a);;
  if there : bool then work_update account_a root_a work else st_ret tt.

Definition work_ensure (account_a : account) : M wallet_node unit :=
  there <- st_get (fun n => key_exists (wn_wallet n) account_a);;
  st_assert there ;;;
  root_l <- st_get (fun n => latest_root (ledger_of n) account_a);;
  cached <- st_get (fun n => work_get (wn_wallet n) account_a);;
  match cached with
  | None => st_fault Assertion_failed
  | Some work => if work_validate root_l work then in_background (Generate_later account_a root_l) else st_ret tt
  end.

(** [wallet::insert_adhoc] and [wallet::deterministic_insert], with the work. *)
Definition wallet_insert_adhoc_work (prv : Z) (generate_work_a : bool) : M wallet_node account :=
  ok <- st_get (fun n => valid_password (wn_wallet n));;
  if ok : bool then
    key <- on_store (insert_adhoc prv);;
    (if generate_work_a then work_ensure key else st_ret tt) ;;;
    st_ret key
  else st_ret 0.

Definition wallet_deterministic_insert_work (generate_work_a : bool) : M wallet_node account :=
  ok <- st_get (fun n => valid_password (wn_wallet n));;
  if ok : bool then
    key <- on_store (deterministic_insert fuel);;
    (if generate_work_a then work_ensure key else st_ret tt) ;;;
    st_ret key
  else st_ret 0.

(** ** Blocks that are signed *)

Definition send_block_new (previous_a destination_a balance_a prv_a pub_a work_a : Z) : send_block :=
  let h := SendHashables previous_a destination_a balance_a in
  SendBlock h (sign_message prv_a pub_a (hash (Send (SendBlock h 0 0)))) work_a.

Definition send_block_v2_new (previous_a destination_a : Z) (code_a : list byte) (prv_a pub_a work_a : Z) : send_block_v2 :=
  let h := SendHashablesV2 previous_a destination_a code_a in
  SendBlockV2 h (sign_message prv_a pub_a (hash (SendV2 (SendBlockV2 h 0 0)))) work_a.

Definition receive_block_new (previous_a source_a prv_a pub_a work_a : Z) : receive_block :=
  let h := ReceiveHashables previous_a source_a in
  ReceiveBlock h (sign_message prv_a pub_a (hash (Receive (ReceiveBlock h 0 0)))) work_a.

Definition open_block_new (source_a representative_a account_a prv_a pub_a work_a : Z) : open_block :=
  let h := OpenHashables source_a representative_a account_a in
  OpenBlock h (sign_message prv_a pub_a (hash (Open (OpenBlock h 0 0)))) work_a.

Definition change_block_new (previous_a representative_a prv_a pub_a work_a : Z) : change_block :=
  let h := ChangeHashables previous_a representative_a in
  ChangeBlock h (sign_message prv_a pub_a (hash (Change (ChangeBlock h 0 0)))) work_a.

(** ** Actions *)

(** What is done with a block that was made. *)
Definition submit (account_a : account) (generate_work_a : bool) (b : option block) : M wallet_node (option block) :=
  match b with
  | None => st_ret None
  | Some b =>
      on_block_arrival (arrival_add (hash b)) ;;;
      on_node (process_receive_many fuel [Item b false]) ;;;
      (if generate_work_a then queue_wallet_action generate_priority (Act_work account_a (hash b)) else st_ret tt) ;;;
      st_ret (Some b)
  end.

Definition fetch_work_if (generate_work_a : bool) (account_a root_a : Z) : M wallet_node Z :=
  if generate_work_a then work_fetch account_a root_a else st_ret 0.

(** Both are asserted where they are read. *)
Definition account_and_key (source_a : account) : M wallet_node (account_info * Z) :=
  info <- st_get (fun n => account_get (ledger_of n) source_a);;
  st_assert (bool_decide (is_Some info)) ;;;
  prv <- st_get (fun n => fetch (wn_wallet n) source_a);;
  match info, prv with
  | Some info, Some prv => st_ret (info, prv)
  | _, _ => st_fault Assertion_failed
  end.

Definition send_action (source_a account_a amount_a : Z) (generate_work_a : bool) : M wallet_node (option block) :=
  ok <- st_get (fun n => valid_password (wn_wallet n));;
  existing <- st_get (fun n => key_exists (wn_wallet n) source_a);;
  b <- (if ok && existing then
          balance_l <- st_get (fun n => account_balance (ledger_of n) source_a);;
          if negb (is_zero balance_l) && (amount_a <=? balance_l) then
            x <- account_and_key source_a;;
            work <- fetch_work_if generate_work_a source_a (head (fst x));;
            st_ret (Some (Send (send_block_new (head (fst x)) account_a (balance_l - amount_a) (snd x) source_a work)))
          else st_ret None
        else st_ret None);;
  submit source_a generate_work_a b.

Definition send_action_v2 (source_a account_a : Z) (code_a : list byte) (generate_work_a : bool) : M wallet_node (option block) :=
  ok <- st_get (fun n => valid_password (wn_wallet n));;
  existing <- st_get (fun n => key_exists (wn_wallet n) source_a);;
  b <- (if ok && existing then
          x <- account_and_key source_a;;
          work <- fetch_work_if generate_work_a source_a (head (fst x));;
          st_ret (Some (SendV2 (send_block_v2_new (head (fst x)) account_a code_a (snd x) source_a work)))
        else st_ret None);;
  submit source_a generate_work_a b.

Definition change_action (source_a representative_a : Z) (generate_work_a : bool) : M wallet_node (option block) :=
  ok <- st_get (fun n => valid_password (wn_wallet n));;
  existing <- st_get (fun n => key_exists (wn_wallet n) source_a && negb (is_zero (latest (ledger_of n) source_a)));;
  b <- (if ok && existing then
          x <- account_and_key source_a;;
          work <- fetch_work_if generate_work_a source_a (head (fst x));;
          st_ret (Some (Change (change_block_new (head (fst x)) representative_a (snd x) source_a work)))
        else st_ret None);;
  submit source_a generate_work_a b.

Definition receive_action (send_a : send_block) (representative_a amount_a : Z) (generate_work_a : bool) : M wallet_node (option block) :=
  let h := hash (Send send_a) in
  let destination := sh_destination (send_h send_a) in
  b <- (if receive_minimum <=? amount_a then
          there <- st_get (fun n => pending_exists (ledger_of n) (destination, h));;
          if there : bool then
            prv <- st_get (fun n => fetch (wn_wallet n) destination);;
            match prv with
            | Some prv =>
                info <- st_get (fun n => account_get (ledger_of n) destination);;
                match info with
                | Some info =>
                    work <- fetch_work_if generate_work_a destination (head info);;
                    st_ret (Some (Receive (receive_block_new (head info) h prv destination work)))
                | None =>
                    work <- fetch_work_if generate_work_a destination destination;;
                    st_ret (Some (Open (open_block_new h representative_a destination prv destination work)))
                end
            | None => st_ret None
            end
          else st_ret None
        else st_ret None);;
  submit destination generate_work_a b.

(** [send_sync] takes the hash of the block without looking whether there is one. *)
Definition call_back (x : callback) (b : option block) : M wallet_node unit :=
  match x, b with
  | Callback n, _ => give (Called n b)
  | Set_failed n, _ => give (Failed n (bool_decide (b = None)))
  | Set_hash n, Some b => give (Hash_given n (hash b))
  | Set_hash _, None => st_fault Indeterminate_value
  | Log_error x, None => give (Logged_error x)
  | Log_error _, Some _ => st_ret tt
  end.

Definition perform (x : wallet_action) : M wallet_node unit :=
  match x with
  | Act_send s d m f g => b <- send_action s d m g;; call_back f b
  | Act_send_v2 s d c f g => b <- send_action_v2 s d c g;; call_back f b
  | Act_change s r f g => b <- change_action s r g;; call_back f b
  | Act_receive (Send b) r m f g => b' <- receive_action b r m g;; call_back f b'
  | Act_receive _ _ _ _ _ => st_fault Indeterminate_value
  | Act_work a r => work_generate a r
  end.

(** One turn of the thread, if there is something to do. *)
Definition do_wallet_actions : M wallet_node unit :=
  l <- st_get wn_actions;;
  match l with
  | [] => st_ret tt
  | (_, x) :: _ => on_actions tail ;;; perform x
  end.

(** ** Requests *)

Definition change_async (source_a representative_a : Z) (action_a : callback) (generate_work_a : bool) : M wallet_node unit :=
  queue_wallet_action high_priority (Act_change source_a representative_a action_a generate_work_a).

Definition is_send_block (b : block) : bool := match b with Send _ => true | _ => false end.

Definition receive_async (b : block) (representative_a amount_a : Z) (action_a : callback) (generate_work_a : bool) : M wallet_node unit :=
  st_assert (is_send_block b) ;;;
  queue_wallet_action amount_a (Act_receive b representative_a amount_a action_a generate_work_a).

Definition send_async (source_a account_a amount_a : Z) (action_a : callback) (generate_work_a : bool) : M wallet_node unit :=
  in_background (Queue_later high_priority (Act_send source_a account_a amount_a action_a generate_work_a)).

Definition send_async_v2 (source_a account_a : Z) (code_a : list byte) (action_a : callback) (generate_work_a : bool) : M wallet_node unit :=
  in_background (Queue_later high_priority (Act_send_v2 source_a account_a code_a action_a generate_work_a)).

(** The calls that wait for a promise. *)
Definition change_sync (source_a representative_a : Z) (n : nat) : M wallet_node unit :=
  change_async source_a representative_a (Set_failed n) true.
Definition receive_sync (b : block) (representative_a amount_a : Z) (n : nat) : M wallet_node unit :=
  receive_async b representative_a amount_a (Set_failed n) true.
Definition send_sync (source_a account_a amount_a : Z) (n : nat) : M wallet_node unit :=
  send_async source_a account_a amount_a (Set_hash n) true.
Definition send_sync_v2 (source_a account_a : Z) (code_a : list byte) (n : nat) : M wallet_node unit :=
  send_async_v2 source_a account_a code_a (Set_hash n) true.

(** ** Receiving what is pending *)

Definition pending_le (x y : pending_key * pending_info) : Prop :=
  fst (fst x) < fst (fst y) \/ fst (fst x) = fst (fst y) /\ snd (fst x) <= snd (fst y).
#[export] Instance pending_le_dec x y : Decision (pending_le x y).
Proof. unfold pending_le. apply _. Defined.

(** The table from [pending_begin]: by account, then by hash. *)
Definition pending_entries (s : store) : list (pending_key * pending_info) := merge_sort pending_le (map_to_list (pending s)).

(** The loop of [search_action::run], with the accounts searched already. *)
Fixpoint search_loop (keys already_searched : list account) (l : list (pending_key * pending_info)) : M wallet_node unit :=
  match l with
  | [] => st_ret tt
  | (key, pend) :: l =>
      if bool_decide (fst key ∈ keys) && (receive_minimum <=? pi_amount pend) then
        info <- st_get (fun n => account_get (ledger_of n) (pi_source pend));;
        match info with
        | None => st_fault Assertion_failed
        | Some info =>
            if bool_decide (pi_source pend ∈ already_searched) then search_loop keys already_searched l
            else
              block_l <- st_get (fun n => block_get (ledger_of n) (head info));;
              in_background (Confirm_then_receive (pi_source pend) block_l) ;;;
              search_loop keys (pi_source pend :: already_searched) l
        end
      else search_loop keys already_searched l
  end.

Definition search_run (keys : list account) : M wallet_node unit :=
  l <- st_get (fun n => pending_entries (ledger_of n));;
  search_loop keys [] l.

(** Whether it failed. *)
Definition search_pending : M wallet_node bool :=
  ok <- st_get (fun n => valid_password (wn_wallet n));;
  if ok : bool then
    keys <- st_get (fun n => wallet_accounts (wn_wallet n));;
    in_background (Search_run keys) ;;; st_ret false
  else st_ret true.

Fixpoint receive_loop (account_a representative_a : account) (l : list (pending_key * pending_info)) : M wallet_node unit :=
  match l with
  | [] => st_ret tt
  | (key, pend) :: l =>
      there <- st_get (fun n => key_exists (wn_wallet n) (fst key));;
      ok <- st_get (fun n => valid_password (wn_wallet n));;
      (if (pi_source pend =? account_a) && there && ok then
         b <- st_get (fun n => block_get (ledger_of n) (snd key));;
         match b with
         | None => st_fault Indeterminate_value
         | Some b => receive_async b representative_a (pi_amount pend) (Log_error b) true
         end
       else st_ret tt) ;;;
      receive_loop account_a representative_a l
  end.

(** When the head of the account [account_a] was confirmed. *)
Definition receive_all (account_a : account) : M wallet_node unit :=
  representative_l <- st_get (fun n => wallet_representative (wn_wallet n));;
  l <- st_get (fun n => pending_entries (ledger_of n));;
  receive_loop account_a representative_l l.

(** ** Runs *)

Inductive wallet_event :=
| Background_next        (* the first task in the background is run *)
| Action_next            (* the wallet thread takes an action *)
| Confirmed (a : account).

Definition run_background (t : background_task) : M wallet_node unit :=
  match t with
  | Queue_later p x => queue_wallet_action p x
  | Generate_later a r => work_generate a r
  | Search_run keys => search_run keys
  | Confirm_then_receive a b => give (Election_started a b)
  end.

Definition set_background (f : list background_task -> list background_task) : M wallet_node unit := fun n =>
  Ok (tt, WalletNode (wn_wallet n) (wn_node n) (wn_arrival n) (wn_actions n) (f (wn_background n)) (wn_answers n)).

Definition wallet_step (e : wallet_event) : M wallet_node unit :=
  match e with
  | Background_next =>
      l <- st_get wn_background;;
      match l with [] => st_ret tt | t :: _ => set_background tail ;;; run_background t end
  | Action_next => do_wallet_actions
  | Confirmed a => receive_all a
  end.
End Actions.
