(* ===== verification/WalletActionTheorems.v ===== *)
(** * The blocks a wallet makes are accepted

    On every ledger that can be reached and with every wallet that can be
    reached, what the user asks for is carried out: the block that is made has
    sufficient work and is accepted by the node's own ledger. *)
From Stdlib Require Import ZArith Lia List Sorted.
From stdpp Require Import prelude gmap sorting.
From S2P Require Import Prelude Lists Numbers Streams Blocks Store Ledger StoreFacts LedgerInv LedgerQueries LedgerExtend LedgerProcess LedgerTheorems Votes Work Unchecked Processor Convergence Peers Wallet WalletRing WalletTheorems WalletActions.

Section Submit.
Context `{WalletCrypto, Environment, Signing, NodeEnvironment, Network, Iteration, MultimapOrder, WorkSource}.
Context (receive_minimum : Z) (fuel : nat).
Context (Hclock : forall i, steady_clock (S i) < steady_clock i + transaction_timeout) (Hfuel : (1 <= fuel)%nat).
Implicit Types (n : wallet_node) (b : block) (r : process_return).

(** *** Giving a block to the block processor *)

Lemma process_one b (x : node) r s' :
  process b (n_store x) = Ok (r, s') -> code r = progress -> unchecked_ok (n_unchecked x) ->
  unchecked_get (hash b) (n_unchecked x) = Ok [] ->
  exists x', process_receive_many fuel [Item b false] x = Ok (tt, x') /\ n_store x' = s'
  /\ n_unchecked x' = without (hash b) (n_unchecked x).
Proof.
  intros Hp Hc Hok Hun. destruct fuel as [|f]; [lia|]. cbn [process_receive_many]. unfold process_transaction.
  set (x0 := Node (n_store x) (n_unchecked x) (n_gaps x) (S (n_readings x)) (n_events x)).
  set (x1 := Node (n_store x) (n_unchecked x) (n_gaps x) (S (S (n_readings x))) (n_events x)).
  destruct (process_item_done b [] [] x1 r s' [] Hp Hok (or_introl Hc) Hun) as (pr & x' & Hrun & Hs & Hu).
  assert (Hb : process_batch (S f) (steady_clock (n_readings x) + transaction_timeout) [Item b false] [] x0 = Ok (([], pr), x')).
  { cbn [process_batch]. rewrite (st_bind_ok _ _ x0 (steady_clock (S (n_readings x))) x1) by reflexivity.
    rewrite (proj2 (Z.ltb_lt _ _) (Hclock (n_readings x))). cbn [negb]. erewrite st_bind_ok by exact Hrun.
    by destruct f. }
  exists (Node (n_store x') (n_unchecked x') (n_gaps x') (n_readings x') (n_events x' ++ concat (notify_progress <$> pr))).
  split; [|done]. erewrite st_bind_ok.
  2:{ rewrite (st_bind_ok _ _ x (steady_clock (n_readings x)) x0) by reflexivity.
      erewrite st_bind_ok by exact Hb. cbn [fst snd]. reflexivity. }
  by destruct f.
Qed.

(** What else happens to a node whose wallet made [b] for [a]. *)
Record made (a : account) (g : bool) b n n' : Prop := {
  md_wallet : wn_wallet n' = wn_wallet n;
  md_actions : wn_actions n' = (if g then action_insert (generate_priority, Act_work a (hash b)) (wn_actions n) else wn_actions n);
  md_background : wn_background n' = wn_background n;
  md_answers : wn_answers n' = wn_answers n
}.

Lemma submit_run a g b n r s' :
  process b (ledger_of n) = Ok (r, s') -> code r = progress -> unchecked_ok (n_unchecked (wn_node n)) ->
  unchecked_get (hash b) (n_unchecked (wn_node n)) = Ok [] ->
  exists n', submit fuel a g (Some b) n = Ok (Some b, n') /\ ledger_of n' = s' /\ made a g b n n'.
Proof.
  intros Hp Hc Hok Hun. destruct (process_one b (wn_node n) r s' Hp Hc Hok Hun) as (x' & Hrun & Hs & _).
  unfold submit, arrival_add. destruct n as [w x ar ac bg an].
  set (ar' := BlockArrival (arrival_insert (BlockArrivalInfo (steady_clock (ba_readings ar)) (hash b)) (arrival ar)) (S (ba_readings ar))).
  exists (WalletNode w x' ar' (if g then action_insert (generate_priority, Act_work a (hash b)) ac else ac) bg an).
  split; [|split; [exact Hs|by split; destruct g]].
  erewrite (st_bind_ok _ _ _ tt (WalletNode w x ar' ac bg an)) by reflexivity.
  erewrite (st_bind_ok _ _ _ tt (WalletNode w x' ar' ac bg an)); [by destruct g|].
  unfold on_node. cbn [wn_node] in *. by rewrite Hrun.
Qed.

(** *** Work *)

(** The node finds work for the root [r] when it is asked for it. *)
Definition work_found (gen : bool) (r : block_hash) : Prop := gen = true -> work_validate r (generate_work r) = false.

Lemma work_run g a root_a n :
  work_found g root_a ->
  exists work, fetch_work_if g a root_a n = Ok (work, n) /\ (g = true -> work_validate root_a work = false).
Proof.
  intros Hg. unfold fetch_work_if, work_fetch. destruct g; [|exists 0; split; [reflexivity|discriminate]]. specialize (Hg eq_refl). erewrite st_bind_ok by reflexivity.
  destruct (work_get _ a) as [w|]; [|eauto].
  destruct (work_validate root_a w) eqn:Hw; eauto.
Qed.

(** *** Hashes do not depend on signature and work *)

Lemma send_new_hash p d m prv a w w' : hash (Send (send_block_new p d m prv a w)) = hash (Send (send_block_new p d m prv a w')).
Proof. by apply hash_concat. Qed.
Lemma receive_new_hash p x prv a w w' : hash (Receive (receive_block_new p x prv a w)) = hash (Receive (receive_block_new p x prv a w')).
Proof. by apply hash_concat. Qed.
Lemma open_new_hash x p d prv a w w' : hash (Open (open_block_new x p d prv a w)) = hash (Open (open_block_new x p d prv a w')).
Proof. by apply hash_concat. Qed.
Lemma change_new_hash p x prv a w w' : hash (Change (change_block_new p x prv a w)) = hash (Change (change_block_new p x prv a w')).
Proof. by apply hash_concat. Qed.
End Submit.

(** ** Accepted blocks *)

Section Effects.
Context `{Environment} {n : nat} {g : ghost} {s : store} (I : inv_with n g s) (Hfuel : (query_fuel n <= loop_fuel)%nat).

Lemma send_effect b a i pb :
  extends (s := s) (Send b) a i pb -> fits 128 (sh_balance (send_h b)) -> sh_balance (send_h b) <= balance_of i ->
  validate_message a (hash (Send b)) (send_signature b) = false ->
  exists r s', process (Send b) s = Ok (r, s') /\ code r = progress /\ account_balance s' a = sh_balance (send_h b)
  /\ pending s' = <[(sh_destination (send_h b), hash (Send b)) := PendingInfo a (balance_of i - sh_balance (send_h b))]> (pending s).
Proof.
  intros X Hfit Hle Hv. pose proof (ex_account _ _ _ _ X) as Hi. destruct (extends_rep I _ _ _ _ X) as (rb & k & Hrb & _ & Hr0 & _).
  assert (Ha0 : a <> 0) by (exact (ac_zero _ _ _ _ (inv_head I _ _ Hi))).
  eexists _, _. split; [exact (process_send_run I b a i pb rb k X Hrb Hr0 Ha0 Hfit Hle Hv)|].
  destruct (put_linked_frame (Send b) pb s) as (_ & F2 & _ & F4 & _). split_and!; [done| |].
  - erewrite account_balance_at; [|cbn; rewrite F2; apply lookup_insert_eq]. done.
  - cbn. by rewrite F4.
Qed.

Lemma receive_effect b a i pb pi :
  extends (s := s) (Receive b) a i pb -> pending s !! (a, rh_source (receive_h b)) = Some pi ->
  validate_message a (hash (Receive b)) (receive_signature b) = false ->
  exists r s', process (Receive b) s = Ok (r, s') /\ code r = progress /\ account_balance s' a = balance_of i + pi_amount pi
  /\ pending s' = delete (a, rh_source (receive_h b)) (pending s).
Proof.
  intros X Hpi Hv. pose proof (ex_account _ _ _ _ X) as Hi. destruct (extends_rep I _ _ _ _ X) as (rb & k & Hrb & _ & Hr0 & _).
  assert (Ha0 : a <> 0) by (exact (ac_zero _ _ _ _ (inv_head I _ _ Hi))).
  eexists _, _. split; [exact (process_receive_run I b a i pb rb k pi X Hrb Hr0 Ha0 Hpi Hv)|].
  destruct (put_linked_frame (Receive b) pb s) as (_ & F2 & _ & F4 & _). split_and!; [done| |].
  - erewrite account_balance_at; [|cbn; rewrite F2; apply lookup_insert_eq]. done.
  - cbn. by rewrite F4.
Qed.

Lemma open_effect b pi :
  block_exists s (hash (Open b)) = false -> ~ reserved (hash (Open b)) -> accounts s !! oh_account (open_h b) = None ->
  oh_account (open_h b) <> 0 -> pending s !! (oh_account (open_h b), oh_source (open_h b)) = Some pi ->
  oh_representative (open_h b) <> 0 -> validate_message (oh_account (open_h b)) (hash (Open b)) (open_signature b) = false ->
  exists r s', process (Open b) s = Ok (r, s') /\ code r = progress /\ account_balance s' (oh_account (open_h b)) = pi_amount pi
  /\ pending s' = delete (oh_account (open_h b), oh_source (open_h b)) (pending s).
Proof.
  intros Hex Hres Hi Ha Hpi Hr Hv. apply block_exists_false in Hex.
  eexists _, _. split; [exact (process_open_run I Hfuel b pi Hex Hres Hi Ha Hpi Hr Hv)|]. split_and!; [done| |done].
  erewrite account_balance_at; [|cbn; apply lookup_insert_eq]. done.
Qed.

Lemma change_effect b a i pb :
  extends (s := s) (Change b) a i pb -> ch_representative (change_h b) <> 0 -> ~ reserved (hash (Change b)) ->
  validate_message a (hash (Change b)) (change_signature b) = false ->
  exists r s' i', process (Change b) s = Ok (r, s') /\ code r = progress /\ accounts s' !! a = Some i'
  /\ rep_block i' = hash (Change b) /\ balance_of i' = balance_of i /\ pending s' = pending s.
Proof.
  intros X Hr Hres Hv. pose proof (ex_account _ _ _ _ X) as Hi.
  assert (Ha0 : a <> 0) by (exact (ac_zero _ _ _ _ (inv_head I _ _ Hi))).
  destruct (put_linked_frame (Change b) pb s) as (_ & F2 & _ & F4 & _).
  eexists _, _, _. split; [exact (process_change_run I Hfuel b a i pb X Hr Hres Ha0 Hv)|].
  split; [done|]. split; [cbn; rewrite F2; apply lookup_insert_eq|]. split_and!; [done|done|]. cbn. by rewrite F4.
Qed.
End Effects.

Section Accepted.
Context `{WalletCrypto, Environment, Signing, NodeEnvironment, Network, Iteration, MultimapOrder, WorkSource}.
Context (receive_minimum : Z) (fuel : nat).
Context (Hclock : forall i, steady_clock (S i) < steady_clock i + transaction_timeout) (Hfuel : (1 <= fuel)%nat).
Context (Hsign : forall prv h, validate_message (ed25519_publickey prv) h (sign_message prv (ed25519_publickey prv) h) = false).
Context {nb : nat} {g : ghost} {n : wallet_node} {q : key_ring}.
Context (I : inv_with nb g (ledger_of n)) (W : implements (wn_wallet n) q) (Hloop : (query_fuel nb <= loop_fuel)%nat).
Context (Hun : unchecked_ok (n_unchecked (wn_node n))).

(** A block whose hash is new. *)
Definition new_block (b : block) : Prop :=
  ~ reserved (hash b) /\ block_exists (ledger_of n) (hash b) = false /\ unchecked_get (hash b) (n_unchecked (wn_node n)) = Ok [].

Lemma new_block_hash b b' : hash b = hash b' -> new_block b -> new_block b'.
Proof. unfold new_block. by intros ->. Qed.

Lemma head_extends a i b :
  accounts (ledger_of n) !! a = Some i -> previous b = head i -> new_block b -> exists pb, extends (s := ledger_of n) b a i pb.
Proof.
  intros Hi Hp (Hres & Hex & _). pose proof (inv_head I _ _ Hi) as A. destruct (ac_head _ _ _ _ A) as [pb Hpb].
  exists pb. apply extends_intro; try done; rewrite Hp; [exact Hpb|].
  apply (ai_frontier _ _ _ _ (iv_accounts _ _ _ I)). eauto.
Qed.

(** A key that can be fetched. *)
Lemma fetched a prv :
  special_count <= a -> fetch (wn_wallet n) a = Some prv ->
  valid_password (wn_wallet n) = true /\ key_exists (wn_wallet n) a = true /\ ed25519_publickey prv = a.
Proof.
  intros Ha Hf. rewrite (fetch_run _ q a W Ha) in Hf. destruct (ring_unlocked q) eqn:Hu; [|done].
  split_and!.
  - by rewrite (im_unlocked _ _ W).
  - apply key_exists_true, (ring_entry _ q a W). by eexists.
  - exact (proj1 (secret_pub _ q a prv W Hf)).
Qed.

(** Signatures are over the hash of the block without them. *)
Lemma signed_by_owner a prv b b' :
  special_count <= a -> fetch (wn_wallet n) a = Some prv -> concat (hash_chunks b) = concat (hash_chunks b') ->
  validate_message a (hash b) (sign_message prv a (hash b')) = false.
Proof.
  intros Ha Hf Hb. rewrite (hash_concat b b' Hb). destruct (fetched a prv Ha Hf) as (_ & _ & Hp). rewrite <- Hp. exact (Hsign prv _).
Qed.

Lemma account_and_key_run a i prv :
  accounts (ledger_of n) !! a = Some i -> fetch (wn_wallet n) a = Some prv -> account_and_key a n = Ok ((i, prv), n).
Proof.
  intros Hi Hf. unfold account_and_key. erewrite st_bind_ok by reflexivity. unfold account_get. rewrite Hi.
  erewrite st_bind_ok by reflexivity. erewrite st_bind_ok by reflexivity. by rewrite Hf.
Qed.

Lemma send_process a i prv dst m w :
  special_count <= a -> accounts (ledger_of n) !! a = Some i -> fetch (wn_wallet n) a = Some prv ->
  0 <= m <= balance_of i -> let b := Send (send_block_new (head i) dst (balance_of i - m) prv a w) in new_block b ->
  exists r s', process b (ledger_of n) = Ok (r, s') /\ code r = progress /\ account_balance s' a = balance_of i - m
  /\ pending s' = <[(dst, hash b) := PendingInfo a m]> (pending (ledger_of n)).
Proof.
  intros Ha Hi Hf Hm b Hnew. destruct (head_extends a i b Hi eq_refl Hnew) as [pb X].
  assert (Hbal : balance_of i <= genesis_amount) by (pose proof (weight_has_balance I _ _ Hi); lia).
  destruct (send_effect I _ a i pb X) as (r & s' & Hrun & Hc & Hb & Hp).
  - unfold fits, genesis_amount in *. cbn [send_block_new send_h sh_balance]. lia.
  - cbn [send_block_new send_h sh_balance]. lia.
  - unfold b, send_block_new. cbn [send_signature]. apply signed_by_owner; [exact Ha|exact Hf|reflexivity].
  - exists r, s'. split_and!; [exact Hrun|exact Hc|exact Hb|]. rewrite Hp. cbn [send_block_new send_h sh_balance sh_destination].
    replace (balance_of i - (balance_of i - m)) with m by lia. reflexivity.
Qed.

Lemma receive_process a i prv src pi w :
  special_count <= a -> accounts (ledger_of n) !! a = Some i -> fetch (wn_wallet n) a = Some prv ->
  pending (ledger_of n) !! (a, src) = Some pi -> let b := Receive (receive_block_new (head i) src prv a w) in new_block b ->
  exists r s', process b (ledger_of n) = Ok (r, s') /\ code r = progress /\ account_balance s' a = balance_of i + pi_amount pi
  /\ pending s' = delete (a, src) (pending (ledger_of n)).
Proof.
  intros Ha Hi Hf Hpi b Hnew. destruct (head_extends a i b Hi eq_refl Hnew) as [pb X]. apply (receive_effect I _ a i pb pi X).
  - exact Hpi.
  - unfold b, receive_block_new. cbn [receive_signature]. apply signed_by_owner; [exact Ha|exact Hf|reflexivity].
Qed.

Lemma open_process a prv src rep pi w :
  special_count <= a -> accounts (ledger_of n) !! a = None -> fetch (wn_wallet n) a = Some prv -> rep <> 0 ->
  pending (ledger_of n) !! (a, src) = Some pi -> let b := Open (open_block_new src rep a prv a w) in new_block b ->
  exists r s', process b (ledger_of n) = Ok (r, s') /\ code r = progress /\ account_balance s' a = pi_amount pi
  /\ pending s' = delete (a, src) (pending (ledger_of n)).
Proof.
  intros Ha Hi Hf Hr Hpi b (Hres & Hex & _). unfold special_count in Ha.
  apply (open_effect I Hloop (open_block_new src rep a prv a w) pi Hex Hres Hi ltac:(cbn; lia) Hpi Hr).
  unfold open_block_new. cbn [open_signature open_h oh_account]. apply signed_by_owner; [exact Ha|exact Hf|reflexivity].
Qed.

Lemma change_process a i prv rep w :
  special_count <= a -> accounts (ledger_of n) !! a = Some i -> fetch (wn_wallet n) a = Some prv -> rep <> 0 ->
  let b := Change (change_block_new (head i) rep prv a w) in new_block b ->
  exists r s' i', process b (ledger_of n) = Ok (r, s') /\ code r = progress /\ accounts s' !! a = Some i'
  /\ rep_block i' = hash b /\ balance_of i' = balance_of i /\ pending s' = pending (ledger_of n).
Proof.
  intros Ha Hi Hf Hr b Hnew. destruct (head_extends a i b Hi eq_refl Hnew) as [pb X].
  apply (change_effect I Hloop _ a i pb X Hr (proj1 Hnew)).
  unfold b, change_block_new. cbn [change_signature]. apply signed_by_owner; [exact Ha|exact Hf|reflexivity].
Qed.

(** *** The actions *)

Lemma send_action_run a i prv dst m gen :
  special_count <= a -> accounts (ledger_of n) !! a = Some i -> fetch (wn_wallet n) a = Some prv ->
  work_found gen (head i) -> balance_of i <> 0 -> 0 <= m <= balance_of i -> new_block (Send (send_block_new (head i) dst (balance_of i - m) prv a 0)) ->
  exists w n', let b := Send (send_block_new (head i) dst (balance_of i - m) prv a w) in
  send_action fuel a dst m gen n = Ok (Some b, n') /\ (gen = true -> work_validate_block b = false) /\ made a gen b n n'
  /\ account_balance (ledger_of n') a = balance_of i - m
  /\ pending (ledger_of n') = <[(dst, hash b) := PendingInfo a m]> (pending (ledger_of n)).
Proof.
  intros Ha Hi Hf Hg Hb Hm Hnew. destruct (fetched a prv Ha Hf) as (Hv & Hk & _). destruct (work_run gen a (head i) n Hg) as (w & Hw & Hwv).
  assert (Hnew' : new_block (Send (send_block_new (head i) dst (balance_of i - m) prv a w))) by exact (new_block_hash _ _ (send_new_hash _ _ _ _ _ 0 w) Hnew).
  destruct (send_process a i prv dst m w Ha Hi Hf Hm Hnew') as (r & s' & Hp & Hc & Hbal & Hpend).
  destruct (submit_run fuel Hclock Hfuel a gen _ n r s' Hp Hc Hun (proj2 (proj2 Hnew'))) as (n' & Hsub & Hs & Hmade).
  exists w, n'. split_and!; [|exact Hwv|exact Hmade|by rewrite Hs|rewrite Hs; exact Hpend].
  unfold send_action. erewrite st_bind_ok by reflexivity. erewrite st_bind_ok by reflexivity. rewrite Hv, Hk. cbn [andb].
  erewrite st_bind_ok; [exact Hsub|]. erewrite st_bind_ok by reflexivity. rewrite (account_balance_at _ a i Hi), is_zero_ne by exact Hb.
  rewrite (proj2 (Z.leb_le _ _) (proj2 Hm)). cbn [negb andb]. erewrite st_bind_ok by exact (account_and_key_run a i prv Hi Hf). cbn [fst snd].
  erewrite st_bind_ok by exact Hw. reflexivity.
Qed.

Lemma change_action_run a i prv rep gen :
  special_count <= a -> accounts (ledger_of n) !! a = Some i -> fetch (wn_wallet n) a = Some prv -> rep <> 0 ->
  work_found gen (head i) -> new_block (Change (change_block_new (head i) rep prv a 0)) ->
  exists w n' i', let b := Change (change_block_new (head i) rep prv a w) in
  change_action fuel a rep gen n = Ok (Some b, n') /\ (gen = true -> work_validate_block b = false) /\ made a gen b n n'
  /\ accounts (ledger_of n') !! a = Some i' /\ rep_block i' = hash b /\ balance_of i' = balance_of i
  /\ pending (ledger_of n') = pending (ledger_of n).
Proof.
  intros Ha Hi Hf Hr Hg Hnew. destruct (fetched a prv Ha Hf) as (Hv & Hk & _). destruct (work_run gen a (head i) n Hg) as (w & Hw & Hwv).
  assert (Hnew' : new_block (Change (change_block_new (head i) rep prv a w))) by exact (new_block_hash _ _ (change_new_hash _ _ _ _ 0 w) Hnew).
  destruct (change_process a i prv rep w Ha Hi Hf Hr Hnew') as (r & s' & i' & Hp & Hc & Hi' & Hx).
  destruct (submit_run fuel Hclock Hfuel a gen _ n r s' Hp Hc Hun (proj2 (proj2 Hnew'))) as (n' & Hsub & Hs & Hmade).
  exists w, n', i'. cbv zeta. rewrite Hs. split_and!; [|exact Hwv|exact Hmade|exact Hi'|apply Hx..].
  unfold change_action. erewrite st_bind_ok by reflexivity. erewrite st_bind_ok by reflexivity.
  assert (Hz : is_zero (latest (ledger_of n) a) = false).
  { unfold latest, account_get. rewrite Hi. apply is_zero_ne. intros Hz. destruct (ac_head _ _ _ _ (inv_head I _ _ Hi)) as [hb Hh].
    rewrite Hz, (zero_entry I) in Hh. discriminate Hh. }
  rewrite Hv, Hk, Hz. cbn [andb negb].
  erewrite st_bind_ok; [exact Hsub|]. erewrite st_bind_ok by exact (account_and_key_run a i prv Hi Hf). cbn [fst snd].
  erewrite st_bind_ok by exact Hw. reflexivity.
Qed.

(** The block that receives [src] for the account [a]. *)
Definition receiving_block (a src rep prv w : Z) : block :=
  match accounts (ledger_of n) !! a with
  | Some i => Receive (receive_block_new (head i) src prv a w)
  | None => Open (open_block_new src rep a prv a w)
  end.

Lemma receiving_hash a src rep prv w w' : hash (receiving_block a src rep prv w) = hash (receiving_block a src rep prv w').
Proof. unfold receiving_block. destruct (accounts _ !! a); [apply receive_new_hash|apply open_new_hash]. Qed.

Lemma receiving_process a src rep prv pi w :
  special_count <= a -> fetch (wn_wallet n) a = Some prv -> (accounts (ledger_of n) !! a = None -> rep <> 0) ->
  pending (ledger_of n) !! (a, src) = Some pi -> let b := receiving_block a src rep prv w in new_block b ->
  exists r s', process b (ledger_of n) = Ok (r, s') /\ code r = progress
  /\ account_balance s' a = account_balance (ledger_of n) a + pi_amount pi /\ pending s' = delete (a, src) (pending (ledger_of n)).
Proof.
  intros Ha Hf Hr Hpi. unfold receiving_block. cbv zeta. destruct (accounts (ledger_of n) !! a) as [i|] eqn:Hi; intros Hnew.
  - rewrite (account_balance_at _ a i Hi). exact (receive_process a i prv src pi w Ha Hi Hf Hpi Hnew).
  - assert (Hb : account_balance (ledger_of n) a = 0) by (unfold account_balance, account_get; by rewrite Hi).
    rewrite Hb, Z.add_0_l. exact (open_process a prv src rep pi w Ha Hi Hf (Hr eq_refl) Hpi Hnew).
Qed.

Lemma receive_action_run sb prv rep pi m gen :
  let a := sh_destination (send_h sb) in let src := hash (Send sb) in
  special_count <= a -> fetch (wn_wallet n) a = Some prv -> (accounts (ledger_of n) !! a = None -> rep <> 0) ->
  pending (ledger_of n) !! (a, src) = Some pi -> receive_minimum <= m ->
  work_found gen (latest_root (ledger_of n) a) -> new_block (receiving_block a src rep prv 0) ->
  exists w n', let b := receiving_block a src rep prv w in
  receive_action receive_minimum fuel sb rep m gen n = Ok (Some b, n') /\ (gen = true -> work_validate_block b = false) /\ made a gen b n n'
  /\ account_balance (ledger_of n') a = account_balance (ledger_of n) a + pi_amount pi
  /\ pending (ledger_of n') = delete (a, src) (pending (ledger_of n)).
Proof.
  intros a src Ha Hf Hr Hpi Hmin Hg Hnew. set (root_l := latest_root (ledger_of n) a) in *.
  destruct (work_run gen a root_l n Hg) as (w & Hw & Hwv).
  pose proof (new_block_hash _ _ (receiving_hash a src rep prv 0 w) Hnew) as Hnew'.
  destruct (receiving_process a src rep prv pi w Ha Hf Hr Hpi Hnew') as (r & s' & Hp & Hc & Hbal & Hpend).
  destruct (submit_run fuel Hclock Hfuel a gen _ n r s' Hp Hc Hun (proj2 (proj2 Hnew'))) as (n' & Hsub & Hs & Hmade).
  exists w, n'. cbv zeta. rewrite Hs. split_and!; [| |exact Hmade|exact Hbal|exact Hpend].
  - unfold receive_action. fold a. fold src. erewrite st_bind_ok; [exact Hsub|]. rewrite (proj2 (Z.leb_le _ _) Hmin).
    erewrite st_bind_ok by reflexivity. unfold pending_exists. rewrite Hpi, bool_decide_true by (by eexists).
    erewrite st_bind_ok by reflexivity. rewrite Hf. erewrite st_bind_ok by reflexivity. unfold account_get.
    unfold receiving_block, root_l, latest_root, account_get in *. destruct (accounts (ledger_of n) !! a); erewrite st_bind_ok by exact Hw; reflexivity.
  - intros Ht. unfold receiving_block, root_l, latest_root, account_get in *. destruct (accounts (ledger_of n) !! a); exact (Hwv Ht).
Qed.
End Accepted.

(** ** Searching for what is pending *)

Lemma pending_entries_elem s k pi : (k, pi) ∈ pending_entries s <-> pending s !! k = Some pi.
Proof. unfold pending_entries. rewrite <- elem_of_map_to_list. split; apply perm_in; [|symmetry]; apply merge_sort_Permutation. Qed.

Section Searching.
Context `{WalletCrypto, Environment, Signing, NodeEnvironment, Network, Iteration, MultimapOrder, WorkSource}.
Context (receive_minimum : Z).

Definition set_tasks (f : list background_task -> list background_task) (n : wallet_node) : wallet_node :=
  WalletNode (wn_wallet n) (wn_node n) (wn_arrival n) (wn_actions n) (f (wn_background n)) (wn_answers n).
Definition set_actions (f : list (Z * wallet_action) -> list (Z * wallet_action)) (n : wallet_node) : wallet_node :=
  WalletNode (wn_wallet n) (wn_node n) (wn_arrival n) (f (wn_actions n)) (wn_background n) (wn_answers n).

(** The head of an account is asked to be confirmed. *)
Definition confirm_task (s : store) (a : account) : background_task := Confirm_then_receive a (block_get s (latest s a)).

(** A pending entry the wallet is interested in. *)
Definition wanted_entry (keys : list account) (x : pending_key * pending_info) : Prop := fst (fst x) ∈ keys /\ receive_minimum <= pi_amount (snd x).

Lemma search_loop_run keys already l n :
  (forall x, x ∈ l -> is_Some (accounts (ledger_of n) !! pi_source (snd x))) ->
  exists T, search_loop receive_minimum keys already l n = Ok (tt, set_tasks (fun t => t ++ (confirm_task (ledger_of n) <$> T)) n)
  /\ NoDup T /\ forall a, a ∈ T <-> a ∉ already /\ exists x, x ∈ l /\ wanted_entry keys x /\ pi_source (snd x) = a.
Proof.
  revert already n. induction l as [|[k pi] l IH]; intros already n Hsrc; cbn [search_loop].
  { exists []. split_and!; [|apply NoDup_nil_2|].
    - unfold set_tasks. rewrite app_nil_r. by destruct n.
    - intros a. split; [by intros ?%not_elem_of_nil|]. by intros (_ & x & ?%not_elem_of_nil & _). }
  assert (Hl : forall x, x ∈ l -> is_Some (accounts (ledger_of n) !! pi_source (snd x))) by (intros x Hx; apply Hsrc; by right).
  destruct (bool_decide (fst k ∈ keys) && (receive_minimum <=? pi_amount pi)) eqn:Hw.
  - apply andb_true_iff in Hw as [Hk%bool_decide_eq_true Hm%Z.leb_le]. assert (Hwe : wanted_entry keys (k, pi)) by done.
    erewrite st_bind_ok by reflexivity. destruct (Hsrc (k, pi) ltac:(left)) as [i Hi]. unfold account_get. cbn [snd] in Hi. rewrite Hi.
    case_bool_decide as Ha.
    + destruct (IH already n Hl) as (T & Hrun & Hnd & HT). exists T. split_and!; [exact Hrun|exact Hnd|]. intros a. rewrite HT. split.
      * intros (Hn & x & Hx & Hr). split; [exact Hn|]. exists x. split; [by right|exact Hr].
      * intros (Hn & x & [->|Hx]%elem_of_cons & Hwx & <-); [done|]. split; [exact Hn|]. by exists x.
    + destruct (IH (pi_source pi :: already) (set_tasks (fun t => t ++ [confirm_task (ledger_of n) (pi_source pi)]) n) Hl) as (T & Hrun & Hnd & HT).
      exists (pi_source pi :: T). split_and!.
      * do 2 (erewrite st_bind_ok by reflexivity). unfold set_tasks, confirm_task, latest, account_get in *. cbn in *. rewrite Hi in *.
        rewrite Hrun. by rewrite <- app_assoc.
      * apply NoDup_cons. split; [|exact Hnd]. rewrite HT, elem_of_cons. tauto.
      * intros a. rewrite elem_of_cons, HT. split.
        -- intros [->|(Hn & x & Hx & Hr)]; [split; [exact Ha|]; exists (k, pi); split; [by left|done]|].
           rewrite not_elem_of_cons in Hn. split; [tauto|]. exists x. split; [by right|exact Hr].
        -- intros (Hn & x & [->|Hx]%elem_of_cons & Hwx & Hax); [by left|].
           destruct (decide (a = pi_source pi)) as [->|Hne]; [by left|]. right. rewrite not_elem_of_cons. split; [done|]. by exists x.
  - assert (Hnw : ~ wanted_entry keys (k, pi)).
    { intros [Hk Hm]. cbn in Hk, Hm. rewrite (bool_decide_true _ Hk), (proj2 (Z.leb_le _ _) Hm) in Hw. discriminate Hw. }
    destruct (IH already n Hl) as (T & Hrun & Hnd & HT). exists T. split_and!; [exact Hrun|exact Hnd|]. intros a. rewrite HT. split.
    + intros (Hn & x & Hx & Hr). split; [exact Hn|]. exists x. split; [by right|exact Hr].
    + intros (Hn & x & [->|Hx]%elem_of_cons & Hwx & Hax); [done|]. split; [exact Hn|]. by exists x.
Qed.

(** *** The queue *)

Definition queue_sorted (l : list (Z * wallet_action)) : Prop := StronglySorted (fun x y => fst y <= fst x) l.

Lemma action_insert_perm {A} (x : Z * A) l : action_insert x l ≡ₚ x :: l.
Proof.
  induction l as [|y l IH]; cbn; [done|]. destruct (fst y <? fst x); [done|].
  eapply Permutation_trans; [apply perm_skip, IH|apply perm_swap].
Qed.

Lemma action_insert_sorted x l : queue_sorted l -> queue_sorted (action_insert x l).
Proof.
  induction l as [|y l IH]; intros Hs; cbn [action_insert]; [by apply StronglySorted_cons; split; constructor|].
  pose proof Hs as [Hy Hl]%StronglySorted_cons. destruct (Z.ltb_spec (fst y) (fst x)) as [Hlt|Hge]; apply StronglySorted_cons.
  - split; [|exact Hs]. apply Forall_cons. split; [lia|]. eapply Forall_impl; [exact Hy|]. cbn. lia.
  - split; [|by apply IH]. rewrite Forall_forall in *. intros z Hz.
    apply (perm_in _ _ _ (action_insert_perm x l)) in Hz. apply elem_of_cons in Hz as [->|Hz]; [done|by apply Hy].
Qed.

Lemma queued_perm {A} (Q l : list (Z * A)) : foldr action_insert l Q ≡ₚ Q ++ l.
Proof. induction Q as [|x Q IH]; cbn; [done|]. eapply Permutation_trans; [apply action_insert_perm|]. by apply perm_skip. Qed.

Lemma queued_sorted Q l : queue_sorted l -> queue_sorted (foldr action_insert l Q).
Proof. intros Hl. induction Q as [|x Q IH]; cbn; [done|]. by apply action_insert_sorted. Qed.

(** A pending entry the wallet can receive from the account [a], and what is queued for it. *)
Definition receivable (w : wallet_store) (a : account) (x : pending_key * pending_info) : Prop :=
  pi_source (snd x) = a /\ is_Some (entries w !! fst (fst x)).

Lemma receive_loop_run a rep l n :
  valid_password (wn_wallet n) = true ->
  (forall x, x ∈ l -> exists sb, block_get (ledger_of n) (snd (fst x)) = Some (Send sb)) ->
  exists Q, receive_loop a rep l n = Ok (tt, set_actions (fun q => foldr action_insert q (rev Q)) n)
  /\ forall y, y ∈ Q <-> exists x sb, x ∈ l /\ receivable (wn_wallet n) a x /\ block_get (ledger_of n) (snd (fst x)) = Some (Send sb)
      /\ y = (pi_amount (snd x), Act_receive (Send sb) rep (pi_amount (snd x)) (Log_error (Send sb)) true).
Proof.
  revert n. induction l as [|[k pi] l IH]; intros n Hv Hb; cbn [receive_loop].
  { exists []. split; [by destruct n|]. intros y. split; [by intros ?%not_elem_of_nil|]. by intros (x & sb & ?%not_elem_of_nil & _). }
  do 2 (erewrite st_bind_ok by reflexivity). rewrite Hv, andb_true_r.
  assert (Hl : forall x, x ∈ l -> exists sb, block_get (ledger_of n) (snd (fst x)) = Some (Send sb)) by (intros x Hx; apply Hb; by right).
  assert (Hr : (pi_source pi =? a) && key_exists (wn_wallet n) (fst k) = true <-> receivable (wn_wallet n) a (k, pi)).
  { unfold receivable. by rewrite andb_true_iff, Z.eqb_eq, key_exists_true. }
  destruct ((pi_source pi =? a) && key_exists (wn_wallet n) (fst k)).
  - destruct (Hb (k, pi) ltac:(left)) as [sb Hsb]. cbn [fst snd] in Hsb.
    set (new := (pi_amount pi, Act_receive (Send sb) rep (pi_amount pi) (Log_error (Send sb)) true)).
    destruct (IH (set_actions (action_insert new) n) Hv Hl) as (Q & Hrun & HQ). exists (new :: Q). split.
    + erewrite st_bind_ok.
      2:{ erewrite st_bind_ok by reflexivity. rewrite Hsb. unfold receive_async. erewrite st_bind_ok by reflexivity. reflexivity. }
      etransitivity; [exact Hrun|]. unfold set_actions. cbn. by rewrite foldr_app.
    + intros y. rewrite elem_of_cons, HQ. split.
      * intros [->|(x & sb' & Hx & Hy)]; [exists (k, pi), sb; split_and!; [left|by apply Hr|exact Hsb|done]|].
        exists x, sb'. split; [by right|exact Hy].
      * intros (x & sb' & [->|Hx]%elem_of_cons & Hy); [left|right; by exists x, sb'].
        destruct Hy as (_ & Hsb' & ->). cbn [fst snd] in *. rewrite Hsb in Hsb'. injection Hsb' as <-. done.
  - destruct (IH n Hv Hl) as (Q & Hrun & HQ). exists Q. split; [erewrite st_bind_ok by reflexivity; exact Hrun|].
    intros y. rewrite HQ. split.
    + intros (x & sb' & Hx & Hy). exists x, sb'. split; [by right|exact Hy].
    + intros (x & sb' & [->|Hx]%elem_of_cons & Hy); [|by exists x, sb']. destruct Hy as (Hrec & _). apply Hr in Hrec. discriminate Hrec.
Qed.
End Searching.

(** ** Claims *)

(** A node on a ledger that can be reached, with a wallet that can be reached. *)
Record usable `{WalletCrypto, Environment, Network} (gb : open_block) (nb : nat) rep rnd tr (n : wallet_node) : Prop := {
  us_ledger : reachable gb nb (ledger_of n);
  us_fuel : (query_fuel nb <= loop_fuel)%nat;
  us_wallet : wallet_run rep rnd tr (wn_wallet n);
  us_unchecked : unchecked_ok (n_unchecked (wn_node n))
}.

Section Claims.
Context `{WalletCrypto, Environment, Signing, NodeEnvironment, Network, Iteration, MultimapOrder, WorkSource}.
Context (Hpub : forall prv, fits 256 (ed25519_publickey prv)).
Context (Hsign : forall prv h, validate_message (ed25519_publickey prv) h (sign_message prv (ed25519_publickey prv) h) = false).
Context (Hclock : forall i, steady_clock (S i) < steady_clock i + transaction_timeout).

Lemma send_action_none fuel n a dst m gen :
  valid_password (wn_wallet n) = false \/ account_balance (ledger_of n) a = 0 \/ account_balance (ledger_of n) a < m ->
  send_action fuel a dst m gen n = Ok (None, n).
Proof.
  intros Hno. unfold send_action. do 2 (erewrite st_bind_ok by reflexivity). rewrite (st_bind_ok _ _ n None n); [reflexivity|].
  destruct (valid_password (wn_wallet n)); [|done]. destruct (key_exists (wn_wallet n) a); [|done]. cbn [andb].
  erewrite st_bind_ok by reflexivity. destruct Hno as [Hno|Hno]; [done|].
  replace (negb (is_zero (account_balance (ledger_of n) a)) && (m <=? account_balance (ledger_of n) a)) with false; [done|].
  symmetry. apply andb_false_iff. destruct Hno as [->|Hlt]; [by left|right]. by apply Z.leb_gt.
Qed.


(** What is sent to the wallet is received.  When a send to one of its
    accounts is pending and the amount is not below the minimum, [receive_action]
    makes a receive block, or an open block for an account that has no blocks
    yet; it has sufficient work, the node accepts it, the amount is added to the
    balance and is no longer pending. *)
Theorem wallet_receives_accepted receive_minimum fuel gb nb rep rnd tr n sb prv rep' pi gen :
  let a := sh_destination (send_h sb) in let src := hash (Send sb) in
  usable gb nb rep rnd tr n -> (1 <= fuel)%nat -> special_count <= a -> fetch (wn_wallet n) a = Some prv ->
  pending (ledger_of n) !! (a, src) = Some pi -> receive_minimum <= pi_amount pi ->
  work_found gen (latest_root (ledger_of n) a) -> (accounts (ledger_of n) !! a = None -> rep' <> 0) -> new_block (n := n) (receiving_block (n := n) a src rep' prv 0) ->
  exists w n', let b := receiving_block (n := n) a src rep' prv w in
  receive_action receive_minimum fuel sb rep' (pi_amount pi) gen n = Ok (Some b, n')
  /\ (gen = true -> work_validate_block b = false) /\ made a gen b n n'
  /\ account_balance (ledger_of n') a = account_balance (ledger_of n) a + pi_amount pi
  /\ pending (ledger_of n') = delete (a, src) (pending (ledger_of n)).
Proof.
  intros a src [R Hq Hw Hun] Hfuel Ha Hf Hpi Hmin Hg Hrep Hnew. destruct (reachable_inv _ _ _ R Hq) as [g I].
  destruct (wallet_run_implements Hpub _ _ _ _ Hw) as (q & _ & W).
  exact (receive_action_run receive_minimum fuel Hclock Hfuel Hsign I W Hq Hun sb prv rep' pi (pi_amount pi) gen Ha Hf Hrep Hpi Hmin Hg Hnew).
Qed.

(** Everything that is pending for the wallet is found.  [search_run] asks
    for confirmation of the heads of exactly the accounts that have sent one of
    the wallet's accounts at least the minimum, once each, and no assertion
    fails; once such an account is confirmed, [receive_all] of the open wallet
    queues exactly the sends of this account that are pending for the wallet,
    among what was queued, by the size of the amount. *)
Theorem pending_found receive_minimum gb nb rep rnd tr n a :
  usable gb nb rep rnd tr n -> valid_password (wn_wallet n) = true ->
  (exists T, search_run receive_minimum (wallet_accounts (wn_wallet n)) n
             = Ok (tt, set_tasks (fun t => t ++ (confirm_task (ledger_of n) <$> T)) n)
   /\ NoDup T /\ forall x, x ∈ T <-> exists d h pi, pending (ledger_of n) !! (d, h) = Some pi
                              /\ d ∈ wallet_accounts (wn_wallet n) /\ receive_minimum <= pi_amount pi /\ pi_source pi = x)
  /\ exists Q n', receive_all a n = Ok (tt, n') /\ wn_actions n' ≡ₚ Q ++ wn_actions n
     /\ (queue_sorted (wn_actions n) -> queue_sorted (wn_actions n'))
     /\ forall y, y ∈ Q <-> exists d h pi sb, pending (ledger_of n) !! (d, h) = Some pi /\ pi_source pi = a
          /\ is_Some (entries (wn_wallet n) !! d) /\ block_get (ledger_of n) h = Some (Send sb)
          /\ y = (pi_amount pi, Act_receive (Send sb) (wallet_representative (wn_wallet n)) (pi_amount pi) (Log_error (Send sb)) true).
Proof.
  intros [R Hq Hw Hun] Hv. destruct (reachable_inv _ _ _ R Hq) as [g I].
  assert (Hp : forall x, x ∈ pending_entries (ledger_of n) -> pending (ledger_of n) !! fst x = Some (snd x)) by (intros [k pi] Hx; by apply pending_entries_elem).
  split.
  - destruct (search_loop_run receive_minimum (wallet_accounts (wn_wallet n)) [] (pending_entries (ledger_of n)) n) as (T & Hrun & Hnd & HT).
    { intros [[d h] pi] Hx. apply (pending_source I d h). exact (Hp _ Hx). }
    exists T. split_and!; [unfold search_run; erewrite st_bind_ok by reflexivity; exact Hrun|exact Hnd|]. intros x. rewrite HT. split.
    + intros (_ & [[d h] pi] & Hx & [Hd Hm] & Hs). exists d, h, pi. split_and!; [by apply (Hp _ Hx)|done..].
    + intros (d & h & pi & Hx & Hd & Hm & Hs). split; [by intros ?%not_elem_of_nil|]. exists (d, h, pi). split; [by apply pending_entries_elem|done].
  - destruct (receive_loop_run a (wallet_representative (wn_wallet n)) (pending_entries (ledger_of n)) n Hv) as (Q & Hrun & HQ).
    { intros [[d h] pi] Hx. destruct (pending_source I d h pi) as ((sb & m & He & _) & _); [by apply (Hp _ Hx)|].
      exists sb. exact (entry_get _ _ _ He). }
    exists Q, (set_actions (fun q => foldr action_insert q (rev Q)) n). split_and!.
    + unfold receive_all. do 2 (erewrite st_bind_ok by reflexivity). exact Hrun.
    + cbn. apply Permutation_trans with (rev Q ++ wn_actions n); [apply queued_perm|]. apply Permutation_app_tail. symmetry. apply Permutation_rev.
    + intros Hs. cbn. by apply queued_sorted.
    + intros y. rewrite HQ. split.
      * intros ([[d h] pi] & sb & Hx & [Hs Hd] & Hb & ->). exists d, h, pi, sb. split_and!; [by apply (Hp _ Hx)|done..].
      * intros (d & h & pi & sb & Hx & Hs & Hd & Hb & ->). exists (d, h, pi), sb. split_and!; [by apply pending_entries_elem|done..].
Qed.

(** [send_sync] must not be asked for a send that cannot be made: when the
    wallet is locked, or the account has nothing, or less than the amount, the
    thread of the wallets uses a null pointer, where [send_async] reports that
    there is no block. *)
Theorem send_sync_null receive_minimum fuel n a dst m k :
  valid_password (wn_wallet n) = false \/ account_balance (ledger_of n) a = 0 \/ account_balance (ledger_of n) a < m ->
  perform receive_minimum fuel (Act_send a dst m (Set_hash k) true) n = Fault Indeterminate_value
  /\ perform receive_minimum fuel (Act_send a dst m (Callback k) true) n
     = Ok (tt, WalletNode (wn_wallet n) (wn_node n) (wn_arrival n) (wn_actions n) (wn_background n) (wn_answers n ++ [Called k None])).
Proof.
  intros Hno. pose proof (send_action_none fuel n a dst m true Hno) as Hs.
  cbn [perform]. split; by erewrite st_bind_ok by exact Hs.
Qed.
End Claims.
