(* ===== verification/WalletExamples.v ===== *)
(** * A small wallet

    A wallet with a key of its own and a derived one, closed with a password,
    and another wallet it moves keys to. *)
From Stdlib Require Import ZArith Lia List Ascii String.
From stdpp Require Import prelude gmap sorting.
From S2P Require Import Prelude Lists Blake2b Numbers Streams Blocks Store Ledger StoreFacts LedgerInv LedgerQueries LedgerExtend LedgerProcess LedgerTheorems LedgerExamples Votes VotesExamples Work Unchecked Processor Convergence ProcessorExamples Peers BootstrapServer Wallet WalletRing WalletTheorems WalletBackup WalletActions WalletActionTheorems.

#[local] Existing Instance in_order.
#[local] Existing Instance sample_node.

#[export] Instance toy_crypto : WalletCrypto := {|
  aes_ctr key iv := wrap 256 (key * 2 ^ 65 + iv * 2 ^ 70 + 2 ^ 250 + 12345);
  argon2 work text salt := wrap 256 (work + Z.of_nat (length text) + salt);
  ed25519_publickey prv := wrap 256 (prv + 70)
|}.

Lemma toy_public prv : fits 256 (ed25519_publickey prv).
Proof. apply wrap_fits. lia. Qed.

Definition sample_random (k : Z) : wallet_random := WalletRandom (77 * 2 ^ 128) (k * 2 ^ 40 + 1) (k + 4242) [5; 6] [7].

Definition after_op {A} (r : res (A * wallet_store)) (w : wallet_store) : wallet_store :=
  match r with Ok (_, w') => w' | Fault _ => w end.

Definition empty_wallet : wallet_store := WalletStore ∅ [] [].
Definition created (k : Z) : wallet_store := match wallet_store_new ∅ 9 (sample_random k) with Ok w => w | Fault _ => empty_wallet end.
Definition ran (op : wallet_op) (w : wallet_store) : wallet_store := after_op (run_op 4 0 op w) w.

Definition pw : list byte := [byte.of_Z 112; byte.of_Z 119].

Definition wallet_1 : wallet_store := ran (Insert 50) (created 1).
Definition wallet_2 : wallet_store := ran Derive wallet_1.
Definition wallet_3 : wallet_store := ran (Rekey pw) wallet_2.
Definition wallet_4 : wallet_store := ran (Enter []) wallet_3.

Definition derived_account : account := ed25519_publickey (derived_key 4243 0).

Definition sample_trace : list (wallet_op * Z) := [(Insert 50, 120); (Derive, derived_account); (Rekey pw, 0); (Enter [], 1)].

Lemma created_run k : wallet_run 9 (sample_random k) [] (created k).
Proof.
  apply Wallet_created. unfold created. destruct (wallet_new_implements 9 (sample_random k)) as (w & -> & _). done.
Qed.

Ltac wallet_step :=
  match goal with |- wallet_run _ _ (?tr ++ [(?op, _)]) (ran _ ?w) => apply (Wallet_ran _ _ tr w 4 0 op) end.

Lemma wallet_1_run : wallet_run 9 (sample_random 1) [(Insert 50, 120)] wallet_1.
Proof.
  change [(Insert 50, 120)] with ([] ++ [(Insert 50, 120)]). unfold wallet_1. wallet_step; [apply created_run| |vm_compute; reflexivity].
  unfold op_ok, insertable. vm_compute. split; congruence.
Qed.

Lemma wallet_3_run : wallet_run 9 (sample_random 1) [(Insert 50, 120); (Derive, derived_account); (Rekey pw, 0)] wallet_3.
Proof.
  change [(Insert 50, 120); (Derive, derived_account); (Rekey pw, 0)]
    with (([(Insert 50, 120)] ++ [(Derive, derived_account)]) ++ [(Rekey pw, 0)]).
  unfold wallet_3. wallet_step; [|done|vm_compute; reflexivity].
  unfold wallet_2. wallet_step; [apply wallet_1_run| |vm_compute; reflexivity].
  exists O. split; [lia|]. vm_compute. reflexivity.
Qed.

Lemma wallet_4_run : wallet_run 9 (sample_random 1) sample_trace wallet_4.
Proof.
  change sample_trace with ([(Insert 50, 120); (Derive, derived_account); (Rekey pw, 0)] ++ [(Enter [], 1)]).
  unfold wallet_4. wallet_step; [apply wallet_3_run|done|vm_compute; reflexivity].
Qed.

Lemma wallet_refines_witness :
  fetch wallet_4 120 = None
  /\ exists r, ring_run (r_seed (sample_random 1)) sample_trace r
  /\ (forall a, special_count <= a -> fetch wallet_4 a = if ring_unlocked r then ring_secret r a else None)
  /\ (forall a, a ∈ wallet_accounts wallet_4 <-> is_Some (ring_keys r !! a))
  /\ forall fuel random_seed op, op_ok fuel wallet_4 op -> exists out w', run_op fuel random_seed op wallet_4 = Ok (out, w').
Proof. split; [vm_compute; reflexivity|]. apply (wallet_refines toy_public 9 (sample_random 1) sample_trace wallet_4 wallet_4_run). Defined.

(** The wallet is locked, and its table gives both keys. *)
Lemma wallet_opens_without_password_witness :
  fetch wallet_4 120 = None /\ leaked (entries wallet_4) 120 = Some 50
  /\ leaked (entries wallet_4) derived_account = Some (derived_key 4243 0)
  /\ fetch (after_op (attempt_password 0 pw wallet_4) wallet_4) 120 = leaked (entries wallet_4) 120.
Proof.
  split_and!; [vm_compute; reflexivity..|].
  apply (wallet_opens_without_password toy_public 9 (sample_random 1) sample_trace wallet_4 0 pw _ 120 wallet_4_run).
  - vm_compute. reflexivity.
  - unfold special_count. lia.
Defined.

Lemma moved_keys_not_lost_witness :
  exists failed w' o', wallet_move [120] (created 2, wallet_1) = Ok (failed, (w', o'))
  /\ keys_moved (created 2) wallet_1 [120] failed w' o' /\ fetch wallet_1 120 = Some 50.
Proof.
  destruct (moved_keys_not_lost toy_public _ _ _ _ _ _ _ _ (created_run 2) wallet_1_run) as [Hm _].
  destruct (Hm [120]) as (e & w' & o' & H1 & H2).
  - split_and!; [vm_compute; reflexivity..|apply NoDup_singleton| |].
    + intros a ->%list_elem_of_singleton. unfold special_count. lia.
    + intros a prv ->%list_elem_of_singleton Hf.
      assert (fetch wallet_1 120 = Some 50) as Hx by (vm_compute; reflexivity). rewrite Hx in Hf. injection Hf as <-.
      split; vm_compute; congruence.
  - exists e, w', o'. split_and!; [exact H1|exact H2|vm_compute; reflexivity].
Defined.

(** ** Hexadecimal numbers *)

Definition hex_char (d : Z) : ascii := ascii_of_nat (Z.to_nat (if d <? 10 then 48 + d else 87 + d)).
Definition hex_value (c : ascii) : Z := let n := Z.of_nat (nat_of_ascii c) in if n <? 58 then n - 48 else n - 87.

Fixpoint hex_digits (k : nat) (n : Z) : list ascii :=
  match k with O => [] | S k => hex_digits k (n / 16) ++ [hex_char (n mod 16)] end.

#[local] Instance digits_64 : HexStream := {|
  hex_print n := string_of_list_ascii (hex_digits 64 n);
  hex_read s := Some (fold_left (fun x c => x * 16 + hex_value c) (list_ascii_of_string s) 0, true)
|}.

Lemma hex_char_value d : 0 <= d < 16 -> hex_value (hex_char d) = d.
Proof.
  intros Hd. assert (Hl : d ∈ seqZ 0 16) by (apply elem_of_seqZ; lia). clear Hd. revert d Hl. apply Forall_forall. repeat constructor.
Qed.

Lemma hex_digits_value k n : 0 <= n < 16 ^ Z.of_nat k -> fold_left (fun x c => x * 16 + hex_value c) (hex_digits k n) 0 = n.
Proof.
  revert n. induction k as [|k IH]; intros n Hn; cbn [hex_digits]; [cbn in *; lia|]. rewrite fold_left_app. cbn [fold_left].
  rewrite IH, hex_char_value by (rewrite ?Nat2Z.inj_succ, ?Z.pow_succ_r in Hn; pose proof (Z.div_mod n 16); pose proof (Z.mod_pos_bound n 16); try split; nia).
  pose proof (Z.div_mod n 16). lia.
Qed.

Lemma length_string_of_list l : String.length (string_of_list_ascii l) = length l.
Proof. induction l as [|c l IH]; cbn; [done|]. by rewrite IH. Qed.

Lemma hex_digits_length k n : length (hex_digits k n) = k.
Proof. revert n. induction k as [|k IH]; intros n; cbn; [done|]. rewrite length_app, IH. cbn. lia. Qed.

Lemma digits_64_ok : hex_ok.
Proof.
  intros n Hn. cbn [hex_print hex_read digits_64]. rewrite length_string_of_list, hex_digits_length, list_ascii_of_string_of_list_ascii. split; [done|].
  rewrite hex_digits_value; [done|]. exact Hn.
Qed.

Lemma backup_restores_witness :
  exists w1 w2, wallet_store_json (Some (serialize_json wallet_4)) [3] [4] = Ok (false, w1) /\ wallet_store_new (entries wallet_4) 9 (sample_random 5) = Ok w2
  /\ forall w', w' = w1 \/ w' = w2 ->
     (forall a, a ∈ wallet_accounts w' <-> a ∈ wallet_accounts wallet_4)
     /\ forall random_seed text w0, attempt_password random_seed text wallet_4 = Ok (false, w0) ->
        exists w0', attempt_password random_seed text w' = Ok (false, w0') /\ forall a, special_count <= a -> fetch w0' a = fetch w0 a.
Proof.
  apply (backup_restores toy_public 9 (sample_random 1) sample_trace wallet_4 [3] [4] 9 (sample_random 5) digits_64_ok wallet_4_run).
  apply map_Forall_lookup, (bool_decide_unpack (map_Forall (fun k v => fits 256 k /\ fits 256 (wv_key v)) (entries wallet_4))). vm_compute. exact I.
Defined.

(** ** A wallet with the keys of the small ledger *)

(** Work found by trying the numbers from zero, for the two roots that are asked for. *)
#[local] Instance searched_work : WorkSource := {| generate_work root := if root =? other_account then 31 else 187 |}.

Lemma toy_signed prv h : validate_message (ed25519_publickey prv) h (sign_message prv (ed25519_publickey prv) h) = false.
Proof. cbn [validate_message sample_env sign_message toy_signing]. by rewrite Z.eqb_refl. Qed.

Lemma sample_ticks i : steady_clock (S i) < steady_clock i + transaction_timeout.
Proof. cbn [steady_clock sample_node]. unfold transaction_timeout. lia. Qed.

Definition owner_wallet : wallet_store := ran (Insert 7) (ran (Insert (live_account - 70)) (created 1)).

Definition owner_trace : list (wallet_op * Z) := ([] ++ [(Insert (live_account - 70), live_account)]) ++ [(Insert 7, other_account)].

Lemma owner_run : wallet_run 9 (sample_random 1) owner_trace owner_wallet.
Proof.
  unfold owner_wallet, owner_trace. wallet_step; [wallet_step; [apply created_run| |vm_compute; reflexivity]| |vm_compute; reflexivity];
    unfold op_ok, insertable; vm_compute; split; congruence.
Qed.

Definition owner_node : wallet_node :=
  WalletNode owner_wallet (Node ledger_2 unchecked_empty [] 0 []) (BlockArrival [] 0) [] [] [].

Lemma owner_usable : usable live_genesis 2 9 (sample_random 1) owner_trace owner_node.
Proof. split; [exact reach_2|apply fuel_ok; lia|exact owner_run|]. split; [by intros h bytes ?%not_elem_of_nil|by intros h b ?%not_elem_of_nil]. Qed.

(** The hash of a block is neither reserved nor known. *)
Lemma new_by_computation b :
  bool_decide (reserved (hash b)) = false -> block_exists ledger_2 (hash b) = false -> new_block (n := owner_node) b.
Proof. intros H1%bool_decide_eq_false H2. split; [exact H1|]. split; [exact H2|reflexivity]. Qed.


Lemma wallet_receives_accepted_witness :
  exists w n', let b := receiving_block (n := owner_node) other_account send_1_hash 5 7 w in
  receive_action 10 1 send_1 5 100 true owner_node = Ok (Some b, n') /\ (true = true -> work_validate_block b = false)
  /\ made other_account true b owner_node n'
  /\ account_balance (ledger_of n') other_account = account_balance ledger_2 other_account + 100
  /\ pending (ledger_of n') = delete (other_account, send_1_hash) (pending ledger_2).
Proof.
  rewrite <- send_1_hashed.
  apply (wallet_receives_accepted toy_public toy_signed sample_ticks 10 1 live_genesis 2 9 (sample_random 1) owner_trace owner_node
    send_1 7 5 (PendingInfo live_account 100) true owner_usable).
  - lia.
  - vm_compute. congruence.
  - vm_compute. reflexivity.
  - vm_compute. reflexivity.
  - vm_compute. congruence.
  - intros _. vm_compute. reflexivity.
  - intros _. lia.
  - apply new_by_computation; vm_compute; reflexivity.
Defined.

Lemma pending_found_witness :
  (exists T, search_run 10 (wallet_accounts owner_wallet) owner_node
             = Ok (tt, set_tasks (fun t => t ++ (confirm_task ledger_2 <$> T)) owner_node)
   /\ NoDup T /\ forall x, x ∈ T <-> exists d h pi, pending ledger_2 !! (d, h) = Some pi
                              /\ d ∈ wallet_accounts owner_wallet /\ 10 <= pi_amount pi /\ pi_source pi = x)
  /\ exists Q n', receive_all live_account owner_node = Ok (tt, n') /\ wn_actions n' ≡ₚ Q ++ []
     /\ (queue_sorted [] -> queue_sorted (wn_actions n'))
     /\ forall y, y ∈ Q <-> exists d h pi sb, pending ledger_2 !! (d, h) = Some pi /\ pi_source pi = live_account
          /\ is_Some (entries owner_wallet !! d) /\ block_get ledger_2 h = Some (Send sb)
          /\ y = (pi_amount pi, Act_receive (Send sb) (wallet_representative owner_wallet) (pi_amount pi) (Log_error (Send sb)) true).
Proof.
  apply (pending_found 10 live_genesis 2 9 (sample_random 1) owner_trace owner_node live_account owner_usable). vm_compute. reflexivity.
Defined.

Lemma send_sync_null_witness :
  perform 10 1 (Act_send other_account live_account 5 (Set_hash 1) true) owner_node = Fault Indeterminate_value
  /\ perform 10 1 (Act_send other_account live_account 5 (Callback 1) true) owner_node
     = Ok (tt, WalletNode owner_wallet (wn_node owner_node) (wn_arrival owner_node) [] [] [Called 1 None]).
Proof. apply (send_sync_null 10 1 owner_node other_account live_account 5 1). right. left. vm_compute. reflexivity. Defined.
