(* ===== verification/NodeNetwork.v ===== *)
(** * The node on the network (rai/node/node.cpp)

    What a node does with the packets it receives and what it sends: the parts of
    the node that have files of their own (the elections with the ledger and the
    vote table, the gap cache, the peers, the recent blocks, the queue of the
    block processor) come together in one state, and [receive_action],
    [network_message_visitor], the vote processor, the crawl for representatives,
    the timers and the tasks that wait to be run in the background work on it.

    There is one clock, read by whatever part is running, and one generator of
    random numbers.  What is sent is recorded in order; asynchronous sending and
    its logging have no other effect. *)
From Stdlib Require Import ZArith Lia List.
From stdpp Require Import prelude gmap.
From S2P Require Import Prelude Numbers Streams Blocks Store Ledger Votes Work Messages Unchecked Processor Elections Peers BootstrapServer.

Local Open Scope m_scope.

(** ** State *)

Record message_statistics := MessageStatistics {
  st_keepalive : Z; st_publish : Z; st_confirm_req : Z; st_confirm_ack : Z
}.

Definition message_statistics_new : message_statistics := MessageStatistics 0 0 0 0.

(** Incrementing one of the counters, which have 64 bits. *)
Definition statistics_add (t : message_type) (s : message_statistics) : message_statistics :=
  let '(MessageStatistics k p r a) := s in
  match t with
  | mt_keepalive => MessageStatistics (wrap 64 (k + 1)) p r a
  | mt_publish => MessageStatistics k (wrap 64 (p + 1)) r a
  | mt_confirm_req => MessageStatistics k p (wrap 64 (r + 1)) a
  | mt_confirm_ack => MessageStatistics k p r (wrap 64 (a + 1))
  | _ => s
  end.

(** [rai::network]; [receiving]: a packet is being waited for. *)
Record network := NetworkState {
  incoming : message_statistics;
  outgoing : message_statistics;
  on : bool;
  bad_sender_count : Z;
  insufficient_work_count : Z;
  error_count : Z;
  receiving : bool;
  sent : list (endpoint * list byte)
}.

(** The size of [network::buffer], into which packets are received. *)
Definition buffer_size : nat := 512.

Definition network_new : network := NetworkState message_statistics_new message_statistics_new true 0 0 0 false [].

(** What the alarm is to call. *)
Inductive alarm_call :=
| Call_receive
| Call_crawler_remove (h : block_hash)
| Call_keepalive
| Call_rep_crawl
| Call_store_flush.

#[export] Instance alarm_call_eq_dec : EqDecision alarm_call.
Proof. solve_decision. Defined.

Record operation := Operation { wakeup : Z; function : alarm_call }.

#[export] Instance operation_eq_dec : EqDecision operation.
Proof. solve_decision. Defined.

Record network_node := NetworkNode {
  nn_active : active_transactions;         (* with the ledger and the votes *)
  nn_unchecked : unchecked_store;
  nn_gaps : list gap_information;
  nn_events : list node_event;
  nn_peers : peer_container;
  nn_arrival : block_arrival;
  nn_queue : list block_processor_item;    (* of the block processor *)
  nn_crawler : gset Z;                     (* [rep_crawler::active] *)
  nn_network : network;
  operations : list operation;             (* of the alarm *)
  nn_readings : nat;
  nn_hashes : nat;                         (* random hashes drawn *)
  nn_ran : nat                             (* background tasks that were run *)
}.

Definition nn_store (n : network_node) : store := at_store (nn_active n).

(** The hashes [GenerateBlock] gives, and the operation the heap of the alarm has
    on top: one of those with the earliest time. *)
Class CrawlEnvironment := {
  random_hash : nat -> Z;
  heap_top : list operation -> option operation;
  heap_top_some l o : heap_top l = Some o -> o ∈ l /\ forall o', o' ∈ l -> wakeup o <= wakeup o';
  heap_top_none l : heap_top l = None -> l = []
}.

(** Popping the operation on top. *)
Fixpoint remove_once (o : operation) (l : list operation) : list operation :=
  match l with
  | [] => []
  | x :: l => if decide (x = o) then l else x :: remove_once o l
  end.

(** ** Lifting the parts *)

Definition set_active a n := NetworkNode a (nn_unchecked n) (nn_gaps n) (nn_events n) (nn_peers n) (nn_arrival n) (nn_queue n) (nn_crawler n) (nn_network n) (operations n) (nn_readings n) (nn_hashes n) (nn_ran n).
Definition set_unchecked u n := NetworkNode (nn_active n) u (nn_gaps n) (nn_events n) (nn_peers n) (nn_arrival n) (nn_queue n) (nn_crawler n) (nn_network n) (operations n) (nn_readings n) (nn_hashes n) (nn_ran n).
Definition set_gaps g e n := NetworkNode (nn_active n) (nn_unchecked n) g e (nn_peers n) (nn_arrival n) (nn_queue n) (nn_crawler n) (nn_network n) (operations n) (nn_readings n) (nn_hashes n) (nn_ran n).
Definition set_peers p n := NetworkNode (nn_active n) (nn_unchecked n) (nn_gaps n) (nn_events n) p (nn_arrival n) (nn_queue n) (nn_crawler n) (nn_network n) (operations n) (nn_readings n) (nn_hashes n) (nn_ran n).
Definition set_arrival b n := NetworkNode (nn_active n) (nn_unchecked n) (nn_gaps n) (nn_events n) (nn_peers n) b (nn_queue n) (nn_crawler n) (nn_network n) (operations n) (nn_readings n) (nn_hashes n) (nn_ran n).
Definition set_queue q n := NetworkNode (nn_active n) (nn_unchecked n) (nn_gaps n) (nn_events n) (nn_peers n) (nn_arrival n) q (nn_crawler n) (nn_network n) (operations n) (nn_readings n) (nn_hashes n) (nn_ran n).
Definition set_crawler c n := NetworkNode (nn_active n) (nn_unchecked n) (nn_gaps n) (nn_events n) (nn_peers n) (nn_arrival n) (nn_queue n) c (nn_network n) (operations n) (nn_readings n) (nn_hashes n) (nn_ran n).
Definition set_network w n := NetworkNode (nn_active n) (nn_unchecked n) (nn_gaps n) (nn_events n) (nn_peers n) (nn_arrival n) (nn_queue n) (nn_crawler n) w (operations n) (nn_readings n) (nn_hashes n) (nn_ran n).
Definition set_operations o n := NetworkNode (nn_active n) (nn_unchecked n) (nn_gaps n) (nn_events n) (nn_peers n) (nn_arrival n) (nn_queue n) (nn_crawler n) (nn_network n) o (nn_readings n) (nn_hashes n) (nn_ran n).
Definition set_counts r h k n := NetworkNode (nn_active n) (nn_unchecked n) (nn_gaps n) (nn_events n) (nn_peers n) (nn_arrival n) (nn_queue n) (nn_crawler n) (nn_network n) (operations n) r h k.

Definition set_readings (r : nat) (n : network_node) : network_node := set_counts r (nn_hashes n) (nn_ran n) n.

(** The parts, with the clock of the node. *)
Definition active_now (n : network_node) : active_transactions :=
  let a := nn_active n in Active (at_store a) (at_votes a) (heap a) (heap_next a) (roots a) (nn_readings n) (tasks a).
Definition peers_now (n : network_node) : peer_container :=
  let p := nn_peers n in PeerContainer (self p) (known p) (attempts p) (nn_readings n) (p_randoms p) (p_events p).
Definition arrival_now (n : network_node) : block_arrival := BlockArrival (Peers.arrival (nn_arrival n)) (nn_readings n).
Definition node_now (n : network_node) : node :=
  Node (nn_store n) (nn_unchecked n) (nn_gaps n) (nn_readings n) (nn_events n).

Definition on_active {A} (m : M active_transactions A) : M network_node A := fun n =>
  match m (active_now n) with
  | Ok (r, a) => Ok (r, set_readings (at_readings a) (set_active a n))
  | Fault f => Fault f
  end.

Definition on_peers {A} (m : M peer_container A) : M network_node A := fun n =>
  match m (peers_now n) with
  | Ok (r, p) => Ok (r, set_readings (p_readings p) (set_peers p n))
  | Fault f => Fault f
  end.

Definition on_arrivals {A} (m : M block_arrival A) : M network_node A := fun n =>
  match m (arrival_now n) with
  | Ok (r, b) => Ok (r, set_readings (ba_readings b) (set_arrival b n))
  | Fault f => Fault f
  end.

(** The gap cache, which reads the ledger. *)
Definition on_gap_cache {A} (m : M node A) : M network_node A := fun n =>
  match m (node_now n) with
  | Ok (r, g) => Ok (r, set_readings (n_readings g) (set_gaps (n_gaps g) (n_events g) n))
  | Fault f => Fault f
  end.

Definition on_network (f : network -> network) : M network_node unit := fun n => Ok (tt, set_network (f (nn_network n)) n).

Definition queue_add (i : block_processor_item) : M network_node unit := fun n => Ok (tt, set_queue (nn_queue n ++ [i]) n).

(** [rep_crawler] *)
Definition crawler_add (h : block_hash) : M network_node unit := fun n => Ok (tt, set_crawler ({[ h ]} ∪ nn_crawler n) n).
Definition crawler_remove (h : block_hash) : M network_node unit := fun n => Ok (tt, set_crawler (nn_crawler n ∖ {[ h ]}) n).
Definition crawler_exists (h : block_hash) (n : network_node) : bool := bool_decide (h ∈ nn_crawler n).

Definition alarm_add (t : Z) (f : alarm_call) : M network_node unit := fun n =>
  Ok (tt, set_operations (operations n ++ [Operation t f]) n).

(** ** Counters and packets *)

Definition count_incoming (t : message_type) (w : network) : network :=
  NetworkState (statistics_add t (incoming w)) (outgoing w) (on w) (bad_sender_count w) (insufficient_work_count w)
    (error_count w) (receiving w) (sent w).
Definition count_bad_sender (w : network) : network :=
  NetworkState (incoming w) (outgoing w) (on w) (wrap 64 (bad_sender_count w + 1)) (insufficient_work_count w)
    (error_count w) (receiving w) (sent w).
Definition count_insufficient_work (w : network) : network :=
  NetworkState (incoming w) (outgoing w) (on w) (bad_sender_count w) (wrap 64 (insufficient_work_count w + 1))
    (error_count w) (receiving w) (sent w).
Definition count_error (w : network) : network :=
  NetworkState (incoming w) (outgoing w) (on w) (bad_sender_count w) (insufficient_work_count w)
    (wrap 64 (error_count w + 1)) (receiving w) (sent w).
Definition set_receiving (b : bool) (w : network) : network :=
  NetworkState (incoming w) (outgoing w) (on w) (bad_sender_count w) (insufficient_work_count w) (error_count w) b (sent w).

Definition set_on (b : bool) (w : network) : network :=
  NetworkState (incoming w) (outgoing w) b (bad_sender_count w) (insufficient_work_count w) (error_count w) (receiving w) (sent w).

(** [send_buffer], with the counter its callers increment. *)
Definition send_buffer (t : message_type) (bytes : list byte) (e : endpoint) : M network_node unit :=
  on_network (fun w => NetworkState (incoming w) (statistics_add t (outgoing w)) (on w) (bad_sender_count w)
    (insufficient_work_count w) (error_count w) (receiving w) (sent w ++ [(e, bytes)])).

Fixpoint for_each {A} (l : list A) (f : A -> M network_node unit) : M network_node unit :=
  match l with
  | [] => st_ret tt
  | x :: l => f x ;;; for_each l f
  end.

Section Network.
Context `{Environment, Signing, NodeEnvironment, Network, Iteration, PeerEnvironment, CrawlEnvironment}.
Context (wallets : list wallet) (inactive_supply : Z) (enable_voting : bool).

Definition now_on : M network_node Z := fun n => Ok (steady_clock (nn_readings n), set_readings (S (nn_readings n)) n).

(** ** Sending *)

(** An [endpoint] of the model has an IPv6 address, which the code asserts. *)
Definition send_keepalive (e : endpoint) : M network_node unit :=
  peers_l <- on_peers random_fill;;
  send_buffer mt_keepalive (keepalive_serialize (Keepalive (message_new mt_keepalive) peers_l)) e.

(** [node::send_keepalive] and what [node::keepalive] does with an address it
    resolved. *)
Definition node_send_keepalive (a : any_address) (port_a : Z) : M network_node unit :=
  send_keepalive (Endpoint (match a with V4 a => v4_mapped a | V6 a => a end) port_a).

Definition keepalive_resolved (l : list (any_address * Z)) : M network_node unit :=
  for_each l (fun x => node_send_keepalive (fst x) (snd x)).

Definition republish (bytes : list byte) (e : endpoint) : M network_node unit := send_buffer mt_publish bytes e.

Definition rebroadcast_reps (b : block) : M network_node unit :=
  let bytes := publish_serialize (publish_new b) in
  representatives_l <- st_get (fun n => peer_representatives (2 * size_sqrt (nn_peers n)) (nn_peers n));;
  for_each representatives_l (fun i => republish bytes (p_endpoint i)).

Definition confirm_send (bytes : list byte) (e : endpoint) : M network_node unit := send_buffer mt_confirm_ack bytes e.

(** A vote made for [b] by each representative of the wallets goes to all of [l];
    whether there is one. *)
Definition confirm_block (l : list endpoint) (b : block) : M network_node bool :=
  if enable_voting then
    reps <- st_get (fun n => representatives wallets (nn_store n));;
    for_each reps (fun k =>
      v <- on_active (on_votes (vote_generate (fst k) (snd k) b));;
      bytes <- st_run (fun _ => confirm_ack_serialize (confirm_ack_new v));;
      for_each l (confirm_send bytes)) ;;;
    st_ret (match reps with [] => false | _ => true end)
  else st_ret false.

Definition republish_block (b : block) : M network_node unit :=
  rebroadcast_reps b ;;;
  l <- on_peers list_sqrt;;
  confirmed_l <- confirm_block l b;;
  if negb confirmed_l then for_each l (republish (publish_serialize (publish_new b))) else st_ret tt.

(** What [network::republish_vote] sends when it sends. *)
Definition send_vote (v : vote) : M network_node unit :=
  bytes <- st_run (fun _ => confirm_ack_serialize (confirm_ack_new v));;
  l <- on_peers list_sqrt;;
  for_each l (confirm_send bytes).

Definition send_confirm_req (e : endpoint) (b : block) : M network_node unit :=
  send_buffer mt_confirm_req (confirm_req_serialize (confirm_req_new b)) e.

(** The number of representatives is limited by the largest [size_t] only. *)
Definition broadcast_confirm_req (b : block) : M network_node unit :=
  l <- st_get (fun n => peer_representatives (peers_size (nn_peers n)) (nn_peers n));;
  for_each l (fun i => send_confirm_req (p_endpoint i) b).

(** ** The crawl for representatives *)

(** [block_random (transaction, database)]: the first block from a random hash
    on, or the first of the table; [None] is a null pointer. *)
Definition block_random_in (table : gmap Z entry) : M network_node (option block) :=
  h <- (fun n => Ok (random_hash (nn_hashes n), set_counts (nn_readings n) (S (nn_hashes n)) (nn_ran n) n));;
  let existing := match first_from h table with Some x => Some x | None => first_from 0 table end in
  match existing with
  | None => st_fault Assertion_failed
  | Some (k, _) => st_get (fun n => block_get (nn_store n) k)
  end.

(** [block_random (transaction)]; the bounds are given to the generator as 32 bit
    numbers, and the last table is taken without looking at its size. *)
Definition block_random : M network_node (option block) :=
  s <- st_get nn_store;;
  let count := block_count_of s in
  region <- on_peers (peer_random (Z.to_nat (wrap 32 (Z.of_nat (block_counts_sum count) - 1))));;
  if (region <? count_send count)%nat then block_random_in (send_blocks s) else
  let region := (region - count_send count)%nat in
  if (region <? count_receive count)%nat then block_random_in (receive_blocks s) else
  let region := (region - count_receive count)%nat in
  if (region <? count_open count)%nat then block_random_in (open_blocks s) else
  let region := (region - count_open count)%nat in
  if (region <? count_change count)%nat then block_random_in (change_blocks s) else
  block_random_in (send_blocks_v2 s).

Definition rep_query (l : list endpoint) : M network_node unit :=
  found <- block_random;;
  match found with
  | None => st_fault Indeterminate_value (* dereferences a null pointer *)
  | Some b =>
      crawler_add (hash b) ;;;
      for_each l (fun e => on_peers (rep_request e) ;;; send_confirm_req e b) ;;;
      now <- now_on;;
      alarm_add (now + 5 * 1000) (Call_crawler_remove (hash b))
  end.

(** The observer of new peers. *)
Definition observe_endpoint (e : endpoint) : M network_node unit := send_keepalive e ;;; rep_query [e].

(** An operation on the peers, with what it tells the observers; nothing in the
    node observes that all peers are gone. *)
Definition observed {A} (m : M peer_container A) : M network_node A :=
  before <- st_get (fun n => length (p_events (nn_peers n)));;
  r <- on_peers m;;
  events <- st_get (fun n => drop before (p_events (nn_peers n)));;
  for_each events (fun e => match e with Peer_observed e => observe_endpoint e | Disconnected => st_ret tt end) ;;;
  st_ret r.

(** ** Receiving *)

Definition merge_peers (l : list endpoint) : M network_node unit :=
  for_each l (fun e =>
    known_l <- on_peers (reachout e);;
    if negb known_l then send_keepalive e else st_ret tt).

Definition process_active (b : block) : M network_node unit :=
  on_arrivals (arrival_add (hash b)) ;;; queue_add (Item b false).

(** The third observer of votes. *)
Definition observe_representative (v : vote) (e : endpoint) : M network_node unit :=
  asked <- st_get (crawler_exists (hash (v_block v)));;
  if asked : bool then
    weight_l <- st_get (fun n => weight (nn_store n) (v_account v));;
    on_peers (rep_response e weight_l) ;;; st_ret tt
  else st_ret tt.

(** [vote_processor::vote] *)
Definition process_vote (v : vote) (e : endpoint) : M network_node (vote_code * option vote) :=
  result <- on_active (on_votes (vote_validate v));;
  (match fst result with
   | vote_vote =>
       on_active (active_vote inactive_supply v) ;;;
       on_gap_cache (gap_cache_vote inactive_supply v) ;;;
       observe_representative v e
   | vote_replay | vote_invalid => st_ret tt
   end) ;;;
  st_ret result.

(** [network_message_visitor]; the parser calls it with no other message. *)
Definition visit_message (sender : endpoint) (m : visit) : M network_node unit :=
  match m with
  | Visit_keepalive k =>
      on_network (count_incoming mt_keepalive) ;;;
      observed (contacted (V6 (address sender)) (port sender) (version_using (ka_header k))) ;;;
      merge_peers (peers k)
  | Visit_publish p =>
      on_network (count_incoming mt_publish) ;;;
      observed (contacted (V6 (address sender)) (port sender) (version_using (pb_header p))) ;;;
      observed (peer_insert sender (version_using (pb_header p))) ;;;
      process_active (pb_block p)
  | Visit_confirm_req c =>
      on_network (count_incoming mt_confirm_req) ;;;
      observed (contacted (V6 (address sender)) (port sender) (version_using (cr_header c))) ;;;
      observed (peer_insert sender (version_using (cr_header c))) ;;;
      process_active (cr_block c) ;;;
      ex <- st_get (fun n => block_exists (nn_store n) (hash (cr_block c)));;
      if ex : bool then confirm_block [sender] (cr_block c) ;;; st_ret tt else st_ret tt
  | Visit_confirm_ack c =>
      on_network (count_incoming mt_confirm_ack) ;;;
      observed (contacted (V6 (address sender)) (port sender) (version_using (ca_header c))) ;;;
      observed (peer_insert sender (version_using (ca_header c))) ;;;
      process_active (v_block (ca_vote c)) ;;;
      result <- process_vote (ca_vote c) sender;;
      match result with
      | (vote_replay, Some w) =>
          st_assert (v_sequence (ca_vote c) <? v_sequence w) ;;;
          if 10000 <? wrap 64 (v_sequence w - v_sequence (ca_vote c)) then
            bytes <- st_run (fun _ => confirm_ack_serialize (confirm_ack_new w));;
            confirm_send bytes sender
          else st_ret tt
      | (vote_replay, None) => st_fault Indeterminate_value (* dereferences a null pointer *)
      | _ => st_ret tt
      end
  end.

Definition network_receive : M network_node unit := on_network (set_receiving true).

(** A packet that came in; the own endpoint is that of the peers. *)
Definition receive_packet (remote : endpoint) (buffer : list byte) : M network_node unit :=
  self_l <- st_get (fun n => self (nn_peers n));;
  if negb (reserved_address remote) && negb (bool_decide (remote = self_l)) then
    parsed <- st_run (fun _ => deserialize_buffer buffer message_parser_new);;
    (match snd parsed with Some m => visit_message remote m | None => st_ret tt end) ;;;
    if parser_error (fst parsed) then on_network count_error
    else if insufficient_work (fst parsed) then on_network count_insufficient_work
    else st_ret tt
  else on_network count_bad_sender.

(** [network::receive_action]; [error]: what the socket reports. *)
Definition network_receive_action (error : bool) (remote : endpoint) (buffer : list byte) : M network_node unit :=
  on_network (set_receiving false) ;;;
  on_l <- st_get (fun n => on (nn_network n));;
  if negb error && on_l then receive_packet remote buffer ;;; network_receive
  else if on_l then now <- now_on;; alarm_add (now + 5 * 1000) Call_receive
  else st_ret tt.

(** ** Timers *)

Definition period : Z := 60 * 1000.
Definition cutoff : Z := period * 5.

(** The loop stops at the first peer that was tried lately. *)
Fixpoint keepalive_idle (l : list peer_information) : M network_node unit :=
  match l with
  | [] => st_ret tt
  | i :: l =>
      now <- now_on;;
      if period <? now - last_attempt i then send_keepalive (p_endpoint i) ;;; keepalive_idle l else st_ret tt
  end.

(** The addresses of the preconfigured peers are resolved in the background. *)
Definition ongoing_keepalive : M network_node unit :=
  now <- now_on;;
  peers_l <- observed (purge_list (now - cutoff));;
  keepalive_idle peers_l ;;;
  now <- now_on;;
  alarm_add (now + period) Call_keepalive.

Definition ongoing_rep_crawl : M network_node unit :=
  now <- now_on;;
  peers_l <- st_get (fun n => rep_crawl (nn_peers n));;
  rep_query peers_l ;;;
  on_l <- st_get (fun n => on (nn_network n));;
  if on_l : bool then alarm_add (now + period) Call_rep_crawl else st_ret tt.

Definition ongoing_store_flush : M network_node unit :=
  (fun n => let a := nn_active n in
     let '(v, u) := flush (at_votes a) (nn_unchecked n) in
     Ok (tt, set_unchecked u (set_active (Active (at_store a) v (heap a) (heap_next a) (roots a) (at_readings a) (tasks a)) n))) ;;;
  now <- now_on;;
  alarm_add (now + 5 * 1000) Call_store_flush.

Definition call (f : alarm_call) : M network_node unit :=
  match f with
  | Call_receive => network_receive
  | Call_crawler_remove h => crawler_remove h
  | Call_keepalive => ongoing_keepalive
  | Call_rep_crawl => ongoing_rep_crawl
  | Call_store_flush => ongoing_store_flush
  end.

(** One turn of [alarm::run]: the operation on top of the heap is called when its
    time has come. *)
Definition alarm_run : M network_node unit :=
  top <- st_get (fun n => heap_top (operations n));;
  match top with
  | None => st_ret tt
  | Some o =>
      now <- now_on;;
      if wakeup o <=? now then
        (fun n => Ok (tt, set_operations (remove_once o (operations n)) n)) ;;; call (function o)
      else st_ret tt
  end.

(** ** Tasks in the background *)

(** A task of the elections; what is confirmed is handed to the wallets, and the
    bootstrap initiator and the timer of the announcements are woken. *)
Definition run_task (t : task) : M network_node unit :=
  match t with
  | Broadcast_winner e => on_active (broadcast_winner wallets e)
  | Force_block b => queue_add (Item b true)
  | Republish_vote v => send_vote v
  | Republish_block b => republish_block b
  | Process_confirmed _ _ _ | Bootstrap | Announce_votes_at _ => st_ret tt
  end.

(** The next task, in the order they were posted. *)
Definition run_next_task : M network_node unit :=
  next <- st_get (fun n => tasks (nn_active n) !! nn_ran n);;
  match next with
  | None => st_ret tt
  | Some t => (fun n => Ok (tt, set_counts (nn_readings n) (nn_hashes n) (S (nn_ran n)) n)) ;;; run_task t
  end.

(** The observer of accepted blocks: an election for a block that came in live. *)
Definition observe_block (b : block) : M network_node unit :=
  recent <- on_arrivals (arrival_recent (hash b));;
  if recent : bool then on_active (active_start wallets b 0) ;;; st_ret tt else st_ret tt.

(** [bootstrap_attempt::process_fork]: the block of the ledger that a block
    contradicts is put to the vote. *)
Definition process_fork (b : block) : M network_node unit :=
  ledger_block <- st_run (fun n => match forked_block b (nn_store n) with Ok (r, _) => Ok r | Fault f => Fault f end);;
  existing <- on_active (active_start wallets ledger_block 0);;
  if negb existing then broadcast_confirm_req ledger_block ;;; broadcast_confirm_req b else st_ret tt.

(** [node::start], but for the bootstrap, the backups and the port mapping. *)
Definition node_start : M network_node unit :=
  network_receive ;;; ongoing_keepalive ;;; ongoing_store_flush ;;; ongoing_rep_crawl ;;;
  on_active (announce_votes inactive_supply).

Definition network_stop : M network_node unit := on_network (set_on false).

(** [node::stop], of which the block processor, the bootstrap and the wallets have
    their part elsewhere. *)
Definition node_stop : M network_node unit := on_active active_stop ;;; network_stop.
End Network.
