(* ===== verification/NodeNetworkFacts.v ===== *)
(** * The node on the network: its parts

    What the handlers of the node rely on: packets that can be parsed, what the
    operations on elections leave to be done in the background, the operations on
    peers with the observers they tell, the votes of the gap cache, and the blocks
    a random choice finds in a ledger. *)
From Stdlib Require Import ZArith Lia List.
From stdpp Require Import prelude list gmap.
From S2P Require Import Prelude Lists Numbers Streams Blocks Store Ledger StoreFacts LedgerInv LedgerQueries LedgerProcess LedgerRollback LedgerUndo LedgerUnique LedgerTheorems LedgerSub Votes Work Messages Unchecked Processor Elections ElectionTheorems Peers BootstrapServer BootstrapTheorems NodeNetwork.

#[local] Opaque work_validate_block.

(** ** Packets that can be parsed *)

Section Packets.
Context `{Network}.

(** The parser does not fail on it. *)
Definition parses (buffer : list byte) : Prop := forall p, exists r, deserialize_buffer buffer p = Ok r.

(** A reader that does not fail on a stream of [k] bytes or more, but may come to
    its end. *)
Definition harmless {A} (k : nat) (m : reader A) : Prop := forall s f, (k <= length s)%nat -> m s <> Rd_fault f.

Lemma harmless_more {A} k k' (m : reader A) : (k <= k')%nat -> harmless k m -> harmless k' m.
Proof. intros Hk Hm s f Hs. apply Hm. lia. Qed.

Lemma harmless_ret {A} k (x : A) : harmless k (rd_ret x).
Proof. by intros s f. Qed.

Lemma harmless_bind {A B} k (m : reader A) (f : A -> reader B) :
  harmless k m -> (forall x, harmless 0 (f x)) -> harmless k (rd_bind m f).
Proof. intros Hm Hk s e Hs. unfold rd_bind. destruct (m s) eqn:E; [apply Hk; lia|done|]. intros [= ->]. by eapply Hm. Qed.

Lemma harmless_be n k {A} (f : Z -> reader A) : (forall x, harmless k (f x)) -> harmless (n + k) (rd_bind (read_be n) f).
Proof.
  intros Hf s e Hs. unfold rd_bind, read_be, rd_bind, rd_ret, read. destruct (n <=? length s)%nat; [|done].
  apply Hf. rewrite length_drop. lia.
Qed.

Lemma harmless_le n k {A} (f : Z -> reader A) : (forall x, harmless k (f x)) -> harmless (n + k) (rd_bind (read_le n) f).
Proof.
  intros Hf s e Hs. unfold rd_bind, read_le, rd_bind, rd_ret, read. destruct (n <=? length s)%nat; [|done].
  apply Hf. rewrite length_drop. lia.
Qed.

Lemma harmless_read_be n k : harmless k (read_be n).
Proof. intros s f _. unfold read_be, rd_bind, rd_ret, read. by destruct (n <=? length s)%nat. Qed.

Lemma harmless_read_le n k : harmless k (read_le n).
Proof. intros s f _. unfold read_le, rd_bind, rd_ret, read. by destruct (n <=? length s)%nat. Qed.

Lemma harmless_bytes bs : harmless 2 (read_bytes bs).
Proof.
  intros [|c1 [|c2 s]] f Hs; cbn [length] in Hs; [lia|lia|]. unfold read_bytes. generalize (Z.to_nat (byte.unsigned c1 + Z.shiftl (byte.unsigned c2) 8)).
  intros k. revert bs s Hs. induction k as [|k IH]; intros bs s Hs; cbn [read_bytes_loop]; [done|]. destruct s as [|c s]; [done|].
  apply IH. cbn [length]. lia.
Qed.

(** How much of a block has to be there: the fields of a version-2 send before and
    with the size of its action. *)
Definition needed (b : block) : nat := match b with SendV2 _ => 66 | _ => 0 end.

Lemma needed_written b : (needed b <= length (serialize b))%nat.
Proof.
  destruct b; cbn [needed serialize]; [lia| |lia..]. unfold send_v2_serialize, write_u256, write_bytes.
  rewrite !length_app, !length_be_split. cbn [length]. lia.
Qed.

Lemma needed_max b : (needed b <= 66)%nat.
Proof. destruct b; cbn [needed]; lia. Qed.

Lemma cut_needed b k : (66 <= k)%nat -> (needed b <= length (take k (serialize b)))%nat.
Proof. intros Hk. rewrite length_take. pose proof (needed_written b). pose proof (needed_max b). lia. Qed.

Ltac harmless := unfold read_u128, read_u256, read_u512, read_u64;
  repeat first [apply harmless_ret|apply harmless_read_be|apply harmless_read_le|apply harmless_bind; [|intros ?]].

Lemma block_harmless b : harmless (needed b) (deserialize_block_as (block_type_code (type b))).
Proof.
  unfold deserialize_block_as. destruct b; cbn [type block_type_code block_type_of_code needed].
  - unfold send_block_read, send_hashables_read. harmless.
  - apply harmless_bind; [apply harmless_bind|intros x; harmless]; [|intros x; harmless].
    apply (harmless_be 32 34). intros p. apply (harmless_be 32 2). intros d.
    apply harmless_bind; [apply harmless_bytes|intros x; harmless].
  - unfold receive_block_read, receive_hashables_read. harmless.
  - unfold open_block_read, open_hashables_read. harmless.
  - unfold change_block_read, change_hashables_read. harmless.
Qed.

Lemma vote_harmless b : harmless (32 + (64 + (8 + needed b))) (vote_read_as (block_type_code (type b))).
Proof.
  unfold vote_read_as, read_u256, read_u512, read_u64. apply harmless_be. intros a. apply harmless_be. intros g.
  apply harmless_le. intros q. apply harmless_bind; [apply block_harmless|intros x; apply harmless_ret].
Qed.

(** Each of the handlers returns when its reader does. *)
Lemma handled {A} (r : rd A) (insufficient : A -> bool) (f : A -> visit) (p : message_parser) :
  (forall e, r <> Rd_fault e) ->
  exists x, match r with
  | Got m stream =>
      if at_end stream then
        if negb (insufficient m) then Ok (p, Some (f m)) else Ok (set_insufficient_work p, None)
      else Ok (set_error p, None)
  | Short => Ok (set_error p, None)
  | Rd_fault e => Fault e
  end = Ok x.
Proof.
  intros Hr. destruct r as [m s| |e]; [|by eexists|by destruct (Hr e)]. destruct (at_end s); [|by eexists].
  destruct (negb (insufficient m)); by eexists.
Qed.

Lemma take_header k m body : (8 <= k)%nat -> take k (write_header m ++ body) = write_header m ++ take (k - 8) body.
Proof. intros Hk. rewrite take_app, length_write_header, take_ge; [done|]. by rewrite length_write_header. Qed.

Lemma length_endpoints es : length (concat (write_endpoint <$> es)) = (18 * length es)%nat.
Proof.
  induction es as [|e es IH]; [done|]. rewrite fmap_cons. cbn [concat length]. rewrite length_app, IH.
  unfold write_endpoint, write_u128. rewrite length_app, length_be_split, length_le_split. lia.
Qed.

(** What [serialize] writes for a well-formed message is parsed, whether the work
    is sufficient or not, and whether all of it fits into the buffer of the
    receiver or not; a keepalive and the first fields of the others have to. *)
Lemma written_parses v buffer k :
  visit_ok v -> visit_serialize v = Ok buffer -> (178 <= k)%nat -> parses (take k buffer).
Proof.
  intros Hok Hs Hk p. unfold deserialize_buffer. destruct v as [x|x|c|c]; cbn [visit_ok visit_serialize] in *.
  - injection Hs as <-. pose proof Hok as (Hm & Ht & Hes & Hl). rewrite take_ge.
    2:{ unfold keepalive_serialize. rewrite length_app, length_write_header, length_endpoints, Hl. lia. }
    unfold keepalive_serialize at 1. rewrite read_header_written, Ht by exact Hm. cbn [Z.eqb Pos.eqb message_type_code].
    apply (handled _ (fun _ => false)). intros e.
    rewrite (proj2 (keepalive_read_exact (keepalive_serialize x) x [])); [discriminate|]. rewrite app_nil_r. done.
  - injection Hs as <-. destruct Hok as (Hm & Ht & Hbt & Hb). unfold publish_serialize. rewrite take_header by lia.
    rewrite read_header_written, Ht by exact Hm. cbn [Z.eqb Pos.eqb message_type_code].
    apply (handled _ (fun m => work_validate_block (pb_block m))). intros e. unfold publish_deserialize.
    erewrite rd_bind_got by (by apply read_header_of_written). rewrite Hbt.
    apply (harmless_bind _ _ _ (block_harmless _)); [intros y; apply harmless_ret|]. apply cut_needed. lia.
  - injection Hs as <-. destruct Hok as (Hm & Ht & Hbt & Hb). unfold confirm_req_serialize. rewrite take_header by lia.
    rewrite read_header_written, Ht by exact Hm. cbn [Z.eqb Pos.eqb message_type_code].
    apply (handled _ (fun m => work_validate_block (cr_block m))). intros e. unfold confirm_req_deserialize.
    erewrite rd_bind_got by (by apply read_header_of_written). rewrite Hbt.
    apply (harmless_bind _ _ _ (block_harmless _)); [intros y; apply harmless_ret|]. apply cut_needed. lia.
  - destruct Hok as (Hm & Ht & Hbt & Hb). rewrite confirm_ack_serialize_ok in Hs by exact Hbt. injection Hs as <-.
    rewrite take_header by lia. rewrite read_header_written, Ht by exact Hm. cbn [Z.eqb Pos.eqb message_type_code].
    apply (handled _ (fun m => work_validate_block (v_block (ca_vote m)))). intros e. unfold confirm_ack_read.
    erewrite rd_bind_got by (by apply read_header_written). rewrite Hbt.
    apply (harmless_bind _ _ _ (vote_harmless _)); [intros y; apply harmless_ret|].
    unfold vote_serialize_untyped, write_u256, write_u512, write_u64. pose proof (needed_written (v_block (ca_vote c))).
    rewrite length_take, !length_app, !length_be_split, length_le_split. pose proof (needed_max (v_block (ca_vote c))). lia.
Qed.

(** A packet that arrives, cut to the buffer of [network]. *)
Definition deliverable (bytes : list byte) : Prop := parses (take buffer_size bytes).

Lemma keepalive_parses es :
  Forall endpoint_ok es -> length es = 8%nat -> deliverable (keepalive_serialize (Keepalive (message_new mt_keepalive) es)).
Proof.
  intros Hes Hl. apply (written_parses (Visit_keepalive (Keepalive (message_new mt_keepalive) es))); [|reflexivity|apply Nat.leb_le; reflexivity].
  split_and!; [apply (new_message_ok _ invalid)|done..].
Qed.

Lemma publish_parses b : block_ok b -> deliverable (publish_serialize (publish_new b)).
Proof.
  intros Hb. apply (written_parses (Visit_publish (publish_new b))); [|reflexivity|apply Nat.leb_le; reflexivity].
  split_and!; [apply new_message_ok|done|apply block_type_set_get|exact Hb].
Qed.

Lemma confirm_req_parses b : block_ok b -> deliverable (confirm_req_serialize (confirm_req_new b)).
Proof.
  intros Hb. apply (written_parses (Visit_confirm_req (confirm_req_new b))); [|reflexivity|apply Nat.leb_le; reflexivity].
  split_and!; [apply new_message_ok|done|apply block_type_set_get|exact Hb].
Qed.

Lemma confirm_ack_parses v :
  vote_ok v -> exists bytes, confirm_ack_serialize (confirm_ack_new v) = Ok bytes /\ deliverable bytes.
Proof.
  intros Hv. eexists. split; [apply confirm_ack_serialize_ok, block_type_set_get|].
  apply (written_parses (Visit_confirm_ack (confirm_ack_new v)));
    [|apply confirm_ack_serialize_ok, block_type_set_get|apply Nat.leb_le; reflexivity].
  split_and!; [apply new_message_ok|done|apply block_type_set_get|exact Hv].
Qed.
End Packets.

(** ** What the elections leave to be done *)

(** The blocks and votes of a task are well formed. *)
Definition task_ok (t : task) : Prop :=
  match t with
  | Force_block b | Republish_block b => block_ok b
  | Republish_vote v => vote_ok v
  | _ => True
  end.

Definition blocks_ok (i : election_info) : Prop :=
  (forall b, b ∈ snd <$> rep_votes (e_votes i) -> block_ok b) /\ block_ok (last_winner i).

(** What the operations on elections keep, besides their invariant: the ledger,
    and the form of what they work with. *)
Record work_ok (s : store) (a : active_transactions) : Prop := {
  wo_store : at_store a = s;
  wo_heap : forall e i, heap a !! e = Some i -> blocks_ok i;
  wo_tasks : Forall task_ok (tasks a)
}.

Definition works {A} (s : store) (m : M active_transactions A) (post : A -> Prop) : Prop :=
  forall a r a', work_ok s a -> m a = Ok (r, a') -> work_ok s a' /\ post r.

Section Tasks.
Context `{Environment, Signing, NodeEnvironment, Network, Iteration} (s : store).

Lemma works_bind {A B} (m : M active_transactions A) (k : A -> M active_transactions B) Q post :
  works s m Q -> (forall r, Q r -> works s (k r) post) -> works s (st_bind m k) post.
Proof.
  intros Hm Hk a r a' Ha (x & a1 & He1 & He2)%st_bind_inv. destruct (Hm _ _ _ Ha He1) as [Ha1 Hx].
  exact (Hk x Hx _ _ _ Ha1 He2).
Qed.

Lemma works_ret {A} (x : A) (post : A -> Prop) : post x -> works s (st_ret x) post.
Proof. intros Hx a r a' Ha [= <- <-]. by split. Qed.

Lemma works_get {A} (f : active_transactions -> A) (post : A -> Prop) :
  (forall a, work_ok s a -> post (f a)) -> works s (st_get f) post.
Proof. intros Hf a r a' Ha [= <- <-]. split; [done|by apply Hf]. Qed.

Lemma works_run {A} (f : active_transactions -> res A) : works s (st_run f) (fun _ => True).
Proof. intros a r a' Ha. unfold st_run. destruct (f a); [|done]. intros [= _ <-]. by split. Qed.

Lemma works_assert b : works s (st_assert b) (fun _ => True).
Proof. intros a r a' Ha. unfold st_assert. destruct b; [|done]. intros [= _ <-]. by split. Qed.

Lemma works_fault {A} f (post : A -> Prop) : works s (st_fault f) post.
Proof. by intros a r a' Ha. Qed.

Lemma works_now : works s now_at (fun _ => True).
Proof. intros a r a' [? ? ?] [= _ <-]. split; [by split|done]. Qed.

Lemma works_background t : task_ok t -> works s (background t) (fun _ => True).
Proof. intros Ht a r a' [? ? ?] [= _ <-]. split; [|done]. split; cbn; [done|done|]. apply Forall_app. auto. Qed.

Lemma works_votes {A} (m : M vote_store A) (post : A -> Prop) :
  (forall v r v', m v = Ok (r, v') -> post r) -> works s (on_votes m) post.
Proof.
  intros Hm a r a' [? ? ?]. unfold on_votes. destruct (m (at_votes a)) as [[x v']|] eqn:He; [|done].
  intros [= <- <-]. split; [by split|by eapply Hm].
Qed.

Lemma works_set_roots f : works s (set_roots f) (fun _ => True).
Proof. intros a r a' [? ? ?] [= _ <-]. split; [by split|done]. Qed.

Lemma works_election e : works s (election_get e) blocks_ok.
Proof.
  intros a r a' Ha. unfold election_get. destruct (heap a !! e) as [i|] eqn:He; [|done]. intros [= <- <-].
  split; [done|]. exact (wo_heap _ _ Ha _ _ He).
Qed.

Lemma works_put e i : blocks_ok i -> works s (election_put e i) (fun _ => True).
Proof.
  intros Hi a r a' [Hs Hh Ht] [= _ <-]. split; [|done]. split; cbn; [done| |done]. intros e' j. rewrite lookup_insert.
  case_decide; [by intros [= <-]|apply Hh].
Qed.

(** The block on top of a tally was voted for. *)
Lemma winner_voted v t b : winner s v = Some (t, b) -> b ∈ snd <$> rep_votes v.
Proof.
  pose proof (max_entry (tally s v)) as Hmax. unfold winner. intros Hw. rewrite Hw in Hmax. destruct Hmax as [Hl _].
  apply by_total_lookup in Hl as [Hl|Hl]; [|by rewrite lookup_empty in Hl]. rewrite iteration_perm in Hl.
  assert (Hk : forall l acc, fst <$> totals (weight s) acc l ⊆@{list _} (fst <$> acc) ++ (snd <$> l)).
  { clear. induction l as [|[a c] l IH]; intros acc; cbn [totals fmap list_fmap snd]; [by rewrite app_nil_r|].
    intros x Hx%IH. rewrite totals_add_keys in Hx. rewrite elem_of_app, elem_of_cons.
    apply elem_of_app in Hx as [Hx|Hx]; [|tauto]. case_bool_decide; [tauto|].
    apply elem_of_app in Hx as [Hx|Hx%list_elem_of_singleton]; tauto. }
  specialize (Hk (rep_votes v) [] b). cbn in Hk. apply Hk, list_elem_of_fmap. by exists (b, t).
Qed.

Lemma vote_generate_block a k b v r v' : vote_generate a k b v = Ok (r, v') -> v_block r = b.
Proof.
  unfold vote_generate, st_bind, st_run, vote_cache_put, st_put, st_ret. destruct (vote_current v a); [|discriminate].
  intros Hr. injection Hr as <- _. reflexivity.
Qed.

Lemma voted_blocks_ok i v :
  blocks_ok i -> block_ok (v_block v) -> blocks_ok (set_votes (snd (votes_vote v (e_votes i))) i).
Proof. intros [Hb Hw] Hv. split; [|exact Hw]. intros b [->|Hin]%votes_vote_blocks; [exact Hv|by apply Hb]. Qed.

#[local] Hint Resolve works_run works_assert works_fault works_now works_set_roots works_election : works.

Lemma works_cast e reps : works s (cast_votes e reps) (fun _ => True).
Proof.
  induction reps as [|[pub prv] reps IH]; cbn [cast_votes]; [by apply works_ret|].
  eapply works_bind; [auto with works|]. intros i Hi.
  eapply works_bind; [apply (works_votes _ (fun v => v_block v = last_winner i)), vote_generate_block|].
  intros v Hv. eapply works_bind; [|intros _ _; exact IH]. apply works_put, voted_blocks_ok; [done|].
  rewrite Hv. apply Hi.
Qed.

Lemma works_compute ws e : works s (compute_rep_votes ws e) (fun _ => True).
Proof. eapply works_bind; [by apply (works_get _ (fun _ => True))|]. intros reps _. apply works_cast. Qed.

Lemma works_broadcast ws e : works s (broadcast_winner ws e) (fun _ => True).
Proof.
  eapply works_bind; [apply works_compute|]. intros _ _. eapply works_bind; [auto with works|]. intros i [_ Hi].
  by apply works_background.
Qed.

Lemma works_first e : works s (first_of_tally e) (fun r => block_ok (snd r)).
Proof.
  eapply works_bind; [auto with works|]. intros i Hi.
  eapply works_bind; [apply (works_get _ (fun r => r = winner s (e_votes i)))|].
  { intros a Ha. by rewrite (wo_store _ _ Ha). }
  intros r ->. destruct (winner s (e_votes i)) as [[t b]|] eqn:Hw; [|auto with works]. apply works_ret.
  by eapply Hi, winner_voted.
Qed.

Lemma works_confirm inactive e : works s (confirm_once inactive e) (fun _ => True).
Proof.
  unfold confirm_once. eapply works_bind; [auto with works|]. intros i Hi. destruct (confirmed i); [by apply works_ret|].
  eapply works_bind; [apply works_put; exact Hi|]. intros _ _. eapply works_bind; [apply works_first|]. intros first Hf.
  eapply works_bind.
  - destruct (negb _); [|by apply (works_ret tt (fun _ => True))]. eapply works_bind.
    + unfold minimum_threshold. eapply works_bind; [auto with works|]. intros q _. by apply (works_ret _ (fun _ => True)).
    + intros q _. destruct (q <? _); [|by apply works_ret]. eapply works_bind; [by apply works_background|].
      intros _ _. apply works_put. split; [apply Hi|exact Hf].
  - intros _ _. eapply works_bind; [auto with works|]. intros j Hj. by apply works_background.
Qed.

Lemma works_quorum inactive e : works s (confirm_if_quorum inactive e) (fun _ => True).
Proof.
  unfold confirm_if_quorum, have_quorum, quorum_threshold. eapply works_bind.
  - eapply works_bind; [apply works_first|]. intros first _. eapply works_bind.
    + eapply works_bind; [auto with works|]. intros q _. by apply (works_ret _ (fun _ => True)).
    + intros q _. by apply (works_ret _ (fun _ => True)).
  - intros q _. destruct q; [apply works_confirm|by apply works_ret].
Qed.

Lemma works_vote inactive e v : vote_ok v -> works s (election_vote inactive e v) (fun _ => True).
Proof.
  intros Hv. unfold election_vote. eapply works_bind; [auto with works|]. intros i _. eapply works_bind.
  { unfold republish_vote. eapply works_bind; [auto with works|]. intros now _.
    destruct (_ <? _); [|by apply (works_ret tt (fun _ => True))].
    eapply works_bind; [by apply (works_get _ (fun _ => True))|]. intros w _.
    destruct (_ <? _); [by apply works_background|by apply works_ret]. }
  intros _ _. eapply works_bind; [auto with works|]. intros now _. eapply works_bind; [auto with works|]. intros j Hj.
  eapply works_bind; [apply works_put; exact Hj|]. intros _ _.
  eapply works_bind; [by apply (works_votes _ (fun _ => True))|]. intros r _.
  eapply works_bind; [auto with works|]. intros _ _. eapply works_bind; [auto with works|]. intros k Hk.
  eapply works_bind; [apply works_put, voted_blocks_ok; [exact Hk|apply Hv]|]. intros _ _. apply works_quorum.
Qed.

Lemma works_active_vote inactive v : vote_ok v -> works s (active_vote inactive v) (fun _ => True).
Proof.
  intros Hv. unfold active_vote. eapply works_bind; [by apply (works_get _ (fun _ => True))|]. intros c _.
  destruct c; [by apply works_vote|by apply works_ret].
Qed.

Lemma works_start ws b act : block_ok b -> works s (active_start ws b act) (fun _ => True).
Proof.
  intros Hb. unfold active_start. eapply works_bind; [by apply (works_get _ (fun _ => True))|]. intros c _.
  destruct c; [by apply works_ret|]. eapply works_bind.
  - unfold election_new. eapply works_bind; [auto with works|]. intros now _.
    eapply works_bind; [by apply (works_get _ (fun _ => True))|]. intros ex _.
    eapply works_bind; [auto with works|]. intros _ _. eapply (works_bind _ _ (fun _ => True)).
    + intros a r a' [Hs Hh Ht] He. injection He as <- <-. split; [|exact I].
      split; cbn [at_store heap tasks]; [done| |done]. intros e i. rewrite lookup_insert. case_decide; [|apply Hh].
      intros [= <-]. split; [|exact Hb]. cbn. intros c ->%list_elem_of_singleton. exact Hb.
    + intros e _. eapply works_bind; [apply works_compute|]. intros _ _. by apply (works_ret e (fun _ => True)).
  - intros e _. eapply works_bind; [auto with works|]. intros _ _. by apply works_ret.
Qed.

Lemma works_announce_roots inactive k l : works s (announce_roots inactive k l) (fun _ => True).
Proof.
  induction l as [|c l IH]; cbn [announce_roots]; [by apply works_ret|].
  destruct (k <? announcements_per_interval)%nat; [|by apply works_ret].
  eapply works_bind; [by apply works_background|]. intros _ _. eapply works_bind.
  - destruct (_ <=? _).
    + eapply works_bind; [apply works_confirm|]. intros _ _. eapply works_bind; [auto with works|]. intros i _.
      by apply (works_ret _ (fun _ => True)).
    + eapply works_bind; [auto with works|]. intros i _. eapply works_bind.
      * destruct (_ && _); [by apply works_background|by apply works_ret].
      * intros _ _. by apply works_ret.
  - intros r _. eapply works_bind; [exact IH|]. intros rest _. by apply works_ret.
Qed.

Lemma works_announce inactive : works s (announce_votes inactive) (fun _ => True).
Proof.
  unfold announce_votes. eapply works_bind; [by apply (works_get _ (fun _ => True))|]. intros l _.
  eapply works_bind; [apply works_announce_roots|]. intros r _. eapply works_bind; [auto with works|]. intros _ _.
  eapply works_bind.
  - induction (snd r) as [|x rs IH]; cbn [erase_roots]; [by apply (works_ret tt (fun _ => True))|].
    eapply works_bind; [by apply (works_get _ (fun _ => True))|]. intros f _.
    eapply works_bind; [auto with works|]. intros _ _. eapply works_bind; [auto with works|]. intros _ _. exact IH.
  - intros _ _. eapply works_bind; [auto with works|]. intros now _. by apply works_background.
Qed.
End Tasks.

(** ** The peers *)

Definition endpoints_ok (p : peer_container) : Prop := Forall (fun i => endpoint_ok (p_endpoint i)) (known p).

Definition event_ok (e : peer_event) : Prop := match e with Peer_observed e => endpoint_ok e | Disconnected => True end.

Section PeerOperations.
Context `{NodeEnvironment, Network, PeerEnvironment}.

(** [m] does not fail, keeps the peers well formed, and ends in [post]. *)
Definition safe {A} (m : M peer_container A) (post : peer_container -> A -> Prop) : Prop :=
  forall p, peers_ok p -> endpoints_ok p ->
  exists r p' l, m p = Ok (r, p') /\ peers_ok p' /\ endpoints_ok p' /\ self p' = self p
  /\ p_events p' = p_events p ++ l /\ Forall event_ok l /\ post p r.

Lemma endpoints_ok_fmap p : endpoints_ok p <-> Forall endpoint_ok (p_endpoint <$> known p).
Proof. unfold endpoints_ok. by rewrite Forall_fmap. Qed.

Lemma endpoints_ok_elem p e : endpoints_ok p -> known_peer p e = true -> endpoint_ok e.
Proof.
  intros Hp. rewrite known_peer_elem, list_elem_of_fmap. intros (i & -> & Hi).
  exact (proj1 (Forall_forall _ _) Hp i Hi).
Qed.

Lemma endpoints_ok_same (p p' : peer_container) :
  p_endpoint <$> known p' = p_endpoint <$> known p -> endpoints_ok p -> endpoints_ok p'.
Proof. intros Hk. rewrite !endpoints_ok_fmap. by rewrite Hk. Qed.

Lemma safe_random_set count : safe (random_set count) (fun _ r => Forall endpoint_ok r /\ (length r <= count)%nat).
Proof.
  intros p Hp He. destruct (random_set_run p count Hp) as (r & p' & Hrun & _ & Hk & Hl & Hkn & Ha & Hev & Hs).
  exists r, p', []. split_and!; [exact Hrun| | |exact Hs|by rewrite app_nil_r|constructor| |lia].
  - eapply same_endpoints_ok; [exact Hp|exact Hs|by rewrite Hkn|]. rewrite Ha. apply Hp.
  - eapply endpoints_ok_same; [|exact He]. by rewrite Hkn.
  - apply Forall_forall. intros e Hin. eapply endpoints_ok_elem; [exact He|by apply Hk].
Qed.

Lemma safe_random_fill : safe random_fill (fun _ r => Forall endpoint_ok r /\ length r = 8%nat).
Proof.
  intros p Hp He. destruct (safe_random_set 8 p Hp He) as (r & p' & l & Hrun & Hp' & He' & Hs & Hev & Hl & Hr & Hlen).
  unfold random_fill. exists (set_order r ++ repeat (Endpoint 0 0) (8 - length r)), p', l.
  rewrite (st_bind_ok _ _ _ _ _ Hrun). rewrite st_assert_true by (by apply Nat.leb_le). split_and!; [done..| |].
  - apply Forall_app. split; [eapply Permutation_Forall; [symmetry; apply set_order_perm|exact Hr]|].
    apply Forall_forall. intros e Hin%list_elem_of_In%repeat_spec. subst e. unfold endpoint_ok, fits. cbn. lia.
  - rewrite length_app, repeat_length, (Permutation_length (set_order_perm r)). lia.
Qed.

Lemma safe_list_sqrt : safe list_sqrt (fun _ r => Forall endpoint_ok r).
Proof.
  intros p Hp He. destruct (safe_random_set (2 * size_sqrt p) p Hp He) as (r & p' & l & Hrun & Hp' & He' & Hs & Hev & Hl & Hr & _).
  exists (set_order r), p', l. unfold list_sqrt. erewrite st_bind_ok by reflexivity. rewrite (st_bind_ok _ _ _ _ _ Hrun).
  split_and!; [done..|]. eapply Permutation_Forall; [symmetry; apply set_order_perm|exact Hr].
Qed.

Lemma safe_random n : safe (peer_random n) (fun _ r => (r <= n)%nat).
Proof.
  intros p [? ? ?] He. eexists _, _, []. split; [reflexivity|]. cbn [self p_events].
  split_and!; [by split|exact He|done|by rewrite app_nil_r|constructor|apply random_word_le].
Qed.

Lemma safe_insert e version : endpoint_ok e -> safe (peer_insert e version) (fun _ _ => True).
Proof.
  intros Hep p Hp He. destruct (peer_insert_run p e version Hp) as (r & p' & Hrun & Hp' & _ & Hk & Hev & _ & Hs).
  exists r, p', (if r then [] else [Peer_observed e]). split_and!; [exact Hrun|exact Hp'| |exact Hs|exact Hev| |exact I].
  - apply Forall_forall. intros i Hi. assert (Hki : known_peer p' (p_endpoint i) = true).
    { apply known_peer_elem, list_elem_of_fmap. eauto. }
    rewrite Hk in Hki. apply orb_true_iff in Hki as [Hki|[_ ->%bool_decide_eq_true]%andb_true_iff]; [|exact Hep].
    by eapply endpoints_ok_elem.
  - destruct r; [constructor|]. constructor; [exact Hep|constructor].
Qed.

Lemma safe_contacted e version : endpoint_ok e -> safe (contacted (V6 (address e)) (port e) version) (fun _ _ => True).
Proof.
  intros Hep p Hp He. destruct (safe_insert e version Hep p Hp He) as (r & p' & l & Hrun & Hrest).
  exists tt, p', l. split; [|exact Hrest]. unfold contacted. destruct e as [x y]. cbn [address port].
  by rewrite (st_bind_ok _ _ _ _ _ Hrun).
Qed.

(** Operations that change the entries but neither their endpoints nor the observers. *)
Lemma safe_same {A} (m : M peer_container A) :
  keeps m ->
  (forall p r p', m p = Ok (r, p') -> p_endpoint <$> known p' = p_endpoint <$> known p /\ p_events p' = p_events p) ->
  safe m (fun _ _ => True).
Proof.
  intros Hm Hs p Hp He. destruct (Hm p Hp) as (r & p' & Hrun & Hp' & Hself). destruct (Hs _ _ _ Hrun) as [Hk Hev].
  exists r, p', []. split_and!; [exact Hrun|exact Hp'|by eapply endpoints_ok_same|exact Hself|by rewrite app_nil_r|constructor|exact I].
Qed.

Lemma safe_reachout e : safe (reachout e) (fun _ _ => True).
Proof. apply safe_same; [apply keeps_reachout|]. intros p r p' [= _ <-]. done. Qed.

Lemma keeps_of_step {A} (m : M peer_container A) o : peer_step o = (st_bind m (fun _ => st_ret tt)) -> keeps m.
Proof.
  intros Ho p Hp. destruct (keeps_step o p Hp) as ([] & p' & Hrun & Hp' & Hs). rewrite Ho in Hrun.
  apply st_bind_inv in Hrun as (r & p1 & Hrun & [= <-]). by exists r, p1.
Qed.

Lemma safe_rep_request e : safe (rep_request e) (fun _ _ => True).
Proof.
  apply safe_same; [exact (keeps_step (Op_rep_request e))|]. intros p r p'. unfold rep_request, st_bind, st_get.
  destruct (peer_find e (known p)); intros [= _ <-]; [|done]. split; [|done]. cbn. by apply modify_endpoints.
Qed.

Lemma safe_rep_response e w : safe (rep_response e w) (fun _ _ => True).
Proof.
  apply safe_same; [by apply (keeps_of_step _ (Op_rep_response e w))|]. intros p r p'. unfold rep_response, st_bind, st_get.
  destruct (peer_find e (known p)); intros [= _ <-]; [|done]. split; [|done]. cbn. by apply modify_endpoints.
Qed.

Lemma safe_purge c : safe (purge_list c) (fun _ r => Forall (fun i => endpoint_ok (p_endpoint i)) r).
Proof.
  intros p Hp He. destruct (purge_list_run p c Hp) as (r & p' & Hrun & Hp' & Hr & _ & Hk & _ & _ & Hev & Hs).
  assert (Hf : Forall (fun i => endpoint_ok (p_endpoint i)) (filter (fun i => c <= last_contact i) (known p))).
  { apply Forall_forall. intros i [_ Hi]%list_elem_of_filter. exact (proj1 (Forall_forall _ _) He i Hi). }
  eexists r, p', _. split_and!; [exact Hrun|exact Hp'| |exact Hs|exact Hev| |].
  - rewrite endpoints_ok_fmap, Hk. by apply Forall_fmap.
  - case_decide; [|constructor]. constructor; [exact I|constructor].
  - eapply Permutation_Forall; [symmetry; exact Hr|exact Hf].
Qed.
End PeerOperations.

(** ** Votes in the gap cache *)

Definition gap_votes_ok (g : gap_information) : Prop :=
  NoDup (rep_votes (gap_votes g)).*1 /\ rep_votes (gap_votes g) <> [].

Section Gaps.
Context `{Environment, NodeEnvironment, Network, Iteration} {gb : open_block} {inactive : Z}.
Context (Hin : fits 128 inactive).

(** There is always a winner among the votes for a block in the gap cache. *)
Lemma gap_cache_vote_run v n :
  good_ledger gb (n_store n) -> Forall gap_votes_ok (n_gaps n) ->
  exists n', gap_cache_vote inactive v n = Ok (tt, n') /\ n_store n' = n_store n /\ n_unchecked n' = n_unchecked n
  /\ Forall gap_votes_ok (n_gaps n') /\ gap_hash <$> n_gaps n' = gap_hash <$> n_gaps n.
Proof.
  intros (k & R & Hf) Hg. destruct (reachable_inv _ _ _ R Hf) as (g & I). destruct (supply_run R Hf inactive Hin) as [_ Hsup].
  unfold gap_cache_vote. erewrite st_bind_ok by reflexivity.
  destruct (gap_find (hash (v_block v)) (n_gaps n)) as [info|] eqn:Hfind; [|by exists n].
  assert (Hinfo : gap_votes_ok info).
  { apply (proj1 (Forall_forall _ _) Hg), list_elem_of_In. unfold gap_find in Hfind. by apply find_some in Hfind as [? _]. }
  destruct Hinfo as [Hk Hne]. set (votes_l := snd (votes_vote v (gap_votes info))).
  assert (Hv : NoDup (rep_votes votes_l).*1 /\ rep_votes votes_l <> [])
    by (split; [by apply votes_vote_keys|by apply votes_vote_nonempty]).
  destruct (winner_found I votes_l (proj1 Hv) (proj2 Hv)) as (t & b & Hw & _).
  erewrite st_bind_ok by reflexivity. erewrite st_bind_ok by reflexivity. cbn [n_store]. rewrite Hw.
  set (n1 := Node _ _ _ _ _). unfold bootstrap_threshold.
  assert (Hled : on_ledger (st_run (supply inactive)) n1 = Ok (if inactive <=? genesis_amount - account_balance (n_store n) genesis_account - pending_for (s := n_store n) burn_account
     then genesis_amount - account_balance (n_store n) genesis_account - pending_for (s := n_store n) burn_account - inactive else 0, n1)).
  { unfold on_ledger, st_run. cbn [n_store n1]. by rewrite Hsup. }
  erewrite st_bind_ok by (erewrite st_bind_ok by exact Hled; reflexivity).
  assert (H' : Forall gap_votes_ok (n_gaps n1) /\ gap_hash <$> n_gaps n1 = gap_hash <$> n_gaps n).
  { cbn [n1 n_gaps]. split.
    - apply Forall_fmap, Forall_forall. intros x Hx. cbn. destruct (gap_hash x =? _); [exact Hv|].
      exact (proj1 (Forall_forall _ _) Hg x Hx).
    - rewrite <- list_fmap_compose. apply list_fmap_ext. intros i x _. cbn. by destruct (gap_hash x =? _). }
  destruct H'. destruct (_ <? t); eexists; (split; [reflexivity|]); done.
Qed.
End Gaps.

(** ** The blocks of the ledger *)

Section LedgerBlocks.
Context `{Environment} {gb : open_block} (Hgb : block_ok (Open gb)).

Lemma stored_block_ok s h b : good_ledger gb s -> block_get s h = Some b -> block_ok b /\ hash b = h.
Proof.
  intros (n & R & Hf) Hb. destruct (reachable_inv _ _ _ R Hf) as (g & I). pose proof Hb as Hb'.
  apply get_entry in Hb' as (m & Hb'). pose proof (ei_hash _ _ _ _ _ _ (inv_entry I _ _ _ Hb')) as Hh. split; [|exact Hh].
  destruct (decide (is_genesis b)) as [Hg|Hg]; [|exact (proj1 (reachable_admissible gb n s R Hf h b Hb Hg))].
  pose proof (reachable_has_genesis gb n s R Hf) as Hx. apply get_entry in Hx as (k & Hx).
  assert (h = hash (Open gb)) as ->; [|rewrite Hx in Hb'; injection Hb' as <- _; exact Hgb].
  exact (genesis_unique I _ _ _ _ _ _ Hb' Hx Hg (proj1 (reachable_genesis_ok _ _ _ R))).
Qed.

(** Every entry of a table of blocks is found by [block_get]. *)
Lemma table_found s ty k e : lookup_in ty s k = Some e -> exists b, block_get s k = Some b.
Proof.
  unfold block_get, block_get_raw. intros Hk.
  destruct (send_blocks s !! k) as [[b ?]|] eqn:H1; [by exists b|].
  destruct (receive_blocks s !! k) as [[b ?]|] eqn:H2; [by exists b|].
  destruct (open_blocks s !! k) as [[b ?]|] eqn:H3; [by exists b|].
  destruct (change_blocks s !! k) as [[b ?]|] eqn:H4; [by exists b|].
  destruct (send_blocks_v2 s !! k) as [[b ?]|] eqn:H5; [by exists b|].
  unfold lookup_in in Hk. destruct ty; cbn in Hk; congruence.
Qed.

Lemma genesis_counted s : good_ledger gb s -> (0 < block_counts_sum (block_count_of s))%nat.
Proof.
  intros (n & R & Hf). pose proof (reachable_has_genesis gb n s R Hf) as Hx. unfold block_get in Hx.
  destruct (block_get_raw s (hash (Open gb))) as [[ty e]|] eqn:Hr; [|discriminate Hx].
  assert (Hpos : forall (t : gmap Z entry) k e, t !! k = Some e -> (0 < size t)%nat).
  { intros t k x Hk. destruct (size t) eqn:Hz; [|lia]. apply map_size_empty_inv in Hz. subst t. by rewrite lookup_empty in Hk. }
  unfold block_counts_sum, block_count_of. cbn [count_send count_receive count_open count_change count_send_v2].
  unfold block_get_raw in Hr.
  destruct (send_blocks s !! _) eqn:H1; [apply Hpos in H1; lia|].
  destruct (receive_blocks s !! _) eqn:H2; [apply Hpos in H2; lia|].
  destruct (open_blocks s !! _) eqn:H3; [apply Hpos in H3; lia|].
  destruct (change_blocks s !! _) eqn:H4; [apply Hpos in H4; lia|].
  destruct (send_blocks_v2 s !! _) eqn:H5; [apply Hpos in H5; lia|discriminate Hr].
Qed.

(** The iterator of [block_random] finds an entry of a table that is not empty. *)
Lemma iterator_found s ty (t : gmap Z entry) h :
  good_ledger gb s -> (forall k e, t !! k = Some e -> lookup_in ty s k = Some e) -> (0 < size t)%nat ->
  exists k e b, match first_from h t with Some x => Some x | None => first_from 0 t end = Some (k, e)
  /\ block_get s k = Some b.
Proof.
  intros G Ht Hsize. pose proof (first_from_table h t) as F1. destruct (first_from h t) as [[k e]|].
  { destruct F1 as (_ & _ & Hk). destruct (table_found s ty k e (Ht _ _ Hk)) as [b Hb]. eauto 6. }
  pose proof (first_from_table 0 t) as F0. destruct (first_from 0 t) as [[k e]|].
  { destruct F0 as (_ & _ & Hk). destruct (table_found s ty k e (Ht _ _ Hk)) as [b Hb]. eauto 6. }
  exfalso. destruct (map_choose t) as (k & e & Hk). { intros ->. rewrite map_size_empty in Hsize. lia. }
  destruct (table_found s ty k e (Ht _ _ Hk)) as [b Hb]. destruct (stored_block_ok s k b G Hb) as [_ Hh].
  assert (Hin : (k, e) ∈ table_from 0 t) by (apply table_from_elem; split; [rewrite <- Hh; apply hash_fits|exact Hk]).
  rewrite F0 in Hin. by apply not_elem_of_nil in Hin.
Qed.

(** *** The block a fork is about *)

Ltac other_answer E :=
  lazymatch type of E with
  | (_ <- _ ;; _)%m _ = Ok _ => apply st_bind_inv in E as (? & ? & _ & E); other_answer E
  | st_ret _ _ = Ok _ =>
      apply (f_equal (fun x => match x with Ok (r, _) => code r | Fault _ => progress end)) in E;
      cbn [st_ret code failed] in E; congruence
  | st_fault _ _ = Ok _ => discriminate E
  | (if ?c then _ else _) _ = Ok _ => destruct c; other_answer E
  | match ?c with Some _ => _ | None => _ end _ = Ok _ => destruct c; other_answer E
  end.

(** When the ledger calls a block a fork. *)
Lemma fork_answer s b r s' :
  process b s = Ok (r, s') -> code r = fork ->
  block_exists s (hash b) = false
  /\ if is_open b then exists i, account_get s (root b) = Some i
     else block_exists s (root b) = true /\ is_zero (frontier_get s (root b)) = true.
Proof.
  intros E Hc. destruct b as [b|b|b|b|b]; cbn [process is_open root] in *.
  - unfold process_send in E. cbv zeta in E. revert E. read_step. destruct (block_exists s (hash (Send b))) eqn:H1; cbv iota; [intros E; other_answer E|].
    read_step. destruct (block_exists s (sh_previous (send_h b))) eqn:H2; cbn [negb]; cbv iota; [|intros E; other_answer E]. read_step.
    destruct (is_zero _) eqn:H3; cbv iota; [by intros _|]. intros E. other_answer E.
  - unfold process_send_v2 in E. cbv zeta in E. revert E. read_step. destruct (block_exists s (hash (SendV2 b))) eqn:H1; cbv iota; [intros E; other_answer E|].
    read_step. destruct (block_exists s (s2h_previous (send2_h b))) eqn:H2; cbn [negb]; cbv iota; [|intros E; other_answer E]. read_step.
    destruct (is_zero _) eqn:H3; cbv iota; [by intros _|]. intros E. other_answer E.
  - unfold process_receive in E. cbv zeta in E. revert E. read_step. destruct (block_exists s (hash (Receive b))) eqn:H1; cbv iota; [intros E; other_answer E|].
    read_step. destruct (block_exists s (rh_source _)) eqn:H2; cbn [negb]; cbv iota; [|intros E; other_answer E]. read_step.
    destruct (is_zero _) eqn:H3; cbv iota; [|intros E; other_answer E]. read_step.
    destruct (block_exists s (rh_previous _)) eqn:H4; cbv iota; [by intros _|]. intros E. other_answer E.
  - unfold process_open in E. cbv zeta in E. revert E. read_step. destruct (block_exists s (hash (Open b))) eqn:H1; cbv iota; [intros E; other_answer E|].
    read_step. destruct (block_exists s (oh_source _)) eqn:H2; cbn [negb]; cbv iota; [|intros E; other_answer E].
    destruct (validate_message _ _ _); cbv iota; [intros E; other_answer E|]. read_step.
    destruct (account_get s _) as [i|] eqn:H3; cbv iota; [intros _; split; [done|by exists i]|]. intros E. other_answer E.
  - unfold process_change in E. cbv zeta in E. revert E. read_step. destruct (block_exists s (hash (Change b))) eqn:H1; cbv iota; [intros E; other_answer E|].
    read_step. destruct (block_exists s (ch_previous (change_h b))) eqn:H2; cbn [negb]; cbv iota; [|intros E; other_answer E]. read_step.
    destruct (is_zero _) eqn:H3; cbv iota; [by intros _|]. intros E. other_answer E.
Qed.

(** [forked_block] then finds the block that has the place. *)
Lemma forked_block_found s b r s' :
  good_ledger gb s -> process b s = Ok (r, s') -> code r = fork ->
  exists fb, forked_block b s = Ok (fb, s) /\ block_get s (hash fb) = Some fb.
Proof.
  intros G E Hc. destruct (fork_answer s b r s' E Hc) as [Hn Hr]. pose proof G as (k & R & Hf).
  destruct (reachable_inv _ _ _ R Hf) as (g & I).
  assert (Hstored : forall h x, block_get s h = Some x -> block_get s (hash x) = Some x).
  { intros h x Hx. by rewrite (proj2 (stored_block_ok s h x G Hx)). }
  assert (Hroot : block_exists s (root b) || account_exists s (root b) = true).
  { destruct (is_open b); [|by rewrite (proj1 Hr)]. destruct Hr as [i Hi]. apply orb_true_iff. right.
    unfold account_exists. by rewrite bool_decide_eq_true_2 by (by exists i). }
  unfold forked_block. read_step. rewrite Hn. rewrite st_assert_true by done. read_step. rewrite Hroot.
  rewrite st_assert_true by done. read_step.
  destruct (block_get s (block_successor s (root b))) as [x|] eqn:Hx; [exists x; split; [done|by eapply Hstored]|].
  read_step. destruct (account_get s (root b)) as [i|] eqn:Hi.
  - read_step. pose proof (inv_head I _ _ Hi) as [_ _ _ _ _ _ (ob & m & Hob & _)].
    rewrite (proj2 (get_entry _ _ _) (ex_intro _ m Hob)). exists (Open ob). split; [done|]. eapply Hstored. apply get_entry. by exists m.
  - exfalso. destruct (is_open b); [by destruct Hr|]. destruct Hr as [Hex Hz]. apply block_exists_true in Hex as [[pb m] Hp].
    rewrite block_successor_entry, Hp in Hx. cbn [fmap option_fmap option_map snd from_option id] in Hx.
    destruct (decide (m = 0)) as [->|Hm].
    + rewrite (frontier_get_head I _ _ Hp) in Hz. rewrite (is_zero_ne _ (ei_own _ _ _ _ _ _ (inv_entry I _ _ _ Hp))) in Hz. discriminate Hz.
    + destruct (ei_succ _ _ _ _ _ _ (inv_entry I _ _ _ Hp)) as [|(sb & j & Hs & _)]; [done|].
      rewrite (proj2 (get_entry _ _ _) (ex_intro _ j Hs)) in Hx. discriminate Hx.
Qed.
End LedgerBlocks.

(** [vote_validate] with the relation the visitor asserts. *)
Lemma vote_validate_result `{Environment, Signing} v s :
  vote_store_ok s -> vote_ok v ->
  exists code r s', vote_validate v s = Ok ((code, r), s') /\ vote_store_ok s'
  /\ (code = vote_vote -> validate_message (v_account v) (vote_hash v) (v_signature v) = false)
  /\ (code = vote_replay -> exists w, r = Some w /\ vote_ok w /\ v_sequence v < v_sequence w).
Proof.
  intros Hs Hv. destruct (vote_max_run v s Hs Hv) as (c & Hc & Hm & Hr & Ha). cbv zeta in *. unfold vote_validate.
  destruct (validate_message (v_account v) (vote_hash v) (v_signature v)) eqn:Hval; cbn [negb].
  { eexists vote_invalid, None, s. split; [reflexivity|]. split_and!; [exact Hs|discriminate|discriminate]. }
  set (keep := match c with Some c => v_sequence v <? v_sequence c | None => false end) in *.
  set (w := match c with Some c => if keep then c else v | None => v end) in *.
  exists (if negb keep then vote_vote else vote_replay), (Some w), (VoteStore (vote_db s) (<[v_account v := w]> (vote_cache s))).
  split_and!; [rewrite (st_bind_ok _ _ _ _ _ Hm); reflexivity|by apply cache_put_ok|done|].
  destruct keep eqn:Hk; cbn [negb]; [|discriminate]. intros _. exists w. split_and!; [done|exact Hr|].
  unfold w, keep in *. destruct c as [c|]; [|discriminate Hk]. apply Z.ltb_lt. exact Hk.
Qed.
