(* ===== verification/NodeNetworkTheorems.v ===== *)
(** * The node on the network: what it promises

    No packet that can be parsed, no timer and no background task makes a
    well-formed node fail an assertion; everything a node sends can be parsed, so
    that nodes do not stop one another; and only blocks with sufficient work and
    blocks that won an election get into the queue of the block processor. *)
From Stdlib Require Import ZArith Lia List.
From stdpp Require Import prelude list gmap.
From S2P Require Import Prelude Lists Numbers Streams Blocks Store Ledger StoreFacts LedgerInv LedgerQueries LedgerProcess LedgerUndo LedgerTheorems LedgerSub Votes Work Messages Unchecked Processor Elections ElectionTheorems Peers BootstrapServer BootstrapTheorems NodeNetwork NodeNetworkFacts.

#[local] Opaque work_validate_block.

(** ** The invariant *)

Record network_ok `{Environment, Network} (gb : open_block) (n : network_node) : Prop := {
  nk_active : active_ok gb (nn_active n);
  nk_work : work_ok (nn_store n) (nn_active n);
  nk_unchecked : unchecked_ok (nn_unchecked n);
  nk_gaps : Forall gap_votes_ok (nn_gaps n);
  nk_peers : peers_ok (nn_peers n);
  nk_endpoints : endpoints_ok (nn_peers n);
  nk_arrival : arrivals_ok (nn_arrival n);
  nk_queue : Forall (fun i => block_ok (item_block i)) (nn_queue n);
  nk_sent : Forall (fun x => deliverable (snd x)) (sent (nn_network n))
}.

(** What a handler leaves alone: the ledger, and the queue but for the items [q]
    it adds; elections go on, and what was sent was sent. *)
Record undisturbed (q : list block_processor_item) (n n' : network_node) : Prop := {
  un_store : nn_store n' = nn_store n;
  un_queue : nn_queue n' = nn_queue n ++ q;
  un_self : self (nn_peers n') = self (nn_peers n);
  un_on : on (nn_network n') = on (nn_network n);
  un_elections : evolves (nn_active n) (nn_active n');
  un_sent : exists l, sent (nn_network n') = sent (nn_network n) ++ l
}.

Lemma undisturbed_refl n : undisturbed [] n n.
Proof. split; [done|by rewrite app_nil_r|done|done|reflexivity|exists []; by rewrite app_nil_r]. Qed.

Lemma undisturbed_trans q q' n1 n2 n3 : undisturbed q n1 n2 -> undisturbed q' n2 n3 -> undisturbed (q ++ q') n1 n3.
Proof.
  intros [A1 A2 A3 A4 A5 [l A6]] [B1 B2 B3 B4 B5 [l' B6]].
  split; [congruence|by rewrite B2, A2, app_assoc|congruence|congruence|by etrans|].
  exists (l ++ l'). by rewrite B6, A6, app_assoc.
Qed.

Section Node.
Context `{Environment, Signing, NodeEnvironment, Network, Iteration, PeerEnvironment, CrawlEnvironment}.
Context {gb : open_block} {ws : list wallet} {inactive : Z} {voting : bool}.
Context (Hgb : block_ok (Open gb)) (Hws : wallets_ok ws) (Hin : fits 128 inactive).

(** [m] does not fail on [n], keeps the invariant, adds [q] to the queue, and ends in [post]. *)
Definition does {A} (m : M network_node A) (n : network_node) (q : list block_processor_item)
    (post : A -> network_node -> Prop) : Prop :=
  exists r n', m n = Ok (r, n') /\ network_ok gb n' /\ undisturbed q n n' /\ post r n'.

(** A handler that does not touch the queue. *)
Definition calm {A} (m : M network_node A) (post : A -> Prop) : Prop :=
  forall n, network_ok gb n -> does m n [] (fun r _ => post r).

Lemma does_bind {A B} (m : M network_node A) (k : A -> M network_node B) n q q' Q post :
  does m n q Q -> (forall r n', network_ok gb n' -> undisturbed q n n' -> Q r n' -> does (k r) n' q' post) ->
  does (st_bind m k) n (q ++ q') post.
Proof.
  intros (r & n1 & H1' & Hok1 & U1 & HQ) Hk. destruct (Hk r n1 Hok1 U1 HQ) as (r2 & n2 & H2' & Hok2 & U2 & HP).
  exists r2, n2. split_and!; [by rewrite (st_bind_ok _ _ _ _ _ H1')|exact Hok2|by eapply undisturbed_trans|exact HP].
Qed.

Lemma calm_does {A B} (m : M network_node A) (k : A -> M network_node B) n q Q post :
  calm m Q -> network_ok gb n ->
  (forall r n', network_ok gb n' -> undisturbed [] n n' -> Q r -> does (k r) n' q post) -> does (st_bind m k) n q post.
Proof. intros Hm Hn Hk. change q with ([] ++ q). eapply does_bind; [by apply Hm|exact Hk]. Qed.

Lemma calm_bind {A B} (m : M network_node A) (k : A -> M network_node B) Q post :
  calm m Q -> (forall r, Q r -> calm (k r) post) -> calm (st_bind m k) post.
Proof. intros Hm Hk n Hn. eapply calm_does; [exact Hm|exact Hn|]. intros r n' Hn' _ Hr. by apply Hk. Qed.

Lemma calm_ret {A} (x : A) (post : A -> Prop) : post x -> calm (st_ret x) post.
Proof. intros Hx n Hn. exists x, n. split_and!; [reflexivity|exact Hn|apply undisturbed_refl|exact Hx]. Qed.

Lemma calm_get {A} (f : network_node -> A) (post : A -> Prop) :
  (forall n, network_ok gb n -> post (f n)) -> calm (st_get f) post.
Proof. intros Hf n Hn. exists (f n), n. split_and!; [reflexivity|exact Hn|apply undisturbed_refl|by apply Hf]. Qed.

Lemma calm_run {A} (f : network_node -> res A) x (post : A -> Prop) :
  (forall n, f n = Ok x) -> post x -> calm (st_run f) post.
Proof.
  intros Hf Hx n Hn. exists x, n. split_and!; [unfold st_run; by rewrite Hf|exact Hn|apply undisturbed_refl|exact Hx].
Qed.

Lemma calm_weaken {A} (m : M network_node A) (Q post : A -> Prop) : calm m Q -> (forall r, Q r -> post r) -> calm m post.
Proof. intros Hm Hp n Hn. destruct (Hm n Hn) as (r & n' & ? & ? & ? & ?). exists r, n'. auto. Qed.

Lemma calm_for_each {X} (l : list X) (f : X -> M network_node unit) :
  (forall x, x ∈ l -> calm (f x) (fun _ => True)) -> calm (for_each l f) (fun _ => True).
Proof.
  induction l as [|x l IH]; intros Hf; cbn [for_each]; [by apply calm_ret|].
  eapply calm_bind; [apply Hf; by left|]. intros _ _. apply IH. intros y Hy. apply Hf. by right.
Qed.

(** *** Steps *)

Lemma set_readings_ok r n : network_ok gb n -> network_ok gb (set_readings r n) /\ undisturbed [] n (set_readings r n).
Proof.
  intros Hn. split; [destruct Hn; by split|]. split; [done|cbn; by rewrite app_nil_r|done|done|reflexivity|].
  exists []. cbn. by rewrite app_nil_r.
Qed.

Lemma calm_now : calm now_on (fun _ => True).
Proof. intros n Hn. destruct (set_readings_ok (S (nn_readings n)) n Hn). by eexists _, _. Qed.

Lemma calm_network f :
  (forall w, on (f w) = on w /\ exists l, sent (f w) = sent w ++ l /\ Forall (fun x => deliverable (snd x)) l) ->
  calm (on_network f) (fun _ => True).
Proof.
  intros Hf n Hn. destruct (Hf (nn_network n)) as [Ho (l & Hs & Hl)]. eexists _, _. split; [reflexivity|].
  split_and!; [|split|exact I]; cbn; try done.
  - destruct Hn. split; try done. cbn. rewrite Hs. by apply Forall_app.
  - by rewrite app_nil_r.
  - by exists l.
Qed.

Lemma calm_counter f : (forall w, on (f w) = on w /\ sent (f w) = sent w) -> calm (on_network f) (fun _ => True).
Proof.
  intros Hf. apply calm_network. intros w. destruct (Hf w) as [Ho Hs]. split; [exact Ho|]. exists []. rewrite Hs, app_nil_r.
  split; [done|constructor].
Qed.

Lemma calm_send t bytes e : deliverable bytes -> calm (send_buffer t bytes e) (fun _ => True).
Proof.
  intros Hb. apply calm_network. intros w. split; [done|]. exists [(e, bytes)]. split; [done|]. by constructor.
Qed.

Lemma calm_peers {A} (m : M peer_container A) (Q : A -> Prop) (post : A -> Prop) :
  safe m (fun _ => Q) -> (forall r, Q r -> post r) -> calm (on_peers m) post.
Proof.
  intros Hm Hp n Hn.
  assert (Hok : peers_ok (peers_now n)) by (destruct (nk_peers _ _ Hn); by split).
  destruct (Hm (peers_now n) Hok (nk_endpoints _ _ Hn)) as (r & p' & l & Hrun & Hp' & He' & Hs & _ & _ & HQ).
  eexists _, _. split; [unfold on_peers; rewrite Hrun; reflexivity|]. split_and!; [|split|by apply Hp]; cbn; try done.
  - destruct Hn. by split.
  - by rewrite app_nil_r.
  - exists []. by rewrite app_nil_r.
Qed.

(** With the observers of new peers. *)
Lemma calm_observed {A} (m : M peer_container A) (Q : A -> Prop) :
  safe m (fun _ => Q) -> (forall e, endpoint_ok e -> calm (observe_endpoint e) (fun _ => True)) -> calm (observed m) Q.
Proof.
  intros Hm Ho n Hn. unfold observed. assert (Hok : peers_ok (peers_now n)) by (destruct (nk_peers _ _ Hn); by split).
  destruct (Hm (peers_now n) Hok (nk_endpoints _ _ Hn)) as (r & p' & l & Hrun & Hp' & He' & Hs & Hev & Hl & HQ).
  set (n1 := set_readings (p_readings p') (set_peers p' n)).
  assert (Hn1 : network_ok gb n1 /\ undisturbed [] n n1).
  { split; [destruct Hn; by split|]. split; cbn; [done|by rewrite app_nil_r|exact Hs|done|done|exists []; by rewrite app_nil_r]. }
  destruct Hn1 as [Hn1 U1].
  assert (Hfe : calm (for_each l (fun e => match e with Peer_observed e => observe_endpoint e | Disconnected => st_ret tt end)) (fun _ => True)).
  { apply calm_for_each. intros e Hine. pose proof (proj1 (Forall_forall _ _) Hl e Hine) as Hoke.
    destruct e as [e|]; [by apply Ho|by apply calm_ret]. }
  destruct (Hfe n1 Hn1) as (u & n2 & Hrun2 & Hn2 & U2 & _). exists r, n2. split_and!.
  - erewrite st_bind_ok by reflexivity. rewrite (st_bind_ok _ _ n r n1) by (unfold on_peers; by rewrite Hrun).
    erewrite st_bind_ok by reflexivity. cbn [n1 set_readings set_counts set_peers nn_peers]. rewrite Hev. cbn [peers_now p_events].
    rewrite drop_app_length. by rewrite (st_bind_ok _ _ _ _ _ Hrun2).
  - exact Hn2.
  - exact (undisturbed_trans [] [] _ _ _ U1 U2).
  - exact HQ.
Qed.

(** An operation on the elections. *)
Lemma active_now_ok n : network_ok gb n -> active_ok gb (active_now n) /\ work_ok (nn_store n) (active_now n).
Proof.
  intros Hn. split; [|destruct (nk_work _ _ Hn); by split]. destruct (nk_active _ _ Hn). by split.
Qed.

Lemma does_active {A} (m : M active_transactions A) n (Q : A -> active_transactions -> Prop) (post : A -> Prop) :
  network_ok gb n -> runs (gb := gb) m (active_now n) Q -> works (nn_store n) m post ->
  does (on_active m) n [] (fun r _ => post r /\ exists a, Q r a).
Proof.
  intros Hn (r & a' & Hrun & Hok & Hev & HQ) Hw. destruct (active_now_ok n Hn) as [_ Hwo].
  destruct (Hw _ _ _ Hwo Hrun) as [Hwo' Hpost]. pose proof (wo_store _ _ Hwo') as Hst.
  eexists r, _. split; [unfold on_active; rewrite Hrun; reflexivity|]. split_and!; [|split|exact Hpost|by exists a']; cbn; try done.
  - destruct Hn. split; try done. unfold nn_store. cbn. by rewrite Hst.
  - by rewrite app_nil_r.
  - exists []. by rewrite app_nil_r.
Qed.

Lemma calm_active {A} (m : M active_transactions A) (Q : network_node -> A -> active_transactions -> Prop) :
  (forall n, network_ok gb n -> runs (gb := gb) m (active_now n) (Q n)) ->
  (forall s, works s m (fun _ => True)) -> calm (on_active m) (fun _ => True).
Proof.
  intros Hr Hw n Hn. destruct (does_active m n (Q n) (fun _ => True) Hn (Hr n Hn) (Hw _)) as (r & n' & ? & ? & ? & _).
  by exists r, n'.
Qed.

(** *** Sending *)

Lemma calm_send_keepalive e : calm (send_keepalive e) (fun _ => True).
Proof.
  unfold send_keepalive. eapply calm_bind; [eapply calm_peers; [apply safe_random_fill|intros r Hr; exact Hr]|].
  intros es [Hes Hl]. by apply calm_send, keepalive_parses.
Qed.

Lemma calm_rebroadcast b : block_ok b -> calm (rebroadcast_reps b) (fun _ => True).
Proof.
  intros Hb. unfold rebroadcast_reps. eapply calm_bind; [by apply (calm_get _ (fun _ => True))|]. intros l _.
  apply calm_for_each. intros i _. by apply calm_send, publish_parses.
Qed.

Lemma vote_generate_well_formed a k b v r v' :
  fits 256 a -> block_ok b -> (forall h, fits 512 (sign_message k a h)) -> vote_generate a k b v = Ok (r, v') -> vote_ok r.
Proof.
  intros Ha Hb Hs. unfold vote_generate, st_bind, st_run, vote_cache_put, st_put, st_ret.
  destruct (vote_current v a); [|discriminate]. intros Hr. injection Hr as <- _.
  split_and!; [by apply wrap_fits|exact Hb|exact Ha|apply Hs].
Qed.

Lemma calm_generate k b : key_ok k -> block_ok b -> calm (on_active (on_votes (vote_generate (fst k) (snd k) b))) vote_ok.
Proof.
  intros [Hf Hs] Hb n Hn. destruct (active_now_ok n Hn) as [Ha _].
  destruct (vote_generate_run (fst k) (snd k) b _ (ao_votes _ _ Ha) Hf Hb Hs) as (v & v' & Hg & Hv' & _).
  destruct (does_active (on_votes (vote_generate (fst k) (snd k) b)) n _ vote_ok Hn (runs_votes _ _ v v' Ha Hg Hv'))
    as (r & n' & Hrun & Hn' & U & Hr & _).
  - apply works_votes. intros w r w'. by apply vote_generate_well_formed.
  - by exists r, n'.
Qed.

Lemma calm_confirm_block l b : block_ok b -> calm (confirm_block ws voting l b) (fun _ => True).
Proof.
  intros Hb. unfold confirm_block. destruct voting; [|by apply calm_ret].
  eapply calm_bind; [apply (calm_get _ (Forall key_ok)); intros n _; by apply representatives_ok|]. intros reps Hreps.
  eapply calm_bind; [|intros _ _; by apply calm_ret]. apply calm_for_each. intros k Hk.
  eapply calm_bind; [apply calm_generate; [exact (proj1 (Forall_forall _ _) Hreps k Hk)|exact Hb]|]. intros v Hv.
  destruct (confirm_ack_parses v Hv) as (bytes & Hser & Hparse).
  eapply calm_bind; [by apply (calm_run _ bytes deliverable)|]. intros bs Hbs. apply calm_for_each. intros e _. by apply calm_send.
Qed.

Lemma calm_list_sqrt : calm (on_peers list_sqrt) (fun _ => True).
Proof. eapply calm_peers; [apply safe_list_sqrt|done]. Qed.

Lemma calm_republish_block b : block_ok b -> calm (republish_block ws voting b) (fun _ => True).
Proof.
  intros Hb. unfold republish_block. eapply calm_bind; [by apply calm_rebroadcast|]. intros _ _.
  eapply calm_bind; [apply calm_list_sqrt|]. intros l _. eapply calm_bind; [by apply calm_confirm_block|]. intros c _.
  destruct (negb c); [|by apply calm_ret]. apply calm_for_each. intros e _. by apply calm_send, publish_parses.
Qed.

Lemma calm_send_vote v : vote_ok v -> calm (send_vote v) (fun _ => True).
Proof.
  intros Hv. unfold send_vote. destruct (confirm_ack_parses v Hv) as (bytes & Hser & Hparse).
  eapply calm_bind; [by apply (calm_run _ bytes deliverable)|]. intros bs Hbs. eapply calm_bind; [apply calm_list_sqrt|].
  intros l _. apply calm_for_each. intros e _. by apply calm_send.
Qed.

Lemma calm_broadcast_req b : block_ok b -> calm (broadcast_confirm_req b) (fun _ => True).
Proof.
  intros Hb. unfold broadcast_confirm_req. eapply calm_bind; [by apply (calm_get _ (fun _ => True))|]. intros l _.
  apply calm_for_each. intros i _. by apply calm_send, confirm_req_parses.
Qed.

(** *** The crawl for representatives *)

(** A change of a field the invariant does not speak about. *)
Lemma calm_field {A} (x : network_node -> A) (f : network_node -> network_node) :
  (forall n, nn_active (f n) = nn_active n /\ nn_unchecked (f n) = nn_unchecked n /\ nn_gaps (f n) = nn_gaps n
     /\ nn_peers (f n) = nn_peers n /\ nn_arrival (f n) = nn_arrival n /\ nn_queue (f n) = nn_queue n
     /\ nn_network (f n) = nn_network n) ->
  calm (fun n => Ok (x n, f n)) (fun _ => True).
Proof.
  intros Hf n Hn. destruct (Hf n) as (Ea & Eu & Eg & Ep & Er & Eq & Ew). exists (x n), (f n). split; [reflexivity|].
  unfold nn_store. split_and!; [|split|exact I].
  - destruct Hn. split; unfold nn_store; rewrite ?Ea, ?Eu, ?Eg, ?Ep, ?Er, ?Eq, ?Ew; done.
  - unfold nn_store. by rewrite Ea.
  - by rewrite Eq, app_nil_r.
  - by rewrite Ep.
  - by rewrite Ew.
  - by rewrite Ea.
  - exists []. by rewrite Ew, app_nil_r.
Qed.

Lemma calm_alarm t f : calm (alarm_add t f) (fun _ => True).
Proof. apply (calm_field (fun _ => tt)). by intros n. Qed.

Lemma good_store n : network_ok gb n -> good_ledger gb (nn_store n).
Proof. intros Hn. apply (nk_active _ _ Hn). Qed.

Definition some_block (r : option block) : Prop := exists b, r = Some b /\ block_ok b.

(** A block from a table that is not empty. *)
Lemma does_random_in n s ty (t : gmap Z entry) :
  network_ok gb n -> s = nn_store n -> (forall k e, t !! k = Some e -> lookup_in ty s k = Some e) -> (0 < size t)%nat ->
  does (block_random_in t) n [] (fun r _ => some_block r).
Proof.
  intros Hn -> Ht Hsize. unfold block_random_in. eapply calm_does; [by apply calm_field|exact Hn|].
  intros h n1 Hn1 U _. destruct (iterator_found Hgb (nn_store n) ty t h (good_store n Hn) Ht Hsize) as (k & e & b & -> & Hb).
  exists (Some b), n1. split_and!; [|exact Hn1|apply undisturbed_refl|].
  - unfold st_get. rewrite (un_store _ _ _ U). by rewrite Hb.
  - exists b. split; [done|]. exact (proj1 (stored_block_ok Hgb _ _ _ (good_store n Hn) Hb)).
Qed.

Lemma region_bound n : (0 < n)%nat -> (Z.to_nat (wrap 32 (Z.of_nat n - 1)) < n)%nat.
Proof. intros Hn. unfold wrap. pose proof (Z.mod_le (Z.of_nat n - 1) (2 ^ 32) ltac:(lia) ltac:(lia)). lia. Qed.

Lemma calm_block_random : calm block_random some_block.
Proof.
  intros n Hn. unfold block_random. change (@nil block_processor_item) with (@nil block_processor_item ++ []).
  eapply (does_bind _ _ _ _ _ (fun s n' => s = nn_store n /\ n' = n)).
  { exists (nn_store n), n. split_and!; [reflexivity|exact Hn|apply undisturbed_refl|done|done]. }
  intros s n0 _ _ [-> ->]. set (count := block_count_of (nn_store n)). pose proof (genesis_counted _ (good_store n Hn)) as Hpos.
  eapply calm_does; [eapply calm_peers; [apply safe_random|intros r Hr; exact Hr]|exact Hn|].
  intros region n1 Hn1 U Hr. pose proof (region_bound _ Hpos) as Hb. fold count in Hb.
  assert (Hregion : (region < block_counts_sum count)%nat) by (eapply Nat.le_lt_trans; [exact Hr|exact Hb]). clear Hb Hr. pose proof (un_store _ _ _ U) as Hs.
  unfold block_counts_sum in Hregion. unfold count in *. cbn [block_count_of count_send count_receive count_open count_change count_send_v2] in *.
  repeat match goal with |- context [(?a <? ?b)%nat] => destruct (Nat.ltb_spec a b) end.
  - apply (does_random_in _ (nn_store n) send); [exact Hn1|by rewrite Hs|intros k e Hk; exact Hk|lia].
  - apply (does_random_in _ (nn_store n) receive); [exact Hn1|by rewrite Hs|intros k e Hk; exact Hk|lia].
  - apply (does_random_in _ (nn_store n) open); [exact Hn1|by rewrite Hs|intros k e Hk; exact Hk|lia].
  - apply (does_random_in _ (nn_store n) change); [exact Hn1|by rewrite Hs|intros k e Hk; exact Hk|lia].
  - apply (does_random_in _ (nn_store n) send_v2); [exact Hn1|by rewrite Hs|intros k e Hk; exact Hk|lia].
Qed.

Lemma calm_rep_query l : calm (rep_query l) (fun _ => True).
Proof.
  unfold rep_query. eapply calm_bind; [apply calm_block_random|]. intros r (b & -> & Hb).
  eapply calm_bind; [apply (calm_field (fun _ => tt)); by intros n|]. intros _ _. eapply calm_bind.
  { apply calm_for_each. intros e _. eapply calm_bind; [by eapply calm_peers; [apply safe_rep_request|]|].
    intros _ _. by apply calm_send, confirm_req_parses. }
  intros _ _. eapply calm_bind; [apply calm_now|]. intros now _. apply calm_alarm.
Qed.

Lemma calm_observe_endpoint e : calm (observe_endpoint e) (fun _ => True).
Proof. eapply calm_bind; [apply calm_send_keepalive|]. intros _ _. apply calm_rep_query. Qed.

(** *** Receiving *)

Lemma calm_merge l : calm (merge_peers l) (fun _ => True).
Proof.
  apply calm_for_each. intros e _. eapply calm_bind; [by eapply calm_peers; [apply safe_reachout|]|]. intros k _.
  destruct (negb k); [apply calm_send_keepalive|by apply calm_ret].
Qed.

Lemma calm_arrivals {A} (m : M block_arrival A) :
  (forall b, arrivals_ok b -> exists r b', m b = Ok (r, b') /\ arrivals_ok b') -> calm (on_arrivals m) (fun _ => True).
Proof.
  intros Hm n Hn. assert (Hok : arrivals_ok (arrival_now n)) by (destruct (nk_arrival _ _ Hn); by split).
  destruct (Hm _ Hok) as (r & b' & Hrun & Hb'). eexists _, _. split; [unfold on_arrivals; rewrite Hrun; reflexivity|].
  split_and!; [|split|exact I]; cbn; try done.
  - destruct Hn. by split.
  - by rewrite app_nil_r.
  - exists []. by rewrite app_nil_r.
Qed.

Lemma does_queue i n : network_ok gb n -> block_ok (item_block i) -> does (queue_add i) n [i] (fun _ _ => True).
Proof.
  intros Hn Hb. eexists _, _. split; [reflexivity|]. split_and!; [|split|exact I]; cbn; try done.
  - destruct Hn. split; try done. cbn. apply Forall_app. split; [done|]. by constructor.
  - exists []. by rewrite app_nil_r.
Qed.

Lemma does_process_active b n : network_ok gb n -> block_ok b -> does (process_active b) n [Item b false] (fun _ _ => True).
Proof.
  intros Hn Hb. unfold process_active. eapply calm_does; [|exact Hn|intros _ n' Hn' _ _; by apply does_queue].
  apply calm_arrivals. intros a Ha. destruct (block_arrival_exact a (hash b) Ha) as [(b' & Hrun & Hb' & _) _]. by exists tt, b'.
Qed.

Lemma calm_gap_vote v : calm (on_gap_cache (gap_cache_vote inactive v)) (fun _ => True).
Proof.
  intros n Hn. destruct (gap_cache_vote_run Hin v (node_now n) (good_store n Hn) (nk_gaps _ _ Hn)) as (g & Hrun & _ & _ & Hg & _).
  eexists tt, _. split; [unfold on_gap_cache; rewrite Hrun; reflexivity|]. split_and!; [|split|exact I]; cbn; try done.
  - destruct Hn. by split.
  - by rewrite app_nil_r.
  - exists []. by rewrite app_nil_r.
Qed.

Lemma calm_observe_representative v e : calm (observe_representative v e) (fun _ => True).
Proof.
  unfold observe_representative. eapply calm_bind; [by apply (calm_get _ (fun _ => True))|]. intros [] _; [|by apply calm_ret].
  eapply calm_bind; [by apply (calm_get _ (fun _ => True))|]. intros w _.
  eapply calm_bind; [by eapply calm_peers; [apply safe_rep_response|]|]. intros _ _. by apply calm_ret.
Qed.

(** What [vote_validate] answers. *)
Definition answer_ok (v : vote) (r : vote_code * option vote) : Prop :=
  (fst r = vote_vote -> validate_message (v_account v) (vote_hash v) (v_signature v) = false)
  /\ (fst r = vote_replay -> exists w, snd r = Some w /\ vote_ok w /\ v_sequence v < v_sequence w).

Lemma calm_validate v : vote_ok v -> calm (on_active (on_votes (vote_validate v))) (answer_ok v).
Proof.
  intros Hv n Hn. destruct (active_now_ok n Hn) as [Ha _].
  destruct (vote_validate_result v _ (ao_votes _ _ Ha) Hv) as (c & r & v' & Hrun & Hv' & Hok).
  destruct (does_active _ n _ (fun _ => True) Hn (runs_votes _ _ (c, r) v' Ha Hrun Hv')) as (x & n' & Hx & Hn' & U & _ & a & -> & _).
  - by apply works_votes.
  - exists (c, r), n'. split_and!; [exact Hx|exact Hn'|exact U|exact Hok].
Qed.

Lemma calm_process_vote v e : vote_ok v -> calm (process_vote inactive v e) (answer_ok v).
Proof.
  intros Hv. unfold process_vote. eapply calm_bind; [by apply calm_validate|]. intros r Hr.
  eapply calm_bind; [|intros _ _; by apply calm_ret]. destruct r as [[] o]; cbn [fst]; [by apply (calm_ret tt (fun _ => True))..|].
  destruct Hr as [Hval _]. specialize (Hval eq_refl).
  eapply calm_bind; [|intros _ _; eapply calm_bind; [apply calm_gap_vote|intros _ _; apply calm_observe_representative]].
  apply (calm_active _ (fun n _ a' => roots a' = roots (active_now n))).
  - intros n Hn. apply runs_active_vote; [exact Hin|apply (active_now_ok n Hn)|exact Hv|exact Hval].
  - intros s. by apply works_active_vote.
Qed.

(** The items a message adds to the queue. *)
Definition carried (m : visit) : list block_processor_item :=
  match m with
  | Visit_keepalive _ => []
  | Visit_publish p => [Item (pb_block p) false]
  | Visit_confirm_req c => [Item (cr_block c) false]
  | Visit_confirm_ack c => [Item (v_block (ca_vote c)) false]
  end.

Lemma calm_count t : calm (on_network (count_incoming t)) (fun _ => True).
Proof. apply calm_counter. by intros []. Qed.

(** What the visitor does first with every message that carries a block. *)
Lemma does_greet {B} t sender version b (k : unit -> M network_node B) n post :
  network_ok gb n -> endpoint_ok sender -> block_ok b ->
  (forall n', network_ok gb n' -> does (k tt) n' [] post) ->
  does (st_bind (on_network (count_incoming t)) (fun _ =>
        st_bind (observed (contacted (V6 (address sender)) (port sender) version)) (fun _ =>
        st_bind (observed (peer_insert sender version)) (fun _ => st_bind (process_active b) k)))) n [Item b false] post.
Proof.
  intros Hn Hs Hb Hk. eapply calm_does; [apply calm_count|exact Hn|]. intros _ n1 Hn1 _ _.
  eapply calm_does; [apply calm_observed; [by apply safe_contacted|intros; apply calm_observe_endpoint]|exact Hn1|].
  intros _ n2 Hn2 _ _.
  eapply calm_does; [apply calm_observed; [by apply safe_insert|intros; apply calm_observe_endpoint]|exact Hn2|].
  intros _ n3 Hn3 _ _. change [Item b false] with ([Item b false] ++ []).
  eapply does_bind; [by apply does_process_active|]. intros [] n4 Hn4 _ _. by apply Hk.
Qed.

Lemma does_visit sender m n :
  network_ok gb n -> endpoint_ok sender -> visit_ok m ->
  does (visit_message ws inactive voting sender m) n (carried m) (fun _ _ => True).
Proof.
  intros Hn Hs Hm. destruct m as [k|p|c|c]; cbn [visit_message carried].
  - eapply calm_does; [apply calm_count|exact Hn|]. intros _ n1 Hn1 _ _.
    eapply calm_does; [apply calm_observed; [by apply safe_contacted|intros; apply calm_observe_endpoint]|exact Hn1|].
    intros _ n2 Hn2 _ _. by apply calm_merge.
  - destruct Hm as (_ & _ & _ & Hb). eapply calm_does; [apply calm_count|exact Hn|]. intros _ n1 Hn1 _ _.
    eapply calm_does; [apply calm_observed; [by apply safe_contacted|intros; apply calm_observe_endpoint]|exact Hn1|].
    intros _ n2 Hn2 _ _.
    eapply calm_does; [apply calm_observed; [by apply safe_insert|intros; apply calm_observe_endpoint]|exact Hn2|].
    intros _ n3 Hn3 _ _. by apply does_process_active.
  - destruct Hm as (_ & _ & _ & Hb). apply does_greet; [exact Hn|exact Hs|exact Hb|]. intros n' Hn'.
    eapply calm_does; [by apply (calm_get _ (fun _ => True))|exact Hn'|]. intros [] n2 Hn2 _ _; [|by apply calm_ret].
    eapply calm_does; [by apply calm_confirm_block|exact Hn2|]. intros _ n3 Hn3 _ _. by apply calm_ret.
  - destruct Hm as (_ & _ & _ & Hv). apply does_greet; [exact Hn|exact Hs|apply Hv|]. intros n' Hn'.
    eapply calm_does; [by apply calm_process_vote|exact Hn'|]. intros [code o] n2 Hn2 _ [_ Hr]. cbn [fst snd] in Hr.
    destruct code; [by apply calm_ret| |by apply calm_ret]. destruct (Hr eq_refl) as (w & -> & Hw & Hseq).
    rewrite (proj2 (Z.ltb_lt _ _) Hseq). eapply calm_does; [by apply (calm_ret tt (fun _ => True))|exact Hn2|].
    intros _ n3 Hn3 _ _. destruct (_ <? _); [|by apply calm_ret].
    destruct (confirm_ack_parses w Hw) as (bytes & Hser & Hparse).
    eapply calm_does; [by apply (calm_run _ bytes deliverable)|exact Hn3|]. intros bs n4 Hn4 _ Hbs. by apply calm_send.
Qed.

(** Whether the node looks into a packet of this sender. *)
Definition admitted (remote : endpoint) (n : network_node) : bool :=
  negb (reserved_address remote) && negb (bool_decide (remote = self (nn_peers n))).

(** The items a packet adds to the queue. *)
Definition packet_items (buffer : list byte) : list block_processor_item :=
  match deserialize_buffer buffer message_parser_new with Ok (_, Some m) => carried m | _ => [] end.

Lemma does_get {A B} (f : network_node -> A) (k : A -> M network_node B) n q post :
  does (k (f n)) n q post -> does (st_bind (st_get f) k) n q post.
Proof. exact id. Qed.

(** What comes after adding to the queue. *)
Lemma does_then {A B} (m : M network_node A) (k : A -> M network_node B) n q post :
  does m n q (fun _ _ => True) -> (forall r n', network_ok gb n' -> does (k r) n' [] post) -> does (st_bind m k) n q post.
Proof. intros Hm Hk. rewrite <- (app_nil_r q). eapply does_bind; [exact Hm|]. intros r n' Hn' _ _. by apply Hk. Qed.

Lemma calm_flag b : calm (on_network (set_receiving b)) (fun _ => True).
Proof. apply calm_counter. by intros []. Qed.

Lemma does_receive_packet remote buffer n :
  network_ok gb n -> endpoint_ok remote -> parses buffer ->
  does (receive_packet ws inactive voting remote buffer) n (if admitted remote n then packet_items buffer else []) (fun _ _ => True).
Proof.
  intros Hn Hr Hp. unfold receive_packet, admitted, packet_items. apply does_get.
  destruct (negb (reserved_address remote) && _); [|apply calm_counter; [by intros []|exact Hn]].
  destruct (Hp message_parser_new) as [[p' v] Hparse].
  eapply calm_does; [apply (calm_run _ (p', v) (fun x => x = (p', v))); [by intros|done]|exact Hn|].
  intros x n1 Hn1 _ ->. cbn [fst snd]. rewrite Hparse. apply does_then.
  - destruct v as [v|]; [|by apply calm_ret]. apply does_visit; [exact Hn1|exact Hr|]. by apply parser_reads in Hparse as (? & _).
  - intros _ n2 Hn2. destruct (parser_error p'); [apply calm_counter; [by intros []|exact Hn2]|].
    destruct (insufficient_work p'); [apply calm_counter; [by intros []|exact Hn2]|by apply calm_ret].
Qed.

Lemma does_receive error remote buffer n :
  network_ok gb n -> endpoint_ok remote -> parses buffer ->
  does (network_receive_action ws inactive voting error remote buffer) n
    (if negb error && on (nn_network n) && admitted remote n then packet_items buffer else []) (fun _ _ => True).
Proof.
  intros Hn Hr Hp. unfold network_receive_action. eapply calm_does; [apply calm_flag|exact Hn|]. intros _ n1 Hn1 U _. apply does_get.
  rewrite (un_on _ _ _ U). unfold admitted. rewrite <- (un_self _ _ _ U).
  destruct (negb error && on (nn_network n)); cbn [andb].
  - apply does_then; [by apply does_receive_packet|]. intros _ n2 Hn2. by apply calm_flag.
  - destruct (on (nn_network n)); [|by apply calm_ret]. eapply calm_bind; [apply calm_now| |exact Hn1]. intros now _. apply calm_alarm.
Qed.

(** *** Timers and tasks *)

Lemma calm_keepalive_idle l : calm (keepalive_idle l) (fun _ => True).
Proof.
  induction l as [|i l IH]; cbn [keepalive_idle]; [by apply calm_ret|]. eapply calm_bind; [apply calm_now|]. intros now _.
  destruct (_ <? _); [|by apply calm_ret]. eapply calm_bind; [apply calm_send_keepalive|]. intros _ _. exact IH.
Qed.

Lemma calm_ongoing_keepalive : calm ongoing_keepalive (fun _ => True).
Proof.
  unfold ongoing_keepalive. eapply calm_bind; [apply calm_now|]. intros now _.
  eapply calm_bind; [apply calm_observed; [apply safe_purge|intros; apply calm_observe_endpoint]|]. intros l _.
  eapply calm_bind; [apply calm_keepalive_idle|]. intros _ _. eapply calm_bind; [apply calm_now|]. intros t _. apply calm_alarm.
Qed.

Lemma calm_ongoing_rep_crawl : calm ongoing_rep_crawl (fun _ => True).
Proof.
  unfold ongoing_rep_crawl. eapply calm_bind; [apply calm_now|]. intros now _.
  eapply calm_bind; [by apply (calm_get _ (fun _ => True))|]. intros l _. eapply calm_bind; [apply calm_rep_query|]. intros _ _.
  eapply calm_bind; [by apply (calm_get _ (fun _ => True))|]. intros [] _; [apply calm_alarm|by apply calm_ret].
Qed.

Lemma calm_ongoing_store_flush : calm ongoing_store_flush (fun _ => True).
Proof.
  unfold ongoing_store_flush. eapply (calm_bind _ _ (fun _ => True)).
  - intros n Hn. eexists _, _. split; [reflexivity|]. split_and!; [|split|exact I]; cbn; try done.
    + destruct Hn as [Ha Hw Hu]. split; try done.
      * destruct Ha as [A1 A2 A3 A4 A5 A6 A7 A8]. split; try done. cbn. exact (proj2 (flush_keeps_votes _ 0 A2)).
      * destruct Hw. by split.
      * by apply flush_unchecked_ok.
    + by rewrite app_nil_r.
    + split; [|done]. intros e i Hi. exists i. split; [exact Hi|apply election_evolves_refl].
    + exists []. by rewrite app_nil_r.
  - intros _ _. eapply calm_bind; [apply calm_now|]. intros now _. apply calm_alarm.
Qed.

Lemma calm_call f : calm (call f) (fun _ => True).
Proof.
  destruct f; cbn [call].
  - apply calm_flag.
  - apply (calm_field (fun _ => tt)). by intros n.
  - apply calm_ongoing_keepalive.
  - apply calm_ongoing_rep_crawl.
  - apply calm_ongoing_store_flush.
Qed.

Lemma calm_alarm_run : calm alarm_run (fun _ => True).
Proof.
  unfold alarm_run. eapply calm_bind; [by apply (calm_get _ (fun _ => True))|]. intros [o|] _; [|by apply calm_ret].
  eapply calm_bind; [apply calm_now|]. intros now _. destruct (_ <=? _); [|by apply calm_ret].
  eapply calm_bind; [apply (calm_field (fun _ => tt)); by intros n|]. intros _ _. apply calm_call.
Qed.

(** What the next task adds to the queue: a block that won an election. *)
Definition forced (n : network_node) : list block_processor_item :=
  match tasks (nn_active n) !! nn_ran n with Some (Force_block b) => [Item b true] | _ => [] end.

Lemma does_next_task n : network_ok gb n -> does (run_next_task ws voting) n (forced n) (fun _ _ => True).
Proof.
  intros Hn. unfold run_next_task, forced. apply does_get.
  destruct (tasks (nn_active n) !! nn_ran n) as [t|] eqn:Ht; [|by apply calm_ret].
  assert (Hin_t : t ∈ tasks (nn_active n)) by (by eapply list_elem_of_lookup_2).
  pose proof (proj1 (Forall_forall _ _) (wo_tasks _ _ (nk_work _ _ Hn)) t Hin_t) as Htok.
  set (n1 := set_counts (nn_readings n) (nn_hashes n) (S (nn_ran n)) n).
  assert (Hn1 : network_ok gb n1) by (destruct Hn; by split).
  assert (U1 : undisturbed [] n n1) by (split; [done|cbn; by rewrite app_nil_r|done|done|reflexivity|exists []; cbn; by rewrite app_nil_r]).
  enough (Hrun : does (run_task ws voting t) n1 (match t with Force_block b => [Item b true] | _ => [] end) (fun _ _ => True)).
  { destruct Hrun as (r & n2 & He & Hn2 & U2 & _). exists r, n2. split_and!; [exact He|exact Hn2| |exact I].
    assert (Heq : match Some t with Some (Force_block b) => [Item b true] | _ => [] end
      = [] ++ match t with Force_block b => [Item b true] | _ => [] end) by (by destruct t).
    rewrite Heq. by eapply undisturbed_trans. }
  destruct t; cbn [run_task task_ok] in *.
  - destruct (does_active (broadcast_winner ws e) n1 (fun _ _ => True) (fun _ => True) Hn1) as (r & n2 & ? & ? & ? & _).
    + eapply runs_weaken; [|done]. apply runs_broadcast; [exact Hws|apply (active_now_ok n1 Hn1)|].
      exact (ao_broadcast _ _ (nk_active _ _ Hn) e Hin_t).
    + apply works_broadcast.
    + by exists r, n2.
  - by apply does_queue.
  - by apply calm_ret.
  - by apply calm_send_vote.
  - by apply calm_republish_block.
  - by apply calm_ret.
  - by apply calm_ret.
Qed.

Lemma calm_announce : calm (on_active (announce_votes inactive)) (fun _ => True).
Proof.
  apply (calm_active _ (fun _ _ _ => True)); [|intros s; apply works_announce]. intros n Hn.
  eapply runs_weaken; [apply runs_announce; [exact Hin|apply (active_now_ok n Hn)]|done].
Qed.

(** An election for a block of the ledger. *)
Lemma does_start b act n :
  network_ok gb n -> block_exists (nn_store n) (hash b) = true -> block_ok b ->
  does (on_active (active_start ws b act)) n [] (fun _ _ => True).
Proof.
  intros Hn Hex Hb. destruct (does_active (active_start ws b act) n (fun _ _ => True) (fun _ => True) Hn) as (r & n' & ? & ? & ? & _).
  - eapply runs_weaken; [apply runs_start; [exact Hws|apply (active_now_ok n Hn)|exact Hex|exact Hb]|done].
  - by apply works_start.
  - by exists r, n'.
Qed.

Lemma does_observe_block b n :
  network_ok gb n -> block_exists (nn_store n) (hash b) = true -> block_ok b ->
  does (observe_block ws b) n [] (fun _ _ => True).
Proof.
  intros Hn Hex Hb. unfold observe_block. eapply calm_does; [|exact Hn|].
  - apply calm_arrivals. intros a Ha. destruct (block_arrival_exact a (hash b) Ha) as [_ (r & b' & Hrun & Hb' & _)]. by exists r, b'.
  - intros [] n1 Hn1 U _; [|by apply calm_ret]. apply does_then; [apply does_start; [exact Hn1|by rewrite (un_store _ _ _ U)|exact Hb]|].
    intros _ n2 Hn2. by apply calm_ret.
Qed.

Lemma does_process_fork b n :
  network_ok gb n -> block_ok b -> (exists r s', process b (nn_store n) = Ok (r, s') /\ code r = fork) ->
  does (process_fork ws b) n [] (fun _ _ => True).
Proof.
  intros Hn Hb (r & s' & Hp & Hc). destruct (forked_block_found Hgb _ b r s' (good_store n Hn) Hp Hc) as (fb & Hf & Hget).
  destruct (stored_block_ok Hgb _ _ _ (good_store n Hn) Hget) as [Hfb _]. unfold process_fork.
  change (@nil block_processor_item) with (@nil block_processor_item ++ []).
  eapply (does_bind _ _ _ _ _ (fun x n' => x = fb /\ n' = n)).
  { exists fb, n. split_and!; [unfold st_run; by rewrite Hf|exact Hn|apply undisturbed_refl|done|done]. }
  intros x n0 _ _ [-> ->]. apply does_then; [apply does_start; [exact Hn| |exact Hfb]|].
  - apply block_exists_true. apply get_entry in Hget as (m & Hm). by eexists.
  - intros existing n1 Hn1. destruct (negb existing); [|by apply calm_ret].
    eapply calm_bind; [by apply calm_broadcast_req| |exact Hn1]. intros _ _. by apply calm_broadcast_req.
Qed.

Lemma calm_node_start : calm (node_start inactive) (fun _ => True).
Proof.
  unfold node_start. eapply calm_bind; [apply calm_flag|]. intros _ _. eapply calm_bind; [apply calm_ongoing_keepalive|].
  intros _ _. eapply calm_bind; [apply calm_ongoing_store_flush|]. intros _ _.
  eapply calm_bind; [apply calm_ongoing_rep_crawl|]. intros _ _. apply calm_announce.
Qed.
End Node.
