(* ===== verification/NodeNetworkRuns.v ===== *)
(** * Networks of nodes

    Everything that can happen to a node is an event, and a network is a family of
    nodes between which packets travel: each of them may be lost, delivered late,
    delivered again, or come from somewhere else. *)
From Stdlib Require Import ZArith Lia List.
From stdpp Require Import prelude list gmap.
From S2P Require Import Prelude Lists Numbers Streams Blocks Store Ledger StoreFacts LedgerInv LedgerQueries LedgerProcess LedgerTheorems LedgerSub Votes Work Messages Unchecked Processor Elections ElectionTheorems Peers BootstrapServer NodeNetwork NodeNetworkFacts NodeNetworkTheorems.

Local Open Scope m_scope.

#[local] Opaque work_validate_block.

(** What happens to a node.  [Blocks_processed]: the block processor took its queue
    and left the ledger, the unchecked blocks and the gap cache as given. *)
Inductive network_event :=
| Packet_arrives (error : bool) (remote : endpoint) (buffer : list byte)
| Address_resolved (l : list (any_address * Z))
| Alarm_turn
| Task_turn
| Block_accepted (b : block)
| Fork_processed (b : block)
| Votes_announced
| Node_stopped
| Blocks_processed (s : store) (u : unchecked_store) (g : list gap_information).

(** A node as its constructor leaves it, on a ledger. *)
Definition network_node_new (self_a : endpoint) (s : store) (v : vote_store) (u : unchecked_store) : network_node :=
  NetworkNode (new_active s v 0) u [] [] (peer_container_new self_a) (BlockArrival [] 0) [] ∅ network_new [] 0 0 0.

Definition replace_ledger (s : store) (u : unchecked_store) (g : list gap_information) (n : network_node) : network_node :=
  let a := nn_active n in
  set_queue [] (set_unchecked u (set_gaps g (nn_events n)
    (set_active (Active s (at_votes a) (heap a) (heap_next a) (roots a) (at_readings a) (tasks a)) n))).

Section Events.
Context `{Environment, Signing, NodeEnvironment, Network, Iteration, PeerEnvironment, CrawlEnvironment}.
Context (ws : list wallet) (inactive : Z) (voting : bool).

Definition handle (e : network_event) : M network_node unit :=
  match e with
  | Packet_arrives error remote buffer => network_receive_action ws inactive voting error remote buffer
  | Address_resolved l => keepalive_resolved l
  | Alarm_turn => alarm_run
  | Task_turn => run_next_task ws voting
  | Block_accepted b => observe_block ws b
  | Fork_processed b => process_fork ws b
  | Votes_announced => on_active (announce_votes inactive)
  | Node_stopped => node_stop
  | Blocks_processed s u g => fun n => Ok (tt, replace_ledger s u g n)
  end.
End Events.

(** When an event can happen: a packet that does not stop the parser, a block the
    ledger has, a block it calls a fork, a ledger that processing can lead to. *)
Definition enabled `{Environment, Network} (gb : open_block) (e : network_event) (n : network_node) : Prop :=
  match e with
  | Packet_arrives _ remote buffer => endpoint_ok remote /\ parses buffer
  | Block_accepted b => block_exists (nn_store n) (hash b) = true /\ block_ok b
  | Fork_processed b => block_ok b /\ exists r s', process b (nn_store n) = Ok (r, s') /\ code r = fork
  | Blocks_processed s u g => good_ledger gb s /\ unchecked_ok u /\ Forall gap_votes_ok g
  | _ => True
  end.

Section Proofs.
Context `{Environment, Signing, NodeEnvironment, Network, Iteration, PeerEnvironment, CrawlEnvironment}.
Context {gb : open_block} {ws : list wallet} {inactive : Z} {voting : bool}.
Context (Hgb : block_ok (Open gb)) (Hws : wallets_ok ws) (Hin : fits 128 inactive).

Lemma replace_ledger_ok s u g n :
  network_ok gb n -> good_ledger gb s -> unchecked_ok u -> Forall gap_votes_ok g -> network_ok gb (replace_ledger s u g n).
Proof.
  intros [Ha Hw Hu Hg Hp He Hr Hq Hs] Hled Hu' Hg'. split; try done; cbn.
  - destruct Ha. by split.
  - destruct Hw. by split.
Qed.

Lemma node_stop_ok n : network_ok gb n -> exists n', node_stop n = Ok (tt, n') /\ network_ok gb n'.
Proof.
  intros Hn. unfold node_stop. destruct (does_active active_stop n (fun _ _ => True) (fun _ => True) Hn) as ([] & n1 & Hrun & Hn1 & _).
  - eapply runs_weaken; [|done]. apply runs_set_roots; [apply (active_now_ok n Hn)|constructor|].
    by intros c ?%not_elem_of_nil.
  - apply works_set_roots.
  - rewrite (st_bind_ok _ _ _ _ _ Hrun). eexists. split; [reflexivity|]. destruct Hn1. by split.
Qed.

(** Every event that can happen is handled. *)
Lemma handle_ok e n :
  network_ok gb n -> enabled gb e n -> exists n', handle ws inactive voting e n = Ok (tt, n') /\ network_ok gb n'.
Proof.
  intros Hn He. assert (Hdone : forall (m : M network_node unit) q, does (gb := gb) m n q (fun _ _ => True) ->
    exists n', m n = Ok (tt, n') /\ network_ok gb n') by (intros m q ([] & n' & ? & ? & _); by exists n').
  destruct e as [error remote buffer|l| | |b|b| | |s u g]; cbn [handle enabled] in *.
  - destruct He. eapply Hdone. by apply does_receive.
  - eapply Hdone. apply calm_for_each; [|exact Hn]. intros x _. apply calm_send_keepalive.
  - eapply Hdone. by apply calm_alarm_run.
  - eapply Hdone. by apply does_next_task.
  - destruct He. eapply Hdone. by apply does_observe_block.
  - destruct He. eapply Hdone. by apply does_process_fork.
  - eapply Hdone. by apply calm_announce.
  - by apply node_stop_ok.
  - destruct He as (? & ? & ?). eexists. split; [reflexivity|by apply replace_ledger_ok].
Qed.

Lemma network_node_new_ok self_a s v u :
  good_ledger gb s -> vote_store_ok v -> unchecked_ok u -> network_ok gb (network_node_new self_a s v u).
Proof.
  intros Hs Hv Hu. split; cbn [network_node_new nn_active nn_unchecked nn_gaps nn_peers nn_arrival nn_queue nn_network].
  - by apply new_active_ok.
  - split; [done| |constructor]. intros e i. cbn. by rewrite lookup_empty.
  - exact Hu.
  - constructor.
  - split; cbn; [constructor|intros i Hi; by apply not_elem_of_nil in Hi|constructor].
  - constructor.
  - split; constructor.
  - constructor.
  - constructor.
Qed.

(** C8: what a packet does to a node.  A well-formed node that receives a packet
    the parser survives handles it without failing an assertion and stays well
    formed, and its ledger is as it was.  The queue of the block processor gets
    longer by one block, not forced, exactly when the socket reports no error, the
    node is not stopped, the sender is neither reserved nor the node itself, and
    the packet is, byte for byte, a publish, confirm_req or confirm_ack with this
    block, whose work is sufficient; and otherwise it stays as it is. *)
Theorem packet_handled (n : network_node) (error : bool) (remote : endpoint) (buffer : list byte) :
  network_ok gb n -> endpoint_ok remote -> parses buffer ->
  exists n' q, network_receive_action ws inactive voting error remote buffer n = Ok (tt, n') /\ network_ok gb n'
  /\ nn_store n' = nn_store n /\ nn_queue n' = nn_queue n ++ q
  /\ (q = [] \/ exists b, q = [Item b false])
  /\ forall b, q = [Item b false] <->
     error = false /\ on (nn_network n) = true /\ admitted remote n = true
     /\ exists m, visit_ok m /\ visit_serialize m = Ok buffer /\ visit_worked m = true /\ carried m = [Item b false].
Proof.
  intros Hn Hr Hp. destruct (does_receive Hgb Hws Hin (voting := voting) error remote buffer n Hn Hr Hp)
    as ([] & n' & Hrun & Hn' & [Us Uq _ _ _ _] & _).
  eexists n', _. split; [exact Hrun|]. split; [exact Hn'|]. split; [exact Us|]. split; [exact Uq|]. clear Uq.
  assert (Hitems : (packet_items buffer = [] \/ exists b, packet_items buffer = [Item b false])
    /\ forall b, packet_items buffer = [Item b false] <->
      exists m, visit_ok m /\ visit_serialize m = Ok buffer /\ visit_worked m = true /\ carried m = [Item b false]).
  { unfold packet_items. destruct (deserialize_buffer buffer message_parser_new) as [[p' [m|]]|] eqn:Hd; split.
    - destruct m; [by left|right; by eexists..].
    - intros b. split; [intros Hc; exists m; apply parser_reads in Hd as (? & ? & ? & _); done|].
      intros (m' & H1' & H2' & H3' & H4'). rewrite (parser_accepts m' buffer message_parser_new H1' H2' H3') in Hd.
      injection Hd as _ <-. exact H4'.
    - by left.
    - intros b. split; [done|]. intros (m' & H1' & H2' & H3' & H4').
      rewrite (parser_accepts m' buffer message_parser_new H1' H2' H3') in Hd. discriminate Hd.
    - by left.
    - intros b. split; [done|]. intros (m' & H1' & H2' & H3' & H4').
      rewrite (parser_accepts m' buffer message_parser_new H1' H2' H3') in Hd. discriminate Hd. }
  destruct Hitems as [Hsome Hex]. destruct error, (on (nn_network n)), (admitted remote n); cbn [negb andb];
    (split; [first [exact Hsome|by left]|intros b; first [rewrite Hex; tauto|split; [discriminate|intros (? & ? & ? & _); discriminate]]]).
Qed.

End Proofs.

(** ** Networks *)

(** The configuration and the surroundings of a node. *)
Record setting `{Signing, Network} := Setting {
  set_address : endpoint;
  set_wallets : list wallet;
  set_voting : bool;
  set_environment : NodeEnvironment;
  set_iteration : Iteration;
  set_peers_env : PeerEnvironment;
  set_crawl : CrawlEnvironment
}.

Definition setting_ok `{Signing, Network} (c : setting) : Prop := endpoint_ok (set_address c) /\ wallets_ok (set_wallets c).

Section Networks.
Context `{Environment, Signing, Network} (gb : open_block) (inactive : Z) (settings : nat -> setting).

Definition handle_at (i : nat) : network_event -> M network_node unit :=
  let c := settings i in
  handle (H1 := set_environment c) (H3 := set_iteration c) (H4 := set_peers_env c) (H5 := set_crawl c)
    (set_wallets c) inactive (set_voting c).

(** Node [j] handles an event that can happen. *)
Inductive network_step (net : gmap nat network_node) : gmap nat network_node -> Prop :=
| step_delivers i j ni nj bytes nj' :
    net !! i = Some ni -> net !! j = Some nj -> (set_address (settings j), bytes) ∈ sent (nn_network ni) ->
    handle_at j (Packet_arrives false (set_address (settings i)) (take buffer_size bytes)) nj = Ok (tt, nj') ->
    network_step net (<[j := nj']> net)
| step_happens j nj e nj' :
    net !! j = Some nj -> enabled gb e nj -> handle_at j e nj = Ok (tt, nj') -> network_step net (<[j := nj']> net).

(** The networks that grow out of new nodes with ledgers of their own. *)
Inductive network_reaches : gmap nat network_node -> Prop :=
| reaches_new net :
    (forall i n, net !! i = Some n -> exists self_a s v u, n = network_node_new self_a s v u
       /\ good_ledger gb s /\ vote_store_ok v /\ unchecked_ok u) -> network_reaches net
| reaches_step net net' : network_reaches net -> network_step net net' -> network_reaches net'.

Context (Hgb : block_ok (Open gb)) (Hin : fits 128 inactive) (Hset : forall i, setting_ok (settings i)).

Lemma handle_at_ok j e n :
  network_ok gb n -> enabled gb e n -> exists n', handle_at j e n = Ok (tt, n') /\ network_ok gb n'.
Proof. intros Hn He. unfold handle_at. apply handle_ok; [exact Hgb|apply Hset|exact Hin|exact Hn|exact He]. Qed.

Lemma network_reaches_ok net : network_reaches net -> forall i n, net !! i = Some n -> network_ok gb n.
Proof.
  induction 1 as [net Hnew|net net' _ IH Hstep]; intros k n Hk.
  - destruct (Hnew k n Hk) as (self_a & s & v & u & -> & Hs & Hv & Hu). by apply network_node_new_ok.
  - assert (Hhandled : forall j nj e nj', net !! j = Some nj -> enabled gb e nj -> handle_at j e nj = Ok (tt, nj') -> network_ok gb nj').
    { intros j nj e nj' Hj He Hrun. destruct (handle_at_ok j e nj (IH _ _ Hj) He) as (n1 & Hrun1 & Hn1).
      rewrite Hrun in Hrun1. injection Hrun1 as <-. exact Hn1. }
    destruct Hstep as [i j ni nj bytes nj' Hi Hj Hsent Hrun|j nj e nj' Hj He Hrun];
      rewrite lookup_insert in Hk; case_decide; [injection Hk as <-|by eapply IH|injection Hk as <-|by eapply IH].
    + eapply Hhandled; [exact Hj| |exact Hrun]. split; [apply Hset|].
      exact (proj1 (Forall_forall _ _) (nk_sent _ _ (IH _ _ Hi)) _ Hsent).
    + by eapply Hhandled.
Qed.

End Networks.
