(* ===== verification/NodeNetworkExamples.v ===== *)
(** * Two nodes and their packets

    Two new nodes on the small ledger: one of them learns the address of the other
    and sends it a keepalive, a publish message comes in; and a block that is
    observed after it was rolled back. *)
From Stdlib Require Import ZArith Lia List Sorted.
From stdpp Require Import prelude list gmap sorting.
From S2P Require Import Prelude Lists Numbers Streams Blocks Store Ledger StoreFacts LedgerInv LedgerQueries LedgerProcess LedgerRollback LedgerTheorems LedgerExamples Votes VotesExamples Work Messages Unchecked Processor Elections ElectionTheorems ProcessorExamples Peers NodeNetwork NodeNetworkFacts NodeNetworkTheorems NodeNetworkRuns.

#[local] Existing Instance in_order.
#[local] Existing Instance sample_node.

(** ** Surroundings *)

Definition by_key (key : peer_information -> Z) (x y : peer_information) : Prop := key x <= key y.
#[local] Instance by_key_dec key : RelDecision (by_key key).
Proof. intros x y. unfold by_key. apply _. Defined.
#[local] Instance by_key_total key : Total (by_key key).
Proof. intros x y. unfold by_key. lia. Qed.
#[local] Instance by_key_trans key : Transitive (by_key key).
Proof. intros x y z. unfold by_key. lia. Qed.

#[local] Instance sorted_peers : PeerEnvironment.
Proof.
  refine {| index_order key l := merge_sort (by_key key) l; peer_hash_order l := l; set_order l := l; shuffle l := l;
            random_word i n := (i mod S n)%nat |}.
  - intros key l. apply merge_sort_Permutation.
  - intros key l. apply (StronglySorted_merge_sort (by_key key)).
  - done.
  - done.
  - done.
  - intros i n. pose proof (Nat.mod_upper_bound i (S n) ltac:(lia)). lia.
Defined.

Definition earlier (o : operation) (top : option operation) : option operation :=
  match top with None => Some o | Some x => if wakeup o <=? wakeup x then Some o else Some x end.

Lemma earliest_top l :
  match foldr earlier None l with
  | None => l = []
  | Some o => o ∈ l /\ forall o', o' ∈ l -> wakeup o <= wakeup o'
  end.
Proof.
  induction l as [|x l IH]; [done|]. cbn [foldr]. destruct (foldr earlier None l) as [o|]; cbn [earlier].
  - destruct IH as [Hin Hle]. destruct (Z.leb_spec (wakeup x) (wakeup o)).
    + split; [by left|]. intros o' [->|Ho']%elem_of_cons; [lia|]. specialize (Hle o' Ho'). lia.
    + split; [by right|]. intros o' [->|Ho']%elem_of_cons; [lia|]. by apply Hle.
  - subst l. split; [by left|]. intros o' ->%list_elem_of_singleton. lia.
Qed.

#[local] Instance first_alarm : CrawlEnvironment.
Proof.
  refine {| random_hash i := Z.of_nat i; heap_top l := foldr earlier None l |}; intros l; pose proof (earliest_top l) as Ht.
  - intros o Ho. by rewrite Ho in Ht.
  - intros Ho. by rewrite Ho in Ht.
Defined.

(** ** Two nodes *)

Definition address_of (i : nat) : endpoint := Endpoint (v4_mapped (0x0a000001 + Z.of_nat (i mod 2))) 7075.
Definition two_settings (i : nat) : setting := Setting _ _ (address_of i) [] true sample_node insertion_order sorted_peers first_alarm.

Definition fresh (i : nat) : network_node := network_node_new (address_of i) ledger_4 votes_seen unchecked_empty.

Lemma address_ok i : endpoint_ok (address_of i).
Proof.
  unfold address_of. pose proof (Nat.mod_upper_bound i 2 ltac:(lia)).
  assert (i mod 2 = 0 \/ i mod 2 = 1)%nat as [-> | ->] by lia; unfold endpoint_ok, fits; vm_compute; split; split; congruence.
Qed.

Lemma two_settings_ok i : setting_ok (two_settings i).
Proof. split; [apply address_ok|exact no_wallets_ok]. Qed.

Lemma genesis_block_ok : block_ok (Open live_genesis).
Proof. refine (bool_decide_unpack _ _). vm_compute. exact I. Qed.

Lemma no_unchecked_ok : unchecked_ok unchecked_empty.
Proof. split; intros h b Hin; by apply not_elem_of_nil in Hin. Qed.

Lemma fresh_ok i : network_ok live_genesis (fresh i).
Proof. apply network_node_new_ok; [exact good_ledger_4|exact votes_seen_ok|exact no_unchecked_ok]. Qed.

Definition two_nodes : gmap nat network_node := {[ 0%nat := fresh 0; 1%nat := fresh 1 ]}.

Lemma two_nodes_reached : network_reaches live_genesis 0 two_settings two_nodes.
Proof.
  apply reaches_new. intros i n Hi. exists (address_of i), ledger_4, votes_seen, unchecked_empty.
  split_and!; [|exact good_ledger_4|exact votes_seen_ok|exact no_unchecked_ok].
  unfold two_nodes in Hi. apply lookup_insert_Some in Hi as [[<- <-]|[_ Hi]]; [reflexivity|].
  by apply lookup_singleton_Some in Hi as [<- <-].
Qed.

(** The first node sends a keepalive, and the second one handles it. *)
Definition introduce : network_event := Address_resolved [(V4 0x0a000002, 7075)].
Definition keepalive_bytes : list byte := keepalive_serialize (Keepalive (message_new mt_keepalive) (repeat (Endpoint 0 0) 8)).
Definition introduced : network_node :=
  set_readings 0 (set_network (NetworkState message_statistics_new (MessageStatistics 1 0 0 0) true 0 0 0 false
    [(address_of 1, keepalive_bytes)]) (fresh 0)).

Lemma introduced_made : handle_at 0 two_settings 0 introduce (fresh 0) = Ok (tt, introduced).
Proof. vm_compute. reflexivity. Qed.


(** ** A publish message *)

Lemma worked_publish_ok : visit_ok (Visit_publish (publish_new worked_block)) /\ visit_worked (Visit_publish (publish_new worked_block)) = true.
Proof.
  split; [split_and!; [apply new_message_ok|done|apply block_type_set_get|exact worked_block_ok]|].
  cbn [visit_worked publish_new pb_block]. by rewrite worked_block_validates.
Qed.

Lemma publish_deliverable : parses (publish_serialize (publish_new worked_block)).
Proof.
  intros p. eexists. by apply (parser_accepts (Visit_publish (publish_new worked_block))); [apply worked_publish_ok| |apply worked_publish_ok].
Qed.

Lemma packet_handled_witness :
  exists n', network_receive_action [] 0 true false (address_of 0) (publish_serialize (publish_new worked_block)) (fresh 1) = Ok (tt, n')
  /\ nn_queue n' = [Item worked_block false].
Proof.
  destruct (packet_handled (voting := true) genesis_block_ok no_wallets_ok no_inactive_supply (fresh 1) false (address_of 0)
    (publish_serialize (publish_new worked_block)) (fresh_ok 1) (address_ok 0) publish_deliverable)
    as (n' & q & Hrun & _ & _ & Hq & _ & Hex).
  exists n'. split; [exact Hrun|]. rewrite Hq. apply (proj2 (Hex worked_block)). split_and!; [reflexivity|reflexivity|reflexivity|].
  exists (Visit_publish (publish_new worked_block)). destruct worked_publish_ok as [Hv Hw].
  split_and!; [exact Hv|reflexivity|exact Hw|reflexivity].
Defined.

(** ** A block that is gone when it is observed *)

(** A clock by which a transaction takes several blocks. *)
#[local] Instance quick_clock : NodeEnvironment := {|
  steady_clock i := Z.of_nat i;
  not_an_account := 1;
  bootstrap_fraction_numerator := 1;
  hash_order l := l;
  hash_order_perm l := Permutation_refl l
|}.

(** [send_3] follows [send_1]; in the same transaction [fork_1] takes the place of
    [send_1] by force. *)
Definition node_2 : node := Node ledger_2 unchecked_empty [] 0 [].
Definition both_items : list block_processor_item := [Item (Send send_3) false; Item (Send fork_1) true].

Definition ledger_after_both : store := Eval vm_compute in
  match process_transaction 5 both_items node_2 with Ok (_, n) => n_store n | Fault _ => ledger_2 end.

(** Both blocks are reported as accepted, and only the second one is there. *)
Lemma both_reported :
  match process_transaction 5 both_items node_2 with
  | Ok (rest, n) => rest = [] /\ n_store n = ledger_after_both
      /\ omap (fun e => match e with Blocks_observed b _ _ => Some b | _ => None end) (n_events n) = [Send send_3; Send fork_1]
      /\ block_exists (n_store n) send_3_hash = false
  | Fault _ => False
  end.
Proof. vm_compute. split_and!; reflexivity. Qed.

(** The node that took both blocks, with [send_3] received just before. *)
Definition surprised : network_node :=
  set_arrival (BlockArrival [BlockArrivalInfo 0 send_3_hash] 0) (network_node_new (address_of 0) ledger_after_both votes_seen unchecked_empty).

