(* ===== verification/Versioning.v ===== *)
(** * Records of older databases (rai/versioning.hpp, rai/versioning.cpp)

    The classes [account_info_v1], [pending_info_v3] and [account_info_v5] are what
    earlier versions of the program kept in the tables [accounts] and [pending].
    They are read from a database value, after an assertion on its size, and
    written to one as the memory of the packed class; they have stream methods
    too. *)
From Stdlib Require Import ZArith Lia List.
From stdpp Require Import prelude gmap.
From S2P Require Import Prelude Numbers Streams Blocks Store Codecs.

Local Open Scope rd_scope.

Record account_info_v1 := AccountInfoV1 {
  v1_head : block_hash;
  v1_rep_block : block_hash;
  v1_balance : amount;
  v1_modified : Z
}.

Record pending_info_v3 := PendingInfoV3 {
  v3_source : account;
  v3_amount : amount;
  v3_destination : account
}.

Record account_info_v5 := AccountInfoV5 {
  v5_head : block_hash;
  v5_rep_block : block_hash;
  v5_open_block : block_hash;
  v5_balance : amount;
  v5_modified : Z
}.

#[export] Instance pending_info_v3_eq_dec : EqDecision pending_info_v3.
Proof. solve_decision. Defined.

(** The default constructors. *)
Definition account_info_v1_default : account_info_v1 := AccountInfoV1 0 0 0 0.
Definition pending_info_v3_default : pending_info_v3 := PendingInfoV3 0 0 0.
Definition account_info_v5_default : account_info_v5 := AccountInfoV5 0 0 0 0 0.

(** ** Stream methods *)

Definition account_info_v1_serialize (i : account_info_v1) : list byte :=
  write_u256 (v1_head i) ++ write_u256 (v1_rep_block i) ++ write_u128 (v1_balance i) ++ write_u64 (v1_modified i).
Definition account_info_v1_deserialize : reader account_info_v1 :=
  head <~ read_u256;; rep_block <~ read_u256;; balance <~ read_u128;; modified <~ read_u64;;
  rd_ret (AccountInfoV1 head rep_block balance modified).

Definition pending_info_v3_serialize (i : pending_info_v3) : list byte :=
  write_u256 (v3_source i) ++ write_u128 (v3_amount i) ++ write_u256 (v3_destination i).
Definition pending_info_v3_deserialize : reader pending_info_v3 :=
  source <~ read_u256;; amount <~ read_u128;; destination <~ read_u256;;
  rd_ret (PendingInfoV3 source amount destination).

Definition account_info_v5_serialize (i : account_info_v5) : list byte :=
  write_u256 (v5_head i) ++ write_u256 (v5_rep_block i) ++ write_u256 (v5_open_block i)
  ++ write_u128 (v5_balance i) ++ write_u64 (v5_modified i).
Definition account_info_v5_deserialize : reader account_info_v5 :=
  head <~ read_u256;; rep_block <~ read_u256;; open_block <~ read_u256;;
  balance <~ read_u128;; modified <~ read_u64;;
  rd_ret (AccountInfoV5 head rep_block open_block balance modified).

Definition pending_info_v3_eqb (a b : pending_info_v3) : bool :=
  (v3_source a =? v3_source b) && (v3_amount a =? v3_amount b) && (v3_destination a =? v3_destination b).

(** ** Database values *)

Definition account_info_v1_of_val (val : list byte) : res account_info_v1 :=
  if negb (length val =? 88)%nat then Fault Assertion_failed
  else Ok (AccountInfoV1 (be_combine (field 0 32 val)) (be_combine (field 32 32 val))
             (be_combine (field 64 16 val)) (le_combine (field 80 8 val))).
Definition pending_info_v3_of_val (val : list byte) : res pending_info_v3 :=
  if negb (length val =? 80)%nat then Fault Assertion_failed
  else Ok (PendingInfoV3 (be_combine (field 0 32 val)) (be_combine (field 32 16 val)) (be_combine (field 48 32 val))).
Definition account_info_v5_of_val (val : list byte) : res account_info_v5 :=
  if negb (length val =? 120)%nat then Fault Assertion_failed
  else Ok (AccountInfoV5 (be_combine (field 0 32 val)) (be_combine (field 32 32 val))
             (be_combine (field 64 32 val)) (be_combine (field 96 16 val)) (le_combine (field 112 8 val))).

(** [val ()]: the memory of the object. *)
Definition account_info_v1_val (i : account_info_v1) : list byte :=
  be_split 32 (v1_head i) ++ be_split 32 (v1_rep_block i) ++ be_split 16 (v1_balance i) ++ le_split 8 (v1_modified i).
Definition pending_info_v3_val (i : pending_info_v3) : list byte :=
  be_split 32 (v3_source i) ++ be_split 16 (v3_amount i) ++ be_split 32 (v3_destination i).
Definition account_info_v5_val (i : account_info_v5) : list byte :=
  be_split 32 (v5_head i) ++ be_split 32 (v5_rep_block i) ++ be_split 32 (v5_open_block i)
  ++ be_split 16 (v5_balance i) ++ le_split 8 (v5_modified i).

(** ** Ranges *)

Definition account_info_v1_ok (i : account_info_v1) : Prop :=
  fits 256 (v1_head i) /\ fits 256 (v1_rep_block i) /\ fits 128 (v1_balance i) /\ fits 64 (v1_modified i).
Definition pending_info_v3_ok (i : pending_info_v3) : Prop :=
  fits 256 (v3_source i) /\ fits 128 (v3_amount i) /\ fits 256 (v3_destination i).
Definition account_info_v5_ok (i : account_info_v5) : Prop :=
  fits 256 (v5_head i) /\ fits 256 (v5_rep_block i) /\ fits 256 (v5_open_block i)
  /\ fits 128 (v5_balance i) /\ fits 64 (v5_modified i).

(** ** Proofs *)

Ltac old_fields :=
  cbn [v1_head v1_rep_block v1_balance v1_modified v3_source v3_amount v3_destination
       v5_head v5_rep_block v5_open_block v5_balance v5_modified] in *;
  cbv [read_u128 read_u256 read_u64 write_u128 write_u256 write_u64] in *.

#[export] Instance account_info_v1_serializable : Serializable account_info_v1.
Proof.
  refine {| to_stream := account_info_v1_serialize; from_stream := account_info_v1_deserialize;
            in_range := account_info_v1_ok |}.
  - intros [h r b m] rest (?&?&?&?). unfold account_info_v1_serialize, account_info_v1_deserialize.
    old_fields. rewrite <- ?app_assoc. rd_run. reflexivity.
  - intros s a rest H. unfold account_info_v1_deserialize in H. old_fields. rd_inv H. injection H as <- <-.
    unfold account_info_v1_serialize, account_info_v1_ok. old_fields. rewrite <- ?app_assoc. split_and!; done.
Defined.

#[export] Instance pending_info_v3_serializable : Serializable pending_info_v3.
Proof.
  refine {| to_stream := pending_info_v3_serialize; from_stream := pending_info_v3_deserialize;
            in_range := pending_info_v3_ok |}.
  - intros [a b c] rest (?&?&?). unfold pending_info_v3_serialize, pending_info_v3_deserialize.
    old_fields. rewrite <- ?app_assoc. rd_run. reflexivity.
  - intros s a rest H. unfold pending_info_v3_deserialize in H. old_fields. rd_inv H. injection H as <- <-.
    unfold pending_info_v3_serialize, pending_info_v3_ok. old_fields. rewrite <- ?app_assoc. split_and!; done.
Defined.

#[export] Instance account_info_v5_serializable : Serializable account_info_v5.
Proof.
  refine {| to_stream := account_info_v5_serialize; from_stream := account_info_v5_deserialize;
            in_range := account_info_v5_ok |}.
  - intros [h r o b m] rest (?&?&?&?&?). unfold account_info_v5_serialize, account_info_v5_deserialize.
    old_fields. rewrite <- ?app_assoc. rd_run. reflexivity.
  - intros s a rest H. unfold account_info_v5_deserialize in H. old_fields. rd_inv H. injection H as <- <-.
    unfold account_info_v5_serialize, account_info_v5_ok. old_fields. rewrite <- ?app_assoc. split_and!; done.
Defined.

Lemma account_info_v1_read i : account_info_v1_ok i -> account_info_v1_of_val (account_info_v1_val i) = Ok i.
Proof.
  destruct i as [h r b m]. intros (?&?&?&?). unfold account_info_v1_of_val, account_info_v1_val. old_fields.
  rewrite !length_app, !length_be_split, !length_le_split. cbn [Nat.add Nat.eqb negb]. take_fields.
  rewrite !be_combine_split_small, !le_combine_split_small by done. done.
Qed.

Lemma pending_info_v3_read i : pending_info_v3_ok i -> pending_info_v3_of_val (pending_info_v3_val i) = Ok i.
Proof.
  destruct i as [a b c]. intros (?&?&?). unfold pending_info_v3_of_val, pending_info_v3_val. old_fields.
  rewrite !length_app, !length_be_split. cbn [Nat.add Nat.eqb negb]. take_fields.
  rewrite !be_combine_split_small by done. done.
Qed.

Lemma account_info_v5_read i : account_info_v5_ok i -> account_info_v5_of_val (account_info_v5_val i) = Ok i.
Proof.
  destruct i as [h r o b m]. intros (?&?&?&?&?). unfold account_info_v5_of_val, account_info_v5_val. old_fields.
  rewrite !length_app, !length_be_split, !length_le_split. cbn [Nat.add Nat.eqb negb]. take_fields.
  rewrite !be_combine_split_small, !le_combine_split_small by done. done.
Qed.

(** The sizes differ, so that no record is taken for one of another version. *)
Lemma old_sizes i j k :
  length (account_info_v1_val i) = 88%nat /\ length (account_info_v5_val j) = 120%nat /\ length (account_info_val k) = 128%nat.
Proof.
  unfold account_info_v1_val, account_info_v5_val, account_info_val.
  rewrite !length_app, !length_be_split, !length_le_split. split_and!; reflexivity.
Qed.

Lemma pending_info_v3_eqb_eq a b : pending_info_v3_eqb a b = true <-> a = b.
Proof.
  destruct a, b. unfold pending_info_v3_eqb. old_fields. rewrite !andb_true_iff, !Z.eqb_eq.
  split; [by intros [[-> ->] ->]|by intros [= -> -> ->]].
Qed.
