(* ===== verification/Upgrades.v ===== *)
(** * Opening a database (rai/secure.cpp)

    A database was written by some version of the program.  The constructor of
    [block_store] opens the tables, brings what it finds to version 10, one version
    at a time, and resets the checksum.

    The tables whose records changed over the versions, [accounts] and [pending],
    are rows of bytes here; so are [vote], [unchecked] and [sequence].  The other
    tables always had the records they have now, and are the field [db_tables], the
    [accounts] and [pending] of which stay empty.  The key of a row of [pending] is
    a hash of 32 bytes up to version 3 and an account with a hash from version 4
    on.  [boost::multiprecision] is third-party code: its conversion to [int] is
    the class [IntConversion]. *)
From Stdlib Require Import ZArith Lia List.
From stdpp Require Import prelude gmap sorting.
From S2P Require Import Prelude Numbers Streams Blocks Store Ledger Codecs Votes BootstrapServer Versioning.

Local Open Scope m_scope.

Class IntConversion := {
  convert_to_int : Z -> Z;
  convert_to_int_small v : 0 <= v < 2 ^ 31 -> convert_to_int v = v
}.

Abbreviation row_key := (Z + Z * Z)%type (only parsing).

Record database := Database {
  db_meta : gmap Z Z;
  db_accounts : gmap Z (list byte);
  db_pending : gmap row_key (list byte);
  db_unchecked : list (Z * list byte);
  db_unsynced : gmap Z unit;
  db_sequence : list (Z * list byte);
  db_vote : gmap Z (list byte);
  db_tables : store
}.

Definition empty_database : database := Database ∅ ∅ ∅ [] ∅ [] ∅ empty_store.

Definition set_db_meta f d := Database (f (db_meta d)) (db_accounts d) (db_pending d) (db_unchecked d) (db_unsynced d) (db_sequence d) (db_vote d) (db_tables d).
Definition set_db_accounts f d := Database (db_meta d) (f (db_accounts d)) (db_pending d) (db_unchecked d) (db_unsynced d) (db_sequence d) (db_vote d) (db_tables d).
Definition set_db_pending f d := Database (db_meta d) (db_accounts d) (f (db_pending d)) (db_unchecked d) (db_unsynced d) (db_sequence d) (db_vote d) (db_tables d).
Definition set_db_unchecked f d := Database (db_meta d) (db_accounts d) (db_pending d) (f (db_unchecked d)) (db_unsynced d) (db_sequence d) (db_vote d) (db_tables d).
Definition set_db_unsynced f d := Database (db_meta d) (db_accounts d) (db_pending d) (db_unchecked d) (f (db_unsynced d)) (db_sequence d) (db_vote d) (db_tables d).
Definition set_db_sequence f d := Database (db_meta d) (db_accounts d) (db_pending d) (db_unchecked d) (db_unsynced d) (f (db_sequence d)) (db_vote d) (db_tables d).
Definition set_db_vote f d := Database (db_meta d) (db_accounts d) (db_pending d) (db_unchecked d) (db_unsynced d) (db_sequence d) (f (db_vote d)) (db_tables d).
Definition set_db_tables f d := Database (db_meta d) (db_accounts d) (db_pending d) (db_unchecked d) (db_unsynced d) (db_sequence d) (db_vote d) (f (db_tables d)).

(** An operation on the tables whose records did not change. *)
Definition on_tables {A} (m : M store A) : M database A := fun d =>
  match m (db_tables d) with Ok (a, t) => Ok (a, set_db_tables (fun _ => t) d) | Fault f => Fault f end.

Fixpoint st_each {S A} (f : A -> M S unit) (l : list A) : M S unit :=
  match l with [] => st_ret tt | x :: l => f x ;;; st_each f l end.

(** The handles of the tables. *)
Inductive dbi : Type :=
| dbi_frontiers | dbi_accounts | dbi_vm_codes | dbi_send | dbi_send_v2 | dbi_receive | dbi_open | dbi_change
| dbi_pending | dbi_blocks_info | dbi_representation | dbi_unchecked | dbi_unsynced | dbi_checksum | dbi_vote | dbi_meta.

(** [block_store::clear]: a table is emptied. *)
Definition clear (db : dbi) : M database unit :=
  match db with
  | dbi_frontiers => on_tables (st_put (set_frontiers (fun _ => ∅)))
  | dbi_accounts => st_put (set_db_accounts (fun _ => ∅))
  | dbi_vm_codes => on_tables (st_put (set_vm_codes (fun _ => ∅)))
  | dbi_send => on_tables (st_put (set_send_blocks (fun _ => ∅)))
  | dbi_send_v2 => on_tables (st_put (set_send_blocks_v2 (fun _ => ∅)))
  | dbi_receive => on_tables (st_put (set_receive_blocks (fun _ => ∅)))
  | dbi_open => on_tables (st_put (set_open_blocks (fun _ => ∅)))
  | dbi_change => on_tables (st_put (set_change_blocks (fun _ => ∅)))
  | dbi_pending => st_put (set_db_pending (fun _ => ∅))
  | dbi_blocks_info => on_tables (st_put (set_blocks_info (fun _ => ∅)))
  | dbi_representation => on_tables (st_put (set_representation (fun _ => ∅)))
  | dbi_unchecked => st_put (set_db_unchecked (fun _ => []))
  | dbi_unsynced => st_put (set_db_unsynced (fun _ => ∅))
  | dbi_checksum => on_tables (st_put (set_checksums (fun _ => ∅)))
  | dbi_vote => st_put (set_db_vote (fun _ => ∅))
  | dbi_meta => st_put (set_db_meta (fun _ => ∅))
  end.

(** ** The version *)

Definition db_version_put (version : Z) : M database unit := st_put (set_db_meta (insert 1 version)).

Section Upgrades.
Context `{Environment, IntConversion}.

Definition version_get (d : database) : res Z :=
  match db_meta d !! 1 with
  | None => Ok 1
  | Some version_value =>
      if version_value <? 2 ^ 64 then Ok (convert_to_int version_value) else Fault Assertion_failed
  end.

(** ** The records as they are read now *)

(** [account_get], [pending_get]: what is not found is [None]. *)
Definition account_row (d : database) (a : account) : res (option account_info) :=
  match db_accounts d !! a with
  | None => Ok None
  | Some value =>
      match account_info_deserialize value with
      | Got info _ => Ok (Some info)
      | Short => Fault Assertion_failed
      | Rd_fault f => Fault f
      end
  end.

Definition pending_row (d : database) (k : pending_key) : res (option pending_info) :=
  match db_pending d !! inr k with
  | None => Ok None
  | Some value => match pending_info_of_val value with Ok info => Ok (Some info) | Fault f => Fault f end
  end.

Definition account_row_put (a : account) (value : list byte) : M database unit := st_put (set_db_accounts (insert a value)).
Definition pending_row_put (k : pending_key) (i : pending_info) : M database unit :=
  st_put (set_db_pending (insert (inr k) (pending_info_val i))).

(** [mdb_val::uint256] of the key of a row *)
Definition row_hash (k : row_key) : res Z := match k with inl h => Ok h | inr _ => Fault Assertion_failed end.

(** The rows of the table [pending], in the order of the bytes of the keys. *)
Definition row_number (k : row_key) : Z := match k with inl h => Z.shiftl h 256 | inr k => Z.shiftl (fst k) 256 + snd k end.
Definition row_le (x y : row_key * list byte) : Prop := row_number (fst x) <= row_number (fst y).
#[global] Instance row_le_dec : RelDecision row_le.
Proof. intros x y. unfold row_le. apply _. Defined.
Definition pending_rows (d : database) : list (row_key * list byte) := merge_sort row_le (map_to_list (db_pending d)).

(** ** One version at a time *)

(** The inner loop: back to the first block of the chain. *)
Fixpoint first_block_loop (fuel : nat) (t : store) (b : block) : res block :=
  match fuel with
  | O => Fault Out_of_fuel
  | S fuel =>
      if is_zero (previous b) then Ok b
      else match block_get t (previous b) with
           | None => Fault Indeterminate_value (* dereferences a null pointer *)
           | Some b => first_block_loop fuel t b
           end
  end.

(** The outer loop: the table is searched anew from the account after the last one. *)
Fixpoint upgrade_v1_loop (fuel : nat) (account : Z) : M database unit :=
  if is_zero account then st_ret tt else
  match fuel with
  | O => st_fault Out_of_fuel
  | S fuel =>
      i <- st_get (fun d => first_from account (db_accounts d));;
      match i with
      | None => st_ret tt
      | Some (account, value) =>
          v1 <- st_run (fun _ => account_info_v1_of_val value);;
          block <- st_get (fun d => block_get (db_tables d) (v1_head v1));;
          match block with
          | None => st_fault Indeterminate_value (* dereferences a null pointer *)
          | Some b =>
              b <- st_run (fun d => first_block_loop loop_fuel (db_tables d) b);;
              account_row_put account (account_info_v5_val
                (AccountInfoV5 (v1_head v1) (v1_rep_block v1) (hash b) (v1_balance v1) (v1_modified v1))) ;;;
              upgrade_v1_loop fuel (wrap 256 (account + 1))
          end
      end
  end.

Definition upgrade_v1_to_v2 : M database unit :=
  db_version_put 2 ;;; upgrade_v1_loop loop_fuel 1.

(** The rows are replaced where the cursor stands, so that the walk goes over the
    rows there were at its start. *)
Definition upgrade_v2_row (row : account * list byte) : M database unit :=
  info <- st_run (fun _ => account_info_v5_of_val (snd row));;
  result <- st_run (fun d => representative_calculated (db_tables d) (v5_head info));;
  st_assert (negb (is_zero result)) ;;;
  account_row_put (fst row) (account_info_v5_val
    (AccountInfoV5 (v5_head info) result (v5_open_block info) (v5_balance info) (v5_modified info))) ;;;
  on_tables (representation_add result (v5_balance info)).

Definition upgrade_v2_to_v3 : M database unit :=
  db_version_put 3 ;;;
  on_tables (st_put (set_representation (fun _ => ∅))) ;;;
  rows <- st_get (fun d => table_from 0 (db_accounts d));;
  st_each upgrade_v2_row rows.

(** The queue [items] is filled from the table, and emptied into it. *)
Fixpoint pending_items (rows : list (row_key * list byte)) : res (list (pending_key * pending_info)) :=
  match rows with
  | [] => Ok []
  | (k, value) :: rows =>
      match row_hash k, pending_info_v3_of_val value with
      | Ok hash, Ok info =>
          match pending_items rows with
          | Ok items => Ok (((v3_destination info, hash), PendingInfo (v3_source info) (v3_amount info)) :: items)
          | Fault f => Fault f
          end
      | Fault f, _ | _, Fault f => Fault f
      end
  end.

Definition upgrade_v3_to_v4 : M database unit :=
  db_version_put 4 ;;;
  items <- st_run (fun d => pending_items (pending_rows d));;
  st_put (set_db_pending (fun _ => ∅)) ;;;
  st_each (fun x => pending_row_put (fst x) (snd x)) items.

(** The walk of a chain from its head to its first block. *)
Fixpoint relink_loop (fuel : nat) (block : option block) (successor : block_hash) : M store unit :=
  match block with
  | None => st_ret tt
  | Some b =>
      match fuel with
      | O => st_fault Out_of_fuel
      | S fuel =>
          let h := hash b in
          known <- st_get (fun t => block_successor t h);;
          (if is_zero known && negb (is_zero successor) then block_put h b successor else st_ret tt) ;;;
          block <- st_get (fun t => block_get t (previous b));;
          relink_loop fuel block h
      end
  end.

Definition upgrade_v4_row (row : account * list byte) : M database unit :=
  info <- st_run (fun _ => account_info_v5_of_val (snd row));;
  on_tables (block <- st_get (fun t => block_get t (v5_head info));; relink_loop loop_fuel block 0).

Definition upgrade_v4_to_v5 : M database unit :=
  db_version_put 5 ;;;
  rows <- st_get (fun d => table_from 0 (db_accounts d));;
  st_each upgrade_v4_row rows.

Fixpoint count_loop (fuel : nat) (t : store) (hash : block_hash) (block_count : Z) : res Z :=
  if is_zero hash then Ok block_count else
  match fuel with
  | O => Fault Out_of_fuel
  | S fuel =>
      match block_get t hash with
      | None => Fault Assertion_failed
      | Some b => count_loop fuel t (previous b) (wrap 64 (block_count + 1))
      end
  end.

(** The deque [headers] *)
Fixpoint headers (t : store) (rows : list (account * list byte)) : res (list (account * account_info)) :=
  match rows with
  | [] => Ok []
  | (a, value) :: rows =>
      match account_info_v5_of_val value with
      | Fault f => Fault f
      | Ok info_old =>
          match count_loop loop_fuel t (v5_head info_old) 0 with
          | Fault f => Fault f
          | Ok block_count =>
              match headers t rows with
              | Ok l => Ok ((a, AccountInfo (v5_head info_old) (v5_rep_block info_old) (v5_open_block info_old)
                                  (v5_balance info_old) (v5_modified info_old) block_count) :: l)
              | Fault f => Fault f
              end
          end
      end
  end.

Definition upgrade_v5_to_v6 : M database unit :=
  db_version_put 6 ;;;
  l <- st_run (fun d => headers (db_tables d) (table_from 0 (db_accounts d)));;
  st_each (fun x => account_row_put (fst x) (account_info_val (snd x))) l.

Definition upgrade_v6_to_v7 : M database unit :=
  db_version_put 7 ;;; st_put (set_db_unchecked (fun _ => [])).

(** The table is deleted and made again. *)
Definition upgrade_v7_to_v8 : M database unit :=
  db_version_put 8 ;;; st_put (set_db_unchecked (fun _ => [])).

(** A vote for the genesis block with the sequence number of the row; the key
    [junk] is a fresh one. *)
Definition upgrade_v8_row `{Signing} (genesis : open_block) (junk : Z) (row : account * list byte) : M database unit :=
  match read_u64 (snd row) with
  | Got sequence _ =>
      let dummy := vote_make (fst row) junk sequence (Open genesis) in
      st_put (set_db_vote (insert (fst row) (vote_serialize dummy)))
  | Short => st_fault Assertion_failed
  | Rd_fault f => st_fault f
  end.

Definition upgrade_v8_to_v9 `{Signing} (genesis : open_block) (junk : Z) : M database unit :=
  db_version_put 9 ;;;
  rows <- st_get db_sequence;;
  st_each (upgrade_v8_row genesis junk) rows ;;;
  st_put (set_db_sequence (fun _ => [])).

(** The walk of a chain from its first block; the counter is a [size_t]. *)
Fixpoint info_loop (fuel : nat) (account : Z) (hash : block_hash) (block_count : Z) : M store unit :=
  if is_zero hash then st_ret tt else
  match fuel with
  | O => st_fault Out_of_fuel
  | S fuel =>
      (if block_count mod block_info_max =? 0 then
         block_balance <- st_run (fun t => balance t hash);;
         block_info_put hash (BlockInfo account block_balance)
       else st_ret tt) ;;;
      hash <- st_get (fun t => block_successor t hash);;
      info_loop fuel account hash (wrap 64 (block_count + 1))
  end.

Definition upgrade_v9_row (row : account * list byte) : M database unit :=
  info <- st_run (fun _ => account_info_of_val (snd row));;
  if block_info_max <=? block_count info
  then on_tables (info_loop loop_fuel (fst row) (open_block_hash info) 1)
  else st_ret tt.

Definition upgrade_v9_to_v10 : M database unit :=
  db_version_put 10 ;;;
  rows <- st_get (fun d => table_from 0 (db_accounts d));;
  st_each upgrade_v9_row rows.

(** ** All of them *)

(** The upgrade from each version to the next, in the order of the switch. *)
Definition upgrades `{Signing} (genesis : open_block) (junk : Z) : list (M database unit) :=
  [upgrade_v1_to_v2; upgrade_v2_to_v3; upgrade_v3_to_v4; upgrade_v4_to_v5; upgrade_v5_to_v6;
   upgrade_v6_to_v7; upgrade_v7_to_v8; upgrade_v8_to_v9 genesis junk; upgrade_v9_to_v10].

(** A case of the switch falls through to those after it. *)
Definition do_upgrades `{Signing} (genesis : open_block) (junk : Z) : M database unit :=
  version <- st_run version_get;;
  if (1 <=? version) && (version <=? 10)
  then st_each id (drop (Z.to_nat (version - 1)) (upgrades genesis junk))
  else st_fault Assertion_failed.

(** The constructor: [error_a] is set by the environment, [dbi_errors] are the
    failures to open one of the tables. *)
Definition block_store_new `{Signing} (genesis : open_block) (junk : Z) (error_a : bool) (dbi_errors : list bool) : M database bool :=
  if error_a || existsb id dbi_errors then st_ret true
  else do_upgrades genesis junk ;;; on_tables (checksum_put 0 0 0) ;;; st_ret false.

End Upgrades.
