(* ===== verification/UpgradeFacts.v ===== *)
(** * The upgrades, one version at a time

    A database of version [v] holds a ledger [s] when its tables have what that
    version kept of [s]: the blocks, with the links to their successors complete
    from version 5 on; the accounts in the record of the version, the block that
    names the representative being right from version 3 on; the weights from
    version 3 on; the pending sends with their keys; and the recorded balances,
    complete from version 10 on.  Each upgrade takes a database that holds a ledger
    in one version to one that holds it in the next. *)
From Stdlib Require Import ZArith Lia List.
From stdpp Require Import prelude gmap sorting.
From S2P Require Import Prelude Lists Numbers Streams Blocks Store Ledger StoreFacts LedgerInv LedgerQueries Codecs Votes BootstrapServer BootstrapTheorems Versioning Upgrades.

(** ** What a database holds *)

Section Holds.
Context (s : store).

(** The blocks of [s]; a link to a successor may be missing. *)
Definition linked (t : store) : Prop := forall ty h,
  match lookup_in ty s h with
  | None => lookup_in ty t h = None
  | Some (b, m) => exists m', lookup_in ty t h = Some (b, m') /\ (m' = m \/ m' = 0)
  end.

Definition account_as (v : Z) (i : account_info) (value : list byte) : Prop :=
  if v <? 2 then
    exists rep, fits 256 rep /\ value = account_info_v1_val (AccountInfoV1 (head i) rep (balance_of i) (modified i))
  else if v <? 6 then
    exists rep, fits 256 rep /\ (3 <= v -> rep = rep_block i)
      /\ value = account_info_v5_val (AccountInfoV5 (head i) rep (open_block_hash i) (balance_of i) (modified i))
  else value = account_info_val i.

Definition pending_as (v : Z) (destination h : Z) (i : pending_info) (k : Z + Z * Z) (value : list byte) : Prop :=
  if v <? 4 then k = inl h /\ value = pending_info_v3_val (PendingInfoV3 (pi_source i) (pi_amount i) destination)
  else k = inr (destination, h) /\ value = pending_info_val i.

Record holds (v : Z) (d : database) : Prop := {
  hd_version : db_meta d !! 1 = Some v \/ v = 1 /\ db_meta d !! 1 = None;
  hd_blocks : linked (db_tables d);
  hd_links : 5 <= v -> forall h, entry_at (db_tables d) h = entry_at s h;
  hd_frontiers : frontiers (db_tables d) = frontiers s;
  hd_codes : vm_codes (db_tables d) = vm_codes s;
  hd_accounts : forall a, option_Forall2 (account_as v) (accounts s !! a) (db_accounts d !! a);
  hd_pending : forall k value, db_pending d !! k = Some value
    <-> exists destination h i, pending s !! (destination, h) = Some i /\ pending_as v destination h i k value;
  hd_info : forall h i, blocks_info (db_tables d) !! h = Some i -> blocks_info s !! h = Some i;
  hd_infos : 10 <= v -> blocks_info (db_tables d) = blocks_info s;
  hd_weights : 3 <= v -> forall r, representation_get (db_tables d) r = representation_get s r;
  hd_sequences : forall a bytes, (a, bytes) ∈ db_sequence d -> length bytes = 8%nat
}.
End Holds.

(** ** Loops over rows *)

Lemma st_each_rule {S A} (P : list A -> S -> Prop) (f : A -> M S unit) (l : list A) (s : S) :
  (forall done x rest s, l = done ++ x :: rest -> P done s -> exists s', f x s = Ok (tt, s') /\ P (done ++ [x]) s') ->
  P [] s -> exists s', st_each f l s = Ok (tt, s') /\ P l s'.
Proof.
  intros Hstep H0. assert (Hgo : forall rest done s, l = done ++ rest -> P done s ->
    exists s', st_each f rest s = Ok (tt, s') /\ P l s').
  { clear s H0. induction rest as [|x rest IH]; intros done s Hl Hp; cbn [st_each].
    - exists s. rewrite app_nil_r in Hl. subst. done.
    - destruct (Hstep done x rest s Hl Hp) as (s1 & He & H1). rewrite (st_bind_ok _ _ _ _ _ He).
      apply (IH (done ++ [x])); [by rewrite <- app_assoc|done]. }
  by apply (Hgo l []).
Qed.

Lemma on_tables_run {A} (m : M store A) d a t :
  m (db_tables d) = Ok (a, t) -> on_tables m d = Ok (a, set_db_tables (fun _ => t) d).
Proof. unfold on_tables. by intros ->. Qed.

(** Rows put one by one over a table. *)
Lemma option_Forall2_insert {A B} (R R' : A -> B -> Prop) (m1 : gmap Z A) (m2 : gmap Z B) a x y k :
  m1 !! a = Some x -> R' x y -> (k <> a -> option_Forall2 R (m1 !! k) (m2 !! k)) ->
  option_Forall2 (if decide (k = a) then R' else R) (m1 !! k) (<[a := y]> m2 !! k).
Proof.
  intros Ha Hy Hk. case_decide as He.
  - subst k. rewrite Ha, lookup_insert_eq. by constructor.
  - rewrite lookup_insert_ne by congruence. by apply Hk.
Qed.

(** A sum over a table is a sum over its keys. *)
Definition keys_sum {V} (f : Z -> V -> Z) (m : gmap Z V) (l : list Z) : Z :=
  foldr (fun k acc => match m !! k with Some v => f k v | None => 0 end + acc) 0 l.

Lemma keys_sum_app {V} (f : Z -> V -> Z) m l1 l2 : keys_sum f m (l1 ++ l2) = keys_sum f m l1 + keys_sum f m l2.
Proof. unfold keys_sum. induction l1 as [|k l1 IH]; cbn [foldr app]; [lia|]. rewrite IH. lia. Qed.

Lemma keys_sum_delete {V} (f : Z -> V -> Z) m k l : k ∉ l -> keys_sum f (delete k m) l = keys_sum f m l.
Proof.
  unfold keys_sum. induction l as [|x l IH]; [done|]. rewrite not_elem_of_cons. intros [Hne Hl]. cbn [foldr].
  by rewrite IH, lookup_delete_ne by done.
Qed.

Lemma msum_keys {V} (f : Z -> V -> Z) (m : gmap Z V) l :
  NoDup l -> (forall k, k ∈ l <-> is_Some (m !! k)) -> msum f m = keys_sum f m l.
Proof.
  revert m. induction l as [|k l IH]; intros m Hn Hl.
  - assert (m = ∅) as ->; [|apply msum_empty]. apply map_empty. intros k. apply eq_None_not_Some. intros Hk.
    apply Hl in Hk. by apply not_elem_of_nil in Hk.
  - apply NoDup_cons in Hn as [Hk Hn]. destruct (proj1 (Hl k)) as [v Hv]; [by left|].
    pose proof (msum_delete f k v m Hv) as Hd. rewrite (IH (delete k m) Hn) in Hd.
    + rewrite keys_sum_delete in Hd by done. cbn [keys_sum foldr]. rewrite Hv. fold (keys_sum f m l). lia.
    + intros x. rewrite lookup_delete_is_Some, <- Hl. rewrite elem_of_cons. split; [|naive_solver].
      intros Hx. split; [intros ->; by apply Hk|by right].
Qed.

(** ** The tables of blocks *)

Section Linked.
Context `{Environment} {n : nat} {g : ghost} {s : store} (I : inv_with n g s).
Implicit Types (t : store) (h : Z) (b : block).

Lemma linked_lookup t ty h b m : linked s t -> lookup_in ty t h = Some (b, m) -> exists m', lookup_in ty s h = Some (b, m').
Proof.
  intros L Hl. specialize (L ty h). destruct (lookup_in ty s h) as [[b' m']|]; [|congruence].
  destruct L as (k & Hk & _). rewrite Hl in Hk. injection Hk as <- _. eauto.
Qed.

Lemma linked_disjoint t : linked s t -> tables_disjoint t.
Proof.
  intros L h t1 t2 [[b1 m1] H1] [[b2 m2] H2]. apply linked_lookup in H1 as [m1' H1]; [|done].
  apply linked_lookup in H2 as [m2' H2]; [|done]. by eapply (iv_disjoint _ _ _ I h); eexists.
Qed.

Lemma linked_typed t : linked s t -> tables_typed t.
Proof. intros L h ty b m Hl. apply linked_lookup in Hl as [m' Hl]; [|done]. by eapply (iv_typed _ _ _ I). Qed.

Lemma linked_entry t h : linked s t ->
  match entry_at s h with
  | None => entry_at t h = None
  | Some (b, m) => exists m', entry_at t h = Some (b, m') /\ (m' = m \/ m' = 0)
  end.
Proof.
  intros L. destruct (entry_at s h) as [[b m]|] eqn:He.
  - pose proof (entry_raw _ _ _ _ (iv_typed _ _ _ I) He) as Hr. pose proof (block_get_raw_lookup _ _ _ _ Hr) as Hl.
    pose proof (L (type b) h) as Hx. rewrite Hl in Hx. destruct Hx as (m' & Hm & Hc). exists m'. split; [|done].
    by eapply block_get_raw_entry, block_get_raw_disjoint; [apply linked_disjoint|].
  - apply entry_at_none, block_get_raw_none. intros ty. apply entry_at_none in He.
    rewrite block_get_raw_none in He. specialize (L ty h). by rewrite He in L.
Qed.

Lemma linked_get t h : linked s t -> block_get t h = block_get s h.
Proof.
  intros L. rewrite !block_get_entry. pose proof (linked_entry t h L) as Hx.
  destruct (entry_at s h) as [[b m]|]; [destruct Hx as (m' & -> & _)|rewrite Hx]; done.
Qed.

Lemma linked_exists t h : linked s t -> is_Some (entry_at t h) <-> is_Some (entry_at s h).
Proof.
  intros L. pose proof (linked_entry t h L) as Hx. destruct (entry_at s h) as [[b m]|].
  - destruct Hx as (m' & -> & _). by split; eexists.
  - by rewrite Hx.
Qed.

(** A block written with its successor, or with none. *)
Lemma linked_put t h b m k :
  linked s t -> entry_at s h = Some (b, m) -> (k = m \/ k = 0) -> linked s (put_entry (type b) h (b, k) t).
Proof.
  intros L He Hk ty x. rewrite lookup_in_put by apply is_kind_type.
  destruct (decide (ty = type b /\ x = h)) as [[-> ->]|Hne]; [|apply L].
  pose proof (entry_raw _ _ _ _ (iv_typed _ _ _ I) He) as Hr. rewrite (block_get_raw_lookup _ _ _ _ Hr). by exists k.
Qed.

Lemma linked_put_at t h b m k x :
  linked s t -> entry_at s h = Some (b, m) ->
  entry_at (put_entry (type b) h (b, k) t) x = if decide (x = h) then Some (b, k) else entry_at t x.
Proof.
  intros L He. apply put_entry_at; [by apply linked_disjoint|].
  pose proof (linked_entry t h L) as Hx. rewrite He in Hx. destruct Hx as (m' & Ht & _).
  by eapply writable_present; [apply linked_disjoint|apply linked_typed|].
Qed.

(** A link that is there is right. *)
Definition right t h : Prop := entry_at t h = entry_at s h.

(** [t'] has the links of [t] and maybe more, and the other tables are the same. *)
Record relinked t t' : Prop := {
  rl_linked : linked s t';
  rl_right : forall h, right t h -> right t' h;
  rl_frontiers : frontiers t' = frontiers t;
  rl_codes : vm_codes t' = vm_codes t;
  rl_info : blocks_info t' = blocks_info t;
  rl_weights : representation t' = representation t
}.

Lemma relinked_refl t : linked s t -> relinked t t.
Proof. by split. Qed.
Lemma relinked_trans t1 t2 t3 : relinked t1 t2 -> relinked t2 t3 -> relinked t1 t3.
Proof. intros [] []. split; [done|eauto|congruence..]. Qed.

Lemma relinked_put t h b m : linked s t -> entry_at s h = Some (b, m) -> relinked t (put_entry (type b) h (b, m) t).
Proof.
  intros L He. split; [eapply linked_put; eauto| |by destruct b..].
  intros x Hx. unfold right in *. rewrite (linked_put_at _ _ _ _ _ _ L He). case_decide; [by subst|done].
Qed.
End Linked.

(** ** Walks of a chain *)

Section Walks.
Context `{Environment} {n : nat} {g : ghost} {s : store} (I : inv_with n g s).
Implicit Types (t : store) (h : Z) (b : block).

(** The first block of a chain has no block before it, and height one. *)
Lemma chain_start h b m : entry_at s h = Some (b, m) -> is_open b = true -> previous b = 0 /\ gheight g h = 1.
Proof.
  intros He Ho. split; [by apply open_previous|]. pose proof (ei_block _ _ _ _ _ _ (inv_entry I _ _ _ He)) as Hb.
  destruct b; try discriminate. by destruct Hb as (_ & _ & Hh & _).
Qed.

(** Every other block follows the one it names. *)
Lemma chain_before h b m : entry_at s h = Some (b, m) -> is_open b = false ->
  is_zero (previous b) = false
  /\ exists pb, entry_at s (previous b) = Some (pb, h) /\ gown g (previous b) = gown g h
     /\ gheight g h = gheight g (previous b) + 1 /\ (grank g (previous b) < grank g h)%nat.
Proof.
  intros He Ho. destruct (inv_previous I _ _ _ He Ho) as ((pb & Hp) & H1 & H2 & H3). split; [|by exists pb].
  eapply (entry_nonzero I); eassumption.
Qed.

(** What holds of the block and of all below it holds of the chain up to it. *)
Lemma chain_below (P : Z -> Prop) h b m :
  entry_at s h = Some (b, m) -> P h ->
  (is_open b = false -> forall x, is_Some (entry_at s x) -> gown g x = gown g (previous b) -> gheight g x <= gheight g (previous b) -> P x) ->
  forall x, is_Some (entry_at s x) -> gown g x = gown g h -> gheight g x <= gheight g h -> P x.
Proof.
  intros He Hh Hbelow x Hx Ho Hle. destruct (decide (gheight g x = gheight g h)) as [Heq|Hne].
  - assert (x = h) as ->; [|done]. apply (ci_uniq _ _ _ (iv_chain _ _ _ I)); [done|by eexists|done|done].
  - destruct Hx as [[xb xm] Hx]. pose proof (ei_height _ _ _ _ _ _ (inv_entry I _ _ _ Hx)) as Hx1.
    destruct (is_open b) eqn:Hop.
    + destruct (chain_start _ _ _ He Hop) as [_ Hs]. lia.
    + destruct (chain_before _ _ _ He Hop) as (_ & pb & _ & Hown & Hhe & _). apply Hbelow; [done|by eexists|congruence|lia].
Qed.

(** [block_put] of a block with its successor. *)
Lemma relink_put t h b m : linked s t -> entry_at s h = Some (b, m) -> m <> 0 ->
  exists t', block_put h b m t = Ok (tt, t') /\ relinked (s := s) t t' /\ right (s := s) t' h.
Proof.
  intros L He Hm. pose proof (inv_entry I _ _ _ He) as Hi. pose proof (ei_hash _ _ _ _ _ _ Hi) as Hh.
  set (t1 := put_entry (type b) h (b, m) t).
  pose proof (relinked_put I t h b m L He) as R1. fold t1 in R1.
  assert (H1 : right (s := s) t1 h).
  { unfold right, t1. rewrite (linked_put_at I _ _ _ _ _ _ L He), decide_True by done. by rewrite He. }
  assert (Hs : is_Some (entry_at t m)).
  { apply (linked_exists I t m L). destruct (ei_succ _ _ _ _ _ _ Hi) as [?|(sb & k & Hs & _)]; [done|by eexists]. }
  unfold block_put. rewrite (st_bind_ok _ _ t (block_exists t m) t) by reflexivity.
  rewrite st_assert_true by (apply orb_true_iff; right; by apply block_exists_true).
  rewrite (st_bind_ok _ _ t tt t1) by (apply block_put_raw_run, is_kind_type).
  destruct (is_open b) eqn:Hop.
  - exists t1. rewrite (st_bind_ok _ _ t1 tt t1) by (destruct b; try discriminate Hop; reflexivity).
    destruct (chain_start _ _ _ He Hop) as [-> _]. done.
  - destruct (chain_before _ _ _ He Hop) as (Hz & pb & Hp & _ & _ & Hr).
    pose proof (linked_entry I t1 (previous b) (rl_linked _ _ R1)) as Hp1. rewrite Hp in Hp1. destruct Hp1 as (k & Hp1 & _).
    set (t2 := put_entry (type pb) (previous b) (pb, h) t1).
    pose proof (relinked_put I t1 _ _ _ (rl_linked _ _ R1) Hp) as R2. fold t2 in R2.
    assert (Hf : set_predecessor b t1 = Ok (tt, t2)).
    { transitivity (fill_value b t1); [by destruct b|]. unfold fill_value.
      rewrite (st_bind_ok _ _ t1 (Some (type pb, (pb, k))) t1).
      - rewrite Hh. apply block_put_raw_run, is_kind_type.
      - unfold st_get. by rewrite (entry_raw _ _ _ _ (linked_typed I t1 (rl_linked _ _ R1)) Hp1). }
    rewrite (st_bind_ok _ _ t1 tt t2 Hf). exists t2.
    assert (Hq : block_successor t2 (previous b) = h).
    { rewrite block_successor_entry. unfold t2. rewrite (linked_put_at I _ _ _ _ _ _ (rl_linked _ _ R1) Hp).
      by rewrite decide_True. }
    rewrite (st_bind_ok _ _ t2 (block_successor t2 (previous b)) t2) by reflexivity. rewrite Hq, Z.eqb_refl, orb_true_r.
    split_and!; [reflexivity|by eapply relinked_trans|]. by apply (rl_right _ _ R2).
Qed.

Lemma relink_none fuel m t : relink_loop fuel None m t = Ok (tt, t).
Proof. by destruct fuel. Qed.

Lemma relink_loop_ok fuel t h b m :
  linked s t -> entry_at s h = Some (b, m) -> (grank g h < fuel)%nat ->
  exists t', relink_loop fuel (Some b) m t = Ok (tt, t') /\ relinked (s := s) t t'
    /\ forall x, is_Some (entry_at s x) -> gown g x = gown g h -> gheight g x <= gheight g h -> right (s := s) t' x.
Proof.
  revert t h b m. induction fuel as [|fuel IH]; intros t h b m L He Hf; [lia|].
  pose proof (ei_hash _ _ _ _ _ _ (inv_entry I _ _ _ He)) as Hh. cbn [relink_loop]. rewrite Hh.
  rewrite (st_bind_ok _ _ t (block_successor t h) t) by reflexivity.
  assert (Hput : exists t1, (if is_zero (block_successor t h) && negb (is_zero m) then block_put h b m else st_ret tt) t = Ok (tt, t1)
    /\ relinked (s := s) t t1 /\ right (s := s) t1 h).
  { pose proof (linked_entry I t h L) as Ht. rewrite He in Ht. destruct Ht as (m' & Ht & Hm').
    rewrite block_successor_entry, Ht. cbn [fmap option_fmap option_map snd default from_option id].
    destruct (is_zero m') eqn:Hz; cbn [andb]; [destruct (is_zero m) eqn:Hzm; cbn [negb]|].
    - exists t. split_and!; [reflexivity|by apply relinked_refl|]. unfold right. rewrite He, Ht.
      apply Z.eqb_eq in Hz, Hzm. congruence.
    - apply relink_put; [done|done|]. by apply Z.eqb_neq.
    - exists t. split_and!; [reflexivity|by apply relinked_refl|]. unfold right. rewrite He, Ht. apply Z.eqb_neq in Hz.
      destruct Hm'; congruence. }
  destruct Hput as (t1 & Hput & R1 & Hr1). rewrite (st_bind_ok _ _ t tt t1 Hput).
  rewrite (st_bind_ok _ _ t1 (block_get t1 (previous b)) t1) by reflexivity.
  rewrite (linked_get I t1 _ (rl_linked _ _ R1)).
  destruct (is_open b) eqn:Hop.
  - destruct (chain_start _ _ _ He Hop) as [-> _]. rewrite block_get_entry, (zero_entry I). cbn [fmap option_fmap option_map].
    rewrite relink_none. exists t1. split_and!; [done|done|]. apply (chain_below _ _ _ _ He Hr1). by rewrite Hop.
  - destruct (chain_before _ _ _ He Hop) as (_ & pb & Hp & _ & _ & Hr). rewrite (entry_get _ _ _ Hp).
    destruct (IH t1 (previous b) pb h (rl_linked _ _ R1) Hp ltac:(lia)) as (t2 & -> & R2 & Hall).
    exists t2. split_and!; [done|by eapply relinked_trans|].
    apply (chain_below _ _ _ _ He); [by apply (rl_right _ _ R2)|done].
Qed.

(** Back to the first block. *)
Lemma first_block_ok fuel t h b m :
  linked s t -> entry_at s h = Some (b, m) -> (grank g h < fuel)%nat ->
  exists ob k, first_block_loop fuel t b = Ok (Open ob) /\ entry_at s (hash (Open ob)) = Some (Open ob, k)
    /\ gown g (hash (Open ob)) = gown g h.
Proof.
  revert h b m. induction fuel as [|fuel IH]; intros h b m L He Hf; [lia|]. cbn [first_block_loop].
  pose proof (ei_hash _ _ _ _ _ _ (inv_entry I _ _ _ He)) as Hh. destruct (is_open b) eqn:Hop.
  - destruct (chain_start _ _ _ He Hop) as [-> _]. destruct b as [b|b|b|b|b]; try discriminate Hop. exists b, m.
    rewrite Hh. split_and!; [reflexivity|exact He|reflexivity].
  - destruct (chain_before _ _ _ He Hop) as (-> & pb & Hp & Ho & _ & Hr). rewrite (linked_get I t _ L), (entry_get _ _ _ Hp).
    destruct (IH _ _ _ L Hp ltac:(lia)) as (ob & k & E1 & E2 & E3). exists ob, k. split_and!; [exact E1|exact E2|]. by rewrite E3.
Qed.

(** The first block of the chain of an account. *)
Lemma open_block_first a i ob k :
  accounts s !! a = Some i -> entry_at s (hash (Open ob)) = Some (Open ob, k) -> gown g (hash (Open ob)) = a ->
  hash (Open ob) = open_block_hash i.
Proof.
  intros Ha Ho Hown. destruct (ac_open _ _ _ _ (inv_head I _ _ Ha)) as (ob' & m & Ho' & Hacc).
  apply (ci_uniq _ _ _ (iv_chain _ _ _ I)); [by eexists|by eexists| |].
  - pose proof (ei_block _ _ _ _ _ _ (inv_entry I _ _ _ Ho')) as (He & _). rewrite Hown. congruence.
  - rewrite (proj2 (chain_start _ _ _ Ho eq_refl)), (proj2 (chain_start _ _ _ Ho' eq_refl)). done.
Qed.

(** The visitor for the representative reads blocks only. *)
Lemma representative_loop_linked fuel t h : linked s t -> representative_loop fuel t h = representative_loop fuel s h.
Proof.
  intros L. revert h. induction fuel as [|fuel IH]; intros h; [done|]. cbn [representative_loop].
  rewrite (linked_get I t h L). destruct (block_get s h) as [b|]; [|done].
  destruct b; rewrite ?IH; reflexivity.
Qed.

(** The number of blocks of a chain. *)
Lemma count_loop_ok fuel t h b m c :
  linked s t -> entry_at s h = Some (b, m) -> (grank g h + 1 < fuel)%nat ->
  count_loop fuel t h c = Ok (wrap 64 (c + gheight g h)).
Proof.
  revert h b m c. induction fuel as [|fuel IH]; intros h b m c L He Hf; [lia|]. cbn [count_loop].
  rewrite (entry_nonzero I _ _ _ He), (linked_get I t h L), (entry_get _ _ _ He). destruct (is_open b) eqn:Hop.
  - destruct (chain_start _ _ _ He Hop) as [-> ->]. by destruct fuel.
  - destruct (chain_before _ _ _ He Hop) as (_ & pb & Hp & _ & Hhe & Hr). rewrite (IH _ _ _ _ L Hp) by lia.
    rewrite wrap_add_l, Hhe. do 2 f_equal. lia.
Qed.

Lemma height_rank h : is_Some (entry_at s h) -> gheight g h <= Z.of_nat (grank g h) + 1.
Proof.
  remember (grank g h) as r eqn:Hr. revert h Hr. induction (lt_wf r) as [r _ IH]. intros h -> [[b m] He].
  destruct (is_open b) eqn:Hop.
  - destruct (chain_start _ _ _ He Hop) as [_ ->]. lia.
  - destruct (chain_before _ _ _ He Hop) as (_ & pb & Hp & _ & Hhe & Hr).
    specialize (IH _ Hr (previous b) eq_refl ltac:(by eexists)). lia.
Qed.
End Walks.

(** ** Recorded balances *)

Section Recording.
Context `{Environment} {n : nat} {g : ghost} {s : store} (I : inv_with n g s) (Hfuel : (query_fuel n <= loop_fuel)%nat).
Implicit Types (t : store) (h a x : Z) (b : block).

(** All links there, the tables of blocks are the same. *)
Lemma right_tables t : linked s t -> (forall h, right (s := s) t h) -> forall ty, block_database ty t = block_database ty s.
Proof.
  intros L R. assert (Hl : forall ty h, lookup_in ty t h = lookup_in ty s h).
  { intros ty h. pose proof (L ty h) as Lh. destruct (lookup_in ty s h) as [[b m]|] eqn:Hs; [|done].
    destruct Lh as (m' & Ht & _). rewrite Ht.
    pose proof (block_get_raw_entry _ _ _ _ (block_get_raw_disjoint _ _ _ _ (iv_disjoint _ _ _ I) Hs)) as Es.
    pose proof (block_get_raw_entry _ _ _ _ (block_get_raw_disjoint _ _ _ _ (linked_disjoint I t L) Ht)) as Et.
    specialize (R h). unfold right in R. congruence. }
  intros ty. specialize (Hl ty). unfold lookup_in in Hl.
  destruct ty; cbn [block_database] in *; try reflexivity; f_equal; apply map_eq; exact Hl.
Qed.

Lemma right_entries t : linked s t -> (forall h, right (s := s) t h) -> entry_at t = entry_at s.
Proof.
  intros L R. pose proof (right_tables t L R) as Ht.
  pose proof (Ht send) as [= E1]. pose proof (Ht receive) as [= E2]. pose proof (Ht open) as [= E3].
  pose proof (Ht change) as [= E4]. pose proof (Ht send_v2) as [= E5].
  unfold entry_at, block_get_raw. by rewrite E1, E2, E3, E4, E5.
Qed.

(** The block after a block. *)
Lemma chain_after h b m : entry_at s h = Some (b, m) -> m <> 0 ->
  is_Some (entry_at s m) /\ gown g m = gown g h /\ gheight g m = gheight g h + 1 /\ (grank g h < grank g m)%nat.
Proof.
  intros He Hm. destruct (ei_succ _ _ _ _ _ _ (inv_entry I _ _ _ He)) as [?|(sb & k & Hs & Hp)]; [done|].
  destruct (is_open sb) eqn:Hop.
  - destruct (chain_start I _ _ _ Hs Hop) as [H0 _]. rewrite H0 in Hp. subst h. by rewrite (zero_entry I) in He.
  - destruct (chain_before I _ _ _ Hs Hop) as (_ & pb & _ & H1 & H2 & H3). rewrite Hp in *. split_and!; [by eexists|done..].
Qed.

(** A block without a block after it is the last of its chain. *)
Lemma chain_end h b x : entry_at s h = Some (b, 0) -> is_Some (entry_at s x) -> gown g x = gown g h -> gheight g x <= gheight g h.
Proof.
  intros He [[xb xm] Hx] Ho. destruct (ai_owner _ _ _ _ (iv_accounts _ _ _ I) _ _ _ He) as (i & Hi & _ & Hh).
  destruct (ai_owner _ _ _ _ (iv_accounts _ _ _ I) _ _ _ Hx) as (j & Hj & Hle & _). rewrite Ho, Hi in Hj.
  injection Hj as <-. by rewrite (Hh eq_refl) in Hle.
Qed.

(** What holds of a block and of those after it holds of the rest of the chain. *)
Lemma chain_above (P : Z -> Prop) h b m :
  entry_at s h = Some (b, m) -> P h ->
  (m <> 0 -> forall x, is_Some (entry_at s x) -> gown g x = gown g m -> gheight g m <= gheight g x -> P x) ->
  forall x, is_Some (entry_at s x) -> gown g x = gown g h -> gheight g h <= gheight g x -> P x.
Proof.
  intros He Hh Habove x Hx Ho Hle. destruct (decide (gheight g x = gheight g h)) as [Heq|Hne].
  - assert (x = h) as ->; [|done]. apply (ci_uniq _ _ _ (iv_chain _ _ _ I)); [done|by eexists|done|done].
  - destruct (decide (m = 0)) as [->|Hm]; [pose proof (chain_end _ _ _ He Hx Ho); lia|].
    destruct (chain_after _ _ _ He Hm) as (_ & Hown & Hhe & _). apply Habove; [done|done|congruence|lia].
Qed.

(** The tables with another table of recorded balances, which has the old rows
    and maybe more, all of them right. *)
Definition more_info t t' : Prop :=
  t' = set_blocks_info (fun _ => blocks_info t') t
  /\ blocks_info t ⊆ blocks_info t' /\ blocks_info t' ⊆ blocks_info s.

Lemma more_info_refl t : blocks_info t ⊆ blocks_info s -> more_info t t.
Proof. intros Hi. split_and!; [by destruct t|done|done]. Qed.
Lemma more_info_trans t1 t2 t3 : more_info t1 t2 -> more_info t2 t3 -> more_info t1 t3.
Proof.
  intros (E1 & S1 & _) (E2 & S2 & S3). split_and!; [|by etrans|done]. rewrite E2 at 1. by rewrite E1.
Qed.
Lemma more_info_entries t t' : more_info t t' -> entry_at t' = entry_at t.
Proof. by intros (-> & _). Qed.

Definition row_of h : block_info := BlockInfo (gown g h) (gbal g h).

Lemma info_put_step t h :
  entry_at t = entry_at s -> blocks_info t ⊆ blocks_info s -> is_Some (entry_at s h) ->
  exists t', (if gheight g h mod block_info_max =? 0 then
                st_bind (st_run (fun t => balance t h)) (fun bal => block_info_put h (BlockInfo (gown g h) bal))
              else st_ret tt) t = Ok (tt, t')
    /\ more_info t t' /\ (gheight g h mod block_info_max = 0 -> blocks_info t' !! h = Some (row_of h)).
Proof.
  intros He Hs Hh. destruct (Z.eqb_spec (gheight g h mod block_info_max) 0) as [Hm|Hm].
  - assert (Hbal : balance t h = Ok (gbal g h)).
    { apply (chain_balance_ok (n := n) (g := g)); [rewrite He; apply I| |done|by rewrite He].
      intros x Hx. rewrite He in Hx. unfold block_info_get. destruct (blocks_info t !! x) as [i|] eqn:Hi; [|by left].
      right. apply (lookup_weaken _ _ _ _ Hi) in Hs. rewrite (iv_info _ _ _ I x) in Hs. case_decide; congruence. }
    rewrite (st_run_ok _ _ t _ Hbal). eexists. split; [reflexivity|].
    assert (Hr : blocks_info s !! h = Some (row_of h)) by (rewrite (iv_info _ _ _ I h), decide_True; done).
    split; [|intros _; cbn; by rewrite lookup_insert_eq].
    split_and!; [done| |].
    + cbn. apply map_subseteq_spec. intros x i Hi. destruct (decide (x = h)) as [->|]; [|by rewrite lookup_insert_ne].
      rewrite lookup_insert_eq. pose proof (lookup_weaken _ _ _ _ Hi Hs) as Hw. unfold row_of in Hr. congruence.
    + cbn. by apply insert_subseteq_l.
  - exists t. split_and!; [reflexivity|by apply more_info_refl|done].
Qed.

Lemma info_loop_ok fuel t h b m c :
  entry_at t = entry_at s -> blocks_info t ⊆ blocks_info s -> entry_at s h = Some (b, m) ->
  c mod block_info_max = gheight g h mod block_info_max -> (n - grank g h + 1 <= fuel)%nat ->
  exists t', info_loop fuel (gown g h) h c t = Ok (tt, t') /\ more_info t t'
    /\ forall x, is_Some (entry_at s x) -> gown g x = gown g h -> gheight g h <= gheight g x ->
       gheight g x mod block_info_max = 0 -> blocks_info t' !! x = Some (row_of x).
Proof.
  revert t h b m c. induction fuel as [|fuel IH]; intros t h b m c Et Hs He Hc Hf; [lia|].
  cbn [info_loop]. rewrite (entry_nonzero I _ _ _ He), Hc.
  destruct (info_put_step t h Et Hs ltac:(by eexists)) as (t1 & E1 & M1 & H1).
  rewrite (st_bind_ok _ _ t tt t1 E1). rewrite (st_bind_ok _ _ t1 m t1).
  2:{ unfold st_get. rewrite block_successor_entry, (more_info_entries _ _ M1), Et, He. reflexivity. }
  pose proof M1 as (_ & _ & Hs1). destruct (decide (m = 0)) as [->|Hm].
  - exists t1. split_and!; [by destruct fuel|done|]. intros x Hx Ho Hle Hmod. revert x Hx Ho Hle Hmod.
    refine (chain_above (fun x => gheight g x mod block_info_max = 0 -> blocks_info t1 !! x = Some (row_of x)) _ _ _ He H1 _). done.
  - destruct (chain_after _ _ _ He Hm) as ([[b' m'] He'] & Hown & Hhe & Hr). rewrite <- Hown.
    pose proof (entry_rank I _ _ _ He') as Hn.
    destruct (IH t1 m b' m' (wrap 64 (c + 1))) as (t2 & E2 & M2 & H2); [by rewrite (more_info_entries _ _ M1)|done|done| |lia|].
    { rewrite wrap_mod_info, Hhe, Z.add_mod, Hc, <- Z.add_mod by done. reflexivity. }
    exists t2. split_and!; [exact E2|by eapply more_info_trans|].
    rewrite Hown in *. intros x Hx Ho Hle Hmod. revert x Hx Ho Hle Hmod.
    refine (chain_above (fun x => gheight g x mod block_info_max = 0 -> blocks_info t2 !! x = Some (row_of x)) _ _ _ He _ _).
    + intros Hmod. exact (lookup_weaken _ _ _ _ (H1 Hmod) (proj1 (proj2 M2))).
    + intros _ x. rewrite Hown. apply H2.
Qed.
End Recording.
