(* ===== verification/UpgradeSteps.v ===== *)
(** * Each upgrade keeps the ledger

    For every version, the upgrade to the next one runs to its end on a database
    that holds a ledger and leaves one that holds the same ledger in the next
    version. *)
From Stdlib Require Import ZArith Lia List.
From stdpp Require Import prelude gmap sorting.
From S2P Require Import Prelude Lists Numbers Streams Blocks Store Ledger StoreFacts LedgerInv LedgerQueries LedgerProcess Codecs Votes BootstrapServer BootstrapTheorems Versioning Upgrades UpgradeFacts.

Local Open Scope m_scope.

(** The values that fit their fields, and the room the loops have. *)
Record in_bounds `{Environment} (n : nat) (s : store) : Prop := {
  ib_fuel : (query_fuel n <= loop_fuel)%nat;
  ib_accounts : (size (accounts s) < loop_fuel)%nat;
  ib_blocks : Z.of_nat n < 2 ^ 64;
  ib_account a i : accounts s !! a = Some i -> fits 256 a /\ account_info_ok i;
  ib_pending k i : pending s !! k = Some i -> pending_key_ok k /\ pending_info_ok i
}.

Section Steps.
Context `{Environment, IntConversion} {n : nat} {g : ghost} {s : store} (I : inv_with n g s) (B : in_bounds n s).
Implicit Types (d : database) (a x : Z).

Lemma row_account (v : Z) d a value :
  (forall a, option_Forall2 (account_as v) (accounts s !! a) (db_accounts d !! a)) ->
  db_accounts d !! a = Some value -> exists i, accounts s !! a = Some i /\ account_as v i value.
Proof. intros Hd Hv. specialize (Hd a). rewrite Hv in Hd. inversion Hd; eauto. Qed.

Lemma account_head a i : accounts s !! a = Some i ->
  exists b, entry_at s (head i) = Some (b, 0) /\ block_get s (head i) = Some b /\ gown g (head i) = a /\ (grank g (head i) < n)%nat.
Proof.
  intros Ha. destruct (inv_head I _ _ Ha) as [_ (b & Hb) Hown _ _ _ _]. exists b.
  split_and!; [done|by eapply entry_get|done|]. by eapply entry_rank.
Qed.

(** The rows of the accounts, in order. *)
Lemma rows_elem (v : Z) d : (forall a, option_Forall2 (account_as v) (accounts s !! a) (db_accounts d !! a)) ->
  forall a value, (a, value) ∈ table_from 0 (db_accounts d) <-> db_accounts d !! a = Some value.
Proof.
  intros Hd a value. rewrite table_from_elem. split; [by intros [_ ?]|]. intros Hv. split; [|done].
  destruct (row_account _ _ _ _ Hd Hv) as (i & Hi & _). by destruct (ib_account _ _ B _ _ Hi) as [[? _] _].
Qed.

Lemma rows_keys (v : Z) d : (forall a, option_Forall2 (account_as v) (accounts s !! a) (db_accounts d !! a)) ->
  forall a, a ∈ fst <$> table_from 0 (db_accounts d) <-> is_Some (accounts s !! a).
Proof.
  intros Hd a. rewrite list_elem_of_fmap. split.
  - intros ([k value] & -> & Hin). cbn [fst]. apply (rows_elem v d Hd) in Hin. destruct (row_account _ _ _ _ Hd Hin) as (i & -> & _). by eexists.
  - intros [i Hi]. pose proof (Hd a) as Ha. rewrite Hi in Ha. inversion Ha as [? value Has Hx Hv|]. subst.
    exists (a, value). split; [done|]. by apply (rows_elem v d Hd).
Qed.

(** Two versions with the same record. *)
Lemma rows_same (v v' : Z) (m : gmap Z (list byte)) :
  (3 <= v < 6 /\ 3 <= v' < 6 \/ 6 <= v /\ 6 <= v') ->
  (forall a, option_Forall2 (account_as v) (accounts s !! a) (m !! a)) ->
  forall a, option_Forall2 (account_as v') (accounts s !! a) (m !! a).
Proof.
  intros Hv Hm a. specialize (Hm a). destruct (accounts s !! a) as [i|], (m !! a) as [value|]; inversion Hm; subst; constructor.
  unfold account_as in *. destruct Hv as [[Hv Hv']|[Hv Hv']].
  - replace (v <? 2) with false in * by lia. replace (v <? 6) with true in * by lia.
    replace (v' <? 2) with false by lia. replace (v' <? 6) with true by lia.
    match goal with H : exists _, _ |- _ => destruct H as (rep & Hf & Hr & ->) end. exists rep.
    split_and!; [done|intros _; apply Hr; lia|done].
  - replace (v <? 2) with false in * by lia. replace (v <? 6) with false in * by lia.
    replace (v' <? 2) with false by lia. by replace (v' <? 6) with false by lia.
Qed.

(** ** Version 1 *)

(** The accounts that are still to be visited. *)
Definition remaining x : nat := size (filter (fun k => x <= k) (dom (accounts s))).

Lemma remaining_next x a : is_Some (accounts s !! a) -> x <= a -> (remaining (a + 1) < remaining x)%nat.
Proof.
  intros Ha Hle. unfold remaining. apply subset_size. split.
  - intros k. rewrite !elem_of_filter. intros [? ?]. split; [lia|done].
  - intros Hs. assert (Hin : a ∈ filter (fun k => a + 1 <= k) (dom (accounts s))).
    { apply Hs, elem_of_filter. split; [done|]. by apply elem_of_dom. }
    apply elem_of_filter in Hin. lia.
Qed.

Lemma remaining_bound x : (remaining x <= size (accounts s))%nat.
Proof.
  unfold remaining. rewrite <- size_dom. apply subseteq_size. intros k. rewrite elem_of_filter. by intros [_ ?].
Qed.

Definition v1_until x d : Prop :=
  linked s (db_tables d)
  /\ forall a, option_Forall2 (account_as (if decide (a < x) then 2 else 1)) (accounts s !! a) (db_accounts d !! a).

Lemma first_row x d : v1_until x d ->
  match first_from x (db_accounts d) with
  | None => v1_until (2 ^ 256) d
  | Some (a, value) => x <= a /\ v1_until a d
      /\ exists i, accounts s !! a = Some i /\ account_as 1 i value
  end.
Proof.
  intros [L Hd]. pose proof (first_from_table x (db_accounts d)) as Ht.
  assert (Hnone : forall k, x <= k -> (forall value, db_accounts d !! k <> Some value) -> accounts s !! k = None).
  { intros k Hk Hno. specialize (Hd k). destruct (accounts s !! k), (db_accounts d !! k) as [value|] eqn:Hv; [|by inversion Hd|done..]. by destruct (Hno value). }
  destruct (first_from x (db_accounts d)) as [[a value]|].
  - destruct Ht as (Ht & Hxa & Ha). split; [done|]. split.
    + split; [done|]. intros k. specialize (Hd k). destruct (decide (x <= k /\ k < a)) as [Hk|Hk].
      * assert (Hk0 : db_accounts d !! k = None).
        { destruct (db_accounts d !! k) as [w|] eqn:Hw; [|done].
          assert (Hin : (k, w) ∈ table_from x (db_accounts d)) by (apply table_from_elem; split; [lia|done]).
          rewrite Ht in Hin. apply elem_of_cons in Hin as [[= -> ->]|Hin]; [lia|]. apply table_from_elem in Hin. lia. }
        rewrite Hk0, (Hnone k) by (lia || congruence). constructor.
      * assert (Hs : (if decide (k < a) then 2 else 1) = (if decide (k < x) then 2 else 1)) by (repeat case_decide; lia). by rewrite Hs.
    + pose proof (Hd a) as Hx. rewrite Ha, decide_False in Hx by lia. inversion Hx; eauto.
  - split; [done|]. intros k. specialize (Hd k). destruct (accounts s !! k) as [i|] eqn:Hi.
    + destruct (ib_account _ _ B _ _ Hi) as [[? ?] _]. rewrite decide_True by lia. destruct (decide (k < x)) as [|Hk]; [done|].
      rewrite (Hnone k) in Hi; [done|lia|]. intros value Hv.
      assert (Hin : (k, value) ∈ table_from x (db_accounts d)) by (apply table_from_elem; split; [lia|done]).
      rewrite Ht in Hin. by apply not_elem_of_nil in Hin.
    + inversion Hd. constructor.
Qed.

Lemma upgrade_v1_row x a d i value : v1_until a d -> accounts s !! a = Some i -> account_as 1 i value -> x <= a ->
  exists d', (forall fuel k, ((v1 <- st_run (fun _ => account_info_v1_of_val value);;
          block <- st_get (fun d => block_get (db_tables d) (v1_head v1));;
          match block with
          | None => st_fault Indeterminate_value
          | Some b =>
              b <- st_run (fun d => first_block_loop loop_fuel (db_tables d) b);;
              account_row_put a (account_info_v5_val
                (AccountInfoV5 (v1_head v1) (v1_rep_block v1) (hash b) (v1_balance v1) (v1_modified v1))) ;;;
              upgrade_v1_loop fuel k
          end) : M database unit) d = upgrade_v1_loop fuel k d')
    /\ d' = set_db_accounts (fun _ => db_accounts d') d /\ v1_until (a + 1) d'.
Proof.
  intros [L Hd] Ha (rep & Hrep & ->) Hx. destruct (ib_account _ _ B _ _ Ha) as [_ (Hh & _ & _ & Hb & Hm & _)].
  destruct (account_head _ _ Ha) as (b & Hent & Hget & Hown & Hrank).
  destruct (first_block_ok I loop_fuel (db_tables d) (head i) b 0 L Hent) as (ob & k & Hfb & Hob & Hobo).
  { pose proof (ib_fuel _ _ B). unfold query_fuel in *. lia. }
  pose proof (open_block_first I _ _ _ _ Ha Hob ltac:(congruence)) as Hopen.
  eexists. split.
  - intros fuel key. rewrite (st_run_ok _ _ d _ (account_info_v1_read (AccountInfoV1 (head i) rep (balance_of i) (modified i)) (conj Hh (conj Hrep (conj Hb Hm))))).
    cbn [v1_head v1_rep_block v1_balance v1_modified].
    rewrite (st_bind_ok _ _ d (Some b) d) by (unfold st_get; by rewrite (linked_get I _ _ L), Hget).
    rewrite (st_run_ok _ _ d _ Hfb), Hopen. reflexivity.
  - split; [reflexivity|]. split; [exact L|]. intros y.
    assert (Hy : option_Forall2 (if decide (y = a) then account_as 2 else account_as (if decide (y < a) then 2 else 1))
      (accounts s !! y) (<[a := account_info_v5_val (AccountInfoV5 (head i) rep (open_block_hash i) (balance_of i) (modified i))]> (db_accounts d) !! y)).
    { apply (option_Forall2_insert _ _ _ _ _ i); [done| |by intros]. exists rep. split_and!; [done|lia|done]. }
    cbn [db_accounts set_db_accounts]. destruct (decide (y = a)) as [->|Hne].
    + rewrite decide_True by lia. exact Hy.
    + assert (Hs : (if decide (y < a + 1) then 2 else 1) = (if decide (y < a) then 2 else 1)) by (repeat case_decide; lia). by rewrite Hs.
Qed.

Lemma upgrade_v1_loop_ok fuel x d : 1 <= x < 2 ^ 256 -> v1_until x d -> (remaining x < fuel)%nat ->
  exists d', upgrade_v1_loop fuel x d = Ok (tt, d') /\ d' = set_db_accounts (fun _ => db_accounts d') d /\ v1_until (2 ^ 256) d'.
Proof.
  revert x d. induction fuel as [|fuel IH]; intros x d Hx Hd Hf; [lia|]. cbn [upgrade_v1_loop].
  rewrite is_zero_ne by lia. rewrite (st_bind_ok _ _ d (first_from x (db_accounts d)) d) by reflexivity.
  pose proof (first_row x d Hd) as Hrow. destruct (first_from x (db_accounts d)) as [[a value]|].
  - destruct Hrow as (Hxa & Hda & i & Ha & Has). destruct (upgrade_v1_row x a d i value Hda Ha Has Hxa) as (d1 & E1 & F1 & H1).
    rewrite E1. destruct (ib_account _ _ B _ _ Ha) as [[_ Hlt] _]. destruct (decide (a + 1 = 2 ^ 256)) as [He|Hne].
    + rewrite He in *. exists d1. split; [|done]. replace (wrap 256 (2 ^ 256)) with 0 by reflexivity. by destruct fuel.
    + rewrite wrap_small by (unfold fits; lia).
      pose proof (remaining_next x a ltac:(by eexists) Hxa) as Hr.
      destruct (IH (a + 1) d1 ltac:(lia) H1 ltac:(lia)) as (d2 & E2 & F2 & H2). exists d2. split_and!; [done| |done].
      rewrite F2 at 1. by rewrite F1.
  - exists d. split_and!; [reflexivity|by destruct d|done].
Qed.

Lemma upgrade_v1_holds d : holds s 1 d -> exists d', upgrade_v1_to_v2 d = Ok (tt, d') /\ holds s 2 d'.
Proof.
  intros [_ L _ Hfr Hco Hac Hpe Hin _ _ Hsq]. unfold upgrade_v1_to_v2. erewrite st_bind_ok by reflexivity.
  set (d1 := set_db_meta (insert 1 2) d).
  destruct (upgrade_v1_loop_ok loop_fuel 1 d1) as (d' & E & F & L' & Ha'); [done| | |].
  - split; [exact L|]. intros a. cbn [d1 set_db_meta db_accounts]. destruct (accounts s !! a) as [i|] eqn:Hi.
    + destruct (inv_head I _ _ Hi) as [Hz _ _ _ _ _ _]. destruct (ib_account _ _ B _ _ Hi) as [[? ?] _].
      rewrite decide_False by lia. rewrite <- Hi. apply Hac.
    + specialize (Hac a). rewrite Hi in Hac. inversion Hac. constructor.
  - pose proof (remaining_bound 1). pose proof (ib_accounts _ _ B). lia.
  - exists d'. split; [exact E|]. assert (Ht : db_tables d' = db_tables d) by (by rewrite F).
    assert (Hp : db_pending d' = db_pending d) by (by rewrite F).
    assert (Hq : db_sequence d' = db_sequence d) by (by rewrite F).
    split; rewrite ?Ht, ?Hp, ?Hq; try done; try lia.
    + left. rewrite F. apply lookup_insert_eq.
    + intros a. specialize (Ha' a). destruct (accounts s !! a) as [i|] eqn:Hi.
      * destruct (ib_account _ _ B _ _ Hi) as [[? ?] _]. by rewrite decide_True in Ha' by lia.
      * inversion Ha'. constructor.
Qed.

(** ** Version 2 *)

Lemma v5_row (v : Z) a i value : 2 <= v < 6 -> accounts s !! a = Some i -> account_as v i value ->
  exists rep, fits 256 rep /\ (3 <= v -> rep = rep_block i)
    /\ account_info_v5_of_val value = Ok (AccountInfoV5 (head i) rep (open_block_hash i) (balance_of i) (modified i)).
Proof.
  intros Hv Ha Has. destruct (ib_account _ _ B _ _ Ha) as [_ (Hh & _ & Ho & Hb & Hm & _)].
  unfold account_as in Has. replace (v <? 2) with false in Has by lia. replace (v <? 6) with true in Has by lia.
  destruct Has as (rep & Hrep & Hr & ->). exists rep. split_and!; [done|done|]. apply account_info_v5_read. by split_and!.
Qed.

(** A row that is visited was not visited before. *)
Lemma row_new {V} (rows done rest : list (Z * V)) a value :
  NoDup (fst <$> rows) -> rows = done ++ (a, value) :: rest -> a ∉ fst <$> done /\ (a, value) ∈ rows.
Proof.
  intros Hn ->. split; [|apply elem_of_app; right; by left].
  rewrite fmap_app, fmap_cons in Hn. apply NoDup_app in Hn as (_ & Hn & _). intros Hin. apply (Hn a Hin). by left.
Qed.

(** Rows replaced one after the other. *)
Lemma rows_replaced (v v' : Z) (m : gmap Z (list byte)) (done : list Z) a i value :
  (forall k, option_Forall2 (account_as (if decide (k ∈ done) then v' else v)) (accounts s !! k) (m !! k)) ->
  accounts s !! a = Some i -> account_as v' i value ->
  forall k, option_Forall2 (account_as (if decide (k ∈ done ++ [a]) then v' else v)) (accounts s !! k) (<[a := value]> m !! k).
Proof.
  intros Hm Ha Has k. specialize (Hm k). destruct (decide (k = a)) as [->|Hne].
  - rewrite Ha, lookup_insert_eq, decide_True; [by constructor|]. apply elem_of_app. right. by left.
  - rewrite lookup_insert_ne by congruence. destruct (decide (k ∈ done)) as [Hin|Hin].
    + rewrite decide_True; [done|]. apply elem_of_app. by left.
    + rewrite decide_False; [done|]. rewrite elem_of_app, list_elem_of_singleton. naive_solver.
Qed.

Lemma rows_none (v v' : Z) (m : gmap Z (list byte)) :
  (forall k, option_Forall2 (account_as v) (accounts s !! k) (m !! k)) ->
  forall k, option_Forall2 (account_as (if decide (k ∈ @nil Z) then v' else v)) (accounts s !! k) (m !! k).
Proof. intros Hm k. rewrite decide_False; [apply Hm|]. apply not_elem_of_nil. Qed.

Lemma rows_all (v v' : Z) (m : gmap Z (list byte)) (l : list Z) :
  (forall k, k ∈ l <-> is_Some (accounts s !! k)) ->
  (forall k, option_Forall2 (account_as (if decide (k ∈ l) then v' else v)) (accounts s !! k) (m !! k)) ->
  forall k, option_Forall2 (account_as v') (accounts s !! k) (m !! k).
Proof.
  intros Hl Hm k. specialize (Hm k). destruct (accounts s !! k) as [i|] eqn:Hi; [|inversion Hm; constructor].
  rewrite decide_True in Hm; [done|]. apply Hl. by eexists.
Qed.

Definition share (r : Z) (_ : Z) (i : account_info) : Z := if repr (entry_at s) (rep_block i) =? r then balance_of i else 0.

Record v3_until (d1 : database) (done : list (Z * list byte)) (d : database) : Prop := {
  u3_frame : d = set_db_tables (fun _ => db_tables d) (set_db_accounts (fun _ => db_accounts d) d1);
  u3_tables : db_tables d = set_representation (fun _ => representation (db_tables d)) (db_tables d1);
  u3_accounts : forall k, option_Forall2 (account_as (if decide (k ∈ fst <$> done) then 3 else 2)) (accounts s !! k) (db_accounts d !! k);
  u3_weights : forall r, representation_get (db_tables d) r = wrap 128 (keys_sum (share r) (accounts s) (fst <$> done))
}.

Lemma head_representative a i : accounts s !! a = Some i ->
  exists rb k, entry_at s (rep_block i) = Some (rb, k) /\ representative rb <> 0 /\ repr (entry_at s) (rep_block i) = representative rb
  /\ forall t, linked s t -> representative_calculated t (head i) = Ok (rep_block i).
Proof.
  intros Ha. destruct (account_head _ _ Ha) as (b & Hent & _ & _ & Hrank).
  pose proof (ac_rep _ _ _ _ (inv_head I _ _ Ha)) as Hrep. destruct (ei_rep _ _ _ _ _ _ (inv_entry I _ _ _ Hent)) as (rb & k & Hrb & Hok).
  exists rb, k. rewrite Hrep. split_and!; [done|by destruct rb|unfold repr; by rewrite Hrb|]. intros t L. unfold representative_calculated.
  rewrite (representative_loop_linked I _ _ _ L). apply (representative_loop_ok I (ib_fuel _ _ B)); [by eexists|].
  pose proof (ib_fuel _ _ B). unfold query_fuel in *. lia.
Qed.

Lemma upgrade_v2_row_ok d1 rows done a value rest d :
  linked s (db_tables d1) -> NoDup (fst <$> rows) ->
  (forall a value, (a, value) ∈ rows -> exists i, accounts s !! a = Some i /\ account_as 2 i value) ->
  rows = done ++ (a, value) :: rest -> v3_until d1 done d ->
  exists d', upgrade_v2_row (a, value) d = Ok (tt, d') /\ v3_until d1 (done ++ [(a, value)]) d'.
Proof.
  intros L Hn Hrows Hr [F1 F2 Hac Hw]. destruct (row_new _ _ _ _ _ Hn Hr) as [Hnew Hin].
  destruct (Hrows _ _ Hin) as (i & Ha & Has). destruct (v5_row 2 a i value ltac:(lia) Ha Has) as (rep & _ & _ & Hval).
  destruct (head_representative _ _ Ha) as (rb & k & Hrb & Hr0 & Hrepr & Hcalc).
  assert (Ld : linked s (db_tables d)) by (rewrite F2; exact L).
  unfold upgrade_v2_row. cbn [fst snd]. rewrite (st_run_ok _ _ d _ Hval). cbn [v5_head v5_open_block v5_balance v5_modified].
  rewrite (st_run_ok _ _ d _ (Hcalc _ Ld)). rewrite st_assert_true by (by rewrite (entry_nonzero I _ _ _ Hrb)).
  erewrite st_bind_ok by reflexivity. eexists. split.
  - apply on_tables_run. cbn [db_tables set_db_accounts]. pose proof (linked_entry I _ (rep_block i) Ld) as Hx. rewrite Hrb in Hx.
    destruct Hx as (k' & Hx & _). by apply (representation_add_run _ rb k').
  - split.
    + by rewrite F1.
    + cbn [db_tables set_db_tables]. by rewrite F2.
    + rewrite fmap_app. cbn [db_accounts set_db_tables set_db_accounts]. eapply rows_replaced; [exact Hac|done|].
      exists (rep_block i). split_and!; [|done|done]. by apply (ib_account _ _ B _ _ Ha).
    + intros r. rewrite fmap_app, keys_sum_app. cbn [keys_sum fmap list_fmap fst foldr]. rewrite Ha, Z.add_0_r.
      unfold share at 2. rewrite Hrepr. unfold representation_get. cbn [representation set_representation db_tables set_db_tables].
      rewrite lookup_insert. destruct (Z.eqb_spec (representative rb) r) as [->|Hne].
      * rewrite decide_True by done. cbn [default from_option id]. fold (representation_get (db_tables d) r).
        by rewrite Hw, wrap_add_l.
      * rewrite decide_False by done. rewrite Z.add_0_r. apply Hw.
Qed.

Lemma upgrade_v2_holds d : holds s 2 d -> exists d', upgrade_v2_to_v3 d = Ok (tt, d') /\ holds s 3 d'.
Proof.
  intros [_ L _ Hfr Hco Hac Hpe Hin _ _ Hsq]. unfold upgrade_v2_to_v3. erewrite st_bind_ok by reflexivity.
  erewrite st_bind_ok by reflexivity. erewrite st_bind_ok by reflexivity.
  set (d1 := set_db_tables _ _). change (db_accounts d1) with (db_accounts d). set (rows := table_from 0 (db_accounts d)).
  assert (Hn : NoDup (fst <$> rows)) by apply table_from_nodup.
  destruct (st_each_rule (v3_until d1) upgrade_v2_row rows d1) as (d' & E & [F1 F2 Ha' Hw]).
  - intros done [a value] rest d0 Hr. refine (upgrade_v2_row_ok d1 rows done a value rest d0 L Hn _ Hr).
    intros a' value' Hx%(rows_elem 2 d Hac). by apply (row_account 2 d).
  - split; [done|done|exact (rows_none 2 3 _ Hac)|]. intros r. reflexivity.
  - exists d'. split; [exact E|]. pose proof (rows_keys 2 d Hac) as Hk. fold rows in Hk.
    remember (representation (db_tables d')) as R eqn:HR. clear HR. rewrite F2 in F1, Hw. clear F2.
    remember (db_accounts d') as X eqn:HX. clear HX. subst d'.
    split; try done; try lia.
    + left. apply lookup_insert_eq.
    + exact (rows_all 2 3 _ _ Hk Ha').
    + intros _ r. rewrite Hw, (iv_weight _ _ _ I r). pose proof (weight_of_bounds I r) as Hb. unfold weight_of in *.
      fold (share r) in *. rewrite (msum_keys _ _ _ Hn Hk) in *. apply wrap_small. unfold fits, genesis_amount in *. lia.
Qed.

(** ** Version 3 *)

Definition v3_value (destination : Z) (i : pending_info) : list byte :=
  pending_info_v3_val (PendingInfoV3 (pi_source i) (pi_amount i) destination).

Lemma pending_items_ok rows :
  (forall k value, (k, value) ∈ rows -> exists destination h i, pending s !! (destination, h) = Some i
     /\ k = inl h /\ value = v3_value destination i) ->
  exists items, pending_items rows = Ok items /\ forall destination h i,
    ((destination, h), i) ∈ items <-> pending s !! (destination, h) = Some i /\ (inl h, v3_value destination i) ∈ rows.
Proof.
  induction rows as [|[k value] rows IH]; intros Hrows.
  { exists []. split; [done|]. intros. rewrite !elem_of_nil. naive_solver. }
  destruct (Hrows k value) as (dst & h & i & Hp & -> & ->); [by left|].
  destruct IH as (items & Hi & Hall); [intros; apply Hrows; by right|].
  destruct (ib_pending _ _ B _ _ Hp) as [[Hd Hh] [Hs Ha]].
  cbn [pending_items row_hash]. unfold v3_value at 1. rewrite pending_info_v3_read by (by split_and!). rewrite Hi.
  eexists. split; [reflexivity|]. intros dst' h' i'. rewrite !elem_of_cons, Hall.
  cbn [v3_destination v3_source v3_amount]. split.
  - intros [He|[H1 H2]]; [|split; [done|by right]]. injection He as -> -> ->. destruct i. split; [done|by left].
  - intros [Hp' [He|Hin]]; [|by right]. pose proof (f_equal fst He) as Hk. pose proof (f_equal snd He) as Hv.
    cbn [fst snd] in Hk, Hv. injection Hk as ->. left.
    assert (Hv' : pending_info_v3_of_val (v3_value dst' i') = Ok (PendingInfoV3 (pi_source i) (pi_amount i) dst)).
    { unfold v3_value in *. rewrite Hv. apply pending_info_v3_read. by split_and!. }
    destruct (ib_pending _ _ B _ _ Hp') as [[Hd' _] [Hs' Ha']]. unfold v3_value in Hv'.
    rewrite pending_info_v3_read in Hv' by (by split_and!). injection Hv' as E1 E2 E3. destruct i as [i1 i2], i' as [i1' i2'].
    cbn [pi_source pi_amount] in *. congruence.
Qed.

Lemma pending_rows_elem d k value : (k, value) ∈ pending_rows d <-> db_pending d !! k = Some value.
Proof.
  unfold pending_rows. rewrite <- elem_of_map_to_list. split; apply perm_in; [|symmetry]; apply merge_sort_Permutation.
Qed.

Definition v4_until (d1 : database) (done : list (Z * Z * pending_info)) (d : database) : Prop :=
  d = set_db_pending (fun _ => db_pending d) d1
  /\ forall k value, db_pending d !! k = Some value <-> exists key i, (key, i) ∈ done /\ k = inr key /\ value = pending_info_val i.

Lemma pending_put_step d1 done key i d :
  (forall i', (key, i') ∈ done -> i' = i) -> v4_until d1 done d ->
  exists d', pending_row_put key i d = Ok (tt, d') /\ v4_until d1 (done ++ [(key, i)]) d'.
Proof.
  intros Hfun [F Hd]. eexists. split; [reflexivity|]. split; [by rewrite F|]. intros k value.
  cbn [db_pending set_db_pending]. setoid_rewrite elem_of_app. setoid_rewrite list_elem_of_singleton.
  rewrite lookup_insert_Some, Hd. split.
  - intros [[<- <-]|(Hne & key' & i' & Hin & -> & ->)]; [exists key, i; naive_solver|exists key', i'; naive_solver].
  - intros (key' & i' & [Hin|[= -> ->]] & -> & ->); [|by left]. destruct (decide (key' = key)) as [->|Hne].
    + left. by rewrite (Hfun _ Hin).
    + right. split; [congruence|]. by exists key', i'.
Qed.

Lemma upgrade_v3_holds d : holds s 3 d -> exists d', upgrade_v3_to_v4 d = Ok (tt, d') /\ holds s 4 d'.
Proof.
  intros [_ L _ Hfr Hco Hac Hpe Hin _ Hw Hsq]. unfold upgrade_v3_to_v4. erewrite st_bind_ok by reflexivity.
  set (d1 := set_db_meta (insert 1 4) d).
  destruct (pending_items_ok (pending_rows d1)) as (items & Hi & Hall).
  { intros k value Hx%pending_rows_elem. apply Hpe in Hx as (dst & h & i & Hp & Hk & Hv). by exists dst, h, i. }
  rewrite (st_run_ok _ _ d1 _ Hi). erewrite st_bind_ok by reflexivity. set (d2 := set_db_pending _ d1).
  assert (Hp : forall key i, (key, i) ∈ items <-> pending s !! key = Some i).
  { intros [dst h] i. rewrite Hall, pending_rows_elem. split; [by intros [? _]|]. intros Hp. split; [done|].
    change (db_pending d1) with (db_pending d). apply Hpe. by exists dst, h, i. }
  destruct (st_each_rule (v4_until d2) (fun y => pending_row_put (fst y) (snd y)) items d2) as (d' & E & F & Hd').
  - intros done [key i] rest d0 Hr Hd0. apply pending_put_step; [|done]. intros i' Hi'.
    assert (H1 : (key, i') ∈ items) by (rewrite Hr; apply elem_of_app; by left).
    assert (H2 : (key, i) ∈ items) by (rewrite Hr; apply elem_of_app; right; by left).
    apply Hp in H1, H2. congruence.
  - split; [done|]. intros k value. split; [done|]. intros (key & i & Hx & _). by apply not_elem_of_nil in Hx.
  - exists d'. split; [exact E|]. remember (db_pending d') as X eqn:HX. clear HX. subst d'.
    split; try done; try lia.
    + left. apply lookup_insert_eq.
    + apply (rows_same 3 4); [lia|exact Hac].
    + intros k value. cbn [db_pending set_db_pending]. rewrite Hd'. split.
      * intros ([dst h] & i & Hx%Hp & -> & ->). by exists dst, h, i.
      * intros (dst & h & i & Hx%Hp & -> & ->). by exists (dst, h), i.
    + intros _. apply Hw. lia.
Qed.

(** ** Version 4 *)

Definition v5_until (d1 : database) (done : list (Z * list byte)) (d : database) : Prop :=
  d = set_db_tables (fun _ => db_tables d) d1 /\ relinked (s := s) (db_tables d1) (db_tables d)
  /\ forall x, is_Some (entry_at s x) -> gown g x ∈ fst <$> done -> right (s := s) (db_tables d) x.

Lemma account_chain a i x : accounts s !! a = Some i -> is_Some (entry_at s x) -> gown g x = a -> gheight g x <= gheight g (head i).
Proof.
  intros Ha [[b m] Hx] Ho. destruct (ai_owner _ _ _ _ (iv_accounts _ _ _ I) _ _ _ Hx) as (j & Hj & Hle & _).
  rewrite Ho, Ha in Hj. by injection Hj as <-.
Qed.

Lemma upgrade_v4_row_ok d1 done a i value d :
  accounts s !! a = Some i -> account_as 4 i value -> v5_until d1 done d ->
  exists d', upgrade_v4_row (a, value) d = Ok (tt, d') /\ v5_until d1 (done ++ [(a, value)]) d'.
Proof.
  intros Ha Has (F & R & Hd). destruct (v5_row 4 a i value ltac:(lia) Ha Has) as (rep & _ & _ & Hval).
  destruct (account_head _ _ Ha) as (b & Hent & Hget & Hown & Hrank).
  destruct (relink_loop_ok I loop_fuel (db_tables d) (head i) b 0 (rl_linked _ _ R) Hent) as (t' & E & R' & Hr).
  { pose proof (ib_fuel _ _ B). unfold query_fuel in *. lia. }
  unfold upgrade_v4_row. cbn [fst snd]. rewrite (st_run_ok _ _ d _ Hval). cbn [v5_head]. eexists. split.
  - apply on_tables_run. rewrite (st_bind_ok _ _ (db_tables d) (Some b) (db_tables d)); [exact E|].
    unfold st_get. by rewrite (linked_get I _ _ (rl_linked _ _ R)), Hget.
  - split; [by rewrite F|]. split; [by eapply relinked_trans|]. intros x Hx Hin. cbn [db_tables set_db_tables].
    rewrite fmap_app, elem_of_app in Hin. destruct Hin as [Hin|Hin].
    + apply (rl_right _ _ R'). by apply Hd.
    + apply list_elem_of_singleton in Hin. cbn [fst] in Hin. apply Hr; [done|congruence|]. by eapply account_chain.
Qed.

Lemma upgrade_v4_holds d : holds s 4 d -> exists d', upgrade_v4_to_v5 d = Ok (tt, d') /\ holds s 5 d'.
Proof.
  intros [_ L _ Hfr Hco Hac Hpe Hin _ Hw Hsq]. unfold upgrade_v4_to_v5. erewrite st_bind_ok by reflexivity.
  erewrite st_bind_ok by reflexivity. set (d1 := set_db_meta (insert 1 5) d).
  change (db_accounts d1) with (db_accounts d). set (rows := table_from 0 (db_accounts d)).
  destruct (st_each_rule (v5_until d1) upgrade_v4_row rows d1) as (d' & E & F & R & Hr).
  - intros done [a value] rest d0 Hrow Hd0. assert (Hx : (a, value) ∈ rows) by (rewrite Hrow; apply elem_of_app; right; by left).
    apply (rows_elem 4 d Hac), (row_account 4 d) in Hx as (i & Ha & Has); [|done]. by eapply upgrade_v4_row_ok.
  - split_and!; [done|by apply relinked_refl|]. intros x _ Hx. by apply not_elem_of_nil in Hx.
  - exists d'. split; [exact E|]. remember (db_tables d') as T eqn:HT. clear HT. subst d'.
    destruct R as [L' _ R1 R2 R3 R4]. cbn [db_tables set_db_tables d1 set_db_meta] in *.
    split; cbn [db_tables set_db_tables]; try done; try congruence.
    + left. apply lookup_insert_eq.
    + intros _ h. pose proof (linked_entry I T h L') as Hx. destruct (entry_at s h) as [[b m]|] eqn:He; [|done].
      rewrite <- He. apply Hr; [by eexists|]. apply (rows_keys 4 d Hac).
      destruct (ai_owner _ _ _ _ (iv_accounts _ _ _ I) _ _ _ He) as (i & Hi & _). by eexists.
    + rewrite R3. exact Hin.
    + intros _ r. unfold representation_get. rewrite R4. apply Hw. lia.
Qed.

(** ** Version 5 *)

Definition info_of a : account_info := default account_info_default (accounts s !! a).

Lemma headers_ok t rows : linked s t ->
  (forall a value, (a, value) ∈ rows -> exists i, accounts s !! a = Some i /\ account_as 5 i value) ->
  headers t rows = Ok ((fun r => (fst r, info_of (fst r))) <$> rows).
Proof.
  intros L. induction rows as [|[a value] rows IH]; intros Hrows; [done|].
  destruct (Hrows a value) as (i & Ha & Has); [by left|]. cbn [headers].
  destruct (v5_row 5 a i value ltac:(lia) Ha Has) as (rep & _ & Hrep & ->). rewrite (Hrep ltac:(lia)).
  cbn [v5_head v5_rep_block v5_open_block v5_balance v5_modified].
  destruct (account_head _ _ Ha) as (b & Hent & _ & _ & Hrank). rewrite (count_loop_ok I _ _ _ _ _ _ L Hent).
  2:{ pose proof (ib_fuel _ _ B). unfold query_fuel in *. lia. }
  rewrite IH by (intros; apply Hrows; by right). cbn [fmap list_fmap fst]. unfold info_of at 2. rewrite Ha.
  cbn [default from_option id]. rewrite Z.add_0_l, <- (ac_count _ _ _ _ (inv_head I _ _ Ha)). by destruct i.
Qed.

Lemma upgrade_v5_holds d : holds s 5 d -> exists d', upgrade_v5_to_v6 d = Ok (tt, d') /\ holds s 6 d'.
Proof.
  intros [_ L Hl Hfr Hco Hac Hpe Hin _ Hw Hsq]. unfold upgrade_v5_to_v6. erewrite st_bind_ok by reflexivity.
  set (d1 := set_db_meta (insert 1 6) d). set (rows := table_from 0 (db_accounts d)).
  assert (Hrows : forall a value, (a, value) ∈ rows -> exists i, accounts s !! a = Some i /\ account_as 5 i value).
  { intros a value Hx%(rows_elem 5 d Hac). by apply (row_account 5 d). }
  rewrite (st_run_ok _ _ d1 _ (headers_ok _ rows L Hrows)).
  set (l := (fun r => (fst r, info_of (fst r))) <$> rows).
  assert (Hk : fst <$> l = fst <$> rows) by (unfold l; rewrite <- list_fmap_compose; reflexivity).
  destruct (st_each_rule (fun done d0 => d0 = set_db_accounts (fun _ => db_accounts d0) d1
      /\ forall k, option_Forall2 (account_as (if decide (k ∈ fst <$> done) then 6 else 5)) (accounts s !! k) (db_accounts d0 !! k))
    (fun y => account_row_put (fst y) (account_info_val (snd y))) l d1) as (d' & E & F & Ha').
  - intros done [a i] rest d0 Hrow [F Hd0]. eexists. split; [reflexivity|]. split; [by rewrite F|].
    assert (Hx : (a, i) ∈ l) by (rewrite Hrow; apply elem_of_app; right; by left).
    apply list_elem_of_fmap in Hx as ([a' value] & [= -> ->] & Hx). destruct (Hrows _ _ Hx) as (i & Ha & _).
    rewrite fmap_app. cbn [db_accounts set_db_accounts fst snd fmap list_fmap]. apply (rows_replaced 5 6 _ _ a' i); [done|done|].
    unfold info_of. by rewrite Ha.
  - split; [done|exact (rows_none 5 6 _ Hac)].
  - exists d'. split; [exact E|]. remember (db_accounts d') as X eqn:HX. clear HX. subst d'. rewrite Hk in Ha'.
    split; try done; try lia.
    + left. apply lookup_insert_eq.
    + intros _. apply Hl. lia.
    + exact (rows_all 5 6 _ _ (rows_keys 5 d Hac) Ha').
Qed.

(** ** Versions 6 to 8 *)

Lemma upgrade_v6_holds d : holds s 6 d -> exists d', upgrade_v6_to_v7 d = Ok (tt, d') /\ holds s 7 d' /\ db_unchecked d' = [].
Proof.
  intros [_ L Hl Hfr Hco Hac Hpe Hin _ Hw Hsq]. eexists. split; [reflexivity|]. split; [|done].
  split; try done; try lia; try (intros _; apply Hl || apply Hw; lia).
  left. apply lookup_insert_eq.
Qed.

Lemma upgrade_v7_holds d : holds s 7 d -> exists d', upgrade_v7_to_v8 d = Ok (tt, d') /\ holds s 8 d' /\ db_unchecked d' = [].
Proof.
  intros [_ L Hl Hfr Hco Hac Hpe Hin _ Hw Hsq]. eexists. split; [reflexivity|]. split; [|done].
  split; try done; try lia; try (intros _; apply Hl || apply Hw; lia).
  left. apply lookup_insert_eq.
Qed.

Lemma read_u64_bytes bytes : length bytes = 8%nat -> read_u64 bytes = Got (le_combine bytes) [].
Proof.
  intros Hl. rewrite <- (app_nil_r bytes) at 1. unfold read_u64, read_le. erewrite rd_bind_got; [reflexivity|].
  apply read_app. exact Hl.
Qed.

(** Each row of the old table becomes a vote with its number. *)
Definition dummy `{Signing} (gb : open_block) (junk a : Z) (bytes : list byte) : list byte :=
  vote_serialize (vote_make a junk (le_combine bytes) (Open gb)).

Lemma upgrade_v8_holds `{Signing} gb junk d : holds s 8 d ->
  exists d', upgrade_v8_to_v9 gb junk d = Ok (tt, d') /\ holds s 9 d' /\ db_sequence d' = []
    /\ db_vote d' = foldl (fun m r => <[fst r := dummy gb junk (fst r) (snd r)]> m) (db_vote d) (db_sequence d).
Proof.
  intros [_ L Hl Hfr Hco Hac Hpe Hin _ Hw Hsq]. unfold upgrade_v8_to_v9. erewrite st_bind_ok by reflexivity.
  set (d1 := set_db_meta (insert 1 9) d). rewrite (st_bind_ok _ _ d1 (db_sequence d) d1) by reflexivity.
  destruct (st_each_rule (fun done d0 => d0 = set_db_vote (fun _ => foldl (fun m r => <[fst r := dummy gb junk (fst r) (snd r)]> m) (db_vote d) done) d1)
    (upgrade_v8_row gb junk) (db_sequence d) d1) as (d' & E & F).
  - intros done [a bytes] rest d0 Hrow ->. unfold upgrade_v8_row. cbn [fst snd].
    rewrite read_u64_bytes by (apply (Hsq a); rewrite Hrow; apply elem_of_app; right; by left).
    eexists. split; [reflexivity|]. by rewrite foldl_app.
  - done.
  - rewrite (st_bind_ok _ _ d1 tt d' E). subst d'. eexists. split; [reflexivity|]. split; [|done].
    split; try done; try lia; try (intros _; apply Hl || apply Hw; lia).
    + left. apply lookup_insert_eq.
    + intros a bytes Hx. by apply not_elem_of_nil in Hx.
Qed.

(** ** Version 9 *)

Lemma account_info_read i : account_info_ok i -> account_info_of_val (account_info_val i) = Ok i.
Proof.
  intros Hi. assert (Hz : forall w, 0 <= w -> fits w 0) by (intros w Hw; unfold fits; split; [lia|by apply Z.pow_pos_nonneg]).
  destruct (records_stored_and_read i pending_info_default (0, 0) (BlockInfo 0 0) Hi) as ((Hr & _) & _); [..|exact Hr].
  all: split; apply Hz; lia.
Qed.

Definition v10_until (d1 : database) (done : list (Z * list byte)) (d : database) : Prop :=
  d = set_db_tables (fun _ => db_tables d) d1 /\ more_info (s := s) (db_tables d1) (db_tables d)
  /\ forall x, is_Some (entry_at s x) -> gown g x ∈ fst <$> done -> gheight g x mod block_info_max = 0 ->
     blocks_info (db_tables d) !! x = Some (row_of (g := g) x).

Lemma upgrade_v9_row_ok d1 done a i d :
  entry_at (db_tables d1) = entry_at s -> accounts s !! a = Some i -> v10_until d1 done d ->
  exists d', upgrade_v9_row (a, account_info_val i) d = Ok (tt, d') /\ v10_until d1 (done ++ [(a, account_info_val i)]) d'.
Proof.
  intros Et Ha (F & M1 & Hd). pose proof M1 as (_ & _ & Hsub). pose proof (more_info_entries _ _ M1) as Ed. rewrite Et in Ed.
  destruct (inv_head I _ _ Ha) as [_ (hb & Hhead) Hown _ Hcount _ (ob & m & Hob & Hacc)].
  assert (Hheight : block_count i = gheight g (head i)).
  { rewrite Hcount. apply wrap_small. pose proof (height_rank I (head i) ltac:(by eexists)) as Hr.
    pose proof (entry_rank I _ _ _ Hhead). pose proof (ib_blocks _ _ B).
    pose proof (ei_height _ _ _ _ _ _ (inv_entry I _ _ _ Hhead)). unfold fits. lia. }
  unfold upgrade_v9_row. cbn [fst snd]. rewrite (st_run_ok _ _ d _ (account_info_read i (proj2 (ib_account _ _ B _ _ Ha)))).
  assert (Hnext : forall d', (d' = set_db_tables (fun _ => db_tables d') d1) -> more_info (s := s) (db_tables d) (db_tables d') ->
    (forall x, is_Some (entry_at s x) -> gown g x = a -> gheight g x mod block_info_max = 0 ->
       blocks_info (db_tables d') !! x = Some (row_of (g := g) x)) -> v10_until d1 (done ++ [(a, account_info_val i)]) d').
  { intros d' F' M2 Hx. split; [done|]. split; [by eapply more_info_trans|]. intros x Hex Hin Hm.
    rewrite fmap_app, elem_of_app in Hin. destruct Hin as [Hin|Hin%list_elem_of_singleton]; [|by apply Hx].
    exact (lookup_weaken _ _ _ _ (Hd x Hex Hin Hm) (proj1 (proj2 M2))). }
  destruct (Z.leb_spec block_info_max (block_count i)) as [Hle|Hlt].
  - assert (Hobo : gown g (open_block_hash i) = a).
    { pose proof (ei_block _ _ _ _ _ _ (inv_entry I _ _ _ Hob)) as (He & _). congruence. }
    pose proof (proj2 (chain_start I _ _ _ Hob eq_refl)) as Hone.
    destruct (info_loop_ok I (ib_fuel _ _ B) loop_fuel (db_tables d) (open_block_hash i) (Open ob) m 1 Ed Hsub Hob) as (t' & E & M2 & Hr).
    { by rewrite Hone. }
    { pose proof (ib_fuel _ _ B). unfold query_fuel in *. lia. }
    rewrite Hobo in E, Hr. eexists. split; [apply on_tables_run; exact E|]. apply Hnext; [by rewrite F|exact M2|].
    intros x Hex Ho. apply Hr; [done|done|]. rewrite Hone. destruct Hex as [[xb xm] Hx]. apply (inv_entry I _ _ _ Hx).
  - exists d. split; [reflexivity|]. apply Hnext; [done|by apply more_info_refl|]. intros x Hex Ho Hm.
    pose proof (account_chain _ _ _ Ha Hex Ho). destruct Hex as [[xb xm] Hx].
    pose proof (ei_height _ _ _ _ _ _ (inv_entry I _ _ _ Hx)). rewrite Z.mod_small in Hm; unfold block_info_max in *; lia.
Qed.

Lemma upgrade_v9_holds d : holds s 9 d ->
  exists d', upgrade_v9_to_v10 d = Ok (tt, d') /\ holds s 10 d' /\ db_unchecked d' = db_unchecked d /\ db_vote d' = db_vote d.
Proof.
  intros [_ L Hl Hfr Hco Hac Hpe Hin _ Hw Hsq]. unfold upgrade_v9_to_v10. erewrite st_bind_ok by reflexivity.
  erewrite st_bind_ok by reflexivity. set (d1 := set_db_meta (insert 1 10) d).
  change (db_accounts d1) with (db_accounts d). set (rows := table_from 0 (db_accounts d)).
  pose proof (right_entries I (db_tables d1) L (Hl ltac:(lia))) as Et.
  destruct (st_each_rule (v10_until d1) upgrade_v9_row rows d1) as (d' & E & F & M1 & Hr).
  - intros done [a value] rest d0 Hrow Hd0. assert (Hx : (a, value) ∈ rows) by (rewrite Hrow; apply elem_of_app; right; by left).
    apply (rows_elem 9 d Hac), (row_account 9 d) in Hx as (i & Ha & Hv); [|done]. change (value = account_info_val i) in Hv. subst value. by apply upgrade_v9_row_ok.
  - split_and!; [done| |intros x _ Hx; by apply not_elem_of_nil in Hx]. apply more_info_refl, map_subseteq_spec, Hin.
  - exists d'. split; [exact E|]. destruct M1 as (Ft & _ & Hsub). rewrite Ft in F, Hr. remember (blocks_info (db_tables d')) as X eqn:HX.
    clear HX Ft. subst d'. cbn [blocks_info set_blocks_info] in Hr. split; [|done]. split; try done.
    + left. apply lookup_insert_eq.
    + intros h i Hx. exact (lookup_weaken _ _ _ _ Hx Hsub).
    + intros _. cbn [blocks_info set_blocks_info db_tables set_db_tables]. apply map_eq. intros h.
      destruct (X !! h) as [i|] eqn:Hx; [symmetry; exact (lookup_weaken _ _ _ _ Hx Hsub)|].
      rewrite (iv_info _ _ _ I h). case_decide as Hc; [|done]. destruct Hc as [[[b m] He] Hm]. rewrite (Hr h) in Hx; [done|by eexists| |done].
      apply (rows_keys 9 d Hac). destruct (ai_owner _ _ _ _ (iv_accounts _ _ _ I) _ _ _ He) as (i & Hi & _). by eexists.
Qed.
End Steps.
