(* ===== verification/UpgradeTheorems.v ===== *)
(** * A database of any version opens as its ledger

    The upgrades put together, what the tables read as afterwards, a new database,
    and the versions the program does not know. *)
From Stdlib Require Import ZArith Lia List.
From stdpp Require Import prelude gmap sorting.
From S2P Require Import Prelude Lists Numbers Streams Blocks Store Ledger StoreFacts LedgerInv LedgerQueries LedgerProcess LedgerTheorems Codecs Votes BootstrapServer BootstrapTheorems Versioning Upgrades UpgradeFacts UpgradeSteps.

Local Open Scope m_scope.

(** What the tables of an opened database read as. *)
Record opened `{Environment, IntConversion} (s : store) (d : database) : Prop := {
  op_version : version_get d = Ok 10;
  op_account a : account_row d a = Ok (account_get s a);
  op_pending k : pending_row d k = Ok (pending_get s k);
  op_blocks ty : block_database ty (db_tables d) = block_database ty s;
  op_frontiers : frontiers (db_tables d) = frontiers s;
  op_codes : vm_codes (db_tables d) = vm_codes s;
  op_info : blocks_info (db_tables d) = blocks_info s;
  op_weight r : representation_get (db_tables d) r = representation_get s r;
  op_checksum : exists t, ledger_checksum (db_tables d) = Ok (0, t)
}.

(** A run of steps, each of which takes one version to the next. *)
Definition step_ok (P : Z -> database -> Prop) (v : Z) (m : M database unit) : Prop :=
  forall d, P v d -> exists d', m d = Ok (tt, d') /\ P (v + 1) d'.

Lemma steps_ok (P : Z -> database -> Prop) (l : list (M database unit)) (v : Z) (d : database) :
  (forall j m, l !! j = Some m -> step_ok P (v + Z.of_nat j) m) -> P v d ->
  exists d', st_each id l d = Ok (tt, d') /\ P (v + Z.of_nat (length l)) d'.
Proof.
  revert v d. induction l as [|m l IH]; intros v d Hl Hd.
  - exists d. split; [done|]. by rewrite Z.add_0_r.
  - cbn [st_each length]. destruct (Hl 0%nat m eq_refl d) as (d1 & E1 & Hd1); [by rewrite Z.add_0_r|].
    rewrite (st_bind_ok _ _ d tt d1 E1). rewrite Z.add_0_r in Hd1. destruct (IH (v + 1) d1) as (d2 & E2 & Hd2); [|exact Hd1|].
    + intros j m' Hj. replace (v + 1 + Z.of_nat j) with (v + Z.of_nat (S j)) by lia. by apply Hl.
    + exists d2. split; [exact E2|]. by replace (v + Z.of_nat (S (length l))) with (v + 1 + Z.of_nat (length l)) by lia.
Qed.

Section Opening.
Context `{Environment, IntConversion, Signing} {n : nat} {g : ghost} {s : store} (I : inv_with n g s) (B : in_bounds n s).
Context (gb : open_block) (junk : Z).
Implicit Types (d : database).

Lemma upgrades_ok j m : upgrades gb junk !! j = Some m -> step_ok (holds s) (1 + Z.of_nat j) m.
Proof.
  intros Hj d Hd. destruct j as [|[|[|[|[|[|[|[|[|j]]]]]]]]]; [injection Hj as <-..|discriminate Hj].
  - exact (upgrade_v1_holds I B d Hd).
  - exact (upgrade_v2_holds I B d Hd).
  - exact (upgrade_v3_holds B d Hd).
  - exact (upgrade_v4_holds I B d Hd).
  - exact (upgrade_v5_holds I B d Hd).
  - destruct (upgrade_v6_holds d Hd) as (d' & E & H' & _). by exists d'.
  - destruct (upgrade_v7_holds d Hd) as (d' & E & H' & _). by exists d'.
  - destruct (upgrade_v8_holds gb junk d Hd) as (d' & E & H' & _). by exists d'.
  - destruct (upgrade_v9_holds I B d Hd) as (d' & E & H' & _). by exists d'.
Qed.

Lemma holds_version (v : Z) d : 1 <= v <= 10 -> holds s v d -> version_get d = Ok v.
Proof.
  intros Hv Hd. unfold version_get. destruct (hd_version _ _ _ Hd) as [->|[-> ->]]; [|done].
  replace (v <? 2 ^ 64) with true by lia. by rewrite convert_to_int_small by lia.
Qed.

Lemma do_upgrades_ok (v : Z) d : 1 <= v <= 10 -> holds s v d ->
  exists d', do_upgrades gb junk d = Ok (tt, d') /\ holds s 10 d'.
Proof.
  intros Hv Hd. unfold do_upgrades. rewrite (st_run_ok _ _ d _ (holds_version v d Hv Hd)).
  replace ((1 <=? v) && (v <=? 10)) with true by lia.
  destruct (steps_ok (holds s) (drop (Z.to_nat (v - 1)) (upgrades gb junk)) v d) as (d' & E & H'); [|done|].
  - intros j m. rewrite lookup_drop. intros Hm%upgrades_ok. by replace (v + Z.of_nat j) with (1 + Z.of_nat (Z.to_nat (v - 1) + j)) by lia.
  - exists d'. split; [exact E|]. rewrite length_drop in H'. cbn [length upgrades] in H'. by replace 10 with (v + Z.of_nat (9 - Z.to_nat (v - 1))) by lia.
Qed.

Lemma pending_info_read i : pending_info_ok i -> pending_info_of_val (pending_info_val i) = Ok i.
Proof.
  intros Hi. assert (Hz : forall w, 0 <= w -> fits w 0) by (intros w Hw; unfold fits; split; [lia|by apply Z.pow_pos_nonneg]).
  destruct (records_stored_and_read account_info_default i (0, 0) (BlockInfo 0 0)) as (_ & (Hr & _) & _); [|exact Hi| |..|exact Hr];
    repeat split; try (apply Hz; lia); cbn; lia.
Qed.

Lemma account_info_streamed i : account_info_ok i -> account_info_deserialize (account_info_val i) = Got i [].
Proof.
  intros Hi. pose proof (read_written i [] Hi) as Hr. rewrite app_nil_r in Hr. exact Hr.
Qed.

Lemma holds_opened d : holds s 10 d -> opened s (set_db_tables (set_checksums (insert 0 0)) d).
Proof.
  intros Hd. pose proof Hd as [_ L Hl Hfr Hco Hac Hpe _ Hin Hw _]. split; try done.
  - exact (holds_version 10 d ltac:(lia) Hd).
  - intros a. specialize (Hac a). unfold account_row, account_get. cbn [db_accounts set_db_tables].
    destruct (accounts s !! a) as [i|] eqn:Ha, (db_accounts d !! a) as [value|]; inversion Hac as [? ? Hv|]; subst; [|done].
    change (value = account_info_val i) in Hv. subst value.
    by rewrite account_info_streamed by apply (ib_account _ _ B _ _ Ha).
  - intros [dst h]. unfold pending_row, pending_get. cbn [db_pending set_db_tables].
    destruct (db_pending d !! inr (dst, h)) as [value|] eqn:Hx.
    + apply Hpe in Hx as (dst' & h' & i & Hp & [= <- <-] & ->). rewrite Hp.
      by rewrite pending_info_read by apply (ib_pending _ _ B _ _ Hp).
    + destruct (pending s !! (dst, h)) as [i|] eqn:Hp; [|done].
      assert (Hy : db_pending d !! inr (dst, h) = Some (pending_info_val i)) by (apply Hpe; by exists dst, h, i). congruence.
  - intros ty. exact (right_tables I (db_tables d) L (Hl ltac:(lia)) ty).
  - exact (Hin ltac:(lia)).
  - exact (Hw ltac:(lia)).
  - eexists. unfold ledger_checksum. rewrite (st_bind_ok _ _ _ (Some 0) (set_checksums (insert 0 0) (db_tables d))); [reflexivity|].
    unfold checksum_get. rewrite st_assert_true by reflexivity. unfold st_get. cbn [db_tables set_db_tables checksums set_checksums].
    change (checksum_key 0 0) with 0. by rewrite lookup_insert_eq.
Qed.

Lemma block_store_opened (v : Z) d : 1 <= v <= 10 -> holds s v d ->
  exists d', block_store_new gb junk false (repeat false 16) d = Ok (false, d') /\ opened s d'.
Proof.
  intros Hv Hd. destruct (do_upgrades_ok v d Hv Hd) as (d1 & E & Hd1). unfold block_store_new. cbn [orb existsb repeat id].
  rewrite (st_bind_ok _ _ d tt d1 E). eexists. split; [reflexivity|]. by apply holds_opened.
Qed.
End Opening.

(** C5: a database of any earlier version opens as its ledger.  When the tables hold
    a reachable ledger in the form of one of the versions 1 to 10, with whatever that
    version did not keep or kept otherwise (the records of the accounts, the keys of
    the pending sends, the links between blocks, the first block, the number of
    blocks and the representative of an account, the weights, the recorded
    balances), the constructor of the store runs through the remaining upgrades
    without failing, and then every table reads exactly as that ledger does.  The
    checksum alone is lost: it is zero, whatever the heads are. *)
Theorem old_database_opened `{Environment, IntConversion, Signing} gb n s v d junk :
  reachable gb n s -> in_bounds n s -> 1 <= v <= 10 -> holds s v d ->
  exists d', block_store_new gb junk false (repeat false 16) d = Ok (false, d') /\ opened s d'.
Proof.
  intros R B Hv Hd. destruct (reachable_inv gb n s R (ib_fuel _ _ B)) as (g & I).
  exact (block_store_opened I B gb junk v d Hv Hd).
Qed.

(** ** What an old node would have *)

(** The database of version 1 that holds a ledger: no links between blocks, no
    first blocks, counts, weights or recorded balances. *)
Definition unlinked (m : gmap Z (block * block_hash)) : gmap Z (block * block_hash) := (fun e => (fst e, 0)) <$> m.

Definition as_version_1 (s : store) : database :=
  Database ∅
    ((fun i => account_info_v1_val (AccountInfoV1 (head i) 0 (balance_of i) (modified i))) <$> accounts s)
    (list_to_map ((fun r => (inl (snd (fst r)), v3_value (fst (fst r)) (snd r))) <$> map_to_list (pending s)))
    [] ∅ [] ∅
    (Store (frontiers s) ∅ (vm_codes s) (unlinked (send_blocks s)) (unlinked (send_blocks_v2 s))
       (unlinked (receive_blocks s)) (unlinked (open_blocks s)) (unlinked (change_blocks s)) ∅ ∅ ∅ ∅).

Section Downgrade.
Context `{Environment} {n : nat} {g : ghost} {s : store} (I : inv_with n g s).

Lemma unlinked_lookup ty h :
  lookup_in ty (db_tables (as_version_1 s)) h = (fun e => (fst e, 0)) <$> lookup_in ty s h.
Proof. unfold lookup_in. destruct ty; cbn [block_database]; try done; apply lookup_fmap. Qed.

(** A hash has one pending entry. *)
Lemma pending_one d1 d2 h i1 i2 : pending s !! (d1, h) = Some i1 -> pending s !! (d2, h) = Some i2 -> d1 = d2.
Proof.
  intros Hp1 Hp2. destruct (pi_entry _ _ _ (iv_pending _ _ _ I) _ _ _ Hp1) as (sb & m & E1 & <- & _).
  destruct (pi_entry _ _ _ (iv_pending _ _ _ I) _ _ _ Hp2) as (sb' & m' & E2 & <- & _). congruence.
Qed.

Lemma v1_pending k value :
  db_pending (as_version_1 s) !! k = Some value
  <-> exists destination h i, pending s !! (destination, h) = Some i /\ pending_as 1 destination h i k value.
Proof.
  cbn [db_pending as_version_1]. rewrite <- elem_of_list_to_map.
  - rewrite list_elem_of_fmap. split.
    + intros ([[d h] i] & [= -> ->] & Hin%elem_of_map_to_list). by exists d, h, i.
    + intros (d & h & i & Hp & -> & ->). exists ((d, h), i). split; [done|]. by apply elem_of_map_to_list.
  - rewrite <- list_fmap_compose. assert (Hn : NoDup (map_to_list (pending s))) by apply NoDup_map_to_list.
    assert (Hin : forall x, x ∈ map_to_list (pending s) -> pending s !! fst x = Some (snd x))
      by (intros [k' i'] Hx%elem_of_map_to_list; exact Hx).
    induction Hn as [|[[d h] i] l Hx Hn IH]; [constructor|]. rewrite fmap_cons. constructor.
    + cbn [compose fst snd]. rewrite list_elem_of_fmap. intros ([[d' h'] i'] & [= Hh] & Hl). cbn [fst snd] in Hh. subst h'.
      pose proof (Hin _ (list_elem_of_here _ _)) as P1. pose proof (Hin _ (list_elem_of_further _ _ _ Hl)) as P2. cbn [fst snd] in P1, P2.
      pose proof (pending_one _ _ _ _ _ P1 P2) as ->. assert (i' = i) as -> by congruence. by apply Hx.
    + apply IH. intros x Hl. apply Hin. by right.
Qed.

Lemma as_version_1_holds : holds s 1 (as_version_1 s).
Proof.
  split; try done; try lia.
  - right. split; [done|]. apply lookup_empty.
  - intros ty h. rewrite unlinked_lookup. destruct (lookup_in ty s h) as [[b m]|]; [|done]. exists 0. by split; [|right].
  - intros a. cbn [db_accounts as_version_1]. rewrite lookup_fmap. destruct (accounts s !! a) as [i|]; constructor.
    exists 0. split; [by split|done].
  - apply v1_pending.
  - intros a bytes Hx. by apply not_elem_of_nil in Hx.
Qed.
End Downgrade.

(** ** A new database *)

(** A database that was just made, at some version. *)
Record blank (v : Z) (d : database) : Prop := {
  bl_version : v = 1 \/ db_meta d !! 1 = Some v;
  bl_accounts : db_accounts d = ∅;
  bl_pending : db_pending d = ∅;
  bl_sequence : db_sequence d = [];
  bl_tables : db_tables d = empty_store
}.

Lemma blank_step `{Environment, IntConversion, Signing} gb junk j m :
  (1 <= loop_fuel)%nat -> upgrades gb junk !! j = Some m -> step_ok blank (1 + Z.of_nat j) m.
Proof.
  intros Hf Hj d [Hv Ha Hp Hs Ht].
  assert (Hblank : forall v, blank v (set_db_meta (insert 1 v) d)) by (intros v; split; try done; right; apply lookup_insert_eq).
  assert (Hsame : forall v, blank v (set_db_unchecked (fun _ => []) (set_db_meta (insert 1 v) d)))
    by (intros v; split; try done; right; apply lookup_insert_eq).
  destruct d as [me ac pe un us sq vo tb]. cbn [db_accounts db_pending db_sequence db_tables] in *. subst.
  destruct j as [|[|[|[|[|[|[|[|[|j]]]]]]]]]; [injection Hj as <-..|discriminate Hj].
  6,7: eexists; split; [|apply Hsame]; reflexivity.
  all: eexists; (split; [|apply Hblank]).
  1: { unfold upgrade_v1_to_v2. destruct loop_fuel as [|fuel]; [lia|]. reflexivity. }
  all: reflexivity.
Qed.

(** A new database is brought through all the versions, and its tables are those
    of a store that nothing was put into. *)
Theorem new_database_opened `{Environment, IntConversion, Signing} gb junk :
  (1 <= loop_fuel)%nat ->
  exists d, block_store_new gb junk false (repeat false 16) empty_database = Ok (false, d)
    /\ version_get d = Ok 10 /\ db_tables d = initial_store /\ db_accounts d = ∅ /\ db_pending d = ∅.
Proof.
  intros Hf. destruct (steps_ok blank (upgrades gb junk) 1 empty_database) as (d & E & [[?|Hv] Ha Hp _ Ht]);
    [intros j m; by apply blank_step|by split; [left|..]|discriminate|].
  exists (set_db_tables (set_checksums (insert 0 0)) d). split_and!; [|..|by cbn; rewrite Ht|done|done].
  - unfold block_store_new. cbn [orb existsb repeat id]. erewrite st_bind_ok; [reflexivity|].
    unfold do_upgrades. rewrite (st_run_ok _ _ empty_database 1) by reflexivity. exact E.
  - unfold version_get. cbn [db_meta set_db_tables]. rewrite Hv. by rewrite convert_to_int_small by (cbn; lia).
Qed.

(** ** Versions the program does not know *)

(** A database of a later version stops the program before anything is changed:
    it is not taken for one of this version. *)
Theorem later_version_refused `{Environment, IntConversion, Signing} gb junk d v :
  db_meta d !! 1 = Some v -> 10 < v < 2 ^ 31 ->
  block_store_new gb junk false (repeat false 16) d = Fault Assertion_failed.
Proof.
  intros Hm Hv. unfold block_store_new. cbn [orb existsb repeat id]. apply st_bind_fault. unfold do_upgrades.
  erewrite st_run_ok.
  2:{ unfold version_get. rewrite Hm. replace (v <? 2 ^ 64) with true by lia. reflexivity. }
  rewrite convert_to_int_small by lia. by replace ((1 <=? v) && (v <=? 10)) with false by lia.
Qed.

(** ** Votes *)

(** The numbers of the old table are those of the votes a node goes on from. *)
Theorem sequences_kept `{Environment, Signing} {s : store} gb junk d a bytes :
  holds s 8 d -> NoDup (fst <$> db_sequence d) -> (a, bytes) ∈ db_sequence d ->
  fits 256 a -> block_ok (Open gb) -> (forall prv b c, fits 512 (sign_message prv b c)) ->
  exists d' v, upgrade_v8_to_v9 gb junk d = Ok (tt, d')
    /\ vote_get (VoteStore (db_vote d') ∅) a = Ok (Some v) /\ v_sequence v = le_combine bytes /\ v_account v = a.
Proof.
  intros Hd Hn Hin Ha Hb Hs. destruct (upgrade_v8_holds gb junk d Hd) as (d' & E & _ & _ & Hv).
  exists d', (vote_make a junk (le_combine bytes) (Open gb)). split; [exact E|]. split; [|done].
  assert (Hrow : db_vote d' !! a = Some (dummy gb junk a bytes)).
  { rewrite Hv. generalize (db_vote d). clear Hv E. induction (db_sequence d) as [|[k w] l IH]; [by apply not_elem_of_nil in Hin|].
    rewrite fmap_cons, NoDup_cons in Hn. destruct Hn as [Hk Hn]. cbn [foldl fst snd]. intros m.
    apply elem_of_cons in Hin as [[= -> ->]|Hin]; [|by apply IH].
    assert (Hkeep : forall m : gmap Z (list byte), foldl (fun m r => <[fst r := dummy gb junk (fst r) (snd r)]> m) m l !! k = m !! k);
      [|by rewrite Hkeep, lookup_insert_eq].
    clear IH Hn m. induction l as [|[k' w'] l IH]; intros m; [done|]. cbn [foldl fst snd]. rewrite IH.
    - apply lookup_insert_ne. intros ->. apply Hk. by left.
    - intros Hx. apply Hk. by right. }
  unfold vote_get. cbn [vote_db]. rewrite Hrow. unfold vote_of_val, dummy.
  assert (Hok : vote_ok (vote_make a junk (le_combine bytes) (Open gb))).
  { split_and!; [|done|done|apply Hs]. pose proof (hd_sequences _ _ _ Hd _ _ Hin) as Hlen.
    pose proof (le_combine_fits bytes) as Hbd. rewrite Hlen in Hbd. exact Hbd. }
  pose proof (read_written (vote_make a junk (le_combine bytes) (Open gb)) [] Hok) as Hr. rewrite app_nil_r in Hr. cbn [to_stream from_stream vote_serializable] in Hr. by rewrite Hr.
Qed.
