(* ===== verification/UpgradeExamples.v ===== *)
(** * An old database, opened

    The small ledger as a database of version 1, and what the program makes of it. *)
From Stdlib Require Import ZArith Lia List.
From stdpp Require Import prelude gmap sorting.
From S2P Require Import Prelude Lists Numbers Streams Blocks Store Ledger StoreFacts LedgerInv LedgerQueries LedgerProcess LedgerTheorems LedgerExamples Codecs Votes VotesExamples BootstrapServer Versioning Upgrades UpgradeFacts UpgradeSteps UpgradeTheorems.

(** A conversion that keeps the low 32 bits. *)
#[export] Instance low_bits : IntConversion.
Proof.
  refine {| convert_to_int v := (v + 2 ^ 31) mod 2 ^ 32 - 2 ^ 31 |}.
  intros v Hv. rewrite Z.mod_small; lia.
Defined.

#[export] Instance account_info_ok_dec i : Decision (account_info_ok i).
Proof. unfold account_info_ok. apply _. Defined.
#[export] Instance pending_info_ok_dec i : Decision (pending_info_ok i).
Proof. unfold pending_info_ok. apply _. Defined.
#[export] Instance pending_key_ok_dec k : Decision (pending_key_ok k).
Proof. unfold pending_key_ok. apply _. Defined.

Lemma ledger_4_bounds : in_bounds 4 ledger_4.
Proof.
  split.
  - apply fuel_ok. lia.
  - vm_compute. lia.
  - vm_compute. reflexivity.
  - assert (Ha : map_Forall (fun a i => fits 256 a /\ account_info_ok i) (accounts ledger_4))
      by (apply (bool_decide_unpack _); vm_compute; exact I).
    exact Ha.
  - assert (Hp : map_Forall (fun k i => pending_key_ok k /\ pending_info_ok i) (pending ledger_4))
      by (apply (bool_decide_unpack _); vm_compute; exact I).
    exact Hp.
Qed.

Lemma ledger_4_old : holds ledger_4 1 (as_version_1 ledger_4).
Proof.
  destruct (reachable_inv _ _ _ reach_4 (fuel_ok 4 ltac:(lia))) as (g & J). exact (as_version_1_holds J).
Qed.

(** The old database of the ledger of four blocks opens, and the account that was
    sent something is there with the record it has in the ledger. *)
Lemma old_database_opened_witness :
  exists d, block_store_new live_genesis 9 false (repeat false 16) (as_version_1 ledger_4) = Ok (false, d)
    /\ version_get d = Ok 10 /\ account_row d other_account = Ok (account_get ledger_4 other_account)
    /\ is_Some (account_get ledger_4 other_account).
Proof.
  destruct (old_database_opened live_genesis 4 ledger_4 1 (as_version_1 ledger_4) 9 reach_4 ledger_4_bounds ltac:(lia) ledger_4_old)
    as (d & E & [Hv Ha _ _ _ _ _ _ _]).
  exists d. split_and!; [exact E|exact Hv|apply Ha|]. apply (bool_decide_unpack _). vm_compute. exact I.
Defined.

(** The checksum of the ledger is not zero, that of the opened database is. *)
Theorem checksum_lost :
  (exists c t, ledger_checksum ledger_4 = Ok (c, t) /\ c <> 0)
  /\ exists d t, block_store_new live_genesis 9 false (repeat false 16) (as_version_1 ledger_4) = Ok (false, d)
     /\ ledger_checksum (db_tables d) = Ok (0, t).
Proof.
  split.
  - eexists _, _. split; [vm_compute; reflexivity|]. discriminate.
  - destruct (reachable_inv _ _ _ reach_4 (fuel_ok 4 ltac:(lia))) as (g & J).
    destruct (block_store_opened J ledger_4_bounds live_genesis 9 1 (as_version_1 ledger_4) ltac:(lia) ledger_4_old) as (d & E & Ho).
    destruct (op_checksum _ _ Ho) as (t & Ht). exists d, t. split; [exact E|exact Ht].
Qed.
