(* ===== verification/NumberText.v ===== *)
(** * Numbers as text (rai/lib/numbers.cpp)

    The hexadecimal and decimal text of the unions, and the text of a balance for
    a user: [format_frac], [format_dec] and [format_balance].

    Characters are [ascii]; a text is a list of them.  Writing and reading a large
    number with a stream is the work of [boost::multiprecision], which is the class
    [NumberStream]: what is written is the usual text of the number, and a text
    that was written is read as the number, up to the end of the stream.  A
    division by zero is an exception ([None]). *)
From Stdlib Require Import ZArith Lia List Ascii String.
From stdpp Require Import prelude.
From S2P Require Import Prelude Numbers.

Abbreviation text := (list ascii) (only parsing).

(** ** Digits *)

Definition digit_char (d : Z) : ascii :=
  ascii_of_N (Z.to_N (if d <? 10 then 48 + d else 87 + d)).

(** The [c] lowest digits of a number in a base. *)
Fixpoint digits (base : Z) (c : nat) (n : Z) : list Z :=
  match c with
  | O => []
  | S c => digits base c (n / base) ++ [n mod base]
  end.

Fixpoint count_digits (fuel : nat) (base n : Z) : nat :=
  match fuel with
  | O => 1
  | S fuel => if n <? base then 1%nat else S (count_digits fuel base (n / base))
  end.

(** The usual text of a number, with at least [width] digits. *)
Definition number_text (base : Z) (width : nat) (n : Z) : text :=
  map digit_char (digits base (Nat.max width (count_digits (Z.to_nat (Z.log2 n)) base n)) n).

Class NumberStream := {
  put_hex : nat -> Z -> text;
  put_dec : Z -> text;
  get_hex : Z -> text -> option (Z * bool);
  get_dec : Z -> text -> option (Z * bool);
  put_hex_text width n : 0 <= n -> put_hex width n = number_text 16 width n;
  put_dec_text n : 0 <= n -> put_dec n = number_text 10 1 n;
  get_hex_text w width n : fits w n -> get_hex w (number_text 16 width n) = Some (n, true);
  get_dec_text w n : fits w n -> get_dec w (number_text 10 1 n) = Some (n, true)
}.

Section NumberText.
Context `{NumberStream}.

(** ** Hexadecimal and decimal text of the unions

    [None] is the error; the unions are their numbers. *)

Definition read_all (r : option (Z * bool)) : option Z :=
  match r with Some (n, true) => Some n | Some (_, false) | None => None end.

Definition encode_hex256 (u : Z) : text := put_hex 64 u.
Definition decode_hex256 (t : text) : option Z :=
  if negb (length t =? 0)%nat && (length t <=? 64)%nat then read_all (get_hex 256 t) else None.
Definition encode_hex512 (u : Z) : text := put_hex 128 u.
Definition decode_hex512 (t : text) : option Z :=
  if (128 <? length t)%nat then None else read_all (get_hex 512 t).
Definition encode_hex128 (u : Z) : text := put_hex 32 u.
Definition decode_hex128 (t : text) : option Z :=
  if (32 <? length t)%nat then None else read_all (get_hex 128 t).

Definition starts_with (c : ascii) (t : text) : bool :=
  match t with x :: _ => Ascii.eqb x c | [] => false end.

Definition encode_dec256 (u : Z) : text := put_dec u.
Definition decode_dec256 (t : text) : option Z :=
  if (78 <? length t)%nat || (1 <? length t)%nat && starts_with "0" t || (0 <? length t)%nat && starts_with "-" t
  then None else read_all (get_dec 256 t).
Definition encode_dec128 (u : Z) : text := put_dec u.
Definition decode_dec128 (t : text) : option Z :=
  if (39 <? length t)%nat || (1 <? length t)%nat && starts_with "0" t || (0 <? length t)%nat && starts_with "-" t
  then None else read_all (get_dec 128 t).

(** ** Balances *)

(** Division of two 128-bit numbers. *)
Definition div128 (a b : Z) : option Z := if b =? 0 then None else Some (a / b).

(** [format_frac]; the loop ends because [precision] falls. *)
Fixpoint format_frac_loop (precision : nat) (reduce rem : Z) : option text :=
  match precision with
  | O => Some []
  | S precision =>
      if (1 <? reduce) && (0 <? rem) then
        let reduce := reduce / 10 in
        match div128 rem reduce with
        | None => None
        | Some val =>
            match format_frac_loop precision reduce (rem - val * reduce) with
            | Some rest => Some (put_dec val ++ rest)
            | None => None
            end
        end
      else Some []
  end.
Definition format_frac (value scale precision : Z) : option text := format_frac_loop (Z.to_nat precision) scale value.

(** The largest power of ten that is not above the value, and its number of digits. *)
Fixpoint pow10_loop (fuel : nat) (value largestPow10 : Z) (dec_count : nat) : Z * nat :=
  match fuel with
  | O => (largestPow10, dec_count)
  | S fuel =>
      let next := wrap 256 (largestPow10 * 10) in
      if value <? next then (largestPow10, dec_count) else pow10_loop fuel value next (S dec_count)
  end.

(** The positions, from the right, behind which a separator goes. *)
Fixpoint emit_loop (n : nat) (groupings : list Z) (group_index : nat) (group_count : Z) : list bool :=
  match n with
  | O => []
  | S n =>
      let group_count := group_count + 1 in
      if nth group_index groupings 0 <? group_count
      then true :: emit_loop n groupings (Nat.min (S group_index) (length groupings - 1)) 1
      else false :: emit_loop n groupings group_index group_count
  end.

Definition is_nul (c : ascii) : bool := Ascii.eqb c zero.

(** The digits from the left; [reduce] is the power of ten of the digit, [dec_count]
    the number of digits from it on.  [None] is also a loop that has not ended. *)
Fixpoint dec_loop (fuel : nat) (dec_count : nat) (reduce rem : Z) (group_sep : ascii) (emit_group : list bool) : option text :=
  if negb (0 <? reduce) then Some [] else
  match fuel with
  | O => None
  | S fuel =>
      match div128 rem reduce with
      | None => None
      | Some val =>
          let dec_count := pred dec_count in
          let sep := if negb (is_nul group_sep) && nth dec_count emit_group false && (1 <? reduce) then [group_sep] else [] in
          match dec_loop fuel dec_count (reduce / 10) (rem - val * reduce) group_sep emit_group with
          | Some rest => Some (put_dec val ++ sep ++ rest)
          | None => None
          end
      end
  end.

Definition format_dec (value : Z) (group_sep : ascii) (groupings : list Z) : option text :=
  let '(largestPow10, dec_count) := pow10_loop 77 value 1 1 in
  if (39 <? dec_count)%nat then Some []
  else
    let emit_group := if is_nul group_sep then [] else emit_loop dec_count groupings 0 0 in
    dec_loop 40 dec_count (wrap 128 largestPow10) value group_sep emit_group.

Definition format_balance (balance scale precision : Z) (group_digits : bool) (thousands_sep decimal_point : ascii)
    (grouping : list Z) : option text :=
  match div128 balance scale with
  | None => None
  | Some int_part =>
      let frac_part := balance mod scale in
      let prec_scale := Nat.iter (Z.to_nat precision) (fun s => s / 10) scale in
      let below :=
        if (int_part =? 0) && (0 <? frac_part) then
          match div128 frac_part prec_scale with Some q => Some (q =? 0) | None => None end
        else Some false in
      match below with
      | None => None
      | Some true =>
          Some ("<"%char :: " "%char ::
                (if 0 <? precision then "0"%char :: decimal_point :: repeat "0"%char (Z.to_nat (precision - 1)) else [])
                ++ ["1"%char])
      | Some false =>
          let sep := if group_digits && (0 <? length grouping)%nat then thousands_sep else zero in
          match format_dec int_part sep grouping with
          | None => None
          | Some int_text =>
              if (0 <? precision) && (0 <? frac_part) then
                match format_frac frac_part scale precision with
                | Some frac_text => Some (int_text ++ decimal_point :: frac_text)
                | None => None
                end
              else Some int_text
          end
      end
  end.

(** [uint128_union::format_balance] without a locale: what the locale of the program says, and groups of three. *)
Definition format_balance_default (balance scale precision : Z) (group_digits : bool) (thousands_sep decimal_point : ascii) : option text :=
  format_balance balance scale precision group_digits thousands_sep decimal_point [3].

End NumberText.

(** ** Digits *)

Lemma length_base_digits base c n : length (digits base c n) = c.
Proof. revert n. induction c as [|c IH]; intros n; [done|]. cbn [digits]. rewrite length_app, IH. cbn. lia. Qed.

Lemma digits_range base c n d : 0 < base -> In d (digits base c n) -> 0 <= d < base.
Proof.
  intros Hb. revert n. induction c as [|c IH]; intros n Hd; [done|]. cbn [digits] in Hd.
  apply in_app_or in Hd as [Hd|[<-|[]]]; [by eapply IH|]. by apply Z.mod_pos_bound.
Qed.

Lemma pow_succ base c : base ^ Z.of_nat (S c) = base * base ^ Z.of_nat c.
Proof. rewrite Nat2Z.inj_succ, Z.pow_succ_r by lia. done. Qed.

Lemma digits_cons base c n : 1 < base -> 0 <= n ->
  digits base (S c) n = (n / base ^ Z.of_nat c) mod base :: digits base c n.
Proof.
  intros Hb. revert n. induction c as [|c IH]; intros n Hn.
  - cbn [digits app]. by rewrite Z.pow_0_r, Z.div_1_r.
  - transitivity (digits base (S c) (n / base) ++ [n mod base]); [reflexivity|].
    rewrite IH by (apply Z.div_pos; lia). rewrite Z.div_div by (try apply Z.pow_pos_nonneg; lia).
    rewrite <- pow_succ. reflexivity.
Qed.

Lemma digits_mod base c n m : 1 < base -> 0 <= n -> (Z.of_nat c <= m) -> digits base c (n mod base ^ m) = digits base c n.
Proof.
  intros Hb. revert n m. induction c as [|c IH]; intros n m Hn Hm; [done|]. cbn [digits].
  assert (Hp : base ^ m = base * base ^ (m - 1)) by (rewrite <- Z.pow_succ_r by lia; f_equal; lia).
  pose proof (Z.pow_pos_nonneg base (m - 1) ltac:(lia) ltac:(lia)) as Hpos.
  f_equal.
  - rewrite <- (IH (n / base) (m - 1)) by (try apply Z.div_pos; lia). f_equal. rewrite Hp, Z.rem_mul_r by lia.
    rewrite Z.mul_comm, Z.div_add by lia. rewrite Z.div_small by (apply Z.mod_pos_bound; lia). lia.
  - f_equal. rewrite Hp, Z.rem_mul_r by lia. rewrite Z.mul_comm, Z.mod_add by lia. apply Z.mod_mod. lia.
Qed.

(** The number the digits stand for. *)
Definition digits_value (base : Z) (ds : list Z) : Z := fold_left (fun acc d => acc * base + d) ds 0.

Lemma digits_value_app base l1 l2 :
  digits_value base (l1 ++ l2) = digits_value base l1 * base ^ Z.of_nat (length l2) + digits_value base l2.
Proof.
  unfold digits_value. rewrite fold_left_app. generalize (fold_left (fun acc d => acc * base + d) l1 0). induction l2 as [|d l2 IH] using rev_ind; intros a.
  - cbn. lia.
  - rewrite !fold_left_app, length_app, IH. cbn [fold_left length]. rewrite Nat.add_1_r, pow_succ. ring.
Qed.

Lemma digits_value_digits base c n : 1 < base -> 0 <= n -> digits_value base (digits base c n) = n mod base ^ Z.of_nat c.
Proof.
  intros Hb. revert n. induction c as [|c IH]; intros n Hn; [cbn; by rewrite Z.mod_1_r|]. cbn [digits].
  rewrite digits_value_app, IH by (apply Z.div_pos; lia). cbn [length digits_value fold_left].
  pose proof (Z.pow_pos_nonneg base (Z.of_nat c) ltac:(lia) ltac:(lia)). rewrite (pow_succ base c), Z.rem_mul_r by lia.
  change (Z.of_nat 1) with 1. rewrite Z.pow_1_r. lia.
Qed.

(** A number has one length. *)
Definition has_digits (base : Z) (c : nat) (n : Z) : Prop :=
  n < base ^ Z.of_nat c /\ (c = 1%nat \/ (1 < c)%nat /\ base ^ (Z.of_nat c - 1) <= n).

Lemma has_digits_unique base c c' n : 1 < base -> 0 <= n -> has_digits base c n -> has_digits base c' n -> c = c'.
Proof.
  assert (Hlt : forall c c', 1 < base -> 0 <= n -> has_digits base c n -> has_digits base c' n -> (c < c')%nat -> False).
  { intros k k' Hb Hn [Hk Hk0] [_ [->|[Hk1 Hk']]] Hlt.
    - lia.
    - assert (base ^ Z.of_nat k <= base ^ (Z.of_nat k' - 1)) by (apply Z.pow_le_mono_r; lia). lia. }
  intros Hb Hn Hc Hc'. destruct (lt_eq_lt_dec c c') as [[Hx|?]|Hx]; [|done|].
  - by destruct (Hlt c c' Hb Hn Hc Hc' Hx).
  - by destruct (Hlt c' c Hb Hn Hc' Hc Hx).
Qed.

Lemma count_digits_ok base fuel n : 1 < base -> 0 <= n < 2 ^ (Z.of_nat fuel + 1) -> has_digits base (count_digits fuel base n) n.
Proof.
  intros Hb. revert n. induction fuel as [|fuel IH]; intros n Hn; cbn [count_digits].
  - split; [|by left]. change (Z.of_nat 1) with 1. rewrite Z.pow_1_r. cbn in Hn. lia.
  - destruct (Z.ltb_spec n base) as [Hlt|Hge]; [split; [by rewrite Z.pow_1_r|by left]|].
    assert (Hq : 0 <= n / base < 2 ^ (Z.of_nat fuel + 1)).
    { split; [apply Z.div_pos; lia|]. apply Z.div_lt_upper_bound; [lia|].
      assert (2 ^ (Z.of_nat (S fuel) + 1) = 2 * 2 ^ (Z.of_nat fuel + 1)) as E by (rewrite <- Z.pow_succ_r by lia; f_equal; lia).
      pose proof (Z.pow_pos_nonneg 2 (Z.of_nat fuel + 1)). nia. }
    specialize (IH _ Hq). destruct IH as [Hu Hl]. set (c := count_digits fuel base (n / base)) in *. split.
    + rewrite pow_succ. pose proof (Z.div_mod n base ltac:(lia)). pose proof (Z.mod_pos_bound n base ltac:(lia)). nia.
    + right. split; [destruct Hl as [->|[? _]]; lia|]. replace (Z.of_nat (S c) - 1) with (Z.of_nat c) by lia.
      destruct Hl as [->|[Hc Hl]]; [by rewrite Z.pow_1_r|].
      replace (Z.of_nat c) with (Z.succ (Z.of_nat c - 1)) by lia. rewrite Z.pow_succ_r by lia.
      pose proof (Z.mul_div_le n base ltac:(lia)). nia.
Qed.

Lemma number_text_ok base c n : 1 < base -> 0 <= n -> has_digits base c n -> number_text base 1 n = map digit_char (digits base c n).
Proof.
  intros Hb Hn Hc. unfold number_text. f_equal. f_equal.
  assert (Hlog : 0 <= n < 2 ^ (Z.of_nat (Z.to_nat (Z.log2 n)) + 1)).
  { rewrite Z2Nat.id by apply Z.log2_nonneg. split; [done|]. destruct (decide (n = 0)) as [->|Hne]; [done|].
    apply Z.log2_spec. lia. }
  pose proof (count_digits_ok base (Z.to_nat (Z.log2 n)) n Hb Hlog) as Hk.
  rewrite (has_digits_unique base _ _ n Hb Hn Hk Hc). destruct Hc as [_ [->|[? _]]]; lia.
Qed.
