(* ===== verification/NumberTextTheorems.v ===== *)
(** * The text of a number is the number

    Decimal and hexadecimal text is read back; the text of a balance stands for the
    balance, cut off behind the digits that were asked for. *)
From Stdlib Require Import ZArith Lia List Ascii String.
From stdpp Require Import prelude.
From S2P Require Import Prelude Numbers NumberText.

(** ** Reading the text of a balance *)

Definition char_digit (c : ascii) : option Z :=
  let n := Z.of_N (N_of_ascii c) in if (48 <=? n) && (n <=? 57) then Some (n - 48) else None.

Definition text_number (t : list ascii) : option Z :=
  match mapM char_digit t with Some ds => Some (digits_value 10 ds) | None => None end.

(** The digits before and behind the decimal point, the separators left out. *)
Fixpoint split_at (point : ascii) (t : list ascii) : list ascii * list ascii :=
  match t with
  | [] => ([], [])
  | c :: t => if Ascii.eqb c point then ([], t) else let '(l, r) := split_at point t in (c :: l, r)
  end.

(** What a text says, in units of the [p]-th digit behind the point. *)
Definition denoted (sep point : ascii) (p : nat) (t : list ascii) : option Z :=
  let '(int_text, frac_text) := split_at point (List.filter (fun c => negb (Ascii.eqb c sep)) t) in
  if (length frac_text <=? p)%nat then
    match text_number int_text, text_number frac_text with
    | Some i, Some f => Some (i * 10 ^ Z.of_nat p + f * 10 ^ Z.of_nat (p - length frac_text))
    | _, _ => None
    end
  else None.

(** A character that separates digits. *)
Definition separates (c : ascii) : Prop := char_digit c = None.

(** ** Characters *)

Lemma char_digit_char d : 0 <= d < 10 -> char_digit (digit_char d) = Some d.
Proof.
  intros Hd. unfold char_digit, digit_char. replace (d <? 10) with true by lia.
  rewrite N_ascii_embedding by lia. rewrite Z2N.id by lia.
  replace ((48 <=? 48 + d) && (48 + d <=? 57)) with true by lia. f_equal. lia.
Qed.

Lemma digit_not_separator d c : 0 <= d < 10 -> separates c -> Ascii.eqb (digit_char d) c = false.
Proof.
  intros Hd Hc. apply Ascii.eqb_neq. intros <-. unfold separates in Hc. by rewrite char_digit_char in Hc.
Qed.

Lemma text_number_digits ds : (forall d, In d ds -> 0 <= d < 10) -> text_number (map digit_char ds) = Some (digits_value 10 ds).
Proof.
  intros Hds. unfold text_number. assert (mapM char_digit (map digit_char ds) = Some ds) as ->; [|done].
  induction ds as [|d ds IH]; [done|]. cbn [map mapM]. rewrite char_digit_char by (apply Hds; by left).
  cbn. by rewrite IH by (intros; apply Hds; right; done).
Qed.

Lemma filter_digits sep ds : separates sep -> (forall d, In d ds -> 0 <= d < 10) ->
  List.filter (fun c => negb (Ascii.eqb c sep)) (map digit_char ds) = map digit_char ds.
Proof.
  intros Hs. induction ds as [|d ds IH]; intros Hds; [done|]. cbn [map List.filter].
  rewrite digit_not_separator by first [done|apply Hds; left; done]. cbn [negb]. f_equal. apply IH. intros; apply Hds; by right.
Qed.

Lemma split_digits point ds rest : separates point -> (forall d, In d ds -> 0 <= d < 10) ->
  split_at point (map digit_char ds ++ rest) = (map digit_char ds ++ fst (split_at point rest), snd (split_at point rest)).
Proof.
  intros Hp. induction ds as [|d ds IH]; intros Hds; [cbn [map app]; by destruct (split_at point rest)|]. cbn [map app split_at].
  rewrite digit_not_separator by first [done|apply Hds; left; done]. rewrite IH by (intros; apply Hds; right; done). done.
Qed.

(** ** The parts of the text of a balance *)

Section Balance.
Context `{NumberStream}.

Lemma put_digit d : 0 <= d < 10 -> put_dec d = [digit_char d].
Proof.
  intros Hd. rewrite put_dec_text by lia. rewrite (number_text_ok 10 1) by first [lia|split; [cbn; lia|by left]].
  cbn [digits map app]. by rewrite Z.mod_small by lia.
Qed.

(** Digits with separators between them: [emit] says behind which, counted from the right. *)
Fixpoint separated (sep : ascii) (emit : list bool) (ds : list Z) : list ascii :=
  match ds with
  | [] => []
  | d :: ds => digit_char d :: (if negb (is_nul sep) && nth (length ds) emit false && (0 <? length ds)%nat then [sep] else [])
               ++ separated sep emit ds
  end.

Lemma filter_separated sep emit ds : separates sep -> (forall d, In d ds -> 0 <= d < 10) ->
  List.filter (fun c => negb (Ascii.eqb c sep)) (separated sep emit ds) = map digit_char ds.
Proof.
  intros Hs. induction ds as [|d ds IH]; intros Hds; [done|]. cbn [separated map List.filter].
  rewrite digit_not_separator by first [done|apply Hds; left; done]. cbn [negb]. f_equal.
  rewrite List.filter_app, IH by (intros; apply Hds; right; done).
  case_match; [|done]. cbn [List.filter]. by rewrite Ascii.eqb_refl.
Qed.

Lemma filter_separated_none sep emit ds : separates sep -> (forall d, In d ds -> 0 <= d < 10) ->
  List.filter (fun c => negb (Ascii.eqb c sep)) (separated zero emit ds) = map digit_char ds.
Proof.
  intros Hs Hds. rewrite <- (filter_digits sep ds) by done. f_equal. clear Hds. induction ds as [|d ds IH]; [done|].
  cbn [separated map]. rewrite IH. done.
Qed.

Lemma dec_loop_ok fuel c rem sep emit : 0 <= rem < 10 ^ Z.of_nat (S c) -> (S c <= fuel)%nat ->
  dec_loop fuel (S c) (10 ^ Z.of_nat c) rem sep emit = Some (separated sep emit (digits 10 (S c) rem)).
Proof.
  revert c rem. induction fuel as [|fuel IH]; intros c rem Hr Hf; [lia|].
  pose proof (Z.pow_pos_nonneg 10 (Z.of_nat c) ltac:(lia) ltac:(lia)) as Hp. rewrite pow_succ in Hr.
  cbn [dec_loop]. replace (0 <? 10 ^ Z.of_nat c) with true by lia. cbn [negb].
  unfold div128. replace (10 ^ Z.of_nat c =? 0) with false by lia.
  assert (Hd : 0 <= rem / 10 ^ Z.of_nat c < 10) by (split; [apply Z.div_pos; lia|apply Z.div_lt_upper_bound; lia]).
  rewrite digits_cons, (Z.mod_small _ _ Hd) by lia. cbn [separated pred]. rewrite put_digit, length_base_digits by done.
  replace (rem - rem / 10 ^ Z.of_nat c * 10 ^ Z.of_nat c) with (rem mod 10 ^ Z.of_nat c) by (rewrite Z.mod_eq; lia).
  destruct c as [|c].
  - change (10 ^ Z.of_nat 0) with 1. change (1 / 10) with 0. cbn [digits separated app]. rewrite !andb_false_r.
    destruct fuel; reflexivity.
  - assert (10 ^ Z.of_nat (S c) / 10 = 10 ^ Z.of_nat c) as -> by (rewrite pow_succ, Z.mul_comm; apply Z.div_mul; lia).
    rewrite IH by (try lia; apply Z.mod_pos_bound; lia). rewrite digits_mod by lia.
    replace (1 <? 10 ^ Z.of_nat (S c)) with true; [by replace (0 <? S c)%nat with true by done|].
    symmetry. apply Z.ltb_lt. rewrite pow_succ. lia.
Qed.

Lemma pow10_loop_ok fuel c value : 0 <= value < 10 ^ 39 -> (39 <= fuel + c)%nat -> (c <= 38)%nat ->
  (c = 0%nat \/ 10 ^ Z.of_nat c <= value) ->
  exists k, pow10_loop fuel value (10 ^ Z.of_nat c) (S c) = (10 ^ Z.of_nat k, S k) /\ (k <= 38)%nat /\ has_digits 10 (S k) value.
Proof.
  revert c. induction fuel as [|fuel IH]; intros c Hv Hf Hc Hl; [lia|]. cbn [pow10_loop].
  assert (wrap 256 (10 ^ Z.of_nat c * 10) = 10 ^ Z.of_nat (S c)) as ->.
  { rewrite pow_succ, Z.mul_comm. apply wrap_small. split; [apply Z.mul_nonneg_nonneg; [lia|apply Z.pow_nonneg; lia]|].
    apply Z.le_lt_trans with (10 * 10 ^ 38); [|done]. apply Z.mul_le_mono_nonneg_l; [lia|]. apply Z.pow_le_mono_r; lia. }
  destruct (Z.ltb_spec value (10 ^ Z.of_nat (S c))) as [Hlt|Hge].
  - exists c. split_and!; [done|done|]. split; [done|]. destruct Hl as [->|Hl]; [by left|]. destruct c as [|c]; [by left|].
    right. split; [lia|]. by replace (Z.of_nat (S (S c)) - 1) with (Z.of_nat (S c)) by lia.
  - assert (c <> 38%nat) by (intros ->; change (Z.of_nat 39) with 39 in Hge; lia).
    apply IH; [done|lia|lia|by right].
Qed.

(** The digits of the whole part. *)
Lemma format_dec_ok value sep groupings : fits 128 value ->
  exists c, has_digits 10 c value /\ format_dec value sep groupings
    = Some (separated sep (if is_nul sep then [] else emit_loop c groupings 0 0) (digits 10 c value)).
Proof.
  intros Hv. destruct (pow10_loop_ok 77 0 value) as (k & E & Hk & Hd); [unfold fits in Hv; lia|lia|lia|by left|].
  change (10 ^ Z.of_nat 0) with 1 in E. exists (S k).
  unfold format_dec. rewrite E. replace (39 <? S k)%nat with false by (symmetry; apply Nat.ltb_ge; lia).
  assert (wrap 128 (10 ^ Z.of_nat k) = 10 ^ Z.of_nat k) as ->.
  { apply wrap_small. split; [apply Z.pow_nonneg; lia|]. apply Z.le_lt_trans with (10 ^ 38); [apply Z.pow_le_mono_r; lia|done]. }
  split; [done|]. apply dec_loop_ok; [split; [apply Hv|apply Hd]|lia].
Qed.

(** The digits behind the point: as many as asked for, or all of them. *)
Lemma format_frac_ok j precision rem : 0 <= rem < 10 ^ Z.of_nat j -> (precision <= j)%nat ->
  exists l, (l <= precision)%nat
    /\ format_frac_loop precision (10 ^ Z.of_nat j) rem = Some (map digit_char (digits 10 l (rem / 10 ^ Z.of_nat (j - l))))
    /\ rem / 10 ^ Z.of_nat (j - l) * 10 ^ Z.of_nat (precision - l) = rem / 10 ^ Z.of_nat (j - precision).
Proof.
  revert precision rem. induction j as [|j IH]; intros precision rem Hr Hp.
  { exists 0%nat. assert (precision = 0%nat) as -> by lia. split_and!; [lia|done|]. change (10 ^ Z.of_nat (0 - 0)) with 1. lia. }
  destruct precision as [|precision].
  { exists 0%nat. split_and!; [lia|done|]. change (10 ^ Z.of_nat (0 - 0)) with 1. lia. }
  cbn [format_frac_loop]. pose proof (Z.pow_pos_nonneg 10 (Z.of_nat j) ltac:(lia) ltac:(lia)) as Hpos.
  replace (1 <? 10 ^ Z.of_nat (S j)) with true by (symmetry; apply Z.ltb_lt; rewrite pow_succ; lia). cbn [andb].
  destruct (Z.ltb_spec 0 rem) as [Hrem|Hrem].
  2:{ exists 0%nat. assert (rem = 0) as -> by lia. split_and!; [lia|done|]. by rewrite !Z.div_0_l by (apply Z.pow_nonzero; lia). }
  assert (10 ^ Z.of_nat (S j) / 10 = 10 ^ Z.of_nat j) as -> by (rewrite pow_succ, Z.mul_comm; apply Z.div_mul; lia).
  unfold div128. replace (10 ^ Z.of_nat j =? 0) with false by lia. rewrite pow_succ in Hr.
  assert (Hd : 0 <= rem / 10 ^ Z.of_nat j < 10) by (split; [apply Z.div_pos; lia|apply Z.div_lt_upper_bound; lia]).
  replace (rem - rem / 10 ^ Z.of_nat j * 10 ^ Z.of_nat j) with (rem mod 10 ^ Z.of_nat j) by (rewrite Z.mod_eq; lia).
  destruct (IH precision (rem mod 10 ^ Z.of_nat j)) as (l & Hl & E & Hq); [apply Z.mod_pos_bound; lia|lia|].
  assert (Hcut : forall i, (i <= j)%nat -> rem mod 10 ^ Z.of_nat j / 10 ^ Z.of_nat (j - i) = (rem / 10 ^ Z.of_nat (j - i)) mod 10 ^ Z.of_nat i
            /\ rem / 10 ^ Z.of_nat j = rem / 10 ^ Z.of_nat (j - i) / 10 ^ Z.of_nat i).
  { intros i Hi. assert (Hs : 10 ^ Z.of_nat j = 10 ^ Z.of_nat (j - i) * 10 ^ Z.of_nat i) by (rewrite <- Z.pow_add_r by lia; f_equal; lia).
    pose proof (Z.pow_pos_nonneg 10 (Z.of_nat (j - i)) ltac:(lia) ltac:(lia)). pose proof (Z.pow_pos_nonneg 10 (Z.of_nat i) ltac:(lia) ltac:(lia)).
    rewrite Hs. split; [|by rewrite Z.div_div by lia]. rewrite Z.rem_mul_r by lia. rewrite Z.mul_comm, Z.div_add by lia.
    rewrite Z.div_small by (apply Z.mod_pos_bound; lia). lia. }
  exists (S l). split; [lia|]. rewrite E. replace (S j - S l)%nat with (j - l)%nat by lia.
  replace (S precision - S l)%nat with (precision - l)%nat by lia. replace (S j - S precision)%nat with (j - precision)%nat by lia.
  destruct (Hcut l ltac:(lia)) as [C1 C2]. destruct (Hcut precision ltac:(lia)) as [C3 C4].
  assert (Hq0 : 0 <= rem / 10 ^ Z.of_nat (j - l)) by (apply Z.div_pos; [lia|apply Z.pow_pos_nonneg; lia]).
  split.
  - rewrite put_digit by done. cbn [app]. rewrite digits_cons by lia. rewrite <- C2, (Z.mod_small _ _ Hd). cbn [map].
    by rewrite C1, digits_mod by lia.
  - rewrite C1, C3 in Hq. pose proof (Z.pow_pos_nonneg 10 (Z.of_nat l) ltac:(lia) ltac:(lia)) as P1.
    pose proof (Z.pow_pos_nonneg 10 (Z.of_nat precision) ltac:(lia) ltac:(lia)) as P2.
    rewrite (Z.div_mod (rem / 10 ^ Z.of_nat (j - l)) (10 ^ Z.of_nat l)) by lia.
    rewrite (Z.div_mod (rem / 10 ^ Z.of_nat (j - precision)) (10 ^ Z.of_nat precision)) by lia. rewrite <- C2, <- C4, <- Hq.
    assert (10 ^ Z.of_nat precision = 10 ^ Z.of_nat l * 10 ^ Z.of_nat (precision - l)) as -> by (rewrite <- Z.pow_add_r by lia; f_equal; lia). ring.
Qed.

Lemma prec_scale_ok k p : (p <= k)%nat -> Nat.iter p (fun s => s / 10) (10 ^ Z.of_nat k) = 10 ^ Z.of_nat (k - p).
Proof.
  induction p as [|p IH]; intros Hp; [by rewrite Nat.sub_0_r|]. cbn [Nat.iter nat_rect]. unfold Nat.iter in IH. rewrite IH by lia.
  replace (k - p)%nat with (S (k - S p)) by lia. rewrite pow_succ, Z.mul_comm. apply Z.div_mul. lia.
Qed.

Lemma value_digits c n : 0 <= n -> has_digits 10 c n -> digits_value 10 (digits 10 c n) = n.
Proof. intros Hn [Hc _]. rewrite digits_value_digits by lia. apply Z.mod_small. lia. Qed.

Lemma ten_digits c n d : In d (digits 10 c n) -> 0 <= d < 10.
Proof. by apply digits_range. Qed.
Hint Resolve ten_digits : core.

(** The text of a balance that is not too small to be shown. *)
Lemma balance_text balance k p int_text sep point :
  0 <= balance -> (p <= k)%nat -> separates sep -> separates point -> sep <> point ->
  (exists c, has_digits 10 c (balance / 10 ^ Z.of_nat k)
     /\ List.filter (fun c => negb (Ascii.eqb c sep)) int_text = map digit_char (digits 10 c (balance / 10 ^ Z.of_nat k))) ->
  exists t, (if (0 <? Z.of_nat p) && (0 <? balance mod 10 ^ Z.of_nat k) then
               match format_frac (balance mod 10 ^ Z.of_nat k) (10 ^ Z.of_nat k) (Z.of_nat p) with
               | Some frac_text => Some (int_text ++ point :: frac_text)
               | None => None
               end
             else Some int_text) = Some t
    /\ denoted sep point p t = Some (balance / 10 ^ Z.of_nat (k - p)).
Proof.
  intros Hb Hp Hs Hpt Hne (c & Hc & Hint).
  pose proof (Z.pow_pos_nonneg 10 (Z.of_nat k) ltac:(lia) ltac:(lia)) as Pk.
  pose proof (Z.pow_pos_nonneg 10 (Z.of_nat (k - p)) ltac:(lia) ltac:(lia)) as Pd.
  set (i := balance / 10 ^ Z.of_nat k) in *. set (f := balance mod 10 ^ Z.of_nat k).
  assert (Hi : 0 <= i) by (apply Z.div_pos; lia). assert (Hf : 0 <= f < 10 ^ Z.of_nat k) by (apply Z.mod_pos_bound; lia).
  assert (Hcut : balance / 10 ^ Z.of_nat (k - p) = i * 10 ^ Z.of_nat p + f / 10 ^ Z.of_nat (k - p)).
  { rewrite (Z.div_mod balance (10 ^ Z.of_nat k)) by lia. fold i f.
    assert (10 ^ Z.of_nat k = 10 ^ Z.of_nat p * 10 ^ Z.of_nat (k - p)) as -> by (rewrite <- Z.pow_add_r by lia; f_equal; lia).
    replace (10 ^ Z.of_nat p * 10 ^ Z.of_nat (k - p) * i + f) with (i * 10 ^ Z.of_nat p * 10 ^ Z.of_nat (k - p) + f) by ring.
    by rewrite Z.div_add_l by lia. }
  rewrite Hcut. destruct ((0 <? Z.of_nat p) && (0 <? f)) eqn:Hcase.
  - unfold format_frac. rewrite Nat2Z.id. destruct (format_frac_ok k p f Hf Hp) as (l & Hl & -> & Hq).
    eexists. split; [reflexivity|]. unfold denoted. rewrite List.filter_app, Hint. cbn [List.filter].
    replace (Ascii.eqb point sep) with false by (symmetry; apply Ascii.eqb_neq; congruence). cbn [negb].
    rewrite filter_digits by eauto. rewrite split_digits by eauto. cbn [split_at]. rewrite Ascii.eqb_refl. cbn [fst snd].
    rewrite app_nil_r, length_map, length_base_digits. replace (l <=? p)%nat with true by (symmetry; by apply Nat.leb_le).
    rewrite !text_number_digits by eauto. rewrite value_digits by done. f_equal. f_equal. rewrite <- Hq. f_equal.
    rewrite digits_value_digits; [|lia|apply Z.div_pos; [lia|apply Z.pow_pos_nonneg; lia]]. apply Z.mod_small. split; [apply Z.div_pos; [lia|apply Z.pow_pos_nonneg; lia]|].
    apply Z.div_lt_upper_bound; [apply Z.pow_pos_nonneg; lia|]. rewrite <- Z.pow_add_r by lia. replace (Z.of_nat (k - l) + Z.of_nat l) with (Z.of_nat k) by lia. apply Hf.
  - eexists. split; [reflexivity|]. unfold denoted. rewrite Hint. rewrite <- (app_nil_r (map digit_char _)), split_digits by eauto.
    cbn [split_at fst snd length]. replace (0 <=? p)%nat with true by done. rewrite app_nil_r, text_number_digits by eauto.
    rewrite value_digits by done. change (text_number []) with (Some 0). f_equal. f_equal. rewrite Z.mul_0_l. symmetry.
    apply andb_false_iff in Hcase as [Hz|Hz].
    + assert (p = 0%nat) as -> by lia. rewrite Nat.sub_0_r. apply Z.div_small. lia.
    + assert (f = 0) as -> by lia. by apply Z.div_0_l; lia.
Qed.

(** The text for a balance that is not zero and would be shown as zero. *)
Definition below_text (point : ascii) (p : nat) : list ascii :=
  "<"%char :: " "%char :: (if (0 <? p)%nat then "0"%char :: point :: repeat "0"%char (p - 1) else []) ++ ["1"%char].

(** A balance is shown as what it is, cut off behind the last digit that was asked
    for: with a scale of ten to the [k] and [p] digits behind the point, the text
    stands for the balance divided by ten to the [k - p], whatever the separators
    and the grouping of the digits.  Only a balance that is not zero but below the
    last digit is not shown as zero; the text then says that it is less than that. *)
Theorem balance_shown balance k p group sep point grouping :
  fits 128 balance -> (p <= k)%nat -> separates sep -> separates point -> sep <> point ->
  exists t, format_balance balance (10 ^ Z.of_nat k) (Z.of_nat p) group sep point grouping = Some t
    /\ if decide (0 < balance < 10 ^ Z.of_nat (k - p)) then t = below_text point p
       else denoted sep point p t = Some (balance / 10 ^ Z.of_nat (k - p)).
Proof.
  intros Hb Hp Hs Hpt Hne. pose proof (Z.pow_pos_nonneg 10 (Z.of_nat k) ltac:(lia) ltac:(lia)) as Pk.
  pose proof (Z.pow_pos_nonneg 10 (Z.of_nat (k - p)) ltac:(lia) ltac:(lia)) as Pd.
  assert (Hle : 10 ^ Z.of_nat (k - p) <= 10 ^ Z.of_nat k) by (apply Z.pow_le_mono_r; lia).
  unfold format_balance, div128. replace (10 ^ Z.of_nat k =? 0) with false by lia.
  rewrite Nat2Z.id, prec_scale_ok by done.
  rewrite (proj2 (Z.eqb_neq _ _) (Z.neq_sym _ _ (Z.lt_neq _ _ Pd))).
  set (i := balance / 10 ^ Z.of_nat k). set (f := balance mod 10 ^ Z.of_nat k).
  assert (Hbelow : (if (i =? 0) && (0 <? f) then Some (f / 10 ^ Z.of_nat (k - p) =? 0) else Some false)
    = Some (bool_decide (0 < balance < 10 ^ Z.of_nat (k - p)))).
  { destruct Hb as [Hb0 _]. case_bool_decide as Hc.
    - assert (i = 0) as -> by (apply Z.div_small; lia). assert (f = balance) as -> by (apply Z.mod_small; lia).
      replace (0 <? balance) with true by lia. cbn [Z.eqb andb]. rewrite Z.div_small by lia. done.
    - destruct (Z.eqb_spec i 0) as [Hi|]; [|done]. assert (f = balance) as Hf by (apply Z.mod_small; split; [done|]; by apply Z.div_small_iff in Hi; lia).
      destruct (Z.ltb_spec 0 f) as [Hf0|]; [|done]. cbn [andb]. f_equal. apply Z.eqb_neq. intros Hq.
      apply Z.div_small_iff in Hq; lia. }
  rewrite Hbelow. destruct (decide (0 < balance < 10 ^ Z.of_nat (k - p))) as [Hc|Hc].
  - rewrite bool_decide_true by done. eexists. split; [reflexivity|]. unfold below_text.
    destruct p as [|p]; [done|]. change (0 <? Z.of_nat (S p)) with true. change (0 <? S p)%nat with true. cbv iota.
    change (Z.of_nat (S p) - 1) with (Z.of_nat (S p) - Z.of_nat 1). by rewrite <- Nat2Z.inj_sub, Nat2Z.id by lia.
  - rewrite bool_decide_false by done.
    destruct (format_dec_ok i (if group && (0 <? length grouping)%nat then sep else zero) grouping) as (c & Hc' & ->).
    { destruct Hb as [Hb0 Hb1]. split; [apply Z.div_pos; lia|]. apply Z.le_lt_trans with balance; [apply Z.div_le_upper_bound; nia|done]. }
    apply balance_text; [apply Hb|done|done|done|done|]. exists c. split; [done|].
    destruct (group && (0 <? length grouping)%nat); [apply filter_separated|apply filter_separated_none]; eauto.
Qed.

(** ** Groups of three *)

(** Digits with a separator before every third one, counted from the right. *)
Fixpoint thousands (sep : ascii) (ds : list Z) : list ascii :=
  match ds with
  | [] => []
  | d :: ds => digit_char d :: (if (0 <? length ds)%nat && (length ds mod 3 =? 0)%nat then [sep] else []) ++ thousands sep ds
  end.

Lemma emit_three n cnt r : (r < n)%nat -> 0 <= cnt <= 3 ->
  nth r (emit_loop n [3] 0 cnt) false = (0 <? Z.of_nat r + cnt) && ((Z.of_nat r + cnt) mod 3 =? 0).
Proof.
  revert cnt r. induction n as [|n IH]; intros cnt r Hr Hc; [lia|]. cbn [emit_loop nth length Nat.sub Nat.min].
  destruct (Z.ltb_spec 3 (cnt + 1)) as [Hlt|Hge].
  - assert (cnt = 3) as -> by lia. destruct r as [|r]; [done|]. cbn [nth]. rewrite IH by lia.
    replace (Z.of_nat (S r) + 3) with (Z.of_nat r + 1 + 1 * 3) by lia. rewrite Z.mod_add by lia. f_equal. lia.
  - destruct r as [|r]; cbn [nth].
    + assert (cnt = 0 \/ cnt = 1 \/ cnt = 2) as [->|[->| ->]] by lia; reflexivity.
    + rewrite IH by lia. by replace (Z.of_nat r + (cnt + 1)) with (Z.of_nat (S r) + cnt) by lia.
Qed.

(** The grouping the program uses puts a separator before every third digit. *)
Theorem thousands_grouped value sep : fits 128 value -> is_nul sep = false ->
  exists c, has_digits 10 c value /\ format_dec value sep [3] = Some (thousands sep (digits 10 c value)).
Proof.
  intros Hv Hs. destruct (format_dec_ok value sep [3] Hv) as (c & Hc & ->). exists c. split; [done|]. rewrite Hs. f_equal.
  assert (Hl : (length (digits 10 c value) <= c)%nat) by (rewrite length_base_digits; lia). revert Hl.
  generalize (digits 10 c value) as ds. induction ds as [|d ds IH]; intros Hl; [done|]. cbn [separated thousands length] in *.
  rewrite IH by lia. f_equal. f_equal. rewrite Hs. cbn [negb andb]. rewrite emit_three by lia. rewrite Z.add_0_r.
  replace (Z.of_nat (length ds) mod 3 =? 0) with (length ds mod 3 =? 0)%nat.
  - destruct (length ds) as [|m]; [done|]. change (0 <? Z.of_nat (S m)) with true. change (0 <? S m)%nat with true. by rewrite andb_true_r.
  - change 3 with (Z.of_nat 3) at 1. rewrite <- Nat2Z.inj_mod. destruct (Nat.eqb_spec (length ds mod 3) 0) as [->|Hne]; [done|].
    symmetry. apply Z.eqb_neq. lia.
Qed.
End Balance.

(** ** Text that is read back *)

Section RoundTrip.
Context `{NumberStream}.

Lemma digits_bound base c k n : 1 < base -> 0 <= n < base ^ Z.of_nat k -> (1 <= k)%nat -> has_digits base c n -> (c <= k)%nat.
Proof.
  intros Hb Hn Hk [_ [->|[Hc Hl]]]; [done|]. destruct (le_lt_dec c k) as [?|Hlt]; [done|].
  assert (base ^ Z.of_nat k <= base ^ (Z.of_nat c - 1)) by (apply Z.pow_le_mono_r; lia). lia.
Qed.

Lemma number_digits base n : 1 < base -> 0 <= n -> exists c, has_digits base c n.
Proof.
  intros Hb Hn. exists (count_digits (Z.to_nat (Z.log2 n)) base n). apply count_digits_ok; [done|].
  rewrite Z2Nat.id by apply Z.log2_nonneg. split; [done|]. destruct (decide (n = 0)) as [->|Hne]; [done|]. apply Z.log2_spec. lia.
Qed.

(** The text of a number has no sign, and starts with a zero only if it is one. *)
Lemma decimal_start n : 0 <= n ->
  ((1 <? length (number_text 10 1 n))%nat && starts_with "0" (number_text 10 1 n) = false)
  /\ starts_with "-" (number_text 10 1 n) = false.
Proof.
  intros Hn. destruct (number_digits 10 n ltac:(lia) Hn) as (c & Hc). rewrite (number_text_ok 10 c) by (done || lia).
  rewrite length_map, length_base_digits. destruct c as [|c]; [by destruct Hc as [_ [?|[? _]]]; lia|].
  rewrite digits_cons by lia. cbn [map starts_with].
  assert (Hd : 0 <= n / 10 ^ Z.of_nat c < 10).
  { split; [apply Z.div_pos; [lia|apply Z.pow_pos_nonneg; lia]|]. apply Z.div_lt_upper_bound; [apply Z.pow_pos_nonneg; lia|].
    destruct Hc as [Hc _]. rewrite pow_succ in Hc. lia. }
  rewrite Z.mod_small by done. split.
  - destruct Hc as [_ [Hc|[Hc Hl]]]; [injection Hc as ->; done|]. apply andb_false_iff. right. apply Ascii.eqb_neq. intros He.
    assert (n / 10 ^ Z.of_nat c = 0).
    { pose proof (char_digit_char _ Hd) as Hx. rewrite He in Hx. change (char_digit "0") with (Some 0) in Hx. congruence. }
    replace (Z.of_nat (S c) - 1) with (Z.of_nat c) in Hl by lia.
    assert (1 <= n / 10 ^ Z.of_nat c) by (apply Z.div_le_lower_bound; [apply Z.pow_pos_nonneg; lia|lia]). lia.
  - by apply digit_not_separator.
Qed.

Lemma length_decimal k n : 0 <= n < 10 ^ Z.of_nat k -> (1 <= k)%nat -> (length (number_text 10 1 n) <= k)%nat.
Proof.
  intros Hn Hk. destruct (number_digits 10 n ltac:(lia) ltac:(lia)) as (c & Hc). rewrite (number_text_ok 10 c) by (done || lia).
  rewrite length_map, length_base_digits. by apply (digits_bound 10 c k n).
Qed.

Lemma length_hex k n : 0 <= n < 16 ^ Z.of_nat k -> (1 <= k)%nat -> length (number_text 16 k n) = k.
Proof.
  intros Hn Hk. unfold number_text. rewrite length_map, length_base_digits.
  assert (has_digits 16 (count_digits (Z.to_nat (Z.log2 n)) 16 n) n).
  { apply count_digits_ok; [lia|]. rewrite Z2Nat.id by apply Z.log2_nonneg. split; [lia|].
    destruct (decide (n = 0)) as [->|Hne]; [done|]. apply Z.log2_spec. lia. }
  pose proof (digits_bound 16 _ k n ltac:(lia) Hn Hk ltac:(eassumption)). lia.
Qed.

(** Every number is read back from its decimal and from its hexadecimal text; the
    bounds on the length of a text are those of the largest number. *)
Theorem text_read_back n :
  (fits 128 n -> decode_dec128 (encode_dec128 n) = Some n /\ decode_hex128 (encode_hex128 n) = Some n)
  /\ (fits 256 n -> decode_dec256 (encode_dec256 n) = Some n /\ decode_hex256 (encode_hex256 n) = Some n)
  /\ (fits 512 n -> decode_hex512 (encode_hex512 n) = Some n).
Proof.
  assert (Hdec : forall w k, fits w n -> 2 ^ w <= 10 ^ Z.of_nat k -> (1 <= k)%nat ->
    (if (k <? length (number_text 10 1 n))%nat || (1 <? length (number_text 10 1 n))%nat && starts_with "0" (number_text 10 1 n)
        || (0 <? length (number_text 10 1 n))%nat && starts_with "-" (number_text 10 1 n)
     then None else read_all (get_dec w (number_text 10 1 n))) = Some n).
  { intros w k Hn Hw Hk. pose proof Hn as [Hn0 Hn1]. destruct (decimal_start n Hn0) as [-> ->]. rewrite andb_false_r.
    pose proof (length_decimal k n ltac:(lia) Hk) as Hl. replace (k <? length (number_text 10 1 n))%nat with false by (symmetry; apply Nat.ltb_ge; lia).
    cbn [orb]. by rewrite get_dec_text. }
  split; [|split].
  - intros Hn. pose proof Hn as [Hn0 Hn1]. split.
    + unfold decode_dec128, encode_dec128. rewrite put_dec_text by done. by apply (Hdec 128 39%nat); [done|vm_compute|lia].
    + unfold decode_hex128, encode_hex128. rewrite put_hex_text by done. rewrite length_hex by first [lia|split; [done|exact Hn1]].
      cbn [Nat.ltb Nat.leb]. by rewrite get_hex_text.
  - intros Hn. pose proof Hn as [Hn0 Hn1]. split.
    + unfold decode_dec256, encode_dec256. rewrite put_dec_text by done. by apply (Hdec 256 78%nat); [done|vm_compute|lia].
    + unfold decode_hex256, encode_hex256. rewrite put_hex_text by done. rewrite length_hex by first [lia|split; [done|exact Hn1]].
      cbn [Nat.ltb Nat.leb Nat.eqb negb andb]. by rewrite get_hex_text.
  - intros Hn. pose proof Hn as [Hn0 Hn1].
    unfold decode_hex512, encode_hex512. rewrite put_hex_text by done. rewrite length_hex by first [lia|split; [done|exact Hn1]].
    cbn [Nat.ltb Nat.leb]. by rewrite get_hex_text.
Qed.
End RoundTrip.
