(* ===== verification/Json.v ===== *)
(** * JSON of blocks (rai/lib/blocks.cpp, rai/lib/blocks.hpp)

    The JSON form of a block: a flat object that is built with, and read through, a
    property tree of boost.  The trees are the class [PropertyTree]: a node has
    data and children with keys, in order; paths are used with a single key, whose
    meaning is stated for keys without a dot.  What [write_json] writes of a flat
    object of printable text is read back by [read_json].

    Reading a machine integer in hexadecimal from a stream is the standard
    library's and is written out here: spaces are skipped, a sign and "0x" are
    taken, and nothing is stored when the stream ends before them. *)
From Stdlib Require Import ZArith Lia List Ascii String.
From stdpp Require Import prelude strings.
From S2P Require Import Prelude Numbers Streams Blocks NumberText.

Abbreviation text := (list ascii) (only parsing).

(** ** Property trees *)

(** A key that a path of one element names. *)
Definition plain (k : text) : bool := negb (bool_decide (k = [])) && forallb (fun c => negb (Ascii.eqb c ".")) k.

Definition printable (t : text) : bool := forallb (fun c => (0x20 <=? code c) && (code c <=? 0x7e)) t.

(** The first child with a key. *)
Fixpoint first_child {T} (k : text) (l : list (text * T)) : option T :=
  match l with
  | [] => None
  | (x, c) :: l => if bool_decide (x = k) then Some c else first_child k l
  end.

(** The first child with a key is changed, or a new one is appended. *)
Fixpoint put_child {T} (k : text) (f : T -> T) (new : T) (l : list (text * T)) : list (text * T) :=
  match l with
  | [] => [(k, new)]
  | (x, c) :: l => if bool_decide (x = k) then (x, f c) :: l else (x, c) :: put_child k f new l
  end.

Class PropertyTree := {
  ptree : Type;
  pt_data : ptree -> text;
  pt_children : ptree -> list (text * ptree);
  (** [ptree (data)] *)
  pt_leaf : text -> ptree;
  pt_put_value : text -> ptree -> ptree;
  pt_put : text -> text -> ptree -> ptree;
  pt_add_child : text -> ptree -> ptree -> ptree;
  pt_push_back : text -> ptree -> ptree -> ptree;
  (** [get<std::string>]; [None] throws. *)
  pt_get : ptree -> text -> option text;
  (** [get_optional<bool>] *)
  pt_get_bool : ptree -> text -> option bool;
  pt_get_child : ptree -> text -> option ptree;
  (** [get<uintmax_t>]; [None] throws. *)
  pt_get_uint : ptree -> text -> option Z;
  pt_erase : text -> ptree -> ptree;
  (** An assignment through the reference that [get_child] gives. *)
  pt_set_child : text -> ptree -> ptree -> ptree;
  write_json : ptree -> text;
  (** [None] throws. *)
  read_json : text -> option ptree;

  leaf_data d : pt_data (pt_leaf d) = d;
  leaf_children d : pt_children (pt_leaf d) = [];
  put_value_data v t : pt_data (pt_put_value v t) = v;
  put_value_children v t : pt_children (pt_put_value v t) = pt_children t;
  put_here v t : pt_put [] v t = pt_put_value v t;
  put_data k v t : plain k = true -> pt_data (pt_put k v t) = pt_data t;
  put_children k v t : plain k = true ->
    pt_children (pt_put k v t) = put_child k (pt_put_value v) (pt_leaf v) (pt_children t);
  add_child_data k c t : plain k = true -> pt_data (pt_add_child k c t) = pt_data t;
  add_child_children k c t : plain k = true -> pt_children (pt_add_child k c t) = pt_children t ++ [(k, c)];
  push_back_data k c t : pt_data (pt_push_back k c t) = pt_data t;
  push_back_children k c t : pt_children (pt_push_back k c t) = pt_children t ++ [(k, c)];
  get_text t k : plain k = true -> pt_get t k = pt_data <$> first_child k (pt_children t);
  get_child_tree t k : plain k = true -> pt_get_child t k = first_child k (pt_children t);
  get_bool_text t k v : pt_get t k = Some (str (if v : bool then "true" else "false")) -> pt_get_bool t k = Some v;
  get_bool_none t k : pt_get t k = None -> pt_get_bool t k = None;
  get_uint_text t k n : fits 64 n -> pt_get t k = Some (number_text 10 1 n) -> pt_get_uint t k = Some n;
  erase_children k t : pt_children (pt_erase k t) = filter (fun x => fst x <> k) (pt_children t);
  set_child_children k c t : plain k = true -> pt_children (pt_set_child k c t) = put_child k (fun _ => c) c (pt_children t);
  json_read_written t :
    pt_data t = [] -> pt_children t <> [] ->
    (forall k c, In (k, c) (pt_children t) -> pt_children c = [] /\ plain k && printable k && printable (pt_data c) = true) ->
    exists t', read_json (write_json t) = Some t'
               /\ map (fun x => (fst x, pt_data (snd x))) (pt_children t')
                  = map (fun x => (fst x, pt_data (snd x))) (pt_children t)
}.

(** ** Hexadecimal machine integers *)

Definition is_space (c : ascii) : bool := (code c =? 32) || (9 <=? code c) && (code c <=? 13).

Fixpoint skip_spaces (t : text) : text :=
  match t with
  | c :: rest => if is_space c then skip_spaces rest else t
  | [] => []
  end.

Definition hex_digit (c : ascii) : option Z :=
  if (48 <=? code c) && (code c <=? 57) then Some (code c - 48)
  else if (97 <=? code c) && (code c <=? 102) then Some (code c - 87)
  else if (65 <=? code c) && (code c <=? 70) then Some (code c - 55)
  else None.

(** The digits at the front, and the rest. *)
Fixpoint hex_digits (t : text) (acc : Z) : Z * text :=
  match t with
  | c :: rest => match hex_digit c with Some d => hex_digits rest (acc * 16 + d) | None => (acc, t) end
  | [] => (acc, [])
  end.

Definition hex_sign (t : text) : bool * text :=
  match t with
  | c :: rest => if Ascii.eqb c "-" then (true, rest) else if Ascii.eqb c "+" then (false, rest) else (false, t)
  | [] => (false, [])
  end.

Definition hex_prefix (t : text) : text :=
  match t with
  | z :: x :: rest => if Ascii.eqb z "0" && (Ascii.eqb x "x" || Ascii.eqb x "X") then rest else t
  | _ => t
  end.

(** [stream >> number] for [w] bits: what is stored, and whether the stream is at
    its end.  Where there is no digit zero is stored; the texts here are too short
    for a number that is out of range. *)
Definition get_hex_field (w : Z) (t : text) : option Z * bool :=
  match skip_spaces t with
  | [] => (None, true)
  | t =>
      let '(negative, t) := hex_sign t in
      let '(n, rest) := hex_digits (hex_prefix t) 0 in
      (Some (wrap w (if negative then - n else n)), bool_decide (rest = []))
  end.

Definition to_string_hex (value_a : Z) : text := number_text 16 16 value_a.

(** Whether it failed, and the target. *)
Definition from_string_hex (value_a : text) (target_a : Z) : res (bool * Z) :=
  if bool_decide (value_a = []) then Ok (true, target_a)
  else if (16 <? length value_a)%nat then Ok (true, target_a)
  else match get_hex_field 64 value_a with
       | (None, _) => Fault Indeterminate_value
       | (Some n, eof) => Ok (negb eof, n)
       end.

(** [action::encode_hex] and [action::decode_hex], into an empty vector; [None] is
    the exception for an odd length. *)
Definition action_encode_hex (bytes : list byte) : text :=
  concat (map (fun b => number_text 16 2 (byte.unsigned b)) bytes).

Fixpoint action_decode_loop (t : text) : list byte :=
  match t with
  | a :: b :: rest =>
      byte.of_Z (wrap 8 (default 0 (fst (get_hex_field 32 [a; b])))) :: action_decode_loop rest
  | _ => []
  end.

Definition action_decode_hex (t : text) : option (list byte) :=
  if negb (length t mod 2 =? 0)%nat then None else Some (action_decode_loop t).

Section Json.
Context `{PropertyTree, NumberStream}.

(** ** Writing *)

Definition pt_empty : ptree := pt_leaf [].
Definition pt_size (t : ptree) : nat := length (pt_children t).

(** [to_account]: [encode_account], which does not fail. *)
Definition to_account (a : account) : text := match encode_account a with Ok t => t | Fault _ => [] end.

(** [to_string] *)
Definition to_string (h : Z) : text := encode_hex256 h.

Definition put (k : string) (v : text) (t : ptree) : ptree := pt_put (str k) v t.

(** The trees the methods [serialize_json] build. *)
Definition send_json (b : send_block) : ptree :=
  let t := put "type" (str "send") pt_empty in
  let t := put "previous" (encode_hex256 (sh_previous (send_h b))) t in
  let t := put "destination" (to_account (sh_destination (send_h b))) t in
  let t := put "balance" (encode_hex128 (sh_balance (send_h b))) t in
  let t := put "work" (to_string_hex (send_work b)) t in
  put "signature" (encode_hex512 (send_signature b)) t.

Definition send_v2_json (b : send_block_v2) : ptree :=
  let t := put "type" (str "send_v2") pt_empty in
  let t := put "previous" (encode_hex256 (s2h_previous (send2_h b))) t in
  let t := put "destination" (to_account (s2h_destination (send2_h b))) t in
  let t := put "action" (action_encode_hex (s2h_action (send2_h b))) t in
  let t := put "work" (to_string_hex (send2_work b)) t in
  put "signature" (encode_hex512 (send2_signature b)) t.

Definition receive_json (b : receive_block) : ptree :=
  let t := put "type" (str "receive") pt_empty in
  let t := put "previous" (encode_hex256 (rh_previous (receive_h b))) t in
  let t := put "source" (encode_hex256 (rh_source (receive_h b))) t in
  let t := put "work" (to_string_hex (receive_work b)) t in
  put "signature" (encode_hex512 (receive_signature b)) t.

Definition open_json (b : open_block) : ptree :=
  let t := put "type" (str "open") pt_empty in
  let t := put "source" (to_string (oh_source (open_h b))) t in
  let t := put "representative" (to_account (oh_representative (open_h b))) t in
  let t := put "account" (to_account (oh_account (open_h b))) t in
  let t := put "work" (to_string_hex (open_work b)) t in
  put "signature" (encode_hex512 (open_signature b)) t.

Definition change_json (b : change_block) : ptree :=
  let t := put "type" (str "change") pt_empty in
  let t := put "previous" (to_string (ch_previous (change_h b))) t in
  let t := put "representative" (to_account (ch_representative (change_h b))) t in
  let t := put "work" (to_string_hex (change_work b)) t in
  put "signature" (encode_hex512 (change_signature b)) t.

Definition block_tree (b : block) : ptree :=
  match b with
  | Send b => send_json b
  | SendV2 b => send_v2_json b
  | Receive b => receive_json b
  | Open b => open_json b
  | Change b => change_json b
  end.

Definition serialize_json (b : block) : text := write_json (block_tree b).

(** ** Reading

    The result of a constructor is the object or an error; an exception becomes an
    error, as the constructors catch it. *)
Definition parse (A : Type) : Type := res (option A).
Definition parse_ret {A} (a : A) : parse A := Ok (Some a).
Definition parse_error {A} : parse A := Ok None.
Definition parse_bind {A B} (m : parse A) (k : A -> parse B) : parse B :=
  match m with Ok (Some a) => k a | Ok None => Ok None | Fault f => Fault f end.
Notation "x <-- m ;; k" := (parse_bind m (fun x => k)) (at level 100, m at next level, right associativity).

Definition field (t : ptree) (k : string) : parse text := Ok (pt_get t (str k)).
Definition hex256 (v : text) : parse Z := Ok (decode_hex256 v).
Definition hex128 (v : text) : parse Z := Ok (decode_hex128 v).
Definition hex512 (v : text) : parse Z := Ok (decode_hex512 v).
Definition account_text (v : text) : parse account :=
  match decode_account 0 v with
  | Ok (false, a) => Ok (Some a)
  | Ok (true, _) => Ok None
  | Fault f => Fault f
  end.
Definition work_text (v : text) : parse Z :=
  match from_string_hex v 0 with
  | Ok (false, w) => Ok (Some w)
  | Ok (true, _) => Ok None
  | Fault f => Fault f
  end.
Definition action_text (v : text) : parse (list byte) := Ok (action_decode_hex v).

(** The constructors from a tree. *)
Definition send_hashables_json (t : ptree) : parse send_hashables :=
  previous_l <-- field t "previous";;
  destination_l <-- field t "destination";;
  balance_l <-- field t "balance";;
  previous <-- hex256 previous_l;;
  destination <-- account_text destination_l;;
  balance <-- hex128 balance_l;;
  parse_ret (SendHashables previous destination balance).

Definition send_block_json (t : ptree) : parse send_block :=
  hashables <-- send_hashables_json t;;
  signature_l <-- field t "signature";;
  work_l <-- field t "work";;
  signature <-- hex512 signature_l;;
  work <-- work_text work_l;;
  parse_ret (SendBlock hashables signature work).

Definition send_hashables_v2_json (t : ptree) : parse send_hashables_v2 :=
  previous_l <-- field t "previous";;
  destination_l <-- field t "destination";;
  action_l <-- field t "action";;
  previous <-- hex256 previous_l;;
  destination <-- account_text destination_l;;
  action <-- action_text action_l;;
  parse_ret (SendHashablesV2 previous destination action).

Definition send_block_v2_json (t : ptree) : parse send_block_v2 :=
  hashables <-- send_hashables_v2_json t;;
  signature_l <-- field t "signature";;
  work_l <-- field t "work";;
  signature <-- hex512 signature_l;;
  work <-- work_text work_l;;
  parse_ret (SendBlockV2 hashables signature work).

Definition open_hashables_json (t : ptree) : parse open_hashables :=
  source_l <-- field t "source";;
  representative_l <-- field t "representative";;
  account_l <-- field t "account";;
  source <-- hex256 source_l;;
  representative <-- account_text representative_l;;
  account <-- account_text account_l;;
  parse_ret (OpenHashables source representative account).

Definition open_block_json (t : ptree) : parse open_block :=
  hashables <-- open_hashables_json t;;
  work_l <-- field t "work";;
  signature_l <-- field t "signature";;
  work <-- work_text work_l;;
  signature <-- hex512 signature_l;;
  parse_ret (OpenBlock hashables signature work).

Definition change_hashables_json (t : ptree) : parse change_hashables :=
  previous_l <-- field t "previous";;
  representative_l <-- field t "representative";;
  previous <-- hex256 previous_l;;
  representative <-- account_text representative_l;;
  parse_ret (ChangeHashables previous representative).

Definition change_block_json (t : ptree) : parse change_block :=
  hashables <-- change_hashables_json t;;
  work_l <-- field t "work";;
  signature_l <-- field t "signature";;
  work <-- work_text work_l;;
  signature <-- hex512 signature_l;;
  parse_ret (ChangeBlock hashables signature work).

Definition receive_hashables_json (t : ptree) : parse receive_hashables :=
  previous_l <-- field t "previous";;
  source_l <-- field t "source";;
  previous <-- hex256 previous_l;;
  source <-- hex256 source_l;;
  parse_ret (ReceiveHashables previous source).

Definition receive_block_json (t : ptree) : parse receive_block :=
  hashables <-- receive_hashables_json t;;
  signature_l <-- field t "signature";;
  work_l <-- field t "work";;
  signature <-- hex512 signature_l;;
  work <-- work_text work_l;;
  parse_ret (ReceiveBlock hashables signature work).

(** [None] is the null pointer. *)
Definition deserialize_block_json (t : ptree) : parse block :=
  type <-- field t "type";;
  if bool_decide (type = str "receive") then b <-- receive_block_json t;; parse_ret (Receive b)
  else if bool_decide (type = str "send") then b <-- send_block_json t;; parse_ret (Send b)
  else if bool_decide (type = str "send_v2") then b <-- send_block_v2_json t;; parse_ret (SendV2 b)
  else if bool_decide (type = str "open") then b <-- open_block_json t;; parse_ret (Open b)
  else if bool_decide (type = str "change") then b <-- change_block_json t;; parse_ret (Change b)
  else parse_error.

(** ** The methods [deserialize_json]

    Into an object that there is already; [None] is the result [true].  The type is
    asserted. *)
Definition assert_type (t : ptree) (name : string) : parse unit :=
  type <-- field t "type";;
  if bool_decide (type = str name) then parse_ret tt else Fault Assertion_failed.

Definition send_deserialize_json (t : ptree) : parse send_block :=
  _ <-- assert_type t "send";;
  previous_l <-- field t "previous";;
  destination_l <-- field t "destination";;
  balance_l <-- field t "balance";;
  work_l <-- field t "work";;
  signature_l <-- field t "signature";;
  previous <-- hex256 previous_l;;
  destination <-- account_text destination_l;;
  balance <-- hex128 balance_l;;
  work <-- work_text work_l;;
  signature <-- hex512 signature_l;;
  parse_ret (SendBlock (SendHashables previous destination balance) signature work).

(** The bytes of the action are appended to those of the object. *)
Definition send_v2_deserialize_json (this : send_block_v2) (t : ptree) : parse send_block_v2 :=
  _ <-- assert_type t "send";;
  previous_l <-- field t "previous";;
  destination_l <-- field t "destination";;
  action_l <-- field t "action";;
  work_l <-- field t "work";;
  signature_l <-- field t "signature";;
  previous <-- hex256 previous_l;;
  destination <-- account_text destination_l;;
  action <-- action_text action_l;;
  work <-- work_text work_l;;
  signature <-- hex512 signature_l;;
  parse_ret (SendBlockV2 (SendHashablesV2 previous destination (s2h_action (send2_h this) ++ action)) signature work).

Definition open_deserialize_json (t : ptree) : parse open_block :=
  _ <-- assert_type t "open";;
  source_l <-- field t "source";;
  representative_l <-- field t "representative";;
  account_l <-- field t "account";;
  work_l <-- field t "work";;
  signature_l <-- field t "signature";;
  source <-- hex256 source_l;;
  representative <-- hex256 representative_l;;
  account <-- hex256 account_l;;
  work <-- work_text work_l;;
  signature <-- hex512 signature_l;;
  parse_ret (OpenBlock (OpenHashables source representative account) signature work).

Definition change_deserialize_json (t : ptree) : parse change_block :=
  _ <-- assert_type t "change";;
  previous_l <-- field t "previous";;
  representative_l <-- field t "representative";;
  work_l <-- field t "work";;
  signature_l <-- field t "signature";;
  previous <-- hex256 previous_l;;
  representative <-- hex256 representative_l;;
  work <-- work_text work_l;;
  signature <-- hex512 signature_l;;
  parse_ret (ChangeBlock (ChangeHashables previous representative) signature work).

Definition receive_deserialize_json (t : ptree) : parse receive_block :=
  _ <-- assert_type t "receive";;
  previous_l <-- field t "previous";;
  source_l <-- field t "source";;
  work_l <-- field t "work";;
  signature_l <-- field t "signature";;
  previous <-- hex256 previous_l;;
  source <-- hex256 source_l;;
  work <-- work_text work_l;;
  signature <-- hex512 signature_l;;
  parse_ret (ReceiveBlock (ReceiveHashables previous source) signature work).

End Json.
