(* ===== verification/JsonTheorems.v ===== *)
(** * JSON of blocks: facts

    Hexadecimal integers, actions, accounts and whole blocks are read back from the
    text that is written of them. *)
From Stdlib Require Import ZArith Lia List Ascii String.
From stdpp Require Import prelude strings.
From S2P Require Import Prelude Numbers Streams Blocks NumberText NumberTextTheorems Json.

(** ** Hexadecimal integers *)

Lemma hex_digit_char d : 0 <= d < 16 -> hex_digit (digit_char d) = Some d.
Proof.
  intros Hd. assert (Hall : forallb (fun d => bool_decide (hex_digit (digit_char d) = Some d)) (map Z.of_nat (seq 0 16)) = true) by reflexivity.
  rewrite forallb_forall in Hall. specialize (Hall d). rewrite bool_decide_eq_true in Hall. apply Hall.
  apply in_map_iff. exists (Z.to_nat d). rewrite in_seq. lia.
Qed.

(** A digit is not a space, a sign or an x, and can be printed. *)
Lemma digit_char_plain d : 0 <= d < 16 ->
  is_space (digit_char d) = false /\ Ascii.eqb (digit_char d) "-" = false /\ Ascii.eqb (digit_char d) "+" = false
  /\ Ascii.eqb (digit_char d) "x" || Ascii.eqb (digit_char d) "X" = false
  /\ (0x20 <=? code (digit_char d)) && (code (digit_char d) <=? 0x7e) = true.
Proof.
  intros Hd. assert (Hall : forallb (fun d => negb (is_space (digit_char d)) && negb (Ascii.eqb (digit_char d) "-")
    && negb (Ascii.eqb (digit_char d) "+") && negb (Ascii.eqb (digit_char d) "x" || Ascii.eqb (digit_char d) "X")
    && ((0x20 <=? code (digit_char d)) && (code (digit_char d) <=? 0x7e))) (map Z.of_nat (seq 0 16)) = true) by reflexivity.
  rewrite forallb_forall in Hall. specialize (Hall d). rewrite !andb_true_iff, !negb_true_iff in Hall.
  destruct Hall as ((((?&?)&?)&?)&?&?). { apply in_map_iff. exists (Z.to_nat d). rewrite in_seq. lia. }
  split_and!; try done. apply andb_true_iff. done.
Qed.

Lemma hex_digits_text ds acc : (forall d, In d ds -> 0 <= d < 16) ->
  hex_digits (map digit_char ds) acc = (fold_left (fun a d => a * 16 + d) ds acc, []).
Proof.
  revert acc. induction ds as [|d ds IH]; intros acc Hd; [done|]. cbn [map hex_digits fold_left].
  rewrite hex_digit_char by (apply Hd; by left). apply IH. intros x Hx. apply Hd. by right.
Qed.

Lemma get_hex_digits w ds : ds <> [] -> (forall d, In d ds -> 0 <= d < 16) ->
  get_hex_field w (map digit_char ds) = (Some (wrap w (digits_value 16 ds)), true).
Proof.
  intros Hne Hd. unfold get_hex_field. destruct ds as [|d ds]; [done|].
  destruct (digit_char_plain d) as (Hs & Hm & Hp & _); [apply Hd; by left|].
  cbn [map skip_spaces]. rewrite Hs. cbn [hex_sign]. rewrite Hm, Hp. cbv iota beta.
  assert (Hpre : hex_prefix (digit_char d :: map digit_char ds) = digit_char d :: map digit_char ds).
  { destruct ds as [|x ds]; [done|]. cbn [map hex_prefix].
    destruct (digit_char_plain x) as (_ & _ & _ & -> & _); [apply Hd; right; by left|]. by rewrite andb_false_r. }
  rewrite Hpre. change (digit_char d :: map digit_char ds) with (map digit_char (d :: ds)).
  rewrite hex_digits_text by done. cbn [fst snd]. done.
Qed.

Lemma hex_range c n d : In d (NumberText.digits 16 c n) -> 0 <= d < 16.
Proof. apply digits_range. lia. Qed.

Lemma hex_field_text w width k n : 0 <= n < 16 ^ Z.of_nat k -> (1 <= k <= width)%nat -> 16 ^ Z.of_nat k <= 2 ^ w ->
  get_hex_field w (number_text 16 width n) = (Some n, true).
Proof.
  intros Hn Hk Hw. unfold number_text. set (c := Nat.max _ _).
  rewrite get_hex_digits; [|rewrite <- length_zero_iff_nil, length_base_digits; unfold c; lia|apply hex_range].
  rewrite digits_value_digits by lia.
  assert (16 ^ Z.of_nat k <= 16 ^ Z.of_nat c) by (apply Z.pow_le_mono_r; unfold c; lia).
  rewrite Z.mod_small by lia. rewrite wrap_small by (unfold fits; lia). done.
Qed.

Lemma hex_printable width n : printable (number_text 16 width n) = true.
Proof.
  unfold printable, number_text. rewrite forallb_map, forallb_forall. intros d Hd%hex_range.
  by destruct (digit_char_plain d Hd) as (_ & _ & _ & _ & ->).
Qed.

Lemma hex_nonempty width n : number_text 16 (S width) n <> [].
Proof. unfold number_text. rewrite <- length_zero_iff_nil, length_map, length_base_digits. lia. Qed.

Lemma work_text_back w target : fits 64 w -> from_string_hex (to_string_hex w) target = Ok (false, w).
Proof.
  intros Hw. unfold from_string_hex, to_string_hex. rewrite bool_decide_false by apply hex_nonempty.
  unfold fits in Hw. rewrite length_hex by lia. cbn [Nat.ltb Nat.leb].
  rewrite (hex_field_text 64 16 16) by lia. done.
Qed.

(** ** Actions *)

Lemma byte_hex b : get_hex_field 32 (number_text 16 2 (byte.unsigned b)) = (Some (byte.unsigned b), true).
Proof. pose proof (byte.unsigned_range b). apply (hex_field_text 32 2 2); lia. Qed.

Lemma length_byte_hex b : length (number_text 16 2 (byte.unsigned b)) = 2%nat.
Proof. pose proof (byte.unsigned_range b). apply length_hex; lia. Qed.

Lemma action_length bs : length (action_encode_hex bs) = (2 * length bs)%nat.
Proof.
  unfold action_encode_hex. induction bs as [|b bs IH]; [done|]. cbn [map concat]. rewrite length_app, IH, length_byte_hex. cbn. lia.
Qed.

Lemma action_text_back bs : action_decode_hex (action_encode_hex bs) = Some bs.
Proof.
  unfold action_decode_hex. rewrite action_length, Nat.mul_comm, Nat.Div0.mod_mul. cbn [Nat.eqb negb]. f_equal.
  induction bs as [|b bs IH]; [done|]. unfold action_encode_hex. cbn [map concat]. fold (action_encode_hex bs).
  pose proof (byte_hex b) as Hb. pose proof (length_byte_hex b) as Hl.
  destruct (number_text 16 2 (byte.unsigned b)) as [|x [|y [|? ?]]]; try discriminate Hl.
  cbn [app action_decode_loop]. rewrite Hb, IH. cbn [fst from_option]. unfold id. f_equal.
  pose proof (byte.unsigned_range b). rewrite wrap_small by (unfold fits; lia). apply byte.of_Z_unsigned.
Qed.

Lemma action_printable bs : printable (action_encode_hex bs) = true.
Proof.
  unfold action_encode_hex. induction bs as [|b bs IH]; [done|]. cbn [map concat]. unfold printable in *.
  rewrite forallb_app, IH, andb_true_r. apply hex_printable.
Qed.

(** ** Accounts *)

Lemma to_account_text a : encode_account a = Ok (to_account a) /\ to_account a = str "xrb_" ++ rev (Numbers.digits 60 (account_number a)).
Proof. unfold to_account. by rewrite encode_account_digits. Qed.

Lemma to_account_back a this : fits 256 a -> decode_account this (to_account a) = Ok (false, a).
Proof. intros Ha. rewrite (proj2 (to_account_text a)). by apply decode_account_digits. Qed.

Lemma length_to_account a : length (to_account a) = 64%nat.
Proof. rewrite (proj2 (to_account_text a)), length_app, length_rev, length_digits. done. Qed.

Lemma to_account_inj a b : fits 256 a -> fits 256 b -> to_account a = to_account b -> a = b.
Proof. intros Ha Hb He. pose proof (to_account_back a 0 Ha) as Hx. rewrite He, to_account_back in Hx by done. congruence. Qed.

(** Every character is printable, and none is a dot. *)
Lemma account_char r : 0 <= r < 32 ->
  (0x20 <=? code (Numbers.digit r)) && (code (Numbers.digit r) <=? 0x7e) && negb (Ascii.eqb (Numbers.digit r) ".") = true.
Proof.
  intros Hr. assert (Hall : forallb (fun r => (0x20 <=? code (Numbers.digit r)) && (code (Numbers.digit r) <=? 0x7e)
    && negb (Ascii.eqb (Numbers.digit r) ".")) (map Z.of_nat (seq 0 32)) = true) by reflexivity.
  rewrite forallb_forall in Hall. apply Hall. apply in_map_iff. exists (Z.to_nat r). rewrite in_seq. lia.
Qed.

Lemma account_chars n z :
  forallb (fun c => (0x20 <=? code c) && (code c <=? 0x7e) && negb (Ascii.eqb c ".")) (Numbers.digits n z) = true.
Proof.
  revert z. induction n as [|n IH]; intros z; [done|]. cbn [Numbers.digits forallb].
  rewrite IH, andb_true_r. apply account_char. apply Z.mod_pos_bound. lia.
Qed.

Lemma to_account_chars a c : In c (to_account a) ->
  (0x20 <=? code c) && (code c <=? 0x7e) && negb (Ascii.eqb c ".") = true.
Proof.
  rewrite (proj2 (to_account_text a)), in_app_iff, <- in_rev. intros [Hc|Hc].
  - revert c Hc. rewrite <- forallb_forall. reflexivity.
  - pose proof (account_chars 60 (account_number a)) as Hall. rewrite forallb_forall in Hall. by apply Hall.
Qed.

Lemma to_account_printable a : printable (to_account a) = true.
Proof. unfold printable. apply forallb_forall. intros c Hc. by apply to_account_chars, andb_true_iff in Hc as [-> _]. Qed.

Lemma to_account_plain a : plain (to_account a) = true.
Proof.
  unfold plain. rewrite bool_decide_false by (intros He; pose proof (length_to_account a) as Hl; by rewrite He in Hl).
  apply forallb_forall. intros c Hc. by apply to_account_chars, andb_true_iff in Hc as [_ ->].
Qed.

(** ** Trees *)

Section Trees.
Context `{PropertyTree, NumberStream}.

(** The keys of a tree and the data of its children. *)
Definition fields_of (t : ptree) : list (list ascii * list ascii) := map (fun x => (fst x, pt_data (snd x))) (pt_children t).

Lemma first_child_map {T U} (f : T -> U) k l :
  first_child k (map (fun x => (fst x, f (snd x))) l) = f <$> first_child k l.
Proof. induction l as [|[x c] l IH]; [done|]. cbn. case_bool_decide; [done|]. apply IH. Qed.

Lemma get_fields t k : plain k = true -> pt_get t k = first_child k (fields_of t).
Proof. intros Hk. rewrite get_text by done. unfold fields_of. by rewrite first_child_map. Qed.

Lemma put_child_new {T} k (f : T -> T) new l : ~ In k (map fst l) -> put_child k f new l = l ++ [(k, new)].
Proof.
  induction l as [|[x c] l IH]; [done|]. cbn. intros Hk. rewrite bool_decide_false by (intros ->; apply Hk; by left).
  f_equal. apply IH. intros Hx. apply Hk. by right.
Qed.

(** Putting under a new key appends a leaf. *)
Lemma put_fresh k v t : plain k = true -> ~ In k (map fst (pt_children t)) ->
  pt_children (pt_put k v t) = pt_children t ++ [(k, pt_leaf v)].
Proof. intros Hk Hf. by rewrite put_children, put_child_new. Qed.

(** A tree that is built by putting under different keys. *)
Definition tree_of (l : list (string * list ascii)) : ptree := fold_left (fun t x => put (fst x) (snd x) t) l pt_empty.

Lemma fold_put_children l t : (forall k v, In (k, v) l -> plain (str k) = true) ->
  NoDup (map fst (pt_children t) ++ map (fun x => str (fst x)) l) ->
  pt_data (fold_left (fun t x => put (fst x) (snd x) t) l t) = pt_data t
  /\ pt_children (fold_left (fun t x => put (fst x) (snd x) t) l t)
     = pt_children t ++ map (fun x => (str (fst x), pt_leaf (snd x))) l.
Proof.
  revert t. induction l as [|[k v] l IH]; intros t Hp Hd; [by rewrite app_nil_r|]. cbn [fold_left map fst snd].
  assert (Hk : plain (str k) = true) by (apply (Hp k v); by left).
  assert (Hc : pt_children (put k v t) = pt_children t ++ [(str k, pt_leaf v)]).
  { apply put_fresh; [done|]. intros Hin. apply NoDup_app in Hd as (_ & Hd & _). apply (Hd (str k)).
    - by apply list_elem_of_In.
    - cbn. left. }
  destruct (IH (put k v t)) as [Hdata Hch].
  - intros k' v' Hin. apply (Hp k' v'). by right.
  - rewrite Hc, map_app, <- app_assoc. exact Hd.
  - rewrite Hdata, Hch, Hc, <- app_assoc. split; [by apply put_data|done].
Qed.

Lemma tree_of_children l : (forall k v, In (k, v) l -> plain (str k) = true) -> NoDup (map (fun x => str (fst x)) l) ->
  pt_data (tree_of l) = [] /\ pt_children (tree_of l) = map (fun x => (str (fst x), pt_leaf (snd x))) l.
Proof.
  intros Hp Hd. destruct (fold_put_children l pt_empty Hp) as [Ha Hb]; [by unfold pt_empty; rewrite leaf_children|].
  unfold tree_of. rewrite Ha, Hb. unfold pt_empty. rewrite leaf_data, leaf_children. done.
Qed.

Lemma tree_of_fields l : (forall k v, In (k, v) l -> plain (str k) = true) -> NoDup (map (fun x => str (fst x)) l) ->
  fields_of (tree_of l) = map (fun x => (str (fst x), snd x)) l.
Proof.
  intros Hp Hd. unfold fields_of. rewrite (proj2 (tree_of_children l Hp Hd)), map_map. apply map_ext. intros [k v]. cbn.
  by rewrite leaf_data.
Qed.

(** ** Blocks *)

(** The fields of a block, in the order they are put. *)
Definition block_fields (b : block) : list (string * list ascii) :=
  match b with
  | Send b =>
      [("type", str "send"); ("previous", encode_hex256 (sh_previous (send_h b)));
       ("destination", to_account (sh_destination (send_h b))); ("balance", encode_hex128 (sh_balance (send_h b)));
       ("work", to_string_hex (send_work b)); ("signature", encode_hex512 (send_signature b))]
  | SendV2 b =>
      [("type", str "send_v2"); ("previous", encode_hex256 (s2h_previous (send2_h b)));
       ("destination", to_account (s2h_destination (send2_h b))); ("action", action_encode_hex (s2h_action (send2_h b)));
       ("work", to_string_hex (send2_work b)); ("signature", encode_hex512 (send2_signature b))]
  | Receive b =>
      [("type", str "receive"); ("previous", encode_hex256 (rh_previous (receive_h b)));
       ("source", encode_hex256 (rh_source (receive_h b)));
       ("work", to_string_hex (receive_work b)); ("signature", encode_hex512 (receive_signature b))]
  | Open b =>
      [("type", str "open"); ("source", encode_hex256 (oh_source (open_h b)));
       ("representative", to_account (oh_representative (open_h b))); ("account", to_account (oh_account (open_h b)));
       ("work", to_string_hex (open_work b)); ("signature", encode_hex512 (open_signature b))]
  | Change b =>
      [("type", str "change"); ("previous", encode_hex256 (ch_previous (change_h b)));
       ("representative", to_account (ch_representative (change_h b)));
       ("work", to_string_hex (change_work b)); ("signature", encode_hex512 (change_signature b))]
  end%string.

Lemma block_tree_of b : block_tree b = tree_of (block_fields b).
Proof. by destruct b. Qed.

Lemma block_keys b : (forall k v, In (k, v) (block_fields b) -> plain (str k) = true) /\ NoDup (map (fun x => str (fst x)) (block_fields b)).
Proof.
  split.
  - destruct b; intros k v Hin; cbn in Hin; repeat (destruct Hin as [[= <- <-]|Hin]; [reflexivity|]); done.
  - destruct b; cbn [block_fields map fst]; apply (bool_decide_unpack _); reflexivity.
Qed.

Lemma block_tree_fields b : fields_of (block_tree b) = map (fun x => (str (fst x), snd x)) (block_fields b).
Proof. rewrite block_tree_of. by apply tree_of_fields; apply block_keys. Qed.

Lemma first_child_in (k : string) v (l : list (string * list ascii)) : NoDup (map (fun x => str (fst x)) l) -> In (k, v) l ->
  first_child (str k) (map (fun x => (str (fst x), snd x)) l) = Some v.
Proof.
  induction l as [|[x y] l IH]; [done|]. cbn. intros [Hx Hd]%NoDup_cons [[= -> ->]|Hin]; [by rewrite bool_decide_true|].
  rewrite bool_decide_false; [by apply IH|]. intros He. apply Hx, list_elem_of_In, in_map_iff. by exists (k, v).
Qed.

(** A tree that was put together from different keys gives the texts back. *)
Lemma tree_of_get l k v : (forall k v, In (k, v) l -> plain (str k) = true) -> NoDup (map (fun x => str (fst x)) l) ->
  In (k, v) l -> pt_get (tree_of l) (str k) = Some v.
Proof.
  intros Hp Hd Hin. rewrite get_fields by (by eapply Hp). rewrite (tree_of_fields l Hp Hd). by apply first_child_in.
Qed.

(** A tree with the fields of a block. *)
Lemma block_field t b k v : fields_of t = map (fun x => (str (fst x), snd x)) (block_fields b) -> In (k, v) (block_fields b) ->
  field t k = parse_ret v.
Proof.
  intros Hf Hin. destruct (block_keys b) as [Hp Hd]. unfold field. rewrite get_fields by (by eapply Hp).
  rewrite Hf. by rewrite (first_child_in k v).
Qed.

Lemma hex256_back h : fits 256 h -> hex256 (encode_hex256 h) = parse_ret h.
Proof. intros Hh. unfold hex256. by rewrite (proj2 (proj1 (proj2 (text_read_back h)) Hh)). Qed.
Lemma hex128_back h : fits 128 h -> hex128 (encode_hex128 h) = parse_ret h.
Proof. intros Hh. unfold hex128. by rewrite (proj2 (proj1 (text_read_back h) Hh)). Qed.
Lemma hex512_back h : fits 512 h -> hex512 (encode_hex512 h) = parse_ret h.
Proof. intros Hh. unfold hex512. by rewrite (proj2 (proj2 (text_read_back h)) Hh). Qed.
Lemma account_text_back a : fits 256 a -> account_text (to_account a) = parse_ret a.
Proof. intros Ha. unfold account_text. by rewrite to_account_back. Qed.
Lemma work_text_read w : fits 64 w -> work_text (to_string_hex w) = parse_ret w.
Proof. intros Hw. unfold work_text. by rewrite work_text_back. Qed.
Lemma action_text_read bs : action_text (action_encode_hex bs) = parse_ret bs.
Proof. unfold action_text. by rewrite action_text_back. Qed.

Lemma parse_bind_ret {A B} (a : A) (k : A -> parse B) : parse_bind (parse_ret a) k = k a.
Proof. done. Qed.

(** Look the fields up and read them. *)
Ltac find_field := cbn [block_fields]; repeat first [left; reflexivity | right].
Ltac read_fields Hf :=
  repeat (erewrite (block_field _ _ _ _ Hf) by find_field; rewrite ?parse_bind_ret; cbv beta);
  cbn [send_h send_signature send_work sh_previous sh_destination sh_balance
       send2_h send2_signature send2_work s2h_previous s2h_destination s2h_action
       receive_h receive_signature receive_work rh_previous rh_source
       open_h open_signature open_work oh_source oh_representative oh_account
       change_h change_signature change_work ch_previous ch_representative];
  repeat first [rewrite hex256_back by done | rewrite hex128_back by done | rewrite hex512_back by done
               | rewrite account_text_back by done | rewrite work_text_read by done | rewrite action_text_read
               | rewrite parse_bind_ret].

Lemma fields_read_back t b : fields_of t = map (fun x => (str (fst x), snd x)) (block_fields b) -> block_ok b ->
  deserialize_block_json t = parse_ret b.
Proof.
  intros Hf Hok. unfold deserialize_block_json.
  destruct b as [[[p d m] s w]|[[p d c] s w]|[[p q] s w]|[[q r a] s w]|[[p r] s w]]; cbn [block_ok] in Hok;
    erewrite (block_field _ _ "type" _ Hf) by find_field; rewrite parse_bind_ret;
    repeat (rewrite bool_decide_false by discriminate); rewrite bool_decide_true by reflexivity.
  - destruct Hok as (?&?&?&?&?). unfold send_block_json, send_hashables_json. by read_fields Hf.
  - destruct Hok as (?&?&?&?&?). unfold send_block_v2_json, send_hashables_v2_json. by read_fields Hf.
  - destruct Hok as (?&?&?&?). unfold receive_block_json, receive_hashables_json. by read_fields Hf.
  - destruct Hok as (?&?&?&?&?). unfold open_block_json, open_hashables_json. by read_fields Hf.
  - destruct Hok as (?&?&?&?). unfold change_block_json, change_hashables_json. by read_fields Hf.
Qed.

Lemma block_texts_printable b k v : block_ok b -> In (k, v) (block_fields b) -> printable (str k) && printable v = true.
Proof.
  intros Hok Hin.
  assert (H256 : forall h, fits 256 h -> printable (encode_hex256 h) = true)
    by (intros h [Hh _]; unfold encode_hex256; rewrite put_hex_text by done; apply hex_printable).
  assert (H128 : forall h, fits 128 h -> printable (encode_hex128 h) = true)
    by (intros h [Hh _]; unfold encode_hex128; rewrite put_hex_text by done; apply hex_printable).
  assert (H512 : forall h, fits 512 h -> printable (encode_hex512 h) = true)
    by (intros h [Hh _]; unfold encode_hex512; rewrite put_hex_text by done; apply hex_printable).
  destruct b as [[[p d m] s w]|[[p d c] s w]|[[p q] s w]|[[q r a] s w]|[[p r] s w]]; cbn [block_ok] in Hok; cbn [block_fields In] in Hin;
    destruct_and?; repeat (destruct Hin as [[= <- <-]|Hin]; [apply andb_true_iff; split; [reflexivity|];
      first [reflexivity | by apply H256 | by apply H128 | by apply H512 | apply to_account_printable | apply hex_printable | apply action_printable]|]); done.
Qed.

Lemma block_json_back b : block_ok b ->
  deserialize_block_json (block_tree b) = Ok (Some b)
  /\ exists t, read_json (serialize_json b) = Some t /\ deserialize_block_json t = Ok (Some b).
Proof.
  intros Hok. pose proof (block_tree_fields b) as Hf. split; [by apply fields_read_back|].
  destruct (block_keys b) as [Hp Hd]. destruct (tree_of_children _ Hp Hd) as [Hdata Hch]. rewrite <- block_tree_of in Hdata, Hch.
  destruct (json_read_written (block_tree b)) as (t & Ht & Hsame).
  - done.
  - rewrite Hch. by destruct b.
  - intros k c Hin. rewrite Hch in Hin. apply in_map_iff in Hin as ([x v] & [= <- <-] & Hin). rewrite leaf_children, leaf_data.
    split; [done|]. rewrite (Hp x v Hin). by apply (block_texts_printable b).
  - exists t. split; [done|]. apply fields_read_back; [|done]. rewrite <- Hf. exact Hsame.
Qed.

(** C17: a block of any kind that is in range is read back from the tree its JSON is
    written from, and from the tree that is read from that text; so two blocks with
    the same JSON are the same block. *)
Theorem block_json_roundtrip b : block_ok b ->
  deserialize_block_json (block_tree b) = Ok (Some b)
  /\ (exists t, read_json (serialize_json b) = Some t /\ deserialize_block_json t = Ok (Some b))
  /\ forall b', block_ok b' -> serialize_json b' = serialize_json b -> b' = b.
Proof.
  intros Hok. destruct (block_json_back b Hok) as (Htree & t & Ht & Hb). split_and!; [done|by exists t|].
  intros b' (_ & t' & Ht' & Hb')%block_json_back He. rewrite He, Ht in Ht'. injection Ht' as <-. congruence.
Qed.

(** ** The methods [deserialize_json] *)

(** The methods of a send block and of a receive block read the tree they write.  The
    method of the block with an action asserts the type of the block without; those of
    an open and a change block decode the accounts as hexadecimal numbers and refuse
    what they wrote themselves. *)
Theorem own_json_refused (b : block) :
  (forall w t, starts_with "x" t = true -> read_all (get_hex w t) = None) ->
  block_ok b ->
  match b with
  | Send b' => send_deserialize_json (block_tree b) = Ok (Some b')
  | Receive b' => receive_deserialize_json (block_tree b) = Ok (Some b')
  | SendV2 _ => forall this, send_v2_deserialize_json this (block_tree b) = Fault Assertion_failed
  | Open _ => open_deserialize_json (block_tree b) = Ok None
  | Change _ => change_deserialize_json (block_tree b) = Ok None
  end.
Proof.
  intros Hx Hok. pose proof (block_tree_fields b) as Hf.
  assert (Hacc : forall a, hex256 (to_account a) = Ok None).
  { intros a. unfold hex256, decode_hex256. rewrite length_to_account. cbn [Nat.eqb negb Nat.leb andb].
    rewrite Hx; [done|]. by rewrite (proj2 (to_account_text a)). }
  destruct b as [[[p d m] s w]|[[p d c] s w]|[[p q] s w]|[[q r a] s w]|[[p r] s w]]; cbn [block_ok] in Hok; destruct_and?.
  - unfold send_deserialize_json, assert_type. erewrite (block_field _ _ "type" _ Hf) by find_field. rewrite parse_bind_ret.
    rewrite bool_decide_true by reflexivity. by read_fields Hf.
  - intros this. unfold send_v2_deserialize_json, assert_type. erewrite (block_field _ _ "type" _ Hf) by find_field. rewrite parse_bind_ret.
    by rewrite bool_decide_false.
  - unfold receive_deserialize_json, assert_type. erewrite (block_field _ _ "type" _ Hf) by find_field. rewrite parse_bind_ret.
    rewrite bool_decide_true by reflexivity. by read_fields Hf.
  - unfold open_deserialize_json, assert_type. erewrite (block_field _ _ "type" _ Hf) by find_field. rewrite parse_bind_ret.
    rewrite bool_decide_true by reflexivity. read_fields Hf. by rewrite Hacc.
  - unfold change_deserialize_json, assert_type. erewrite (block_field _ _ "type" _ Hf) by find_field. rewrite parse_bind_ret.
    rewrite bool_decide_true by reflexivity. read_fields Hf. by rewrite Hacc.
Qed.
End Trees.
