(* ===== verification/Conversions.v ===== *)
(** * Code that throws, and conversions of texts (rai/node/rpc.cpp, rai/node/node.cpp)

    A computation on a state that can throw an exception: what it changed before is not
    undone.  A failed assertion and the like are faults, which end everything.  The
    handlers of requests and the reading of configurations are written in it.

    Then the unsigned numbers of requests and configurations, conversions that assign to
    an object whether they fail or not, and addresses with ports.  The addresses of
    boost::asio are the class [AddressText]. *)
From Stdlib Require Import ZArith Lia List Ascii String.
From stdpp Require Import prelude strings.
From S2P Require Import Prelude Numbers Streams Blocks Messages Peers NumberText Json.

(** The exceptions that are told apart: [std::runtime_error], which the trees and JSON
    throw, and [std::logic_error], which the conversions of the standard library throw. *)
Inductive exception := Runtime_error | Logic_error.

Section Exceptional.
Context {S : Type}.

Definition exceptional (A : Type) : Type := M S (exception + A).
Definition h_ret {A} (a : A) : exceptional A := fun n => Ok (inr a, n).
Definition throw {A} (e : exception) : exceptional A := fun n => Ok (inl e, n).
Definition h_fault {A} (f : fault) : exceptional A := fun _ => Fault f.
Definition h_bind {A B} (m : exceptional A) (k : A -> exceptional B) : exceptional B := fun n =>
  match m n with
  | Ok (inr a, n) => k a n
  | Ok (inl e, n) => Ok (inl e, n)
  | Fault f => Fault f
  end.
Definition h_get {A} (f : S -> A) : exceptional A := fun n => Ok (inr (f n), n).
Definition h_put (f : S -> S) : exceptional unit := fun n => Ok (inr tt, f n).
Definition h_res {A} (r : res A) : exceptional A := fun n => match r with Ok a => Ok (inr a, n) | Fault f => Fault f end.
Definition h_assert (b : bool) : exceptional unit := if b then h_ret tt else h_fault Assertion_failed.
Definition h_catch {A} (m : exceptional A) (k : exception -> exceptional A) : exceptional A := fun n =>
  match m n with
  | Ok (inl e, n) => k e n
  | r => r
  end.

Lemma bind_ret {A B} (a : A) (k : A -> exceptional B) : h_bind (h_ret a) k = k a.
Proof. reflexivity. Qed.
Lemma bind_throw {A B} e (k : A -> exceptional B) : h_bind (throw e) k = throw e.
Proof. reflexivity. Qed.
End Exceptional.
Arguments exceptional : clear implicits.

Declare Scope rpc_scope.
Delimit Scope rpc_scope with rpc.
Notation "'let!' x := m 'in' k" := (h_bind m (fun x => k)) (at level 200, x name, m at level 100, k at level 200) : rpc_scope.
Notation "m ;! k" := (h_bind m (fun _ => k)) (at level 100, k at level 200, right associativity) : rpc_scope.

Abbreviation text := (list ascii) (only parsing).

(** ** Unsigned numbers *)

Definition dec_digit (c : ascii) : option Z := if (48 <=? Numbers.code c) && (Numbers.code c <=? 57) then Some (Numbers.code c - 48) else None.

(** The digits at the front, if there is one, and the rest. *)
Fixpoint dec_digits (t : text) (acc : Z) (any : bool) : option (Z * text) :=
  match t with
  | c :: rest => match dec_digit c with Some d => dec_digits rest (acc * 10 + d) true | None => if any then Some (acc, t) else None end
  | [] => if any then Some (acc, []) else None
  end.

(** [std::stoull]: the number and the rest, or an exception.  A number with a minus
    sign is negated in 64 bits. *)
Definition stoull (t : text) : option (Z * text) :=
  let '(negative, t) := hex_sign (skip_spaces t) in
  match dec_digits t 0 false with
  | None => None
  | Some (n, rest) => if 2 ^ 64 <=? n then None else Some (wrap 64 (if negative then - n else n), rest)
  end.

(** Whether it failed, and the number, which is assigned also when there is
    something behind it. *)
Definition decode_unsigned (t : text) (number : Z) : bool * Z :=
  match stoull t with
  | None => (true, number)
  | Some (n, rest) => (negb (bool_decide (rest = [])), n)
  end.

(** [std::to_string] *)
Definition to_dec (n : Z) : text := number_text 10 1 n.

(** ** Units *)

Definition Mxrb_ratio : Z := 1000000000000000000000000000000.
Definition kxrb_ratio : Z := 1000000000000000000000000000.
Definition xrb_ratio : Z := 1000000000000000000000000.

(** ** Conversions that assign *)

Section Assign.
Context `{NumberStream}.

Definition assigned (this : Z) (r : option (Z * bool)) : bool * Z :=
  match r with Some (n, eof) => (negb eof, n) | None => (true, this) end.

(** [uint256_union::decode_hex] and [uint128_union::decode_dec] on an object. *)
Definition decode_hex_into (this : Z) (t : text) : bool * Z :=
  if negb (length t =? 0)%nat && (length t <=? 64)%nat then assigned this (get_hex 256 t) else (true, this).
Definition decode_dec_into (this : Z) (t : text) : bool * Z :=
  if (39 <? length t)%nat || (1 <? length t)%nat && starts_with "0" t || (0 <? length t)%nat && starts_with "-" t
  then (true, this) else assigned this (get_dec 128 t).
End Assign.

(** ** Addresses and ports (rai/node/node.cpp) *)

Class AddressText := {
  (** [address_v6::from_string]; [None] is an error code. *)
  parse_address : text -> option Z;
  address_text : Z -> text;
  endpoint_text : endpoint -> text
}.

(** [parse_port]: whether it failed, and the port; [None] is an exception.  The number
    of characters is compared with the largest port, not the number. *)
Definition parse_port (t : text) : option (bool * Z) :=
  match stoull t with
  | None => None
  | Some (n, rest) =>
      let converted := (length t - length rest)%nat in
      Some (negb (converted =? length t)%nat || (2 ^ 16 - 1 <? Z.of_nat converted), wrap 16 n)
  end.

(** The text before and behind the last colon. *)
Fixpoint split_last (t : text) : option (text * text) :=
  match t with
  | [] => None
  | c :: rest =>
      match split_last rest with
      | Some (a, b) => Some (c :: a, b)
      | None => if Ascii.eqb c ":" then Some ([], rest) else None
      end
  end.

(** [None] is the result [true]; exceptions are caught. *)
Definition parse_address_port `{AddressText} (t : text) : option (Z * Z) :=
  match split_last t with
  | Some ((_ :: _) as address_string, port_string) =>
      match parse_port port_string with
      | Some (false, port) =>
          match parse_address address_string with Some address => Some (address, port) | None => None end
      | Some (true, _) | None => None
      end
  | Some ([], _) | None => None
  end.

Definition parse_endpoint `{AddressText} (t : text) : option endpoint :=
  match parse_address_port t with Some (address, port) => Some (Endpoint address port) | None => None end.
