(* ===== verification/Config.v ===== *)
(** * Configuration (rai/node/node.cpp, rai/node/rpc.cpp)

    The configurations of the log, the node and the RPC server, how they are written to
    a property tree and read from one, and how the trees of older versions are brought
    to the present one.  Reading assigns to an object field by field and changes the
    tree it reads; an exception leaves what was assigned before.  Addresses are the class
    [AddressText]; the number of processors is an argument. *)
From Stdlib Require Import ZArith Lia List Ascii String.
From stdpp Require Import prelude strings.
From S2P Require Import Prelude Numbers Streams Blocks Ledger Work NumberText Json Conversions.

Local Open Scope rpc_scope.
Abbreviation text := (list ascii) (only parsing).

(** ** The log *)

Record logging := Logging {
  ledger_logging_value : bool;
  ledger_duplicate_logging_value : bool;
  vote_logging_value : bool;
  network_logging_value : bool;
  network_message_logging_value : bool;
  network_publish_logging_value : bool;
  network_packet_logging_value : bool;
  network_keepalive_logging_value : bool;
  node_lifetime_tracing_value : bool;
  insufficient_work_logging_value : bool;
  log_rpc_value : bool;
  bulk_pull_logging_value : bool;
  work_generation_time_value : bool;
  log_to_cerr_value : bool;
  max_size : Z
}.

Definition set_ledger_logging_value v (c : logging) : logging := Logging v (ledger_duplicate_logging_value c) (vote_logging_value c) (network_logging_value c) (network_message_logging_value c) (network_publish_logging_value c) (network_packet_logging_value c) (network_keepalive_logging_value c) (node_lifetime_tracing_value c) (insufficient_work_logging_value c) (log_rpc_value c) (bulk_pull_logging_value c) (work_generation_time_value c) (log_to_cerr_value c) (max_size c).
Definition set_ledger_duplicate_logging_value v (c : logging) : logging := Logging (ledger_logging_value c) v (vote_logging_value c) (network_logging_value c) (network_message_logging_value c) (network_publish_logging_value c) (network_packet_logging_value c) (network_keepalive_logging_value c) (node_lifetime_tracing_value c) (insufficient_work_logging_value c) (log_rpc_value c) (bulk_pull_logging_value c) (work_generation_time_value c) (log_to_cerr_value c) (max_size c).
Definition set_vote_logging_value v (c : logging) : logging := Logging (ledger_logging_value c) (ledger_duplicate_logging_value c) v (network_logging_value c) (network_message_logging_value c) (network_publish_logging_value c) (network_packet_logging_value c) (network_keepalive_logging_value c) (node_lifetime_tracing_value c) (insufficient_work_logging_value c) (log_rpc_value c) (bulk_pull_logging_value c) (work_generation_time_value c) (log_to_cerr_value c) (max_size c).
Definition set_network_logging_value v (c : logging) : logging := Logging (ledger_logging_value c) (ledger_duplicate_logging_value c) (vote_logging_value c) v (network_message_logging_value c) (network_publish_logging_value c) (network_packet_logging_value c) (network_keepalive_logging_value c) (node_lifetime_tracing_value c) (insufficient_work_logging_value c) (log_rpc_value c) (bulk_pull_logging_value c) (work_generation_time_value c) (log_to_cerr_value c) (max_size c).
Definition set_network_message_logging_value v (c : logging) : logging := Logging (ledger_logging_value c) (ledger_duplicate_logging_value c) (vote_logging_value c) (network_logging_value c) v (network_publish_logging_value c) (network_packet_logging_value c) (network_keepalive_logging_value c) (node_lifetime_tracing_value c) (insufficient_work_logging_value c) (log_rpc_value c) (bulk_pull_logging_value c) (work_generation_time_value c) (log_to_cerr_value c) (max_size c).
Definition set_network_publish_logging_value v (c : logging) : logging := Logging (ledger_logging_value c) (ledger_duplicate_logging_value c) (vote_logging_value c) (network_logging_value c) (network_message_logging_value c) v (network_packet_logging_value c) (network_keepalive_logging_value c) (node_lifetime_tracing_value c) (insufficient_work_logging_value c) (log_rpc_value c) (bulk_pull_logging_value c) (work_generation_time_value c) (log_to_cerr_value c) (max_size c).
Definition set_network_packet_logging_value v (c : logging) : logging := Logging (ledger_logging_value c) (ledger_duplicate_logging_value c) (vote_logging_value c) (network_logging_value c) (network_message_logging_value c) (network_publish_logging_value c) v (network_keepalive_logging_value c) (node_lifetime_tracing_value c) (insufficient_work_logging_value c) (log_rpc_value c) (bulk_pull_logging_value c) (work_generation_time_value c) (log_to_cerr_value c) (max_size c).
Definition set_network_keepalive_logging_value v (c : logging) : logging := Logging (ledger_logging_value c) (ledger_duplicate_logging_value c) (vote_logging_value c) (network_logging_value c) (network_message_logging_value c) (network_publish_logging_value c) (network_packet_logging_value c) v (node_lifetime_tracing_value c) (insufficient_work_logging_value c) (log_rpc_value c) (bulk_pull_logging_value c) (work_generation_time_value c) (log_to_cerr_value c) (max_size c).
Definition set_node_lifetime_tracing_value v (c : logging) : logging := Logging (ledger_logging_value c) (ledger_duplicate_logging_value c) (vote_logging_value c) (network_logging_value c) (network_message_logging_value c) (network_publish_logging_value c) (network_packet_logging_value c) (network_keepalive_logging_value c) v (insufficient_work_logging_value c) (log_rpc_value c) (bulk_pull_logging_value c) (work_generation_time_value c) (log_to_cerr_value c) (max_size c).
Definition set_insufficient_work_logging_value v (c : logging) : logging := Logging (ledger_logging_value c) (ledger_duplicate_logging_value c) (vote_logging_value c) (network_logging_value c) (network_message_logging_value c) (network_publish_logging_value c) (network_packet_logging_value c) (network_keepalive_logging_value c) (node_lifetime_tracing_value c) v (log_rpc_value c) (bulk_pull_logging_value c) (work_generation_time_value c) (log_to_cerr_value c) (max_size c).
Definition set_log_rpc_value v (c : logging) : logging := Logging (ledger_logging_value c) (ledger_duplicate_logging_value c) (vote_logging_value c) (network_logging_value c) (network_message_logging_value c) (network_publish_logging_value c) (network_packet_logging_value c) (network_keepalive_logging_value c) (node_lifetime_tracing_value c) (insufficient_work_logging_value c) v (bulk_pull_logging_value c) (work_generation_time_value c) (log_to_cerr_value c) (max_size c).
Definition set_bulk_pull_logging_value v (c : logging) : logging := Logging (ledger_logging_value c) (ledger_duplicate_logging_value c) (vote_logging_value c) (network_logging_value c) (network_message_logging_value c) (network_publish_logging_value c) (network_packet_logging_value c) (network_keepalive_logging_value c) (node_lifetime_tracing_value c) (insufficient_work_logging_value c) (log_rpc_value c) v (work_generation_time_value c) (log_to_cerr_value c) (max_size c).
Definition set_work_generation_time_value v (c : logging) : logging := Logging (ledger_logging_value c) (ledger_duplicate_logging_value c) (vote_logging_value c) (network_logging_value c) (network_message_logging_value c) (network_publish_logging_value c) (network_packet_logging_value c) (network_keepalive_logging_value c) (node_lifetime_tracing_value c) (insufficient_work_logging_value c) (log_rpc_value c) (bulk_pull_logging_value c) v (log_to_cerr_value c) (max_size c).
Definition set_log_to_cerr_value v (c : logging) : logging := Logging (ledger_logging_value c) (ledger_duplicate_logging_value c) (vote_logging_value c) (network_logging_value c) (network_message_logging_value c) (network_publish_logging_value c) (network_packet_logging_value c) (network_keepalive_logging_value c) (node_lifetime_tracing_value c) (insufficient_work_logging_value c) (log_rpc_value c) (bulk_pull_logging_value c) (work_generation_time_value c) v (max_size c).
Definition set_max_size v (c : logging) : logging := Logging (ledger_logging_value c) (ledger_duplicate_logging_value c) (vote_logging_value c) (network_logging_value c) (network_message_logging_value c) (network_publish_logging_value c) (network_packet_logging_value c) (network_keepalive_logging_value c) (node_lifetime_tracing_value c) (insufficient_work_logging_value c) (log_rpc_value c) (bulk_pull_logging_value c) (work_generation_time_value c) (log_to_cerr_value c) v.

Definition logging_default : logging :=
  Logging false false false true false false false false false true true false true false (16 * 1024 * 1024).

(** What is logged. *)
Definition ledger_logging (l : logging) : bool := ledger_logging_value l.
Definition ledger_duplicate_logging (l : logging) : bool := ledger_logging l && ledger_duplicate_logging_value l.
Definition vote_logging (l : logging) : bool := vote_logging_value l.
Definition network_logging (l : logging) : bool := network_logging_value l.
Definition network_message_logging (l : logging) : bool := network_logging l && network_message_logging_value l.
Definition network_publish_logging (l : logging) : bool := network_logging l && network_publish_logging_value l.
Definition network_packet_logging (l : logging) : bool := network_logging l && network_packet_logging_value l.
Definition network_keepalive_logging (l : logging) : bool := network_logging l && network_keepalive_logging_value l.
Definition node_lifetime_tracing (l : logging) : bool := node_lifetime_tracing_value l.
Definition insufficient_work_logging (l : logging) : bool := network_logging l && insufficient_work_logging_value l.
Definition log_rpc (l : logging) : bool := network_logging l && log_rpc_value l.
Definition bulk_pull_logging (l : logging) : bool := network_logging l && bulk_pull_logging_value l.
Definition callback_logging (l : logging) : bool := network_logging l.
Definition work_generation_time (l : logging) : bool := work_generation_time_value l.
Definition log_to_cerr (l : logging) : bool := log_to_cerr_value l.

(** ** The node *)

Record node_config := NodeConfig {
  peering_port : Z;
  nc_logging : logging;
  work_peers_of : list (Z * Z);
  preconfigured_peers : list text;
  preconfigured_representatives : list account;
  fraction_numerator : Z;
  receive_minimum_of : amount;
  inactive_supply_of : amount;
  password_fanout : Z;
  io_threads : Z;
  work_threads : Z;
  enable_voting : bool;
  bootstrap_connections : Z;
  callback_address : text;
  callback_port : Z;
  callback_target : text;
  lmdb_max_dbs : Z
}.

Definition set_peering_port v (c : node_config) : node_config := NodeConfig v (nc_logging c) (work_peers_of c) (preconfigured_peers c) (preconfigured_representatives c) (fraction_numerator c) (receive_minimum_of c) (inactive_supply_of c) (password_fanout c) (io_threads c) (work_threads c) (enable_voting c) (bootstrap_connections c) (callback_address c) (callback_port c) (callback_target c) (lmdb_max_dbs c).
Definition set_nc_logging v (c : node_config) : node_config := NodeConfig (peering_port c) v (work_peers_of c) (preconfigured_peers c) (preconfigured_representatives c) (fraction_numerator c) (receive_minimum_of c) (inactive_supply_of c) (password_fanout c) (io_threads c) (work_threads c) (enable_voting c) (bootstrap_connections c) (callback_address c) (callback_port c) (callback_target c) (lmdb_max_dbs c).
Definition set_work_peers_of v (c : node_config) : node_config := NodeConfig (peering_port c) (nc_logging c) v (preconfigured_peers c) (preconfigured_representatives c) (fraction_numerator c) (receive_minimum_of c) (inactive_supply_of c) (password_fanout c) (io_threads c) (work_threads c) (enable_voting c) (bootstrap_connections c) (callback_address c) (callback_port c) (callback_target c) (lmdb_max_dbs c).
Definition set_preconfigured_peers v (c : node_config) : node_config := NodeConfig (peering_port c) (nc_logging c) (work_peers_of c) v (preconfigured_representatives c) (fraction_numerator c) (receive_minimum_of c) (inactive_supply_of c) (password_fanout c) (io_threads c) (work_threads c) (enable_voting c) (bootstrap_connections c) (callback_address c) (callback_port c) (callback_target c) (lmdb_max_dbs c).
Definition set_preconfigured_representatives v (c : node_config) : node_config := NodeConfig (peering_port c) (nc_logging c) (work_peers_of c) (preconfigured_peers c) v (fraction_numerator c) (receive_minimum_of c) (inactive_supply_of c) (password_fanout c) (io_threads c) (work_threads c) (enable_voting c) (bootstrap_connections c) (callback_address c) (callback_port c) (callback_target c) (lmdb_max_dbs c).
Definition set_fraction_numerator v (c : node_config) : node_config := NodeConfig (peering_port c) (nc_logging c) (work_peers_of c) (preconfigured_peers c) (preconfigured_representatives c) v (receive_minimum_of c) (inactive_supply_of c) (password_fanout c) (io_threads c) (work_threads c) (enable_voting c) (bootstrap_connections c) (callback_address c) (callback_port c) (callback_target c) (lmdb_max_dbs c).
Definition set_receive_minimum_of v (c : node_config) : node_config := NodeConfig (peering_port c) (nc_logging c) (work_peers_of c) (preconfigured_peers c) (preconfigured_representatives c) (fraction_numerator c) v (inactive_supply_of c) (password_fanout c) (io_threads c) (work_threads c) (enable_voting c) (bootstrap_connections c) (callback_address c) (callback_port c) (callback_target c) (lmdb_max_dbs c).
Definition set_inactive_supply_of v (c : node_config) : node_config := NodeConfig (peering_port c) (nc_logging c) (work_peers_of c) (preconfigured_peers c) (preconfigured_representatives c) (fraction_numerator c) (receive_minimum_of c) v (password_fanout c) (io_threads c) (work_threads c) (enable_voting c) (bootstrap_connections c) (callback_address c) (callback_port c) (callback_target c) (lmdb_max_dbs c).
Definition set_password_fanout v (c : node_config) : node_config := NodeConfig (peering_port c) (nc_logging c) (work_peers_of c) (preconfigured_peers c) (preconfigured_representatives c) (fraction_numerator c) (receive_minimum_of c) (inactive_supply_of c) v (io_threads c) (work_threads c) (enable_voting c) (bootstrap_connections c) (callback_address c) (callback_port c) (callback_target c) (lmdb_max_dbs c).
Definition set_io_threads v (c : node_config) : node_config := NodeConfig (peering_port c) (nc_logging c) (work_peers_of c) (preconfigured_peers c) (preconfigured_representatives c) (fraction_numerator c) (receive_minimum_of c) (inactive_supply_of c) (password_fanout c) v (work_threads c) (enable_voting c) (bootstrap_connections c) (callback_address c) (callback_port c) (callback_target c) (lmdb_max_dbs c).
Definition set_work_threads v (c : node_config) : node_config := NodeConfig (peering_port c) (nc_logging c) (work_peers_of c) (preconfigured_peers c) (preconfigured_representatives c) (fraction_numerator c) (receive_minimum_of c) (inactive_supply_of c) (password_fanout c) (io_threads c) v (enable_voting c) (bootstrap_connections c) (callback_address c) (callback_port c) (callback_target c) (lmdb_max_dbs c).
Definition set_enable_voting v (c : node_config) : node_config := NodeConfig (peering_port c) (nc_logging c) (work_peers_of c) (preconfigured_peers c) (preconfigured_representatives c) (fraction_numerator c) (receive_minimum_of c) (inactive_supply_of c) (password_fanout c) (io_threads c) (work_threads c) v (bootstrap_connections c) (callback_address c) (callback_port c) (callback_target c) (lmdb_max_dbs c).
Definition set_bootstrap_connections v (c : node_config) : node_config := NodeConfig (peering_port c) (nc_logging c) (work_peers_of c) (preconfigured_peers c) (preconfigured_representatives c) (fraction_numerator c) (receive_minimum_of c) (inactive_supply_of c) (password_fanout c) (io_threads c) (work_threads c) (enable_voting c) v (callback_address c) (callback_port c) (callback_target c) (lmdb_max_dbs c).
Definition set_callback_address v (c : node_config) : node_config := NodeConfig (peering_port c) (nc_logging c) (work_peers_of c) (preconfigured_peers c) (preconfigured_representatives c) (fraction_numerator c) (receive_minimum_of c) (inactive_supply_of c) (password_fanout c) (io_threads c) (work_threads c) (enable_voting c) (bootstrap_connections c) v (callback_port c) (callback_target c) (lmdb_max_dbs c).
Definition set_callback_port v (c : node_config) : node_config := NodeConfig (peering_port c) (nc_logging c) (work_peers_of c) (preconfigured_peers c) (preconfigured_representatives c) (fraction_numerator c) (receive_minimum_of c) (inactive_supply_of c) (password_fanout c) (io_threads c) (work_threads c) (enable_voting c) (bootstrap_connections c) (callback_address c) v (callback_target c) (lmdb_max_dbs c).
Definition set_callback_target v (c : node_config) : node_config := NodeConfig (peering_port c) (nc_logging c) (work_peers_of c) (preconfigured_peers c) (preconfigured_representatives c) (fraction_numerator c) (receive_minimum_of c) (inactive_supply_of c) (password_fanout c) (io_threads c) (work_threads c) (enable_voting c) (bootstrap_connections c) (callback_address c) (callback_port c) v (lmdb_max_dbs c).
Definition set_lmdb_max_dbs v (c : node_config) : node_config := NodeConfig (peering_port c) (nc_logging c) (work_peers_of c) (preconfigured_peers c) (preconfigured_representatives c) (fraction_numerator c) (receive_minimum_of c) (inactive_supply_of c) (password_fanout c) (io_threads c) (work_threads c) (enable_voting c) (bootstrap_connections c) (callback_address c) (callback_port c) (callback_target c) v.

(** ** The server of requests *)

Record rpc_config := RpcConfig {
  rc_address : Z;
  rc_port : Z;
  rc_enable_control : bool;
  frontier_request_limit : Z;
  chain_request_limit : Z
}.

Definition set_rc_address v (c : rpc_config) : rpc_config := RpcConfig v (rc_port c) (rc_enable_control c) (frontier_request_limit c) (chain_request_limit c).
Definition set_rc_port v (c : rpc_config) : rpc_config := RpcConfig (rc_address c) v (rc_enable_control c) (frontier_request_limit c) (chain_request_limit c).
Definition set_rc_enable_control v (c : rpc_config) : rpc_config := RpcConfig (rc_address c) (rc_port c) v (frontier_request_limit c) (chain_request_limit c).
Definition set_frontier_request_limit v (c : rpc_config) : rpc_config := RpcConfig (rc_address c) (rc_port c) (rc_enable_control c) v (chain_request_limit c).
Definition set_chain_request_limit v (c : rpc_config) : rpc_config := RpcConfig (rc_address c) (rc_port c) (rc_enable_control c) (frontier_request_limit c) v.

(** ** Defaults *)

Section Defaults.
Context `{Environment, Network}.

Definition node_port : Z := match rai_network with rai_live_network => 7075 | _ => 54000 end.
Definition rpc_port : Z := match rai_network with rai_live_network => 7076 | _ => 55000 end.

(** The loopback address is 1. *)
Definition rpc_config_new (enable_control_a : bool) : rpc_config := RpcConfig 1 rpc_port enable_control_a 16384 16384.

Definition default_peers : list text :=
  match rai_network with
  | rai_test_network => []
  | rai_beta_network | rai_live_network => [str "rai.raiblocks.net"]
  end.
Definition default_representatives : list account :=
  match rai_network with
  | rai_test_network => [genesis_account]
  | rai_beta_network =>
      [0x59750C057F42806F40C5D9EAA1E0263E9DB48FE385BD0172BFC573BD37EEC4A7; 0x8B05C9B160DE9B006FA27DD6A368D7CA122A2EE7537C308CF22EFD3ABF5B36C3;
       0x91D51BF05F02698EBB4649FB06D1BBFD2E4AE2579660E8D784A002D9C0CB1BD2; 0xCB35ED23D47E1A16667EDE415CD4CD05961481D7D23A43958FAE81FC12FA49FF]
  | rai_live_network =>
      [0xA30E0A32ED41C8607AA9212843392E853FCBCB4E7CB194E35C94F07F91DE59EF; 0x67556D31DDFC2A440BF6147501449B4CB9572278D034EE686A6BEE29851681DF;
       0x5C2FBB148E006A8E8BA7A75DD86C9FE00C83F5FFDBFD76EAA09531071436B6AF; 0xAE7AC63990DAAAF2A69BF11C913B928844BF5012355456F2F164166464024B29;
       0xBD6267D6ECD8038327D2BCC0850BDF8F56EC0414912207E81BCF90DFAC8A4AAA; 0x2399A083C600AA0572F5E36247D978FCFC840405F8D4B6D33161C0066A55F431;
       0x2298FAB7C61058E77EA554CB93EDEEDA0692CBFCC540AB213B2836B29029E23A; 0x3FE80B4BC842E82C1C18ABFEEC47EA989E63953BC82AC411F304D13833D52A56]
  end.

(** With the number of processors. *)
Definition node_config_new (hardware_concurrency peering_port_a : Z) (logging_a : logging) : node_config :=
  NodeConfig peering_port_a logging_a [] default_peers default_representatives 1 xrb_ratio 0 1024 (Z.max 4 hardware_concurrency)
    (Z.max 4 hardware_concurrency) true 16 [] 0 [] 128.
Definition node_config_default (hardware_concurrency : Z) : node_config := node_config_new hardware_concurrency node_port logging_default.
End Defaults.

(** ** Reading from a tree *)

(** An object that is read, the tree it is read from, and [upgraded_a]. *)
Record reading {T C : Type} := Reading { rd_object : C; rd_tree : T; rd_upgraded : bool }.
Arguments reading : clear implicits.

Section Trees.
Context `{PropertyTree, NumberStream}.

Section Fields.
Context {C : Type}.

Definition the_tree : exceptional (reading ptree C) ptree := h_get rd_tree.
Definition on_tree (f : ptree -> ptree) : exceptional (reading ptree C) unit := h_put (fun s => Reading _ _ (rd_object s) (f (rd_tree s)) (rd_upgraded s)).
Definition assign (f : C -> C) : exceptional (reading ptree C) unit := h_put (fun s => Reading _ _ (f (rd_object s)) (rd_tree s) (rd_upgraded s)).
Definition or_upgraded (b : bool) : exceptional (reading ptree C) unit := h_put (fun s => Reading _ _ (rd_object s) (rd_tree s) (rd_upgraded s || b)).

(** [get<std::string>], [get<bool>], [get<uintmax_t>] and [get_child]. *)
Definition or_throw {A} (e : exception) (o : option A) : exceptional (reading ptree C) A := match o with Some a => h_ret a | None => throw e end.
Definition text_at (k : string) : exceptional (reading ptree C) text := let! t := the_tree in or_throw Runtime_error (pt_get t (str k)).
Definition bool_at (k : string) : exceptional (reading ptree C) bool := let! t := the_tree in or_throw Runtime_error (pt_get_bool t (str k)).
Definition uint_at (k : string) : exceptional (reading ptree C) Z := let! t := the_tree in or_throw Runtime_error (pt_get_uint t (str k)).
Definition child_at (k : string) : exceptional (reading ptree C) ptree := let! t := the_tree in or_throw Runtime_error (pt_get_child t (str k)).

(** [std::stoul] and [std::stoull], 64 bits wide, and [std::stoi]. *)
Definition stoul_of (t : text) : exceptional (reading ptree C) Z := or_throw Logic_error (fst <$> stoull t).
Definition stoi_of (t : text) : exceptional (reading ptree C) Z :=
  let '(negative, digits) := hex_sign (skip_spaces t) in
  match dec_digits digits 0 false with
  | None => throw Logic_error
  | Some (n, _) =>
      let n := if negative : bool then - n else n in
      if (- 2 ^ 31 <=? n) && (n <? 2 ^ 31) then h_ret n else throw Logic_error
  end.

(** [catch (std::runtime_error const &)] and [catch (std::logic_error const &)]. *)
Definition catch_runtime {A} (m k : exceptional (reading ptree C) A) : exceptional (reading ptree C) A :=
  h_catch m (fun e => match e with Runtime_error => k | Logic_error => throw Logic_error end).
Definition catch_logic {A} (m k : exceptional (reading ptree C) A) : exceptional (reading ptree C) A :=
  h_catch m (fun e => match e with Runtime_error => throw Runtime_error | Logic_error => k end).

(** A tree without a version has version 1, and gets a list of work peers. *)
Definition read_version : exceptional (reading ptree C) text :=
  let! t := the_tree in
  match pt_get t (str "version") with
  | Some v => h_ret v
  | None =>
      on_tree (put "version" (str "1")) ;!
      let! t := the_tree in
      (match pt_get_child t (str "work_peers") with
       | None => on_tree (pt_add_child (str "work_peers") pt_empty)
       | Some _ => h_ret tt
       end) ;!
      or_upgraded true ;!
      h_ret (str "1")
  end.
End Fields.

Definition bool_text (b : bool) : text := str (if b then "true" else "false").

(** ** The log *)

Definition logging_json (l : logging) (t : ptree) : ptree :=
  let t := put "version" (str "2") t in
  let t := put "ledger" (bool_text (ledger_logging_value l)) t in
  let t := put "ledger_duplicate" (bool_text (ledger_duplicate_logging_value l)) t in
  let t := put "vote" (bool_text (vote_logging_value l)) t in
  let t := put "network" (bool_text (network_logging_value l)) t in
  let t := put "network_message" (bool_text (network_message_logging_value l)) t in
  let t := put "network_publish" (bool_text (network_publish_logging_value l)) t in
  let t := put "network_packet" (bool_text (network_packet_logging_value l)) t in
  let t := put "network_keepalive" (bool_text (network_keepalive_logging_value l)) t in
  let t := put "node_lifetime_tracing" (bool_text (node_lifetime_tracing_value l)) t in
  let t := put "insufficient_work" (bool_text (insufficient_work_logging_value l)) t in
  let t := put "log_rpc" (bool_text (log_rpc_value l)) t in
  let t := put "bulk_pull" (bool_text (bulk_pull_logging_value l)) t in
  let t := put "work_generation_time" (bool_text (work_generation_time_value l)) t in
  let t := put "log_to_cerr" (bool_text (log_to_cerr_value l)) t in
  put "max_size" (to_dec (max_size l)) t.

Definition logging_upgrade_json (version_a : Z) : exceptional (reading ptree logging) bool :=
  if version_a =? 1 then
    let! l := h_get rd_object in
    on_tree (put "vote" (bool_text (vote_logging_value l))) ;!
    on_tree (put "version" (str "2")) ;!
    h_ret true
  else if version_a =? 2 then h_ret false
  else throw Runtime_error.

(** Whether it failed. *)
Definition logging_deserialize_json : exceptional (reading ptree logging) bool :=
  catch_runtime (
    let! version_l := read_version in
    let! version := stoul_of version_l in
    let! upgraded := logging_upgrade_json (wrap 32 version) in
    or_upgraded upgraded ;!
    let! v := bool_at "ledger" in assign (set_ledger_logging_value v) ;!
    let! v := bool_at "ledger_duplicate" in assign (set_ledger_duplicate_logging_value v) ;!
    let! v := bool_at "vote" in assign (set_vote_logging_value v) ;!
    let! v := bool_at "network" in assign (set_network_logging_value v) ;!
    let! v := bool_at "network_message" in assign (set_network_message_logging_value v) ;!
    let! v := bool_at "network_publish" in assign (set_network_publish_logging_value v) ;!
    let! v := bool_at "network_packet" in assign (set_network_packet_logging_value v) ;!
    let! v := bool_at "network_keepalive" in assign (set_network_keepalive_logging_value v) ;!
    let! v := bool_at "node_lifetime_tracing" in assign (set_node_lifetime_tracing_value v) ;!
    let! v := bool_at "insufficient_work" in assign (set_insufficient_work_logging_value v) ;!
    let! v := bool_at "log_rpc" in assign (set_log_rpc_value v) ;!
    let! v := bool_at "bulk_pull" in assign (set_bulk_pull_logging_value v) ;!
    let! v := bool_at "work_generation_time" in assign (set_work_generation_time_value v) ;!
    let! v := bool_at "log_to_cerr" in assign (set_log_to_cerr_value v) ;!
    let! v := uint_at "max_size" in assign (set_max_size v) ;!
    h_ret false)
  (h_ret true).

(** ** The node *)

Section Addresses.
Context `{AddressText}.

(** A list of texts as children without keys. *)
Definition text_list (l : list text) : ptree := fold_left (fun t v => pt_push_back [] (pt_put [] v pt_empty) t) l pt_empty.

(** An [int] in a stream. *)
Definition int_text (n : Z) : text := if n <? 0 then "-"%char :: to_dec (- n) else to_dec n.

Definition node_config_json (c : node_config) (t : ptree) : ptree :=
  let t := put "version" (str "8") t in
  let t := put "peering_port" (to_dec (peering_port c)) t in
  let t := put "bootstrap_fraction_numerator" (to_dec (fraction_numerator c)) t in
  let t := put "receive_minimum" (encode_dec128 (receive_minimum_of c)) t in
  let t := pt_add_child (str "logging") (logging_json (nc_logging c) pt_empty) t in
  let t := pt_add_child (str "work_peers") (text_list (map (fun x => address_text (fst x) ++ ":"%char :: to_dec (snd x)) (work_peers_of c))) t in
  let t := pt_add_child (str "preconfigured_peers") (text_list (preconfigured_peers c)) t in
  let t := pt_add_child (str "preconfigured_representatives") (text_list (map to_account (preconfigured_representatives c))) t in
  let t := put "inactive_supply" (encode_dec128 (inactive_supply_of c)) t in
  let t := put "password_fanout" (to_dec (password_fanout c)) t in
  let t := put "io_threads" (to_dec (io_threads c)) t in
  let t := put "work_threads" (to_dec (work_threads c)) t in
  let t := put "enable_voting" (bool_text (enable_voting c)) t in
  let t := put "bootstrap_connections" (to_dec (bootstrap_connections c)) t in
  let t := put "callback_address" (callback_address c) t in
  let t := put "callback_port" (to_dec (callback_port c)) t in
  let t := put "callback_target" (callback_target c) t in
  put "lmdb_max_dbs" (int_text (lmdb_max_dbs c)) t.

Local Abbreviation config_reader := (exceptional (reading ptree node_config)).

Definition set_version (v : string) : config_reader unit :=
  on_tree (pt_erase (str "version")) ;! on_tree (put "version" (str v)).

(** The representatives are written again; an account that cannot be read has no
    value. *)
Fixpoint upgraded_representatives (l : list (text * ptree)) (reps : ptree) : res ptree :=
  match l with
  | [] => Ok reps
  | (_, c) :: l =>
      match decode_account 0 (pt_data c) with
      | Ok (false, a) => upgraded_representatives l (pt_push_back [] (pt_put [] (to_account a) pt_empty) reps)
      | Ok (true, _) => Fault Indeterminate_value
      | Fault f => Fault f
      end
  end.

Definition upgrade_config_1 : config_reader unit :=
  let! reps_l := child_at "preconfigured_representatives" in
  let! reps := h_res (upgraded_representatives (pt_children reps_l) pt_empty) in
  on_tree (pt_erase (str "preconfigured_representatives")) ;!
  on_tree (pt_add_child (str "preconfigured_representatives") reps) ;!
  set_version "2".

Definition upgrade_config_2 : config_reader unit :=
  let! c := h_get rd_object in
  on_tree (put "inactive_supply" (encode_dec128 0)) ;!
  on_tree (put "password_fanout" (to_dec 1024)) ;!
  on_tree (put "io_threads" (to_dec (io_threads c))) ;!
  on_tree (put "work_threads" (to_dec (work_threads c))) ;!
  set_version "3".

Definition upgrade_minimum (v : string) : config_reader unit :=
  on_tree (pt_erase (str "receive_minimum")) ;!
  on_tree (put "receive_minimum" (put_dec xrb_ratio)) ;!
  set_version v.

Definition upgrade_config_5 : config_reader unit :=
  let! c := h_get rd_object in
  on_tree (put "enable_voting" (bool_text (enable_voting c))) ;!
  on_tree (pt_erase (str "packet_delay_microseconds")) ;!
  on_tree (pt_erase (str "rebroadcast_delay")) ;!
  on_tree (pt_erase (str "creation_rebroadcast")) ;!
  set_version "6".

Definition upgrade_config_6 : config_reader unit :=
  on_tree (put "bootstrap_connections" (to_dec 16)) ;!
  on_tree (put "callback_address" []) ;!
  on_tree (put "callback_port" (str "0")) ;!
  on_tree (put "callback_target" []) ;!
  set_version "7".

Definition upgrade_config_7 : config_reader unit :=
  on_tree (put "lmdb_max_dbs" (str "128")) ;! on_tree (put "version" (str "8")).

(** The first three cases fall through to the next; those from 3 on end with [break]. *)
Definition node_config_upgrade_json (version : Z) : config_reader bool :=
  if version =? 1 then upgrade_config_1 ;! upgrade_config_2 ;! upgrade_minimum "4" ;! h_ret true
  else if version =? 2 then upgrade_config_2 ;! upgrade_minimum "4" ;! h_ret true
  else if version =? 3 then upgrade_minimum "4" ;! h_ret true
  else if version =? 4 then upgrade_minimum "5" ;! h_ret true
  else if version =? 5 then upgrade_config_5 ;! h_ret true
  else if version =? 6 then upgrade_config_6 ;! h_ret true
  else if version =? 7 then upgrade_config_7 ;! h_ret true
  else if version =? 8 then h_ret false
  else throw Runtime_error.

Fixpoint read_work_peers (l : list (text * ptree)) (result : bool) : config_reader bool :=
  match l with
  | [] => h_ret result
  | (_, c) :: l =>
      match parse_address_port (pt_data c) with
      | Some p =>
          (if negb result then assign (fun c => set_work_peers_of (work_peers_of c ++ [p]) c) else h_ret tt) ;!
          read_work_peers l result
      | None => read_work_peers l true
      end
  end.

Fixpoint read_representatives (l : list (text * ptree)) (result : bool) : config_reader bool :=
  match l with
  | [] => h_ret result
  | (_, c) :: l =>
      let! r := (if result then h_ret (true, 0) else h_res (decode_account 0 (pt_data c))) in
      let '(result, representative) := r in
      assign (fun c => set_preconfigured_representatives (preconfigured_representatives c ++ [representative]) c) ;!
      read_representatives l result
  end.

(** The log is read from the child of the tree, which it may change. *)
Definition on_logging {A} (m : exceptional (reading ptree logging) A) : config_reader A := fun s =>
  match pt_get_child (rd_tree s) (str "logging") with
  | None => Fault Indeterminate_value
  | Some t =>
      match m (Reading _ _ (nc_logging (rd_object s)) t (rd_upgraded s)) with
      | Ok (r, x) => Ok (r, Reading _ _ (set_nc_logging (rd_object x) (rd_object s)) (pt_set_child (str "logging") (rd_tree x) (rd_tree s)) (rd_upgraded x))
      | Fault f => Fault f
      end
  end.

(** The numbers, which are converted within a [try] of their own. *)
Definition read_numbers (peering_port_l fraction_l fanout_l io_l work_l connections_l dbs_l minimum_l inactive_l : text) (result : bool) : config_reader bool :=
  let! v := stoul_of peering_port_l in assign (set_peering_port (wrap 16 v)) ;!
  let! v := stoul_of fraction_l in assign (set_fraction_numerator (wrap 32 v)) ;!
  let! v := stoul_of fanout_l in assign (set_password_fanout (wrap 32 v)) ;!
  let! v := stoul_of io_l in assign (set_io_threads (wrap 32 v)) ;!
  let! v := stoul_of work_l in assign (set_work_threads (wrap 32 v)) ;!
  let! v := stoul_of connections_l in assign (set_bootstrap_connections (wrap 32 v)) ;!
  let! v := stoi_of dbs_l in assign (set_lmdb_max_dbs v) ;!
  let! c := h_get rd_object in
  let result := result || (2 ^ 16 - 1 <? peering_port c) in
  let! r := on_logging logging_deserialize_json in
  let result := result || r in
  let! c := h_get rd_object in
  let '(r, v) := decode_dec_into (receive_minimum_of c) minimum_l in
  assign (set_receive_minimum_of v) ;!
  let result := result || r in
  let '(r, v) := decode_dec_into (inactive_supply_of c) inactive_l in
  assign (set_inactive_supply_of v) ;!
  let result := result || r in
  let! c := h_get rd_object in
  h_ret (result || (password_fanout c <? 16) || (1024 * 1024 <? password_fanout c) || (io_threads c =? 0) || (work_threads c =? 0)).

(** What is read after the version.  Outside of the inner [try] a number that cannot be
    converted is an exception that is not caught. *)
Definition node_config_read : config_reader bool :=
  let! peering_port_l := text_at "peering_port" in
  let! fraction_l := text_at "bootstrap_fraction_numerator" in
  let! minimum_l := text_at "receive_minimum" in
  let! _logging_l := child_at "logging" in
  assign (set_work_peers_of []) ;!
  let! work_peers_l := child_at "work_peers" in
  let! result := read_work_peers (pt_children work_peers_l) false in
  let! peers_l := child_at "preconfigured_peers" in
  assign (set_preconfigured_peers (map (fun x => pt_data (snd x)) (pt_children peers_l))) ;!
  let! representatives_l := child_at "preconfigured_representatives" in
  assign (set_preconfigured_representatives []) ;!
  let! result := read_representatives (pt_children representatives_l) result in
  let! c := h_get rd_object in
  let result := if bool_decide (preconfigured_representatives c = []) then true else result in
  let! inactive_l := text_at "inactive_supply" in
  let! fanout_l := text_at "password_fanout" in
  let! io_l := text_at "io_threads" in
  let! work_l := text_at "work_threads" in
  let! v := bool_at "enable_voting" in assign (set_enable_voting v) ;!
  let! connections_l := text_at "bootstrap_connections" in
  let! v := text_at "callback_address" in assign (set_callback_address v) ;!
  let! callback_port_l := text_at "callback_port" in
  let! v := text_at "callback_target" in assign (set_callback_target v) ;!
  let! dbs_l := text_at "lmdb_max_dbs" in
  let! p := or_throw Logic_error (parse_port callback_port_l) in
  assign (set_callback_port (snd p)) ;!
  let result := result || fst p in
  catch_logic (read_numbers peering_port_l fraction_l fanout_l io_l work_l connections_l dbs_l minimum_l inactive_l result) (h_ret true).

(** Whether it failed. *)
Definition node_config_deserialize_json : config_reader bool :=
  catch_runtime (
    let! version_l := read_version in
    let! version := stoul_of version_l in
    let! upgraded := node_config_upgrade_json (wrap 32 version) in
    or_upgraded upgraded ;!
    node_config_read)
  (h_ret true).

(** [random_representative], with the number that is drawn. *)
Definition random_representative (index : nat) (c : node_config) : res account :=
  match preconfigured_representatives c with
  | [] => Fault Assertion_failed
  | l => match l !! index with Some a => Ok a | None => Fault Indeterminate_value end
  end.

(** ** The server of requests *)

Definition rpc_config_json (c : rpc_config) (t : ptree) : ptree :=
  let t := put "address" (address_text (rc_address c)) t in
  let t := put "port" (to_dec (rc_port c)) t in
  let t := put "enable_control" (bool_text (rc_enable_control c)) t in
  let t := put "frontier_request_limit" (to_dec (frontier_request_limit c)) t in
  put "chain_request_limit" (to_dec (chain_request_limit c)) t.

(** The port is cut to its width before it is compared.  An address that cannot be read
    is the address zero. *)
Definition rpc_config_deserialize_json : exceptional (reading ptree rpc_config) bool :=
  catch_runtime (
    let! address_l := text_at "address" in
    let! port_l := text_at "port" in
    let! v := bool_at "enable_control" in assign (set_rc_enable_control v) ;!
    let! frontier_l := text_at "frontier_request_limit" in
    let! chain_l := text_at "chain_request_limit" in
    let! result :=
      catch_logic (
        let! v := stoul_of port_l in assign (set_rc_port (wrap 16 v)) ;!
        let! c := h_get rd_object in
        let result := 2 ^ 16 - 1 <? rc_port c in
        let! v := stoul_of frontier_l in assign (set_frontier_request_limit v) ;!
        let! v := stoul_of chain_l in assign (set_chain_request_limit v) ;!
        h_ret result)
      (h_ret true) in
    match parse_address address_l with
    | Some a => assign (set_rc_address a) ;! h_ret result
    | None => assign (set_rc_address 0) ;! h_ret true
    end)
  (h_ret true).

End Addresses.
End Trees.
