(* ===== verification/ConfigTheorems.v ===== *)
(** * Configuration: what is written is read, and what is old is not

    Decimal numbers, ports and addresses are read back from the texts that are written
    of them.  A configuration in range is read back from the tree that is written of it,
    without an upgrade, and from the tree of the version before, with one.  The trees of
    all versions before that one are refused: the cases of the upgrade end one version
    further, and the fields of later versions are then not there. *)
From Stdlib Require Import ZArith Lia List Ascii String.
From stdpp Require Import prelude strings.
From S2P Require Import Prelude Numbers Streams Blocks Ledger Work NumberText NumberTextTheorems Json JsonTheorems Conversions Config.

Local Open Scope rpc_scope.

(** ** Decimal numbers *)

Lemma dec_digit_char d : 0 <= d < 10 -> dec_digit (digit_char d) = Some d.
Proof.
  intros Hd. assert (Hall : forallb (fun d => bool_decide (dec_digit (digit_char d) = Some d)) (map Z.of_nat (seq 0 10)) = true) by reflexivity.
  rewrite forallb_forall in Hall. specialize (Hall d). rewrite bool_decide_eq_true in Hall. apply Hall.
  apply in_map_iff. exists (Z.to_nat d). rewrite in_seq. lia.
Qed.

Lemma dec_digits_text ds acc any : (forall d, In d ds -> 0 <= d < 10) -> (ds <> [] \/ any = true) ->
  dec_digits (map digit_char ds) acc any = Some (fold_left (fun a d => a * 10 + d) ds acc, []).
Proof.
  revert acc any. induction ds as [|d ds IH]; intros acc any Hd Hne; cbn [map dec_digits fold_left].
  - destruct Hne as [Hne| ->]; done.
  - rewrite dec_digit_char by (apply Hd; by left). apply IH; [|by right]. intros x Hx. apply Hd. by right.
Qed.

(** What a decimal number looks like. *)
Lemma to_dec_digits n : 0 <= n -> exists d ds, to_dec n = map digit_char (d :: ds) /\ (forall x, In x (d :: ds) -> 0 <= x < 10) /\ digits_value 10 (d :: ds) = n.
Proof.
  intros Hn. destruct (number_digits 10 n ltac:(lia) Hn) as (c & Hc). unfold to_dec. rewrite (number_text_ok 10 c) by (done || lia).
  pose proof (length_base_digits 10 c n) as Hlen. pose proof (value_digits c n Hn Hc) as Hv.
  assert (Hr : forall x, In x (NumberText.digits 10 c n) -> 0 <= x < 10) by (intros x; apply digits_range; lia).
  destruct (NumberText.digits 10 c n) as [|d ds]; [cbn in Hlen; destruct Hc as [_ [->|[? _]]]; lia|]. by exists d, ds.
Qed.

(** A number at the front of a text, with no sign before it. *)
Lemma to_dec_plain n : 0 <= n ->
  hex_sign (skip_spaces (to_dec n)) = (false, to_dec n) /\ dec_digits (to_dec n) 0 false = Some (n, []) /\ to_dec n <> [].
Proof.
  intros (d & ds & -> & Hd & <-)%to_dec_digits. destruct (digit_char_plain d) as (Hs & Hm & Hp & _).
  { specialize (Hd d (or_introl eq_refl)). lia. }
  split_and!; [|apply dec_digits_text; [done|by left]|done]. cbn [map skip_spaces]. rewrite Hs. cbn [hex_sign]. by rewrite Hm, Hp.
Qed.

Lemma stoull_back n : fits 64 n -> stoull (to_dec n) = Some (n, []).
Proof.
  intros Hn. pose proof Hn as [H0 H1]. destruct (to_dec_plain n H0) as (Hs & Hd & _). unfold stoull. rewrite Hs, Hd.
  rewrite (proj2 (Z.leb_gt _ _)) by lia. by rewrite wrap_small.
Qed.

Lemma length_to_dec n : 0 <= n < 10 ^ 20 -> (length (to_dec n) <= 20)%nat.
Proof.
  intros Hn. destruct (number_digits 10 n) as (c & Hc); [lia..|]. unfold to_dec.
  rewrite (number_text_ok 10 c), length_map, length_base_digits by (done || lia). by apply (digits_bound 10 c 20 n); try lia.
Qed.

Lemma parse_port_back n : fits 16 n -> parse_port (to_dec n) = Some (false, n).
Proof.
  intros Hn. unfold parse_port. rewrite stoull_back by (unfold fits in *; lia). cbn [length]. rewrite Nat.sub_0_r, Nat.eqb_refl.
  pose proof (length_to_dec n) as Hl. unfold fits in Hn. rewrite (proj2 (Z.ltb_ge _ _)) by lia. by rewrite wrap_small.
Qed.

(** ** Addresses *)

Lemma split_last_found a b : forallb (fun c => negb (Ascii.eqb c ":")) b = true -> split_last (a ++ ":"%char :: b) = Some (a, b).
Proof.
  intros Hb. assert (Hn : split_last b = None).
  { induction b as [|c b IH]; [done|]. cbn [forallb] in Hb. apply andb_true_iff in Hb as [Hc%negb_true_iff Hb]. cbn [split_last]. by rewrite (IH Hb), Hc. }
  induction a as [|c a IH]; cbn [app split_last]; [by rewrite Hn|]. by rewrite IH.
Qed.

Lemma to_dec_no_colon n : 0 <= n -> forallb (fun c => negb (Ascii.eqb c ":")) (to_dec n) = true.
Proof.
  intros (d & ds & -> & Hd & _)%to_dec_digits. rewrite forallb_map, forallb_forall. intros x Hx%Hd.
  assert (Hall : forallb (fun d => negb (Ascii.eqb (digit_char d) ":")) (map Z.of_nat (seq 0 10)) = true) by reflexivity.
  rewrite forallb_forall in Hall. apply Hall, in_map_iff. exists (Z.to_nat x). rewrite in_seq. lia.
Qed.

(** An address and a port that the parser gives back. *)
Definition peer_ok `{AddressText} (p : Z * Z) : Prop := address_text (fst p) <> [] /\ parse_address (address_text (fst p)) = Some (fst p) /\ fits 16 (snd p).

Lemma address_port_back `{AddressText} p : peer_ok p -> parse_address_port (address_text (fst p) ++ ":"%char :: to_dec (snd p)) = Some p.
Proof.
  intros (Hne & Ha & Hp). unfold parse_address_port. rewrite split_last_found by (apply to_dec_no_colon, Hp).
  rewrite parse_port_back by done. destruct (address_text (fst p)) as [|c a]; [done|]. rewrite Ha. by destruct p.
Qed.

(** ** Steps of reading *)

Section Steps.
Context `{PropertyTree, NumberStream} {C : Type}.
Implicit Types (s : reading ptree C) (k : string).

Lemma read_text {B} k v (f : _ -> exceptional (reading ptree C) B) s : pt_get (rd_tree s) (str k) = Some v -> h_bind (text_at k) f s = f v s.
Proof. intros Hv. unfold text_at, h_bind, the_tree, h_get. by rewrite Hv. Qed.
Lemma read_bool {B} k v (f : _ -> exceptional (reading ptree C) B) s : pt_get (rd_tree s) (str k) = Some (bool_text v) -> h_bind (bool_at k) f s = f v s.
Proof. intros Hv. unfold bool_at, h_bind, the_tree, h_get. by rewrite (get_bool_text _ _ v Hv). Qed.
Lemma read_uint {B} k v (f : _ -> exceptional (reading ptree C) B) s : fits 64 v -> pt_get (rd_tree s) (str k) = Some (to_dec v) ->
  h_bind (uint_at k) f s = f v s.
Proof. intros Hf Hv. unfold uint_at, h_bind, the_tree, h_get. by rewrite (get_uint_text _ _ v Hf Hv). Qed.
Lemma read_child {B} k v (f : _ -> exceptional (reading ptree C) B) s : pt_get_child (rd_tree s) (str k) = Some v -> h_bind (child_at k) f s = f v s.
Proof. intros Hv. unfold child_at, h_bind, the_tree, h_get. by rewrite Hv. Qed.
Lemma read_stoul {B} v (f : _ -> exceptional (reading ptree C) B) s : fits 64 v -> h_bind (stoul_of (to_dec v)) f s = f v s.
Proof. intros Hv. unfold stoul_of, h_bind. by rewrite stoull_back. Qed.
Lemma read_stoi {B} v (f : _ -> exceptional (reading ptree C) B) s : - 2 ^ 31 <= v < 2 ^ 31 -> h_bind (stoi_of (int_text v)) f s = f v s.
Proof.
  intros Hv. unfold int_text. destruct (Z.ltb_spec v 0) as [Hn|Hn].
  - destruct (to_dec_plain (- v)) as (_ & Hd & _); [lia|]. unfold h_bind, stoi_of. cbn [skip_spaces is_space]. cbn [hex_sign Ascii.eqb]. 
    change (is_space "-") with false. cbn [hex_sign]. change (Ascii.eqb "-" "-") with true. cbv iota beta. rewrite Hd. cbv iota beta zeta.
    rewrite Z.opp_involutive. by rewrite (proj2 (Z.leb_le _ _)), (proj2 (Z.ltb_lt _ _)) by lia.
  - destruct (to_dec_plain v) as (Hs & Hd & _); [lia|]. unfold h_bind, stoi_of. rewrite Hs. cbv iota beta. rewrite Hd. cbv iota beta zeta.
    by rewrite (proj2 (Z.leb_le _ _)), (proj2 (Z.ltb_lt _ _)) by lia.
Qed.
Lemma read_assign {B} g (f : _ -> exceptional (reading ptree C) B) s : h_bind (assign g) f s = f tt (Reading _ _ (g (rd_object s)) (rd_tree s) (rd_upgraded s)).
Proof. reflexivity. Qed.
Lemma read_object {B A} (g : _ -> A) (f : _ -> exceptional (reading ptree C) B) s : h_bind (h_get g) f s = f (g s) s.
Proof. reflexivity. Qed.

(** What is asked for is not there. *)
Lemma no_text {B} k (f : _ -> exceptional (reading ptree C) B) s : pt_get (rd_tree s) (str k) = None -> h_bind (text_at k) f s = Ok (inl Runtime_error, s).
Proof. intros Hv. unfold text_at, h_bind, the_tree, h_get. by rewrite Hv. Qed.
End Steps.

Lemma dec_into_back `{NumberStream} x m : fits 128 m -> decode_dec_into x (encode_dec128 m) = (false, m).
Proof.
  intros Hm. pose proof (proj1 (proj1 (text_read_back m) Hm)) as Hd. unfold decode_dec128 in Hd. unfold decode_dec_into.
  destruct (_ || _ || _); [discriminate Hd|]. unfold assigned. destruct (get_dec 128 (encode_dec128 m)) as [[n []]|]; try discriminate Hd.
  cbn in Hd. by injection Hd as ->.
Qed.

Section Trees.
Context `{PropertyTree, NumberStream}.
Implicit Types (t : ptree) (k : string).

(** ** Trees that are changed *)

Lemma first_put_ne {T} (k k' : list ascii) (f : T -> T) new l : k <> k' -> first_child k (put_child k' f new l) = first_child k l.
Proof.
  intros Hk. induction l as [|[x c] l IH]; cbn; [by rewrite bool_decide_false by done|]. destruct (decide (x = k')) as [->|Hx].
  - rewrite bool_decide_true by done. cbn. by rewrite !bool_decide_false by done.
  - rewrite (bool_decide_false (x = k')) by done. cbn. by rewrite IH.
Qed.
Lemma first_put_eq {T} (k : list ascii) (f : T -> T) new l :
  first_child k (put_child k f new l) = Some (match first_child k l with Some c => f c | None => new end).
Proof.
  induction l as [|[x c] l IH]; cbn; [by rewrite bool_decide_true|]. destruct (decide (x = k)) as [->|Hx].
  - rewrite !bool_decide_true by done. cbn. by rewrite bool_decide_true.
  - rewrite !bool_decide_false by done. cbn. by rewrite bool_decide_false by done.
Qed.
Lemma first_append {T} (k k' : list ascii) (l : list (list ascii * T)) c :
  first_child k (l ++ [(k', c)]) = match first_child k l with Some x => Some x | None => if bool_decide (k' = k) then Some c else None end.
Proof. induction l as [|[x y] l IH]; cbn; [done|]. by destruct (bool_decide (x = k)). Qed.

Lemma get_put_eq k v t : plain (str k) = true -> pt_get (put k v t) (str k) = Some v.
Proof.
  intros Hk. unfold put. rewrite get_text, put_children, first_put_eq by done. cbn. f_equal.
  destruct (first_child (str k) (pt_children t)); [apply put_value_data|apply leaf_data].
Qed.
Lemma get_put_ne k k' v t : plain (str k) = true -> plain (str k') = true -> str k <> str k' -> pt_get (put k' v t) (str k) = pt_get t (str k).
Proof. intros Hk Hk' Hne. unfold put. by rewrite !get_text, put_children, first_put_ne by done. Qed.
Lemma child_put_ne k k' v t : plain (str k) = true -> plain (str k') = true -> str k <> str k' ->
  pt_get_child (put k' v t) (str k) = pt_get_child t (str k).
Proof. intros Hk Hk' Hne. unfold put. by rewrite !get_child_tree, put_children, first_put_ne by done. Qed.

(** A tree of texts and trees, put together under different keys. *)
Definition build (l : list (string * (list ascii + ptree))) : ptree :=
  fold_left (fun t x => match snd x with inl v => put (fst x) v t | inr c => pt_add_child (str (fst x)) c t end) l pt_empty.
Definition part (x : list ascii + ptree) : ptree := match x with inl v => pt_leaf v | inr c => c end.

Lemma build_children l : (forall k x, In (k, x) l -> plain (str k) = true) -> NoDup (map (fun x => str (fst x)) l) ->
  pt_children (build l) = map (fun x => (str (fst x), part (snd x))) l.
Proof.
  intros Hp Hd. assert (Hgen : forall t, NoDup (map fst (pt_children t) ++ map (fun x => str (fst x)) l) ->
    pt_children (fold_left (fun t x => match snd x with inl v => put (fst x) v t | inr c => pt_add_child (str (fst x)) c t end) l t)
    = pt_children t ++ map (fun x => (str (fst x), part (snd x))) l).
  { clear Hd. induction l as [|[k x] l IH]; intros t Hd; [by rewrite app_nil_r|]. cbn [fold_left map fst snd].
    assert (Hk : plain (str k) = true) by (apply (Hp k x); by left).
    assert (Hc : pt_children (match x with inl v => put k v t | inr c => pt_add_child (str k) c t end) = pt_children t ++ [(str k, part x)]).
    { destruct x as [v|c]; [|by apply add_child_children]. apply put_fresh; [done|]. intros Hin. apply NoDup_app in Hd as (_ & Hd & _).
      apply (Hd (str k)); [by apply list_elem_of_In|cbn; left]. }
    rewrite IH; [by rewrite Hc, <- app_assoc| |rewrite Hc, map_app, <- app_assoc; exact Hd]. intros k' x' Hin. apply (Hp k' x'). by right. }
  unfold build. rewrite Hgen; unfold pt_empty; by rewrite leaf_children.
Qed.

Lemma build_first l k x : (forall k x, In (k, x) l -> plain (str k) = true) -> NoDup (map (fun x => str (fst x)) l) -> In (k, x) l ->
  first_child (str k) (pt_children (build l)) = Some (part x).
Proof.
  intros Hp Hd Hin. rewrite build_children by done. clear Hp. induction l as [|[k' x'] l IH]; [done|]. cbn in *. apply NoDup_cons in Hd as [Hn Hd].
  destruct Hin as [[= -> ->]|Hin]; [by rewrite bool_decide_true|]. rewrite bool_decide_false; [by apply IH|].
  intros He. apply Hn, list_elem_of_In, in_map_iff. by exists (k, x).
Qed.

(** ** The log *)

Definition logging_texts (l : logging) : list (string * list ascii) :=
  [("version", str "2"); ("ledger", bool_text (ledger_logging_value l)); ("ledger_duplicate", bool_text (ledger_duplicate_logging_value l));
   ("vote", bool_text (vote_logging_value l)); ("network", bool_text (network_logging_value l));
   ("network_message", bool_text (network_message_logging_value l)); ("network_publish", bool_text (network_publish_logging_value l));
   ("network_packet", bool_text (network_packet_logging_value l)); ("network_keepalive", bool_text (network_keepalive_logging_value l));
   ("node_lifetime_tracing", bool_text (node_lifetime_tracing_value l)); ("insufficient_work", bool_text (insufficient_work_logging_value l));
   ("log_rpc", bool_text (log_rpc_value l)); ("bulk_pull", bool_text (bulk_pull_logging_value l));
   ("work_generation_time", bool_text (work_generation_time_value l)); ("log_to_cerr", bool_text (log_to_cerr_value l));
   ("max_size", to_dec (max_size l))]%string.

Definition logging_holds (l : logging) t : Prop := forall k v, In (k, v) (logging_texts l) -> pt_get t (str k) = Some v.

Ltac in_list := cbn [In]; repeat first [left; reflexivity | right].
Ltac keys_plain := let Hin := fresh in intros ? ? Hin; cbn in Hin; repeat (destruct Hin as [[= <- <-]|Hin]; [reflexivity|]); destruct Hin.

Lemma logging_written l : logging_holds l (logging_json l pt_empty).
Proof.
  intros k v Hin. change (logging_json l pt_empty) with (tree_of (logging_texts l)). apply tree_of_get; [keys_plain| |exact Hin].
  cbn [logging_texts map fst]. apply (bool_decide_unpack _). reflexivity.
Qed.

Lemma logging_read l l0 t u : fits 64 (max_size l) -> logging_holds l t ->
  logging_deserialize_json (Reading _ _ l0 t u) = Ok (inr false, Reading _ _ l t u).
Proof.
  intros Hm Ht. unfold logging_deserialize_json, catch_runtime, h_catch.
  assert (Hv : read_version (Reading _ _ l0 t u) = Ok (inr (to_dec 2), Reading _ _ l0 t u)).
  { unfold read_version, h_bind, the_tree, h_get. cbn [rd_tree]. by rewrite (Ht "version"%string (str "2")) by in_list. }
  unfold h_bind at 1. rewrite Hv. rewrite read_stoul by (split; lia). unfold h_bind at 1. change (logging_upgrade_json (wrap 32 2)) with (@h_ret (reading ptree logging) bool false).
  unfold h_ret at 1. unfold h_bind at 1, or_upgraded, h_put. cbn [rd_object rd_tree rd_upgraded]. rewrite orb_false_r.
  repeat (erewrite read_bool by (cbn [rd_tree]; apply Ht; in_list); rewrite read_assign; cbn [rd_object rd_tree rd_upgraded]).
  erewrite read_uint by (first [exact Hm | cbn [rd_tree]; apply Ht; in_list]). rewrite read_assign. cbn [rd_object rd_tree rd_upgraded].
  unfold h_ret. by destruct l.
Qed.

(** ** The node *)

Section Node.
Context `{AddressText}.
Implicit Types (c : node_config).

Definition peer_text (p : Z * Z) : list ascii := address_text (fst p) ++ ":"%char :: to_dec (snd p).

(** The texts of a configuration, but for those of the last version. *)
Definition node_texts c : list (string * list ascii) :=
  [("peering_port", to_dec (peering_port c)); ("bootstrap_fraction_numerator", to_dec (fraction_numerator c));
   ("receive_minimum", encode_dec128 (receive_minimum_of c)); ("inactive_supply", encode_dec128 (inactive_supply_of c));
   ("password_fanout", to_dec (password_fanout c)); ("io_threads", to_dec (io_threads c)); ("work_threads", to_dec (work_threads c));
   ("enable_voting", bool_text (enable_voting c)); ("bootstrap_connections", to_dec (bootstrap_connections c));
   ("callback_address", callback_address c); ("callback_port", to_dec (callback_port c)); ("callback_target", callback_target c)]%string.

(** A child that is a list of texts. *)
Definition lists k (l : list (list ascii)) t : Prop :=
  exists x, pt_get_child t (str k) = Some x /\ map (fun y => pt_data (snd y)) (pt_children x) = l.

Record holds c t : Prop := {
  h_texts k v : In (k, v) (node_texts c) -> pt_get t (str k) = Some v;
  h_logging : exists x, pt_get_child t (str "logging") = Some x /\ logging_holds (nc_logging c) x;
  h_work_peers : lists "work_peers" (map peer_text (work_peers_of c)) t;
  h_peers : lists "preconfigured_peers" (preconfigured_peers c) t;
  h_representatives : lists "preconfigured_representatives" (map to_account (preconfigured_representatives c)) t
}.

Record config_ok c : Prop := {
  ok_port : fits 16 (peering_port c);
  ok_fraction : fits 32 (fraction_numerator c);
  ok_minimum : fits 128 (receive_minimum_of c);
  ok_inactive : fits 128 (inactive_supply_of c);
  ok_fanout : 16 <= password_fanout c <= 1024 * 1024;
  ok_io : 0 < io_threads c < 2 ^ 32;
  ok_work : 0 < work_threads c < 2 ^ 32;
  ok_connections : fits 32 (bootstrap_connections c);
  ok_callback : fits 16 (callback_port c);
  ok_dbs : - 2 ^ 31 <= lmdb_max_dbs c < 2 ^ 31;
  ok_size : fits 64 (max_size (nc_logging c));
  ok_representatives : preconfigured_representatives c <> [] /\ Forall (fits 256) (preconfigured_representatives c);
  ok_peers : Forall peer_ok (work_peers_of c)
}.

Lemma text_list_data l : map (fun y => pt_data (snd y)) (pt_children (text_list l)) = l.
Proof.
  assert (Hgen : forall t, map (fun y => pt_data (snd y)) (pt_children (fold_left (fun t v => pt_push_back [] (pt_put [] v pt_empty) t) l t))
    = map (fun y => pt_data (snd y)) (pt_children t) ++ l).
  { induction l as [|v l IH]; intros t; [by rewrite app_nil_r|]. cbn [fold_left]. rewrite IH, push_back_children, map_app, <- app_assoc.
    cbn [map snd app]. by rewrite put_here, put_value_data. }
  unfold text_list. rewrite Hgen. unfold pt_empty. by rewrite leaf_children.
Qed.

Definition node_parts c : list (string * (list ascii + ptree)) :=
  [("version", inl (str "8")); ("peering_port", inl (to_dec (peering_port c)));
   ("bootstrap_fraction_numerator", inl (to_dec (fraction_numerator c))); ("receive_minimum", inl (encode_dec128 (receive_minimum_of c)));
   ("logging", inr (logging_json (nc_logging c) pt_empty)); ("work_peers", inr (text_list (map peer_text (work_peers_of c))));
   ("preconfigured_peers", inr (text_list (preconfigured_peers c)));
   ("preconfigured_representatives", inr (text_list (map to_account (preconfigured_representatives c))));
   ("inactive_supply", inl (encode_dec128 (inactive_supply_of c))); ("password_fanout", inl (to_dec (password_fanout c)));
   ("io_threads", inl (to_dec (io_threads c))); ("work_threads", inl (to_dec (work_threads c)));
   ("enable_voting", inl (bool_text (enable_voting c))); ("bootstrap_connections", inl (to_dec (bootstrap_connections c)));
   ("callback_address", inl (callback_address c)); ("callback_port", inl (to_dec (callback_port c)));
   ("callback_target", inl (callback_target c)); ("lmdb_max_dbs", inl (int_text (lmdb_max_dbs c)))]%string.

Lemma node_parts_keys c : (forall k x, In (k, x) (node_parts c) -> plain (str k) = true) /\ NoDup (map (fun x => str (fst x)) (node_parts c)).
Proof. split; [keys_plain|]. cbn [node_parts map fst]. apply (bool_decide_unpack _). reflexivity. Qed.

(** Trees that were put together from the parts of a configuration, possibly without
    some of them. *)
Lemma parts_text l k v : (forall k x, In (k, x) l -> plain (str k) = true) -> NoDup (map (fun x => str (fst x)) l) ->
  In (k, inl v) l -> pt_get (build l) (str k) = Some v.
Proof. intros Hp Hd Hin. rewrite get_text by (by eapply Hp). rewrite (build_first l k (inl v)) by done. cbn. by rewrite leaf_data. Qed.
Lemma parts_child l k (x : ptree) : (forall k x, In (k, x) l -> plain (str k) = true) -> NoDup (map (fun x => str (fst x)) l) ->
  In (k, inr x) l -> pt_get_child (build l) (str k) = Some x.
Proof. intros Hp Hd Hin. rewrite get_child_tree by (by eapply Hp). by rewrite (build_first l k (inr x)). Qed.

Lemma node_written c : holds c (node_config_json c pt_empty)
  /\ pt_get (node_config_json c pt_empty) (str "version") = Some (str "8")
  /\ pt_get (node_config_json c pt_empty) (str "lmdb_max_dbs") = Some (int_text (lmdb_max_dbs c)).
Proof.
  change (node_config_json c pt_empty) with (build (node_parts c)). destruct (node_parts_keys c) as [Hp Hd].
  split_and!; [split| |]; try (apply parts_text; [done..|in_list]).
  - intros k v Hin. apply parts_text; [done..|]. cbn [node_texts In] in Hin. repeat (destruct Hin as [[= <- <-]|Hin]; [in_list|]). destruct Hin.
  - eexists. split; [apply parts_child; [done..|in_list]|apply logging_written].
  - eexists. split; [apply parts_child; [done..|in_list]|apply text_list_data].
  - eexists. split; [apply parts_child; [done..|in_list]|apply text_list_data].
  - eexists. split; [apply parts_child; [done..|in_list]|apply text_list_data].
Qed.

(** ** Reading *)

Lemma work_peers_read l c t u : Forall peer_ok l -> forall (xs : list (list ascii * ptree)), map (fun y => pt_data (snd y)) xs = map peer_text l ->
  read_work_peers xs false (Reading _ _ c t u) = Ok (inr false, Reading _ _ (set_work_peers_of (work_peers_of c ++ l) c) t u).
Proof.
  intros Hl. revert c. induction Hl as [|p l Hp Hl IH]; intros c [|[x y] xs] Hxs; try discriminate Hxs; cbn [read_work_peers].
  - unfold h_ret. rewrite app_nil_r. by destruct c.
  - cbn [map snd] in Hxs. injection Hxs as Hy Hxs. rewrite Hy. unfold peer_text. rewrite address_port_back by done. cbn [negb].
    rewrite read_assign. cbn [rd_object rd_tree rd_upgraded]. rewrite (IH _ xs Hxs). destruct c. cbn. by rewrite <- app_assoc.
Qed.

Lemma representatives_read l c t u : Forall (fits 256) l -> forall (xs : list (list ascii * ptree)), map (fun y => pt_data (snd y)) xs = map to_account l ->
  read_representatives xs false (Reading _ _ c t u)
  = Ok (inr false, Reading _ _ (set_preconfigured_representatives (preconfigured_representatives c ++ l) c) t u).
Proof.
  intros Hl. revert c. induction Hl as [|a l Ha Hl IH]; intros c [|[x y] xs] Hxs; try discriminate Hxs; cbn [read_representatives].
  - unfold h_ret. rewrite app_nil_r. by destruct c.
  - cbn [map snd] in Hxs. injection Hxs as Hy Hxs. rewrite Hy, to_account_back by done. unfold h_bind at 1, h_res. cbv beta iota.
    rewrite read_assign. cbn [rd_object rd_tree rd_upgraded]. rewrite (IH _ xs Hxs). destruct c. cbn. by rewrite <- app_assoc.
Qed.

(** The numbers, from an object whose other fields are there already. *)
Lemma numbers_read c c0 t u x : config_ok c -> pt_get_child t (str "logging") = Some x -> logging_holds (nc_logging c) x ->
  read_numbers (to_dec (peering_port c)) (to_dec (fraction_numerator c)) (to_dec (password_fanout c)) (to_dec (io_threads c))
    (to_dec (work_threads c)) (to_dec (bootstrap_connections c)) (int_text (lmdb_max_dbs c)) (encode_dec128 (receive_minimum_of c))
    (encode_dec128 (inactive_supply_of c)) false (Reading _ _ c0 t u)
  = Ok (inr false, Reading _ _
      (NodeConfig (peering_port c) (nc_logging c) (work_peers_of c0) (preconfigured_peers c0) (preconfigured_representatives c0) (fraction_numerator c)
         (receive_minimum_of c) (inactive_supply_of c) (password_fanout c) (io_threads c) (work_threads c) (enable_voting c0) (bootstrap_connections c)
         (callback_address c0) (callback_port c0) (callback_target c0) (lmdb_max_dbs c)) (pt_set_child (str "logging") x t) u).
Proof.
  intros [Hport Hfr Hmin Hina Hfan Hio Hwork Hcon Hcb Hdbs Hsize _ _] Hx Hl. unfold read_numbers.
  assert (H64 : forall w n, 0 <= w <= 64 -> fits w n -> fits 64 n).
  { intros w n Hw [Hn0 Hn]. split; [done|]. apply Z.lt_le_trans with (1 := Hn). apply Z.pow_le_mono_r; lia. }
  rewrite read_stoul by (apply (H64 16); [lia|done]). rewrite read_assign.
  rewrite read_stoul by (apply (H64 32); [lia|done]). rewrite read_assign.
  rewrite read_stoul by (split; lia). rewrite read_assign.
  rewrite read_stoul by (split; lia). rewrite read_assign.
  rewrite read_stoul by (split; lia). rewrite read_assign.
  rewrite read_stoul by (apply (H64 32); [lia|done]). rewrite read_assign.
  rewrite read_stoi by done. rewrite read_assign, read_object. cbn [rd_object rd_tree rd_upgraded].
  unfold h_bind at 1, on_logging. cbn [rd_object rd_tree rd_upgraded]. rewrite Hx.
  rewrite (logging_read (nc_logging c)) by done. cbn [rd_object rd_tree rd_upgraded]. rewrite read_object. cbn [rd_object].
  rewrite !dec_into_back by done. rewrite !read_assign, read_object. cbn [rd_object rd_tree rd_upgraded]. unfold h_ret.
  destruct c, c0. cbn in *. rewrite !wrap_small by (done || (split; lia)).
  unfold fits in Hport. rewrite !orb_false_r.
  rewrite !(proj2 (Z.ltb_ge _ _)), !(proj2 (Z.eqb_neq _ _)) by lia. done.
Qed.

Lemma node_read c c0 t u : config_ok c -> holds c t -> pt_get t (str "lmdb_max_dbs") = Some (int_text (lmdb_max_dbs c)) ->
  exists x, pt_get_child t (str "logging") = Some x
  /\ node_config_read (Reading _ _ c0 t u) = Ok (inr false, Reading _ _ c (pt_set_child (str "logging") x t) u).
Proof.
  intros Hok Hh Hdbs. destruct (h_logging _ _ Hh) as (x & Hx & Hl). exists x. split; [done|].
  pose proof Hok as [Hport Hfr Hmin Hina Hfan Hio Hwork Hcon Hcb _ Hsize [Hne Hreps] Hpeers].
  destruct (h_work_peers _ _ Hh) as (w & Hw & Hwl). destruct (h_peers _ _ Hh) as (p & Hp & Hpl).
  destruct (h_representatives _ _ Hh) as (r & Hr & Hrl).
  pose proof (h_texts _ _ Hh) as Ht.
  unfold node_config_read.
  do 3 (erewrite read_text by (cbn [rd_tree]; apply Ht; in_list)).
  rewrite (read_child _ x) by done. rewrite read_assign. cbn [rd_object rd_tree rd_upgraded].
  rewrite (read_child _ w) by done. unfold h_bind at 1. rewrite (work_peers_read (work_peers_of c)) by done.
  rewrite (read_child _ p) by done. rewrite read_assign. cbn [rd_object rd_tree rd_upgraded].
  rewrite (read_child _ r) by done. rewrite read_assign. cbn [rd_object rd_tree rd_upgraded].
  unfold h_bind at 1. rewrite (representatives_read (preconfigured_representatives c)) by done. rewrite read_object. cbn [rd_object].
  rewrite bool_decide_false by (destruct c, c0; exact Hne).
  do 4 (erewrite read_text by (cbn [rd_tree]; apply Ht; in_list)).
  erewrite read_bool by (cbn [rd_tree]; apply Ht; in_list). rewrite read_assign. cbn [rd_object rd_tree rd_upgraded].
  do 2 (erewrite read_text by (cbn [rd_tree]; apply Ht; in_list)). rewrite read_assign. cbn [rd_object rd_tree rd_upgraded].
  do 2 (erewrite read_text by (cbn [rd_tree]; apply Ht; in_list)). rewrite read_assign. cbn [rd_object rd_tree rd_upgraded].
  rewrite (read_text _ (int_text (lmdb_max_dbs c))) by done. rewrite parse_port_back by done. unfold or_throw. rewrite bind_ret.
  rewrite read_assign. cbn [rd_object rd_tree rd_upgraded fst snd orb].
  unfold catch_logic, h_catch. rewrite (numbers_read c _ t u x) by done. destruct c, c0. cbn in *. by rewrite Hpl.
Qed.

(** ** What is written is read *)

(** A configuration in range is read back from its tree, into any object and without an
    upgrade. *)
Theorem config_read_back c c0 : config_ok c ->
  exists t', node_config_deserialize_json (Reading _ _ c0 (node_config_json c pt_empty) false) = Ok (inr false, Reading _ _ c t' false).
Proof.
  intros Hok. destruct (node_written c) as (Hh & Hv & Hd). set (t := node_config_json c pt_empty) in *. clearbody t.
  destruct (node_read c c0 t false Hok Hh Hd) as (x & _ & Hrun). eexists.
  unfold node_config_deserialize_json, catch_runtime, h_catch.
  assert (Hver : read_version (Reading _ _ c0 t false) = Ok (inr (to_dec 8), Reading _ _ c0 t false)).
  { unfold read_version, h_bind, the_tree, h_get. cbn [rd_tree]. by rewrite Hv. }
  unfold h_bind at 1. rewrite Hver. rewrite read_stoul by (split; lia). unfold h_bind at 1.
  change (node_config_upgrade_json (wrap 32 8)) with (@h_ret (reading ptree node_config) bool false). unfold h_ret at 1.
  unfold h_bind at 1, or_upgraded, h_put. cbn [rd_object rd_tree rd_upgraded orb]. by rewrite Hrun.
Qed.

Lemma holds_put c t k v : holds c t -> plain (str k) = true ->
  (forall k' v', In (k', v') (node_texts c) -> str k' <> str k) ->
  Forall (fun k' => str k' <> str k) ["logging"; "work_peers"; "preconfigured_peers"; "preconfigured_representatives"]%string ->
  holds c (put k v t).
Proof.
  intros Hh Hk Ht Hc. rewrite !Forall_cons in Hc. destruct Hc as (H1' & H2' & H3' & H4' & _).
  assert (Hplain : forall k' v', In (k', v') (node_texts c) -> plain (str k') = true) by keys_plain.
  split; unfold lists; rewrite ?child_put_ne by done; try apply Hh. intros k' v' Hin. rewrite get_put_ne; [by apply Hh|by eapply Hplain|done|by eapply Ht].
Qed.

(** A configuration of the version before has no limit on databases: it is read with the
    limit that was fixed then, and the tree is upgraded. *)
Theorem config_upgraded c c0 t : config_ok c -> holds c t -> pt_get t (str "version") = Some (str "7") ->
  exists t', node_config_deserialize_json (Reading _ _ c0 t false) = Ok (inr false, Reading _ _ (set_lmdb_max_dbs 128 c) t' true).
Proof.
  intros Hok Hh Hv. set (t1 := put "version" (str "8") (put "lmdb_max_dbs" (str "128") t)).
  assert (Hh1 : holds c t1).
  { assert (Hkeys : forall k, In k ["version"; "lmdb_max_dbs"]%string -> forall k' v', In (k', v') (node_texts c) -> str k' <> str k).
    { intros k Hk k' v' Hin. cbn in Hk, Hin. destruct Hk as [<-|[<-|[]]]; repeat (destruct Hin as [[= <- <-]|Hin]; [discriminate|]); destruct Hin. }
    unfold t1. apply holds_put; [apply holds_put; [done|reflexivity|apply Hkeys; in_list|]|reflexivity|apply Hkeys; in_list|]; repeat constructor; discriminate. }
  assert (Hok1 : config_ok (set_lmdb_max_dbs 128 c)) by (destruct Hok; split; cbn; done || lia).
  assert (Hh2 : holds (set_lmdb_max_dbs 128 c) t1) by (destruct Hh1; split; done).
  assert (Hd1 : pt_get t1 (str "lmdb_max_dbs") = Some (int_text 128)).
  { unfold t1. rewrite get_put_ne by (reflexivity || discriminate). by rewrite get_put_eq by reflexivity. }
  destruct (node_read (set_lmdb_max_dbs 128 c) c0 t1 true Hok1 Hh2 Hd1) as (x & _ & Hrun). eexists.
  unfold node_config_deserialize_json, catch_runtime, h_catch.
  assert (Hver : read_version (Reading _ _ c0 t false) = Ok (inr (to_dec 7), Reading _ _ c0 t false)).
  { unfold read_version, h_bind, the_tree, h_get. cbn [rd_tree]. by rewrite Hv. }
  unfold h_bind at 1. rewrite Hver. rewrite read_stoul by (split; lia). unfold h_bind at 1.
  change (node_config_upgrade_json (wrap 32 7) (Reading _ _ c0 t false)) with (@Ok ((exception + bool) * reading ptree node_config) (inr true, Reading _ _ c0 t1 false)).
  unfold h_bind at 1, or_upgraded, h_put. cbn [rd_object rd_tree rd_upgraded orb]. by rewrite Hrun.
Qed.

(** A version that is no number is an exception that nobody catches. *)
Theorem bad_version_throws c0 t u v : pt_get t (str "version") = Some v -> stoull v = None ->
  node_config_deserialize_json (Reading _ _ c0 t u) = Ok (inl Logic_error, Reading _ _ c0 t u).
Proof.
  intros Hv Hn. unfold node_config_deserialize_json, catch_runtime, h_catch, h_bind, read_version, h_bind, the_tree, h_get. cbn [rd_tree]. rewrite Hv.
  unfold h_ret, stoul_of. by rewrite Hn.
Qed.

(** ** What is old is refused *)

(** The last field that was introduced is not there. *)
Definition absent t : Prop := pt_get t (str "lmdb_max_dbs") = None.

Lemma absent_first t : absent t <-> first_child (str "lmdb_max_dbs") (pt_children t) = None.
Proof. unfold absent. rewrite get_text by reflexivity. by destruct (first_child _ _). Qed.
Lemma absent_put k v t : plain (str k) = true -> str k <> str "lmdb_max_dbs" -> absent t -> absent (put k v t).
Proof. intros Hk Hne. unfold absent. by rewrite get_put_ne by (done || congruence). Qed.
Lemma absent_erase k t : absent t -> absent (pt_erase (str k) t).
Proof.
  rewrite !absent_first, erase_children. induction (pt_children t) as [|[x y] l IH]; [done|]. rewrite filter_cons. cbn [first_child].
  case_bool_decide; [done|]. intros Hl. case_decide; [|by apply IH]. cbn [first_child]. rewrite bool_decide_false by done. by apply IH.
Qed.
Lemma absent_add k (x : ptree) t : plain (str k) = true -> str k <> str "lmdb_max_dbs" -> absent t -> absent (pt_add_child (str k) x t).
Proof. intros Hk Hne. rewrite !absent_first, add_child_children, first_append by done. intros ->. by rewrite bool_decide_false. Qed.

Local Abbreviation reader := (exceptional (reading ptree node_config)).

(** A step does not add the field; a step never comes to a result without it. *)
Definition quiet {A} (m : reader A) : Prop := forall s r s', absent (rd_tree s) -> m s = Ok (r, s') -> absent (rd_tree s').
Definition refuses {A} (m : reader A) : Prop := forall s r s', absent (rd_tree s) -> m s = Ok (r, s') -> exists e, r = inl e.

Lemma quiet_ret {A} (a : A) : quiet (h_ret a).
Proof. intros s r s' Hs [= <- <-]. done. Qed.
Lemma quiet_throw {A} e : quiet (throw (A := A) e).
Proof. intros s r s' Hs [= <- <-]. done. Qed.
Lemma quiet_get {A} (f : _ -> A) : quiet (h_get f).
Proof. intros s r s' Hs [= <- <-]. done. Qed.
Lemma quiet_res {A} (x : res A) : quiet (h_res x).
Proof. intros s r s' Hs. unfold h_res. destruct x; [|done]. by intros [= <- <-]. Qed.
Lemma quiet_assign f : quiet (assign f).
Proof. intros s r s' Hs [= <- <-]. done. Qed.
Lemma quiet_upgraded b : quiet (or_upgraded b).
Proof. intros s r s' Hs [= <- <-]. done. Qed.
Lemma quiet_tree f : (forall t, absent t -> absent (f t)) -> quiet (on_tree f).
Proof. intros Hf s r s' Hs [= <- <-]. by apply Hf. Qed.
Lemma quiet_or_throw {A} e (o : option A) : quiet (or_throw e o).
Proof. destruct o; [apply quiet_ret|apply quiet_throw]. Qed.
Lemma quiet_bind {A B} (m : reader A) (k : A -> reader B) : quiet m -> (forall a, quiet (k a)) -> quiet (h_bind m k).
Proof.
  intros Hm Hk s r s' Hs. unfold h_bind. destruct (m s) as [[[e|a] s1]|f] eqn:Em; [|intros Ek|done].
  - intros [= <- <-]. by eapply Hm.
  - eapply Hk; [|exact Ek]. by eapply Hm.
Qed.
Lemma refuses_bind {A B} (m : reader A) (k : A -> reader B) : quiet m -> (forall a, refuses (k a)) -> refuses (h_bind m k).
Proof.
  intros Hm Hk s r s' Hs. unfold h_bind. destruct (m s) as [[[e|a] s1]|f] eqn:Em; [|intros Ek|done].
  - intros [= <- <-]. by eexists.
  - eapply Hk; [|exact Ek]. by eapply Hm.
Qed.
Lemma refuses_field {B} (k : _ -> reader B) : refuses (h_bind (text_at "lmdb_max_dbs") k).
Proof. intros s r s' Hs. rewrite no_text by done. intros [= <- <-]. by eexists. Qed.

Ltac quiet_step :=
  first [ apply quiet_ret | apply quiet_throw | apply quiet_get | apply quiet_res | apply quiet_assign | apply quiet_upgraded | apply quiet_or_throw
        | apply quiet_tree; intros ? ?; first [apply absent_erase; assumption | apply absent_put; [reflexivity|discriminate|assumption]
                                              | apply absent_add; [reflexivity|discriminate|assumption]]
        | apply quiet_bind; [|intros ?] | progress (cbv beta zeta)
        | match goal with |- quiet (match ?x with _ => _ end) => destruct x end ].
Ltac quiet := repeat quiet_step.

Lemma quiet_work_peers l r : quiet (read_work_peers l r).
Proof. revert r. induction l as [|[x y] l IH]; intros r; cbn [read_work_peers]; quiet; apply IH. Qed.
Lemma quiet_representatives l r : quiet (read_representatives l r).
Proof. revert r. induction l as [|[x y] l IH]; intros r; cbn [read_representatives]; quiet; apply IH. Qed.

Lemma read_refuses : refuses node_config_read.
Proof.
  unfold node_config_read.
  repeat first
    [ apply refuses_field
    | apply refuses_bind; [first [apply quiet_work_peers | apply quiet_representatives
                                 | solve [unfold text_at, bool_at, child_at, the_tree; quiet]]|intros ?]
    | progress (cbv beta zeta) ].
Qed.

Lemma quiet_upgrade v : 1 <= v <= 6 -> quiet (node_config_upgrade_json v).
Proof.
  intros Hv. unfold node_config_upgrade_json, upgrade_config_1, upgrade_config_2, upgrade_minimum, upgrade_config_5, upgrade_config_6, set_version,
    child_at, the_tree.
  destruct (Z.eqb_spec v 7); [lia|]. quiet.
Qed.

Lemma quiet_version : quiet read_version.
Proof. unfold read_version, the_tree. quiet. Qed.

(** The configuration of any version from 1 to 6, or without a version, that does not
    already have the field of the last version is refused, whatever else it has. *)
Theorem old_config_refused c t u s : (pt_get t (str "version") = None \/ exists v, pt_get t (str "version") = Some (to_dec v) /\ 1 <= v <= 6) ->
  absent t -> node_config_deserialize_json (Reading _ _ c t u) <> Ok (inr false, s).
Proof.
  intros Hv Ha. unfold node_config_deserialize_json, catch_runtime, h_catch.
  assert (Hver : exists v s1, 1 <= v <= 6 /\ read_version (Reading _ _ c t u) = Ok (inr (to_dec v), s1)).
  { unfold read_version, h_bind, the_tree, h_get. cbn [rd_tree].
    destruct Hv as [-> |(v & -> & Hr)]; [|by exists v, (Reading _ _ c t u)]. exists 1. unfold on_tree, h_put. cbn [rd_tree].
    destruct (pt_get_child _ _); eexists; (split; [lia|]); reflexivity. }
  destruct Hver as (v & s1 & Hr & Hver). assert (Ha1 : absent (rd_tree s1)) by (by apply (quiet_version (Reading _ _ c t u) _ _ Ha Hver)).
  unfold h_bind at 1. rewrite Hver. rewrite read_stoul by (split; lia). rewrite wrap_small by (split; lia).
  assert (Hrest : refuses (h_bind (node_config_upgrade_json v) (fun upgraded => or_upgraded upgraded ;! node_config_read))).
  { apply refuses_bind; [by apply quiet_upgrade|]. intros b. apply refuses_bind; [apply quiet_upgraded|]. intros _. apply read_refuses. }
  destruct (h_bind (node_config_upgrade_json v) _ s1) as [[r s2]|f] eqn:Erun; [|done]. destruct (Hrest _ _ _ Ha1 Erun) as ([] & ->); done.
Qed.

(** ** The server of requests *)

Definition rpc_texts (c : rpc_config) : list (string * list ascii) :=
  [("address", address_text (rc_address c)); ("port", to_dec (rc_port c)); ("enable_control", bool_text (rc_enable_control c));
   ("frontier_request_limit", to_dec (frontier_request_limit c)); ("chain_request_limit", to_dec (chain_request_limit c))]%string.

(** The configuration of the server is read back, whatever the object held before. *)
Theorem rpc_config_read_back (c c0 : rpc_config) u :
  parse_address (address_text (rc_address c)) = Some (rc_address c) -> fits 16 (rc_port c) -> fits 64 (frontier_request_limit c) -> fits 64 (chain_request_limit c) ->
  let t := rpc_config_json c pt_empty in
  rpc_config_deserialize_json (Reading _ _ c0 t u) = Ok (inr false, Reading _ _ c t u).
Proof.
  intros Ha Hp Hf Hc t.
  assert (Ht : forall k v, In (k, v) (rpc_texts c) -> pt_get t (str k) = Some v).
  { intros k v Hin. change t with (tree_of (rpc_texts c)). apply tree_of_get; [keys_plain| |exact Hin].
    cbn [rpc_texts map fst]. apply (bool_decide_unpack _). reflexivity. }
  clearbody t. assert (H64 : fits 64 (rc_port c)) by (unfold fits in *; lia).
  unfold rpc_config_deserialize_json, catch_runtime, h_catch.
  do 2 (erewrite read_text by (cbn [rd_tree]; apply Ht; in_list)).
  erewrite read_bool by (cbn [rd_tree]; apply Ht; in_list). rewrite read_assign. cbn [rd_object rd_tree rd_upgraded].
  do 2 (erewrite read_text by (cbn [rd_tree]; apply Ht; in_list)).
  unfold h_bind at 1, catch_logic, h_catch.
  rewrite read_stoul, read_assign, read_object by done. do 2 (rewrite read_stoul by done; rewrite read_assign). cbn [rd_object rd_tree rd_upgraded]. unfold h_ret at 1.
  rewrite Ha, read_assign. cbn [rd_object rd_tree rd_upgraded]. unfold h_ret. destruct c, c0. cbn in *. rewrite wrap_small by done.
  unfold fits in Hp. by rewrite (proj2 (Z.ltb_ge _ _)) by lia.
Qed.
End Node.
End Trees.
