(* ===== verification/TextExamples.v ===== *)
(** * Texts of numbers, trees and configurations

    A stream that writes and reads numbers, and what balances look like.  A tree with
    data and children, and a text for flat trees that is a line for every child, with
    escapes: enough of JSON to write blocks and requests, and read them back.  Then the
    configuration a node of the test network starts with, one of the version before, an
    old one, and a port that is too big. *)
From Stdlib Require Import ZArith Lia List Ascii String.
From stdpp Require Import prelude strings.
From S2P Require Import Prelude Numbers Streams Blocks Ledger LedgerExamples Work NumberText NumberTextTheorems Json JsonTheorems Conversions Config ConfigTheorems.

(** The value of a digit of a base up to sixteen. *)
Definition any_digit (c : ascii) : option Z :=
  let n := Z.of_N (N_of_ascii c) in
  if (48 <=? n) && (n <=? 57) then Some (n - 48) else if (97 <=? n) && (n <=? 102) then Some (n - 87) else None.

Lemma any_digit_char d : 0 <= d < 16 -> any_digit (digit_char d) = Some d.
Proof.
  intros Hd. assert (Hall : forallb (fun d => bool_decide (any_digit (digit_char d) = Some d)) (map Z.of_nat (seq 0 16)) = true)
    by (vm_compute; reflexivity).
  apply (proj1 (forallb_forall _ _)) with (x := d) in Hall; [by apply bool_decide_eq_true in Hall|].
  apply in_map_iff. exists (Z.to_nat d). split; [lia|]. apply in_seq. lia.
Qed.

Lemma any_digits ds : (forall d, In d ds -> 0 <= d < 16) -> mapM any_digit (map digit_char ds) = Some ds.
Proof.
  induction ds as [|d ds IH]; intros Hds; [done|]. cbn [map mapM]. rewrite any_digit_char by (apply Hds; left; done).
  cbn. by rewrite IH by (intros; apply Hds; right; done).
Qed.

Definition plain_read (base w : Z) (t : list ascii) : option (Z * bool) :=
  match mapM any_digit t with Some ds => Some (wrap w (digits_value base ds), true) | None => None end.

Lemma plain_read_text base w width n : 1 < base <= 16 -> fits w n -> plain_read base w (number_text base width n) = Some (n, true).
Proof.
  intros Hb Hn. pose proof Hn as [Hn0 _]. unfold plain_read, number_text. set (c := Nat.max _ _).
  rewrite any_digits by (intros d Hd; apply digits_range in Hd; lia). rewrite digits_value_digits by lia.
  assert (Hc : has_digits base (count_digits (Z.to_nat (Z.log2 n)) base n) n).
  { apply count_digits_ok; [lia|]. rewrite Z2Nat.id by apply Z.log2_nonneg. split; [done|].
    destruct (decide (n = 0)) as [->|Hne]; [done|]. apply Z.log2_spec. lia. }
  rewrite (Z.mod_small n), wrap_small; [done|done|]. split; [done|]. destruct Hc as [Hc _].
  apply Z.lt_le_trans with (1 := Hc). apply Z.pow_le_mono_r; lia.
Qed.

#[export] Instance plain_stream : NumberStream.
Proof.
  refine {| put_hex width n := number_text 16 width n; put_dec n := number_text 10 1 n;
            get_hex := plain_read 16; get_dec := plain_read 10 |}; intros; try done; by apply plain_read_text.
Defined.

Definition shown (balance scale precision : Z) : option string :=
  match format_balance_default balance scale precision true "," "." with
  | Some t => Some (string_of_list_ascii t)
  | None => None
  end.

(** Balances in units of ten to the 30. *)
Example shown_balances :
  shown (1234567 * 10 ^ 30 + 5 * 10 ^ 29) (10 ^ 30) 2 = Some "1,234,567.5"%string
  /\ shown (10 ^ 30 + 1) (10 ^ 30) 2 = Some "1.00"%string
  /\ shown 1 (10 ^ 30) 2 = Some "< 0.01"%string
  /\ shown 0 (10 ^ 30) 2 = Some "0"%string
  /\ shown (2 ^ 128 - 1) (10 ^ 30) 0 = Some "340,282,366"%string.
Proof. vm_compute. split_and!; reflexivity. Qed.

(** More digits than the scale has are a division by zero for a balance below one
    unit, and fewer are shown for others. *)
Example too_many_digits : shown 7 10 2 = None /\ shown 17 10 2 = Some "1.7"%string.
Proof. vm_compute. split; reflexivity. Qed.

(** The largest balance, with two digits. *)
Lemma balance_shown_witness :
  exists t, format_balance (2 ^ 128 - 1) (10 ^ 30) 2 true "," "." [3] = Some t
    /\ denoted "," "." 2 t = Some ((2 ^ 128 - 1) / 10 ^ 28).
Proof.
  destruct (balance_shown (2 ^ 128 - 1) 30 2 true "," "." [3]) as (t & E & Ht); [split; lia|lia|reflexivity|reflexivity|discriminate|].
  exists t. split; [exact E|]. rewrite decide_False in Ht by (vm_compute; intros [_ ?]; discriminate). exact Ht.
Defined.

Inductive tree := Tree (data : list ascii) (children : list (list ascii * tree)).

Definition tree_data (t : tree) : list ascii := let '(Tree d _) := t in d.
Definition tree_children (t : tree) : list (list ascii * tree) := let '(Tree _ l) := t in l.
Definition leaf (v : list ascii) : tree := Tree v [].
Definition tree_put_value (v : list ascii) (t : tree) : tree := Tree v (tree_children t).
Definition tree_put (k v : list ascii) (t : tree) : tree :=
  if bool_decide (k = []) then tree_put_value v t else Tree (tree_data t) (put_child k (tree_put_value v) (leaf v) (tree_children t)).
Definition tree_append (k : list ascii) (c t : tree) : tree := Tree (tree_data t) (tree_children t ++ [(k, c)]).
Definition tree_get (t : tree) (k : list ascii) : option (list ascii) := tree_data <$> first_child k (tree_children t).
Definition tree_get_bool (t : tree) (k : list ascii) : option bool :=
  match tree_get t k with
  | Some v => if bool_decide (v = str "true") then Some true else if bool_decide (v = str "false") then Some false else None
  | None => None
  end.

Definition tree_get_uint (t : tree) (k : list ascii) : option Z :=
  match tree_get t k with Some v => digits_value 10 <$> mapM any_digit v | None => None end.
Definition tree_erase (k : list ascii) (t : tree) : tree := Tree (tree_data t) (filter (fun x => fst x <> k) (tree_children t)).
Definition tree_set_child (k : list ascii) (c t : tree) : tree := Tree (tree_data t) (put_child k (fun _ => c) c (tree_children t)).

(** ** The text of flat trees *)

Definition newline : ascii := ascii_of_nat 10.

Definition backslash : ascii := ascii_of_nat 92.

(** Ends of lines within data are escaped, so that a text can be data of another. *)
Definition escape (c : ascii) : list ascii :=
  if Ascii.eqb c newline then [backslash; "n"%char] else if Ascii.eqb c backslash then [backslash; backslash] else [c].

Definition line (x : list ascii * tree) : list ascii := fst x ++ "."%char :: flat_map escape (tree_data (snd x)) ++ [newline].
Definition write_lines (t : tree) : list ascii := flat_map line (tree_children t).

(** The keys end at the first dot, the data at the end of the line. *)
Fixpoint read_lines (t : list ascii) (key : option (list ascii)) (acc : list ascii) : option (list (list ascii * tree)) :=
  match t with
  | [] => match key, acc with None, [] => Some [] | _, _ => None end
  | c :: t =>
      match key with
      | None => if Ascii.eqb c "." then read_lines t (Some (rev acc)) [] else read_lines t None (c :: acc)
      | Some k =>
          if Ascii.eqb c newline then match read_lines t None [] with Some l => Some ((k, leaf (rev acc)) :: l) | None => None end
          else if Ascii.eqb c backslash then
            match t with
            | x :: t => read_lines t key ((if Ascii.eqb x "n" then newline else x) :: acc)
            | [] => None
            end
          else read_lines t key (c :: acc)
      end
  end.

Lemma read_key k rest acc : forallb (fun c => negb (Ascii.eqb c ".")) k = true ->
  read_lines (k ++ "."%char :: rest) None acc = read_lines rest (Some (rev acc ++ k)) [].
Proof.
  revert acc. induction k as [|c k IH]; intros acc Hk; [cbn; by rewrite app_nil_r|]. cbn [forallb] in Hk.
  apply andb_true_iff in Hk as [Hc%negb_true_iff Hk]. cbn [app read_lines]. rewrite Hc, IH by done. cbn [rev]. by rewrite <- app_assoc.
Qed.

Lemma read_escaped c rest key acc : read_lines (escape c ++ rest) (Some key) acc = read_lines rest (Some key) (c :: acc).
Proof.
  unfold escape. destruct (Ascii.eqb_spec c newline) as [->|Hn]; [reflexivity|]. destruct (Ascii.eqb_spec c backslash) as [->|Hb]; [reflexivity|].
  cbn [app read_lines]. by rewrite (proj2 (Ascii.eqb_neq _ _) Hn), (proj2 (Ascii.eqb_neq _ _) Hb).
Qed.

Lemma read_data v rest key acc :
  read_lines (flat_map escape v ++ newline :: rest) (Some key) acc
  = match read_lines rest None [] with Some l => Some ((key, leaf (rev acc ++ v)) :: l) | None => None end.
Proof.
  revert acc. induction v as [|c v IH]; intros acc; [cbn; by rewrite app_nil_r|]. cbn [flat_map].
  rewrite <- app_assoc, read_escaped, IH. cbn [rev]. by rewrite <- app_assoc.
Qed.

Lemma read_written l : (forall k c, In (k, c) l -> plain k && printable k && printable (tree_data c) = true) ->
  read_lines (flat_map line l) None [] = Some (map (fun x => (fst x, leaf (tree_data (snd x)))) l).
Proof.
  induction l as [|[k c] l IH]; intros Hl; [done|]. cbn [flat_map]. unfold line at 1. cbn [fst snd].
  specialize (Hl k c) as Hk. apply andb_true_iff in Hk as [[Hp _]%andb_true_iff _]; [|by left].
  unfold plain in Hp. apply andb_true_iff in Hp as [_ Hp].
  rewrite <- app_assoc. cbn [app]. rewrite <- app_assoc. cbn [app]. rewrite read_key, read_data by done.
  rewrite IH; [done|]. intros k' c' Hin. apply Hl. by right.
Qed.

Lemma read_decimal n : 0 <= n -> digits_value 10 <$> mapM any_digit (number_text 10 1 n) = Some n.
Proof.
  intros Hn. destruct (number_digits 10 n) as (c & Hc); [lia..|]. rewrite (number_text_ok 10 c), any_digits; [|intros d Hd; apply digits_range in Hd; lia|lia|done..].
  cbn. by rewrite value_digits.
Qed.

#[export] Instance line_trees : PropertyTree.
Proof.
  refine {| ptree := tree; pt_data := tree_data; pt_children := tree_children; pt_leaf := leaf; pt_put_value := tree_put_value;
            pt_put := tree_put; pt_add_child := tree_append; pt_push_back := tree_append; pt_get := tree_get; pt_get_bool := tree_get_bool;
            pt_get_child t k := first_child k (tree_children t); pt_get_uint := tree_get_uint; pt_erase := tree_erase; pt_set_child := tree_set_child;
            write_json := write_lines; read_json t := Tree [] <$> read_lines t None [] |}; try done.
  - intros k v t Hk. unfold tree_put. rewrite bool_decide_false; [done|]. by intros ->.
  - intros k v t Hk. unfold tree_put. rewrite bool_decide_false; [done|]. by intros ->.
  - intros t k v Ht. unfold tree_get_bool. rewrite Ht. by destruct v.
  - intros t k Ht. unfold tree_get_bool. by rewrite Ht.
  - intros t k n [Hn _] Ht. unfold tree_get_uint. rewrite Ht. by apply read_decimal.
  - intros t _ _ Hl. unfold write_lines. rewrite read_written by (intros k c Hin; by apply Hl). cbn. eexists. split; [done|]. cbn.
    by rewrite map_map.
Defined.

(** ** Blocks *)

Lemma block_json_roundtrip_witness :
  block_ok (Send send_1)
  /\ deserialize_block_json (block_tree (Send send_1)) = Ok (Some (Send send_1))
  /\ (exists t, read_json (serialize_json (Send send_1)) = Some t /\ deserialize_block_json t = Ok (Some (Send send_1)))
  /\ forall b', block_ok b' -> serialize_json b' = serialize_json (Send send_1) -> b' = Send send_1.
Proof.
  assert (Hok : block_ok (Send send_1)) by (apply (bool_decide_unpack _); vm_compute; exact I).
  split; [exact Hok|]. exact (block_json_roundtrip (Send send_1) Hok).
Defined.

(** What a send block looks like, and what is made of numbers of work. *)
Example work_texts :
  from_string_hex (str "62f05417dd3fb691") 0 = Ok (false, 0x62f05417dd3fb691) /\ from_string_hex (str "xyz") 0 = Ok (true, 0)
  /\ from_string_hex (str "-1") 0 = Ok (false, 2 ^ 64 - 1) /\ from_string_hex (str "  ") 0 = Fault Indeterminate_value.
Proof. split_and!; reflexivity. Qed.

(** Only the loopback address is understood. *)
#[export] Instance loopback_text : AddressText := {|
  parse_address t := if bool_decide (t = str "::1") then Some 1 else None;
  address_text a := if a =? 1 then str "::1" else str "?";
  endpoint_text e := str "[::1]:" ++ to_dec (Messages.port e)
|}.

Definition first_config : node_config := set_work_peers_of [(1, 7000)] (node_config_default 8).

Lemma first_config_ok : config_ok first_config.
Proof.
  split; [..|split; [discriminate|apply Forall_singleton]|apply Forall_singleton; split_and!; [discriminate|reflexivity|]]; vm_compute; split; congruence.
Qed.

(** A configuration is read back into one with other values. *)
Example first_config_read :
  exists t', node_config_deserialize_json (Reading _ _ (node_config_default 4) (node_config_json first_config pt_empty) false)
             = Ok (inr false, Reading _ _ first_config t' false).
Proof. apply config_read_back, first_config_ok. Qed.

(** The result of reading, whether the tree was upgraded, and the port. *)
Definition outcome (t : tree) : option ((exception + bool) * bool * Z) :=
  match node_config_deserialize_json (Reading _ _ (node_config_default 4) t false) with
  | Ok (r, s) => Some (r, rd_upgraded s, peering_port (rd_object s))
  | Fault _ => None
  end.

Definition with_version (v : string) (t : tree) : tree := put "version" (str v) (pt_erase (str "lmdb_max_dbs") t).

Example config_outcomes :
  let t := node_config_json first_config pt_empty in
  outcome t = Some (inr false, false, 54000) /\ outcome (with_version "7" t) = Some (inr false, true, 54000)
  /\ outcome (with_version "6" t) = Some (inr true, true, 54000 ) /\ outcome (with_version "x" t) = Some (inl Logic_error, false, 54000).
Proof. vm_compute. split_and!; reflexivity. Qed.

(** The port is cut to 16 bits before it is compared with the largest port. *)
Example big_peering_port : outcome (put "peering_port" (str "70000") (node_config_json first_config pt_empty)) = Some (inr false, false, 4464).
Proof. vm_compute. reflexivity. Qed.
