(* ===== verification/Rpc.v ===== *)
(** * Remote procedure calls: requests, answers and conversions (rai/node/rpc.cpp)

    A request is a property tree; its handler reads it, works on the node and
    answers with property trees through the function [response].  A handler is a
    computation on the state of the node that can throw: what it changed and
    answered before is not undone.  Answers are recorded with the number of their
    request, in order; so are the calls to parts of the node that are not in this
    state.

    The texts of large numbers ([convert_to<std::string>] writes what a stream
    writes) come from the class [NumberStream]. *)
From Stdlib Require Import ZArith Lia List Ascii String.
From stdpp Require Import prelude strings gmap sorting.
From S2P Require Import Prelude Numbers Streams Blocks Store Ledger Votes Work Unchecked Processor Peers BootstrapServer Wallet WalletActions NumberText Json Conversions.

Abbreviation text := (list ascii) (only parsing).

(** ** State *)

(** A wallet, with the accounts that may be used for payments. *)
Record wallet := MkWallet { w_store : wallet_store; free_accounts : gset Z }.

(** [payment_observer]: the request that waits, and the flag [completed]. *)
Record payment_observer := PaymentObserver {
  po_request : nat;
  po_account : account;
  po_amount : amount;
  po_completed : bool
}.

(** What is run in the background for a wallet. *)
Inductive rpc_task :=
| Wallet_task (t : background_task)
| Search_pending
| Enter_initial_password.

(** What is asked of parts that are not in the state. *)
Inductive node_call :=
| Bootstrap_to (address port : Z)
| Bootstrap_any
| Keepalive (address : text) (port : Z)
| Republish (b : option block)
| Work_generate (request : nat) (h : block_hash)
| Work_cancel (h : block_hash)
| Timeout_at (observer : nat) (timeout : Z)
| Stop.

Section State.
Context `{PropertyTree}.

Record rpc_node := RpcNode {
  rn_node : node;
  rn_arrival : block_arrival;
  rn_items : gmap Z wallet;                         (* [wallets.items] *)
  rn_actions : list (Z * (Z * wallet_action));      (* [wallets.actions], with their wallets *)
  rn_background : list (Z * rpc_task);
  rn_receive_minimum : amount;
  rn_work_peers : list (Z * Z);
  rn_peers : peer_container;
  rn_observers : list payment_observer;             (* all there ever were *)
  rn_payments : gmap Z nat;                         (* [payment_observers], by their places *)
  rn_calls : list node_call;
  rn_responses : list (nat * ptree)
}.

Definition rn_store (n : rpc_node) : store := n_store (rn_node n).

Definition set_node f n := RpcNode (f (rn_node n)) (rn_arrival n) (rn_items n) (rn_actions n) (rn_background n) (rn_receive_minimum n) (rn_work_peers n) (rn_peers n) (rn_observers n) (rn_payments n) (rn_calls n) (rn_responses n).
Definition set_arrival f n := RpcNode (rn_node n) (f (rn_arrival n)) (rn_items n) (rn_actions n) (rn_background n) (rn_receive_minimum n) (rn_work_peers n) (rn_peers n) (rn_observers n) (rn_payments n) (rn_calls n) (rn_responses n).
Definition set_items f n := RpcNode (rn_node n) (rn_arrival n) (f (rn_items n)) (rn_actions n) (rn_background n) (rn_receive_minimum n) (rn_work_peers n) (rn_peers n) (rn_observers n) (rn_payments n) (rn_calls n) (rn_responses n).
Definition set_actions f n := RpcNode (rn_node n) (rn_arrival n) (rn_items n) (f (rn_actions n)) (rn_background n) (rn_receive_minimum n) (rn_work_peers n) (rn_peers n) (rn_observers n) (rn_payments n) (rn_calls n) (rn_responses n).
Definition set_tasks f n := RpcNode (rn_node n) (rn_arrival n) (rn_items n) (rn_actions n) (f (rn_background n)) (rn_receive_minimum n) (rn_work_peers n) (rn_peers n) (rn_observers n) (rn_payments n) (rn_calls n) (rn_responses n).
Definition set_receive_minimum f n := RpcNode (rn_node n) (rn_arrival n) (rn_items n) (rn_actions n) (rn_background n) (f (rn_receive_minimum n)) (rn_work_peers n) (rn_peers n) (rn_observers n) (rn_payments n) (rn_calls n) (rn_responses n).
Definition set_work_peers f n := RpcNode (rn_node n) (rn_arrival n) (rn_items n) (rn_actions n) (rn_background n) (rn_receive_minimum n) (f (rn_work_peers n)) (rn_peers n) (rn_observers n) (rn_payments n) (rn_calls n) (rn_responses n).
Definition set_observers f n := RpcNode (rn_node n) (rn_arrival n) (rn_items n) (rn_actions n) (rn_background n) (rn_receive_minimum n) (rn_work_peers n) (rn_peers n) (f (rn_observers n)) (rn_payments n) (rn_calls n) (rn_responses n).
Definition set_payments f n := RpcNode (rn_node n) (rn_arrival n) (rn_items n) (rn_actions n) (rn_background n) (rn_receive_minimum n) (rn_work_peers n) (rn_peers n) (rn_observers n) (f (rn_payments n)) (rn_calls n) (rn_responses n).
Definition set_calls f n := RpcNode (rn_node n) (rn_arrival n) (rn_items n) (rn_actions n) (rn_background n) (rn_receive_minimum n) (rn_work_peers n) (rn_peers n) (rn_observers n) (rn_payments n) (f (rn_calls n)) (rn_responses n).
Definition set_responses f n := RpcNode (rn_node n) (rn_arrival n) (rn_items n) (rn_actions n) (rn_background n) (rn_receive_minimum n) (rn_work_peers n) (rn_peers n) (rn_observers n) (rn_payments n) (rn_calls n) (f (rn_responses n)).

(** ** Handlers *)

Definition handler (A : Type) : Type := exceptional rpc_node A.

(** A computation on the ledger, and on the node. *)
Definition on_processor {A} (m : M node A) : handler A := fun n =>
  match m (rn_node n) with Ok (a, x) => Ok (inr a, set_node (fun _ => x) n) | Fault f => Fault f end.
Definition on_ledger_h {A} (m : M store A) : handler A := on_processor (on_ledger m).
Definition on_arrival_h {A} (m : M block_arrival A) : handler A := fun n =>
  match m (rn_arrival n) with Ok (a, x) => Ok (inr a, set_arrival (fun _ => x) n) | Fault f => Fault f end.

Definition call (c : node_call) : handler unit := h_put (set_calls (fun l => l ++ [c])).
End State.

Local Open Scope rpc_scope.

(** ** A request *)

Section Request.
Context `{PropertyTree, NumberStream}.
Context (request_no : nat) (request : ptree).

Definition respond (t : ptree) : handler unit := h_put (set_responses (fun l => l ++ [(request_no, t)])).

Definition error_response (message_a : string) : handler unit := respond (put "error" (str message_a) pt_empty).

(** [get<std::string>], [get_optional<std::string>], [get_child] and the value of a
    [get_optional<bool>]. *)
Definition get (k : string) : handler text := match pt_get request (str k) with Some t => h_ret t | None => throw Runtime_error end.
Definition get_optional (k : string) : option text := pt_get request (str k).
Definition get_child (k : string) : handler ptree := match pt_get_child request (str k) with Some t => h_ret t | None => throw Runtime_error end.
Definition flag (k : string) (otherwise : bool) : bool := default otherwise (pt_get_bool request (str k)).

(** A text is decoded and the handler goes on, or fails. *)
Definition on_account (t : text) (otherwise : handler unit) (k : account -> handler unit) : handler unit :=
  let! r := h_res (decode_account 0 t) in
  let '(error, a) := r in if error : bool then otherwise else k a.
Definition on_hex (t : text) (otherwise : handler unit) (k : Z -> handler unit) : handler unit :=
  match decode_hex256 t with Some h => k h | None => otherwise end.
Definition on_dec (t : text) (otherwise : handler unit) (k : Z -> handler unit) : handler unit :=
  match decode_dec128 t with Some m => k m | None => otherwise end.
Definition on_unsigned (t : text) (otherwise : handler unit) (k : Z -> handler unit) : handler unit :=
  let '(error, n) := decode_unsigned t 0 in if error : bool then otherwise else k n.

(** An optional number: the handler answers with an error and goes on. *)
Definition optional_unsigned (k : string) (number : Z) (message : string) : handler Z :=
  match get_optional k with
  | None => h_ret number
  | Some t =>
      let '(error, n) := decode_unsigned t number in
      (if error : bool then error_response message else h_ret tt) ;! h_ret n
  end.
Definition optional_dec (k : string) (number : Z) (message : string) : handler Z :=
  match get_optional k with
  | None => h_ret number
  | Some t =>
      let '(error, n) := decode_dec_into number t in
      (if error : bool then error_response message else h_ret tt) ;! h_ret n
  end.
Definition optional_hex (k : string) (number : Z) (message : string) : handler Z :=
  match get_optional k with
  | None => h_ret number
  | Some t =>
      let '(error, n) := decode_hex_into number t in
      (if error : bool then error_response message else h_ret tt) ;! h_ret n
  end.
Definition optional_account (k : string) (number : account) (message : string) : handler account :=
  match get_optional k with
  | None => h_ret number
  | Some t =>
      let! r := h_res (decode_account number t) in
      let '(error, a) := r in
      (if error : bool then error_response message else h_ret tt) ;! h_ret a
  end.
Definition optional_work (k : string) (number : Z) (message : string) : handler Z :=
  match get_optional k with
  | None => h_ret number
  | Some t =>
      let! r := h_res (from_string_hex t number) in
      let '(error, w) := r in
      (if error : bool then error_response message else h_ret tt) ;! h_ret w
  end.

Definition uint64_max : Z := 2 ^ 64 - 1.

(** Decimal text of a large number. *)
Definition dec (n : Z) : text := put_dec n.

(** [entry.put ("", v)], pushed to the end. *)
Definition push_text (v : text) (t : ptree) : ptree := pt_push_back [] (pt_put [] v pt_empty) t.
Definition add_child (k : string) (c t : ptree) : ptree := pt_add_child (str k) c t.

(** ** Handlers without state *)

Definition account_get : handler unit :=
  let! key_text := get "key" in
  on_hex key_text (error_response "Bad public key") (fun pub =>
    respond (put "account" (to_account pub) pt_empty)).

Definition account_key : handler unit :=
  let! account_text := get "account" in
  on_account account_text (error_response "Bad account number") (fun account =>
    respond (put "key" (to_string account) pt_empty)).

Definition validate_account_number : handler unit :=
  let! account_text := get "account" in
  let! r := h_res (decode_account 0 account_text) in
  respond (put "valid" (str (if fst r : bool then "0" else "1")) pt_empty).

Definition mrai_from_raw : handler unit :=
  let! amount_text := get "amount" in
  on_dec amount_text (error_response "Bad amount number") (fun amount =>
    respond (put "amount" (dec (amount / Mxrb_ratio)) pt_empty)).
Definition mrai_to_raw : handler unit :=
  let! amount_text := get "amount" in
  on_dec amount_text (error_response "Bad amount number") (fun amount =>
    let result := wrap 128 (amount * Mxrb_ratio) in
    if amount <? result then respond (put "amount" (dec result) pt_empty)
    else error_response "Amount too big").
Definition krai_from_raw : handler unit :=
  let! amount_text := get "amount" in
  on_dec amount_text (error_response "Bad amount number") (fun amount =>
    respond (put "amount" (dec (amount / kxrb_ratio)) pt_empty)).
Definition krai_to_raw : handler unit :=
  let! amount_text := get "amount" in
  on_dec amount_text (error_response "Bad amount number") (fun amount =>
    let result := wrap 128 (amount * kxrb_ratio) in
    if amount <? result then respond (put "amount" (dec result) pt_empty)
    else error_response "Amount too big").
Definition rai_from_raw : handler unit :=
  let! amount_text := get "amount" in
  on_dec amount_text (error_response "Bad amount number") (fun amount =>
    respond (put "amount" (dec (amount / xrb_ratio)) pt_empty)).
Definition rai_to_raw : handler unit :=
  let! amount_text := get "amount" in
  on_dec amount_text (error_response "Bad amount number") (fun amount =>
    let result := wrap 128 (amount * xrb_ratio) in
    if amount <? result then respond (put "amount" (dec result) pt_empty)
    else error_response "Amount too big").

Section Keys.
Context `{WalletCrypto}.

Definition key_answer (prv : Z) : ptree :=
  let pub := ed25519_publickey prv in
  put "account" (to_account pub) (put "public" (to_string pub) (put "private" (to_string prv) pt_empty)).

Definition rpc_deterministic_key : handler unit :=
  let! seed_text := get "seed" in
  let! index_text := get "index" in
  on_hex seed_text (error_response "Bad seed") (fun seed =>
    on_unsigned index_text (error_response "Invalid index") (fun index_a =>
      respond (key_answer (derived_key seed index_a)))).

(** The private key is drawn. *)
Definition key_create (prv : Z) : handler unit := respond (key_answer prv).

Definition key_expand : handler unit :=
  let! key_text := get "key" in
  on_hex key_text (error_response "Bad private key") (fun prv => respond (key_answer prv)).
End Keys.

Definition rpc_work_validate `{Network} : handler unit :=
  let! hash_text := get "hash" in
  on_hex hash_text (error_response "Bad block hash") (fun hash =>
    let! work_text := get "work" in
    let! r := h_res (from_string_hex work_text 0) in
    let '(work_error, work) := r in
    if negb work_error then respond (put "valid" (str (if work_validate hash work then "0" else "1")) pt_empty)
    else error_response "Bad work").
End Request.
