(* ===== verification/RpcLedger.v ===== *)
(** * Remote procedure calls: the ledger (rai/node/rpc.cpp)

    The handlers that look something up in the ledger and in the table of unchecked
    blocks.  The tables are walked in the order of their keys.  Loops along a chain
    take the fuel of the environment. *)
From Stdlib Require Import ZArith Lia List Ascii String.
From stdpp Require Import prelude strings gmap sorting.
From S2P Require Import Prelude Numbers Streams Blocks Store Ledger Votes Work Unchecked Processor Peers BootstrapServer Wallet WalletActions NumberText Json Conversions Rpc.

Local Open Scope rpc_scope.
Abbreviation text := (list ascii) (only parsing).

(** ** Walks over tables *)

(** The entries of a table that an iterator from [(a, 0)] to [(a + 1, 0)] meets, and
    whether it then leaves the table. *)
Definition pending_walk (s : store) (a : account) : list (pending_key * pending_info) * bool :=
  let end_ := wrap 256 (a + 1) in
  let from := filter (fun x => a <= fst (fst x)) (pending_entries s) in
  if is_zero end_ then if bool_decide (from = pending_entries s) then ([], false) else (from, true)
  else (filter (fun x => fst (fst x) < end_) from, false).

(** [std::sort] and [std::reverse] of pairs of an amount and an account or its text. *)
Definition balance_le (x y : Z * Z) : Prop := fst x < fst y \/ fst x = fst y /\ snd x <= snd y.
#[export] Instance balance_le_dec x y : Decision (balance_le x y).
Proof. unfold balance_le. apply _. Defined.

Fixpoint text_leb (a b : text) : bool :=
  match a, b with
  | [], _ => true
  | _ :: _, [] => false
  | x :: a, y :: b => (Numbers.code x <? Numbers.code y) || (Numbers.code x =? Numbers.code y) && text_leb a b
  end.
Definition weight_le (x y : Z * text) : Prop := fst x < fst y \/ fst x = fst y /\ text_leb (snd x) (snd y) = true.
#[export] Instance weight_le_dec x y : Decision (weight_le x y).
Proof. unfold weight_le. apply _. Defined.

Section Handlers.
Context `{PropertyTree, NumberStream, Environment}.
Context (enable_control : bool) (request_no : nat) (request : ptree).

Local Abbreviation respond := (respond request_no).
Local Abbreviation error_response := (error_response request_no).
Local Abbreviation get := (get request).
Local Abbreviation get_child := (get_child request).
Local Abbreviation flag := (flag request).

Definition the_store : handler store := h_get rn_store.

(** Unless [enable_control] is set, the handler only says so. *)
Definition controlled (m : handler unit) : handler unit :=
  if enable_control then m else error_response "RPC control is disabled".

(** [node::balance_pending], [node::weight] and [node::balance]. *)
Definition node_balance_pending (a : account) : handler (Z * Z) :=
  let! s := the_store in
  let! p := h_res (account_pending s a) in
  h_ret (account_balance s a, p).
Definition node_weight (a : account) : handler Z := h_get (fun n => weight (rn_store n) a).
Definition node_balance (a : account) : handler Z := h_get (fun n => account_balance (rn_store n) a).

(** ** Accounts *)

Definition balance_answer (x : Z * Z) : ptree := put "pending" (dec (snd x)) (put "balance" (dec (fst x)) pt_empty).

Definition rpc_account_balance : handler unit :=
  let! account_text := get "account" in
  on_account account_text (error_response "Bad account number") (fun account =>
    let! balance := node_balance_pending account in
    respond (balance_answer balance)).

Definition account_block_count : handler unit :=
  let! account_text := get "account" in
  on_account account_text (error_response "Bad account number") (fun account =>
    let! s := the_store in
    match Store.account_get s account with
    | Some info => respond (put "block_count" (to_dec (block_count info)) pt_empty)
    | None => error_response "Account not found"
    end).

(** What [account_info] and [ledger] tell of an account, put into a tree. *)
Definition info_answer (s : store) (a : account) (i : Store.account_info) (balance : Z)
    (representative weight_ pending_ : bool) (t : ptree) : handler ptree :=
  let t := put "frontier" (to_string (head i)) t in
  let t := put "open_block" (to_string (open_block_hash i)) t in
  let t := put "representative_block" (to_string (rep_block i)) t in
  let t := put "balance" (encode_dec128 balance) t in
  let t := put "modified_timestamp" (to_dec (modified i)) t in
  let t := put "block_count" (to_dec (block_count i)) t in
  let! t := (if representative then
               match block_get s (rep_block i) with
               | None => h_fault Assertion_failed
               | Some b => h_ret (put "representative" (to_account (Blocks.representative b)) t)
               end
             else h_ret t) in
  let t := if weight_ then put "weight" (dec (weight s a)) t else t in
  if pending_ then
    let! p := h_res (account_pending s a) in
    h_ret (put "pending" (dec p) t)
  else h_ret t.

Definition account_info : handler unit :=
  let! account_text := get "account" in
  on_account account_text (error_response "Bad account number") (fun account =>
    let representative := flag "representative" false in
    let weight := flag "weight" false in
    let pending := flag "pending" false in
    let! s := the_store in
    match Store.account_get s account with
    | Some info =>
        let! t := info_answer s account info (balance_of info) representative weight pending pt_empty in
        respond t
    | None => error_response "Account not found"
    end).

Definition account_representative : handler unit :=
  let! account_text := get "account" in
  on_account account_text (error_response "Bad account number") (fun account =>
    let! s := the_store in
    match Store.account_get s account with
    | Some info =>
        match block_get s (rep_block info) with
        | None => h_fault Assertion_failed
        | Some b => respond (put "representative" (to_account (representative b)) pt_empty)
        end
    | None => error_response "Account not found"
    end).

Definition account_weight : handler unit :=
  let! account_text := get "account" in
  on_account account_text (error_response "Bad account number") (fun account =>
    let! balance := node_weight account in
    respond (put "weight" (dec balance) pt_empty)).

(** An error is answered for every bad account, and the rest goes on. *)
Fixpoint accounts_balances_loop (accounts : list (text * ptree)) (balances : ptree) : handler ptree :=
  match accounts with
  | [] => h_ret balances
  | (_, c) :: accounts =>
      let! r := h_res (decode_account 0 (pt_data c)) in
      let '(error, account) := r in
      if negb error then
        let! balance := node_balance_pending account in
        accounts_balances_loop accounts (pt_push_back (to_account account) (balance_answer balance) balances)
      else error_response "Bad account number" ;! accounts_balances_loop accounts balances
  end.

Definition accounts_balances : handler unit :=
  let! accounts := get_child "accounts" in
  let! balances := accounts_balances_loop (pt_children accounts) pt_empty in
  respond (add_child "balances" balances pt_empty).

Fixpoint accounts_frontiers_loop (accounts : list (text * ptree)) (frontiers : ptree) : handler ptree :=
  match accounts with
  | [] => h_ret frontiers
  | (_, c) :: accounts =>
      let! r := h_res (decode_account 0 (pt_data c)) in
      let '(error, account) := r in
      if negb error then
        let! latest := h_get (fun n => latest (rn_store n) account) in
        accounts_frontiers_loop accounts
          (if negb (is_zero latest) then pt_put (to_account account) (to_string latest) frontiers else frontiers)
      else error_response "Bad account number" ;! accounts_frontiers_loop accounts frontiers
  end.

Definition accounts_frontiers : handler unit :=
  let! accounts := get_child "accounts" in
  let! frontiers := accounts_frontiers_loop (pt_children accounts) pt_empty in
  respond (add_child "frontiers" frontiers pt_empty).

(** ** Pending blocks *)

Definition pending_entry (threshold : Z) (source : bool) (x : pending_key * pending_info) (peers_l : ptree) : ptree :=
  let '((_, h), info) := x in
  if is_zero threshold && negb source then push_text (to_string h) peers_l
  else if threshold <=? pi_amount info then
    if source then
      pt_add_child (to_string h)
        (put "source" (to_account (pi_source info)) (put "amount" (dec (pi_amount info)) pt_empty)) peers_l
    else pt_put (to_string h) (dec (pi_amount info)) peers_l
  else peers_l.

Fixpoint pending_loop (count threshold : Z) (source : bool) (walk : list (pending_key * pending_info)) (leaves : bool) (peers_l : ptree) : res ptree :=
  match walk with
  | [] => if leaves && (Z.of_nat (pt_size peers_l) <? count) then Fault Assertion_failed else Ok peers_l
  | x :: walk =>
      if Z.of_nat (pt_size peers_l) <? count
      then pending_loop count threshold source walk leaves (pending_entry threshold source x peers_l)
      else Ok peers_l
  end.

Definition pending_tree (s : store) (count threshold : Z) (source : bool) (account : account) : res ptree :=
  let '(walk, leaves) := pending_walk s account in pending_loop count threshold source walk leaves pt_empty.

Fixpoint accounts_pending_loop (count threshold : Z) (source : bool) (accounts : list (text * ptree)) (pending : ptree) : handler ptree :=
  match accounts with
  | [] => h_ret pending
  | (_, c) :: accounts =>
      let! r := h_res (decode_account 0 (pt_data c)) in
      let '(error, account) := r in
      if negb error then
        let! s := the_store in
        let! peers_l := h_res (pending_tree s count threshold source account) in
        accounts_pending_loop count threshold source accounts (pt_add_child (to_account account) peers_l pending)
      else error_response "Bad account number" ;! accounts_pending_loop count threshold source accounts pending
  end.

Definition accounts_pending : handler unit :=
  let! count := optional_unsigned request_no request "count" uint64_max "Invalid count limit" in
  let! threshold := optional_dec request_no request "threshold" 0 "Bad threshold number" in
  let source := flag "source" false in
  let! accounts := get_child "accounts" in
  let! pending := accounts_pending_loop count threshold source (pt_children accounts) pt_empty in
  respond (add_child "blocks" pending pt_empty).

Definition rpc_pending : handler unit :=
  let! account_text := get "account" in
  on_account account_text (error_response "Bad account number") (fun account =>
    let! count := optional_unsigned request_no request "count" uint64_max "Invalid count limit" in
    let! threshold := optional_dec request_no request "threshold" 0 "Bad threshold number" in
    let source := flag "source" false in
    let! s := the_store in
    let! peers_l := h_res (pending_tree s count threshold source account) in
    respond (add_child "blocks" peers_l pt_empty)).

(** Whether a block is a send that was not received. *)
Definition send_pending (s : store) (h : block_hash) (b : block) : bool :=
  match b with Send b => Store.pending_exists s (sh_destination (send_h b), h) | _ => false end.

Definition rpc_pending_exists : handler unit :=
  let! hash_text := get "hash" in
  on_hex hash_text (error_response "Bad hash number") (fun hash =>
    let! s := the_store in
    match block_get s hash with
    | Some block => respond (put "exists" (str (if send_pending s hash block then "1" else "0")) pt_empty)
    | None => error_response "Block not found"
    end).

(** ** Supply *)

Definition landing_account : account := 0x059F68AAB29DE0D3A27443625C7EA9CDDB6517A8B76FE37727EF6A4D76832AD5.
Definition faucet_account : account := 0x8E319CE6F3025E5B2DF66DA7AB1467FE48F1679C13DD43BFDB29FA2E9FC40D3B.

Definition available_supply : handler unit :=
  let! genesis_balance := node_balance genesis_account in
  let! landing_balance := node_balance landing_account in
  let! faucet_balance := node_balance faucet_account in
  let! burned := node_balance_pending 0 in
  let available :=
    wrap 128 (wrap 128 (wrap 128 (wrap 128 (genesis_amount - genesis_balance) - landing_balance) - faucet_balance) - snd burned) in
  respond (put "available" (dec available) pt_empty).

(** ** Blocks *)

Definition rpc_block : handler unit :=
  let! hash_text := get "hash" in
  on_hex hash_text (error_response "Bad hash number") (fun hash =>
    let! s := the_store in
    match block_get s hash with
    | Some block => respond (put "contents" (serialize_json block) pt_empty)
    | None => error_response "Block not found"
    end).

Fixpoint blocks_loop (hashes : list (text * ptree)) (blocks : ptree) : handler ptree :=
  match hashes with
  | [] => h_ret blocks
  | (_, c) :: hashes =>
      match decode_hex256 (pt_data c) with
      | Some hash =>
          let! s := the_store in
          match block_get s hash with
          | Some block => blocks_loop hashes (pt_put (pt_data c) (serialize_json block) blocks)
          | None => error_response "Block not found" ;! blocks_loop hashes blocks
          end
      | None => error_response "Bad hash number" ;! blocks_loop hashes blocks
      end
  end.

Definition rpc_blocks : handler unit :=
  let! hashes := get_child "hashes" in
  let! blocks := blocks_loop (pt_children hashes) pt_empty in
  respond (add_child "blocks" blocks pt_empty).

(** What [blocks_info] tells of a block. *)
Definition block_answer (pending source : bool) (hash : block_hash) (block : block) : handler ptree :=
  let! account := on_ledger_h (ledger_account hash) in
  let! s := the_store in
  let! amount := h_res (amount_of s hash) in
  let t := put "contents" (serialize_json block) (put "amount" (dec amount) (put "block_account" (to_account account) pt_empty)) in
  let t := if pending then put "pending" (str (if send_pending s hash block then "1" else "0")) t else t in
  if source then
    let source_hash := Blocks.source block in
    match block_get s source_hash with
    | Some _ =>
        let! source_account := on_ledger_h (ledger_account source_hash) in
        h_ret (put "source_account" (to_account source_account) t)
    | None => h_ret (put "source_account" (str "0") t)
    end
  else h_ret t.

Fixpoint blocks_info_loop (pending source : bool) (hashes : list (text * ptree)) (blocks : ptree) : handler ptree :=
  match hashes with
  | [] => h_ret blocks
  | (_, c) :: hashes =>
      match decode_hex256 (pt_data c) with
      | Some hash =>
          let! s := the_store in
          match block_get s hash with
          | Some block =>
              let! entry := block_answer pending source hash block in
              blocks_info_loop pending source hashes (pt_push_back (pt_data c) entry blocks)
          | None => error_response "Block not found" ;! blocks_info_loop pending source hashes blocks
          end
      | None => error_response "Bad hash number" ;! blocks_info_loop pending source hashes blocks
      end
  end.

Definition rpc_blocks_info : handler unit :=
  let pending := flag "pending" false in
  let source := flag "source" false in
  let! hashes := get_child "hashes" in
  let! blocks := blocks_info_loop pending source (pt_children hashes) pt_empty in
  respond (add_child "blocks" blocks pt_empty).

Definition block_account : handler unit :=
  let! hash_text := get "hash" in
  on_hex hash_text (error_response "Invalid block hash") (fun hash =>
    let! s := the_store in
    if block_exists s hash then
      let! account := on_ledger_h (ledger_account hash) in
      respond (put "account" (to_account account) pt_empty)
    else error_response "Block not found").

Definition rpc_block_count : handler unit :=
  let! s := the_store in
  let! u := h_get (fun n => n_unchecked (rn_node n)) in
  respond (put "unchecked" (to_dec (Z.of_nat (unchecked_count u)))
             (put "count" (to_dec (Z.of_nat (block_counts_sum (block_count_of s)))) pt_empty)).

Definition block_count_type : handler unit :=
  let! s := the_store in
  let count := block_count_of s in
  let t := put "send" (to_dec (Z.of_nat (count_send count))) pt_empty in
  let t := put "receive" (to_dec (Z.of_nat (count_receive count))) t in
  let t := put "open" (to_dec (Z.of_nat (count_open count))) t in
  respond (put "change" (to_dec (Z.of_nat (count_change count))) t).

(** ** Chains *)

(** The loops of [successors] and [chain]: [next] is the hash that follows. *)
Fixpoint chain_loop (fuel : nat) (s : store) (next : block_hash -> block -> block_hash) (count : Z) (h : block_hash) (blocks : ptree) : res ptree :=
  if negb (is_zero h) && (Z.of_nat (pt_size blocks) <? count) then
    match fuel with
    | O => Fault Out_of_fuel
    | S fuel =>
        match block_get s h with
        | Some b => chain_loop fuel s next count (next h b) (push_text (to_string h) blocks)
        | None => chain_loop fuel s next count 0 blocks
        end
    end
  else Ok blocks.

Definition chain_answer (next : store -> block_hash -> block -> block_hash) : handler unit :=
  let! block_text := get "block" in
  let! count_text := get "count" in
  on_hex block_text (error_response "Invalid block hash") (fun block =>
    on_unsigned count_text (error_response "Invalid count limit") (fun count =>
      let! s := the_store in
      let! blocks := h_res (chain_loop loop_fuel s (next s) count block pt_empty) in
      respond (add_child "blocks" blocks pt_empty))).

Definition successors : handler unit := chain_answer (fun s h _ => block_successor s h).
Definition chain : handler unit := chain_answer (fun _ _ b => previous b).

(** ** Delegators and representatives *)

(** What the loops of [delegators] and [delegators_count] do with the accounts that
    have the representative [account]. *)
Fixpoint delegators_loop {A} (s : store) (rep : account) (found : account -> Store.account_info -> A -> A)
    (l : list (Z * Store.account_info)) (acc : A) : res A :=
  match l with
  | [] => Ok acc
  | (a, info) :: l =>
      match block_get s (rep_block info) with
      | None => Fault Assertion_failed
      | Some b => delegators_loop s rep found l (if representative b =? rep then found a info acc else acc)
      end
  end.

Definition delegators : handler unit :=
  let! account_text := get "account" in
  on_account account_text (error_response "Bad account number") (fun account =>
    let! s := the_store in
    let! delegators := h_res (delegators_loop s account
      (fun a info t => pt_put (to_account a) (encode_dec128 (balance_of info)) t) (table_from 0 (accounts s)) pt_empty) in
    respond (add_child "delegators" delegators pt_empty)).

Definition delegators_count : handler unit :=
  let! account_text := get "account" in
  on_account account_text (error_response "Bad account number") (fun account =>
    let! s := the_store in
    let! count := h_res (delegators_loop s account (fun _ _ count => wrap 64 (count + 1)) (table_from 0 (accounts s)) 0) in
    respond (put "count" (to_dec count) pt_empty)).

Fixpoint put_loop (count : Z) (l : list (text * text)) (t : ptree) : ptree :=
  match l with
  | [] => t
  | (k, v) :: l => if Z.of_nat (pt_size t) <? count then put_loop count l (pt_put k v t) else t
  end.

Definition representatives : handler unit :=
  let! count := optional_unsigned request_no request "count" uint64_max "Invalid count limit" in
  let sorting := flag "sorting" false in
  let! s := the_store in
  let rows := map (fun x => (representation_get s (fst x), to_account (fst x))) (table_from 0 (representation s)) in
  let rows := if sorting then rev (merge_sort weight_le rows) else rows in
  respond (add_child "representatives" (put_loop count (map (fun x => (snd x, dec (fst x))) rows) pt_empty) pt_empty).

(** ** Frontiers and the whole ledger *)

Definition rpc_frontiers : handler unit :=
  let! account_text := get "account" in
  let! count_text := get "count" in
  on_account account_text (error_response "Invalid starting account") (fun start =>
    on_unsigned count_text (error_response "Invalid count limit") (fun count =>
      let! s := the_store in
      let rows := map (fun x => (to_account (fst x), to_string (head (snd x)))) (table_from start (accounts s)) in
      respond (add_child "frontiers" (put_loop count rows pt_empty) pt_empty))).

Definition rpc_frontier_count : handler unit :=
  let! s := the_store in
  respond (put "count" (to_dec (Z.of_nat (frontier_count s))) pt_empty).

(** Every account gets a tree of its own. *)
Fixpoint ledger_loop (s : store) (count : Z) (representative weight_ pending_ : bool) (l : list (Z * Store.account_info)) (accounts : ptree) : handler ptree :=
  match l with
  | [] => h_ret accounts
  | (a, info) :: l =>
      if Z.of_nat (pt_size accounts) <? count then
        let! t := info_answer s a info (balance_of info) representative weight_ pending_ pt_empty in
        ledger_loop s count representative weight_ pending_ l (pt_push_back (to_account a) t accounts)
      else h_ret accounts
  end.

(** The tree [response_l] and the variable [info] are shared by the turns. *)
Fixpoint ledger_sorted_loop (s : store) (count : Z) (representative weight_ pending_ : bool) (l : list (Z * Z))
    (info : Store.account_info) (response_l accounts : ptree) : handler ptree :=
  match l with
  | [] => h_ret accounts
  | (balance, a) :: l =>
      if Z.of_nat (pt_size accounts) <? count then
        let info := default info (Store.account_get s a) in
        let! t := info_answer s a info balance representative weight_ pending_ response_l in
        ledger_sorted_loop s count representative weight_ pending_ l info t (pt_push_back (to_account a) t accounts)
      else h_ret accounts
  end.

Definition ledger : handler unit :=
  controlled (
    let! start := optional_account request_no request "account" 0 "Invalid starting account" in
    let! count := optional_unsigned request_no request "count" uint64_max "Invalid count limit" in
    let sorting := flag "sorting" false in
    let representative := flag "representative" false in
    let weight := flag "weight" false in
    let pending := flag "pending" false in
    let! s := the_store in
    let! accounts :=
      (if negb sorting then ledger_loop s count representative weight pending (table_from start (accounts s)) pt_empty
       else
         let ledger_l := map (fun x => (balance_of (snd x), fst x)) (table_from start (accounts s)) in
         ledger_sorted_loop s count representative weight pending (rev (merge_sort balance_le ledger_l)) account_info_default pt_empty pt_empty) in
    respond (add_child "accounts" accounts pt_empty)).

(** ** History *)

(** [history_visitor]; a tree without children is not reported. *)
Definition history_visitor (hash : block_hash) (b : block) : handler ptree :=
  let! s := the_store in
  match b with
  | Send b =>
      let t := put "account" (to_account (sh_destination (send_h b))) (put "type" (str "send") pt_empty) in
      let! amount := h_res (amount_of s hash) in
      h_ret (put "amount" (dec amount) t)
  | SendV2 _ => h_ret pt_empty
  | Receive b =>
      let t := put "type" (str "receive") pt_empty in
      let! account := on_ledger_h (ledger_account (rh_source (receive_h b))) in
      let t := put "account" (to_account account) t in
      let! amount := h_res (amount_of s hash) in
      h_ret (put "amount" (dec amount) t)
  | Open b =>
      let t := put "type" (str "receive") pt_empty in
      if negb (oh_source (open_h b) =? genesis_account) then
        let! account := on_ledger_h (ledger_account (oh_source (open_h b))) in
        let t := put "account" (to_account account) t in
        let! amount := h_res (amount_of s hash) in
        h_ret (put "amount" (dec amount) t)
      else h_ret (put "amount" (dec genesis_amount) (put "account" (to_account genesis_account) t))
  | Change _ => h_ret pt_empty
  end.

Fixpoint history_loop (fuel : nat) (count : Z) (hash : block_hash) (history : ptree) : handler ptree :=
  let! s := the_store in
  match block_get s hash with
  | None => h_ret history
  | Some b =>
      if 0 <? count then
        match fuel with
        | O => h_fault Out_of_fuel
        | S fuel =>
            let! entry := history_visitor hash b in
            let history :=
              if (0 <? pt_size entry)%nat then pt_push_back [] (put "hash" (to_string hash) entry) history else history in
            history_loop fuel (count - 1) (previous b) history
        end
      else h_ret history
  end.

Definition history : handler unit :=
  let! hash_text := get "hash" in
  let! count_text := get "count" in
  on_hex hash_text (error_response "Invalid block hash") (fun hash =>
    on_unsigned count_text (error_response "Invalid count limit") (fun count =>
      let! history := history_loop loop_fuel count hash pt_empty in
      respond (add_child "history" history pt_empty))).

Definition account_history : handler unit :=
  let! account_text := get "account" in
  let! count_text := get "count" in
  on_account account_text (error_response "Bad account number") (fun account =>
    on_unsigned count_text (error_response "Invalid count limit") (fun count =>
      let! hash := h_get (fun n => latest (rn_store n) account) in
      let! history := history_loop loop_fuel count hash pt_empty in
      respond (add_child "history" history pt_empty))).

(** ** Unchecked blocks *)

(** A block of the table; a null pointer is followed. *)
Definition unchecked_block (bytes : list byte) : res block :=
  match deserialize_block bytes with
  | Got b _ => Ok b
  | Short => Fault Indeterminate_value
  | Rd_fault f => Fault f
  end.

Fixpoint unchecked_loop (count : Z) (l : list (Z * list byte)) (unchecked : ptree) : res ptree :=
  match l with
  | [] => Ok unchecked
  | (_, bytes) :: l =>
      if Z.of_nat (pt_size unchecked) <? count then
        match unchecked_block bytes with
        | Fault f => Fault f
        | Ok b => unchecked_loop count l (pt_put (to_string (hash b)) (serialize_json b) unchecked)
        end
      else Ok unchecked
  end.

Definition rpc_unchecked : handler unit :=
  let! count := optional_unsigned request_no request "count" uint64_max "Invalid count limit" in
  let! u := h_get (fun n => n_unchecked (rn_node n)) in
  let! unchecked := h_res (unchecked_loop count (unchecked_db u) pt_empty) in
  respond (add_child "blocks" unchecked pt_empty).

Definition rpc_unchecked_clear : handler unit :=
  controlled (
    on_processor (on_unchecked unchecked_clear) ;!
    respond (put "success" [] pt_empty)).

Fixpoint unchecked_find (h : block_hash) (l : list (Z * list byte)) : res (option block) :=
  match l with
  | [] => Ok None
  | (_, bytes) :: l =>
      match unchecked_block bytes with
      | Fault f => Fault f
      | Ok b => if hash b =? h then Ok (Some b) else unchecked_find h l
      end
  end.

Definition rpc_unchecked_get : handler unit :=
  let! hash_text := get "hash" in
  on_hex hash_text (error_response "Bad hash number") (fun hash =>
    let! u := h_get (fun n => n_unchecked (rn_node n)) in
    let! found := h_res (unchecked_find hash (unchecked_db u)) in
    match found with
    | Some block => respond (put "contents" (serialize_json block) pt_empty)
    | None => error_response "Unchecked block not found"
    end).

Fixpoint unchecked_keys_loop (count : Z) (l : list (Z * list byte)) (unchecked : ptree) : res ptree :=
  match l with
  | [] => Ok unchecked
  | (key, bytes) :: l =>
      if Z.of_nat (pt_size unchecked) <? count then
        match unchecked_block bytes with
        | Fault f => Fault f
        | Ok b =>
            unchecked_keys_loop count l
              (pt_push_back [] (put "contents" (serialize_json b) (put "hash" (to_string (hash b)) (put "key" (to_string key) pt_empty))) unchecked)
        end
      else Ok unchecked
  end.

Definition unchecked_keys : handler unit :=
  let! count := optional_unsigned request_no request "count" uint64_max "Invalid count limit" in
  let! key := optional_hex request_no request "key" 0 "Bad key hash number" in
  let! u := h_get (fun n => n_unchecked (rn_node n)) in
  let! unchecked := h_res (unchecked_keys_loop count (filter (fun x => key <= fst x) (unchecked_db u)) pt_empty) in
  respond (add_child "unchecked" unchecked pt_empty).

(** ** Submitting a block *)

Definition process_answer (code_ : process_result) (h : block_hash) : handler unit :=
  match code_ with
  | progress => respond (put "hash" (to_string h) pt_empty)
  | gap_previous => error_response "Gap previous block"
  | gap_source => error_response "Gap source block"
  | old => error_response "Old block"
  | bad_signature => error_response "Bad signature"
  | overspend => error_response "Overspend"
  | unreceivable => error_response "Unreceivable"
  | not_receive_from_send => error_response "Not receive from send"
  | fork => error_response "Fork"
  | account_mismatch => error_response "Account mismatch"
  | opened_burn_account => error_response "Error processing block"
  end.

Section Process.
Context `{NodeEnvironment, Network, Iteration, MultimapOrder}.

(** The observers are told of a block that was accepted before the answer. *)
Definition rpc_process (observed : account -> handler unit) : handler unit :=
  let! block_text := get "block" in
  match read_json block_text with
  | None => throw Runtime_error
  | Some block_l =>
      let! block := h_res (deserialize_block_json block_l) in
      match block with
      | Some block =>
          if negb (work_validate (root block) (block_work block)) then
            let h := hash block in
            on_arrival_h (arrival_add h) ;!
            let! result := on_processor (process_receive_one block) in
            (if bool_decide (code result = progress) then
               on_processor (emit [Blocks_observed block (ret_account result) (ret_amount result)]) ;!
               match ret_account result with Some a => observed a | None => h_ret tt end
             else h_ret tt) ;!
            process_answer (code result) h
          else error_response "Block work is invalid"
      | None => error_response "Block is invalid"
      end
  end.
End Process.
End Handlers.
