(* ===== verification/RpcWallet.v ===== *)
(** * Remote procedure calls: wallets (rai/node/rpc.cpp, rai/node/wallet.cpp)

    The handlers that work on the wallets of the node, the collection of wallets
    itself ([wallets::create], [destroy], [search_pending_all]) and the accounts set
    aside for payments.  What a wallet is to do later goes to the queue of actions;
    the handler has answered when the action calls back ([wallet_called]). *)
From Stdlib Require Import ZArith Lia List Ascii String.
From stdpp Require Import prelude strings gmap sorting.
From S2P Require Import Prelude Numbers Streams Blocks Store Ledger Votes Work Unchecked Processor Peers BootstrapServer Wallet WalletActions NumberText Json Conversions Rpc RpcLedger.

Local Open Scope rpc_scope.
Abbreviation text := (list ascii) (only parsing).

(** The bytes of a text. *)
Definition text_bytes (t : text) : list byte := map (fun c => byte.of_Z (Numbers.code c)) t.

(** ** A wallet of the node *)

Section Items.
Context `{PropertyTree}.

(** What is done to the table of a wallet, and to a wallet with its node: what goes
    to the queue and to the background keeps the number of the wallet. *)
Definition on_wallet_store {A} (id : Z) (m : M wallet_store A) : handler A := fun n =>
  match rn_items n !! id with
  | None => Fault Indeterminate_value
  | Some w =>
      match m (w_store w) with
      | Ok (a, x) => Ok (inr a, set_items (insert id (MkWallet x (free_accounts w))) n)
      | Fault f => Fault f
      end
  end.

Definition on_wallet {A} (id : Z) (m : M wallet_node A) : handler A := fun n =>
  match rn_items n !! id with
  | None => Fault Indeterminate_value
  | Some w =>
      match m (WalletNode (w_store w) (rn_node n) (rn_arrival n) [] [] []) with
      | Fault f => Fault f
      | Ok (a, x) =>
          Ok (inr a,
              set_node (fun _ => wn_node x)
              (set_arrival (fun _ => wn_arrival x)
              (set_items (insert id (MkWallet (wn_wallet x) (free_accounts w)))
              (set_actions (fun l => fold_left (fun l y => action_insert (fst y, (id, snd y)) l) (wn_actions x) l)
              (set_tasks (fun l => l ++ map (fun t => (id, Wallet_task t)) (wn_background x)) n)))))
      end
  end.

Definition set_free_accounts (id : Z) (f : gset Z -> gset Z) : handler unit :=
  h_put (set_items (alter (fun w => MkWallet (w_store w) (f (free_accounts w))) id)).

Definition in_background_h (id : Z) (t : rpc_task) : handler unit := h_put (set_tasks (fun l => l ++ [(id, t)])).
End Items.

(** ** Moving keys within a wallet *)

Section Aliased.
Context `{WalletCrypto, Network}.

(** [wallet_store::move] when the other wallet is this one. *)
Fixpoint move_keys_self (keys : list account) (result : bool) : M wallet_store bool :=
  match keys with
  | [] => st_ret result
  | k :: keys =>
      st_bind (st_get (fun w => fetch w k)) (fun prv =>
      match prv, result with
      | Some prv, false =>
          st_bind (insert_adhoc prv) (fun _ => st_bind (erase k) (fun _ => move_keys_self keys false))
      | _, _ => move_keys_self keys true
      end)
  end.
Definition wallet_move_self (keys : list account) : M wallet_store bool :=
  st_bind (st_get valid_password) (fun ok => st_bind (st_assert ok) (fun _ => move_keys_self keys false)).

(** What [fetch] leaves in [prv], whatever it returns. *)
Definition fetch_into (w : wallet_store) (pub : account) (prv : Z) : Z :=
  if valid_password w then
    let value := entry_get_raw w pub in
    if negb (is_zero (wv_key value)) then
      match key_type_of value with
      | deterministic => derived_key (seed w) (wrap 32 (wv_key value))
      | adhoc => decrypt (wv_key value) (wallet_key w) (salt_iv w)
      | _ => prv
      end
    else prv
  else prv.
End Aliased.

Section Handlers.
Context `{PropertyTree, NumberStream, Environment, WalletCrypto, Signing, NodeEnvironment, Network, Iteration, MultimapOrder, WorkSource}.
(** Fuel for the search for a key that is not there yet and for [accounts_create]. *)
Context (fuel : nat).
Context (enable_control : bool) (request_no : nat) (request : ptree).

Local Abbreviation respond := (respond request_no).
Local Abbreviation error_response := (error_response request_no).
Local Abbreviation get := (get request).
Local Abbreviation get_child := (get_child request).
Local Abbreviation flag := (flag request).
Local Abbreviation controlled := (controlled enable_control request_no).

(** The number of a wallet, and the wallet. *)
Definition on_item (wallet_text : text) (bad : string) (k : Z -> wallet -> handler unit) : handler unit :=
  on_hex wallet_text (error_response bad) (fun id =>
    let! existing := h_get (fun n => rn_items n !! id) in
    match existing with
    | Some w => k id w
    | None => error_response "Wallet not found"
    end).

(** ** Accounts of a wallet *)

Definition account_create : handler unit :=
  controlled (
    let! wallet_text := get "wallet" in
    on_item wallet_text "Bad wallet number" (fun id _ =>
      let generate_work := flag "work" true in
      let! new_key := on_wallet id (wallet_deterministic_insert_work fuel generate_work) in
      if negb (is_zero new_key) then respond (put "account" (to_account new_key) pt_empty)
      else error_response "Wallet is locked")).

Definition account_list : handler unit :=
  let! wallet_text := get "wallet" in
  on_item wallet_text "Bad wallet number" (fun id w =>
    let accounts := fold_left (fun t a => push_text (to_account a) t) (wallet_accounts (w_store w)) pt_empty in
    respond (add_child "accounts" accounts pt_empty)).

(** The accounts of the request are read without a look at errors. *)
Fixpoint move_accounts (l : list (text * ptree)) : res (list account) :=
  match l with
  | [] => Ok []
  | (_, c) :: l =>
      let t := pt_data c in
      match (if negb (length t =? 0)%nat && (length t <=? 64)%nat then get_hex 256 t else None) with
      | None => Fault Indeterminate_value
      | Some (a, _) => match move_accounts l with Ok l => Ok (a :: l) | Fault f => Fault f end
      end
  end.

Definition move_items (id source : Z) (accounts : list account) : handler bool :=
  if source =? id then on_wallet_store id (wallet_move_self accounts)
  else fun n =>
    match rn_items n !! id, rn_items n !! source with
    | Some w, Some s =>
        match wallet_move accounts (w_store w, w_store s) with
        | Ok (error, (w', s')) =>
            Ok (inr error, set_items (fun m => <[source := MkWallet s' (free_accounts s)]> (<[id := MkWallet w' (free_accounts w)]> m)) n)
        | Fault f => Fault f
        end
    | _, _ => Fault Indeterminate_value
    end.

Definition account_move : handler unit :=
  controlled (
    let! wallet_text := get "wallet" in
    let! source_text := get "source" in
    let! accounts_text := get_child "accounts" in
    on_item wallet_text "Bad wallet number" (fun id _ =>
      on_hex source_text (error_response "Bad source number") (fun source =>
        let! existing := h_get (fun n => rn_items n !! source) in
        match existing with
        | Some _ =>
            let! accounts := h_res (move_accounts (pt_children accounts_text)) in
            let! error := move_items id source accounts in
            respond (put "moved" (str (if error : bool then "0" else "1")) pt_empty)
        | None => error_response "Source not found"
        end))).

Definition account_remove : handler unit :=
  controlled (
    let! wallet_text := get "wallet" in
    let! account_text := get "account" in
    on_item wallet_text "Bad wallet number" (fun id w =>
      if valid_password (w_store w) then
        on_account account_text (error_response "Bad account number") (fun account_id =>
          if key_exists (w_store w) account_id then
            on_wallet_store id (erase account_id) ;!
            respond (put "removed" (str "1") pt_empty)
          else error_response "Account not found in wallet")
      else error_response "Wallet locked")).

(** A locked wallet gives no account, and the loop goes on. *)
Fixpoint accounts_create_loop (turns : nat) (id count : Z) (generate_work : bool) (accounts : ptree) : handler ptree :=
  if Z.of_nat (pt_size accounts) <? count then
    match turns with
    | O => h_fault Out_of_fuel
    | S turns =>
        let! new_key := on_wallet id (wallet_deterministic_insert_work fuel generate_work) in
        accounts_create_loop turns id count generate_work
          (if negb (is_zero new_key) then push_text (to_account new_key) accounts else accounts)
    end
  else h_ret accounts.

Definition accounts_create : handler unit :=
  controlled (
    let! wallet_text := get "wallet" in
    on_hex wallet_text (error_response "Bad wallet number") (fun id =>
      let! count_text := get "count" in
      let '(count_error, count) := decode_unsigned count_text 0 in
      if negb count_error && negb (is_zero count) then
        let! existing := h_get (fun n => rn_items n !! id) in
        match existing with
        | Some _ =>
            let generate_work := flag "work" true in
            let! accounts := accounts_create_loop fuel id count generate_work pt_empty in
            respond (add_child "accounts" accounts pt_empty)
        | None => error_response "Wallet not found"
        end
      else error_response "Invalid count limit")).

Definition rpc_wallet_add : handler unit :=
  controlled (
    let! key_text := get "key" in
    let! wallet_text := get "wallet" in
    on_hex key_text (error_response "Bad private key") (fun key =>
      on_item wallet_text "Bad wallet number" (fun id _ =>
        let generate_work := flag "work" true in
        let! pub := on_wallet id (wallet_insert_adhoc_work key generate_work) in
        if negb (is_zero pub) then respond (put "account" (to_account pub) pt_empty)
        else error_response "Wallet locked"))).

Definition wallet_contains : handler unit :=
  let! account_text := get "account" in
  let! wallet_text := get "wallet" in
  on_account account_text (error_response "Bad account number") (fun account =>
    on_item wallet_text "Bad wallet number" (fun _ w =>
      respond (put "exists" (str (if key_exists (w_store w) account then "1" else "0")) pt_empty))).

(** ** Balances, frontiers and pending blocks of a wallet *)

Fixpoint balance_total_loop (s : store) (l : list account) (balance pending : Z) : res (Z * Z) :=
  match l with
  | [] => Ok (balance, pending)
  | a :: l =>
      match account_pending s a with
      | Fault f => Fault f
      | Ok p => balance_total_loop s l (wrap 128 (balance + account_balance s a)) (wrap 128 (pending + p))
      end
  end.

Definition wallet_balance_total : handler unit :=
  let! wallet_text := get "wallet" in
  on_item wallet_text "Bad wallet number" (fun _ w =>
    let! s := the_store in
    let! total := h_res (balance_total_loop s (wallet_accounts (w_store w)) 0 0) in
    respond (balance_answer total)).

Fixpoint wallet_balances_loop (s : store) (threshold : Z) (l : list account) (balances : ptree) : res ptree :=
  match l with
  | [] => Ok balances
  | a :: l =>
      let balance := account_balance s a in
      if is_zero threshold || (threshold <=? balance) then
        match account_pending s a with
        | Fault f => Fault f
        | Ok p => wallet_balances_loop s threshold l (pt_push_back (to_account a) (balance_answer (balance, p)) balances)
        end
      else wallet_balances_loop s threshold l balances
  end.

Definition wallet_balances : handler unit :=
  let! wallet_text := get "wallet" in
  on_hex wallet_text (error_response "Bad wallet number") (fun id =>
    let! threshold := optional_dec request_no request "threshold" 0 "Bad threshold number" in
    let! existing := h_get (fun n => rn_items n !! id) in
    match existing with
    | Some w =>
        let! s := the_store in
        let! balances := h_res (wallet_balances_loop s threshold (wallet_accounts (w_store w)) pt_empty) in
        respond (add_child "balances" balances pt_empty)
    | None => error_response "Wallet not found"
    end).

Definition wallet_frontiers : handler unit :=
  let! wallet_text := get "wallet" in
  on_item wallet_text "Bad wallet number" (fun _ w =>
    let! s := the_store in
    let frontiers := fold_left (fun t a =>
      let latest := latest s a in
      if negb (is_zero latest) then pt_put (to_account a) (to_string latest) t else t) (wallet_accounts (w_store w)) pt_empty in
    respond (add_child "frontiers" frontiers pt_empty)).

Fixpoint wallet_pending_loop (s : store) (count threshold : Z) (source : bool) (l : list account) (pending : ptree) : res ptree :=
  match l with
  | [] => Ok pending
  | a :: l =>
      match pending_tree s count threshold source a with
      | Fault f => Fault f
      | Ok peers_l =>
          wallet_pending_loop s count threshold source l
            (if (0 <? pt_size peers_l)%nat then pt_add_child (to_account a) peers_l pending else pending)
      end
  end.

Definition wallet_pending : handler unit :=
  let! wallet_text := get "wallet" in
  on_item wallet_text "Bad wallet number" (fun _ w =>
    let! count := optional_unsigned request_no request "count" uint64_max "Invalid count limit" in
    let! threshold := optional_dec request_no request "threshold" 0 "Bad threshold number" in
    let source := flag "source" false in
    let! s := the_store in
    let! pending := h_res (wallet_pending_loop s count threshold source (wallet_accounts (w_store w)) pt_empty) in
    respond (add_child "blocks" pending pt_empty)).

(** ** Passwords and the seed *)

Definition password_change : handler unit :=
  controlled (
    let! wallet_text := get "wallet" in
    on_item wallet_text "Bad wallet number" (fun id _ =>
      let! password_text := get "password" in
      let! error := on_wallet_store id (rekey (text_bytes password_text)) in
      respond (put "changed" (str (if error : bool then "0" else "1")) pt_empty))).

(** [wallet::enter_password]; an upgrade draws a seed. *)
Definition enter_password (random_seed id : Z) (password_a : text) : handler bool :=
  let! result := on_wallet_store id (attempt_password random_seed (text_bytes password_a)) in
  (if negb result then in_background_h id Search_pending else h_ret tt) ;!
  h_ret result.

Definition password_enter (random_seed : Z) : handler unit :=
  let! wallet_text := get "wallet" in
  on_item wallet_text "Bad wallet number" (fun id _ =>
    let! password_text := get "password" in
    let! error := enter_password random_seed id password_text in
    respond (put "valid" (str (if error : bool then "0" else "1")) pt_empty)).

Definition password_valid (wallet_locked : bool) : handler unit :=
  let! wallet_text := get "wallet" in
  on_item wallet_text "Bad wallet number" (fun _ w =>
    let valid := valid_password (w_store w) in
    respond (if negb wallet_locked then put "valid" (str (if valid then "1" else "0")) pt_empty
             else put "locked" (str (if valid then "0" else "1")) pt_empty)).

Definition wallet_key_valid : handler unit :=
  let! wallet_text := get "wallet" in
  on_item wallet_text "Bad wallet number" (fun _ w =>
    respond (put "valid" (str (if valid_password (w_store w) then "1" else "0")) pt_empty)).

Definition wallet_lock : handler unit :=
  controlled (
    let! wallet_text := get "wallet" in
    on_item wallet_text "Bad wallet number" (fun id _ =>
      on_wallet_store id (st_put (set_password (fan_value_set 0))) ;!
      respond (put "locked" (str "1") pt_empty))).

Definition wallet_change_seed : handler unit :=
  controlled (
    let! seed_text := get "seed" in
    let! wallet_text := get "wallet" in
    on_hex seed_text (error_response "Bad seed") (fun seed =>
      on_item wallet_text "Bad wallet number" (fun id w =>
        if valid_password (w_store w) then
          on_wallet_store id (seed_set seed) ;!
          respond (put "success" [] pt_empty)
        else error_response "Wallet locked"))).

(** ** The collection of wallets *)

(** [wallets::create]; LMDB may not open another table.  The rest is drawn. *)
Definition wallets_create (id representative_a : Z) (opened : bool) (r : wallet_random) : handler unit :=
  let! existing := h_get (fun n => rn_items n !! id) in
  h_assert (bool_decide (existing = None)) ;!
  if opened then
    let! w := h_res (wallet_store_new ∅ representative_a r) in
    h_put (set_items (insert id (MkWallet w ∅))) ;!
    in_background_h id Enter_initial_password
  else h_ret tt.

Definition wallet_create (id representative_a : Z) (opened : bool) (r : wallet_random) : handler unit :=
  controlled (
    wallets_create id representative_a opened r ;!
    let! existing := h_get (fun n => rn_items n !! id) in
    match existing with
    | Some _ => respond (put "wallet" (to_string id) pt_empty)
    | None => error_response "Failed to create wallet. Increase lmdb_max_dbs in node config."
    end).

(** [wallets::destroy] *)
Definition wallets_destroy (id : Z) : handler unit :=
  let! existing := h_get (fun n => rn_items n !! id) in
  h_assert (bool_decide (is_Some existing)) ;!
  h_put (set_items (delete id)).

Definition wallet_destroy : handler unit :=
  controlled (
    let! wallet_text := get "wallet" in
    on_item wallet_text "Bad wallet number" (fun id _ =>
      wallets_destroy id ;! respond pt_empty)).

(** The tree [wallet_store::serialize_json] writes. *)
Definition wallet_tree (w : wallet_store) : ptree :=
  fold_left (fun t x => pt_put (to_string (fst x)) (to_string (wv_key (snd x))) t) (table_from 0 (entries w)) pt_empty.

Definition wallet_export : handler unit :=
  let! wallet_text := get "wallet" in
  on_item wallet_text "Bad account number" (fun _ w =>
    respond (put "json" (write_json (wallet_tree (w_store w))) pt_empty)).

(** ** Representatives *)

Definition rpc_wallet_representative : handler unit :=
  let! wallet_text := get "wallet" in
  on_item wallet_text "Bad account number" (fun _ w =>
    respond (put "representative" (to_account (wallet_representative (w_store w))) pt_empty)).

Definition wallet_representative_set : handler unit :=
  controlled (
    let! wallet_text := get "wallet" in
    on_item wallet_text "Bad account number" (fun id _ =>
      let! representative_text := get "representative" in
      on_account representative_text (error_response "Invalid account number") (fun representative =>
        on_wallet_store id (representative_set representative) ;!
        respond (put "set" (str "1") pt_empty)))).

(** Work that came with a request is kept if it suffices for the head of the account. *)
Definition keep_work (id account root_ work : Z) : handler unit :=
  if negb (work_validate root_ work) then on_wallet_store id (work_put account work)
  else error_response "Invalid work".

(** What the callback of an action answers. *)
Definition block_response (b : option block) : ptree :=
  put "block" (to_string (match b with Some b => hash b | None => 0 end)) pt_empty.

(** Nothing is answered when the wallet is not there or the representative is bad. *)
Definition account_representative_set : handler unit :=
  controlled (
    let! wallet_text := get "wallet" in
    on_hex wallet_text (h_ret tt) (fun id =>
      let! existing := h_get (fun n => rn_items n !! id) in
      match existing with
      | None => h_ret tt
      | Some _ =>
          let! account_text := get "account" in
          on_account account_text (error_response "Bad account number") (fun account =>
            let! representative_text := get "representative" in
            on_account representative_text (h_ret tt) (fun representative =>
              let! work := optional_work request_no request "work" 0 "Bad work" in
              (if negb (is_zero work) then
                 let! s := the_store in
                 match Store.account_get s account with
                 | Some info => keep_work id account (head info) work
                 | None => error_response "Account not found"
                 end
               else h_ret tt) ;!
              on_wallet id (change_async account representative (Callback request_no) (is_zero work))))
      end)).

(** ** Sending and receiving *)

Definition rpc_receive : handler unit :=
  controlled (
    let! wallet_text := get "wallet" in
    on_item wallet_text "Bad wallet number" (fun id w =>
      let! account_text := get "account" in
      on_account account_text (error_response "Bad account number") (fun account =>
        let! s := the_store in
        if key_exists (w_store w) account then
          let! hash_text := get "block" in
          on_hex hash_text (error_response "Bad block number") (fun hash =>
            match block_get s hash with
            | Some block =>
                if Store.pending_exists s (account, hash) then
                  let! work := optional_work request_no request "work" 0 "Bad work" in
                  (if negb (is_zero work) then
                     keep_work id account (match Store.account_get s account with Some info => head info | None => account end) work
                   else h_ret tt) ;!
                  on_wallet id (receive_async block account genesis_amount (Callback request_no) (is_zero work))
                else error_response "Block is not available to receive"
            | None => error_response "Block not found"
            end)
        else error_response "Account not found in wallet"))).

(** An account that is not in the ledger has the balance zero; its [info] is the
    default one. *)
Definition rpc_send : handler unit :=
  controlled (
    let! wallet_text := get "wallet" in
    on_item wallet_text "Bad wallet number" (fun id _ =>
      let! source_text := get "source" in
      on_account source_text (error_response "Bad source account") (fun source =>
        let! destination_text := get "destination" in
        on_account destination_text (error_response "Bad destination account") (fun destination =>
          let! amount_text := get "amount" in
          on_dec amount_text (error_response "Bad amount format") (fun amount =>
            let! work := optional_work request_no request "work" 0 "Bad work" in
            let! s := the_store in
            let! balance := (match Store.account_get s source with
                             | Some info => h_ret (balance_of info)
                             | None => error_response "Account not found" ;! h_ret 0
                             end) in
            (if negb (is_zero work) then
               keep_work id source (head (default account_info_default (Store.account_get s source))) work
             else h_ret tt) ;!
            if amount <=? balance then
              on_wallet id (send_async source destination amount (Callback request_no) (is_zero work))
            else error_response "Insufficient balance"))))).

Definition rpc_search_pending : handler unit :=
  controlled (
    let! wallet_text := get "wallet" in
    on_hex wallet_text (h_ret tt) (fun id =>
      let! existing := h_get (fun n => rn_items n !! id) in
      match existing with
      | Some _ =>
          let! error := on_wallet id search_pending in
          respond (put "started" (str (if error : bool then "false" else "true")) pt_empty)
      | None => error_response "Wallet not found"
      end)).

(** [wallets::search_pending_all], in the order of the table of wallets. *)
Fixpoint search_pending_items (ids : list Z) : handler unit :=
  match ids with
  | [] => h_ret tt
  | id :: ids => on_wallet id search_pending ;! search_pending_items ids
  end.

Definition search_pending_all (order : list Z -> list Z) : handler unit :=
  controlled (
    let! ids := h_get (fun n => order (map_to_list (rn_items n)).*1) in
    search_pending_items ids ;!
    respond (put "success" [] pt_empty)).

(** ** Work of a wallet *)

Definition wallet_work_get : handler unit :=
  controlled (
    let! wallet_text := get "wallet" in
    on_item wallet_text "Bad wallet number" (fun _ w =>
      let works := fold_left (fun t a => pt_put (to_account a) (to_string_hex (default 0 (work_get (w_store w) a))) t)
                     (wallet_accounts (w_store w)) pt_empty in
      respond (add_child "works" works pt_empty))).

Definition rpc_work_get : handler unit :=
  controlled (
    let! wallet_text := get "wallet" in
    on_item wallet_text "Bad wallet number" (fun _ w =>
      let! account_text := get "account" in
      on_account account_text (error_response "Bad account number") (fun account =>
        if key_exists (w_store w) account then
          respond (put "work" (to_string_hex (default 0 (work_get (w_store w) account))) pt_empty)
        else error_response "Account not found in wallet"))).

Definition work_set : handler unit :=
  controlled (
    let! wallet_text := get "wallet" in
    on_item wallet_text "Bad wallet number" (fun id w =>
      let! account_text := get "account" in
      on_account account_text (error_response "Bad account number") (fun account =>
        if key_exists (w_store w) account then
          let! work_text := get "work" in
          let! r := h_res (from_string_hex work_text 0) in
          let '(work_error, work) := r in
          if negb work_error then
            on_wallet_store id (work_put account work) ;!
            respond (put "success" [] pt_empty)
          else error_response "Bad work"
        else error_response "Account not found in wallet"))).

(** ** Making a block *)

Definition created (b : block) : ptree := put "block" (serialize_json b) (put "hash" (to_string (hash b)) pt_empty).

(** The private key, the previous block and the balance from a wallet of the node. *)
Definition create_from_wallet (wallet account : Z) : handler (Z * Z * Z) :=
  if negb (is_zero wallet) && negb (is_zero account) then
    let! existing := h_get (fun n => rn_items n !! wallet) in
    match existing with
    | Some w =>
        let! s := the_store in
        if valid_password (w_store w) then
          if key_exists (w_store w) account then
            h_ret (fetch_into (w_store w) account 0, latest s account, account_balance s account)
          else error_response "Account not found in wallet" ;! h_ret (0, 0, 0)
        else error_response "Wallet is locked" ;! h_ret (0, 0, 0)
    | None => error_response "Wallet not found" ;! h_ret (0, 0, 0)
    end
  else h_ret (0, 0, 0).

Definition work_or (work root_ : Z) : Z := if is_zero work then generate_work root_ else work.

Definition create_block (type : text) (prv representative source destination previous balance amount work : Z) : handler unit :=
  let pub := ed25519_publickey prv in
  if bool_decide (type = str "open") then
    if negb (is_zero representative) && negb (is_zero source) then
      respond (created (Open (open_block_new source representative pub prv pub (work_or work pub))))
    else error_response "Representative account and source hash required"
  else if bool_decide (type = str "receive") then
    if negb (is_zero source) && negb (is_zero previous) then
      respond (created (Receive (receive_block_new previous source prv pub (work_or work previous))))
    else error_response "Previous hash and source hash required"
  else if bool_decide (type = str "change") then
    if negb (is_zero representative) && negb (is_zero previous) then
      respond (created (Change (change_block_new previous representative prv pub (work_or work previous))))
    else error_response "Representative account and previous hash required"
  else if bool_decide (type = str "send") then
    if negb (is_zero destination) && negb (is_zero previous) && negb (is_zero balance) && negb (is_zero amount) then
      if amount <=? balance then
        respond (created (Send (send_block_new previous destination (balance - amount) prv pub (work_or work previous))))
      else error_response "Insufficient balance"
    else error_response "Destination account, previous hash, current balance and amount required"
  else error_response "Invalid block type".

(** Errors are answered, and the handler goes on. *)
Definition block_create : handler unit :=
  controlled (
    let! type := get "type" in
    let! wallet := optional_hex request_no request "wallet" 0 "Bad wallet number" in
    let! account := optional_account request_no request "account" 0 "Bad account number" in
    let! representative := optional_account request_no request "representative" 0 "Bad representative account" in
    let! destination := optional_account request_no request "destination" 0 "Bad destination account" in
    let! source := optional_hex request_no request "source" 0 "Invalid source hash" in
    let! amount := optional_dec request_no request "amount" 0 "Bad amount number" in
    let! work := optional_work request_no request "work" 0 "Bad work" in
    let! x := create_from_wallet wallet account in
    let '(prv, previous, balance) := x in
    let! prv := optional_hex request_no request "key" prv "Bad private key" in
    let! previous := optional_hex request_no request "previous" previous "Invalid previous hash" in
    let! balance := optional_dec request_no request "balance" balance "Bad balance number" in
    if negb (is_zero prv) then create_block type prv representative source destination previous balance amount work
    else error_response "Private key or local wallet and account required").

(** ** Payments *)

(** [init_free_accounts] *)
Definition init_free_accounts (id : Z) (w : wallet) : handler unit :=
  set_free_accounts id (fun _ => list_to_set (wallet_accounts (w_store w))).

(** The first element of a set that is walked in no particular order. *)
Context (first_free : gset Z -> Z).

Fixpoint payment_begin_loop (turns : nat) (id : Z) : handler account :=
  match turns with
  | O => h_fault Out_of_fuel
  | S turns =>
      let! existing := h_get (fun n => rn_items n !! id) in
      match existing with
      | None => h_fault Indeterminate_value
      | Some w =>
          if decide (free_accounts w = ∅) then on_wallet id (wallet_deterministic_insert_work fuel true)
          else
            let account := first_free (free_accounts w) in
            set_free_accounts id (fun s => s ∖ {[account]}) ;!
            let! s := the_store in
            let account :=
              if key_exists (w_store w) account then if negb (is_zero (account_balance s account)) then 0 else account else 0 in
            if is_zero account then payment_begin_loop turns id else h_ret account
      end
  end.

Definition payment_begin : handler unit :=
  let! id_text := get "wallet" in
  on_hex id_text (error_response "Bad wallet number") (fun id =>
    let! existing := h_get (fun n => rn_items n !! id) in
    match existing with
    | Some w =>
        if valid_password (w_store w) then
          let! account := payment_begin_loop (S (size (free_accounts w))) id in
          if negb (is_zero account) then respond (put "account" (to_account account) pt_empty)
          else error_response "Unable to create transaction account"
        else error_response "Wallet locked"
    | None => error_response "Unable to find wallets"
    end).

Definition payment_init : handler unit :=
  let! id_text := get "wallet" in
  on_hex id_text (error_response "Bad transaction wallet number") (fun id =>
    let! existing := h_get (fun n => rn_items n !! id) in
    match existing with
    | Some w =>
        if valid_password (w_store w) then
          init_free_accounts id w ;! respond (put "status" (str "Ready") pt_empty)
        else respond (put "status" (str "Transaction wallet locked") pt_empty)
    | None => respond (put "status" (str "Unable to find transaction wallet") pt_empty)
    end).

Definition payment_end : handler unit :=
  let! id_text := get "wallet" in
  let! account_text := get "account" in
  on_hex id_text (error_response "Bad wallet number") (fun id =>
    let! existing := h_get (fun n => rn_items n !! id) in
    match existing with
    | Some w =>
        on_account account_text (error_response "Invalid account number") (fun account =>
          if key_exists (w_store w) account then
            let! s := the_store in
            if is_zero (account_balance s account) then
              set_free_accounts id (fun s => {[account]} ∪ s) ;! respond pt_empty
            else error_response "Account has non-zero balance"
          else error_response "Account not in wallet")
    | None => error_response "Unable to find wallet"
    end).

(** [payment_observer::complete], for the observer at a place. *)
Inductive payment_status := nothing | success.

Definition complete (i : nat) (status : payment_status) : handler unit :=
  let! o := h_get (fun n => rn_observers n !! i) in
  match o with
  | None => h_fault Indeterminate_value
  | Some o =>
      h_put (set_observers (alter (fun o => PaymentObserver (po_request o) (po_account o) (po_amount o) true) i)) ;!
      if po_completed o then h_ret tt
      else
        Rpc.respond (po_request o) (put "status" (str (match status with nothing => "nothing" | success => "success" end)) pt_empty) ;!
        let! p := h_get rn_payments in
        h_assert (bool_decide (is_Some (p !! po_account o))) ;!
        h_put (set_payments (delete (po_account o)))
  end.

(** [payment_observer::observe] *)
Definition observe (i : nat) : handler unit :=
  let! o := h_get (fun n => rn_observers n !! i) in
  match o with
  | None => h_fault Indeterminate_value
  | Some o =>
      let! balance := node_balance (po_account o) in
      if po_amount o <=? balance then complete i success else h_ret tt
  end.

(** [rpc::observer_action] *)
Definition observer_action (a : account) : handler unit :=
  let! p := h_get rn_payments in
  match p !! a with Some i => observe i | None => h_ret tt end.

Definition payment_wait : handler unit :=
  let! account_text := get "account" in
  let! amount_text := get "amount" in
  let! timeout_text := get "timeout" in
  on_account account_text (error_response "Bad account number") (fun account =>
    on_dec amount_text (error_response "Bad amount number") (fun amount =>
      on_unsigned timeout_text (error_response "Bad timeout number") (fun timeout =>
        let! i := h_get (fun n => length (rn_observers n)) in
        h_put (set_observers (fun l => l ++ [PaymentObserver request_no account amount false])) ;!
        call (Timeout_at i timeout) ;!
        let! p := h_get rn_payments in
        h_assert (bool_decide (p !! account = None)) ;!
        h_put (set_payments (insert account i)) ;!
        observer_action account))).

End Handlers.
