(* ===== verification/RpcServer.v ===== *)
(** * Remote procedure calls: the node and the dispatch of requests (rai/node/rpc.cpp)

    The handlers that concern the node as a whole, and [process_request], which reads
    a request, calls the handler its action names and answers for exceptions. *)
From Stdlib Require Import ZArith Lia List Ascii String.
From stdpp Require Import prelude strings gmap sorting.
From S2P Require Import Prelude Numbers Streams Blocks Store Ledger Votes Work Messages Unchecked Processor Peers BootstrapServer Wallet WalletActions NumberText Json Conversions Rpc RpcLedger RpcWallet.

Local Open Scope rpc_scope.
Abbreviation text := (list ascii) (only parsing).

Definition endpoint_le (x y : endpoint * Z) : Prop :=
  address (fst x) < address (fst y) \/ address (fst x) = address (fst y) /\ port (fst x) <= port (fst y).
#[export] Instance endpoint_le_dec x y : Decision (endpoint_le x y).
Proof. unfold endpoint_le. apply _. Defined.

(** ** What is drawn, and what is left open *)

Record drawn := Drawn {
  d_key : Z;                        (* the private key of a new pair *)
  d_wallet : Z;                     (* the number of a new wallet *)
  d_representative : account;
  d_opened : bool;                  (* whether LMDB opens another table *)
  d_random : wallet_random;
  d_seed : Z;
  d_order : list Z -> list Z;       (* the order of the table of wallets *)
  d_first : gset Z -> Z;            (* the first of the free accounts *)
  d_junk : block_hash               (* a hash that is not initialised *)
}.

(** The versions of the program and of its database. *)
Class RpcVersion := { version_major : Z; version_minor : Z; store_version : Z }.

Section Server.
Context `{PropertyTree, NumberStream, Environment, WalletCrypto, Signing, NodeEnvironment, Network, Iteration, MultimapOrder, WorkSource,
          PeerEnvironment, AddressText, RpcVersion}.
Context (fuel : nat) (enable_control : bool) (request_no : nat).

Section Handlers.
Context (request : ptree).

Local Abbreviation respond := (respond request_no).
Local Abbreviation error_response := (error_response request_no).
Local Abbreviation get := (get request).
Local Abbreviation controlled := (controlled enable_control request_no).

(** A port that is no number is an exception of its own. *)
Definition on_port (t : text) (k : Z -> handler unit) : handler unit :=
  match parse_port t with
  | None => throw Logic_error
  | Some (false, port) => k port
  | Some (true, _) => error_response "Invalid port"
  end.

(** ** Bootstrapping and peers *)

Definition bootstrap : handler unit :=
  let! address_text := get "address" in
  let! port_text := get "port" in
  match parse_address address_text with
  | Some address =>
      on_port port_text (fun port =>
        call (Bootstrap_to address port) ;! respond (put "success" [] pt_empty))
  | None => error_response "Invalid address"
  end.

Definition bootstrap_any : handler unit := call Bootstrap_any ;! respond (put "success" [] pt_empty).

Definition keepalive : handler unit :=
  controlled (
    let! address_text := get "address" in
    let! port_text := get "port" in
    on_port port_text (fun port => call (Keepalive address_text port) ;! respond pt_empty)).

Definition rpc_peers : handler unit :=
  let! peers_list := h_get (fun n => merge_sort endpoint_le (map_to_list (list_version (rn_peers n)))) in
  let peers_l := fold_left (fun t x => pt_push_back (endpoint_text (fst x)) (pt_leaf (to_dec (snd x))) t) peers_list pt_empty in
  respond (add_child "peers" peers_l pt_empty).

(** ** Configuration *)

Definition receive_minimum : handler unit :=
  controlled (
    let! m := h_get rn_receive_minimum in
    respond (put "amount" (encode_dec128 m) pt_empty)).

Definition receive_minimum_set : handler unit :=
  controlled (
    let! amount_text := get "amount" in
    on_dec amount_text (error_response "Bad amount number") (fun amount =>
      h_put (set_receive_minimum (fun _ => amount)) ;! respond (put "success" [] pt_empty))).

Definition work_peer_add : handler unit :=
  controlled (
    let! address_text := get "address" in
    let! port_text := get "port" in
    match parse_address address_text with
    | Some address =>
        on_port port_text (fun port =>
          h_put (set_work_peers (fun l => l ++ [(address, port)])) ;! respond (put "success" [] pt_empty))
    | None => error_response "Invalid address"
    end).

Definition work_peers : handler unit :=
  controlled (
    let! l := h_get rn_work_peers in
    let work_peers_l := fold_left (fun t x => push_text (address_text (fst x) ++ ":"%char :: to_dec (snd x)) t) l pt_empty in
    respond (add_child "work_peers" work_peers_l pt_empty)).

Definition work_peers_clear : handler unit :=
  controlled (h_put (set_work_peers (fun _ => [])) ;! respond (put "success" [] pt_empty)).

Definition rpc_version : handler unit :=
  let t := put "rpc_version" (str "1") pt_empty in
  let t := put "store_version" (to_dec store_version) t in
  respond (put "node_vendor" (str "RaiBlocks " ++ to_dec version_major ++ "."%char :: to_dec version_minor) t).

Definition stop : handler unit :=
  controlled (respond (put "success" [] pt_empty) ;! call Stop).

(** ** Work *)

Definition rpc_work_generate : handler unit :=
  controlled (
    let! hash_text := get "hash" in
    on_hex hash_text (error_response "Bad block hash") (fun hash => call (Work_generate request_no hash))).

(** The callback. *)
Definition work_generated (work_a : option Z) : handler unit :=
  match work_a with
  | Some w => respond (put "work" (to_string_hex w) pt_empty)
  | None => error_response "Cancelled"
  end.

Definition work_cancel : handler unit :=
  controlled (
    let! hash_text := get "hash" in
    on_hex hash_text (error_response "Bad block hash") (fun hash => call (Work_cancel hash) ;! respond pt_empty)).

(** ** Publishing blocks again *)

Fixpoint source_loop (turns : nat) (s : store) (source : block_hash) (sources : Z) (hashes : list block_hash) : res (list block_hash) :=
  match block_get s source with
  | None => Ok hashes
  | Some block_a =>
      if Z.of_nat (length hashes) <? sources then
        match turns with
        | O => Fault Out_of_fuel
        | S turns => source_loop turns s (previous block_a) sources (hashes ++ [source])
        end
      else Ok hashes
  end.

(** [source] is not initialised at first. *)
Fixpoint destination_loop (turns : nat) (s : store) (hash previous_ source_ : block_hash) (hashes : list block_hash) : res (list block_hash) :=
  match block_get s previous_ with
  | None => Ok hashes
  | Some block_d =>
      if negb (hash =? source_) then
        match turns with
        | O => Fault Out_of_fuel
        | S turns => destination_loop turns s hash (previous block_d) (source block_d) (hashes ++ [previous_])
        end
      else Ok hashes
  end.

Fixpoint republish_hashes (s : store) (hashes : list block_hash) (blocks : ptree) : handler ptree :=
  match hashes with
  | [] => h_ret blocks
  | h :: hashes => call (Republish (block_get s h)) ;! republish_hashes s hashes (push_text (to_string h) blocks)
  end.

(** The chain of the source, the block, and what the destination did with it. *)
Definition republish_one (junk : block_hash) (s : store) (sources destinations : Z) (hash : block_hash) (blocks : ptree) : handler ptree :=
  let block := block_get s hash in
  let! blocks :=
    (if negb (is_zero sources) then
       match block with
       | None => h_fault Indeterminate_value
       | Some b =>
           let! hashes := h_res (source_loop loop_fuel s (source b) sources []) in
           republish_hashes s (rev hashes) blocks
       end
     else h_ret blocks) in
  let! blocks := republish_hashes s [hash] blocks in
  if negb (is_zero destinations) then
    match block with
    | Some (Send b) =>
        let destination := sh_destination (send_h b) in
        if negb (Store.pending_exists s (destination, hash)) then
          let! hashes := h_res (destination_loop loop_fuel s hash (latest s destination) junk []) in
          republish_hashes s (take (Z.to_nat destinations) (rev hashes)) blocks
        else h_ret blocks
    | _ => h_ret blocks
    end
  else h_ret blocks.

Fixpoint republish_loop (turns : nat) (junk : block_hash) (s : store) (count sources destinations : Z) (i : Z) (hash : block_hash) (blocks : ptree) : handler ptree :=
  if negb (is_zero hash) && (i <? count) then
    match turns with
    | O => h_fault Out_of_fuel
    | S turns =>
        let! blocks := republish_one junk s sources destinations hash blocks in
        republish_loop turns junk s count sources destinations (i + 1) (block_successor s hash) blocks
    end
  else h_ret blocks.

Definition republish (junk : block_hash) : handler unit :=
  let! count := optional_unsigned request_no request "count" 1024 "Invalid count limit" in
  let! sources := optional_unsigned request_no request "sources" 0 "Invalid sources number" in
  let! destinations := optional_unsigned request_no request "destinations" 0 "Invalid destinations number" in
  let! hash_text := get "hash" in
  on_hex hash_text (error_response "Bad hash number") (fun hash =>
    let! s := the_store in
    match block_get s hash with
    | Some _ =>
        let! blocks := republish_loop loop_fuel junk s count sources destinations 0 hash pt_empty in
        respond (add_child "blocks" blocks (put "success" [] pt_empty))
    | None => error_response "Block not found"
    end).

Fixpoint head_loop (turns : nat) (s : store) (count : Z) (latest_ : block_hash) (hashes : list block_hash) : res (list block_hash) :=
  if negb (is_zero latest_) && (Z.of_nat (length hashes) <? count) then
    match turns with
    | O => Fault Out_of_fuel
    | S turns =>
        match block_get s latest_ with
        | None => Fault Indeterminate_value
        | Some b => head_loop turns s count (previous b) (hashes ++ [latest_])
        end
    end
  else Ok hashes.

Fixpoint wallet_republish_loop (s : store) (count : Z) (l : list account) (blocks : ptree) : handler ptree :=
  match l with
  | [] => h_ret blocks
  | a :: l =>
      let! hashes := h_res (head_loop loop_fuel s count (latest s a) []) in
      let! blocks := republish_hashes s (rev hashes) blocks in
      wallet_republish_loop s count l blocks
  end.

Definition wallet_republish : handler unit :=
  controlled (
    let! wallet_text := get "wallet" in
    on_item request_no wallet_text "Bad wallet number" (fun _ w =>
      let! count_text := get "count" in
      on_unsigned count_text (error_response "Invalid count limit") (fun count =>
        let! s := the_store in
        let! blocks := wallet_republish_loop s count (wallet_accounts (w_store w)) pt_empty in
        respond (add_child "blocks" blocks pt_empty)))).

(** ** Dispatch *)

(** The actions and their handlers, in the order they are compared with.  Those for
    passwords were run before. *)
Definition actions (d : drawn) : list (string * handler unit) :=
  [("account_balance", rpc_account_balance request_no request);
   ("account_block_count", account_block_count request_no request);
   ("account_create", account_create fuel enable_control request_no request);
   ("account_get", account_get request_no request);
   ("account_history", account_history request_no request);
   ("account_info", account_info request_no request);
   ("account_key", account_key request_no request);
   ("account_list", account_list request_no request);
   ("account_move", account_move enable_control request_no request);
   ("account_remove", account_remove enable_control request_no request);
   ("account_representative", account_representative request_no request);
   ("account_representative_set", account_representative_set enable_control request_no request);
   ("account_weight", account_weight request_no request);
   ("accounts_balances", accounts_balances request_no request);
   ("accounts_create", accounts_create fuel enable_control request_no request);
   ("accounts_frontiers", accounts_frontiers request_no request);
   ("accounts_pending", accounts_pending request_no request);
   ("available_supply", available_supply request_no);
   ("block", rpc_block request_no request);
   ("blocks", rpc_blocks request_no request);
   ("blocks_info", rpc_blocks_info request_no request);
   ("block_account", block_account request_no request);
   ("block_count", rpc_block_count request_no);
   ("block_count_type", block_count_type request_no);
   ("block_create", block_create enable_control request_no request);
   ("successors", successors request_no request);
   ("bootstrap", bootstrap);
   ("bootstrap_any", bootstrap_any);
   ("chain", chain request_no request);
   ("delegators", delegators request_no request);
   ("delegators_count", delegators_count request_no request);
   ("deterministic_key", rpc_deterministic_key request_no request);
   ("frontiers", rpc_frontiers request_no request);
   ("frontier_count", rpc_frontier_count request_no);
   ("history", history request_no request);
   ("keepalive", keepalive);
   ("key_create", key_create request_no (d_key d));
   ("key_expand", key_expand request_no request);
   ("krai_from_raw", krai_from_raw request_no request);
   ("krai_to_raw", krai_to_raw request_no request);
   ("ledger", ledger enable_control request_no request);
   ("mrai_from_raw", mrai_from_raw request_no request);
   ("mrai_to_raw", mrai_to_raw request_no request);
   ("password_change", h_ret tt);
   ("password_enter", h_ret tt);
   ("password_valid", password_valid request_no request false);
   ("payment_begin", payment_begin fuel request_no request (d_first d));
   ("payment_init", payment_init request_no request);
   ("payment_end", payment_end request_no request);
   ("payment_wait", payment_wait request_no request);
   ("peers", rpc_peers);
   ("pending", rpc_pending request_no request);
   ("pending_exists", rpc_pending_exists request_no request);
   ("process", rpc_process request_no request observer_action);
   ("rai_from_raw", rai_from_raw request_no request);
   ("rai_to_raw", rai_to_raw request_no request);
   ("receive", rpc_receive enable_control request_no request);
   ("receive_minimum", receive_minimum);
   ("receive_minimum_set", receive_minimum_set);
   ("representatives", representatives request_no request);
   ("republish", republish (d_junk d));
   ("search_pending", rpc_search_pending enable_control request_no request);
   ("search_pending_all", search_pending_all enable_control request_no (d_order d));
   ("send", rpc_send enable_control request_no request);
   ("stop", stop);
   ("unchecked", rpc_unchecked request_no request);
   ("unchecked_clear", rpc_unchecked_clear enable_control request_no);
   ("unchecked_get", rpc_unchecked_get request_no request);
   ("unchecked_keys", unchecked_keys request_no request);
   ("validate_account_number", validate_account_number request_no request);
   ("version", rpc_version);
   ("wallet_add", rpc_wallet_add enable_control request_no request);
   ("wallet_balance_total", wallet_balance_total request_no request);
   ("wallet_balances", wallet_balances request_no request);
   ("wallet_change_seed", wallet_change_seed enable_control request_no request);
   ("wallet_contains", wallet_contains request_no request);
   ("wallet_create", wallet_create enable_control request_no (d_wallet d) (d_representative d) (d_opened d) (d_random d));
   ("wallet_destroy", wallet_destroy enable_control request_no request);
   ("wallet_export", wallet_export request_no request);
   ("wallet_frontiers", wallet_frontiers request_no request);
   ("wallet_key_valid", wallet_key_valid request_no request);
   ("wallet_lock", wallet_lock enable_control request_no request);
   ("wallet_locked", password_valid request_no request true);
   ("wallet_pending", wallet_pending request_no request);
   ("wallet_representative", rpc_wallet_representative request_no request);
   ("wallet_representative_set", wallet_representative_set enable_control request_no request);
   ("wallet_republish", wallet_republish);
   ("wallet_unlock", h_ret tt);
   ("wallet_work_get", wallet_work_get enable_control request_no request);
   ("work_generate", rpc_work_generate);
   ("work_cancel", work_cancel);
   ("work_get", rpc_work_get enable_control request_no request);
   ("work_set", work_set enable_control request_no request);
   ("work_validate", rpc_work_validate request_no request);
   ("work_peer_add", work_peer_add);
   ("work_peers", work_peers);
   ("work_peers_clear", work_peers_clear)]%string.

Fixpoint find_action {A} (action : text) (l : list (string * A)) : option A :=
  match l with
  | [] => None
  | (k, a) :: l => if bool_decide (action = str k) then Some a else find_action action l
  end.

Definition before_logging (d : drawn) (action : text) : handler unit :=
  if bool_decide (action = str "password_enter") then password_enter request_no request (d_seed d)
  else if bool_decide (action = str "password_change") then password_change enable_control request_no request
  else if bool_decide (action = str "wallet_unlock") then password_enter request_no request (d_seed d)
  else h_ret tt.

Definition dispatch (d : drawn) : handler unit :=
  let! action := get "action" in
  before_logging d action ;!
  match find_action action (actions d) with
  | Some h => h
  | None => error_response "Unknown command"
  end.
End Handlers.

Definition process_request (d : drawn) (body : text) : handler unit :=
  h_catch
    (match read_json body with
     | None => throw Runtime_error
     | Some request => dispatch request d
     end)
    (fun e => match e with
              | Runtime_error => error_response request_no "Unable to parse JSON"
              | Logic_error => error_response request_no "Internal server error in RPC"
              end).
End Server.
