(* ===== verification/RpcControl.v ===== *)
(** * Remote procedure calls: handlers that only answer, and control

    A handler that only answers leaves everything but the list of answers as it is,
    and gives no answer to another request.  Such handlers are closed under the
    operations handlers are made of.  The configuration can keep clients from changing
    the node ([enable_control]): then every request but ten only gets an answer. *)
From Stdlib Require Import ZArith Lia List Ascii String.
From stdpp Require Import prelude strings gmap sorting.
From S2P Require Import Prelude Numbers Streams Blocks Store Ledger Votes Work Messages Unchecked Processor Peers BootstrapServer Wallet WalletActions NumberText Json Conversions Rpc RpcLedger RpcWallet RpcServer.

Local Open Scope rpc_scope.

Create HintDb rpc.

(** ** Answers *)

Section Answers.
Context `{PropertyTree}.

(** The node after some more answers. *)
Definition answered (l : list (nat * ptree)) (n : rpc_node) : rpc_node := set_responses (fun k => k ++ l) n.

Lemma answered_nil n : answered [] n = n.
Proof. destruct n. unfold answered, set_responses. cbn. by rewrite app_nil_r. Qed.

Lemma answered_app l k n : answered k (answered l n) = answered (l ++ k) n.
Proof. unfold answered, set_responses. cbn. by rewrite app_assoc. Qed.

(** Only answers to request [no] were given. *)
Definition only_answers (no : nat) (n n' : rpc_node) : Prop := exists ts, n' = answered (map (pair no) ts) n.

Lemma only_answers_refl no n : only_answers no n n.
Proof. exists []. symmetry. apply answered_nil. Qed.

Lemma only_answers_trans no n1 n2 n3 : only_answers no n1 n2 -> only_answers no n2 n3 -> only_answers no n1 n3.
Proof. intros (l & ->) (k & ->). exists (l ++ k). by rewrite answered_app, map_app. Qed.

Definition read_only {A} (no : nat) (m : handler A) : Prop :=
  forall n r n', m n = Ok (r, n') -> only_answers no n n'.

Context {no : nat}.

Lemma ro_ret {A} (a : A) : read_only no (h_ret a).
Proof. intros n r n' [= <- <-]. apply only_answers_refl. Qed.
Lemma ro_throw {A} e : read_only no (throw (A := A) e).
Proof. intros n r n' [= <- <-]. apply only_answers_refl. Qed.
Lemma ro_fault {A} f : read_only no (h_fault (A := A) f).
Proof. intros n r n' [=]. Qed.
Lemma ro_get {A} (f : rpc_node -> A) : read_only no (h_get f).
Proof. intros n r n' [= <- <-]. apply only_answers_refl. Qed.
Lemma ro_res {A} (x : res A) : read_only no (h_res x).
Proof. intros n r n'. unfold h_res. destruct x; [|done]. intros [= <- <-]. apply only_answers_refl. Qed.
Lemma ro_assert b : read_only no (h_assert b).
Proof. destruct b; [apply ro_ret|apply ro_fault]. Qed.

Lemma ro_bind {A B} (m : handler A) (k : A -> handler B) :
  read_only no m -> (forall a, read_only no (k a)) -> read_only no (h_bind m k).
Proof.
  intros Hm Hk n r n'. unfold h_bind. destruct (m n) as [[[e|a] n1]|f] eqn:Em; [|intros Ek|done].
  - intros [= <- <-]. by apply Hm in Em.
  - apply Hm in Em. apply Hk in Ek. by eapply only_answers_trans.
Qed.

Lemma ro_catch (m : handler unit) k : read_only no m -> (forall e, read_only no (k e)) -> read_only no (h_catch m k).
Proof.
  intros Hm Hk n r n'. unfold h_catch. destruct (m n) as [[[e|a] n1]|f] eqn:Em; [intros Ek| |done].
  - apply Hm in Em. apply Hk in Ek. by eapply only_answers_trans.
  - intros [= <- <-]. by apply Hm in Em.
Qed.

Lemma ro_respond t : read_only no (respond no t).
Proof. intros n r n' [= <- <-]. by exists [t]. Qed.
Lemma ro_error m : read_only no (error_response no m).
Proof. apply ro_respond. Qed.
End Answers.

#[export] Hint Resolve ro_ret ro_throw ro_fault ro_get ro_res ro_assert ro_respond ro_error : rpc.

(** Split what a handler does into its parts. *)
Ltac read_only_step :=
  first
    [ apply ro_ret | apply ro_throw | apply ro_fault | apply ro_get | apply ro_res | apply ro_assert | apply ro_respond | apply ro_error
    | apply ro_bind; [|intros ?]
    | progress (cbv beta zeta)
    | match goal with
      | |- read_only _ (match ?x with _ => _ end) => destruct x
      | |- read_only _ (let '(_, _) := ?x in _) => destruct x
      end
    | solve [auto with rpc] ].
Ltac read_only := repeat read_only_step.

(** A query of the ledger that returns leaves the tables alone. *)
Lemma ledger_account_same `{Environment} h s a s' : ledger_account h s = Ok (a, s') -> s' = s.
Proof.
  unfold ledger_account, st_bind, st_get, st_assert, st_run, st_ret, st_fault.
  destruct (block_exists s h); [|done]. destruct (account_loop loop_fuel s h 1) as [r|f]; [|done].
  destruct (is_zero r); cbn [negb]; [done|]. by intros [= <- <-].
Qed.

Section Requests.
Context `{PropertyTree, NumberStream}.
Context {no : nat} {request : ptree}.

Lemma ro_request_get k : read_only no (get request k).
Proof. unfold get. read_only. Qed.
Lemma ro_get_child k : read_only no (get_child request k).
Proof. unfold get_child. read_only. Qed.
Lemma ro_on_account t o k : read_only no o -> (forall a, read_only no (k a)) -> read_only no (on_account t o k).
Proof. intros. unfold on_account. read_only; auto. Qed.
Lemma ro_on_hex t o k : read_only no o -> (forall a, read_only no (k a)) -> read_only no (on_hex t o k).
Proof. intros. unfold on_hex. read_only; auto. Qed.
Lemma ro_on_dec t o k : read_only no o -> (forall a, read_only no (k a)) -> read_only no (on_dec t o k).
Proof. intros. unfold on_dec. read_only; auto. Qed.
Lemma ro_on_unsigned t o k : read_only no o -> (forall a, read_only no (k a)) -> read_only no (on_unsigned t o k).
Proof. intros. unfold on_unsigned. read_only; auto. Qed.
Lemma ro_optional_unsigned k x m : read_only no (optional_unsigned no request k x m).
Proof. unfold optional_unsigned. read_only. Qed.
Lemma ro_optional_dec k x m : read_only no (optional_dec no request k x m).
Proof. unfold optional_dec. read_only. Qed.
Lemma ro_optional_hex k x m : read_only no (optional_hex no request k x m).
Proof. unfold optional_hex. read_only. Qed.
Lemma ro_optional_account k x m : read_only no (optional_account no request k x m).
Proof. unfold optional_account. read_only. Qed.
Lemma ro_optional_work k x m : read_only no (optional_work no request k x m).
Proof. unfold optional_work. read_only. Qed.
End Requests.

#[export] Hint Resolve ro_request_get ro_get_child ro_optional_unsigned ro_optional_dec ro_optional_hex ro_optional_account ro_optional_work : rpc.

Ltac read_only_step ::=
  first
    [ apply ro_ret | apply ro_throw | apply ro_fault | apply ro_get | apply ro_res | apply ro_assert | apply ro_respond | apply ro_error
    | apply ro_bind; [|intros ?]
    | apply ro_on_account; [|intros ?] | apply ro_on_hex; [|intros ?] | apply ro_on_dec; [|intros ?] | apply ro_on_unsigned; [|intros ?]
    | progress (cbv beta zeta)
    | match goal with
      | |- read_only _ (match ?x with _ => _ end) => destruct x
      end
    | solve [auto with rpc] ].

(** ** The handlers *)

Section Ledger.
Context `{PropertyTree, NumberStream, Environment}.
Context {no : nat} {request : ptree}.

Lemma ro_ledger_account h : read_only no (on_ledger_h (ledger_account h)).
Proof.
  intros n r n'. unfold on_ledger_h, on_processor, on_ledger.
  destruct (ledger_account h (n_store (rn_node n))) as [[a s]|f] eqn:E; [|done]. intros [= <- <-].
  apply ledger_account_same in E. subst s. exists []. cbn [map]. rewrite answered_nil. by destruct n as [[] ? ? ? ? ? ? ? ? ? ? ?].
Qed.
Lemma ro_balance_pending a : read_only no (node_balance_pending a).
Proof. unfold node_balance_pending, the_store. read_only. Qed.
Lemma ro_node_balance a : read_only no (node_balance a).
Proof. unfold node_balance. read_only. Qed.
Lemma ro_node_weight a : read_only no (node_weight a).
Proof. unfold node_weight. read_only. Qed.
Lemma ro_the_store : read_only no the_store.
Proof. unfold the_store. read_only. Qed.
#[local] Hint Resolve ro_ledger_account ro_balance_pending ro_node_balance ro_node_weight ro_the_store : rpc.

Lemma ro_accounts_balances l t : read_only no (accounts_balances_loop no l t).
Proof. revert t. induction l as [|[k c] l IH]; intros t; cbn [accounts_balances_loop]; read_only. Qed.
Lemma ro_accounts_frontiers l t : read_only no (accounts_frontiers_loop no l t).
Proof. revert t. induction l as [|[k c] l IH]; intros t; cbn [accounts_frontiers_loop]; read_only. Qed.
Lemma ro_accounts_pending c0 th so l t : read_only no (accounts_pending_loop no c0 th so l t).
Proof. revert t. induction l as [|[k c] l IH]; intros t; cbn [accounts_pending_loop]; read_only. Qed.
Lemma ro_blocks l t : read_only no (blocks_loop no l t).
Proof. revert t. induction l as [|[k c] l IH]; intros t; cbn [blocks_loop]; read_only. Qed.
Lemma ro_block_answer p so h b : read_only no (block_answer p so h b).
Proof. unfold block_answer. read_only. Qed.
#[local] Hint Resolve ro_block_answer : rpc.
Lemma ro_blocks_info p so l t : read_only no (blocks_info_loop no p so l t).
Proof. revert t. induction l as [|[k c] l IH]; intros t; cbn [blocks_info_loop]; read_only. Qed.
Lemma ro_info_answer s a i b r w p t : read_only no (info_answer s a i b r w p t).
Proof. unfold info_answer. read_only. Qed.
#[local] Hint Resolve ro_info_answer : rpc.
Lemma ro_ledger_loop s c r w p l t : read_only no (ledger_loop s c r w p l t).
Proof. revert t. induction l as [|[a i] l IH]; intros t; cbn [ledger_loop]; read_only. Qed.
Lemma ro_ledger_sorted_loop s c r w p l i t u : read_only no (ledger_sorted_loop s c r w p l i t u).
Proof. revert i t u. induction l as [|[a x] l IH]; intros i t u; cbn [ledger_sorted_loop]; read_only. Qed.
Lemma ro_history_visitor h b : read_only no (history_visitor h b).
Proof. unfold history_visitor. read_only. Qed.
#[local] Hint Resolve ro_history_visitor : rpc.
Lemma ro_history_loop f c h t : read_only no (history_loop f c h t).
Proof. revert c h t. induction f as [|f IH]; intros c h t; cbn [history_loop]; read_only. Qed.

Lemma ro_controlled m : read_only no (controlled false no m).
Proof. unfold controlled. read_only. Qed.
End Ledger.

#[export] Hint Resolve ro_ledger_account ro_balance_pending ro_node_balance ro_node_weight ro_the_store ro_accounts_balances ro_accounts_frontiers
  ro_accounts_pending ro_blocks ro_blocks_info ro_info_answer ro_ledger_loop ro_ledger_sorted_loop ro_history_loop ro_controlled : rpc.

(** The requests that do something else although control is disabled. *)
Definition unprotected : list string :=
  ["bootstrap"; "bootstrap_any"; "password_enter"; "payment_begin"; "payment_init"; "payment_end"; "payment_wait";
   "process"; "republish"; "wallet_unlock"]%string.

Ltac head_of t := match t with ?f _ => head_of f | _ => t end.
Ltac unfold_handler :=
  lazymatch goal with
  | |- read_only _ (h_bind _ _) => fail
  | |- read_only _ ?h => let f := head_of h in unfold f
  end.

Section Control.
Context `{PropertyTree, NumberStream, Environment, WalletCrypto, Signing, NodeEnvironment, Network, Iteration, MultimapOrder, WorkSource,
          PeerEnvironment, AddressText, RpcVersion}.
Context (fuel no : nat) (d : drawn).

Lemma ro_on_item t bad k : (forall id w, read_only no (k id w)) -> read_only no (on_item no t bad k).
Proof. intros Hk. unfold on_item. read_only; auto. Qed.

Lemma find_action_in {A} t (l : list (string * A)) h : find_action t l = Some h -> exists k, t = str k /\ In (k, h) l.
Proof.
  induction l as [|[k x] l IH]; [done|]. cbn [find_action]. case_bool_decide as Hk.
  - intros [= <-]. exists k. split; [done|by left].
  - intros (k' & -> & Hin)%IH. exists k'. split; [done|by right].
Qed.

Lemma actions_read_only request k h : In (k, h) (actions fuel false no request d) -> ~ In k unprotected -> read_only no h.
Proof.
  intros Hin Hk. unfold actions in Hin.
  repeat (destruct Hin as [Hin|Hin];
    [injection Hin as <- <-;
     first [by exfalso; apply Hk; vm_compute; auto 12
           | unfold_handler; first [apply ro_controlled | try unfold_handler; read_only; try (apply ro_on_item; intros ? ?; read_only)]]|]).
  destruct Hin.
Qed.

Lemma str_inj a b : str a = str b -> a = b.
Proof. intros He%(f_equal string_of_list_ascii). unfold str in He. by rewrite !string_of_list_ascii_of_string in He. Qed.

Lemma before_logging_read_only request t :
  (forall k, t = str k -> ~ In k unprotected) -> read_only no (before_logging false no request d t).
Proof.
  intros Ht. unfold before_logging. repeat case_bool_decide.
  - destruct (Ht "password_enter"%string); [done|]. vm_compute. auto.
  - apply ro_controlled.
  - destruct (Ht "wallet_unlock"%string); [done|]. vm_compute. auto 12.
  - apply ro_ret.
Qed.

(** C12: without control a request only gets answers.  With [enable_control] off,
    whatever a client sends, if the action it names is not one of the ten of
    [unprotected], the request changes nothing of the node: not the ledger, the
    wallets, their locks and queues, the unchecked blocks, the configuration or the
    peers, and nothing is asked of another part; all it can do is to get answers,
    with its own number. *)
Theorem control_protects body n r n' :
  process_request fuel false no d body n = Ok (r, n') ->
  (forall request k, read_json body = Some request -> pt_get request (str "action") = Some (str k) -> ~ In k unprotected) ->
  only_answers no n n'.
Proof.
  intros Hrun Hk. assert (Hro : read_only no (process_request fuel false no d body)); [|by apply Hro in Hrun].
  unfold process_request. apply ro_catch; [|intros []; apply ro_error].
  destruct (read_json body) as [request|] eqn:Hb; [|apply ro_throw].
  specialize (Hk request). unfold dispatch, get.
  destruct (pt_get request (str "action")) as [t|]; [rewrite bind_ret|rewrite bind_throw; apply ro_throw].
  assert (Ht : forall k, t = str k -> ~ In k unprotected) by (intros k ->; by apply Hk).
  apply ro_bind; [by apply before_logging_read_only|intros _].
  destruct (find_action t _) as [h|] eqn:Hf; [|apply ro_error].
  apply find_action_in in Hf as (k & -> & Hin). eapply actions_read_only; [exact Hin|by apply Ht].
Qed.
End Control.
