(* ===== verification/RpcQueries.v ===== *)
(** * Remote procedure calls: queries are answered once

    On a reachable ledger a request that asks for something is answered, exactly once,
    whatever its texts are: with what was asked for or with an error.  The texts of
    accounts must not be those that stop the decoder, and not name the largest
    account. *)
From Stdlib Require Import ZArith Lia List Ascii String.
From stdpp Require Import prelude strings gmap sorting.
From S2P Require Import Prelude Lists Numbers Streams Blocks Store Ledger StoreFacts LedgerInv LedgerQueries LedgerUndo LedgerTheorems Votes Work Messages Unchecked Processor Peers BootstrapServer BootstrapTheorems Wallet WalletActions NumberText Json JsonTheorems Conversions Rpc RpcLedger RpcWallet RpcServer RpcControl.

Local Open Scope rpc_scope.

(** ** Texts of accounts *)

Lemma decode_account_fits t a : decode_account 0 t = Ok (false, a) -> fits 256 a.
Proof.
  assert (Hx : forall x y, @Ok (bool * Z) (x, y) = Ok (false, a) -> y = a) by congruence.
  assert (Hw : forall x z, @Ok (bool * Z) (x, wrap 256 z) = Ok (false, a) -> fits 256 a).
  { intros x z <-%Hx. apply wrap_fits. lia. }
  assert (Ht : forall y, @Ok (bool * Z) (true, y) = Ok (false, a) -> fits 256 a) by discriminate.
  assert (Hv : decode_account_v1 0 t = Ok (false, a) -> fits 256 a).
  { unfold decode_account_v1. destruct (negb _); [apply Ht|].
    destruct (decode_account_v1_loop t 0) as [[[] m]|]; [apply Ht| |discriminate].
    cbv zeta. destruct (negb _); [apply Ht|apply Hw]. }
  unfold decode_account. destruct (length t =? 64)%nat; [|exact Hv].
  destruct t as [|c0 [|c1 [|c2 [|c3 ds]]]]; [apply Ht..|]. destruct (_ && _); [|apply Ht].
  destruct (decode_account_loop ds 0) as [[[] m]|]; [apply Ht|apply Hw|discriminate].
Qed.

Definition largest_account : account := 2 ^ 256 - 1.

(** The decoder comes to an end, and does not give the largest account. *)
Definition benign (t : list ascii) : bool :=
  match decode_account 0 t with
  | Ok (false, a) => negb (a =? largest_account)
  | Ok (true, _) => true
  | Fault _ => false
  end.

Lemma benign_decoded t a : benign t = true -> decode_account 0 t = Ok (false, a) -> 0 <= a < largest_account.
Proof.
  unfold benign. intros Hb Hd. rewrite Hd in Hb. apply negb_true_iff, Z.eqb_neq in Hb. apply decode_account_fits in Hd.
  unfold fits, largest_account in *. lia.
Qed.

(** ** One answer, or an exception *)

Section Settles.
Context `{PropertyTree, NumberStream}.
Context {no : nat} {request : ptree} {n : rpc_node}.

Definition settles (m : handler unit) : Prop :=
  (exists t, m n = Ok (inr tt, answered [(no, t)] n)) \/ exists e, m n = Ok (inl e, n).

Lemma settles_respond t : settles (respond no t).
Proof. left. by exists t. Qed.
Lemma settles_error m : settles (error_response no m).
Proof. apply settles_respond. Qed.
Lemma settles_throw e : settles (throw e).
Proof. right. by exists e. Qed.

Lemma settles_bind {A} (m : handler A) k a : m n = Ok (inr a, n) -> settles (k a) -> settles (h_bind m k).
Proof. intros Hm Hk. unfold settles, h_bind in *. rewrite Hm. exact Hk. Qed.
Lemma settles_node {A} (f : rpc_node -> A) k : settles (k (f n)) -> settles (h_bind (h_get f) k).
Proof. exact id. Qed.
Lemma settles_res {A} (r : res A) k a : r = Ok a -> settles (k a) -> settles (h_bind (h_res r) k).
Proof. intros ->. exact id. Qed.

Lemma settles_get key k : (forall t, pt_get request (str key) = Some t -> settles (k t)) -> settles (h_bind (get request key) k).
Proof.
  intros Hk. unfold get. destruct (pt_get request (str key)) as [t|] eqn:Ht; [exact (Hk t eq_refl)|rewrite bind_throw; apply settles_throw].
Qed.
Lemma settles_account t o k : benign t = true -> settles o ->
  (forall a, decode_account 0 t = Ok (false, a) -> 0 <= a < largest_account -> settles (k a)) -> settles (on_account t o k).
Proof.
  intros Hb Ho Hk. unfold on_account. pose proof (fun a => benign_decoded t a Hb) as Hd. unfold benign in Hb.
  destruct (decode_account 0 t) as [[[] a]|f]; [exact Ho|exact (Hk a eq_refl (Hd a eq_refl))|discriminate Hb].
Qed.
Lemma settles_hex t o k : settles o -> (forall h, settles (k h)) -> settles (on_hex t o k).
Proof. intros Ho Hk. unfold on_hex. destruct (decode_hex256 t); [apply Hk|apply Ho]. Qed.
Lemma settles_dec t o k : settles o -> (forall h, settles (k h)) -> settles (on_dec t o k).
Proof. intros Ho Hk. unfold on_dec. destruct (decode_dec128 t); [apply Hk|apply Ho]. Qed.
Lemma settles_unsigned t o k : settles o -> (forall h, settles (k h)) -> settles (on_unsigned t o k).
Proof. intros Ho Hk. unfold on_unsigned. destruct (decode_unsigned t 0) as [[] c]; [apply Ho|apply Hk]. Qed.
Lemma settles_item t bad k : (forall id w, rn_items n !! id = Some w -> settles (k id w)) -> settles (on_item no t bad k).
Proof.
  intros Hk. unfold on_item. apply settles_hex; [apply settles_error|intros id]. apply settles_node.
  destruct (rn_items n !! id) as [w|] eqn:Hw; [by apply Hk|apply settles_error].
Qed.

(** An exception is answered by [process_request]. *)
Lemma settles_catch m : settles m ->
  exists t, h_catch m (fun e => match e with
                       | Runtime_error => error_response no "Unable to parse JSON"
                       | Logic_error => error_response no "Internal server error in RPC"
                       end) n = Ok (inr tt, answered [(no, t)] n).
Proof. unfold h_catch. intros [(t & ->)|([] & ->)]; by eexists. Qed.
End Settles.

(** ** The ledger *)

Section Facts.
Context `{Environment} {nb : nat} {s : store} {g : ghost} (I : inv_with nb g s).

Lemma rep_block_found a i : accounts s !! a = Some i -> exists b, block_get s (rep_block i) = Some b.
Proof.
  intros Ha. pose proof (inv_head I _ _ Ha) as [_ (hb & Hh) _ _ _ Hr _].
  destruct (ei_rep _ _ _ _ _ _ (inv_entry I _ _ _ Hh)) as (rb & k & Hrb & _). exists rb. rewrite Hr. exact (entry_get _ _ _ Hrb).
Qed.

Lemma found_entry h b : block_get s h = Some b -> exists m, entry_at s h = Some (b, m).
Proof. apply get_entry. Qed.

(** Down a chain the rank falls, up a chain it rises. *)
Lemma chain_back_ends `{PropertyTree, NumberStream} fuel count h t :
  (match entry_at s h with Some _ => grank g h + 2 | None => 1 end <= fuel)%nat ->
  exists t', chain_loop fuel s (fun _ b => previous b) count h t = Ok t'.
Proof.
  revert h t. induction fuel as [|fuel IH]; intros h t Hf; [destruct (entry_at s h); lia|]. cbn [chain_loop].
  destruct (negb (is_zero h) && (Z.of_nat (pt_size t) <? count)); [|by eexists].
  destruct (block_get s h) as [b|] eqn:Hb.
  - destruct (found_entry _ _ Hb) as (m & He). rewrite He in Hf. apply IH.
    destruct (is_open b) eqn:Ho.
    + rewrite (open_previous _ Ho), (zero_entry I). lia.
    + destruct (inv_previous I _ _ _ He Ho) as ((pb & ->) & _ & _ & Hr). lia.
  - destruct fuel as [|fuel].
    + destruct (entry_at s h) as [[b m]|] eqn:He; [|]. { rewrite (entry_get _ _ _ He) in Hb. discriminate. }
      cbn [chain_loop]. by eexists.
    + apply IH. rewrite (zero_entry I). lia.
Qed.

Lemma chain_forth_ends `{PropertyTree, NumberStream} fuel count h t :
  (match entry_at s h with Some _ => nb - grank g h + 1 | None => 1 end <= fuel)%nat ->
  exists t', chain_loop fuel s (fun h _ => block_successor s h) count h t = Ok t'.
Proof.
  revert h t. induction fuel as [|fuel IH]; intros h t Hf; [destruct (entry_at s h); lia|]. cbn [chain_loop].
  destruct (negb (is_zero h) && (Z.of_nat (pt_size t) <? count)); [|by eexists].
  destruct (block_get s h) as [b|] eqn:Hb.
  - destruct (found_entry _ _ Hb) as (m & He). rewrite He in Hf. pose proof (entry_rank I _ _ _ He) as Hrank.
    rewrite block_successor_entry, He. cbn [fmap option_fmap option_map snd from_option id].
    destruct (decide (m = 0)) as [->|Hm]; [|apply IH; destruct (inv_successor I _ _ _ He Hm) as (sb & k & -> & _ & Hr); lia].
    destruct fuel as [|fuel]; [lia|]. cbn [chain_loop]. by eexists.
  - destruct fuel as [|fuel].
    + destruct (entry_at s h) as [[b m]|] eqn:He; [rewrite (entry_get _ _ _ He) in Hb; discriminate|]. cbn [chain_loop]. by eexists.
    + apply IH. rewrite (zero_entry I). lia.
Qed.

Lemma enough_fuel (Hfuel : (query_fuel nb <= loop_fuel)%nat) h : (match entry_at s h with Some _ => grank g h + 2 | None => 1 end <= loop_fuel)%nat
  /\ (match entry_at s h with Some _ => nb - grank g h + 1 | None => 1 end <= loop_fuel)%nat.
Proof.
  unfold query_fuel in Hfuel. destruct (entry_at s h) as [[b m]|] eqn:He; [|lia]. pose proof (entry_rank I _ _ _ He). lia.
Qed.

Lemma delegators_end {A} rep (f : account -> Store.account_info -> A -> A) l acc :
  (forall a i, In (a, i) l -> accounts s !! a = Some i) -> exists x, delegators_loop s rep f l acc = Ok x.
Proof.
  revert acc. induction l as [|[a i] l IH]; intros acc Hl; [by eexists|]. cbn [delegators_loop].
  destruct (rep_block_found a i) as (b & ->); [apply Hl; by left|]. apply IH. intros x y Hx. apply Hl. by right.
Qed.

Lemma table_from_in {A} k (m : gmap Z A) a i : In (a, i) (table_from k m) -> m !! a = Some i.
Proof. intros Hin%list_elem_of_In. by apply table_from_elem in Hin as [_ ?]. Qed.
End Facts.

Section Queries.
Context `{PropertyTree, NumberStream, Environment, WalletCrypto, Signing, NodeEnvironment, Network, Iteration, MultimapOrder, WorkSource,
          PeerEnvironment, AddressText, RpcVersion}.
Context {gb : open_block} {nb : nat} {n : rpc_node}.
Context (R : reachable gb nb (rn_store n)) (Hfuel : (query_fuel nb <= loop_fuel)%nat).
Context (fuel no : nat) (control : bool) (d : drawn).

Lemma on_ledger_same {A} (m : M store A) a : m (rn_store n) = Ok (a, rn_store n) -> on_ledger_h m n = Ok (inr a, n).
Proof.
  intros Hm. unfold on_ledger_h, on_processor, on_ledger. unfold rn_store in Hm. rewrite Hm.
  by destruct n as [[] ? ? ? ? ? ? ? ? ? ? ?].
Qed.

Lemma ledger_account_found {g} (I : inv_with nb g (rn_store n)) h : is_Some (entry_at (rn_store n) h) ->
  on_ledger_h (ledger_account h) n = Ok (inr (gown g h), n).
Proof. intros Hh. by apply on_ledger_same, (ledger_account_ok I Hfuel). Qed.

(** A source that a block names is there. *)
Lemma source_found {g} (I : inv_with nb g (rn_store n)) h b m : entry_at (rn_store n) h = Some (b, m) ->
  match b with
  | Receive b => is_Some (entry_at (rn_store n) (rh_source (receive_h b)))
  | Open b => oh_source (open_h b) = genesis_account \/ is_Some (entry_at (rn_store n) (oh_source (open_h b)))
  | _ => True
  end.
Proof.
  intros He. pose proof (ei_block _ _ _ _ _ _ (inv_entry I _ _ _ He)) as Hb. destruct b as [b|b|b|b|b]; try exact Logic.I; cbn [block_inv] in Hb.
  - destruct Hb as (_ & _ & ((sb & k & Hs & _) & _) & _). by eexists.
  - destruct Hb as (_ & _ & _ & [(Hg & _)|[((sb & k & Hs & _) & _) _]]); [by left|right; by eexists].
Qed.

(** What is reported of a block of the ledger. *)
Lemma history_entry {g} (I : inv_with nb g (rn_store n)) h b m : entry_at (rn_store n) h = Some (b, m) ->
  exists t, history_visitor h b n = Ok (inr t, n).
Proof.
  intros He. unfold history_visitor, the_store. pose proof (source_found I _ _ _ He) as Hs. pose proof (amount_ok I Hfuel _ _ _ He) as Ha.
  destruct b as [b|b|b|b|b]; unfold h_bind, h_get, h_res, h_ret; rewrite ?Ha; try by eexists.
  - rewrite (ledger_account_found I) by exact Hs. by eexists.
  - destruct (Z.eqb_spec (oh_source (open_h b)) genesis_account) as [Hg|Hg]; cbn [negb]; [by eexists|].
    rewrite (ledger_account_found I) by (by destruct Hs). by eexists.
Qed.

Lemma history_ends {g} (I : inv_with nb g (rn_store n)) f count h t :
  (match entry_at (rn_store n) h with Some _ => grank g h + 1 | None => 0 end <= f)%nat ->
  exists t', history_loop f count h t n = Ok (inr t', n).
Proof.
  revert count h t. induction f as [|f IH]; intros count h t Hf; cbn [history_loop]; unfold h_bind at 1, the_store at 1, h_get at 1;
    destruct (block_get (rn_store n) h) as [b|] eqn:Hb; try by eexists.
  - destruct (found_entry _ _ Hb) as (m & He). rewrite He in Hf. lia.
  - destruct (found_entry _ _ Hb) as (m & He). rewrite He in Hf. destruct (0 <? count); [|by eexists].
    destruct (history_entry I _ _ _ He) as (e & Hv). unfold h_bind at 1. rewrite Hv. cbv beta iota zeta. apply IH.
    destruct (is_open b) eqn:Ho; [rewrite (open_previous _ Ho), (zero_entry I); lia|].
    destruct (inv_previous I _ _ _ He Ho) as ((pb & ->) & _ & _ & Hr). lia.
Qed.

Lemma unchecked_found h l : (forall k bytes, In (k, bytes) l -> exists b, block_ok b /\ bytes = serialize_block b) ->
  exists x, unchecked_find h l = Ok x.
Proof.
  induction l as [|[k bytes] l IH]; intros Hl; [by eexists|]. cbn [unchecked_find].
  destruct (Hl k bytes) as (b & Hok & ->); [by left|]. unfold unchecked_block.
  rewrite <- (app_nil_r (serialize_block b)), block_read_written by done.
  destruct (Blocks.hash b =? h); [by eexists|]. apply IH. intros k' bytes' Hin. apply (Hl k'). by right.
Qed.

(** The requests that only look something up, and are answered at once. *)
Definition queries : list string :=
  ["account_balance"; "account_block_count"; "account_get"; "account_history"; "account_info"; "account_key"; "account_list";
   "account_representative"; "account_weight"; "available_supply"; "block"; "block_account"; "block_count"; "block_count_type";
   "successors"; "chain"; "delegators"; "delegators_count"; "deterministic_key"; "frontiers"; "frontier_count"; "history";
   "key_create"; "key_expand"; "krai_from_raw"; "krai_to_raw"; "mrai_from_raw"; "mrai_to_raw"; "password_valid"; "peers";
   "pending_exists"; "rai_from_raw"; "rai_to_raw"; "unchecked_get"; "validate_account_number"; "version"; "wallet_contains";
   "wallet_export"; "wallet_frontiers"; "wallet_key_valid"; "wallet_locked"; "wallet_representative"]%string.

Context (request : ptree) (Hbenign : forall k t, pt_get request k = Some t -> benign t = true).
Context (Hunchecked : unchecked_ok (n_unchecked (rn_node n))).

Local Abbreviation settles := (settles (no := no) (n := n)).

Ltac settle :=
  repeat first
    [ apply settles_respond | apply settles_error | apply settles_throw
    | apply settles_get; intros ? ?
    | apply settles_account; [by eapply Hbenign| |intros ? ? ?]
    | apply settles_hex; [|intros ?] | apply settles_dec; [|intros ?] | apply settles_unsigned; [|intros ?]
    | apply settles_item; intros ? ? ?
    | apply settles_node
    | progress (cbv beta zeta)
    | match goal with |- RpcQueries.settles (match ?x with _ => _ end) => destruct x eqn:? end ].

Lemma pending_total a : 0 <= a < largest_account -> exists p, node_balance_pending a n = Ok (inr (account_balance (rn_store n) a, p), n).
Proof.
  intros Ha. unfold node_balance_pending, the_store, h_bind, h_get, h_res. unfold largest_account in Ha.
  rewrite (account_pending_sum R Hfuel) by lia. by eexists.
Qed.

Lemma account_info_settles : settles (account_info no request).
Proof.
  destruct (reachable_inv _ _ _ R Hfuel) as (g & I). unfold account_info, the_store, Store.account_get. settle.
  match goal with |- RpcQueries.settles (h_bind (info_answer ?s ?a ?i ?b ?r ?w ?p ?t) ?k) =>
    assert (exists t', info_answer s a i b r w p t n = Ok (inr t', n)) as (t' & Ht) end.
  { unfold info_answer. match goal with Hi : accounts _ !! _ = Some ?i |- _ => destruct (rep_block_found I _ _ Hi) as (rb & Hrb) end.
    unfold h_bind, h_ret, h_res. rewrite Hrb. unfold largest_account in *.
    destruct (flag request "representative" false), (flag request "pending" false); rewrite ?(account_pending_sum R Hfuel) by lia; by eexists. }
  eapply settles_bind; [exact Ht|]. settle.
Qed.

Lemma account_balance_settles : settles (rpc_account_balance no request).
Proof.
  unfold rpc_account_balance. settle. match goal with Ha : 0 <= ?a < largest_account |- _ => destruct (pending_total a Ha) as (p & Hp) end.
  eapply settles_bind; [exact Hp|]. settle.
Qed.

Lemma account_representative_settles : settles (account_representative no request).
Proof.
  destruct (reachable_inv _ _ _ R Hfuel) as (g & I). unfold account_representative, the_store, Store.account_get. settle.
  match goal with Hi : accounts _ !! _ = Some ?i, Hn : block_get _ (rep_block ?i) = None |- _ =>
    destruct (rep_block_found I _ _ Hi) as (rb & Hrb); rewrite Hrb in Hn; discriminate Hn end.
Qed.

Lemma available_supply_settles : settles (available_supply no).
Proof.
  destruct (pending_total 0) as (p & Hp); [unfold largest_account; lia|]. unfold available_supply, node_balance.
  do 3 apply settles_node. eapply settles_bind; [exact Hp|]. settle.
Qed.

Lemma block_account_settles : settles (block_account no request).
Proof.
  destruct (reachable_inv _ _ _ R Hfuel) as (g & I). unfold block_account, the_store. settle.
  match goal with Hx : block_exists _ ?h = true |- _ =>
    eapply settles_bind; [apply (ledger_account_found I); by apply block_exists_true|] end. settle.
Qed.

Lemma chains_settle : settles (successors no request) /\ settles (chain no request).
Proof.
  destruct (reachable_inv _ _ _ R Hfuel) as (g & I). unfold successors, chain, chain_answer, the_store. split; settle.
  - destruct (chain_forth_ends I loop_fuel h0 h pt_empty) as (t' & Ht); [apply (enough_fuel I Hfuel)|].
    eapply settles_res; [exact Ht|]. settle.
  - destruct (chain_back_ends I loop_fuel h0 h pt_empty) as (t' & Ht); [apply (enough_fuel I Hfuel)|].
    eapply settles_res; [exact Ht|]. settle.
Qed.

Lemma delegators_settle : settles (delegators no request) /\ settles (delegators_count no request).
Proof.
  destruct (reachable_inv _ _ _ R Hfuel) as (g & I). unfold delegators, delegators_count, the_store. split; settle.
  - match goal with |- RpcQueries.settles (h_bind (h_res (delegators_loop ?s ?r ?f ?l ?a)) ?k) =>
      destruct (delegators_end I r f l a) as (x & Hx); [apply table_from_in|] end. eapply settles_res; [exact Hx|]. settle.
  - match goal with |- RpcQueries.settles (h_bind (h_res (delegators_loop ?s ?r ?f ?l ?a)) ?k) =>
      destruct (delegators_end I r f l a) as (x & Hx); [apply table_from_in|] end. eapply settles_res; [exact Hx|]. settle.
Qed.

Lemma histories_settle : settles (history no request) /\ settles (account_history no request).
Proof.
  destruct (reachable_inv _ _ _ R Hfuel) as (g & I). unfold history, account_history. split; settle.
  - destruct (history_ends I loop_fuel h0 h pt_empty) as (t' & Ht).
    { pose proof (proj1 (enough_fuel I Hfuel h)). destruct (entry_at (rn_store n) h); lia. }
    eapply settles_bind; [exact Ht|]. settle.
  - match goal with |- RpcQueries.settles (h_bind (history_loop ?f ?c ?h ?t) ?k) =>
      destruct (history_ends I f c h t) as (t' & Ht);
        [pose proof (proj1 (enough_fuel I Hfuel h)); destruct (entry_at (rn_store n) h); lia|] end.
    eapply settles_bind; [exact Ht|]. settle.
Qed.

Lemma unchecked_get_settles : settles (rpc_unchecked_get no request).
Proof.
  unfold rpc_unchecked_get. settle.
  destruct (unchecked_found h (unchecked_db (n_unchecked (rn_node n)))) as (x & Hx).
  { intros k bytes Hin%list_elem_of_In. by eapply uo_db. }
  eapply settles_res; [exact Hx|]. settle.
Qed.

Lemma validate_settles : settles (validate_account_number no request).
Proof.
  unfold validate_account_number. apply settles_get. intros t Ht%Hbenign. unfold benign in Ht.
  destruct (decode_account 0 t) as [r|f]; [eapply settles_res; [reflexivity|]; settle|discriminate Ht].
Qed.

Lemma queries_settle k h : In (k, h) (actions fuel control no request d) -> In k queries -> settles h.
Proof.
  intros Hin Hk. assert (Hq : existsb (String.eqb k) queries = true) by (apply existsb_exists; exists k; split; [done|apply String.eqb_refl]).
  clear Hk. pose proof account_balance_settles. pose proof account_info_settles. pose proof account_representative_settles.
  pose proof available_supply_settles. pose proof block_account_settles. pose proof chains_settle as [? ?]. pose proof delegators_settle as [? ?].
  pose proof histories_settle as [? ?]. pose proof unchecked_get_settles. pose proof validate_settles.
  unfold actions in Hin.
  repeat (destruct Hin as [Hin|Hin];
    [injection Hin as <- <-; first [discriminate Hq | assumption
      | match goal with |- RpcQueries.settles ?h => let f := head_of h in unfold f; unfold the_store, node_weight; settle end]|]).
  destruct Hin.
Qed.

Lemma find_action_some {A} k (l : list (string * A)) : existsb (String.eqb k) (map fst l) = true -> is_Some (find_action (str k) l).
Proof.
  induction l as [|[x a] l IH]; [done|]. cbn [map fst existsb find_action]. case_bool_decide as Hx; [by eexists|].
  destruct (String.eqb_spec k x) as [->|]; [done|]. exact IH.
Qed.

(** The handler of an action that is not run before logging. *)
Lemma request_runs k (h : handler unit) : pt_get request (str "action") = Some (str k) ->
  find_action (str k) (actions fuel control no request d) = Some h ->
  existsb (String.eqb k) ["password_enter"; "password_change"; "wallet_unlock"]%string = false ->
  dispatch fuel control no request d = h.
Proof.
  intros Ha Hf Hb. unfold dispatch, get. rewrite Ha, bind_ret, Hf. unfold before_logging.
  cbn [existsb] in Hb. apply orb_false_iff in Hb as [H1' [H2' [H3' _]%orb_false_iff]%orb_false_iff].
  apply String.eqb_neq in H1', H2', H3'. by repeat (rewrite bool_decide_false by (intros ?%str_inj; contradiction)).
Qed.

Lemma dispatch_action k : pt_get request (str "action") = Some (str k) ->
  existsb (String.eqb k) (map fst (actions fuel control no request d)) = true ->
  existsb (String.eqb k) ["password_enter"; "password_change"; "wallet_unlock"]%string = false ->
  exists h, In (k, h) (actions fuel control no request d) /\ dispatch fuel control no request d = h.
Proof.
  intros Ha Hk Hb. destruct (find_action_some k _ Hk) as (h & Hf). pose proof Hf as Hin.
  apply find_action_in in Hin as (k' & <-%str_inj & Hin). exists h. split; [done|]. by apply (request_runs k).
Qed.
End Queries.

Section Answered.
Context `{PropertyTree, NumberStream, Environment, WalletCrypto, Signing, NodeEnvironment, Network, Iteration, MultimapOrder, WorkSource,
          PeerEnvironment, AddressText, RpcVersion}.
Context (fuel no : nat) (control : bool) (d : drawn).

(** C13: a query is answered exactly once.  On a node with a reachable ledger, with
    enough fuel for its chains and unchecked blocks that can be read, a request that
    names one of the 42 actions of [queries] ends without a failed assertion, gives
    exactly one answer, with its own number, and changes nothing else, whatever the
    other texts of the request are and whether texts are missing, as long as no text
    stops the decoder of accounts or names the largest account. *)
Theorem queries_answered gb nb n body request k :
  reachable gb nb (rn_store n) -> (query_fuel nb <= loop_fuel)%nat -> unchecked_ok (n_unchecked (rn_node n)) ->
  read_json body = Some request -> pt_get request (str "action") = Some (str k) -> In k queries ->
  (forall key t, pt_get request key = Some t -> benign t = true) ->
  exists t, process_request fuel control no d body n = Ok (inr tt, answered [(no, t)] n).
Proof.
  intros R Hfuel Hu Hbody Ha Hk Hbenign.
  assert (Hall : forallb (fun k => existsb (String.eqb k) (map fst (actions fuel control no request d))
    && negb (existsb (String.eqb k) ["password_enter"; "password_change"; "wallet_unlock"]%string)) queries = true) by reflexivity.
  rewrite forallb_forall in Hall. specialize (Hall k Hk). apply andb_true_iff in Hall as [H1' H2'%negb_true_iff].
  destruct (dispatch_action fuel no control d request k Ha H1' H2') as (h & Hin & Hd).
  unfold process_request. rewrite Hbody, Hd. apply settles_catch.
  by apply (queries_settle R Hfuel fuel no control d request Hbenign Hu k).
Qed.

(** A client can stop the node.  When something is pending for any account but
    the largest one, the request for the balance of the largest account fails an
    assertion, whether control is enabled or not: the walk over the table of pending
    blocks ends at the account after it, which wraps to zero, and so leaves the table. *)
Theorem largest_account_stops_node n body request dest h i :
  pending (rn_store n) !! (dest, h) = Some i -> dest < largest_account ->
  read_json body = Some request -> pt_get request (str "action") = Some (str "account_balance") ->
  pt_get request (str "account") = Some (to_account largest_account) ->
  process_request fuel control no d body n = Fault Assertion_failed.
Proof.
  intros Hp Hdest Hbody Ha Haccount.
  unfold process_request, h_catch. rewrite Hbody, (request_runs fuel no control d request "account_balance" _ Ha eq_refl eq_refl).
  unfold rpc_account_balance, get. rewrite Haccount, bind_ret.
  unfold on_account. rewrite to_account_back by (unfold fits, largest_account; lia).
  assert (Hf : account_pending (rn_store n) largest_account = Fault Assertion_failed).
  { unfold account_pending. change (is_zero (wrap 256 (largest_account + 1))) with true. cbv iota.
    rewrite bool_decide_false; [done|]. intros Hall. specialize (Hall _ _ Hp). cbn in Hall. lia. }
  unfold h_bind, h_res, node_balance_pending, the_store, h_get. cbv beta iota. unfold h_bind. by rewrite Hf.
Qed.
End Answered.
