(* ===== verification/RpcAnswers.v ===== *)
(** * Remote procedure calls: what is answered about the ledger

    The answers are read back from the trees that are sent: the history of an account
    adds up to its balance, and the delegators of a representative to its weight.  The
    request "chain" walks from a block to the block before it, "successors" to the block
    after it, over links that the store keeps in separate places: on a reachable ledger
    the two walks over the chain of an account meet the same blocks in opposite order. *)
From Stdlib Require Import ZArith Lia List Ascii String.
From stdpp Require Import prelude strings gmap sorting.
From S2P Require Import Prelude Lists Numbers Streams Blocks Store Ledger StoreFacts LedgerInv LedgerQueries LedgerUndo LedgerTheorems Votes Work Messages Unchecked Processor Peers BootstrapServer BootstrapTheorems Wallet WalletActions NumberText NumberTextTheorems Json JsonTheorems Conversions Rpc RpcLedger RpcWallet RpcServer RpcControl RpcQueries.

Local Open Scope rpc_scope.

(** ** Sums of numbers that are read *)

(** The sum, if all of them were read. *)
Definition total (l : list (option Z)) : option Z :=
  foldr (fun x acc => match x, acc with Some a, Some b => Some (a + b) | _, _ => None end) (Some 0) l.

Lemma total_map {A} (f : A -> option Z) (v : A -> Z) l : (forall x, In x l -> f x = Some (v x)) ->
  total (map f l) = Some (foldr (fun x acc => v x + acc) 0 l).
Proof.
  induction l as [|x l IH]; intros Hf; [done|]. cbn [map total foldr]. rewrite (Hf x) by (by left).
  fold (total (map f l)). rewrite IH; [done|]. intros y Hy. apply Hf. by right.
Qed.

Lemma total_cons x l : total (x :: l) = match x, total l with Some a, Some b => Some (a + b) | _, _ => None end.
Proof. done. Qed.

Section Read.
Context `{PropertyTree, NumberStream}.

Lemma dec_back m : fits 128 m -> decode_dec128 (dec m) = Some m.
Proof. intros Hm. exact (proj1 (proj1 (text_read_back m) Hm)). Qed.

(** The child that an answer has under a name. *)
Lemma answer_child k c : plain (str k) = true -> pt_get_child (add_child k c pt_empty) (str k) = Some c.
Proof.
  intros Hk. rewrite get_child_tree by done. unfold add_child. rewrite add_child_children by done. unfold pt_empty.
  rewrite leaf_children. cbn [app first_child]. by rewrite bool_decide_true.
Qed.

(** ** History *)

(** What an entry of the history says was received, or sent. *)
Definition signed_amount (t : ptree) : option Z :=
  match pt_get t (str "type"), pt_get t (str "amount") with
  | Some ty, Some m =>
      if bool_decide (ty = str "receive") then decode_dec128 m
      else if bool_decide (ty = str "send") then Z.opp <$> decode_dec128 m
      else None
  | _, _ => None
  end.

Definition history_fields (ty acc m : list ascii) : list (string * list ascii) :=
  [("type"%string, ty); ("account"%string, acc); ("amount"%string, m)].

Lemma history_keys ty acc m l : l = [] \/ (exists h, l = [("hash"%string, h)]) ->
  (forall k v, In (k, v) (history_fields ty acc m ++ l) -> plain (str k) = true)
  /\ NoDup (map (fun x => str (fst x)) (history_fields ty acc m ++ l)).
Proof.
  intros [->|(h & ->)]; (split; [intros k v Hin; cbn in Hin; repeat (destruct Hin as [[= <- <-]|Hin]; [reflexivity|]); destruct Hin|]);
    cbn [history_fields app map fst]; apply (bool_decide_unpack _); reflexivity.
Qed.

Definition direction (receive : bool) : list ascii := str (if receive then "receive" else "send").

Lemma signed_history receive acc m h : fits 128 m ->
  signed_amount (put "hash" h (tree_of (history_fields (direction receive) acc (dec m)))) = Some (if receive : bool then m else - m).
Proof.
  intros Hm. destruct (history_keys (direction receive) acc (dec m) [("hash"%string, h)]) as [Hp Hd]; [right; by eexists|].
  change (put "hash" h (tree_of ?l)) with (tree_of (l ++ [("hash"%string, h)])).
  unfold signed_amount. rewrite (tree_of_get _ _ (direction receive) Hp Hd), (tree_of_get _ _ (dec m) Hp Hd) by (cbn; auto).
  rewrite dec_back by done. by destruct receive.
Qed.

Lemma history_size ty acc m : pt_size (tree_of (history_fields ty acc m)) = 3%nat.
Proof.
  destruct (history_keys ty acc m []) as [Hp Hd]; [by left|]. rewrite app_nil_r in Hp, Hd.
  unfold pt_size. by rewrite (proj2 (tree_of_children _ Hp Hd)).
Qed.

Lemma empty_size : pt_size pt_empty = 0%nat.
Proof. unfold pt_size, pt_empty. by rewrite leaf_children. Qed.
End Read.

Section Moved.
Context `{Environment} {nb : nat} {s : store} {g : ghost} (I : inv_with nb g s).

Lemma sent_fits h sb m : entry_at s h = Some (Send sb, m) -> fits 128 (gamt g h).
Proof.
  intros He. pose proof (ei_block _ _ _ _ _ _ (inv_entry I _ _ _ He)) as (((pb & Hp) & _) & _ & Hb & Ha & Hn).
  pose proof (ei_fits _ _ _ _ _ _ (inv_entry I _ _ _ He)). pose proof (ei_fits _ _ _ _ _ _ (inv_entry I _ _ _ Hp)).
  unfold fits in *. lia.
Qed.

Lemma moved_fits h b m : entry_at s h = Some (b, m) -> fits 128 (moved (g := g) h b).
Proof.
  intros He. pose proof (ei_block _ _ _ _ _ _ (inv_entry I _ _ _ He)) as Hb. destruct b as [b|b|b|b|b]; cbn [moved].
  - by eapply sent_fits.
  - by apply fits_0.
  - destruct Hb as (_ & _ & ((sb & k & Hs & _) & _) & _). by eapply sent_fits.
  - apply (ei_fits _ _ _ _ _ _ (inv_entry I _ _ _ He)).
  - by apply fits_0.
Qed.

(** The balance a block leaves, from the one before it. *)
Lemma balance_step h b m : entry_at s h = Some (b, m) ->
  gbal g h = match b with
             | Send _ => gbal g (previous b) - moved (g := g) h b
             | Receive _ => gbal g (previous b) + moved (g := g) h b
             | Change _ => gbal g (previous b)
             | _ => moved (g := g) h b
             end.
Proof.
  intros He. pose proof (ei_block _ _ _ _ _ _ (inv_entry I _ _ _ He)) as Hb. destruct b as [b|b|b|b|b]; cbn [moved previous]; cbn [block_inv] in Hb.
  - destruct Hb as (_ & _ & _ & -> & _). lia.
  - destruct Hb.
  - apply Hb.
  - done.
  - apply Hb.
Qed.
End Moved.

Section History.
Context `{PropertyTree, NumberStream, Environment, WalletCrypto, Signing, NodeEnvironment, Network, Iteration, MultimapOrder, WorkSource,
          PeerEnvironment, AddressText, RpcVersion}.
Context {gb : open_block} {nb : nat} {n : rpc_node}.
Context (R : reachable gb nb (rn_store n)) (Hfuel : (query_fuel nb <= loop_fuel)%nat).
Context {g : ghost} (I : inv_with nb g (rn_store n)).

(** Whether a block is reported, and as received. *)
Definition reported (b : block) : option bool :=
  match b with Send _ => Some false | Receive _ | Open _ => Some true | _ => None end.

Lemma history_of h b m : entry_at (rn_store n) h = Some (b, m) ->
  exists t, history_visitor h b n = Ok (inr t, n)
  /\ match reported b with
     | Some r => exists acc, t = tree_of (history_fields (direction r) acc (dec (moved (g := g) h b)))
     | None => t = pt_empty
     end.
Proof.
  intros He. unfold history_visitor, the_store. pose proof (source_found I _ _ _ He) as Hs. pose proof (amount_ok I Hfuel _ _ _ He) as Ha.
  destruct b as [b|b|b|b|b]; unfold h_bind, h_get, h_res, h_ret; rewrite ?Ha; cbn [reported]; try by (eexists; split; [reflexivity|]; eexists; reflexivity).
  - rewrite (ledger_account_found R Hfuel I) by exact Hs. by (eexists; split; [reflexivity|]; eexists; reflexivity).
  - destruct (Z.eqb_spec (oh_source (open_h b)) genesis_account) as [Hg|Hg]; cbn [negb].
    + eexists. split; [reflexivity|]. exists (to_account genesis_account).
      pose proof (ei_block _ _ _ _ _ _ (inv_entry I _ _ _ He)) as (_ & _ & _ & [(_ & _ & Hb)|[((sb & k & Hsrc & _) & _) _]]).
      * cbn [moved]. by rewrite Hb.
      * rewrite Hg in Hsrc. destruct (ei_reserved _ _ _ _ _ _ (inv_entry I _ _ _ Hsrc)). unfold reserved. auto.
    + rewrite (ledger_account_found R Hfuel I) by (by destruct Hs). by (eexists; split; [reflexivity|]; eexists; reflexivity).
Qed.

(** What the loop appends adds up to the balance it starts from. *)
Lemma history_sum f count h t : is_Some (entry_at (rn_store n) h) -> (grank g h < f)%nat -> Z.of_nat (grank g h) < count ->
  exists t' l, history_loop f count h t n = Ok (inr t', n)
  /\ pt_children t' = pt_children t ++ map (pair []) l /\ total (map signed_amount l) = Some (gbal g h).
Proof.
  revert count h t. induction f as [|f IH]; intros count h t [[b m] He] Hf Hc; [lia|]. cbn [history_loop].
  unfold h_bind at 1, the_store at 1, h_get at 1. rewrite (entry_get _ _ _ He). rewrite (proj2 (Z.ltb_lt 0 count)) by lia.
  destruct (history_of _ _ _ He) as (e & Hv & He'). unfold h_bind at 1. rewrite Hv. cbv beta iota zeta.
  set (t1 := if (0 <? pt_size e)%nat then _ else _).
  assert (Ht1 : exists l1, pt_children t1 = pt_children t ++ map (pair []) l1
    /\ forall l x, total (map signed_amount l) = Some x ->
         total (map signed_amount (l1 ++ l)) = Some (match reported b with Some true => moved (g := g) h b | Some false => - moved (g := g) h b | None => 0 end + x)).
  { unfold t1. pose proof (moved_fits I _ _ _ He) as Hm. destruct (reported b) as [r|].
    - destruct He' as (acc & ->). rewrite history_size. cbn [Nat.ltb Nat.leb]. exists [put "hash" (to_string h) (tree_of (history_fields (direction r) acc (dec (moved (g := g) h b))))].
      rewrite push_back_children. split; [done|]. intros l x Hx. cbn [app map]. rewrite total_cons, Hx, signed_history by done. by destruct r.
    - subst e. rewrite empty_size. cbn [Nat.ltb Nat.leb]. exists []. rewrite app_nil_r. split; [done|]. intros l x Hx. exact Hx. }
  clearbody t1. destruct Ht1 as (l1 & Hl1 & Hadd). pose proof (balance_step I _ _ _ He) as Hstep.
  destruct (is_open b) eqn:Ho.
  - rewrite (open_previous _ Ho). exists t1, l1. split_and!; [|done|].
    + assert (Hz : block_get (rn_store n) 0 = None).
      { destruct (block_get (rn_store n) 0) as [z|] eqn:Hz; [|done]. apply found_entry in Hz as (k & Hz). by rewrite (zero_entry I) in Hz. }
      destruct f; cbn [history_loop]; unfold h_bind at 1, the_store at 1, h_get at 1; by rewrite Hz.
    + specialize (Hadd [] 0 eq_refl). rewrite app_nil_r in Hadd. rewrite Hadd, Hstep. f_equal. destruct b; [discriminate..| |discriminate]. cbn. lia.
  - destruct (inv_previous I _ _ _ He Ho) as (Hprev & _ & _ & Hr).
    destruct (IH (count - 1) (previous b) t1) as (t' & l & Hrun & Hch & Hsum); [destruct Hprev as (pb & ->); by eexists|lia..|].
    exists t', (l1 ++ l). split_and!; [exact Hrun|by rewrite Hch, Hl1, map_app, app_assoc|]. rewrite (Hadd _ _ Hsum), Hstep. f_equal.
    pose proof (ei_block _ _ _ _ _ _ (inv_entry I _ _ _ He)) as Hbi.
    destruct b; cbn [reported]; try discriminate Ho; try destruct Hbi; lia.
Qed.
End History.

(** ** Delegators *)

Section Sums.
Lemma foldr_filter_add {A} (P : A -> bool) (v : A -> Z) l :
  foldr (fun x acc => v x + acc) 0 (filter (fun x => P x = true) l) = foldr (fun x acc => (if P x then v x else 0) + acc) 0 l.
Proof. induction l as [|x l IH]; [done|]. rewrite filter_cons. cbn [foldr]. destruct (P x); case_decide; try done; cbn [foldr]; lia. Qed.

(** A sum over a table, along its keys. *)
Lemma msum_table {V} (f : Z -> V -> Z) (m : gmap Z V) : (forall k v, m !! k = Some v -> 0 <= k) ->
  msum f m = foldr (fun x acc => f (fst x) (snd x) + acc) 0 (table_from 0 m).
Proof.
  intros Hk. unfold msum, mfold. rewrite map_fold_foldr.
  assert (Hp : table_from 0 m ≡ₚ map_to_list m).
  { unfold table_from. rewrite list_filter_all_in; [apply merge_sort_Permutation|].
    intros [k v] Hin. apply (perm_in _ _ _ (merge_sort_Permutation key_le _)), elem_of_map_to_list in Hin. exact (Hk _ _ Hin). }
  symmetry. etrans; [apply (foldr_permutation (=) (fun x acc => f (fst x) (snd x) + acc) 0); [..|exact Hp]|].
  - intros. lia.
  - clear Hp Hk. induction (map_to_list m) as [|[k v] l IH]; [done|]. cbn. f_equal. exact IH.
Qed.
End Sums.

Section Delegators.
Context `{PropertyTree, NumberStream, Environment} {s : store}.

Definition delegates (rep : account) (x : Z * Store.account_info) : bool := repr (entry_at s) (rep_block (snd x)) =? rep.
Definition delegator_row (x : Z * Store.account_info) : list ascii * ptree := (to_account (fst x), pt_leaf (encode_dec128 (balance_of (snd x)))).

Lemma delegators_rows rep l t :
  NoDup (map fst l) -> (forall a i, In (a, i) l -> fits 256 a /\ is_Some (block_get s (rep_block i)) /\ ~ In (to_account a) (map fst (pt_children t))) ->
  exists t', delegators_loop s rep (fun a i t => pt_put (to_account a) (encode_dec128 (balance_of i)) t) l t = Ok t'
  /\ pt_children t' = pt_children t ++ map delegator_row (filter (fun x => delegates rep x = true) l).
Proof.
  revert t. induction l as [|[a i] l IH]; intros t Hd Hl; [exists t; by rewrite app_nil_r|]. cbn [delegators_loop].
  destruct (Hl a i) as (Ha & (b & Hb) & Hnew); [by left|]. rewrite Hb. cbn [map fst] in Hd. apply NoDup_cons in Hd as [Hx Hd].
  assert (Hr : delegates rep (a, i) = (representative b =? rep)).
  { unfold delegates, repr. cbn [snd]. by apply found_entry in Hb as (m & ->). }
  rewrite filter_cons. destruct (representative b =? rep); rewrite Hr; case_decide; try done.
  - assert (Hc : pt_children (pt_put (to_account a) (encode_dec128 (balance_of i)) t) = pt_children t ++ [delegator_row (a, i)])
      by (apply put_fresh; [apply to_account_plain|done]).
    destruct (IH (pt_put (to_account a) (encode_dec128 (balance_of i)) t) Hd) as (t' & Ht & Hch).
    + intros x j Hin. destruct (Hl x j) as (Hfit & Hfound & Hn); [by right|]. split_and!; [done..|]. rewrite Hc, map_app.
      intros [Hy|[Hy|[]]]%in_app_iff; [done|]. apply to_account_inj in Hy; [|done..]. subst x. apply Hx, list_elem_of_In, in_map_iff. by exists (a, j).
    + exists t'. split; [done|]. by rewrite Hch, Hc, <- app_assoc.
  - apply IH; [done|]. intros x j Hin. apply Hl. by right.
Qed.
End Delegators.

Section Claims.
Context `{PropertyTree, NumberStream, Environment, WalletCrypto, Signing, NodeEnvironment, Network, Iteration, MultimapOrder, WorkSource,
          PeerEnvironment, AddressText, RpcVersion}.
Context (fuel no : nat) (control : bool) (d : drawn).

(** The handler of a request that is not run before logging. *)
Lemma process_action body request k (h : handler unit) n t :
  read_json body = Some request -> pt_get request (str "action") = Some (str k) ->
  find_action (str k) (actions fuel control no request d) = Some h ->
  existsb (String.eqb k) ["password_enter"; "password_change"; "wallet_unlock"]%string = false ->
  h n = Ok (inr tt, answered [(no, t)] n) -> process_request fuel control no d body n = Ok (inr tt, answered [(no, t)] n).
Proof.
  intros Hbody Ha Hf Hb Hrun. unfold process_request, h_catch. by rewrite Hbody, (request_runs fuel no control d request k h Ha Hf Hb), Hrun.
Qed.

(** C14: the history of an account adds up to its balance.  When an account of a
    reachable ledger is asked for its history, with a count that is not less than the
    number of blocks that were put into the ledger, the request gets one answer, and
    the amounts of its entries, those with type "receive" counted positive and those
    with type "send" negative, can all be read and add up to the balance of the
    account.  The fuel suffices for every chain. *)
Theorem history_adds_up gb nb n body request a i t count :
  reachable gb nb (rn_store n) -> (query_fuel nb <= loop_fuel)%nat -> fits 256 genesis_account ->
  read_json body = Some request -> pt_get request (str "action") = Some (str "account_history") ->
  pt_get request (str "account") = Some (to_account a) -> accounts (rn_store n) !! a = Some i ->
  pt_get request (str "count") = Some t -> decode_unsigned t 0 = (false, count) -> Z.of_nat nb <= count ->
  exists answer entries,
    process_request fuel control no d body n = Ok (inr tt, answered [(no, answer)] n)
    /\ pt_get_child answer (str "history") = Some entries
    /\ total (map (fun x => signed_amount (snd x)) (pt_children entries)) = Some (balance_of i).
Proof.
  intros R Hfuel Hg Hbody Haction Haccount Ha Hcount Ht Hnb.
  destruct (reachable_inv _ _ _ R Hfuel) as (g & I). pose proof (accounts_fit R Hfuel a i Hg Ha) as Hfit.
  pose proof (inv_head I _ _ Ha) as [_ (hb & Hh) _ Hbal _ _ _]. pose proof (entry_rank I _ _ _ Hh) as Hrank.
  destruct (history_sum R Hfuel I loop_fuel count (head i) pt_empty) as (entries & l & Hrun & Hch & Hsum);
    [by eexists|unfold query_fuel in Hfuel; lia|lia|].
  exists (add_child "history" entries pt_empty), entries. split_and!.
  - eapply process_action; [done..|reflexivity|reflexivity|]. unfold account_history, get.
    rewrite Haccount, bind_ret, Hcount, bind_ret. unfold on_account. rewrite to_account_back by (unfold fits; lia).
    unfold h_bind at 1, h_res at 1. unfold on_unsigned. rewrite Ht. unfold h_bind at 1, h_get, latest, Store.account_get. rewrite Ha.
    unfold h_bind at 1. cbn [from_option fmap option_fmap option_map]. rewrite Hrun. reflexivity.
  - by apply answer_child.
  - rewrite Hch. unfold pt_empty. rewrite leaf_children, app_nil_l, map_map, Hbal. exact Hsum.
Qed.

(** C15: the delegators of a representative make up its weight.  On a reachable ledger
    the request for the delegators of any account gets one answer; it has a row for
    every account that is represented by it, named by that account, and no other row,
    and the balances of the rows can be read and add up to the weight of the
    representative. *)
Theorem delegators_weight gb nb n body request rep :
  reachable gb nb (rn_store n) -> (query_fuel nb <= loop_fuel)%nat -> fits 256 genesis_account -> fits 256 rep ->
  read_json body = Some request -> pt_get request (str "action") = Some (str "delegators") ->
  pt_get request (str "account") = Some (to_account rep) ->
  exists answer rows,
    process_request fuel control no d body n = Ok (inr tt, answered [(no, answer)] n)
    /\ pt_get_child answer (str "delegators") = Some rows
    /\ (forall a i, accounts (rn_store n) !! a = Some i ->
          In (to_account a) (map fst (pt_children rows)) <-> repr (entry_at (rn_store n)) (rep_block i) = rep)
    /\ total (map (fun x => decode_dec128 (pt_data (snd x))) (pt_children rows)) = Some (weight (rn_store n) rep).
Proof.
  intros R Hfuel Hg Hrep Hbody Haction Haccount. destruct (reachable_inv _ _ _ R Hfuel) as (g & I).
  set (s := rn_store n) in *. set (l := table_from 0 (accounts s)).
  assert (Hl : forall a i, In (a, i) l -> accounts s !! a = Some i /\ fits 256 a).
  { intros a i Hin%table_from_in. split; [done|]. pose proof (accounts_fit R Hfuel a i Hg Hin). unfold fits. lia. }
  destruct (delegators_rows (s := s) rep l pt_empty) as (rows & Hrun & Hch).
  { exact (table_from_nodup 0 (accounts s)). }
  { intros a i Hin. destruct (Hl a i Hin) as [Ha Hfit]. split_and!; [done|destruct (rep_block_found I _ _ Ha) as (b & ->); by eexists|].
    unfold pt_empty. rewrite leaf_children. exact id. }
  unfold pt_empty in Hch. rewrite leaf_children, app_nil_l in Hch.
  exists (add_child "delegators" rows pt_empty), rows. split_and!.
  - eapply process_action; [done..|reflexivity|reflexivity|]. unfold delegators, get. rewrite Haccount, bind_ret. unfold on_account.
    rewrite to_account_back by done. unfold h_bind at 1, h_res at 1. unfold h_bind at 1, the_store, h_get. unfold h_bind at 1, h_res at 1.
    fold s. fold l. rewrite Hrun. reflexivity.
  - by apply answer_child.
  - intros a i Ha. rewrite Hch, map_map. cbn [delegator_row fst]. rewrite in_map_iff. split.
    + intros ([x j] & Hx & Hin). apply list_elem_of_In, list_elem_of_filter in Hin as [Hr Hin%list_elem_of_In]. destruct (Hl x j Hin) as [Hj Hfx].
      pose proof (accounts_fit R Hfuel a i Hg Ha). apply to_account_inj in Hx; [|done|unfold fits; lia]. cbn [fst] in Hx. subst x. rewrite Ha in Hj. injection Hj as <-.
      unfold delegates in Hr. by apply Z.eqb_eq in Hr.
    + intros Hr. exists (a, i). split; [done|]. apply list_elem_of_In, list_elem_of_filter. split; [unfold delegates; by apply Z.eqb_eq|].
      apply table_from_elem. pose proof (accounts_fit R Hfuel a i Hg Ha). split; [lia|done].
  - rewrite Hch, map_map. rewrite (total_map _ (fun x => balance_of (snd x))).
    + f_equal. rewrite foldr_filter_add. unfold weight. rewrite (iv_weight _ _ _ I). unfold weight_of. rewrite msum_table; [reflexivity|].
      intros k v Hk. pose proof (accounts_fit R Hfuel k v Hg Hk). lia.
    + intros [a i] Hin. apply list_elem_of_In, list_elem_of_filter in Hin as [_ Hin%list_elem_of_In]. destruct (Hl a i Hin) as [Ha _].
      cbn [delegator_row snd]. rewrite leaf_data. apply dec_back. pose proof (inv_head I _ _ Ha) as [_ (hb & Hh) _ -> _ _ _].
      apply (ei_fits _ _ _ _ _ _ (inv_entry I _ _ _ Hh)).
Qed.
End Claims.

(** ** Walks *)

Section Walks.
Context {s : store}.

(** The hashes that a walk from [h] meets, until the hash zero. *)
Fixpoint walk (next : block_hash -> block -> block_hash) (h : block_hash) (l : list block_hash) : Prop :=
  match l with
  | [] => h = 0
  | x :: l => x = h /\ h <> 0 /\ exists b, block_get s h = Some b /\ walk next (next h b) l
  end.

Definition texts_of `{PropertyTree} (t : ptree) : list (list ascii) := map (fun x => pt_data (snd x)) (pt_children t).

Lemma push_texts `{PropertyTree} v t : texts_of (push_text v t) = texts_of t ++ [v] /\ pt_size (push_text v t) = S (pt_size t).
Proof.
  unfold texts_of, push_text, pt_size. rewrite push_back_children, map_app, length_app. cbn [map length snd].
  rewrite put_here, put_value_data. split; [done|lia].
Qed.

(** The loop of the handlers follows a walk that the count allows. *)
Lemma chain_loop_walk `{PropertyTree, NumberStream} fuel next count h l t :
  walk next h l -> (length l <= fuel)%nat -> Z.of_nat (pt_size t + length l) <= count ->
  exists t', chain_loop fuel s next count h t = Ok t' /\ texts_of t' = texts_of t ++ map to_string l.
Proof.
  revert fuel h t. induction l as [|x l IH]; intros fuel h t Hw Hf Hc; cbn [walk] in Hw.
  - subst h. exists t. rewrite app_nil_r. by destruct fuel.
  - destruct Hw as (-> & Hh & b & Hb & Hw). cbn [length] in Hf, Hc. destruct fuel as [|fuel]; [lia|]. cbn [chain_loop].
    unfold is_zero. rewrite (proj2 (Z.eqb_neq h 0) Hh), (proj2 (Z.ltb_lt _ _)) by lia. cbn [negb andb]. rewrite Hb.
    destruct (push_texts (to_string h) t) as [Ht Hs]. destruct (IH fuel (next h b) (push_text (to_string h) t) Hw) as (t' & Hrun & Htexts); [lia..|].
    exists t'. split; [done|]. by rewrite Htexts, Ht, <- app_assoc.
Qed.
End Walks.
Arguments walk : clear implicits.

Section Chains.
Context `{Environment} {nb : nat} {s : store} {g : ghost} (I : inv_with nb g s).

Local Abbreviation back := (fun (_ : block_hash) b => previous b).
Local Abbreviation forth := (fun h (_ : block) => block_successor s h).

Lemma entry_not_zero h b m : entry_at s h = Some (b, m) -> h <> 0.
Proof. intros He ->. by rewrite (zero_entry I) in He. Qed.

(** A chain leads down to its open block. *)
Lemma walk_back h : is_Some (entry_at s h) ->
  exists l, walk s back h l /\ (length l <= grank g h + 1)%nat
  /\ exists o ob m, last l = Some o /\ entry_at s o = Some (Open ob, m) /\ gown g o = gown g h.
Proof.
  remember (grank g h) as r eqn:Hr. revert h Hr. induction (lt_wf r) as [r _ IH]. intros h -> [[b m] He].
  pose proof (entry_not_zero _ _ _ He) as Hh. pose proof (entry_get _ _ _ He) as Hb. destruct (is_open b) eqn:Ho.
  - exists [h]. cbn [walk length]. split_and!; [done|done|exists b; split; [done|by apply open_previous]|lia|].
    destruct b as [b|b|b|b|b]; try discriminate Ho. by exists h, b, m.
  - destruct (inv_previous I _ _ _ He Ho) as ((pb & Hp) & Hown & _ & Hrank).
    destruct (IH _ Hrank (previous b) eq_refl) as (l & Hw & Hlen & o & ob & k & Hlast & Hopen & Hown'); [by eexists|].
    exists (h :: l). cbn [walk length]. split_and!; [done|done|by exists b|lia|].
    exists o, ob, k. split_and!; [|done|congruence]. destruct l; [discriminate Hlast|exact Hlast].
Qed.

(** What was walked down is walked up, from the last block on. *)
Lemma walk_forth h l rest o : walk s back h l -> last l = Some o -> walk s forth (block_successor s h) rest ->
  walk s forth o (rev l ++ rest).
Proof.
  revert h rest. induction l as [|x l IH]; intros h rest Hw Hlast Hrest; [discriminate Hlast|]. cbn [walk] in Hw.
  destruct Hw as (-> & Hh & b & Hb & Hw). cbn [rev]. rewrite <- app_assoc. cbn [app].
  assert (Hhere : walk s forth h (h :: rest)) by (cbn [walk]; split_and!; [done..|]; by exists b).
  destruct l as [|y l].
  - injection Hlast as <-. exact Hhere.
  - apply (IH (previous b)); [done|exact Hlast|]. cbn [walk] in Hw. destruct Hw as (_ & Hp & _).
    destruct (found_entry (s := s) h b Hb) as (m & He). destruct (is_open b) eqn:Ho; [by rewrite (open_previous _ Ho) in Hp|].
    destruct (inv_previous I _ _ _ He Ho) as ((pb & Hpb) & _). rewrite block_successor_entry, Hpb. exact Hhere.
Qed.

(** The chain of an account, from its head down and from its open block up. *)
Lemma account_walks a i : accounts s !! a = Some i ->
  exists l, walk s back (head i) l /\ walk s forth (open_block_hash i) (rev l) /\ (length l <= nb)%nat.
Proof.
  intros Ha. pose proof (inv_head I _ _ Ha) as [_ (hb & Hh) Hown _ _ _ (ob & m & Hopen & Hacc)].
  destruct (walk_back (head i)) as (l & Hw & Hlen & o & ob' & k & Hlast & Ho & Hown'); [by eexists|].
  assert (Heq : o = open_block_hash i).
  { pose proof (ei_block _ _ _ _ _ _ (inv_entry I _ _ _ Ho)) as (_ & _ & H1' & _).
    pose proof (ei_block _ _ _ _ _ _ (inv_entry I _ _ _ Hopen)) as (H2' & _ & H3' & _).
    apply (ci_uniq _ _ _ (iv_chain _ _ _ I)); [by eexists..|congruence|congruence]. }
  subst o. exists l. split_and!; [done| |pose proof (entry_rank I _ _ _ Hh); lia].
  rewrite <- (app_nil_r (rev l)). eapply walk_forth; [exact Hw|exact Hlast|]. by rewrite block_successor_entry, Hh.
Qed.
End Chains.

Section Claims.
Context `{PropertyTree, NumberStream, Environment, WalletCrypto, Signing, NodeEnvironment, Network, Iteration, MultimapOrder, WorkSource,
          PeerEnvironment, AddressText, RpcVersion}.
Context (fuel : nat) (control : bool) (d : drawn).

(** A request that walks. *)
Lemma walk_answered no body request k next n h l t count :
  read_json body = Some request -> pt_get request (str "action") = Some (str k) ->
  find_action (str k) (actions fuel control no request d) = Some (chain_answer no request next) ->
  existsb (String.eqb k) ["password_enter"; "password_change"; "wallet_unlock"]%string = false ->
  pt_get request (str "block") = Some (encode_hex256 h) -> fits 256 h ->
  pt_get request (str "count") = Some t -> decode_unsigned t 0 = (false, count) ->
  walk (rn_store n) (next (rn_store n)) h l -> (length l <= loop_fuel)%nat -> Z.of_nat (length l) <= count ->
  exists answer rows, process_request fuel control no d body n = Ok (inr tt, answered [(no, answer)] n)
  /\ pt_get_child answer (str "blocks") = Some rows /\ texts_of rows = map to_string l.
Proof.
  intros Hbody Ha Hf Hb Hblock Hh Ht Hcount Hw Hfuel Hle.
  destruct (chain_loop_walk loop_fuel _ count h l pt_empty Hw Hfuel) as (rows & Hrun & Hrows); [by rewrite empty_size|].
  exists (add_child "blocks" rows pt_empty), rows. split_and!.
  - eapply process_action; [done..|]. unfold chain_answer, get. rewrite Hblock, bind_ret, Ht, bind_ret. unfold on_hex.
    rewrite (proj2 (proj1 (proj2 (text_read_back h)) Hh)). unfold on_unsigned. rewrite Hcount. unfold h_bind at 1, the_store, h_get.
    unfold h_bind at 1, h_res. rewrite Hrun. reflexivity.
  - by apply answer_child.
  - rewrite Hrows. unfold texts_of, pt_empty. by rewrite leaf_children.
Qed.

(** C16: the chain of an account and its successors are the same blocks.  On a
    reachable ledger, for an account and counts that are not less than the number of
    blocks that were put into the ledger, the request "chain" for the head of the
    account and the request "successors" for its open block each get one answer, and
    the hashes of the one are those of the other in opposite order: the links to the
    previous blocks, which are part of the blocks, and the links to the successors,
    which are kept beside them, agree from end to end. *)
Theorem chain_and_successors gb nb n a i no body request t count no' body' request' t' count' :
  reachable gb nb (rn_store n) -> (query_fuel nb <= loop_fuel)%nat -> accounts (rn_store n) !! a = Some i ->
  fits 256 (head i) -> fits 256 (open_block_hash i) ->
  read_json body = Some request -> pt_get request (str "action") = Some (str "chain") ->
  pt_get request (str "block") = Some (encode_hex256 (head i)) ->
  pt_get request (str "count") = Some t -> decode_unsigned t 0 = (false, count) -> Z.of_nat nb <= count ->
  read_json body' = Some request' -> pt_get request' (str "action") = Some (str "successors") ->
  pt_get request' (str "block") = Some (encode_hex256 (open_block_hash i)) ->
  pt_get request' (str "count") = Some t' -> decode_unsigned t' 0 = (false, count') -> Z.of_nat nb <= count' ->
  exists answer rows answer' rows',
    process_request fuel control no d body n = Ok (inr tt, answered [(no, answer)] n)
    /\ pt_get_child answer (str "blocks") = Some rows
    /\ process_request fuel control no' d body' n = Ok (inr tt, answered [(no', answer')] n)
    /\ pt_get_child answer' (str "blocks") = Some rows'
    /\ texts_of rows' = rev (texts_of rows).
Proof.
  intros R Hfuel Ha Hh Ho Hbody Haction Hblock Ht Hcount Hle Hbody' Haction' Hblock' Ht' Hcount' Hle'.
  destruct (reachable_inv _ _ _ R Hfuel) as (g & I). destruct (account_walks I a i Ha) as (l & Hw & Hw' & Hlen).
  unfold query_fuel in Hfuel.
  destruct (walk_answered no body request "chain" _ n (head i) l t count Hbody Haction eq_refl eq_refl Hblock Hh Ht Hcount Hw)
    as (answer & rows & Hrun & Hchild & Hrows); [lia..|].
  destruct (walk_answered no' body' request' "successors" _ n (open_block_hash i) (rev l) t' count' Hbody' Haction' eq_refl eq_refl Hblock' Ho Ht' Hcount' Hw')
    as (answer' & rows' & Hrun' & Hchild' & Hrows'); [rewrite length_rev; lia..|].
  exists answer, rows, answer', rows'. split_and!; [done..|]. by rewrite Hrows', Hrows, map_rev.
Qed.
End Claims.
