(* ===== verification/RpcPayments.v ===== *)
(** * Remote procedure calls: waiting for payments

    A request [payment_wait] is answered later: when the account has the amount, or
    when the time is up.  The steps are the requests, the notices of blocks for an
    account, the timeouts, and changes of the ledger; each is taken as a whole.  A
    request that waits is never answered twice, and its timeout answers it. *)
From Stdlib Require Import ZArith Lia List Ascii String.
From stdpp Require Import prelude strings gmap sorting.
From S2P Require Import Prelude Numbers Streams Blocks Store Ledger Votes Work Messages Unchecked Processor Peers BootstrapServer Wallet WalletActions NumberText Json JsonTheorems Conversions Rpc RpcLedger RpcWallet RpcServer RpcControl RpcQueries.

Local Open Scope rpc_scope.

Section Observers.
Context `{PropertyTree, NumberStream, Environment}.
Implicit Types (n : rpc_node) (o p : payment_observer).

(** The number of answers to a request. *)
Definition answers (no : nat) n : nat := length (filter (fun x => fst x = no) (rn_responses n)).

(** Whether a request still has an observer that is not completed. *)
Definition waits (no : nat) o : bool := (po_request o =? no)%nat && negb (po_completed o).
Definition waiting (no : nat) n : bool := existsb (waits no) (rn_observers n).

Definition completed o : payment_observer := PaymentObserver (po_request o) (po_account o) (po_amount o) true.

(** The observers and the table of those that wait, with the requests so far. *)
Record payments_inv (asked : list nat) n : Prop := {
  pv_table a i : rn_payments n !! a = Some i ->
    exists o, rn_observers n !! i = Some o /\ po_account o = a /\ po_completed o = false;
  pv_waits i o : rn_observers n !! i = Some o -> po_completed o = false -> rn_payments n !! po_account o = Some i;
  pv_asked i o : rn_observers n !! i = Some o -> po_request o ∈ asked;
  pv_one i j o p : rn_observers n !! i = Some o -> rn_observers n !! j = Some p -> po_request o = po_request p -> i = j;
  pv_answers no : answers no n = if decide (no ∈ asked) then if waiting no n then 0%nat else 1%nat else 0%nat
}.

Lemma waiting_spec no n : waiting no n = true <-> exists i o, rn_observers n !! i = Some o /\ po_request o = no /\ po_completed o = false.
Proof.
  unfold waiting. rewrite existsb_exists. split.
  - intros (o & (i & Hi)%list_elem_of_In%list_elem_of_lookup & [Hr%Nat.eqb_eq Hc%negb_true_iff]%andb_true_iff). by exists i, o.
  - intros (i & o & Hi & Hr & Hc). exists o. split; [apply list_elem_of_In; by eapply list_elem_of_lookup_2|].
    unfold waits. by rewrite Hc, (proj2 (Nat.eqb_eq _ _) Hr).
Qed.

Lemma waiting_iff no n n' :
  ((exists i o, rn_observers n !! i = Some o /\ po_request o = no /\ po_completed o = false)
   <-> (exists i o, rn_observers n' !! i = Some o /\ po_request o = no /\ po_completed o = false)) -> waiting no n = waiting no n'.
Proof. rewrite <- !waiting_spec. intros Hi. apply Bool.eq_iff_eq_true. exact Hi. Qed.

(** Nothing else of the node matters. *)
Lemma payments_inv_same asked n n' : rn_observers n' = rn_observers n -> rn_payments n' = rn_payments n -> rn_responses n' = rn_responses n ->
  payments_inv asked n -> payments_inv asked n'.
Proof. destruct n, n'. cbn. intros -> -> -> []. by split. Qed.

(** The node after an observer gave its answer. *)
Definition after_complete (i : nat) o (status : payment_status) n : rpc_node :=
  set_payments (delete (po_account o))
    (set_responses (fun l => l ++ [(po_request o, put "status" (str (match status with nothing => "nothing" | success => "success" end)) pt_empty)])
       (set_observers (alter completed i) n)).

Lemma complete_runs asked i o status n : payments_inv asked n -> rn_observers n !! i = Some o ->
  complete i status n = Ok (inr tt, if po_completed o then n else after_complete i o status n).
Proof.
  intros I Ho. unfold complete, h_bind, h_get, h_put, Rpc.respond, h_put. rewrite Ho. fold completed. cbn [po_completed].
  destruct (po_completed o) eqn:Hc.
  - unfold h_ret, set_observers. do 2 f_equal.
    assert (Ha : alter completed i (rn_observers n) = rn_observers n).
    { apply list_eq. intros j. destruct (decide (i = j)) as [<-|Hj]; [|by rewrite list_lookup_alter_ne].
      rewrite list_lookup_alter_eq, Ho. destruct o as [a b c e]. cbn in Hc. subst e. reflexivity. }
    change (RpcNode (rn_node n) (rn_arrival n) (rn_items n) (rn_actions n) (rn_background n) (rn_receive_minimum n) (rn_work_peers n) (rn_peers n)
      (alter completed i (rn_observers n)) (rn_payments n) (rn_calls n) (rn_responses n) = n). rewrite Ha. by destruct n.
  - cbn [rn_payments set_responses set_observers]. rewrite bool_decide_true by (by rewrite (pv_waits _ _ I _ _ Ho Hc); eexists). reflexivity.
Qed.

Lemma alter_other {A} (f : A -> A) (l : list A) i j x : alter f i l !! j = Some x -> exists y, l !! j = Some y /\ x = if decide (i = j) then f y else y.
Proof.
  destruct (decide (i = j)) as [<-|Hj].
  - rewrite list_lookup_alter_eq. destruct (l !! i) as [y|]; [|done]. cbn. intros [= <-]. by exists y.
  - rewrite list_lookup_alter_ne by done. intros Hx. by exists x.
Qed.

Lemma after_complete_inv asked i o status n : payments_inv asked n -> rn_observers n !! i = Some o -> po_completed o = false ->
  payments_inv asked (after_complete i o status n).
Proof.
  intros I Ho Hc.
  assert (Hpo : forall j p, rn_observers (after_complete i o status n) !! j = Some p ->
    exists q, rn_observers n !! j = Some q /\ po_request p = po_request q /\ po_account p = po_account q /\ po_completed p = bool_decide (i = j) || po_completed q).
  { cbn. intros j p (q & Hq & ->)%alter_other. exists q. case_decide; by rewrite ?bool_decide_true, ?bool_decide_false by done. }
  split.
  - cbn. intros a j [Ha (p & Hp & Hpa & Hpc)%(pv_table _ _ I)]%lookup_delete_Some. exists p. split; [|done].
    rewrite list_lookup_alter_ne; [done|]. intros ->. rewrite Ho in Hp. injection Hp as <-. done.
  - intros j p (q & Hq & _ & Hqa & Hqc)%Hpo Hf. rewrite Hqc in Hf. apply orb_false_iff in Hf as [Hj%bool_decide_eq_false Hf].
    cbn. rewrite Hqa, lookup_delete_ne; [by apply (pv_waits _ _ I)|]. intros He. pose proof (pv_waits _ _ I _ _ Hq Hf) as H1'.
    rewrite <- He, (pv_waits _ _ I _ _ Ho Hc) in H1'. congruence.
  - intros j p (q & Hq & -> & _)%Hpo. by apply (pv_asked _ _ I j).
  - intros j k p p' (q & Hq & -> & _)%Hpo (q' & Hq' & -> & _)%Hpo. by apply (pv_one _ _ I).
  - intros no. pose proof (pv_answers _ _ I no) as Ha. unfold answers in *. cbn [after_complete rn_responses set_payments set_responses set_observers].
    rewrite filter_app, length_app, Ha, filter_cons, filter_nil. cbn [fst].
    destruct (decide (po_request o = no)) as [<-|Hno].
    + rewrite !decide_True by (by eapply (pv_asked _ _ I)). rewrite (proj2 (waiting_spec _ n)) by (by exists i, o).
      destruct (waiting (po_request o) (after_complete i o status n)) eqn:Hw; [|done].
      apply waiting_spec in Hw as (j & p & (q & Hq & Hr & _ & Hqc)%Hpo & Hp & Hf). rewrite Hp in Hr.
      rewrite (pv_one _ _ I _ _ _ _ Ho Hq Hr), bool_decide_true, Hf in Hqc by done. discriminate.
    + cbn [length]. rewrite Nat.add_0_r. rewrite (waiting_iff no n (after_complete i o status n)); [done|]. split.
      * intros (j & p & Hp & Hr & Hf). exists j, p. split; [|done]. cbn. rewrite list_lookup_alter_ne; [done|]. intros ->. congruence.
      * intros (j & p & (q & Hq & Hr' & _ & Hqc)%Hpo & Hr & Hf). rewrite Hf in Hqc. symmetry in Hqc. apply orb_false_iff in Hqc as [_ Hqc].
        exists j, q. split_and!; [done|congruence|done].
Qed.

Lemma complete_inv asked i o status n : payments_inv asked n -> rn_observers n !! i = Some o ->
  exists n', complete i status n = Ok (inr tt, n') /\ payments_inv asked n' /\ waiting (po_request o) n' = false.
Proof.
  intros I Ho. eexists. split; [by eapply complete_runs|]. destruct (po_completed o) eqn:Hc.
  - split; [done|]. apply not_true_iff_false. intros (j & p & Hp & Hr & Hf)%waiting_spec.
    pose proof (pv_one _ _ I _ _ _ _ Hp Ho Hr) as ->. congruence.
  - split; [by apply after_complete_inv|]. apply not_true_iff_false. intros (j & p & (q & Hq & Hp)%alter_other & Hr & Hf)%waiting_spec.
    case_decide as Hj; subst p; [by cbn in Hf|]. apply Hj. eapply (pv_one _ _ I); [exact Ho|exact Hq|done].
Qed.

Lemma observer_action_inv asked a n : payments_inv asked n -> exists n', observer_action a n = Ok (inr tt, n') /\ payments_inv asked n'.
Proof.
  intros I. unfold observer_action, h_bind, h_get. destruct (rn_payments n !! a) as [i|] eqn:Hi; [|by exists n].
  destruct (pv_table _ _ I _ _ Hi) as (o & Ho & _). unfold observe, h_bind, h_get, node_balance, h_get. rewrite Ho.
  destruct (po_amount o <=? _); [|by exists n]. destruct (complete_inv _ _ _ success _ I Ho) as (n' & Hn & I' & _). by exists n'.
Qed.

(** A new observer that waits. *)
Definition after_wait (no : nat) (a : account) (m : amount) (timeout : Z) n : rpc_node :=
  set_payments (insert a (length (rn_observers n)))
    (set_calls (fun l => l ++ [Timeout_at (length (rn_observers n)) timeout])
       (set_observers (fun l => l ++ [PaymentObserver no a m false]) n)).

Lemma after_wait_inv asked no a m timeout n : payments_inv asked n -> no ∉ asked -> rn_payments n !! a = None ->
  payments_inv (no :: asked) (after_wait no a m timeout n).
Proof.
  intros I Hno Ha.
  assert (Hlook : forall j p, rn_observers (after_wait no a m timeout n) !! j = Some p ->
    rn_observers n !! j = Some p \/ j = length (rn_observers n) /\ p = PaymentObserver no a m false).
  { cbn. intros j p [Hp|[Hj Hp]]%lookup_app_Some; [by left|right]. apply list_lookup_singleton_Some in Hp as [? <-]. split; [lia|done]. }
  assert (Hold : forall j p, rn_observers n !! j = Some p -> rn_observers (after_wait no a m timeout n) !! j = Some p)
    by (intros; cbn; by apply lookup_app_l_Some).
  assert (Hnew : rn_observers (after_wait no a m timeout n) !! length (rn_observers n) = Some (PaymentObserver no a m false))
    by (cbn; by apply list_lookup_middle).
  split.
  - cbn [after_wait set_payments rn_payments set_calls set_observers]. intros b i [[<- <-]|[Hb (p & Hp & Hpa & Hpc)%(pv_table _ _ I)]]%lookup_insert_Some.
    + eexists. split; [exact Hnew|done].
    + exists p. split; [by apply Hold|done].
  - intros i o [Ho|[-> ->]]%Hlook Hc; cbn; [|by rewrite lookup_insert_eq].
    pose proof (pv_waits _ _ I _ _ Ho Hc). rewrite lookup_insert_ne; [done|]. intros ->. congruence.
  - intros i o [Ho|[-> ->]]%Hlook; [right; by apply (pv_asked _ _ I i)|by left].
  - intros i j o p [Ho|[-> ->]]%Hlook [Hp|[-> ->]]%Hlook He; cbn in *; [by eapply (pv_one _ _ I)| | |done]; exfalso; apply Hno.
    + rewrite <- He. by eapply (pv_asked _ _ I).
    + rewrite He. by eapply (pv_asked _ _ I).
  - intros k. change (answers k (after_wait no a m timeout n)) with (answers k n). rewrite (pv_answers _ _ I).
    destruct (decide (k = no)) as [->|Hk].
    + rewrite decide_False by done. rewrite decide_True by (by left). rewrite (proj2 (waiting_spec _ (after_wait no a m timeout n))); [done|]. eexists _, _. split; [exact Hnew|done].
    + rewrite (waiting_iff k n (after_wait no a m timeout n)).
      * destruct (decide (k ∈ asked)); [rewrite decide_True by (by right)|rewrite decide_False by (by intros [?|?]%elem_of_cons)]; done.
      * split; [intros (i & o & Ho%Hold & Hx); by exists i, o|]. intros (i & o & [Ho|[-> ->]]%Hlook & Hr & Hc); [by exists i, o|done].
Qed.

(** A request that gets one answer at once. *)
Lemma answered_inv asked no t n : payments_inv asked n -> no ∉ asked -> payments_inv (no :: asked) (answered [(no, t)] n).
Proof.
  intros I Hno. split; try exact (pv_table _ _ I); try exact (pv_waits _ _ I); try exact (pv_one _ _ I).
  - intros i o Ho. right. by apply (pv_asked _ _ I i).
  - intros k. change (waiting k (answered _ n)) with (waiting k n). pose proof (pv_answers _ _ I k) as Ha. unfold answers in *. cbn.
    rewrite filter_app, length_app, Ha, filter_cons, filter_nil. cbn [fst].
    destruct (decide (no = k)) as [<-|Hk]; [rewrite decide_False, decide_True by (done || by left)|].
    + destruct (waiting no n) eqn:Hw; [|done]. apply waiting_spec in Hw as (i & o & Ho%(pv_asked _ _ I) & <- & _). done.
    + cbn [length]. destruct (decide (k ∈ asked)); [rewrite decide_True by (by right)|rewrite decide_False by (by intros [?|?]%elem_of_cons)]; lia.
Qed.
End Observers.

Section Payments.
Context `{PropertyTree, NumberStream, Environment, WalletCrypto, Signing, NodeEnvironment, Network, Iteration, MultimapOrder, WorkSource,
          PeerEnvironment, AddressText, RpcVersion}.
Context (fuel : nat) (control : bool) (d : drawn).
Implicit Types (n : rpc_node) (no : nat).

(** A server at its start. *)
Definition no_payments n : Prop := rn_observers n = [] /\ rn_payments n = ∅ /\ rn_responses n = [].

(** The nodes that are reached, with the numbers of the requests [payment_wait]. *)
Inductive payment_run : list nat -> rpc_node -> Prop :=
| Pay_start n : no_payments n -> payment_run [] n
| Pay_request asked n no body request n' :
    payment_run asked n -> no ∉ asked ->
    read_json body = Some request -> pt_get request (str "action") = Some (str "payment_wait") ->
    process_request fuel control no d body n = Ok (inr tt, n') -> payment_run (no :: asked) n'
| Pay_observed asked n a n' :
    payment_run asked n -> observer_action a n = Ok (inr tt, n') -> payment_run asked n'
| Pay_timeout asked n i n' :
    payment_run asked n -> (i < length (rn_observers n))%nat -> complete i nothing n = Ok (inr tt, n') -> payment_run asked n'
| Pay_node asked n f : payment_run asked n -> payment_run asked (set_node f n).

Lemma no_payments_inv n : no_payments n -> payments_inv [] n.
Proof.
  intros (Ho & Hp & Hr). split.
  - intros a i. by rewrite Hp, lookup_empty.
  - intros i o. by rewrite Ho, lookup_nil.
  - intros i o. by rewrite Ho, lookup_nil.
  - intros i j o p. by rewrite Ho, lookup_nil.
  - intros no. unfold answers. by rewrite Hr.
Qed.

(** The handler behind the request. *)
Lemma wait_request no body request n : read_json body = Some request -> pt_get request (str "action") = Some (str "payment_wait") ->
  process_request fuel control no d body n
  = h_catch (payment_wait no request) (fun e => match e with
                                                | Runtime_error => error_response no "Unable to parse JSON"
                                                | Logic_error => error_response no "Internal server error in RPC"
                                                end) n.
Proof.
  intros Hbody Ha. unfold process_request. by rewrite Hbody, (request_runs fuel no control d request "payment_wait" _ Ha eq_refl eq_refl).
Qed.

(** What a request does: an answer at once, or an observer. *)
Lemma wait_cases no request n : settles (no := no) (n := n) (payment_wait no request) \/ (exists f, payment_wait no request n = Fault f)
  \/ exists a m timeout, rn_payments n !! a = None /\ payment_wait no request n = observer_action a (after_wait no a m timeout n).
Proof.
  unfold payment_wait, get. do 3 (case_match; [rewrite bind_ret|left; rewrite bind_throw; apply settles_throw]).
  unfold on_account, h_bind at 1, h_res. destruct (decode_account 0 l) as [[[] a]|f] eqn:Ea; [left| |right; left; exists f].
  - left. unfold settles, h_bind, h_res. rewrite ?Ea. by eexists.
  - unfold on_dec. destruct (decode_dec128 l0) as [m|]; [|left; left; unfold h_bind, h_res; rewrite ?Ea; by eexists].
    unfold on_unsigned. destruct (decode_unsigned l1 0) as [[] timeout]; [left; left; unfold h_bind, h_res; rewrite ?Ea; by eexists|].
    destruct (rn_payments n !! a) as [i|] eqn:Hp.
    + right. left. exists Assertion_failed. unfold h_bind, h_res, h_get, h_put, call, h_put. rewrite ?Ea. cbn [rn_payments set_calls set_observers].
      by rewrite bool_decide_false by (by rewrite Hp).
    + right. right. exists a, m, timeout. split; [done|]. unfold h_bind at 1, h_res. rewrite ?Ea. unfold h_bind, h_get, h_put, call, h_put.
      cbn [rn_payments set_calls set_observers]. by rewrite bool_decide_true.
  - unfold h_bind, h_res. by rewrite ?Ea.
Qed.

Lemma wait_inv asked no body request n n' :
  payments_inv asked n -> no ∉ asked -> read_json body = Some request -> pt_get request (str "action") = Some (str "payment_wait") ->
  process_request fuel control no d body n = Ok (inr tt, n') -> payments_inv (no :: asked) n'.
Proof.
  intros I Hno Hbody Ha. rewrite (wait_request no body request n Hbody Ha).
  destruct (wait_cases no request n) as [Hs|[(f & Hf)|(a & m & timeout & Hp & Hw)]].
  - destruct (settles_catch _ Hs) as (t & ->). intros [= <-]. by apply answered_inv.
  - unfold h_catch. by rewrite Hf.
  - pose proof (after_wait_inv asked no a m timeout n I Hno Hp) as I'.
    destruct (observer_action_inv _ a _ I') as (n2 & Hn & I2). unfold h_catch. rewrite Hw, Hn. by intros [= <-].
Qed.

Lemma payment_run_inv asked n : payment_run asked n -> payments_inv asked n.
Proof.
  induction 1 as [n Hn|asked n no body request n' _ IH Hno Hbody Ha Hrun|asked n a n' _ IH Hrun|asked n i n' _ IH Hi Hrun|asked n f _ IH].
  - by apply no_payments_inv.
  - by eapply wait_inv.
  - destruct (observer_action_inv _ a _ IH) as (n2 & Hn & I). rewrite Hn in Hrun. by injection Hrun as <-.
  - destruct (lookup_lt_is_Some_2 _ _ Hi) as (o & Ho). destruct (complete_inv _ _ _ nothing _ IH Ho) as (n2 & Hn & I & _).
    rewrite Hn in Hrun. by injection Hrun as <-.
  - by apply (payments_inv_same asked n).
Qed.


(** A second request for an account that is waited for fails an assertion. *)
Theorem second_wait_stops_node asked n no body request a i t m timeout :
  payment_run asked n -> rn_payments n !! a = Some i -> fits 256 a ->
  read_json body = Some request -> pt_get request (str "action") = Some (str "payment_wait") ->
  pt_get request (str "account") = Some (to_account a) ->
  pt_get request (str "amount") = Some m -> decode_dec128 m <> None ->
  pt_get request (str "timeout") = Some t -> decode_unsigned t 0 = (false, timeout) ->
  process_request fuel control no d body n = Fault Assertion_failed.
Proof.
  intros _ Hp Hfit Hbody Haction Ha Hm Hdec Ht Htime. rewrite (wait_request no body request n Hbody Haction). unfold h_catch.
  unfold payment_wait, get. rewrite Ha, bind_ret, Hm, bind_ret, Ht, bind_ret. unfold on_account. rewrite to_account_back by done.
  unfold h_bind at 1, h_res. unfold on_dec. destruct (decode_dec128 m) as [x|]; [|done]. unfold on_unsigned. rewrite Htime.
  unfold h_bind, h_get, h_put, call, h_put. cbn [rn_payments set_calls set_observers]. by rewrite bool_decide_false by (by rewrite Hp).
Qed.
End Payments.
