(* ===== verification/RpcBehaviours.v ===== *)
(** * Remote procedure calls: submitting a block, and requests that go wrong

    A block that is submitted as its JSON is treated as the block; a payment that is
    waited for is noticed before the answer.  Then requests that do not do what they
    are for: moving keys within a wallet loses them, creating accounts in a locked
    wallet does not end, rows that are no accounts can be removed, the size of a port
    is not tested, and amounts that are too big are answered with the product modulo
    2^128. *)
From Stdlib Require Import ZArith Lia List Ascii String.
From stdpp Require Import prelude strings gmap sorting.
From S2P Require Import Prelude Numbers Streams Blocks Store Ledger Votes Work Messages Unchecked Processor Peers BootstrapServer BootstrapTheorems Wallet WalletActions NumberText NumberTextTheorems Json JsonTheorems Conversions Rpc RpcLedger RpcWallet RpcServer RpcControl RpcQueries RpcAnswers RpcPayments.

Local Open Scope rpc_scope.

Section Requests.
Context `{PropertyTree, NumberStream, Environment, WalletCrypto, Signing, NodeEnvironment, Network, Iteration, MultimapOrder, WorkSource,
          PeerEnvironment, AddressText, RpcVersion}.
Context (fuel no : nat) (control : bool) (d : drawn).

(** ** Submitting a block *)

(** The text that is answered. *)
Definition process_text (r : process_result) (h : block_hash) : string * list ascii :=
  match r with
  | progress => ("hash", to_string h)
  | gap_previous => ("error", str "Gap previous block")
  | gap_source => ("error", str "Gap source block")
  | old => ("error", str "Old block")
  | bad_signature => ("error", str "Bad signature")
  | overspend => ("error", str "Overspend")
  | unreceivable => ("error", str "Unreceivable")
  | not_receive_from_send => ("error", str "Not receive from send")
  | fork => ("error", str "Fork")
  | account_mismatch => ("error", str "Account mismatch")
  | opened_burn_account => ("error", str "Error processing block")
  end%string.

Lemma process_answer_text r h : process_answer no r h = respond no (put (fst (process_text r h)) (snd (process_text r h)) pt_empty).
Proof. by destruct r. Qed.

(** The node after its arrival is noted and the processor has had the block, and after
    those who wait for payments were told. *)
Definition submitted (arrival : block_arrival) (x : node) (n : rpc_node) : rpc_node := set_node (fun _ => x) (set_arrival (fun _ => arrival) n).
Definition notice (b : block) (r : process_return) : handler unit :=
  if bool_decide (code r = progress) then
    on_processor (emit [Blocks_observed b (ret_account r) (ret_amount r)]) ;!
    match ret_account r with Some a => observer_action a | None => h_ret tt end
  else h_ret tt.

Lemma process_submits n body request b arrival x r n' :
  block_ok b -> work_validate (root b) (block_work b) = false ->
  read_json body = Some request -> pt_get request (str "action") = Some (str "process") ->
  pt_get request (str "block") = Some (serialize_json b) ->
  arrival_add (hash b) (rn_arrival n) = Ok (tt, arrival) -> process_receive_one b (rn_node n) = Ok (r, x) ->
  notice b r (submitted arrival x n) = Ok (inr tt, n') ->
  process_request fuel control no d body n
  = Ok (inr tt, answered [(no, put (fst (process_text (code r) (hash b))) (snd (process_text (code r) (hash b))) pt_empty)] n').
Proof.
  intros Hok Hwork Hbody Haction Hblock Harrival Hrun Hnotice.
  unfold process_request, h_catch. rewrite Hbody.
  rewrite (request_runs fuel no control d request "process" _ Haction eq_refl eq_refl). unfold rpc_process, get. rewrite Hblock, bind_ret. destruct (block_json_back b Hok) as (_ & t & Ht & Hb). rewrite Ht.
  unfold h_bind at 1, h_res. rewrite Hb. rewrite Hwork. cbn [negb].
  unfold h_bind at 1, on_arrival_h. rewrite Harrival. unfold h_bind at 1, on_processor at 1. cbn [rn_node set_arrival].
  rewrite Hrun. change (set_node (fun _ => x) (set_arrival (fun _ => arrival) n)) with (submitted arrival x n).
  unfold notice, handler in Hnotice. unfold h_bind at 1. rewrite Hnotice, process_answer_text. reflexivity.
Qed.

Lemma notice_runs asked b r n : payments_inv asked n ->
  exists n', notice b r n = Ok (inr tt, n') /\ payments_inv asked n' /\ rn_store n' = rn_store n /\ n_unchecked (rn_node n') = n_unchecked (rn_node n)
  /\ (forall a i o, code r = progress -> ret_account r = Some a -> rn_payments n !! a = Some i -> rn_observers n !! i = Some o ->
        po_amount o <= account_balance (rn_store n) a -> waiting (po_request o) n' = false).
Proof.
  intros I. unfold notice. case_bool_decide as Hc; [|exists n; by split_and!].
  unfold h_bind at 1, on_processor, emit. set (n1 := set_node _ n). assert (I1 : payments_inv asked n1) by (by apply (payments_inv_same asked n)).
  destruct (ret_account r) as [a|]; [|exists n1; by split_and!].
  unfold observer_action, h_bind, h_get. change (rn_payments n1) with (rn_payments n). destruct (rn_payments n !! a) as [i|] eqn:Hp.
  - destruct (pv_table _ _ I _ _ Hp) as (o & Ho & Hoa & Hoc). unfold observe, h_bind, h_get, node_balance, h_get.
    change (rn_observers n1) with (rn_observers n). rewrite Ho. change (rn_store n1) with (rn_store n).
    destruct (Z.leb_spec (po_amount o) (account_balance (rn_store n) (po_account o))) as [Hle|Hle].
    + destruct (complete_inv _ _ _ success _ I1 Ho) as (n2 & Hn & I2 & Hw). pose proof (complete_runs _ _ _ success _ I1 Ho) as Hn'.
      rewrite Hn in Hn'. rewrite Hoc in Hn'. injection Hn' as ->. rewrite Hn. eexists. split_and!; [done|done|done|done|].
      intros a' i' o' _ [= <-] Hi' Ho'. rewrite Hp in Hi'. injection Hi' as <-. rewrite Ho in Ho'. by injection Ho' as <-.
    + exists n1. split_and!; [done..|]. intros a' i' o' _ [= <-] Hi' Ho'. rewrite Hp in Hi'. injection Hi' as <-. rewrite Ho in Ho'. injection Ho' as <-. subst a. lia.
  - exists n1. split_and!; [done..|]. intros a' i' o' _ [= <-]. by rewrite Hp.
Qed.

(** C11: a block that is submitted as its JSON is processed, and completes a payment.
    On a node where requests wait for payments, the request "process" with the JSON of
    a block in range whose work is valid leaves the ledger and the unchecked blocks as
    the block processor leaves them for that block, and answers with its hash or the
    error for the result of the processor; if the block is accepted and the balance
    of its account is then what a request waits for, that request has its answer. *)
Theorem submitted_block_processed asked n body request b arrival x r :
  payment_run fuel control d asked n -> no ∉ asked -> block_ok b -> work_validate (root b) (block_work b) = false ->
  read_json body = Some request -> pt_get request (str "action") = Some (str "process") ->
  pt_get request (str "block") = Some (serialize_json b) ->
  arrival_add (hash b) (rn_arrival n) = Ok (tt, arrival) -> process_receive_one b (rn_node n) = Ok (r, x) ->
  exists n', process_request fuel control no d body n = Ok (inr tt, n')
  /\ rn_store n' = n_store x /\ n_unchecked (rn_node n') = n_unchecked x
  /\ last (rn_responses n') = Some (no, put (fst (process_text (code r) (hash b))) (snd (process_text (code r) (hash b))) pt_empty)
  /\ forall a i o, code r = progress -> ret_account r = Some a -> rn_payments n !! a = Some i -> rn_observers n !! i = Some o ->
       po_amount o <= account_balance (n_store x) a -> answers (po_request o) n' = 1%nat.
Proof.
  intros I%payment_run_inv Hno Hok Hwork Hbody Haction Hblock Harrival Hrun.
  destruct (notice_runs asked b r (submitted arrival x n)) as (n' & Hn & I' & Hs & Hu & Hw); [by apply (payments_inv_same asked n)|].
  eexists. split; [by eapply process_submits|]. split_and!; [exact Hs|exact Hu|exact (last_snoc _ _)|].
  intros a i o Hc Ha Hi Ho Hle. specialize (Hw a i o Hc Ha Hi Ho Hle). pose proof (pv_answers _ _ I' (po_request o)) as Hans.
  assert (Hasked : po_request o ∈ asked) by (by eapply (pv_asked _ _ I)). rewrite Hw, decide_True in Hans by done.
  unfold answers in *. unfold answered. cbn [rn_responses set_responses]. rewrite filter_app, length_app, Hans, filter_cons_False; [reflexivity|].
  cbn [fst]. intros ->. contradiction.
Qed.

(** ** Keys that are lost *)

(** Moving a key of a wallet within the wallet erases it. *)
Lemma move_self_erases w k prv : valid_password w = true -> fetch w k = Some prv ->
  exists w', wallet_move_self [k] w = Ok (false, w') /\ entries w' = delete k (entries w).
Proof.
  intros Hv Hf. unfold wallet_move_self, st_bind, st_get, st_assert. rewrite Hv. unfold st_ret. cbn [move_keys_self]. unfold st_bind, st_get. rewrite Hf.
  assert (Hk : ed25519_publickey prv = k).
  { unfold fetch in Hf. cbv zeta in Hf. lazymatch type of Hf with match ?x with _ => _ end = _ => destruct x as [z|] end; [|discriminate Hf].
    destruct (Z.eqb_spec k (ed25519_publickey z)); congruence. }
  unfold insert_adhoc, st_bind, st_get, st_assert. rewrite Hv. unfold st_ret, entry_put_raw, st_put. rewrite Hk.
  unfold erase, st_bind, st_get, st_assert. cbn [entries set_entries]. rewrite bool_decide_true by (rewrite lookup_insert_eq; by eexists).
  unfold st_ret, st_put. eexists. split; [reflexivity|]. cbn. by rewrite delete_insert_eq.
Qed.

(** The request to move an account of a wallet to the same wallet erases the account
    and its key, and answers that it was moved. *)
Theorem move_within_wallet_loses_key n body request id w k prv label c :
  control = true -> rn_items n !! id = Some w -> valid_password (w_store w) = true -> fetch (w_store w) k = Some prv -> fits 256 id -> fits 256 k ->
  read_json body = Some request -> pt_get request (str "action") = Some (str "account_move") ->
  pt_get request (str "wallet") = Some (encode_hex256 id) -> pt_get request (str "source") = Some (encode_hex256 id) ->
  (exists t, pt_get_child request (str "accounts") = Some t /\ pt_children t = [(label, c)]) -> pt_data c = encode_hex256 k ->
  exists n' w', process_request fuel control no d body n = Ok (inr tt, answered [(no, put "moved" (str "1") pt_empty)] n')
  /\ rn_items n' !! id = Some w' /\ entries (w_store w') = delete k (entries (w_store w)).
Proof.
  intros Hcontrol Hitem Hv Hf Hid Hk Hbody Haction Hwallet Hsource (t & Hchild & Hl) Hdata.
  assert (Hhex : get_hex 256 (encode_hex256 k) = Some (k, true)) by (unfold encode_hex256; rewrite put_hex_text by apply Hk; by apply get_hex_text).
  assert (Hback : forall h, fits 256 h -> decode_hex256 (encode_hex256 h) = Some h) by (intros h Hh; exact (proj2 (proj1 (proj2 (text_read_back h)) Hh))).
  destruct (move_self_erases (w_store w) k prv Hv Hf) as (x & Hx & He).
  exists (set_items (insert id (MkWallet x (free_accounts w))) n), (MkWallet x (free_accounts w)). split_and!; [|cbn; apply lookup_insert_eq|exact He].
  unfold process_request, h_catch. rewrite Hbody. rewrite (request_runs fuel no control d request "account_move" _ Haction eq_refl eq_refl).
  unfold account_move, controlled, get, get_child. rewrite Hcontrol, Hwallet, bind_ret, Hsource, bind_ret, Hchild, bind_ret.
  unfold on_item, on_hex. rewrite !Hback by done. unfold h_bind at 1, h_get at 1. rewrite Hitem. unfold h_bind at 1, h_get at 1. rewrite Hitem.
  rewrite Hl. cbn [move_accounts]. rewrite Hdata.
  assert (Hlen : negb (length (encode_hex256 k) =? 0)%nat && (length (encode_hex256 k) <=? 64)%nat = true).
  { specialize (Hback k Hk). unfold decode_hex256 in Hback. destruct (negb _ && _); [done|discriminate Hback]. }
  rewrite Hlen, Hhex. unfold h_bind at 1, h_res. unfold h_bind at 1, move_items. rewrite Z.eqb_refl. unfold on_wallet_store.
  rewrite Hitem, Hx. reflexivity.
Qed.

(** The rows of a wallet that are not accounts, numbered from 0 to 6, can be named as
    accounts: the request to remove account 1 erases the salt. *)
Theorem remove_erases_special_row n body request id w k v :
  control = true -> rn_items n !! id = Some w -> valid_password (w_store w) = true ->
  entries (w_store w) !! k = Some v -> 0 <= k < special_count -> fits 256 id ->
  read_json body = Some request -> pt_get request (str "action") = Some (str "account_remove") ->
  pt_get request (str "wallet") = Some (encode_hex256 id) -> pt_get request (str "account") = Some (to_account k) ->
  exists n' w', process_request fuel control no d body n = Ok (inr tt, answered [(no, put "removed" (str "1") pt_empty)] n')
  /\ rn_items n' !! id = Some w' /\ entries (w_store w') = delete k (entries (w_store w)).
Proof.
  intros Hcontrol Hitem Hv He Hk Hid Hbody Haction Hwallet Haccount.
  assert (Hrun : erase k (w_store w) = Ok (tt, set_entries (delete k) (w_store w))).
  { unfold erase, st_bind, st_get, st_assert. by rewrite bool_decide_true by (by eexists). }
  exists (set_items (insert id (MkWallet (set_entries (delete k) (w_store w)) (free_accounts w))) n),
         (MkWallet (set_entries (delete k) (w_store w)) (free_accounts w)). split_and!; [|cbn; apply lookup_insert_eq|reflexivity].
  unfold process_request, h_catch. rewrite Hbody. rewrite (request_runs fuel no control d request "account_remove" _ Haction eq_refl eq_refl).
  unfold account_remove, controlled, get. rewrite Hcontrol, Hwallet, bind_ret, Haccount, bind_ret. unfold on_item, on_hex.
  rewrite (proj2 (proj1 (proj2 (text_read_back id)) Hid)). unfold h_bind at 1, h_get. rewrite Hitem, Hv. unfold on_account.
  rewrite to_account_back by (unfold fits, special_count in *; lia). unfold h_bind at 1, h_res.
  assert (Hex : key_exists (w_store w) k = true) by (apply first_from_found; by eexists).
  rewrite Hex. unfold h_bind at 1, on_wallet_store. rewrite Hitem, Hrun. reflexivity.
Qed.

(** ** A loop that does not end *)

(** In a locked wallet no account is made and nothing changes, however often. *)
Lemma accounts_create_locked turns id w count generate_work n t :
  rn_items n !! id = Some w -> valid_password (w_store w) = false -> Z.of_nat (pt_size t) < count ->
  accounts_create_loop fuel turns id count generate_work t n = Fault Out_of_fuel.
Proof.
  intros Hitem Hv Hcount. revert n Hitem. induction turns as [|turns IH]; intros n Hitem; cbn [accounts_create_loop];
    rewrite (proj2 (Z.ltb_lt _ _)) by done; [done|].
  unfold h_bind, on_wallet. rewrite Hitem. unfold wallet_deterministic_insert_work, st_bind, st_get. cbn [wn_wallet]. rewrite Hv. unfold st_ret.
  change (is_zero 0) with true. cbn [negb]. apply IH. cbn. rewrite lookup_insert_eq. by destruct w.
Qed.

(** The request to create accounts in a locked wallet never ends: no fuel suffices. *)
Theorem accounts_create_never_ends n body request id w t count :
  control = true -> rn_items n !! id = Some w -> valid_password (w_store w) = false -> fits 256 id ->
  read_json body = Some request -> pt_get request (str "action") = Some (str "accounts_create") ->
  pt_get request (str "wallet") = Some (encode_hex256 id) ->
  pt_get request (str "count") = Some t -> decode_unsigned t 0 = (false, count) -> 0 < count ->
  process_request fuel control no d body n = Fault Out_of_fuel.
Proof.
  intros Hcontrol Hitem Hv Hid Hbody Haction Hwallet Hcount Ht Hpos.
  unfold process_request, h_catch. rewrite Hbody. rewrite (request_runs fuel no control d request "accounts_create" _ Haction eq_refl eq_refl).
  unfold accounts_create, controlled, get. rewrite Hcontrol, Hwallet, bind_ret. unfold on_hex.
  rewrite (proj2 (proj1 (proj2 (text_read_back id)) Hid)), Hcount, bind_ret, Ht. unfold is_zero. rewrite (proj2 (Z.eqb_neq count 0)) by lia.
  cbn [negb andb]. unfold h_bind at 1, h_get. rewrite Hitem. unfold h_bind at 1.
  rewrite (accounts_create_locked fuel id w count _ n pt_empty Hitem Hv); [done|]. by rewrite empty_size.
Qed.

(** ** Numbers that are too big *)

(** A multiple of the unit that does not fit is answered modulo 2^128 when that is
    larger than the number. *)
Theorem too_big_amount_answered n body request t amount :
  read_json body = Some request -> pt_get request (str "action") = Some (str "mrai_to_raw") ->
  pt_get request (str "amount") = Some t -> decode_dec128 t = Some amount ->
  amount < (amount * Mxrb_ratio) mod 2 ^ 128 ->
  process_request fuel control no d body n
  = Ok (inr tt, answered [(no, put "amount" (dec ((amount * Mxrb_ratio) mod 2 ^ 128)) pt_empty)] n).
Proof.
  intros Hbody Haction Ht Hdec Hlt. unfold process_request, h_catch. rewrite Hbody.
  rewrite (request_runs fuel no control d request "mrai_to_raw" _ Haction eq_refl eq_refl). unfold mrai_to_raw, get. rewrite Ht, bind_ret.
  unfold on_dec. rewrite Hdec. cbv zeta. unfold wrap. rewrite (proj2 (Z.ltb_lt _ _)) by done. reflexivity.
Qed.

Example too_big_amount : 2 ^ 128 <= 340282367 * Mxrb_ratio /\ 340282367 < (340282367 * Mxrb_ratio) mod 2 ^ 128.
Proof. split; vm_compute; discriminate || reflexivity. Qed.
End Requests.

(** The port 99999 is taken, as 34463. *)
Example big_port : parse_port (str "99999") = Some (false, 34463).
Proof. reflexivity. Qed.
