(* ===== verification/RpcExamples.v ===== *)
(** * Requests to a small node

    A server on the small ledger with one wallet: a history, delegators, a chain in
    both directions, requests without control, a payment that is waited for and then
    made by a block that is submitted. *)
From Stdlib Require Import ZArith Lia List Ascii String.
From stdpp Require Import prelude strings gmap sorting.
From S2P Require Import Prelude Lists Numbers Streams Blocks Store Ledger StoreFacts LedgerInv LedgerQueries LedgerTheorems LedgerExamples Votes VotesExamples Work Messages Unchecked Processor ProcessorExamples Peers BootstrapServer Wallet WalletActions WalletExamples NodeNetworkExamples NumberText Json JsonTheorems Conversions TextExamples Rpc RpcLedger RpcWallet RpcServer RpcControl RpcQueries RpcAnswers RpcPayments RpcBehaviours.

#[local] Existing Instance in_order.
#[local] Existing Instance sample_node.
#[local] Existing Instance sorted_peers.
#[local] Existing Instance searched_work.

#[export] Instance version_10 : RpcVersion := {| version_major := 10; version_minor := 0; store_version := 10 |}.

Definition sample_drawn : drawn := Drawn 5 900 9 true (sample_random 3) 0 id (fun s => default 0 (List.hd_error (elements s))) 0.

Definition sample_rpc (s : store) : rpc_node :=
  RpcNode (Node s unchecked_empty [] 0 []) (BlockArrival [] 0) {[ 900 := MkWallet owner_wallet ∅ ]} [] [] 0 []
    (peer_container_new (Endpoint 1 7075)) [] ∅ [] [].

Definition request_of (l : list (string * list ascii)) : tree := fold_left (fun t x => put (fst x) (snd x) t) l pt_empty.
Definition body_of (l : list (string * list ascii)) : list ascii := write_json (request_of l).

Definition count_10 : list ascii := str "10".

(** ** Without control *)

Definition stop_fields : list (string * list ascii) := [("action", str "stop")]%string.

(** A handler that ends without an exception, and the state it leaves. *)
Definition normal {S} (r : res ((exception + unit) * S)) : bool := match r with Ok (inr _, _) => true | _ => false end.
Definition end_of {A S} (r : res (A * S)) (s : S) : S := match r with Ok (_, s') => s' | Fault _ => s end.

Definition value_of {A} (r : res A) : option A := match r with Ok a => Some a | Fault _ => None end.

Lemma normal_end {S} (r : res ((exception + unit) * S)) s : normal r = true -> r = Ok (inr tt, end_of r s).
Proof. by destruct r as [[[|[]] s']|]. Qed.

Lemma control_protects_witness :
  exists r n', process_request 5 false 3 sample_drawn (body_of stop_fields) (sample_rpc ledger_4) = Ok (r, n')
  /\ only_answers 3 (sample_rpc ledger_4) n'.
Proof.
  pose proof (normal_end (process_request 5 false 3 sample_drawn (body_of stop_fields) (sample_rpc ledger_4)) (sample_rpc ledger_4) ltac:(vm_compute; reflexivity)) as Hrun.
  eexists _, _. split; [exact Hrun|]. apply (control_protects 5 3 sample_drawn (body_of stop_fields) _ _ _ Hrun).
  intros request k Hbody Ha. assert (Hr : read_json (body_of stop_fields) = Some (request_of stop_fields)) by (vm_compute; reflexivity).
  rewrite Hr in Hbody. injection Hbody as <-. assert (Hs : pt_get (request_of stop_fields) (str "action") = Some (str "stop")) by (vm_compute; reflexivity).
  rewrite Hs in Ha. injection Ha as Ha. apply (str_inj "stop") in Ha. subst k. vm_compute. intuition discriminate.
Defined.

(** ** Queries *)

Lemma get_in t k v : pt_get t k = Some v -> In v (map (fun x => tree_data (snd x)) (tree_children t)).
Proof.
  cbn. unfold tree_get. induction (tree_children t) as [|[x c] l IH]; [done|]. cbn. case_bool_decide; [intros [= <-]; by left|].
  intros Hv. right. by apply IH.
Qed.

Definition balance_fields : list (string * list ascii) := [("action", str "account_balance"); ("account", to_account other_account)]%string.

Lemma queries_answered_witness :
  exists t, process_request 5 false 3 sample_drawn (body_of balance_fields) (sample_rpc ledger_4) = Ok (inr tt, answered [(3%nat, t)] (sample_rpc ledger_4)).
Proof.
  apply (queries_answered 5 3 false sample_drawn live_genesis 4 (sample_rpc ledger_4) (body_of balance_fields) (request_of balance_fields) "account_balance").
  - exact reach_4.
  - apply fuel_ok. lia.
  - exact no_unchecked_ok.
  - vm_compute. reflexivity.
  - vm_compute. reflexivity.
  - left. reflexivity.
  - intros key t Ht%get_in. revert t Ht. apply (proj1 (forallb_forall benign _)). vm_compute. reflexivity.
Defined.

Definition largest_fields : list (string * list ascii) := [("action", str "account_balance"); ("account", to_account largest_account)]%string.

Lemma largest_account_stops_node_witness :
  process_request 5 false 3 sample_drawn (body_of largest_fields) (sample_rpc ledger_4) = Fault Assertion_failed.
Proof.
  apply (largest_account_stops_node 5 3 false sample_drawn (sample_rpc ledger_4) (body_of largest_fields) (request_of largest_fields)
    live_account send_3_hash (PendingInfo live_account 50)); vm_compute; reflexivity.
Defined.

(** ** Answers *)

Definition history_request : list (string * list ascii) :=
  [("action", str "account_history"); ("account", to_account live_account); ("count", count_10)]%string.

Definition head_info (s : store) (a : account) : Store.account_info := default account_info_default (accounts s !! a).

Lemma history_adds_up_witness :
  exists answer entries,
    process_request 5 false 3 sample_drawn (body_of history_request) (sample_rpc ledger_4) = Ok (inr tt, answered [(3%nat, answer)] (sample_rpc ledger_4))
    /\ pt_get_child answer (str "history") = Some entries
    /\ total (map (fun x => signed_amount (snd x)) (pt_children entries)) = Some (balance_of (head_info ledger_4 live_account)).
Proof.
  apply (history_adds_up 5 3 false sample_drawn live_genesis 4 (sample_rpc ledger_4) (body_of history_request) (request_of history_request)
    live_account (head_info ledger_4 live_account) count_10 10).
  - exact reach_4.
  - apply fuel_ok. lia.
  - vm_compute. split; congruence.
  - vm_compute. reflexivity.
  - vm_compute. reflexivity.
  - vm_compute. reflexivity.
  - vm_compute. reflexivity.
  - vm_compute. reflexivity.
  - vm_compute. reflexivity.
  - lia.
Defined.

Definition delegators_request : list (string * list ascii) := [("action", str "delegators"); ("account", to_account live_account)]%string.

Lemma delegators_weight_witness :
  exists answer rows,
    process_request 5 false 3 sample_drawn (body_of delegators_request) (sample_rpc ledger_4) = Ok (inr tt, answered [(3%nat, answer)] (sample_rpc ledger_4))
    /\ pt_get_child answer (str "delegators") = Some rows
    /\ (forall a i, accounts ledger_4 !! a = Some i ->
          In (to_account a) (map fst (pt_children rows)) <-> repr (entry_at ledger_4) (rep_block i) = live_account)
    /\ total (map (fun x => decode_dec128 (pt_data (snd x))) (pt_children rows)) = Some (weight ledger_4 live_account).
Proof.
  apply (delegators_weight 5 3 false sample_drawn live_genesis 4 (sample_rpc ledger_4) (body_of delegators_request) (request_of delegators_request) live_account).
  - exact reach_4.
  - apply fuel_ok. lia.
  - vm_compute. split; congruence.
  - vm_compute. split; congruence.
  - vm_compute. reflexivity.
  - vm_compute. reflexivity.
  - vm_compute. reflexivity.
Defined.

Definition chain_request : list (string * list ascii) :=
  [("action", str "chain"); ("block", encode_hex256 send_3_hash); ("count", count_10)]%string.
Definition successors_request : list (string * list ascii) :=
  [("action", str "successors"); ("block", encode_hex256 live_genesis_hash); ("count", count_10)]%string.

Lemma chain_and_successors_witness :
  exists answer rows answer' rows',
    process_request 5 false 3 sample_drawn (body_of chain_request) (sample_rpc ledger_4) = Ok (inr tt, answered [(3%nat, answer)] (sample_rpc ledger_4))
    /\ pt_get_child answer (str "blocks") = Some rows
    /\ process_request 5 false 4 sample_drawn (body_of successors_request) (sample_rpc ledger_4) = Ok (inr tt, answered [(4%nat, answer')] (sample_rpc ledger_4))
    /\ pt_get_child answer' (str "blocks") = Some rows'
    /\ texts_of rows' = rev (texts_of rows).
Proof.
  apply (chain_and_successors 5 false sample_drawn live_genesis 4 (sample_rpc ledger_4) live_account (head_info ledger_4 live_account)
    3 (body_of chain_request) (request_of chain_request) count_10 10 4 (body_of successors_request) (request_of successors_request) count_10 10);
    first [exact reach_4 | apply fuel_ok; lia | lia | vm_compute; reflexivity | vm_compute; split; congruence].
Defined.

(** ** A payment *)

Definition wait_request_fields : list (string * list ascii) :=
  [("action", str "payment_wait"); ("account", to_account live_account); ("amount", to_dec (genesis_amount - 100)); ("timeout", str "1000")]%string.

(** The node while a client waits for the account to have 50 more. *)
Definition waiting_rpc : rpc_node :=
  end_of (process_request 5 false 1 sample_drawn (body_of wait_request_fields) (sample_rpc ledger_4)) (sample_rpc ledger_4).

Lemma waiting_run : payment_run 5 false sample_drawn [1%nat] waiting_rpc.
Proof.
  apply (Pay_request 5 false sample_drawn [] (sample_rpc ledger_4) 1 (body_of wait_request_fields) (request_of wait_request_fields) waiting_rpc).
  - apply Pay_start. done.
  - intros Hx. by apply not_elem_of_nil in Hx.
  - vm_compute. reflexivity.
  - vm_compute. reflexivity.
  - apply normal_end. vm_compute. reflexivity.
Qed.


Example one_waits : waiting 1 waiting_rpc = true /\ answers 1 waiting_rpc = 0%nat /\ rn_payments waiting_rpc !! live_account = Some 0%nat.
Proof. vm_compute. done. Qed.

(** The account receives what it sent itself, with work for the test network. *)
Definition receive_5 : receive_block := ReceiveBlock (receive_h receive_4) (receive_signature receive_4) 472.

Definition submit_fields : list (string * list ascii) := [("action", str "process"); ("block", serialize_json (Receive receive_5))]%string.

Definition arrived_5 : block_arrival :=
  end_of (arrival_add (hash (Receive receive_5)) (rn_arrival waiting_rpc)) (rn_arrival waiting_rpc).
Definition processed_5 : option (process_return * node) := value_of (process_receive_one (Receive receive_5) (rn_node waiting_rpc)).
Definition result_5 : process_return := default (ProcessReturn old None None None) (fst <$> processed_5).
Definition node_5 : node := default (rn_node waiting_rpc) (snd <$> processed_5).

Lemma submitted_block_processed_witness :
  exists n', process_request 5 false 2 sample_drawn (body_of submit_fields) waiting_rpc = Ok (inr tt, n')
  /\ rn_store n' = n_store node_5 /\ n_unchecked (rn_node n') = n_unchecked node_5
  /\ last (rn_responses n') = Some (2%nat, put (fst (process_text (code result_5) (hash (Receive receive_5))))
       (snd (process_text (code result_5) (hash (Receive receive_5)))) pt_empty)
  /\ forall a i o, code result_5 = progress -> ret_account result_5 = Some a -> rn_payments waiting_rpc !! a = Some i ->
       rn_observers waiting_rpc !! i = Some o -> po_amount o <= account_balance (n_store node_5) a -> answers (po_request o) n' = 1%nat.
Proof.
  apply (submitted_block_processed 5 2 false sample_drawn [1%nat] waiting_rpc (body_of submit_fields) (request_of submit_fields) (Receive receive_5)
    arrived_5 node_5 result_5).
  - exact waiting_run.
  - apply (bool_decide_unpack _). vm_compute. exact I.
  - apply (bool_decide_unpack _). vm_compute. exact I.
  - vm_compute. reflexivity.
  - vm_compute. reflexivity.
  - vm_compute. reflexivity.
  - vm_compute. reflexivity.
  - vm_compute. reflexivity.
  - vm_compute. reflexivity.
Defined.

(** The block is accepted, and the request that waited is told. *)
Example payment_made :
  code result_5 = progress
  /\ match process_request 5 false 2 sample_drawn (body_of submit_fields) waiting_rpc with
     | Ok (_, n) => map (fun x => (fst x, pt_get (snd x) (str "status"))) (rn_responses n) = [(1%nat, Some (str "success")); (2%nat, None)]
     | Fault _ => False
     end.
Proof. vm_compute. done. Qed.
